(* ===== verification/_CoqProject ===== *)
-Q . S2P
Prelude.v
Params.v
Bytes.v
CString.v
Buf.v
Memide.v
Ide.v
IdeSpec.v
IdeDev.v
Links.v
Bio.v
BioSpec.v
Log.v
LogSpec.v
Tx.v
Crash.v
Ops.v
Fs.v
FsBlocks.v
FsFile.v
FsExample.v
FsDir.v
FsPath.v
FsPathExample.v
Mkfs.v
MkfsSpec.v
MkfsImage.v
MkfsBoot.v
Kalloc.v
Mp.v
Vm.v
VmSpec.v
VmFork.v
VmThms.v
Pipe.v
PipeSpec.v
File.v
FileSpec.v
FileExample.v
Syscall.v
Sysfile.v
SysfileSpec.v
SysfileExample.v
Spinlock.v
Proc.v
ProcSpec.v
ProcRefine.v
ProcFork.v
ProcMem.v
Trap.v
TrapSpec.v
TrapExample.v
Exec.v
ExecMem.v
ExecSpec.v
ExecExample.v
Grep.v
Ulib.v
Wc.v
Printf.v
Kbd.v
Cmos.v
Uthread.v
Sh.v
ShPrint.v
ShRun.v
Console.v
ConsoleSpec.v
Umalloc.v
UmallocSpec.v
