(* ===== verification/Prelude.v ===== *)
(** * xv6-advanced: a verification development

    The program is a Unix-like teaching kernel for the x86 (xv6, with
    alarm(), date() and user threads added), its user programs, and mkfs,
    which makes its disk image.  The development is a shallow embedding of the
    C code under src/: one definition per function, with the same name, and one
    file per component.

    ** How C code is modelled

    A function that works on a state [S] and returns an [A] is a term of
    [M S A] (below in this file): it returns ([Ok]), calls panic() ([Panic]),
    runs into undefined behaviour of C ([Fault]: a wild pointer, an index out
    of an array), gives up the CPU in sleep() ([Sleep]) or runs out of fuel
    ([NoFuel]).  [wp m Q s] is total correctness: [m] returns from [s], in a
    state and with a result in [Q].  So every theorem stated with [wp] also
    says that there is no panic, no fault and no endless loop.  Integers are
    [Z] with the wrap-around of their width written out ([u32], [s16], ... in
    Params.v).  A pointer into an array of structs is an index; where the
    code relies on the layout of memory (page tables, free lists, trap frames,
    the heap, stacks of threads) the model has addresses and bytes or words.

    A layer is proved against an interface of the layer below, a type class
    with its laws, and the layer below discharges the laws:
    - [BlockDev] of Buf.v (iderw(), of memide.c in Memide.v and of ide.c in
      IdeDev.v),
    - [AtaDisk] of Ide.v (the ports of the disk controller; hardware),
    - [BufLayer], [TxLayer], [OpLayer] of Log.v with the laws of Tx.v and
      Ops.v (bio.c and log.c, as fs.c and the system calls use them),
    - [KernelImage] of Kalloc.v (where the linker puts the kernel),
    - [HasProc] of Syscall.v and [ProcFiles] of Proc.v (what syscall.c needs of
      the process, and proc.c of open files and inodes).

    ** Files of the development

    Foundations.  Prelude.v: outcomes, [wp], loops, lists.  Params.v: param.h,
    fs.h, stat.h constants and machine integers.  Bytes.v: little-endian
    encoding.  CString.v: string.c.

    Disk.  Buf.v: buf.h, sleeplock.c, the interface of a disk.  Memide.v:
    memide.c.  Ide.v, IdeSpec.v, IdeDev.v: ide.c, with its request queue
    threaded through the buffers and the processes that sleep on them; requests
    are served in order, each sleeper is woken, and the driver implements the
    interface.  Links.v, Bio.v, BioSpec.v: bio.c, the least-recently-used list
    and the contract of the cache.  Log.v, LogSpec.v, Tx.v, Crash.v, Ops.v:
    log.c; a transaction is atomic with respect to a crash after any block
    write, also one during recovery.

    File system.  Fs.v: fs.c.  FsBlocks.v (bitmap), FsFile.v (readi(),
    writei()), FsDir.v (directories), FsPath.v (inode cache, path names):
    what the functions do, as changes of a file's bytes, of a list of entries
    and of a tree.  Mkfs.v, MkfsSpec.v, MkfsImage.v, MkfsBoot.v: mkfs.c; the
    image that it writes is a tree for the theorems about fs.c, with every
    file under its name.  FsExample.v and FsPathExample.v hold a small disk.

    Memory.  Kalloc.v: kalloc.c.  Vm.v, VmSpec.v, VmFork.v, VmThms.v: vm.c,
    with page tables in the pages of the allocator.

    Processes.  Spinlock.v: spinlock.c, one memory access at a time on any
    number of CPUs.  Proc.v: proc.c, cut at swtch().  ProcSpec.v: the process
    table as a transition system with its invariants.  ProcRefine.v: the code
    takes these steps.  ProcFork.v, ProcMem.v: fork() and growproc().  Trap.v,
    TrapSpec.v, TrapExample.v: trap.c, with the alarm.  Exec.v, ExecMem.v,
    ExecSpec.v, ExecExample.v: exec.c and loaduvm().

    System calls.  Pipe.v, PipeSpec.v: pipe.c, with any interleaving of readers
    and writers.  File.v, FileSpec.v, FileExample.v: file.c and pipealloc().
    Syscall.v: syscall.c and sysproc.c.  Sysfile.v, SysfileSpec.v,
    SysfileExample.v: sysfile.c.

    Devices.  Console.v, ConsoleSpec.v: console.c and uartputc().  Kbd.v:
    kbd.c.  Cmos.v: cmostime() of lapic.c.  Mp.v: mp.c, the search for the
    tables of the BIOS and the processors that mpinit() takes from them.

    User programs.  Ulib.v: ulib.c.  Printf.v: printf.c.  Umalloc.v,
    UmallocSpec.v: umalloc.c.  Uthread.v: uthread.c and uthread_switch.S.
    Grep.v: grep.c.  Wc.v: wc.c and cat.c.  Sh.v, ShPrint.v, ShRun.v: sh.c.

    ** What the theorems show

    - Crash safety: [Crash.end_op_crash_atomic],
      [Crash.recovery_crash_idempotent].
    - Files: a write changes exactly the bytes it should
      ([FsFile.writei_correct], [FileSpec.filewrite_correct] for a write that
      takes many transactions); names lead where the directories say
      ([FsPath.namex_correct], [FsDir.dirlink_correct]); open() and the
      counting of references ([SysfileSpec.open_correct],
      [SysfileSpec.calls_accounted]); the image ([MkfsBoot.mkfs_correct]).
    - Memory: no page is given out twice ([Kalloc.kalloc_exclusive]); what
      fork(), sbrk(), exec() and the copies between user and kernel do to the
      bytes of an address space and to the free pages (VmThms.v, ProcFork.v,
      ProcMem.v, [ExecSpec.exec_correct]).
    - Processes: invariants of the process table for all interleavings
      (ProcSpec.v), that the code refines it (ProcRefine.v), mutual exclusion
      ([Spinlock.mutual_exclusion]), and that a killed process never gets back
      to user mode ([TrapSpec.killed_never_returns]).
    - Communication: pipes and the disk queue are first in, first out and lose
      no wakeup (PipeSpec.v, IdeSpec.v); the console refines a line editor
      ([ConsoleSpec.console_refines]).
    - Safety of system-call arguments: [Syscall.args_safe].
    - User code: the allocator ([UmallocSpec.malloc_free_intact]), the matcher
      against the language of a pattern ([Grep.match_correct]), the shell's
      parser and what it runs ([ShPrint.parsecmd_print],
      [ShRun.run_line_correct]).

    A theorem with hypotheses comes with a witness, an application of it to a
    concrete state (in a Module [Example] or an Example file).

    ** Bounds and fuel

    The loops whose number of iterations is not the length of a list have fuel
    that is computed from the state and proved to be enough, because [NoFuel]
    is not a result that [wp] admits: the number of buffers for a walk of the
    cache or of the disk queue, the number of frames for freerange(), the
    number of pages or bytes left for the loops of vm.c, the blocks of the
    heap for malloc(), the length of the line for the shell's parser.  Three
    loops wait for a device or for memory to change: idewait() (the laws of
    the controller bound it), cmostime() (that the clock holds still for one
    reading, at some time, is a hypothesis) and the spin of acquire() (a step
    relation, without fuel).  mpinit() has its fuel as an argument: as many
    steps as the table has entries are enough, and with an entry of an unknown
    type no number of steps is ([Mp.mpinit_unknown]), as the C loop does not
    end.

    ** Not modelled

    - Concurrency inside the file system: fs.c, log.c and bio.c are modelled as
      one process runs them between two sleeps on locks; a second process that
      holds a sleep lock shows as [Sleep].
    - Messages of cprintf() in error branches, getcallerpcs(), procdump().
    - seginit(), lapicinit(), ioapicinit(), picinit() and the boot code: writes
      of constants to device registers and machine state.
    - swtch.S, trapasm.S and usys.S: the kernel is cut at swtch(); the switch
      of user threads, of the same form, is in Uthread.v.
    - The remaining user programs, which pass their arguments to one system
      call each, and the tests (usertests.c, forktest.c, stressfs.c). *)

From stdpp Require Export base numbers list gmap strings.
From Stdlib Require Export ZArith Lia.
#[export] Set Default Goal Selector "!".
#[export] Set Warnings "-clear-no-such-hyp".
#[global] Open Scope Z_scope.

(** ** Outcomes of kernel code

    A C function of the kernel is a function from the state it works on to an
    outcome.  [Ok] returns; [Panic] is a call of panic(), which never returns;
    [Fault] is undefined behaviour of C (a null or wild pointer, an index out
    of an array); [Sleep] is a call of sleep() that gives up the CPU; [NoFuel]
    marks a bounded loop that ran out of iterations. *)

Inductive chan : Type := Chan (obj : string) (idx : Z).

Inductive outcome (S A : Type) : Type :=
  | Ok (a : A) (s : S)
  | Panic (msg : string)
  | Fault (msg : string)
  | Sleep (c : chan) (s : S)
  | NoFuel.
Arguments Ok {S A} a s.
Arguments Panic {S A} msg.
Arguments Fault {S A} msg.
Arguments Sleep {S A} c s.
Arguments NoFuel {S A}.

Definition M (S A : Type) : Type := S -> outcome S A.

Definition ret {S A} (a : A) : M S A := fun s => Ok a s.

Definition bind {S A B} (m : M S A) (k : A -> M S B) : M S B :=
  fun s => match m s with
           | Ok a s' => k a s'
           | Panic e => Panic e
           | Fault e => Fault e
           | Sleep c s' => Sleep c s'
           | NoFuel => NoFuel
           end.

Definition panic {S A} (msg : string) : M S A := fun _ => Panic msg.
Definition fault {S A} (msg : string) : M S A := fun _ => Fault msg.
Definition gets {S A} (f : S -> A) : M S A := fun s => Ok (f s) s.
Definition modify {S} (f : S -> S) : M S unit := fun s => Ok tt (f s).
Definition nofuel {S A} : M S A := fun _ => NoFuel.
Definition sleep_on {S A} (c : chan) : M S A := fun s => Sleep c s.

Declare Scope kernel_scope.
Delimit Scope kernel_scope with K.
#[global] Open Scope kernel_scope.

Notation "'let*' x ':=' m 'in' k" := (bind m (fun x => k))
  (at level 10, x name, m at level 100, k at level 200,
   format "'[v' 'let*'  x  ':='  m  'in' '/' k ']'") : kernel_scope.
Notation "'let*' ' p ':=' m 'in' k" := (bind m (fun p => k))
  (at level 10, p strict pattern, m at level 100, k at level 200) : kernel_scope.
Notation "m ';;;' k" := (bind m (fun _ => k))
  (at level 100, k at level 200, right associativity,
   format "'[v' m  ';;;' '/' k ']'") : kernel_scope.

(** if(c) panic(msg); *)
Definition panic_if {S} (c : bool) (msg : string) : M S unit :=
  if c then panic msg else ret tt.

(** A C array access: out of range is undefined behaviour. *)
Definition from_some {S A} (o : option A) : M S A :=
  match o with Some a => ret a | None => fault "out of bounds" end.

(** for(x in l) body; *)
Fixpoint for_each {S A} (l : list A) (body : A -> M S unit) : M S unit :=
  match l with
  | [] => ret tt
  | x :: l' => body x ;;; for_each l' body
  end.

(** for(x in l){ ... if(..) return r; ... } *)
Fixpoint for_find {S A B} (l : list A) (body : A -> M S (option B)) : M S (option B) :=
  match l with
  | [] => ret None
  | x :: l' =>
      let* r := body x in
      match r with Some b => ret (Some b) | None => for_find l' body end
  end.

(** Running an operation of a component inside a larger state. *)
Definition zoom {S T A} (get : S -> T) (put : T -> S -> S) (m : M T A) : M S A :=
  fun s => match m (get s) with
           | Ok a t => Ok a (put t s)
           | Panic e => Panic e
           | Fault e => Fault e
           | Sleep c t => Sleep c (put t s)
           | NoFuel => NoFuel
           end.

(** Running an operation on a value that the caller holds (a C pointer to a
    local or to a structure outside the caller's own state). *)
Definition on_value {S T A} (m : M T A) (t : T) : M S (A * T) :=
  fun s => match m t with
           | Ok a t' => Ok (a, t') s
           | Panic e => Panic e
           | Fault e => Fault e
           | Sleep c _ => Sleep c s
           | NoFuel => NoFuel
           end.

(** A spinlock as one CPU sees it in straight-line code: [true] when this CPU
    holds it.  acquire() panics when it is already held by this CPU and
    release() when it is not; Spinlock.v has the real lock. *)
Definition acquire {S} (get : S -> bool) (put : bool -> S -> S) : M S unit :=
  fun s => if get s then Panic "acquire" else Ok tt (put true s).
Definition release {S} (get : S -> bool) (put : bool -> S -> S) : M S unit :=
  fun s => if get s then Ok tt (put false s) else Panic "release".

(** ** Total-correctness triples

    [wp m Q s]: run from [s], [m] returns, and the result satisfies [Q]. *)

Definition wp {S A} (m : M S A) (Q : A -> S -> Prop) (s : S) : Prop :=
  match m s with Ok a s' => Q a s' | _ => False end.

Create HintDb wp discriminated.
Create Rewrite HintDb word.
Create Rewrite HintDb flags.

Section wp_rules.
Context {S A B : Type}.
Implicit Types (s : S).

Lemma wp_ret (a : A) Q s : Q a s -> wp (ret a) Q s.
Proof. done. Qed.

Lemma wp_bind (m : M S A) (k : A -> M S B) Q s :
  wp m (fun a s' => wp (k a) Q s') s -> wp (bind m k) Q s.
Proof. unfold wp, bind. by destruct (m s). Qed.

Lemma wp_mono (m : M S A) (Q Q' : A -> S -> Prop) s :
  wp m Q s -> (forall a s', Q a s' -> Q' a s') -> wp m Q' s.
Proof. unfold wp. destruct (m s); naive_solver. Qed.

Lemma wp_gets (f : S -> A) Q s : Q (f s) s -> wp (gets f) Q s.
Proof. done. Qed.

Lemma wp_modify (f : S -> S) Q s : Q tt (f s) -> wp (modify f) Q s.
Proof. done. Qed.

Lemma wp_panic_if (c : bool) msg Q s :
  c = false -> Q tt s -> wp (panic_if c msg) Q s.
Proof. by intros ->. Qed.

Lemma wp_from_some (o : option A) a Q s :
  o = Some a -> Q a s -> wp (from_some o) Q s.
Proof. by intros ->. Qed.

Lemma wp_acquire (get : S -> bool) put Q s :
  get s = false -> Q tt (put true s) -> wp (acquire get put) Q s.
Proof. unfold wp, acquire. by intros ->. Qed.

Lemma wp_release (get : S -> bool) put Q s :
  get s = true -> Q tt (put false s) -> wp (release get put) Q s.
Proof. unfold wp, release. by intros ->. Qed.
End wp_rules.

(** The first two of three steps taken as one. *)
Lemma wp_bind_assoc {S A B C} (m : M S A) (f : A -> M S B) (k : B -> M S C) Q s :
  wp (bind m f) (fun b s' => wp (k b) Q s') s -> wp (bind m (fun a => bind (f a) k)) Q s.
Proof. unfold wp, bind. destruct (m s) as [a s1| | | |]; try done. by destruct (f a s1). Qed.

(** Three statements taken as one. *)
Lemma wp_seq3 {S A1 A2 A3 B} (a : M S A1) (b : M S A2) (c : M S A3) (k : M S B) Q s :
  wp (a ;;; b ;;; c) (fun _ s' => wp k Q s') s -> wp (a ;;; b ;;; c ;;; k) Q s.
Proof.
  unfold wp, bind. destruct (a s) as [? s1| | | |]; try done.
  destruct (b s1) as [? s2| | | |]; try done. by destruct (c s2).
Qed.

(** The loop rule: [I] is indexed by the part of the list already done. *)
Lemma wp_for_each {S A} (l : list A) (body : A -> M S unit)
    (I : list A -> S -> Prop) (Q : unit -> S -> Prop) s :
  I [] s ->
  (forall done x rest s', l = done ++ x :: rest -> I done s' ->
     wp (body x) (fun _ s'' => I (done ++ [x]) s'') s') ->
  (forall s', I l s' -> Q tt s') ->
  wp (for_each l body) Q s.
Proof.
  intros H0 Hstep HQ.
  cut (forall rest don, l = don ++ rest -> forall s, I don s ->
         wp (for_each rest body) (fun _ s' => I l s') s).
  { intros Hcut. eapply wp_mono; [exact (Hcut l [] eq_refl s H0)|].
    intros [] s' ?. by apply HQ. }
  clear s H0 HQ. induction rest as [|x rest IH]; intros don Hl s HI; simpl.
  - rewrite app_nil_r in Hl. subst. by apply wp_ret.
  - apply wp_bind. eapply wp_mono; [by eapply Hstep|].
    intros [] s' HI'. eapply (IH (don ++ [x])); [|done].
    by rewrite <- app_assoc.
Qed.

(** A loop that may return early: the invariant holds while no iteration has
    returned. *)
Lemma wp_for_find {S A B} (l : list A) (body : A -> M S (option B))
    (I : list A -> S -> Prop) (Q : option B -> S -> Prop) s :
  I [] s ->
  (forall l1 x l2 s', l = l1 ++ x :: l2 -> I l1 s' ->
     wp (body x) (fun r s'' => match r with
                               | Some b => Q (Some b) s''
                               | None => I (l1 ++ [x]) s''
                               end) s') ->
  (forall s', I l s' -> Q None s') ->
  wp (for_find l body) Q s.
Proof.
  intros H0 Hstep HQ.
  cut (forall rest don, l = don ++ rest -> forall s, I don s -> wp (for_find rest body) Q s).
  { intros Hcut. exact (Hcut l [] eq_refl s H0). }
  clear s H0. induction rest as [|x rest IH]; intros don Hl s HI; simpl.
  - rewrite app_nil_r in Hl. subst. by apply wp_ret, HQ.
  - apply wp_bind. eapply wp_mono; [by eapply Hstep|]. intros [b|] s' HI'; [done|].
    eapply (IH (don ++ [x])); [|done]. by rewrite <- app_assoc.
Qed.

(** The same rule for a loop over 0 .. n-1, with the invariant indexed by the
    number of iterations done. *)
Lemma wp_for_seq {S} (n : nat) (body : nat -> M S unit)
    (I : nat -> S -> Prop) (Q : unit -> S -> Prop) s :
  I 0%nat s ->
  (forall k s', (k < n)%nat -> I k s' -> wp (body k) (fun _ s'' => I (1 + k)%nat s'') s') ->
  (forall s', I n s' -> Q tt s') ->
  wp (for_each (seq 0 n) body) Q s.
Proof.
  intros H0 Hstep HQ. apply (wp_for_each _ _ (fun l => I (length l))); [done| |].
  - intros l1 x l2 s' Hl HI. assert (x = length l1) as ->.
    { assert (seq 0 n !! length l1 = Some x) as Hx by (rewrite Hl; by apply list_lookup_middle).
      apply lookup_seq in Hx. lia. }
    assert (length l1 < n)%nat.
    { rewrite <- (length_seq n 0), Hl, length_app. simpl. lia. }
    rewrite length_app, Nat.add_comm. by apply Hstep.
  - intros s'. rewrite length_seq. apply HQ.
Qed.

Lemma wp_zoom {S T A} (get : S -> T) put (m : M T A) Q s :
  wp m (fun a t => Q a (put t s)) (get s) -> wp (zoom get put m) Q s.
Proof. unfold wp, zoom. by destruct (m (get s)). Qed.

Lemma wp_on_value {S T A} (m : M T A) (t : T) Q (s : S) :
  wp m (fun a t' => Q (a, t') s) t -> wp (on_value m t) Q s.
Proof. unfold wp, on_value. by destruct (m t). Qed.

Lemma wp_elim {S A} (m : M S A) Q s :
  wp m Q s -> exists a s', m s = Ok a s' /\ Q a s'.
Proof. unfold wp. destruct (m s); naive_solver. Qed.

Lemma wp_intro {S A} (m : M S A) (Q : A -> S -> Prop) s a s' :
  m s = Ok a s' -> Q a s' -> wp m Q s.
Proof. unfold wp. by intros ->. Qed.

(** ** Panics

    [panics m msg s]: run from [s], [m] ends in panic(msg). *)
Definition panics {S A} (m : M S A) (msg : string) (s : S) : Prop := m s = Panic msg.

Lemma panics_bind {S A B} (m : M S A) (k : A -> M S B) msg s :
  wp m (fun a s' => panics (k a) msg s') s -> panics (bind m k) msg s.
Proof. unfold wp, panics, bind. by destruct (m s). Qed.

Lemma panics_here {S A B} (m : M S A) (k : A -> M S B) msg s :
  panics m msg s -> panics (bind m k) msg s.
Proof. unfold panics, bind. by intros ->. Qed.

Lemma panics_if {S} (c : bool) msg (s : S) : c = true -> panics (panic_if c msg) msg s.
Proof. by intros ->. Qed.

Lemma panics_zoom {S T A} (get : S -> T) put (m : M T A) msg s :
  panics m msg (get s) -> panics (zoom get put m) msg s.
Proof. unfold panics, zoom. by intros ->. Qed.

(** The state in which a run that returns ends. *)
Definition final {S A} (m : M S A) (s : S) : S :=
  match m s with Ok _ s' => s' | _ => s end.

Lemma wp_final {S A} (m : M S A) (P : S -> Prop) s : wp m (fun _ s' => P s') s -> P (final m s).
Proof. unfold wp, final. destruct (m s); naive_solver. Qed.

(** [wp_step] runs the next primitive of a program. *)
Ltac wp_step :=
  lazymatch goal with
  | |- wp (bind _ _) _ _ => apply wp_bind
  | |- wp (ret _) _ _ => apply wp_ret
  | |- wp (gets _) _ _ => apply wp_gets
  | |- wp (modify _) _ _ => apply wp_modify
  | |- wp (zoom _ _ _) _ _ => apply wp_zoom
  | |- wp (on_value _ _) _ _ => apply wp_on_value
  | |- wp (panic_if _ _) _ _ => apply wp_panic_if
  | |- wp (acquire _ _) _ _ => apply wp_acquire
  | |- wp (release _ _) _ _ => apply wp_release
  end.
Ltac wp_steps := repeat (wp_step; simpl).

(** ** Generic lemmas *)

Lemma size_add_one (a : Z) (X : gset Z) : (size ({[a]} ∪ X) <= S (size X))%nat.
Proof.
  rewrite size_union_alt, size_singleton.
  pose proof (subseteq_size (X ∖ {[a]}) X ltac:(set_solver)). lia.
Qed.

(** ** Counting *)

Fixpoint countb {A} (p : A -> bool) (l : list A) : Z :=
  match l with
  | [] => 0
  | x :: l => Z.b2z (p x) + countb p l
  end.

Section countb.
Context {A : Type}.
Implicit Types (p q : A -> bool) (l : list A).

Lemma countb_nonneg p l : 0 <= countb p l.
Proof. induction l as [|x l IH]; cbn; [done|]. destruct (p x); cbn; lia. Qed.

Lemma countb_insert p l : forall i x y,
  l !! i = Some x -> countb p (<[i := y]> l) = countb p l - Z.b2z (p x) + Z.b2z (p y).
Proof.
  induction l as [|z l IH]; intros i x y Hi; [done|]. destruct i as [|i]; cbn in *; [injection Hi as ->; lia|].
  pose proof (IH i x y Hi). unfold insert in *. lia.
Qed.

Lemma countb_pos p l i x : l !! i = Some x -> p x = true -> 0 < countb p l.
Proof.
  revert i. induction l as [|z l IH]; intros i Hi Hp; [done|]. pose proof (countb_nonneg p l). destruct i as [|i]; cbn in *.
  - injection Hi as ->. rewrite Hp. cbn. lia.
  - specialize (IH i Hi Hp). destruct (p z); cbn; lia.
Qed.

Lemma countb_ext p q l : (forall i x, l !! i = Some x -> p x = q x) -> countb p l = countb q l.
Proof.
  induction l as [|z l IH]; intros E; [done|]. cbn. rewrite (E 0%nat z eq_refl), IH; [done|]. intros i x. apply (E (S i)).
Qed.
End countb.
