(* ===== verification/Params.v ===== *)
(** Compile-time constants of the kernel (param.h, fs.h, buf.h, mmu.h,
    memlayout.h) and the arithmetic of its fixed-width integers. *)

From S2P Require Import Prelude.

(** param.h *)
Definition NPROC : nat := 64.
Definition KSTACKSIZE : Z := 4096.
Definition NCPU : nat := 8.
Definition NOFILE : nat := 16.
Definition NFILE : nat := 100.
Definition NINODE : nat := 50.
Definition NDEV : Z := 10.
Definition ROOTDEV : Z := 1.
Definition MAXARG : nat := 32.
Definition MAXOPBLOCKS : Z := 10.
Definition LOGSIZE : Z := MAXOPBLOCKS * 3.
Definition NBUF : nat := Z.to_nat (MAXOPBLOCKS * 3).
Definition FSSIZE : Z := 1000.

(** fs.h *)
Definition ROOTINO : Z := 1.
Definition BSIZE : Z := 512.
Definition NDIRECT : Z := 12.
Definition NINDIRECT : Z := BSIZE / 4.
Definition MAXFILE : Z := NDIRECT + NINDIRECT.
Lemma MAXFILE_val : MAXFILE = 140.
Proof. reflexivity. Qed.
Definition sizeof_dinode : Z := 64.
Definition IPB : Z := BSIZE / sizeof_dinode.
Definition BPB : Z := BSIZE * 8.
Definition DIRSIZ : Z := 14.
Definition sizeof_dirent : Z := 16.

(** stat.h *)
Definition T_DIR : Z := 1.
Definition T_FILE : Z := 2.
Definition T_DEV : Z := 3.

(** fcntl.h *)
Definition O_RDONLY : Z := 0x000.
Definition O_WRONLY : Z := 0x001.
Definition O_RDWR : Z := 0x002.
Definition O_CREATE : Z := 0x200.

(** buf.h *)
Definition B_VALID : Z := 2.
Definition B_DIRTY : Z := 4.

#[global] Arguments NBUF : simpl never.

(** ** Machine integers

    A [uint] is a [Z] in [0, 2^32); arithmetic on it wraps. *)

Definition W32 : Z := 2 ^ 32.
Definition u32 (z : Z) : Z := z mod W32.
Definition u16 (z : Z) : Z := z mod 2 ^ 16.
Definition u8 (z : Z) : Z := z mod 2 ^ 8.

(** Conversion to [int] and [short]: two's complement. *)
Definition s32 (z : Z) : Z := (z + 2 ^ 31) mod 2 ^ 32 - 2 ^ 31.
Definition s16 (z : Z) : Z := (z + 2 ^ 15) mod 2 ^ 16 - 2 ^ 15.

Definition is_u32 (z : Z) : Prop := 0 <= z < W32.

Lemma u32_range z : is_u32 (u32 z).
Proof. unfold is_u32, u32, W32. apply Z.mod_pos_bound. lia. Qed.

Lemma u32_small z : is_u32 z -> u32 z = z.
Proof. unfold is_u32, u32. apply Z.mod_small. Qed.

Lemma u32_add_l a b : u32 (u32 a + b) = u32 (a + b).
Proof. unfold u32. by rewrite Zplus_mod_idemp_l. Qed.

Lemma u32_add_r a b : u32 (a + u32 b) = u32 (a + b).
Proof. unfold u32. by rewrite Zplus_mod_idemp_r. Qed.

Lemma u32_sub_l a b : u32 (u32 a - b) = u32 (a - b).
Proof. unfold u32. by rewrite Zminus_mod_idemp_l. Qed.

Lemma u32_sub_r a b : u32 (a - u32 b) = u32 (a - b).
Proof. unfold u32. by rewrite Zminus_mod_idemp_r. Qed.

(** High and low bits that do not overlap *)
Lemma lor_add n a f : 0 <= n -> 0 <= f < 2 ^ n -> Z.lor (Z.shiftl a n) f = a * 2 ^ n + f.
Proof.
  intros Hn Hf. rewrite <- Z.shiftl_mul_pow2 by done. rewrite <- Z.lxor_lor, Z.add_nocarry_lxor; [done| |];
    apply Z.bits_inj_0; intros k; rewrite Z.land_spec.
  all: destruct (decide (k < 0)); [by rewrite Z.testbit_neg_r|].
  all: destruct (decide (k < n)) as [Hk|Hk]; [by rewrite Z.shiftl_spec_low|].
  all: destruct (decide (f = 0)) as [->|]; [by rewrite Z.bits_0, andb_false_r|].
  all: rewrite (Z.bits_above_log2 f); [by rewrite andb_false_r|lia|].
  all: assert (Z.log2 f < n) by (apply Z.log2_lt_pow2; lia); lia.
Qed.

Lemma s32_small z : - 2 ^ 31 <= z < 2 ^ 31 -> s32 z = z.
Proof. intros. unfold s32. rewrite Z.mod_small; lia. Qed.

Lemma s16_small z : - 2 ^ 15 <= z < 2 ^ 15 -> s16 z = z.
Proof. intros. unfold s16. rewrite Z.mod_small; lia. Qed.

Lemma s16_range z : - 2 ^ 15 <= s16 z < 2 ^ 15.
Proof. unfold s16. pose proof (Z.mod_pos_bound (z + 2 ^ 15) (2 ^ 16)). lia. Qed.

Lemma s32_range z : - 2 ^ 31 <= s32 z < 2 ^ 31.
Proof. unfold s32. pose proof (Z.mod_pos_bound (z + 2 ^ 31) (2 ^ 32)). lia. Qed.

(** A short written as two bytes and read back as a short. *)
Lemma s16_u16 z : s16 (u16 z) = s16 z.
Proof. unfold s16, u16. by rewrite Zplus_mod_idemp_l. Qed.

Lemma s32_u32 z : s32 (u32 z) = s32 z.
Proof. unfold s32, u32, W32. by rewrite Zplus_mod_idemp_l. Qed.

#[export] Hint Rewrite u32_add_l u32_add_r u32_sub_l u32_sub_r s16_u16 s32_u32 : word.
