(* ===== verification/Bytes.v ===== *)
(** Byte buffers: disk blocks, pages and C structures laid out in memory.

    A byte is a [Z] in [0, 256); a buffer is a [list Z].  [splice] is a
    memmove() into a buffer, [get_le]/[le_of] read and write little-endian
    integers, which is how the kernel (on x86) casts buffers to structures. *)

From S2P Require Import Prelude Params.

Definition byte_ok (b : Z) : Prop := 0 <= b < 256.
Definition bytes_ok (bs : list Z) : Prop := Forall byte_ok bs.

(** Overwrite [bs] from offset [off] with [new]. *)
Definition splice (off : nat) (new bs : list Z) : list Z :=
  take off bs ++ new ++ drop (off + length new) bs.

Definition slice (off n : nat) (bs : list Z) : list Z := take n (drop off bs).

Fixpoint le_of (n : nat) (z : Z) : list Z :=
  match n with
  | O => []
  | S n => z mod 256 :: le_of n (z / 256)
  end.

Fixpoint of_le (bs : list Z) : Z :=
  match bs with
  | [] => 0
  | b :: bs => b + 256 * of_le bs
  end.

Definition get_le (n off : nat) (bs : list Z) : Z := of_le (slice off n bs).
Definition put_le (n off : nat) (z : Z) (bs : list Z) : list Z :=
  splice off (le_of n z) bs.

Abbreviation get_u32 := (get_le 4).
Abbreviation put_u32 := (put_le 4).
Abbreviation get_u16 := (get_le 2).
Abbreviation put_u16 := (put_le 2).

Lemma length_le_of n z : length (le_of n z) = n.
Proof. revert z. induction n; intros z; simpl; auto. Qed.

Lemma le_of_bytes_ok n z : bytes_ok (le_of n z).
Proof.
  revert z. induction n; intros z; simpl; constructor; [|apply IHn].
  apply Z.mod_pos_bound. lia.
Qed.

Lemma of_le_le_of n z : of_le (le_of n z) = z mod 256 ^ Z.of_nat n.
Proof.
  revert z. induction n as [|n IH]; intros z; simpl.
  - by rewrite Z.mod_1_r.
  - rewrite IH, Nat2Z.inj_succ, Z.pow_succ_r by lia.
    rewrite Z.rem_mul_r by lia. lia.
Qed.

Lemma of_le_range bs : bytes_ok bs -> 0 <= of_le bs < 256 ^ Z.of_nat (length bs).
Proof.
  induction 1 as [|b bs Hb _ IH]; [simpl; lia|].
  cbn [of_le length]. rewrite Nat2Z.inj_succ, Z.pow_succ_r by lia.
  unfold byte_ok in Hb. lia.
Qed.

Lemma le_of_of_le bs : bytes_ok bs -> le_of (length bs) (of_le bs) = bs.
Proof.
  induction 1 as [|b bs Hb _ IH]; [done|]. cbn [of_le length le_of].
  unfold byte_ok in Hb.
  replace ((b + 256 * of_le bs) mod 256) with b; last first.
  { rewrite Z.mul_comm, Z_mod_plus_full. by rewrite Z.mod_small. }
  replace ((b + 256 * of_le bs) / 256) with (of_le bs); last first.
  { rewrite Z.mul_comm, Z_div_plus_full by lia. rewrite Z.div_small; lia. }
  by rewrite IH.
Qed.

Lemma length_splice off new bs :
  (off + length new <= length bs)%nat -> length (splice off new bs) = length bs.
Proof. intros. unfold splice. rewrite !length_app, length_take, length_drop. lia. Qed.

Lemma splice_app off new bs :
  (off + length new <= length bs)%nat ->
  exists l r, bs = l ++ r /\ length l = off /\ splice off new bs = l ++ new ++ drop (length new) r.
Proof.
  intros. exists (take off bs), (drop off bs).
  rewrite take_drop, length_take. split; [done|]. split; [lia|].
  unfold splice. by rewrite drop_drop.
Qed.

Lemma lookup_splice_out off new bs i :
  (off + length new <= length bs)%nat ->
  (i < off \/ off + length new <= i)%nat ->
  splice off new bs !! i = bs !! i.
Proof.
  intros Hlen Hi. unfold splice. destruct Hi as [Hi|Hi].
  - rewrite lookup_app_l by (rewrite length_take; lia). by rewrite lookup_take_lt.
  - rewrite lookup_app_r by (rewrite length_take; lia).
    rewrite length_take, lookup_app_r by lia.
    rewrite lookup_drop. f_equal. lia.
Qed.

Lemma lookup_splice_in off new bs i :
  (off + length new <= length bs)%nat ->
  (off <= i < off + length new)%nat ->
  splice off new bs !! i = new !! (i - off)%nat.
Proof.
  intros Hlen Hi. unfold splice.
  rewrite lookup_app_r by (rewrite length_take; lia).
  rewrite length_take, lookup_app_l by lia. f_equal. lia.
Qed.

Lemma lookup_slice off n (bs : list Z) i :
  slice off n bs !! i = if decide (i < n)%nat then bs !! (off + i)%nat else None.
Proof.
  unfold slice. case_decide.
  - by rewrite lookup_take_lt, lookup_drop.
  - rewrite lookup_take_ge; [done|lia].
Qed.

Lemma length_slice off n bs :
  (off + n <= length bs)%nat -> length (slice off n bs) = n.
Proof. intros. unfold slice. rewrite length_take, length_drop. lia. Qed.

Lemma slice_splice_same off new bs :
  (off + length new <= length bs)%nat ->
  slice off (length new) (splice off new bs) = new.
Proof.
  intros H. apply list_eq. intros i. rewrite lookup_slice. case_decide as Hi.
  - rewrite lookup_splice_in by lia. f_equal. lia.
  - symmetry. apply lookup_ge_None. lia.
Qed.

Lemma slice_splice_other off new bs off' n :
  (off + length new <= length bs)%nat ->
  (off' + n <= off \/ off + length new <= off')%nat ->
  slice off' n (splice off new bs) = slice off' n bs.
Proof.
  intros H Hd. apply list_eq. intros i. rewrite !lookup_slice. case_decide; [|done].
  apply lookup_splice_out; [done|]. lia.
Qed.

Lemma splice_bytes_ok off new bs :
  bytes_ok new -> bytes_ok bs -> bytes_ok (splice off new bs).
Proof.
  unfold bytes_ok. intros. unfold splice.
  repeat apply Forall_app_2; auto using Forall_take, Forall_drop.
Qed.

Lemma slice_bytes_ok off n bs : bytes_ok bs -> bytes_ok (slice off n bs).
Proof. intros. unfold slice, bytes_ok. auto using Forall_take, Forall_drop. Qed.

Lemma length_put_le n off z bs :
  (off + n <= length bs)%nat -> length (put_le n off z bs) = length bs.
Proof. intros. unfold put_le. apply length_splice. by rewrite length_le_of. Qed.

Lemma put_le_bytes_ok n off z bs : bytes_ok bs -> bytes_ok (put_le n off z bs).
Proof. intros. apply splice_bytes_ok; auto using le_of_bytes_ok. Qed.

Lemma get_put_le n off z bs :
  (off + n <= length bs)%nat ->
  get_le n off (put_le n off z bs) = z mod 256 ^ Z.of_nat n.
Proof.
  intros. unfold get_le, put_le.
  pose proof (slice_splice_same off (le_of n z) bs) as Hs.
  rewrite length_le_of in Hs. rewrite Hs by done. apply of_le_le_of.
Qed.

Lemma get_put_le_other n off z bs n' off' :
  (off + n <= length bs)%nat ->
  (off' + n' <= off \/ off + n <= off')%nat ->
  get_le n' off' (put_le n off z bs) = get_le n' off' bs.
Proof.
  intros. unfold get_le, put_le. f_equal.
  apply slice_splice_other; by rewrite length_le_of.
Qed.

Lemma get_le_range n off bs :
  bytes_ok bs -> 0 <= get_le n off bs < 256 ^ Z.of_nat n.
Proof.
  intros H. unfold get_le.
  pose proof (of_le_range (slice off n bs) (slice_bytes_ok _ _ _ H)) as Hr.
  assert (256 ^ Z.of_nat (length (slice off n bs)) <= 256 ^ Z.of_nat n); [|lia].
  apply Z.pow_le_mono_r; [lia|]. unfold slice. rewrite length_take. lia.
Qed.

#[export] Hint Resolve le_of_bytes_ok splice_bytes_ok slice_bytes_ok put_le_bytes_ok : wp.

(** ** Arrays of 32-bit words *)

Definition get_u32s (off n : nat) (bs : list Z) : list Z :=
  (fun i => get_u32 (off + 4 * i) bs) <$> seq 0 n.
Definition put_u32s (off : nat) (l : list Z) (bs : list Z) : list Z :=
  splice off (concat (le_of 4 <$> l)) bs.

Lemma length_words l : length (concat (le_of 4 <$> l)) = (4 * length l)%nat.
Proof.
  induction l as [|x l IH]; [done|]. rewrite fmap_cons. cbn [concat].
  rewrite length_app, IH, length_le_of. simpl. lia.
Qed.

Lemma slice_words l i x :
  l !! i = Some x -> slice (4 * i) 4 (concat (le_of 4 <$> l)) = le_of 4 x.
Proof.
  revert i. induction l as [|y l IH]; intros i Hi; [done|]. rewrite fmap_cons. cbn [concat].
  destruct i as [|i].
  - injection Hi as ->. unfold slice. rewrite drop_0. rewrite take_app_le; [|by rewrite length_le_of].
    by rewrite take_ge by (by rewrite length_le_of).
  - rewrite <- (IH i) by done. unfold slice. f_equal.
    rewrite drop_app_ge by (rewrite length_le_of; lia). f_equal. rewrite length_le_of. lia.
Qed.

Lemma slice_splice_within off new bs i n :
  (off + length new <= length bs)%nat -> (i + n <= length new)%nat ->
  slice (off + i) n (splice off new bs) = slice i n new.
Proof.
  intros Hl Hi. apply list_eq. intros j. rewrite !lookup_slice. case_decide; [|done].
  rewrite lookup_splice_in by lia. f_equal. lia.
Qed.

Lemma get_put_u32s off l bs i x :
  (off + 4 * length l <= length bs)%nat -> l !! i = Some x ->
  get_u32 (off + 4 * i) (put_u32s off l bs) = x mod 2 ^ 32.
Proof.
  intros Hl Hx. pose proof (lookup_lt_Some _ _ _ Hx). unfold get_le, put_u32s.
  rewrite slice_splice_within by (rewrite length_words; lia).
  rewrite (slice_words _ _ x) by done. by rewrite of_le_le_of.
Qed.

Lemma get_u32s_put off l bs :
  (off + 4 * length l <= length bs)%nat -> Forall (fun x => 0 <= x < 2 ^ 32) l ->
  get_u32s off (length l) (put_u32s off l bs) = l.
Proof.
  intros Hl Hr. apply list_eq. intros i. unfold get_u32s. rewrite list_lookup_fmap.
  destruct (l !! i) as [x|] eqn:Hx.
  - pose proof (lookup_lt_Some _ _ _ Hx). rewrite lookup_seq_lt by done.
    change (Some (get_u32 (off + 4 * i) (put_u32s off l bs)) = Some x). f_equal.
    rewrite (get_put_u32s _ _ _ _ x) by done. rewrite Forall_lookup in Hr.
    apply Z.mod_small. by eapply Hr.
  - apply lookup_ge_None in Hx. by rewrite lookup_seq_ge.
Qed.

Lemma length_put_u32s off l bs :
  (off + 4 * length l <= length bs)%nat -> length (put_u32s off l bs) = length bs.
Proof. intros. apply length_splice. by rewrite length_words. Qed.

Lemma length_get_u32s off n bs : length (get_u32s off n bs) = n.
Proof. unfold get_u32s. by rewrite length_fmap, length_seq. Qed.

Lemma get_put_u32s_other off l bs n off' :
  (off + 4 * length l <= length bs)%nat ->
  (off' + n <= off \/ off + 4 * length l <= off')%nat ->
  get_le n off' (put_u32s off l bs) = get_le n off' bs.
Proof.
  intros Hl Ho. unfold get_le, put_u32s. f_equal. apply slice_splice_other; rewrite length_words; done.
Qed.

Lemma get_le_zeros n off m : get_le n off (replicate m 0) = 0.
Proof.
  unfold get_le, slice. rewrite drop_replicate, take_replicate.
  generalize (n `min` (m - off))%nat. intros k. induction k as [|k IH]; [done|].
  cbn [replicate of_le]. lia.
Qed.
