(* ===== verification/CString.v ===== *)
(** string.c: memset, memcmp, memmove, strncmp, strncpy, safestrcpy, strlen.

    Destinations live in a byte-addressed memory, so that overlap and the
    word-at-a-time path of memset() are modelled; a [const char*] that is only
    read is the sequence of bytes it points to. *)

From S2P Require Import Prelude Params Bytes.

(** ** Memory *)

Definition memory : Type := Z -> Z.

Definition store (a v : Z) (m : memory) : memory :=
  fun x => if decide (x = a) then v else m x.

(** x86.h stosb/stosl: rep stos with the direction flag clear. *)
Fixpoint stosb (addr data : Z) (cnt : nat) (m : memory) : memory :=
  match cnt with
  | O => m
  | S c => stosb (addr + 1) data c (store addr (u8 data) m)
  end.

Definition store32 (addr data : Z) (m : memory) : memory :=
  store (addr + 3) (u8 (Z.shiftr data 24))
    (store (addr + 2) (u8 (Z.shiftr data 16))
       (store (addr + 1) (u8 (Z.shiftr data 8))
          (store addr (u8 data) m))).

Fixpoint stosl (addr data : Z) (cnt : nat) (m : memory) : memory :=
  match cnt with
  | O => m
  | S c => stosl (addr + 4) data c (store32 addr data m)
  end.

Definition memset (dst c n : Z) (m : memory) : memory :=
  if (Z.rem (s32 dst) 4 =? 0) && (n mod 4 =? 0) then
    let c := Z.land c 255 in
    stosl dst (Z.lor (Z.lor (Z.lor (Z.shiftl c 24) (Z.shiftl c 16)) (Z.shiftl c 8)) c)
      (Z.to_nat (n / 4)) m
  else stosb dst c (Z.to_nat n) m.

(** The two loops of memmove(): downwards from the end, upwards from the start. *)
Fixpoint move_down (d s : Z) (n : nat) (m : memory) : memory :=
  match n with
  | O => m
  | S n => move_down (d - 1) (s - 1) n (store (d - 1) (m (s - 1)) m)
  end.

Fixpoint move_up (d s : Z) (n : nat) (m : memory) : memory :=
  match n with
  | O => m
  | S n => move_up (d + 1) (s + 1) n (store d (m s) m)
  end.

Definition memmove (dst src n : Z) (m : memory) : memory :=
  if (src <? dst) && (dst <? src + n)
  then move_down (dst + n) (src + n) (Z.to_nat n) m
  else move_up dst src (Z.to_nat n) m.

Definition memcpy (dst src n : Z) (m : memory) : memory := memmove dst src n m.

(** ** Strings *)

Definition cptr : Type := nat -> Z.
Definition adv (p : cptr) : cptr := fun i => p (S i).
(** A pointer to the start of a buffer; past its end it reads zero. *)
Definition ptr_to (l : list Z) : cptr := fun i => default 0 (l !! i).

Fixpoint memcmp (v1 v2 : cptr) (n : nat) : Z :=
  match n with
  | O => 0
  | S n => if v1 0%nat =? v2 0%nat then memcmp (adv v1) (adv v2) n
           else v1 0%nat - v2 0%nat
  end.

Fixpoint strncmp (p q : cptr) (n : nat) : Z :=
  match n with
  | O => 0
  | S n => if negb (p 0%nat =? 0) && (p 0%nat =? q 0%nat)
           then strncmp (adv p) (adv q) n
           else p 0%nat - q 0%nat
  end.

(** strncpy(s, t, n): the [n] bytes it leaves at [s]. *)
Fixpoint strncpy (t : cptr) (n : nat) : list Z :=
  match n with
  | O => []
  | S n => if t 0%nat =? 0 then 0 :: replicate n 0
           else t 0%nat :: strncpy (adv t) n
  end.

(** safestrcpy(s, t, n): the bytes it writes from [s] on. *)
Fixpoint safestrcpy (t : cptr) (n : nat) : list Z :=
  match n with
  | O => []
  | S O => [0]
  | S n => if t 0%nat =? 0 then [0; 0] else t 0%nat :: safestrcpy (adv t) n
  end.

Fixpoint strlen_from (s : cptr) (fuel : nat) : option nat :=
  match fuel with
  | O => None
  | S f => if s 0%nat =? 0 then Some 0%nat else S <$> strlen_from (adv s) f
  end.

(** ** Specifications *)

(** The characters of a C string, at most [n] of them. *)
Fixpoint cstr (p : cptr) (n : nat) : list Z :=
  match n with
  | O => []
  | S n => if p 0%nat =? 0 then [] else p 0%nat :: cstr (adv p) n
  end.

Ltac store_cases := unfold store; repeat case_decide; try lia; try f_equal; try lia.

Lemma stosb_spec cnt : forall addr data m a,
  stosb addr data cnt m a =
  if decide (addr <= a < addr + Z.of_nat cnt) then u8 data else m a.
Proof.
  induction cnt as [|c IH]; intros addr data m a; simpl.
  - case_decide; [lia|done].
  - rewrite IH. store_cases; done.
Qed.

Lemma store32_spec addr data m a c :
  (forall k, k = 0 \/ k = 8 \/ k = 16 \/ k = 24 -> u8 (Z.shiftr data k) = c) ->
  store32 addr data m a = if decide (addr <= a < addr + 4) then c else m a.
Proof.
  intros Hc. unfold store32.
  rewrite (Hc 24), (Hc 16), (Hc 8) by auto.
  rewrite <- (Hc 0), Z.shiftr_0_r by auto. store_cases; done.
Qed.

Lemma stosl_spec cnt : forall addr data m a c,
  (forall k, k = 0 \/ k = 8 \/ k = 16 \/ k = 24 -> u8 (Z.shiftr data k) = c) ->
  stosl addr data cnt m a =
  if decide (addr <= a < addr + 4 * Z.of_nat cnt) then c else m a.
Proof.
  induction cnt as [|n IH]; intros addr data m a c Hc; cbn [stosl].
  - case_decide; [lia|done].
  - rewrite (IH _ _ _ _ c Hc), (store32_spec _ _ _ _ c Hc). store_cases; done.
Qed.

(** The word that memset() builds has the byte [c] in all four positions. *)
Lemma memset_word_bytes c k :
  k = 0 \/ k = 8 \/ k = 16 \/ k = 24 ->
  let c := Z.land c 255 in
  u8 (Z.shiftr (Z.lor (Z.lor (Z.lor (Z.shiftl c 24) (Z.shiftl c 16)) (Z.shiftl c 8)) c) k)
  = c.
Proof.
  intros Hk c'. unfold u8. rewrite <- Z.land_ones by lia. apply Z.bits_inj'. intros i Hi.
  assert (Hc : forall j, 8 <= j -> Z.testbit c' j = false).
  { intros j Hj. unfold c'. change 255 with (Z.ones 8).
    rewrite Z.land_spec, Z.ones_spec_high, andb_false_r by lia. done. }
  assert (Hn : forall j, j < 0 -> Z.testbit c' j = false).
  { intros j Hj. by rewrite Z.testbit_neg_r. }
  rewrite Z.land_spec. destruct (decide (i < 8)).
  - rewrite Z.ones_spec_low, andb_true_r by lia.
    rewrite Z.shiftr_spec, !Z.lor_spec, !Z.shiftl_spec by lia.
    destruct Hk as [-> | [-> | [-> | -> ]]].
    + rewrite (Hn (i + 0 - 24)), (Hn (i + 0 - 16)), (Hn (i + 0 - 8)) by lia.
      simpl. f_equal. lia.
    + rewrite (Hn (i + 8 - 24)), (Hn (i + 8 - 16)), (Hc (i + 8)) by lia.
      simpl. rewrite orb_false_r. f_equal. lia.
    + rewrite (Hn (i + 16 - 24)), (Hc (i + 16 - 8)), (Hc (i + 16)) by lia.
      simpl. rewrite !orb_false_r. f_equal. lia.
    + rewrite (Hc (i + 24 - 16)), (Hc (i + 24 - 8)), (Hc (i + 24)) by lia.
      simpl. rewrite !orb_false_r. f_equal. lia.
  - rewrite Z.ones_spec_high, andb_false_r by lia. symmetry. apply Hc. lia.
Qed.

(** memset() fills exactly [dst, dst+n) with the low byte of [c], on the
    word-at-a-time path and on the byte path alike. *)
Lemma memset_spec dst c n m a :
  0 <= n ->
  memset dst c n m a = if decide (dst <= a < dst + n) then u8 c else m a.
Proof.
  intros Hn. unfold memset. case_match eqn:Hw.
  - apply andb_prop in Hw as [_ Hw]. apply Z.eqb_eq in Hw.
    rewrite (stosl_spec _ _ _ _ _ (Z.land c 255)) by apply memset_word_bytes.
    replace (4 * Z.of_nat (Z.to_nat (n / 4))) with n.
    2:{ rewrite Z2Nat.id by (apply Z.div_pos; lia). pose proof (Z.div_mod n 4). lia. }
    unfold u8. rewrite <- Z.land_ones by lia. done.
  - rewrite stosb_spec, Z2Nat.id by lia. done.
Qed.

Lemma move_down_spec n : forall d s m a,
  s < d ->
  move_down d s n m a =
  if decide (d - Z.of_nat n <= a < d) then m (s - (d - a)) else m a.
Proof.
  induction n as [|n IH]; intros d s m a Hsd; simpl.
  - case_decide; [lia|done].
  - rewrite IH by lia. store_cases; done.
Qed.

Lemma move_up_spec n : forall d s m a,
  d <= s \/ s + Z.of_nat n <= d ->
  move_up d s n m a =
  if decide (d <= a < d + Z.of_nat n) then m (s + (a - d)) else m a.
Proof.
  induction n as [|n IH]; intros d s m a Hsd; simpl.
  - case_decide; [lia|done].
  - rewrite IH by lia. store_cases; done.
Qed.

(** memmove() copies the original source bytes, also when the two ranges
    overlap, and touches nothing outside the destination. *)
Lemma memmove_spec dst src n m a :
  0 <= n ->
  memmove dst src n m a =
  if decide (dst <= a < dst + n) then m (src + (a - dst)) else m a.
Proof.
  intros Hn. unfold memmove. case_match eqn:Ho.
  - apply andb_prop in Ho as [H1 H2]. apply Z.ltb_lt in H1, H2.
    rewrite move_down_spec by lia. store_cases; done.
  - rewrite move_up_spec; [by rewrite Z2Nat.id by lia|].
    apply andb_false_iff in Ho as [H1|H2]; [apply Z.ltb_ge in H1|apply Z.ltb_ge in H2]; lia.
Qed.

Lemma memcmp_eq n : forall p q,
  memcmp p q n = 0 <-> forall i, (i < n)%nat -> p i = q i.
Proof.
  induction n as [|n IH]; intros p q; simpl; [naive_solver lia|].
  case_match eqn:H.
  - apply Z.eqb_eq in H. rewrite IH. split.
    + intros Hi [|i] ?; [done|]. apply (Hi i). lia.
    + intros Hi i ?. apply (Hi (S i)). lia.
  - apply Z.eqb_neq in H. split; [lia|]. intros Hi. specialize (Hi 0%nat). lia.
Qed.

(** strncmp() returns 0 exactly when the two strings agree in their first [n]
    characters. *)
Lemma strncmp_eq n : forall p q,
  strncmp p q n = 0 <-> cstr p n = cstr q n.
Proof.
  induction n as [|n IH]; intros p q; simpl; [naive_solver|].
  destruct (Z.eqb_spec (p 0%nat) 0) as [Hp|Hp], (Z.eqb_spec (q 0%nat) 0) as [Hq|Hq]; simpl.
  - split; [done|lia].
  - split; [lia|done].
  - case_match eqn:E; [apply Z.eqb_eq in E; lia|]. split; [lia|done].
  - case_match eqn:E; [apply Z.eqb_eq in E|apply Z.eqb_neq in E].
    + rewrite IH, E. split; [by intros ->|by intros [= ->]].
    + split; [lia|]. by intros [= ? _].
Qed.

Lemma length_strncpy t n : length (strncpy t n) = n.
Proof.
  revert t. induction n as [|n IH]; intros t; simpl; [done|].
  case_match; simpl; [by rewrite length_replicate|by rewrite IH].
Qed.

Lemma cstr_le p n : (length (cstr p n) <= n)%nat.
Proof. revert p. induction n; intros p; simpl; [lia|]. case_match; simpl; [lia|]. specialize (IHn (adv p)). lia. Qed.

(** strncpy() writes the string and pads it with zeros up to [n] bytes. *)
Lemma strncpy_spec n : forall t,
  strncpy t n = cstr t n ++ replicate (n - length (cstr t n)) 0.
Proof.
  induction n as [|n IH]; intros t; simpl; [done|].
  case_match; simpl; [done|]. by rewrite IH.
Qed.

Lemma cstr_ext p q n : (forall i, (i < n)%nat -> p i = q i) -> cstr p n = cstr q n.
Proof.
  revert p q. induction n as [|n IH]; intros p q H; simpl; [done|].
  rewrite (H 0%nat) by lia. case_match; [done|]. f_equal. apply IH.
  intros i ?. apply (H (S i)). lia.
Qed.

Lemma adv_ptr_to x l i : adv (ptr_to (x :: l)) i = ptr_to l i.
Proof. done. Qed.

Lemma cstr_replicate k n : cstr (ptr_to (replicate k 0)) n = [].
Proof. destruct n, k; done. Qed.

(** What strncpy() wrote reads back as the same string. *)
Lemma cstr_strncpy n : forall t, cstr (ptr_to (strncpy t n)) n = cstr t n.
Proof.
  induction n as [|n IH]; intros t; cbn [cstr strncpy]; [done|].
  destruct (Z.eqb_spec (t 0%nat) 0) as [H|H]; [done|].
  unfold ptr_to at 1 2; simpl. destruct (Z.eqb_spec (t 0%nat) 0); [done|].
  f_equal. etrans; [|apply IH]. by apply cstr_ext.
Qed.

(** safestrcpy() writes at most [n] bytes and the result is a NUL-terminated
    string holding the first [n-1] characters. *)
Lemma safestrcpy_spec n : forall t,
  (0 < n)%nat ->
  (length (safestrcpy t n) <= n)%nat /\
  last (safestrcpy t n) = Some 0 /\
  forall k, cstr (ptr_to (safestrcpy t n)) k = take k (cstr t (n - 1)).
Proof.
  induction n as [|n IH]; intros t Hn; [lia|]. destruct n as [|n].
  { simpl. split; [lia|]. split; [done|]. intros [|k]; done. }
  change (safestrcpy t (S (S n))) with
    (if t 0%nat =? 0 then [0; 0] else t 0%nat :: safestrcpy (adv t) (S n)).
  destruct (Z.eqb_spec (t 0%nat) 0) as [H|H].
  { simpl. rewrite H. simpl. split; [lia|]. split; [done|]. intros [|k]; done. }
  destruct (IH (adv t) ltac:(lia)) as (Hlen & Hlast & Hstr). split; [simpl in *; lia|].
  split.
  { by rewrite last_cons, Hlast. }
  intros [|k]; [done|]. replace (S (S n) - 1)%nat with (S n) by lia.
  replace (S n - 1)%nat with n in Hstr by lia.
  cbn [cstr take]. unfold ptr_to at 1 2; simpl.
  destruct (Z.eqb_spec (t 0%nat) 0); [done|]. simpl. f_equal.
  etrans; [|apply Hstr]. by apply cstr_ext.
Qed.

(** strlen() returns the index of the first NUL. *)
Lemma strlen_from_spec fuel : forall s,
  match strlen_from s fuel with
  | Some n => s n = 0 /\ (forall i, (i < n)%nat -> s i <> 0) /\ (n < fuel)%nat
  | None => forall i, (i < fuel)%nat -> s i <> 0
  end.
Proof.
  induction fuel as [|f IH]; intros s; simpl; [lia|].
  destruct (Z.eqb_spec (s 0%nat) 0) as [H|H]; [split; [done|]; split; lia|].
  specialize (IH (adv s)). destruct (strlen_from (adv s) f) as [n|]; simpl.
  - destruct IH as (? & Hi & ?). split; [done|]. split; [|lia].
    intros [|i] ?; [done|]. apply Hi. lia.
  - intros [|i] ?; [done|]. apply IH. lia.
Qed.
