(* ===== verification/Buf.v ===== *)
(** Sleep locks as straight-line code sees them (sleeplock.c), disk buffers
    (buf.h), and the interface that a disk driver offers to the buffer cache:
    ide.c and memide.c both define iderw(). *)

From S2P Require Import Prelude Params Bytes.

(** ** sleeplock.h, sleeplock.c *)

Record sleeplock := mksleeplock {
  sl_locked : bool;
  sl_lk : bool;        (* the spinlock protecting this sleep lock *)
  sl_pid : Z;          (* process holding the lock *)
}.

Definition set_sl_lk (v : bool) (l : sleeplock) : sleeplock :=
  mksleeplock (sl_locked l) v (sl_pid l).
Definition set_sl_owner (v : bool) (pid : Z) (l : sleeplock) : sleeplock :=
  mksleeplock v (sl_lk l) pid.

Definition initsleeplock : sleeplock := mksleeplock false false 0.

(** sleep(lk, &lk->lk) drops the inner spinlock; when woken, the loop starts
    again from the test, which is a new run of acquiresleep(). *)
Definition acquiresleep (c : chan) (pid : Z) : M sleeplock unit :=
  acquire sl_lk set_sl_lk ;;;
  let* l := gets sl_locked in
  if l then release sl_lk set_sl_lk ;;; sleep_on c
  else
    modify (set_sl_owner true pid) ;;;
    release sl_lk set_sl_lk.

(** wakeup(lk) changes the process table only; see Proc.v. *)
Definition releasesleep : M sleeplock unit :=
  acquire sl_lk set_sl_lk ;;;
  modify (set_sl_owner false 0) ;;;
  release sl_lk set_sl_lk.

Definition holdingsleep (pid : Z) : M sleeplock bool :=
  acquire sl_lk set_sl_lk ;;;
  let* r := gets (fun l => sl_locked l && (sl_pid l =? pid)) in
  release sl_lk set_sl_lk ;;;
  ret r.

Definition sl_free (l : sleeplock) : Prop := sl_locked l = false /\ sl_lk l = false.
Definition sl_held (pid : Z) (l : sleeplock) : Prop :=
  sl_locked l = true /\ sl_lk l = false /\ sl_pid l = pid.

Lemma wp_acquiresleep c pid Q l :
  sl_free l -> Q tt (mksleeplock true false pid) -> wp (acquiresleep c pid) Q l.
Proof. destruct l; intros [??] ?; simpl in *; subst. done. Qed.

Lemma wp_releasesleep Q l :
  sl_lk l = false -> Q tt (mksleeplock false false 0) -> wp releasesleep Q l.
Proof. destruct l; simpl; intros -> ?. done. Qed.

Lemma wp_holdingsleep pid Q l :
  sl_held pid l -> Q true l -> wp (holdingsleep pid) Q l.
Proof.
  destruct l; intros (?&?&?) HQ; simpl in *; subst.
  unfold wp, holdingsleep, bind, gets, acquire, release; simpl. by rewrite Z.eqb_refl.
Qed.

(** ** buf.h

    [prev] and [next] are the links of the cache's list: the index of a buffer
    in bcache.buf, or NBUF for &bcache.head. *)

Record buf := mkbuf {
  flags : Z;
  dev : Z;
  blockno : Z;
  lock : sleeplock;
  refcnt : Z;
  prev : nat;
  next : nat;
  data : list Z;
}.

Definition set_flags v b := mkbuf v (dev b) (blockno b) (lock b) (refcnt b) (prev b) (next b) (data b).
Definition set_id d n b := mkbuf (flags b) d n (lock b) (refcnt b) (prev b) (next b) (data b).
Definition set_lock v b := mkbuf (flags b) (dev b) (blockno b) v (refcnt b) (prev b) (next b) (data b).
Definition set_refcnt v b := mkbuf (flags b) (dev b) (blockno b) (lock b) v (prev b) (next b) (data b).
Definition set_prev v b := mkbuf (flags b) (dev b) (blockno b) (lock b) (refcnt b) v (next b) (data b).
Definition set_next v b := mkbuf (flags b) (dev b) (blockno b) (lock b) (refcnt b) (prev b) v (data b).
Definition set_data v b := mkbuf (flags b) (dev b) (blockno b) (lock b) (refcnt b) (prev b) (next b) v.

Definition is_valid (b : buf) : bool := negb (Z.land (flags b) B_VALID =? 0).
Definition is_dirty (b : buf) : bool := negb (Z.land (flags b) B_DIRTY =? 0).

Lemma land_pow2_testbit z n :
  0 <= n -> negb (Z.land z (2 ^ n) =? 0) = Z.testbit z n.
Proof.
  intros Hn. destruct (Z.testbit z n) eqn:E.
  - apply negb_true_iff, Z.eqb_neq. intros H0.
    assert (Z.testbit (Z.land z (2 ^ n)) n = true).
    { by rewrite Z.land_spec, E, Z.pow2_bits_true. }
    rewrite H0, Z.bits_0 in *. done.
  - apply negb_false_iff, Z.eqb_eq, Z.bits_inj'. intros i Hi.
    rewrite Z.land_spec, Z.bits_0, Z.pow2_bits_eqb by lia.
    destruct (Z.eqb_spec n i); [subst; by rewrite E|apply andb_false_r].
Qed.

Lemma is_valid_bit b : is_valid b = Z.testbit (flags b) 1.
Proof. apply (land_pow2_testbit _ 1). lia. Qed.
Lemma is_dirty_bit b : is_dirty b = Z.testbit (flags b) 2.
Proof. apply (land_pow2_testbit _ 2). lia. Qed.

(** The tests and updates of b->flags, in terms of the two bits. *)
Lemma flags_clean_valid z :
  (Z.land z (Z.lor B_VALID B_DIRTY) =? B_VALID) = Z.testbit z 1 && negb (Z.testbit z 2).
Proof.
  assert (H : Z.land z (Z.lor B_VALID B_DIRTY) =
    Z.lor (if Z.testbit z 1 then 2 else 0) (if Z.testbit z 2 then 4 else 0)).
  { apply Z.bits_inj'. intros i Hi. unfold B_VALID, B_DIRTY.
    assert (H2 : i <> 1 -> Z.testbit 2 i = false).
    { intros. change 2 with (2 ^ 1). apply Z.pow2_bits_false. lia. }
    assert (H4 : i <> 2 -> Z.testbit 4 i = false).
    { intros. change 4 with (2 ^ 2). apply Z.pow2_bits_false. lia. }
    rewrite Z.land_spec, !Z.lor_spec.
    destruct (decide (i = 1)) as [->|]; [by destruct (Z.testbit z 1), (Z.testbit z 2)|].
    destruct (decide (i = 2)) as [->|]; [by destruct (Z.testbit z 1), (Z.testbit z 2)|].
    rewrite H2, H4, andb_false_r by done.
    destruct (Z.testbit z 1), (Z.testbit z 2); rewrite ?H2, ?H4, ?Z.bits_0 by done; done. }
  rewrite H. by destruct (Z.testbit z 1), (Z.testbit z 2).
Qed.

Lemma valid_set_valid z : Z.testbit (Z.lor z B_VALID) 1 = true.
Proof. rewrite Z.lor_spec. by apply orb_true_r. Qed.
Lemma dirty_set_valid z : Z.testbit (Z.lor z B_VALID) 2 = Z.testbit z 2.
Proof. rewrite Z.lor_spec. by apply orb_false_r. Qed.
Lemma valid_set_dirty z : Z.testbit (Z.lor z B_DIRTY) 1 = Z.testbit z 1.
Proof. rewrite Z.lor_spec. by apply orb_false_r. Qed.
Lemma dirty_set_dirty z : Z.testbit (Z.lor z B_DIRTY) 2 = true.
Proof. rewrite Z.lor_spec. by apply orb_true_r. Qed.
Lemma valid_clear_dirty z : Z.testbit (Z.land z (Z.lnot B_DIRTY)) 1 = Z.testbit z 1.
Proof. rewrite Z.land_spec, Z.lnot_spec by lia. by apply andb_true_r. Qed.
Lemma dirty_clear_dirty z : Z.testbit (Z.land z (Z.lnot B_DIRTY)) 2 = false.
Proof. rewrite Z.land_spec, Z.lnot_spec by lia. by apply andb_false_r. Qed.

#[export] Hint Rewrite valid_set_valid dirty_set_valid valid_set_dirty
  dirty_set_dirty valid_clear_dirty dirty_clear_dirty : flags.

(** ** The driver interface

    [iderw pid b] is run by process [pid] on the buffer [b] and returns the
    buffer as it left it.  [devblock d dv n] is the content of block [n] of
    device [dv]. *)

Class BlockDev (D : Type) : Type := {
  iderw : Z -> buf -> M D buf;
  devblock : D -> Z -> Z -> list Z;
  devrange : D -> Z -> Z -> Prop;     (* a device and block that exist *)
  devok : D -> Prop;                  (* the driver is idle and well-formed *)
}.

Definition blk_upd (f : Z -> Z -> list Z) (dv n : Z) (v : list Z) : Z -> Z -> list Z :=
  fun dv' n' => if decide (dv' = dv /\ n' = n) then v else f dv' n'.

Class BlockDevLaws (D : Type) `{BlockDev D} : Prop := {
  iderw_read : forall pid b d Q,
    devok d -> devrange d (dev b) (blockno b) -> sl_held pid (lock b) ->
    is_valid b = false -> is_dirty b = false ->
    (forall z d', Z.testbit z 1 = true -> Z.testbit z 2 = false ->
       devok d' -> devblock d' = devblock d -> devrange d' = devrange d ->
       Q (set_data (devblock d (dev b) (blockno b)) (set_flags z b)) d') ->
    wp (iderw pid b) Q d;
  iderw_write : forall pid b d Q,
    devok d -> devrange d (dev b) (blockno b) -> sl_held pid (lock b) ->
    is_dirty b = true -> length (data b) = Z.to_nat BSIZE ->
    (forall z d', Z.testbit z 1 = true -> Z.testbit z 2 = false ->
       devok d' ->
       (forall dv n, devrange d dv n ->
          devblock d' dv n = blk_upd (devblock d) (dev b) (blockno b) (data b) dv n) ->
       devrange d' = devrange d ->
       Q (set_flags z b) d') ->
    wp (iderw pid b) Q d;
  devblock_length : forall d dv n,
    devok d -> devrange d dv n -> length (devblock d dv n) = Z.to_nat BSIZE;
}.
