(* ===== verification/Memide.v ===== *)
(** memide.c: the fake IDE disk that keeps the file-system image in memory,
    and the proof that it is a block device in the sense of Buf.v. *)

From S2P Require Import Prelude Params Bytes Buf.

Module Memide.

Record memide := mkmemide {
  memdisk : list Z;
  disksize : Z;
}.

(** The image that the linker puts at _binary_fs_img_start. *)
Definition ideinit (fs_img : list Z) : memide :=
  mkmemide fs_img (Z.of_nat (length fs_img) / BSIZE).

Definition ideintr : M memide unit := ret tt.

Definition iderw (pid : Z) (b : buf) : M memide buf :=
  let* '(h, l) := on_value (holdingsleep pid) (lock b) in
  let b := set_lock l b in
  panic_if (negb h) "iderw: buf not locked" ;;;
  panic_if (Z.land (flags b) (Z.lor B_VALID B_DIRTY) =? B_VALID)
    "iderw: nothing to do" ;;;
  panic_if (negb (dev b =? 1)) "iderw: request not for disk 1" ;;;
  let* size := gets disksize in
  panic_if (size <=? blockno b) "iderw: block out of range" ;;;
  let p := Z.to_nat (blockno b * BSIZE) in
  if negb (Z.land (flags b) B_DIRTY =? 0) then
    let b := set_flags (Z.land (flags b) (Z.lnot B_DIRTY)) b in
    modify (fun d => mkmemide (splice p (data b) (memdisk d)) (disksize d)) ;;;
    ret (set_flags (Z.lor (flags b) B_VALID) b)
  else
    let* m := gets memdisk in
    let b := set_data (slice p (Z.to_nat BSIZE) m) b in
    ret (set_flags (Z.lor (flags b) B_VALID) b).

Definition block_of (d : memide) (dv n : Z) : list Z :=
  slice (Z.to_nat (n * BSIZE)) (Z.to_nat BSIZE) (memdisk d).

Definition range (d : memide) (dv n : Z) : Prop := dv = 1 /\ 0 <= n < disksize d.

Definition ok (d : memide) : Prop := disksize d * BSIZE <= Z.of_nat (length (memdisk d)).

#[export] Instance memide_dev : BlockDev memide := {|
  Buf.iderw := iderw;
  devblock := block_of;
  devrange := range;
  devok := ok;
|}.

Lemma set_lock_id b : set_lock (lock b) b = b.
Proof. by destruct b. Qed.

(** The checks at the head of iderw() pass for a buffer that the caller holds
    locked, that needs work and that exists. *)
Lemma wp_iderw_checks pid b d Q :
  ok d -> range d (dev b) (blockno b) -> sl_held pid (lock b) ->
  is_valid b && negb (is_dirty b) = false ->
  wp (let p := Z.to_nat (blockno b * BSIZE) in
      if negb (Z.land (flags b) B_DIRTY =? 0) then
        modify (fun d => mkmemide (splice p (data b) (memdisk d)) (disksize d)) ;;;
        ret (set_flags (Z.lor (Z.land (flags b) (Z.lnot B_DIRTY)) B_VALID) b)
      else
        let* m := gets memdisk in
        ret (set_data (slice p (Z.to_nat BSIZE) m) (set_flags (Z.lor (flags b) B_VALID) b)))
    Q d ->
  wp (iderw pid b) Q d.
Proof.
  intros Hok [Hdev Hblk] Hheld Hwork Hwp. unfold iderw.
  apply wp_bind, wp_on_value. apply wp_holdingsleep; [done|].
  rewrite set_lock_id. cbv zeta.
  rewrite is_valid_bit, is_dirty_bit, <- flags_clean_valid in Hwork.
  apply wp_bind, wp_panic_if; [done|].
  apply wp_bind, wp_panic_if; [done|].
  apply wp_bind, wp_panic_if; [by rewrite Hdev|].
  apply wp_bind, wp_gets. apply wp_bind, wp_panic_if; [apply Z.leb_gt; lia|].
  destruct b. exact Hwp.
Qed.

Lemma splice_slice_block d n v n' :
  ok d -> 0 <= n < disksize d -> 0 <= n' < disksize d ->
  length v = Z.to_nat BSIZE ->
  slice (Z.to_nat (n' * BSIZE)) (Z.to_nat BSIZE)
    (splice (Z.to_nat (n * BSIZE)) v (memdisk d)) =
  if decide (n' = n) then v
  else slice (Z.to_nat (n' * BSIZE)) (Z.to_nat BSIZE) (memdisk d).
Proof.
  unfold ok, BSIZE. intros Hok Hn Hn' Hv. case_decide.
  - subst. rewrite <- Hv. apply slice_splice_same. lia.
  - apply slice_splice_other; lia.
Qed.

#[export] Instance memide_laws : BlockDevLaws memide.
Proof.
  split.
  - intros pid b d Q Hok Hr Hh Hv Hd HQ. apply wp_iderw_checks; [done..|by rewrite Hv|].
    unfold is_dirty in Hd. cbv zeta. rewrite Hd.
    apply HQ; try done.
    + apply valid_set_valid.
    + rewrite dirty_set_valid. by rewrite <- is_dirty_bit.
  - intros pid b d Q Hok Hr Hh Hd Hlen HQ. change (ok d) in Hok.
    apply wp_iderw_checks; [done..|by rewrite Hd, andb_false_r|].
    unfold is_dirty in Hd. cbv zeta. rewrite Hd. destruct Hr as [Hdv Hn].
    assert (Hsz : length (splice (Z.to_nat (blockno b * BSIZE)) (data b) (memdisk d))
                  = length (memdisk d)).
    { apply length_splice. unfold ok, BSIZE in *. lia. }
    apply HQ.
    + apply valid_set_valid.
    + rewrite dirty_set_valid. apply dirty_clear_dirty.
    + simpl. unfold ok in *; simpl. by rewrite Hsz.
    + intros dv n [-> Hn']. simpl. unfold block_of, blk_upd; simpl.
      rewrite splice_slice_block by done. rewrite Hdv. repeat case_decide; intuition congruence.
    + done.
  - intros d dv n Hok [-> Hn]. simpl. unfold block_of. apply length_slice.
    unfold devok, memide_dev, ok, BSIZE in *. lia.
Qed.

End Memide.
