(* ===== verification/Ide.v ===== *)
(** ide.c: the driver of the IDE disk, with its queue of requests and its
    interrupt handler.

    The disk controller is a parameter: [AtaDisk] has its ports and the command
    that it works on, and its laws say what the programming interface of the
    controller promises of them.  A buffer is named by its address, and the
    queue is threaded through the qnext fields.  A process that sleeps in
    iderw() is an entry of [waiters]: the buffer that it waits for, and whether
    it was woken up. *)

From S2P Require Import Prelude Params Bytes Buf.

(** ** The controller *)

(** The command in progress: none; a read before and after the data is there;
    a write before and after the data was handed over.  A command names a
    drive and a sector. *)
Inductive command :=
  | CNone
  | CRead (drive sector : Z)
  | CData (drive sector : Z)
  | CWriteWait (drive sector : Z)
  | CWrite (drive sector : Z) (d : list Z).

(** The registers: sector count, the low three bytes of the sector number, and
    the drive with the high four bits. *)
Record ata_regs := mkregs { r_count : Z; r_low : Z; r_mid : Z; r_high : Z; r_drive : Z }.

Definition set_count v r := mkregs v (r_low r) (r_mid r) (r_high r) (r_drive r).
Definition set_low v r := mkregs (r_count r) v (r_mid r) (r_high r) (r_drive r).
Definition set_mid v r := mkregs (r_count r) (r_low r) v (r_high r) (r_drive r).
Definition set_high v r := mkregs (r_count r) (r_low r) (r_mid r) v (r_drive r).
Definition set_drive v r := mkregs (r_count r) (r_low r) (r_mid r) (r_high r) v.

Definition reg_drive (r : ata_regs) : Z := Z.land (Z.shiftr (r_drive r) 4) 1.
Definition reg_sector (r : ata_regs) : Z :=
  r_low r + 2 ^ 8 * r_mid r + 2 ^ 16 * r_high r + 2 ^ 24 * Z.land (r_drive r) 15.

Definition IDE_BSY : Z := 0x80.
Definition IDE_DRDY : Z := 0x40.
Definition IDE_DF : Z := 0x20.
Definition IDE_ERR : Z := 0x01.
Definition IDE_CMD_READ : Z := 0x20.
Definition IDE_CMD_WRITE : Z := 0x30.
Definition IDE_CMD_RDMUL : Z := 0xc4.
Definition IDE_CMD_WRMUL : Z := 0xc5.
Definition SECTOR_SIZE : Z := 512.

(** The controller accepts a new command, or hands out data. *)
Definition quiet_cmd (c : command) : Prop := match c with CNone | CData _ _ => True | _ => False end.

Class AtaDisk (H : Type) : Type := {
  inb : Z -> M H Z;
  outb : Z -> Z -> M H unit;
  insl : Z -> nat -> M H (list Z);          (* as bytes *)
  outsl : Z -> list Z -> M H unit;
  complete : H -> H;                        (* the work that ends with an interrupt *)
  cmd_of : H -> command;
  regs_of : H -> ata_regs;
  sector_of : H -> Z -> Z -> list Z;
  has_sector : H -> Z -> Z -> Prop;
}.

(** What the controller keeps between two states of it. *)
Record ata_same {H} `{AtaDisk H} (h h' : H) : Prop := {
  as_sectors : sector_of h' = sector_of h;
  as_has : has_sector h' = has_sector h;
}.

Class AtaLaws (H : Type) `{AtaDisk H} : Prop := {
  (* a disk that is not busy and did not fail *)
  ata_status : forall h Q, quiet_cmd (cmd_of h) ->
    (forall r, Z.land r (Z.lor IDE_BSY IDE_DRDY) = IDE_DRDY -> Z.land r (Z.lor IDE_DF IDE_ERR) = 0 -> Q r h) -> wp (inb 0x1f7) Q h;
  ata_ctrl : forall h v Q, quiet_cmd (cmd_of h) ->
    (forall h', cmd_of h' = cmd_of h -> regs_of h' = regs_of h -> ata_same h h' -> Q tt h') -> wp (outb 0x3f6 v) Q h;
  ata_count : forall h v Q, quiet_cmd (cmd_of h) ->
    (forall h', cmd_of h' = cmd_of h -> ata_same h h' -> regs_of h' = set_count v (regs_of h) -> Q tt h') -> wp (outb 0x1f2 v) Q h;
  ata_low : forall h v Q, quiet_cmd (cmd_of h) ->
    (forall h', cmd_of h' = cmd_of h -> ata_same h h' -> regs_of h' = set_low v (regs_of h) -> Q tt h') -> wp (outb 0x1f3 v) Q h;
  ata_mid : forall h v Q, quiet_cmd (cmd_of h) ->
    (forall h', cmd_of h' = cmd_of h -> ata_same h h' -> regs_of h' = set_mid v (regs_of h) -> Q tt h') -> wp (outb 0x1f4 v) Q h;
  ata_high : forall h v Q, quiet_cmd (cmd_of h) ->
    (forall h', cmd_of h' = cmd_of h -> ata_same h h' -> regs_of h' = set_high v (regs_of h) -> Q tt h') -> wp (outb 0x1f5 v) Q h;
  ata_drive : forall h v Q, quiet_cmd (cmd_of h) ->
    (forall h', cmd_of h' = cmd_of h -> ata_same h h' -> regs_of h' = set_drive v (regs_of h) -> Q tt h') -> wp (outb 0x1f6 v) Q h;
  (* commands for one sector *)
  ata_read : forall h Q, quiet_cmd (cmd_of h) -> r_count (regs_of h) = 1 ->
    has_sector h (reg_drive (regs_of h)) (reg_sector (regs_of h)) ->
    (forall h', cmd_of h' = CRead (reg_drive (regs_of h)) (reg_sector (regs_of h)) -> ata_same h h' -> Q tt h') ->
    wp (outb 0x1f7 IDE_CMD_READ) Q h;
  ata_write : forall h Q, quiet_cmd (cmd_of h) -> r_count (regs_of h) = 1 ->
    has_sector h (reg_drive (regs_of h)) (reg_sector (regs_of h)) ->
    (forall h', cmd_of h' = CWriteWait (reg_drive (regs_of h)) (reg_sector (regs_of h)) -> ata_same h h' -> Q tt h') ->
    wp (outb 0x1f7 IDE_CMD_WRITE) Q h;
  ata_outsl : forall h d s v Q, cmd_of h = CWriteWait d s -> length v = Z.to_nat SECTOR_SIZE ->
    (forall h', cmd_of h' = CWrite d s v -> ata_same h h' -> Q tt h') -> wp (outsl 0x1f0 v) Q h;
  ata_insl : forall h d s Q, cmd_of h = CData d s ->
    (forall h', cmd_of h' = CNone -> ata_same h h' -> Q (sector_of h d s) h') -> wp (insl 0x1f0 (Z.to_nat (SECTOR_SIZE / 4))) Q h;
  ata_read_done : forall h d s, cmd_of h = CRead d s -> cmd_of (complete h) = CData d s /\ ata_same h (complete h);
  ata_write_done : forall h d s v, cmd_of h = CWrite d s v ->
    cmd_of (complete h) = CNone /\ has_sector (complete h) = has_sector h /\ sector_of (complete h) = blk_upd (sector_of h) d s v;
  ata_length : forall h d s, has_sector h d s -> length (sector_of h d s) = Z.to_nat SECTOR_SIZE;
}.

Module Ide.

(** ** The state of the driver *)

Record ide (H : Type) := mkide {
  idelock : bool;
  idequeue : option nat;
  havedisk1 : bool;
  bufs : gmap nat buf;
  qnext : gmap nat (option nat);     (* the field of each buffer *)
  waiters : gmap Z (nat * bool);     (* by process *)
  hw : H;
}.
Arguments mkide {H} _ _ _ _ _ _ _.
Arguments idelock {H} _.
Arguments idequeue {H} _.
Arguments havedisk1 {H} _.
Arguments bufs {H} _.
Arguments qnext {H} _.
Arguments waiters {H} _.
Arguments hw {H} _.

Definition set_idelock {H} v (s : ide H) := mkide v (idequeue s) (havedisk1 s) (bufs s) (qnext s) (waiters s) (hw s).
Definition set_idequeue {H} v (s : ide H) := mkide (idelock s) v (havedisk1 s) (bufs s) (qnext s) (waiters s) (hw s).
Definition set_havedisk1 {H} v (s : ide H) := mkide (idelock s) (idequeue s) v (bufs s) (qnext s) (waiters s) (hw s).
Definition set_bufs {H} v (s : ide H) := mkide (idelock s) (idequeue s) (havedisk1 s) v (qnext s) (waiters s) (hw s).
Definition set_qnext {H} v (s : ide H) := mkide (idelock s) (idequeue s) (havedisk1 s) (bufs s) v (waiters s) (hw s).
Definition set_waiters {H} v (s : ide H) := mkide (idelock s) (idequeue s) (havedisk1 s) (bufs s) (qnext s) v (hw s).
Definition set_hw {H} (v : H) (s : ide H) := mkide (idelock s) (idequeue s) (havedisk1 s) (bufs s) (qnext s) (waiters s) v.

(** How a run of iderw() ends: it returns, or it is asleep on the buffer. *)
Inductive iout := IDone | IAsleep.

Section ide.
Context {H : Type} `{AtaDisk H}.
(** How often idewait() polls the status. *)
Context (patience : nat).

Definition onhw {A} (m : M H A) : M (ide H) A := zoom hw set_hw m.
Definition get_buf (b : nat) : M (ide H) buf := fun s => from_some (bufs s !! b) s.
Definition upd_buf (b : nat) (f : buf -> buf) : M (ide H) unit :=
  let* x := get_buf b in
  modify (fun s => set_bufs (<[b := f x]> (bufs s)) s).
Definition get_qnext (b : nat) : M (ide H) (option nat) := fun s => from_some (qnext s !! b) s.
Definition set_next_of (b : nat) (v : option nat) : M (ide H) unit := modify (fun s => set_qnext (<[b := v]> (qnext s)) s).

(** The loop of idewait(): the status once the disk is ready. *)
Fixpoint idewait_loop (fuel : nat) : M (ide H) Z :=
  match fuel with
  | O => nofuel
  | S fuel =>
      let* r := onhw (inb 0x1f7) in
      if negb (Z.land r (Z.lor IDE_BSY IDE_DRDY) =? IDE_DRDY) then idewait_loop fuel else ret r
  end.

Definition idewait (checkerr : bool) : M (ide H) Z :=
  let* r := idewait_loop patience in
  ret (if checkerr && negb (Z.land r (Z.lor IDE_DF IDE_ERR) =? 0) then -1 else 0).

(** The loop of ideinit() that probes disk 1. *)
Fixpoint probe (n : nat) : M (ide H) unit :=
  match n with
  | O => ret tt
  | S n =>
      let* r := onhw (inb 0x1f7) in
      if negb (r =? 0) then modify (set_havedisk1 true) else probe n
  end.

(** ioapicenable() sets a register of the interrupt controller. *)
Definition ideinit : M (ide H) unit :=
  modify (set_idelock false) ;;;
  let* _ := idewait false in
  onhw (outb 0x1f6 (Z.lor 0xe0 (Z.shiftl 1 4))) ;;;
  probe 1000 ;;;
  onhw (outb 0x1f6 (Z.lor 0xe0 (Z.shiftl 0 4))).

Definition idestart (o : option nat) : M (ide H) unit :=
  match o with
  | None => panic "idestart"
  | Some b =>
      let* x := get_buf b in
      panic_if (FSSIZE <=? blockno x) "incorrect blockno" ;;;
      let sector_per_block := BSIZE / SECTOR_SIZE in
      let sector := s32 (blockno x * sector_per_block) in
      let read_cmd := if sector_per_block =? 1 then IDE_CMD_READ else IDE_CMD_RDMUL in
      let write_cmd := if sector_per_block =? 1 then IDE_CMD_WRITE else IDE_CMD_WRMUL in
      panic_if (7 <? sector_per_block) "idestart" ;;;
      let* _ := idewait false in
      onhw (outb 0x3f6 0) ;;;
      onhw (outb 0x1f2 (u8 sector_per_block)) ;;;
      onhw (outb 0x1f3 (Z.land sector 0xff)) ;;;
      onhw (outb 0x1f4 (Z.land (Z.shiftr sector 8) 0xff)) ;;;
      onhw (outb 0x1f5 (Z.land (Z.shiftr sector 16) 0xff)) ;;;
      onhw (outb 0x1f6 (Z.lor (Z.lor 0xe0 (u8 (Z.shiftl (Z.land (dev x) 1) 4))) (Z.land (Z.shiftr sector 24) 0x0f))) ;;;
      if negb (Z.land (flags x) B_DIRTY =? 0) then
        onhw (outb 0x1f7 write_cmd) ;;;
        onhw (outsl 0x1f0 (data x))
      else onhw (outb 0x1f7 read_cmd)
  end.

(** wakeup(b) *)
Definition wake_on (b : nat) (w : nat * bool) : nat * bool := if decide (w.1 = b) then (w.1, true) else w.
Definition wakeup (b : nat) : M (ide H) unit := modify (fun s => set_waiters (wake_on b <$> waiters s) s).

Definition ideintr : M (ide H) unit :=
  acquire idelock set_idelock ;;;
  let* q := gets idequeue in
  match q with
  | None => release idelock set_idelock
  | Some b =>
      let* n := get_qnext b in
      modify (set_idequeue n) ;;;
      let* x := get_buf b in
      (if Z.land (flags x) B_DIRTY =? 0 then
         let* r := idewait true in
         if 0 <=? r then
           let* d := onhw (insl 0x1f0 (Z.to_nat (BSIZE / 4))) in
           upd_buf b (set_data d)
         else ret tt
       else ret tt) ;;;
      upd_buf b (fun x => set_flags (Z.lor (flags x) B_VALID) x) ;;;
      upd_buf b (fun x => set_flags (Z.land (flags x) (Z.lnot B_DIRTY)) x) ;;;
      wakeup b ;;;
      let* q := gets idequeue in
      (match q with
       | Some b => idestart (Some b)
       | None => ret tt
       end) ;;;
      release idelock set_idelock
  end.

(** The loop that looks for the last buffer of the queue and stores [b] in its
    qnext, from buffer [p] on. *)
Fixpoint append_from (fuel : nat) (p b : nat) : M (ide H) unit :=
  match fuel with
  | O => nofuel
  | S fuel =>
      let* n := get_qnext p in
      match n with
      | Some n => append_from fuel n b
      | None => set_next_of p (Some b)
      end
  end.

Definition append (b : nat) : M (ide H) unit :=
  set_next_of b None ;;;
  let* q := gets idequeue in
  match q with
  | None => modify (set_idequeue (Some b))
  | Some p => let* s := gets (fun s => s) in append_from (size (qnext s)) p b
  end.

(** The loop that waits for the request, run with idelock held: sleep()
    releases the lock. *)
Definition iderw_wait (pid : Z) (b : nat) : M (ide H) iout :=
  let* x := get_buf b in
  if negb (Z.land (flags x) (Z.lor B_VALID B_DIRTY) =? B_VALID) then
    modify (fun s => set_waiters (<[pid := (b, false)]> (waiters s)) s) ;;;
    release idelock set_idelock ;;;
    ret IAsleep
  else
    modify (fun s => set_waiters (delete pid (waiters s)) s) ;;;
    release idelock set_idelock ;;;
    ret IDone.

Definition iderw (pid : Z) (b : nat) : M (ide H) iout :=
  let* x := get_buf b in
  let* '(h, l) := on_value (holdingsleep pid) (lock x) in
  upd_buf b (set_lock l) ;;;
  panic_if (negb h) "iderw: buf not locked" ;;;
  panic_if (Z.land (flags x) (Z.lor B_VALID B_DIRTY) =? B_VALID) "iderw: nothing to do" ;;;
  let* d1 := gets havedisk1 in
  panic_if (negb (dev x =? 0) && negb d1) "iderw: ide disk 1 not present" ;;;
  acquire idelock set_idelock ;;;
  append b ;;;
  let* q := gets idequeue in
  (if decide (q = Some b) then idestart (Some b) else ret tt) ;;;
  iderw_wait pid b.

(** From a wakeup on. *)
Definition iderw_again (pid : Z) (b : nat) : M (ide H) iout :=
  acquire idelock set_idelock ;;;
  iderw_wait pid b.

End ide.

End Ide.
