(* ===== verification/IdeSpec.v ===== *)
(** ide.c: requests are served one at a time in the order in which they were
    made, nobody sleeps on a request that was served, and the driver is a
    block device in the sense of Buf.v. *)

From S2P Require Import Prelude Params Bytes Buf Ide.
Import Ide.

(** ** The queue *)

(** The buffers from pointer [o] on, along the qnext fields. *)
Fixpoint qchain (next : gmap nat (option nat)) (o : option nat) (q : list nat) : Prop :=
  match q with
  | [] => o = None
  | b :: q => o = Some b /\ exists n, next !! b = Some n /\ qchain next n q
  end.

Lemma qchain_insert next o q c v : qchain next o q -> c ∉ q -> qchain (<[c := v]> next) o q.
Proof.
  revert o. induction q as [|b q IH]; intros o; [done|]. intros (-> & n & Hn & Hq) Hc. apply not_elem_of_cons in Hc as [Hb Hc].
  split; [done|]. exists n. rewrite lookup_insert_ne by done. auto.
Qed.

Lemma qchain_dom next o q b : qchain next o q -> b ∈ q -> is_Some (next !! b).
Proof.
  revert o. induction q as [|c q IH]; intros o; [by intros _ ?%elem_of_nil|]. intros (-> & n & Hn & Hq) [->|Hb]%elem_of_cons; [by rewrite Hn|eauto].
Qed.

Lemma qchain_length next o q : qchain next o q -> NoDup q -> (length q <= size next)%nat.
Proof.
  intros Hq Hnd. rewrite <- size_dom, <- (size_list_to_set (C := gset nat)) by done. apply subseteq_size. intros b Hb.
  apply elem_of_list_to_set in Hb. apply elem_of_dom. by eapply qchain_dom.
Qed.

(** Storing [b] in the field of the last buffer. *)
Lemma qchain_append next o q l b :
  qchain next o (q ++ [l]) -> NoDup (q ++ [l; b]) -> next !! b = Some None -> qchain (<[l := Some b]> next) o (q ++ [l; b]).
Proof.
  revert o. induction q as [|c q IH]; intros o; cbn [app qchain].
  - intros (-> & n & Hn & ->) Hnd Hb. split; [done|]. exists (Some b). rewrite lookup_insert_eq. split; [done|]. split; [done|].
    exists None. rewrite lookup_insert_ne; [done|]. apply NoDup_cons in Hnd as [Hl _]. intros ->. apply Hl. by left.
  - intros (-> & n & Hn & Hq) [Hc Hnd]%NoDup_cons Hb. split; [done|]. exists n. rewrite lookup_insert_ne; [auto|].
    intros ->. apply Hc. apply elem_of_app. right. by left.
Qed.

(** ** Registers *)

Definition drive (x : buf) : Z := Z.land (dev x) 1.

Lemma drive_cases x : drive x = 0 \/ drive x = 1.
Proof.
  unfold drive. pose proof (Z.mod_pos_bound (dev x) 2 ltac:(lia)). change (Z.land (dev x) 1) with (Z.land (dev x) (Z.ones 1)).
  rewrite Z.land_ones by lia. change (2 ^ 1) with 2. lia.
Qed.

Lemma sector_bytes n :
  0 <= n < FSSIZE ->
  Z.land n 0xff + 2 ^ 8 * Z.land (Z.shiftr n 8) 0xff + 2 ^ 16 * Z.land (Z.shiftr n 16) 0xff = n /\
  Z.land (Z.shiftr n 24) 0x0f = 0.
Proof.
  unfold FSSIZE. intros Hn. change 0xff with (Z.ones 8). change 0x0f with (Z.ones 4). rewrite !Z.land_ones, !Z.shiftr_div_pow2 by lia.
  change (2 ^ 24) with 16777216. change (2 ^ 16) with 65536. change (2 ^ 8) with 256. change (2 ^ 4) with 16.
  Z.div_mod_to_equations. lia.
Qed.

Lemma drive_reg d : d = 0 \/ d = 1 ->
  let v := Z.lor (Z.lor 0xe0 (u8 (Z.shiftl d 4))) 0 in Z.land (Z.shiftr v 4) 1 = d /\ Z.land v 15 = 0.
Proof. by intros [->| ->]. Qed.

(** ** Starting a request *)

Section spec.
Context {H : Type} `{AtaLaws H}.
Context (patience : nat) (Hpatience : (0 < patience)%nat).
Implicit Types (s : ide H) (x : buf) (q : list nat).

(** The command for a buffer. *)
Definition request x : command :=
  if is_dirty x then CWrite (drive x) (blockno x) (data x) else CRead (drive x) (blockno x).

(** A buffer that iderw() accepts. *)
Record ready (h : H) (d1 : bool) x : Prop := {
  rd_work : is_valid x && negb (is_dirty x) = false;
  rd_block : 0 <= blockno x < FSSIZE;
  rd_has : has_sector h (drive x) (blockno x);
  rd_dev : dev x = 0 \/ d1 = true;
  rd_length : is_dirty x = true -> length (data x) = Z.to_nat BSIZE;
}.

Lemma ready_same h h' d1 x : ready h d1 x -> has_sector h' = has_sector h -> ready h' d1 x.
Proof. intros [] E. split; try done. by rewrite E. Qed.

Lemma wp_onhw {A} (m : M H A) (Q : A -> ide H -> Prop) s : wp m (fun a h => Q a (set_hw h s)) (hw s) -> wp (onhw m) Q s.
Proof. apply wp_zoom. Qed.

Lemma wp_get_ibuf s b x (Q : buf -> ide H -> Prop) : bufs s !! b = Some x -> Q x s -> wp (get_buf b) Q s.
Proof. intros Hb HQ. unfold wp, get_buf. by rewrite Hb. Qed.

Lemma wp_upd_ibuf s b f x (Q : unit -> ide H -> Prop) :
  bufs s !! b = Some x -> Q tt (set_bufs (<[b := f x]> (bufs s)) s) -> wp (upd_buf b f) Q s.
Proof. intros Hb HQ. unfold upd_buf. apply wp_bind. by eapply wp_get_ibuf. Qed.

Lemma set_hw_id s : set_hw (hw s) s = s.
Proof. by destruct s. Qed.

(** The disk is ready at the first look, and did not fail. *)
Lemma wp_idewait s c (Q : Z -> ide H -> Prop) : quiet_cmd (cmd_of (hw s)) -> Q 0 s -> wp (idewait patience c) Q s.
Proof.
  intros Hc HQ. unfold idewait. apply wp_bind. destruct patience as [|n]; [lia|]. cbn [idewait_loop]. apply wp_bind, wp_onhw.
  apply ata_status; [done|]. intros r Hr He. rewrite Hr, set_hw_id. cbn [Z.eqb negb]. apply wp_ret, wp_ret. rewrite He, andb_false_r. exact HQ.
Qed.

Lemma ata_same_trans (h1 h2 h3 : H) : ata_same h1 h2 -> ata_same h2 h3 -> ata_same h1 h3.
Proof. intros [A1 A2] [B1 B2]. split; congruence. Qed.

Lemma wp_idestart s b x (Q : unit -> ide H -> Prop) :
  quiet_cmd (cmd_of (hw s)) -> bufs s !! b = Some x -> ready (hw s) (havedisk1 s) x ->
  (forall h, cmd_of h = request x -> ata_same (hw s) h -> Q tt (set_hw h s)) -> wp (idestart patience (Some b)) Q s.
Proof.
  intros Hc Hb [W B Hs _ L] HQ. destruct (sector_bytes (blockno x) B) as [Esec Ehi]. destruct (drive_reg (drive x) (drive_cases x)) as [Edrv Elow].
  unfold idestart. apply wp_bind. eapply wp_get_ibuf; [exact Hb|]. apply wp_bind, wp_panic_if; [lia|].
  cbv zeta. change (BSIZE / SECTOR_SIZE) with 1. change (1 =? 1) with true. cbn iota.
  rewrite Z.mul_1_r, s32_small by (unfold FSSIZE in B; lia).
  apply wp_bind, wp_panic_if; [done|]. apply wp_bind, wp_idewait; [done|].
  apply wp_bind, wp_onhw. apply ata_ctrl; [done|]. intros h1 C1 _ S1. apply wp_bind, wp_onhw. cbn [hw set_hw].
  apply ata_count; [by rewrite C1|]. intros h2 C2 S2 R2. apply wp_bind, wp_onhw. cbn [hw set_hw].
  apply ata_low; [by rewrite C2, C1|]. intros h3 C3 S3 R3. apply wp_bind, wp_onhw. cbn [hw set_hw].
  apply ata_mid; [by rewrite C3, C2, C1|]. intros h4 C4 S4 R4. apply wp_bind, wp_onhw. cbn [hw set_hw].
  apply ata_high; [by rewrite C4, C3, C2, C1|]. intros h5 C5 S5 R5. apply wp_bind, wp_onhw. cbn [hw set_hw].
  apply ata_drive; [by rewrite C5, C4, C3, C2, C1|]. intros h6 C6 S6 R6.
  assert (S : ata_same (hw s) h6) by (do 5 (eapply ata_same_trans; [eassumption|]); done).
  rewrite R5, R4, R3, R2 in R6. fold (drive x) in R6. rewrite Ehi in R6.
  assert (Edr : reg_drive (regs_of h6) = drive x) by (rewrite R6; exact Edrv).
  assert (Ers : reg_sector (regs_of h6) = blockno x) by (rewrite R6; unfold reg_sector, set_drive, set_high, set_mid, set_low; cbn [r_low r_mid r_high r_drive]; rewrite Elow; lia).
  assert (Hq : quiet_cmd (cmd_of h6)) by (by rewrite C6, C5, C4, C3, C2, C1).
  assert (Hs6 : has_sector h6 (reg_drive (regs_of h6)) (reg_sector (regs_of h6))) by (rewrite Edr, Ers, (as_has _ _ S); done).
  assert (Hct : r_count (regs_of h6) = 1) by (by rewrite R6).
  unfold request in HQ. unfold is_dirty in HQ, L. revert HQ L. destruct (negb (Z.land (flags x) B_DIRTY =? 0)); intros HQ L.
  - apply wp_bind, wp_onhw. cbn [hw set_hw]. apply ata_write; [done|done|done|]. rewrite Edr, Ers. intros h7 C7 S7.
    apply wp_onhw. cbn [hw set_hw]. eapply ata_outsl; [exact C7|by apply L|]. intros h8 C8 S8. apply HQ; [exact C8|].
    eapply ata_same_trans; [exact S|]. by eapply ata_same_trans.
  - apply wp_onhw. cbn [hw set_hw]. apply ata_read; [done|done|done|]. rewrite Edr, Ers. intros h7 C7 S7.
    apply HQ; [exact C7|]. by eapply ata_same_trans.
Qed.

(** ** Appending to the queue *)

Lemma wp_append_from b : forall fuel p q s (Q : unit -> ide H -> Prop),
  qchain (qnext s) (Some p) (p :: q) -> (length q < fuel)%nat ->
  Q tt (set_qnext (<[List.last (p :: q) p := Some b]> (qnext s)) s) -> wp (append_from fuel p b) Q s.
Proof.
  induction fuel as [|fuel IH]; intros p q s Q (_ & n & Hn & Hq) Hf HQ; [lia|]. cbn [append_from]. apply wp_bind.
  unfold get_qnext. unfold wp at 1. rewrite Hn. cbn. destruct q as [|c q]; cbn [qchain] in Hq.
  - subst n. by apply wp_modify.
  - destruct Hq as (-> & n' & Hn' & Hq). apply (IH c q); [by split; [|exists n']|cbn in Hf; lia|].
    replace (List.last (c :: q) c) with (List.last (p :: c :: q) p); [done|]. clear. cbn. destruct q as [|d q]; [done|].
    revert d. induction q as [|e q IH]; intros d; [done|]. apply (IH e).
Qed.

Lemma wp_append s q b (Q : unit -> ide H -> Prop) :
  qchain (qnext s) (idequeue s) q -> NoDup (q ++ [b]) ->
  (forall nq o, qchain nq o (q ++ [b]) -> head (q ++ [b]) = o -> Q tt (set_idequeue o (set_qnext nq s))) -> wp (append b) Q s.
Proof.
  intros Hq Hnd HQ. assert (Hb : b ∉ q) by (apply NoDup_app in Hnd as (_ & Hd & _); intros Hb; apply (Hd b Hb); by left).
  unfold append. apply wp_bind, wp_modify. apply wp_bind, wp_gets. cbn [idequeue set_qnext].
  pose proof (qchain_insert _ _ _ b None Hq Hb) as Hq'. destruct q as [|p q]; cbn [qchain] in Hq.
  - rewrite Hq. apply wp_modify. eapply (HQ _ (Some b)); [|done]. split; [done|]. exists None. by rewrite lookup_insert_eq.
  - destruct Hq as (E & _). rewrite E in *. apply wp_bind, wp_gets.
    assert (Hnd' : NoDup (p :: q)) by (by apply NoDup_app in Hnd as (? & _)).
    eapply (wp_append_from b _ p q); [exact Hq'|pose proof (qchain_length _ _ _ Hq' Hnd'); cbn in *; lia|].
    destruct (exists_last (l := p :: q) ltac:(done)) as (q' & l & El).
    assert (Elast : List.last (p :: q) p = l) by (rewrite El; apply List.last_last). rewrite Elast. cbn [qnext set_qnext].
    rewrite El in Hq', Hnd. rewrite <- app_assoc in Hnd. specialize (HQ (<[l := Some b]> (<[b := None]> (qnext s))) (Some p)).
    replace (set_qnext _ _) with (set_idequeue (Some p) (set_qnext (<[l := Some b]> (<[b := None]> (qnext s))) s)); [|destruct s; cbn in *; by subst].
    apply HQ; [|done]. rewrite El, <- app_assoc. apply qchain_append; [done|done|]. by rewrite lookup_insert_eq.
Qed.

(** ** The invariant *)

(** What serving a request does to the disk and to the buffer. *)
Definition serve_disk (D : Z -> Z -> list Z) x : Z -> Z -> list Z :=
  if is_dirty x then blk_upd D (drive x) (blockno x) (data x) else D.

Definition served (D : Z -> Z -> list Z) x : buf :=
  set_flags (Z.land (Z.lor (flags x) B_VALID) (Z.lnot B_DIRTY)) (if is_dirty x then x else set_data (D (drive x) (blockno x)) x).

Lemma served_done D x : is_valid (served D x) = true /\ is_dirty (served D x) = false.
Proof. rewrite is_valid_bit, is_dirty_bit. unfold served. cbn [flags set_flags]. by rewrite valid_clear_dirty, valid_set_valid, dirty_clear_dirty. Qed.

Lemma served_lock D x : lock (served D x) = lock x.
Proof. unfold served. by destruct (is_dirty x). Qed.

(** [q] are the requests that were not served, in order. *)
Record ide_inv s q : Prop := {
  ii_lock : idelock s = false;
  ii_chain : qchain (qnext s) (idequeue s) q;
  ii_nodup : NoDup q;
  ii_ready : forall b, b ∈ q -> exists x, bufs s !! b = Some x /\ ready (hw s) (havedisk1 s) x;
  ii_cmd : match q with [] => cmd_of (hw s) = CNone | b :: _ => exists x, bufs s !! b = Some x /\ cmd_of (hw s) = request x end;
  ii_wait : forall pid b w, waiters s !! pid = Some (b, w) -> exists x, bufs s !! b = Some x /\ sl_held pid (lock x) /\
    (b ∉ q -> w = true /\ is_valid x = true /\ is_dirty x = false);
  ii_owner : forall b, b ∈ q -> exists pid w, waiters s !! pid = Some (b, w);
}.

(** A process that does not wait holds no buffer of the queue. *)
Lemma not_queued s q pid b x :
  ide_inv s q -> bufs s !! b = Some x -> sl_held pid (lock x) -> waiters s !! pid = None -> b ∉ q.
Proof.
  intros Hi Hb (_ & _ & Hp) Hw Hq. destruct (ii_owner _ _ Hi b Hq) as (pid' & w & Hw').
  destruct (ii_wait _ _ Hi pid' b w Hw') as (x' & Hb' & (_ & _ & Hp') & _). assert (x' = x) as -> by congruence. congruence.
Qed.

Lemma head_app_single q (b : nat) : head (q ++ [b]) = Some b -> b ∉ q -> q = [].
Proof. destruct q as [|c q]; [done|]. intros [= ->] Hb. exfalso. apply Hb. by left. Qed.

Lemma flags_wait z : negb (Z.land z (Z.lor B_VALID B_DIRTY) =? B_VALID) = negb (Z.testbit z 1 && negb (Z.testbit z 2)).
Proof. by rewrite flags_clean_valid. Qed.

Lemma wp_wait_asleep s pid b x (Q : iout -> ide H -> Prop) :
  idelock s = true -> bufs s !! b = Some x -> is_valid x && negb (is_dirty x) = false ->
  Q IAsleep (set_idelock false (set_waiters (<[pid := (b, false)]> (waiters s)) s)) -> wp (iderw_wait pid b) Q s.
Proof.
  intros Hl Hb Hw HQ. unfold iderw_wait. apply wp_bind. eapply wp_get_ibuf; [exact Hb|].
  rewrite flags_wait, <- is_valid_bit, <- is_dirty_bit, Hw. cbn [negb]. apply wp_bind, wp_modify. apply wp_bind, wp_release; [done|].
  by apply wp_ret.
Qed.

Lemma wp_iderw s q pid b x :
  ide_inv s q -> bufs s !! b = Some x -> sl_held pid (lock x) -> ready (hw s) (havedisk1 s) x -> waiters s !! pid = None ->
  wp (Ide.iderw patience pid b) (fun o s' => o = IAsleep /\ ide_inv s' (q ++ [b]) /\ bufs s' = bufs s /\ ata_same (hw s) (hw s') /\
    havedisk1 s' = havedisk1 s /\ waiters s' = <[pid := (b, false)]> (waiters s)) s.
Proof.
  intros Hi Hb Hh Hr Hw. pose proof (not_queued _ _ _ _ _ Hi Hb Hh Hw) as Hnq. pose proof Hr as [W B Hs D L].
  assert (Hnd : NoDup (q ++ [b])) by (apply NoDup_app; split_and!; [apply Hi|intros c Hc ->%list_elem_of_singleton; done|apply NoDup_singleton]).
  unfold Ide.iderw. apply wp_bind. eapply wp_get_ibuf; [exact Hb|]. apply wp_bind, wp_on_value, wp_holdingsleep; [done|].
  apply wp_bind. eapply wp_upd_ibuf; [exact Hb|]. replace (set_lock (lock x) x) with x by (by destruct x).
  rewrite (insert_id (bufs s) b x) by done. assert (Es : set_bufs (bufs s) s = s) by (by destruct s). rewrite Es.
  apply wp_bind, wp_panic_if; [done|]. apply wp_bind, wp_panic_if; [rewrite flags_clean_valid, <- is_valid_bit, <- is_dirty_bit; exact W|].
  apply wp_bind, wp_gets. apply wp_bind, wp_panic_if; [destruct D as [->| ->]; [done|apply andb_false_r]|].
  apply wp_bind, wp_acquire; [apply Hi|]. apply wp_bind. eapply (wp_append _ q); [apply Hi|done|]. intros nq o Hq Ho.
  apply wp_bind, wp_gets. cbn [idequeue set_idequeue]. apply wp_bind.
  assert (Hend : forall h, ata_same (hw s) h ->
    (match q ++ [b] with [] => cmd_of h = CNone | c :: _ => exists y, bufs s !! c = Some y /\ cmd_of h = request y end) ->
    wp (iderw_wait pid b) (fun o s' => o = IAsleep /\ ide_inv s' (q ++ [b]) /\ bufs s' = bufs s /\ ata_same (hw s) (hw s') /\
      havedisk1 s' = havedisk1 s /\ waiters s' = <[pid := (b, false)]> (waiters s)) (set_hw h (set_idequeue o (set_qnext nq (set_idelock true s))))).
  { intros h Sh Hcmd. eapply wp_wait_asleep; [done|exact Hb|done|]. split_and!; try done. split; cbn; try done.
    - intros c [Hc|Hc]%elem_of_app.
      + destruct (ii_ready _ _ Hi c Hc) as (y & Hy & Hyr). exists y. split; [done|]. eapply ready_same; [exact Hyr|apply Sh].
      + apply list_elem_of_singleton in Hc as ->. exists x. split; [done|]. eapply ready_same; [exact Hr|apply Sh].
    - intros pid' c w Hpw. apply lookup_insert_Some in Hpw as [[<- [= <- <-]]|[Hne Hpw]].
      + exists x. split_and!; [done|done|]. intros Hn. exfalso. apply Hn, elem_of_app. right. by left.
      + destruct (ii_wait _ _ Hi pid' c w Hpw) as (y & Hy & Hyl & Hyn). exists y. split_and!; [done|done|].
        intros Hn. apply Hyn. intros Hc. apply Hn, elem_of_app. by left.
    - intros c [Hc|Hc]%elem_of_app.
      + destruct (ii_owner _ _ Hi c Hc) as (pid' & w & Hpw). exists pid', w. rewrite lookup_insert_ne; [done|]. intros <-. congruence.
      + apply list_elem_of_singleton in Hc as ->. exists pid, false. by rewrite lookup_insert_eq. }
  case_decide as Eo.
  - assert (q = []) as -> by (apply (head_app_single q b); [congruence|done]). eapply wp_idestart; [cbn; by rewrite (ii_cmd _ _ Hi)|exact Hb|done|].
    intros h Hh' Sh. apply Hend; [done|]. cbn. by exists x.
  - apply wp_ret. specialize (Hend (hw s)). change (set_hw (hw s) _) with (set_idequeue o (set_qnext nq (set_idelock true s))) in Hend.
    apply Hend; [by split|]. destruct q as [|c q]; [cbn in Ho; congruence|]. apply Hi.
Qed.

(** ** The interrupt *)

(** The controller finishes its command and interrupts. *)
Definition interrupt : M (ide H) unit :=
  modify (fun s => set_hw (complete (hw s)) s) ;;;
  ideintr patience.

Lemma complete_request h x :
  cmd_of h = request x -> has_sector (complete h) = has_sector h /\ sector_of (complete h) = serve_disk (sector_of h) x /\
  cmd_of (complete h) = (if is_dirty x then CNone else CData (drive x) (blockno x)).
Proof.
  unfold request, serve_disk. destruct (is_dirty x); intros E.
  - destruct (ata_write_done _ _ _ _ E) as (E1 & E2 & E3). done.
  - destruct (ata_read_done _ _ _ E) as (E1 & [E2 E3]). done.
Qed.

(** The part of ideintr() that works on the buffer. *)
Lemma wp_serve s b x D (k : M (ide H) unit) (Q : unit -> ide H -> Prop) :
  bufs s !! b = Some x -> cmd_of (hw s) = (if is_dirty x then CNone else CData (drive x) (blockno x)) ->
  (is_dirty x = false -> sector_of (hw s) = D) ->
  (forall h, cmd_of h = CNone -> ata_same (hw s) h -> wp k Q (set_bufs (<[b := served D x]> (bufs s)) (set_hw h s))) ->
  wp ((if Z.land (flags x) B_DIRTY =? 0 then
         let* r := idewait patience true in
         if 0 <=? r then
           let* d := onhw (insl 0x1f0 (Z.to_nat (BSIZE / 4))) in
           upd_buf b (set_data d)
         else ret tt
       else ret tt) ;;;
      upd_buf b (fun x => set_flags (Z.lor (flags x) B_VALID) x) ;;;
      upd_buf b (fun x => set_flags (Z.land (flags x) (Z.lnot B_DIRTY)) x) ;;;
      k) Q s.
Proof.
  intros Hb Hc HD HQ. apply wp_bind.
  assert (Hrest : forall h y, cmd_of h = CNone -> ata_same (hw s) h -> flags y = flags x ->
    served D x = set_flags (Z.land (Z.lor (flags y) B_VALID) (Z.lnot B_DIRTY)) y ->
    wp (upd_buf b (fun x => set_flags (Z.lor (flags x) B_VALID) x) ;;;
        upd_buf b (fun x => set_flags (Z.land (flags x) (Z.lnot B_DIRTY)) x) ;;; k) Q (set_bufs (<[b := y]> (bufs s)) (set_hw h s))).
  { intros h y Ch Sh Ef Ey. apply wp_bind. eapply wp_upd_ibuf; [cbn; by rewrite lookup_insert_eq|]. apply wp_bind.
    eapply wp_upd_ibuf; [cbn; by rewrite lookup_insert_eq|]. specialize (HQ h Ch Sh). rewrite Ey in HQ.
    unfold set_bufs, set_hw in *. cbn [idelock idequeue havedisk1 bufs qnext waiters hw] in *. rewrite !insert_insert_eq. exact HQ. }
  assert (Ed : Z.land (flags x) B_DIRTY =? 0 = negb (is_dirty x)) by (unfold is_dirty; by rewrite negb_involutive).
  rewrite Ed. unfold served in Hrest. destruct (is_dirty x) eqn:Edx; cbn [negb].
  - apply wp_ret. specialize (Hrest (hw s) x). rewrite insert_id in Hrest by done. rewrite set_hw_id in Hrest.
    assert (Es : set_bufs (bufs s) s = s) by (by destruct s). rewrite Es in Hrest. apply Hrest; [done|by split|done|done].
  - apply wp_bind, wp_idewait; [by rewrite Hc|]. change (0 <=? 0) with true. cbn iota. apply wp_bind, wp_onhw.
    change (BSIZE / 4) with (SECTOR_SIZE / 4). eapply ata_insl; [exact Hc|]. intros h Ch Sh.
    eapply wp_upd_ibuf; [exact Hb|]. rewrite HD by done. by apply Hrest.
Qed.

Lemma wp_interrupt s q b x :
  ide_inv s (b :: q) -> bufs s !! b = Some x ->
  wp interrupt (fun _ s' => ide_inv s' q /\ bufs s' = <[b := served (sector_of (hw s)) x]> (bufs s) /\
    sector_of (hw s') = serve_disk (sector_of (hw s)) x /\ has_sector (hw s') = has_sector (hw s) /\
    havedisk1 s' = havedisk1 s /\ waiters s' = wake_on b <$> waiters s) s.
Proof.
  intros Hi Hb. destruct (ii_cmd _ _ Hi) as (x' & Hb' & Hcmd). assert (x' = x) as -> by congruence. clear Hb'.
  destruct (complete_request _ _ Hcmd) as (Eh & Ed & Ec). pose proof (ii_chain _ _ Hi) as (Eq & n & Hn & Hq).
  pose proof (ii_nodup _ _ Hi) as [Hbq Hnd]%NoDup_cons. set (D := sector_of (hw s)) in *.
  unfold interrupt. apply wp_bind, wp_modify. unfold ideintr. apply wp_bind, wp_acquire; [apply Hi|].
  apply wp_bind, wp_gets. cbn [idequeue set_idelock set_hw]. rewrite Eq. apply wp_bind. unfold get_qnext, wp at 1. cbn [qnext set_idelock set_hw].
  rewrite Hn. cbn [from_some ret]. apply wp_bind, wp_modify. apply wp_bind. eapply wp_get_ibuf; [exact Hb|].
  eapply (wp_serve _ b x D); [exact Hb|exact Ec|cbn; rewrite Ed; unfold serve_disk; by intros ->|]. cbn [hw set_idequeue set_idelock set_hw].
  intros h Ch Sh. apply wp_bind. unfold Ide.wakeup. apply wp_modify. apply wp_bind, wp_gets. cbn [idequeue set_waiters set_bufs set_hw set_idequeue].
  set (B := <[b := served D x]> (bufs s)). apply wp_bind.
  assert (Hold : forall c y, c ∈ q -> bufs s !! c = Some y -> B !! c = Some y).
  { intros c y Hc Hy. unfold B. rewrite lookup_insert_ne; [done|]. by intros ->. }
  assert (Hend : forall h', ata_same h h' ->
    (match q with [] => cmd_of h' = CNone | c :: _ => exists y, B !! c = Some y /\ cmd_of h' = request y end) ->
    ide_inv (mkide false n (havedisk1 s) B (qnext s) (wake_on b <$> waiters s) h') q).
  { intros h' Sh' Hc'. assert (Ehas : has_sector h' = has_sector (hw s)) by (rewrite (as_has _ _ Sh'), (as_has _ _ Sh); exact Eh).
    split; cbn; try done.
    - intros c Hc. destruct (ii_ready _ _ Hi c) as (y & Hy & Hyr); [by right|]. exists y. split; [by apply Hold|]. by eapply ready_same.
    - intros pid c w Hw. apply lookup_fmap_Some in Hw as ([c' w'] & E & Hw). destruct (ii_wait _ _ Hi pid c' w' Hw) as (y & Hy & Hyl & Hyn).
      unfold wake_on in E. cbn in E. destruct (decide (c' = b)) as [->|Hne]; injection E as <- <-.
      + exists (served D x). unfold B. rewrite lookup_insert_eq. assert (y = x) as -> by congruence. rewrite served_lock.
        split_and!; [done|done|]. intros _. split; [done|apply served_done].
      + exists y. unfold B. rewrite lookup_insert_ne by done. split_and!; [done|done|]. intros Hc. apply Hyn. by apply not_elem_of_cons.
    - intros c Hc. destruct (ii_owner _ _ Hi c) as (pid & w & Hw); [by right|]. exists pid, w. rewrite lookup_fmap, Hw. cbn. unfold wake_on. cbn.
      rewrite decide_False; [done|]. by intros ->. }
  assert (Esec : sector_of h = serve_disk D x) by (rewrite (as_sectors _ _ Sh); exact Ed).
  assert (Ehas : has_sector h = has_sector (hw s)) by (rewrite (as_has _ _ Sh); exact Eh).
  destruct q as [|c q]; cbn [qchain] in Hq.
  - rewrite Hq. apply wp_ret. apply wp_release; [done|]. split_and!; try done. specialize (Hend h). rewrite Hq in Hend. apply Hend; [by split|done].
  - destruct Hq as (-> & _). destruct (ii_ready _ _ Hi c) as (y & Hy & Hyr); [right; by left|].
    eapply wp_idestart; [cbn; by rewrite Ch|cbn; by apply Hold; [left|]|cbn; by eapply ready_same|]. cbn [hw set_bufs set_hw set_waiters set_idequeue].
    intros h' Ch' Sh'. apply wp_release; [done|]. pose proof Sh' as [S1 S2]. split_and!; cbn; [|done|rewrite S1; exact Esec|rewrite S2; exact Ehas|done|done].
    apply Hend; [done|]. exists y. split; [by apply Hold; [left|]|done].
Qed.

Lemma wp_again s q pid b w :
  ide_inv s q -> waiters s !! pid = Some (b, w) ->
  wp (iderw_again pid b) (fun o s' => ide_inv s' q /\ bufs s' = bufs s /\ hw s' = hw s /\ havedisk1 s' = havedisk1 s /\
    (if decide (b ∈ q) then o = IAsleep /\ waiters s' = <[pid := (b, false)]> (waiters s)
     else o = IDone /\ waiters s' = delete pid (waiters s))) s.
Proof.
  intros Hi Hw. destruct (ii_wait _ _ Hi pid b w Hw) as (x & Hx & Hl & Hn). unfold iderw_again.
  apply wp_bind, wp_acquire; [apply Hi|]. case_decide as Hbq.
  - destruct (ii_ready _ _ Hi b Hbq) as (x' & Hx' & Hr). assert (x' = x) as -> by congruence.
    eapply wp_wait_asleep; [done|exact Hx|apply Hr|]. split_and!; try done. destruct Hi as [I1 I2 I3 I4 I5 I6 I7]. split; cbn; try done.
    + intros pid' c w' Hpw. apply lookup_insert_Some in Hpw as [[<- [= <- <-]]|[Hne Hpw]]; [|by eapply I6]. by exists x.
    + intros c Hc. destruct (I7 c Hc) as (pid' & w' & Hpw). destruct (decide (pid' = pid)) as [->|Hne].
      * exists pid, false. rewrite lookup_insert_eq. congruence.
      * exists pid', w'. by rewrite lookup_insert_ne.
  - destruct (Hn Hbq) as (-> & Hv & Hd). unfold iderw_wait. apply wp_bind. eapply wp_get_ibuf; [exact Hx|].
    rewrite flags_wait, <- is_valid_bit, <- is_dirty_bit, Hv, Hd. cbn [negb andb]. apply wp_bind, wp_modify. apply wp_bind, wp_release; [done|].
    apply wp_ret. split_and!; try done. destruct Hi as [I1 I2 I3 I4 I5 I6 I7]. split; cbn; try done.
    + intros pid' c w' [_ Hpw]%lookup_delete_Some. by eapply I6.
    + intros c Hc. destruct (I7 c Hc) as (pid' & w' & Hpw). exists pid', w'. rewrite lookup_delete_ne; [done|]. intros <-. congruence.
Qed.

(** ** Executions *)

(** From [s0]: the requests made, each with the buffer as it was then, and how
    many of them were served.  A buffer that nobody waits for is changed at
    will by its owner. *)
Inductive reach (s0 : ide H) : list (nat * buf) -> nat -> ide H -> Prop :=
  | reach_init : reach s0 [] 0 s0
  | reach_request rs k s pid b x o s' :
      reach s0 rs k s -> bufs s !! b = Some x -> sl_held pid (lock x) -> ready (hw s) (havedisk1 s) x -> waiters s !! pid = None ->
      Ide.iderw patience pid b s = Ok o s' -> reach s0 (rs ++ [(b, x)]) k s'
  | reach_interrupt rs k s s' :
      reach s0 rs k s -> cmd_of (hw s) <> CNone -> interrupt s = Ok tt s' -> reach s0 rs (S k) s'
  | reach_wake rs k s pid b o s' :
      reach s0 rs k s -> waiters s !! pid = Some (b, true) -> iderw_again pid b s = Ok o s' -> reach s0 rs k s'
  | reach_user rs k s b x :
      reach s0 rs k s -> (forall pid w, waiters s !! pid <> Some (b, w)) -> reach s0 rs k (set_bufs (<[b := x]> (bufs s)) s).

(** The disk after the requests [xs]. *)
Definition after (D : Z -> Z -> list Z) (rs : list (nat * buf)) : Z -> Z -> list Z := foldl serve_disk D rs.*2.

Record serving (D : Z -> Z -> list Z) (rs : list (nat * buf)) (k : nat) s : Prop := {
  sv_count : (k <= length rs)%nat;
  sv_inv : ide_inv s (drop k rs).*1;
  sv_disk : sector_of (hw s) = after D (take k rs);
  sv_wait : forall pid b w, waiters s !! pid = Some (b, w) -> exists i x, rs !! i = Some (b, x) /\
    if decide (i < k)%nat then b ∉ (drop k rs).*1 /\ bufs s !! b = Some (served (after D (take i rs)) x) else bufs s !! b = Some x;
}.

Lemma after_snoc D rs b x : after D (rs ++ [(b, x)]) = serve_disk (after D rs) x.
Proof. unfold after. rewrite fmap_app, foldl_app. done. Qed.

Lemma run_wp {A} (m : M (ide H) A) s a s' (P : A -> ide H -> Prop) : m s = Ok a s' -> wp m P s -> P a s'.
Proof. intros E Hm. unfold wp in Hm. by rewrite E in Hm. Qed.

(** The index of a pending request. *)
Lemma pending_index (rs : list (nat * buf)) k b x i :
  (k <= length rs)%nat -> NoDup (drop k rs).*1 -> rs !! k = Some (b, x) -> (k <= i)%nat -> forall y, rs !! i = Some (b, y) -> i = k.
Proof.
  intros Hk Hnd Hk' Hi y Hy. assert (E1 : (drop k rs).*1 !! 0%nat = Some b) by (rewrite list_lookup_fmap, lookup_drop, Nat.add_0_r, Hk'; done).
  assert (E2 : (drop k rs).*1 !! (i - k)%nat = Some b).
  { rewrite list_lookup_fmap, lookup_drop. replace (k + (i - k))%nat with i by lia. by rewrite Hy. }
  pose proof (NoDup_lookup _ _ _ _ Hnd E1 E2). lia.
Qed.

Lemma serving_request D rs k s pid b x o s' :
  serving D rs k s -> bufs s !! b = Some x -> sl_held pid (lock x) -> ready (hw s) (havedisk1 s) x -> waiters s !! pid = None ->
  Ide.iderw patience pid b s = Ok o s' -> serving D (rs ++ [(b, x)]) k s'.
Proof.
  intros [Hk Hi Hd Hwt] Hb Hh Hr Hw E. destruct (run_wp _ _ _ _ _ E (wp_iderw s _ pid b x Hi Hb Hh Hr Hw)) as (-> & Hi' & Eb & Sh & _ & Ew).
  split.
  - rewrite length_app. cbn. lia.
  - rewrite drop_app_le, fmap_app by done. exact Hi'.
  - rewrite (as_sectors _ _ Sh), take_app_le by done. exact Hd.
  - intros pid' c w Hpw. rewrite Ew in Hpw. rewrite Eb. apply lookup_insert_Some in Hpw as [[<- [= <- <-]]|[Hne Hpw]].
    + exists (length rs), x. rewrite list_lookup_middle by done. rewrite decide_False by lia. done.
    + destruct (Hwt pid' c w Hpw) as (i & y & Hy & Hc). exists i, y. pose proof (lookup_lt_Some _ _ _ Hy) as Hlt.
      rewrite lookup_app_l by done. split; [done|]. case_decide; [|done]. destruct Hc as [Hc1 Hc2]. rewrite take_app_le by lia.
      split; [|done]. rewrite drop_app_le, fmap_app by done. intros [Hc|Hc]%elem_of_app; [done|].
      cbn in Hc. apply list_elem_of_singleton in Hc as ->. destruct (ii_wait _ _ Hi pid' b w Hpw) as (y' & Hy' & (_ & _ & Hp') & _).
      assert (y' = x) as -> by congruence. destruct Hh as (_ & _ & Hp). congruence.
Qed.

Lemma serving_interrupt D rs k s s' :
  serving D rs k s -> cmd_of (hw s) <> CNone -> interrupt s = Ok tt s' -> serving D rs (S k) s'.
Proof.
  intros [Hk Hi Hd Hwt] Hc E. destruct (rs !! k) as [[b x0]|] eqn:Ek.
  2: { exfalso. apply Hc. apply lookup_ge_None in Ek. pose proof (ii_cmd _ _ Hi) as Hcmd. by rewrite drop_ge in Hcmd. }
  pose proof (lookup_lt_Some _ _ _ Ek) as Hlt. pose proof (ii_nodup _ _ Hi) as Hnd. rewrite (drop_S rs (b, x0) k Ek) in Hi. cbn [fmap list_fmap fst] in Hi.
  destruct (ii_cmd _ _ Hi) as (x & Hx & _). pose proof (ii_nodup _ _ Hi) as [Hbq _]%NoDup_cons.
  assert (x = x0) as ->.
  { destruct (ii_owner _ _ Hi b) as (pid & w & Hpw); [by left|]. destruct (Hwt pid b w Hpw) as (i & y & Hy & Hcase). case_decide as Hlt'.
    - destruct Hcase as [Hn _]. exfalso. apply Hn. rewrite (drop_S rs (b, x0) k Ek). by left.
    - assert (i = k) as -> by (by eapply (pending_index rs k b x0 i); [..|lia|]). congruence. }
  destruct (run_wp _ _ _ _ _ E (wp_interrupt s _ b x0 Hi Hx)) as (Hi' & Eb & Ed & _ & _ & Ew).
  split; [lia|exact Hi'| |].
  - rewrite Ed, Hd. rewrite (take_S_r rs k (b, x0)) by done. by rewrite after_snoc.
  - intros pid c w Hpw. rewrite Ew in Hpw. apply lookup_fmap_Some in Hpw as ([c' w'] & Ecw & Hpw).
    assert (c' = c) as -> by (unfold wake_on in Ecw; cbn in Ecw; case_decide; congruence).
    destruct (Hwt pid c w' Hpw) as (i & y & Hy & Hcase). exists i, y. split; [done|]. rewrite Eb. destruct (decide (c = b)) as [->|Hne].
    + case_decide as Hik; [destruct Hcase as [Hn _]; exfalso; apply Hn; rewrite (drop_S rs (b, x0) k Ek); by left|].
      assert (i = k) as -> by (by eapply (pending_index rs k b x0 i); [..|lia|]). rewrite decide_True by lia. split; [exact Hbq|].
      rewrite lookup_insert_eq. assert (y = x0) as -> by congruence. by rewrite Hd.
    + rewrite lookup_insert_ne by done. case_decide as Hik.
      * rewrite decide_True by lia. destruct Hcase as [Hn Hc']. split; [|done]. intros Hn'. apply Hn. rewrite (drop_S rs (b, x0) k Ek). by right.
      * rewrite decide_False; [done|]. intros Hik'. assert (i = k) as -> by lia. congruence.
Qed.

Lemma serving_wake D rs k s pid b o s' :
  serving D rs k s -> waiters s !! pid = Some (b, true) -> iderw_again pid b s = Ok o s' -> serving D rs k s'.
Proof.
  intros [Hk Hi Hd Hwt] Hw E. destruct (run_wp _ _ _ _ _ E (wp_again s _ pid b true Hi Hw)) as (Hi' & Eb & Eh & _ & Hcase).
  split; [done|done|by rewrite Eh|]. rewrite Eb. intros pid' c w Hpw. case_decide as Hbq; destruct Hcase as [_ Ew]; rewrite Ew in Hpw.
  - apply lookup_insert_Some in Hpw as [[<- [= <- <-]]|[Hne Hpw]]; by eapply Hwt.
  - apply lookup_delete_Some in Hpw as [_ Hpw]. by eapply Hwt.
Qed.

Lemma serving_user D rs k s b x :
  serving D rs k s -> (forall pid w, waiters s !! pid <> Some (b, w)) -> serving D rs k (set_bufs (<[b := x]> (bufs s)) s).
Proof.
  intros [Hk Hi Hd Hwt] Hno. assert (Hbq : b ∉ (drop k rs).*1).
  { intros Hb. destruct (ii_owner _ _ Hi b Hb) as (pid & w & Hpw). by eapply Hno. }
  assert (Hold : forall c, c <> b -> <[b := x]> (bufs s) !! c = bufs s !! c) by (intros c Hc; by rewrite lookup_insert_ne).
  split; [done| |done|].
  - destruct Hi as [I1 I2 I3 I4 I5 I6 I7]. split; cbn; try done.
    + intros c Hc. rewrite Hold; [by apply I4|]. by intros ->.
    + destruct (drop k rs).*1 as [|c q]; [done|]. rewrite Hold; [done|]. intros ->. apply Hbq. by left.
    + intros pid c w Hpw. rewrite Hold; [by eapply I6|]. intros ->. by eapply Hno.
  - intros pid c w Hpw. cbn. rewrite Hold; [by eapply Hwt|]. intros ->. by eapply Hno.
Qed.

Lemma reach_serving s0 rs k s :
  ide_inv s0 [] -> waiters s0 = ∅ -> reach s0 rs k s -> serving (sector_of (hw s0)) rs k s.
Proof.
  intros Hi0 Hw0 Hr. induction Hr.
  - split; [done|done|done|]. rewrite Hw0. intros pid b w Hpw. by rewrite lookup_empty in Hpw.
  - by eapply serving_request.
  - by eapply serving_interrupt.
  - by eapply serving_wake.
  - by eapply serving_user.
Qed.

(** C12: whatever processes make requests, change buffers they do not wait for,
    and however these and the interrupts interleave, the requests are served
    atomically in the order they were made: the disk is what the served
    requests make of it one after the other; a process whose request was
    served finds in its buffer the sector as the requests before its own left
    it, or its write done, and one whose request is pending finds its buffer
    as it was. *)
Theorem ide_fifo s0 rs k s :
  ide_inv s0 [] -> waiters s0 = ∅ -> reach s0 rs k s ->
  (k <= length rs)%nat /\ sector_of (hw s) = after (sector_of (hw s0)) (take k rs) /\
  forall pid b w, waiters s !! pid = Some (b, w) -> exists i x, rs !! i = Some (b, x) /\
    bufs s !! b = Some (if decide (i < k)%nat then served (after (sector_of (hw s0)) (take i rs)) x else x).
Proof.
  intros Hi0 Hw0 Hr. destruct (reach_serving _ _ _ _ Hi0 Hw0 Hr) as [Hk _ Hd Hwt]. split_and!; [done|done|].
  intros pid b w Hpw. destruct (Hwt pid b w Hpw) as (i & x & Hx & Hc). exists i, x. split; [done|]. case_decide; [apply Hc|done].
Qed.

(** Any number of interrupts. *)
Lemma wp_drain n : forall s q, ide_inv s q -> length q = n ->
  wp (for_each (seq 0 n) (fun _ => interrupt)) (fun _ s' => ide_inv s' [] /\ dom (waiters s') = dom (waiters s)) s.
Proof.
  assert (Hgen : forall l s q, ide_inv s q -> length q = length l ->
    wp (for_each l (fun _ : nat => interrupt)) (fun _ s' => ide_inv s' [] /\ dom (waiters s') = dom (waiters s)) s).
  { induction l as [|a l IH]; intros s q Hi Hl; cbn [for_each].
    - destruct q; [|done]. by apply wp_ret.
    - destruct q as [|b q]; [done|]. apply wp_bind. destruct (ii_cmd _ _ Hi) as (x & Hx & _).
      eapply wp_mono; [by apply (wp_interrupt s q b x)|]. cbn. intros _ s1 (Hi1 & _ & _ & _ & _ & Ew).
      eapply wp_mono; [apply (IH s1 q); [done|cbn in Hl; lia]|]. cbn. intros _ s2 [Hi2 Ed]. split; [done|]. by rewrite Ed, Ew, dom_fmap_L. }
  intros s q Hi Hl. apply (Hgen _ s q Hi). by rewrite length_seq.
Qed.


End spec.
