(* ===== verification/IdeDev.v ===== *)
(** ide.c as a block device: run by one process, with the interrupt coming
    while it sleeps, the driver has the interface of Buf.v that the buffer
    cache is proved against.  So everything above the cache holds on an IDE
    disk as it does on the memory disk.  A controller that keeps the laws of
    Ide.v is at the end. *)

From S2P Require Import Prelude Params Bytes Buf Ide IdeSpec.
Import Ide.

Section dev.
Context {H : Type} `{AtaLaws H}.
Context (patience : nat) (Hpatience : (0 < patience)%nat).
Implicit Types (d : ide H) (x : buf).

(** iderw() on a buffer of the caller, to its return. *)
Definition iderw_sync (pid : Z) (x : buf) : M (ide H) buf :=
  modify (fun d => set_bufs (<[0%nat := x]> (bufs d)) d) ;;;
  let* o := Ide.iderw patience pid 0 in
  (match o with
   | IAsleep => interrupt patience ;;; let* _ := iderw_again pid 0 in ret tt
   | IDone => ret tt
   end) ;;;
  get_buf 0.

Definition ide_range d (dv n : Z) : Prop :=
  (dv = 0 \/ dv = 1 /\ havedisk1 d = true) /\ 0 <= n < FSSIZE /\ has_sector (hw d) dv n.

Definition ide_ok d : Prop := ide_inv d [] /\ waiters d = ∅.

Definition ide_dev : BlockDev (ide H) := {|
  Buf.iderw := iderw_sync;
  devblock := fun d => sector_of (hw d);
  devrange := ide_range;
  devok := ide_ok;
|}.

Lemma drive_dev x : dev x = 0 \/ dev x = 1 -> drive x = dev x.
Proof. unfold drive. by intros [-> | ->]. Qed.

(** A request, its interrupt and the wakeup. *)
Lemma wp_iderw_sync pid x d (Q : buf -> ide H -> Prop) :
  ide_ok d -> ide_range d (dev x) (blockno x) -> sl_held pid (lock x) -> is_valid x && negb (is_dirty x) = false ->
  (is_dirty x = true -> length (data x) = Z.to_nat BSIZE) ->
  (forall d', ide_ok d' -> sector_of (hw d') = serve_disk (sector_of (hw d)) x -> has_sector (hw d') = has_sector (hw d) ->
     havedisk1 d' = havedisk1 d -> Q (served (sector_of (hw d)) x) d') ->
  wp (iderw_sync pid x) Q d.
Proof.
  intros [Hi Hw] (Hdv & Hn & Hhas) Hl Hwork Hlen HQ. unfold iderw_sync. apply wp_bind, wp_modify.
  set (d1 := set_bufs _ d). assert (Hi1 : ide_inv d1 []).
  { destruct Hi as [I1 I2 I3 I4 I5 I6 I7]. split; cbn; try done.
    - by intros b Hb%elem_of_nil.
    - intros pid' b w Hpw. rewrite Hw, lookup_empty in Hpw. done. }
  assert (Hb1 : bufs d1 !! 0%nat = Some x) by (cbn; by rewrite lookup_insert_eq).
  assert (Hr : ready (hw d1) (havedisk1 d1) x).
  { split; try done; [rewrite drive_dev; [done|tauto]|cbn; tauto]. }
  apply wp_bind. eapply wp_mono; [apply (wp_iderw patience Hpatience d1 [] pid 0 x); try done; cbn; by rewrite Hw, lookup_empty|].
  cbn. intros o d2 (-> & Hi2 & Eb2 & [Es2 Eh2] & E2 & Ew2). apply wp_bind, wp_bind.
  eapply wp_mono; [apply (wp_interrupt patience Hpatience d2 [] 0 x); [done|by rewrite Eb2]|]. cbn.
  intros _ d3 (Hi3 & Eb3 & Es3 & Eh3 & E3 & Ew3). apply wp_bind.
  assert (Hw3 : waiters d3 = {[pid := (0%nat, true)]}).
  { rewrite Ew3, Ew2. change (waiters d1) with (waiters d). rewrite Hw, insert_empty, map_fmap_singleton. done. }
  eapply wp_mono; [eapply (wp_again d3 [] pid 0 true); [done|rewrite Hw3; apply lookup_singleton_eq]|].
  cbn. intros o d4 (Hi4 & Eb4 & Eh4 & E4 & Hc). destruct (decide (0%nat ∈ [])) as [Hin|_]; [by apply elem_of_nil in Hin|].
  destruct Hc as [_ Ew4]. apply wp_ret. eapply wp_get_ibuf.
  { rewrite Eb4, Eb3. apply lookup_insert_eq. }
  rewrite Es2. change (hw d1) with (hw d). apply HQ.
  - split; [done|]. by rewrite Ew4, Hw3, delete_singleton_eq.
  - rewrite Eh4, Es3, Es2. done.
  - rewrite Eh4, Eh3, Eh2. done.
  - rewrite E4, E3, E2. done.
Qed.

Lemma ide_range_same d d' : has_sector (hw d') = has_sector (hw d) -> havedisk1 d' = havedisk1 d -> ide_range d' = ide_range d.
Proof. intros E1 E2. unfold ide_range. by rewrite E1, E2. Qed.

Lemma ide_dev_laws : @BlockDevLaws (ide H) ide_dev.
Proof.
  split.
  - intros pid b d Q Hok Hr Hh Hv Hd HQ. eapply wp_iderw_sync; [done|done|done|by rewrite Hv|by rewrite Hd|].
    intros d' Hok' Es Eh E1. unfold serve_disk in Es. rewrite Hd in Es. unfold served. rewrite Hd, drive_dev by (destruct Hr; tauto).
    apply (HQ (Z.land (Z.lor (flags b) B_VALID) (Z.lnot B_DIRTY)) d'); [| |done|exact Es|by apply ide_range_same].
    + by rewrite valid_clear_dirty, valid_set_valid.
    + apply dirty_clear_dirty.
  - intros pid b d Q Hok Hr Hh Hd Hlen HQ. eapply wp_iderw_sync; [done|done|done|by rewrite Hd, andb_false_r|done|].
    intros d' Hok' Es Eh E1. unfold serve_disk in Es. rewrite Hd in Es. unfold served. rewrite Hd. rewrite drive_dev in Es by (destruct Hr; tauto).
    apply (HQ (Z.land (Z.lor (flags b) B_VALID) (Z.lnot B_DIRTY)) d'); [| |done| |by apply ide_range_same].
    + by rewrite valid_clear_dirty, valid_set_valid.
    + apply dirty_clear_dirty.
    + intros dv n _. cbn. by rewrite Es.
  - intros d dv n _ (_ & _ & Hs). cbn. by apply ata_length.
Qed.

End dev.

(** ** A controller *)

Module Ata.

Definition cmd_ok (c : command) : Prop := match c with CWrite _ _ v => length v = Z.to_nat SECTOR_SIZE | _ => True end.

(** Two drives of [size] sectors. *)
Record ata := mkata {
  size : Z;
  cmd : command;
  regs : ata_regs;
  disk : Z -> Z -> list Z;
  disk_ok : forall d s, length (disk d s) = Z.to_nat SECTOR_SIZE;
  cmd_fits : cmd_ok cmd;
}.

Definition with_regs (r : ata_regs) (h : ata) : ata := mkata (size h) (cmd h) r (disk h) (disk_ok h) (cmd_fits h).
Definition with_cmd (c : command) (E : cmd_ok c) (h : ata) : ata := mkata (size h) c (regs h) (disk h) (disk_ok h) E.

Lemma blk_upd_ok (D : Z -> Z -> list Z) d s v :
  (forall d s, length (D d s) = Z.to_nat SECTOR_SIZE) -> length v = Z.to_nat SECTOR_SIZE ->
  forall d' s', length (blk_upd D d s v d' s') = Z.to_nat SECTOR_SIZE.
Proof. intros HD Hv d' s'. unfold blk_upd. by case_decide. Qed.

Definition ata_complete (h : ata) : ata :=
  match cmd h as c return cmd_ok c -> ata with
  | CRead d s => fun _ => with_cmd (CData d s) I h
  | CWrite d s v => fun E => mkata (size h) CNone (regs h) (blk_upd (disk h) d s v) (blk_upd_ok _ d s v (disk_ok h) E) I
  | _ => fun _ => h
  end (cmd_fits h).

(** The status register: ready, or busy with a command. *)
Definition status (h : ata) : Z := match cmd h with CNone | CData _ _ | CWriteWait _ _ => IDE_DRDY | _ => IDE_BSY end.

Definition ata_outb (port v : Z) : M ata unit := fun h =>
  let r := regs h in
  if port =? 0x1f2 then Ok tt (with_regs (set_count v r) h)
  else if port =? 0x1f3 then Ok tt (with_regs (set_low v r) h)
  else if port =? 0x1f4 then Ok tt (with_regs (set_mid v r) h)
  else if port =? 0x1f5 then Ok tt (with_regs (set_high v r) h)
  else if port =? 0x1f6 then Ok tt (with_regs (set_drive v r) h)
  else if port =? 0x1f7 then
    if v =? IDE_CMD_READ then Ok tt (with_cmd (CRead (reg_drive r) (reg_sector r)) I h)
    else Ok tt (with_cmd (CWriteWait (reg_drive r) (reg_sector r)) I h)
  else Ok tt h.

Definition ata_outs (port : Z) (v : list Z) : M ata unit := fun h =>
  match cmd h with
  | CWriteWait d s =>
      match decide (length v = Z.to_nat SECTOR_SIZE) with
      | left E => Ok tt (with_cmd (CWrite d s v) E h)
      | right _ => Ok tt h
      end
  | _ => Ok tt h
  end.

Definition ata_ins (port : Z) (n : nat) : M ata (list Z) := fun h =>
  match cmd h with
  | CData d s => Ok (disk h d s) (with_cmd CNone I h)
  | _ => Ok [] h
  end.

#[export] Instance ata_disk : AtaDisk ata := {|
  inb := fun _ => gets status;
  outb := ata_outb;
  insl := ata_ins;
  outsl := ata_outs;
  complete := ata_complete;
  cmd_of := cmd;
  regs_of := regs;
  sector_of := disk;
  has_sector := fun h d s => (d = 0 \/ d = 1) /\ 0 <= s < size h;
|}.

#[export] Instance ata_laws : AtaLaws ata.
Proof.
  split; cbn -[Z.land Z.lor].
  - intros h Q Hc HQ. apply wp_gets. unfold status. destruct (cmd h); try done; apply HQ; done.
  - intros h v Q Hc HQ. by apply (HQ h).
  - intros h v Q Hc HQ. by apply HQ.
  - intros h v Q Hc HQ. by apply HQ.
  - intros h v Q Hc HQ. by apply HQ.
  - intros h v Q Hc HQ. by apply HQ.
  - intros h v Q Hc HQ. by apply HQ.
  - intros h Q Hc Hn Hs HQ. by apply HQ.
  - intros h Q Hc Hn Hs HQ. by apply HQ.
  - intros h d s v Q Hc Hl HQ. unfold wp, ata_outs. rewrite Hc. destruct (decide _); [|done]. by apply HQ.
  - intros h d s Q Hc HQ. unfold wp, ata_ins. rewrite Hc. by apply HQ.
  - intros [z c r D DO E] d s Hc. cbn in Hc. subst c. done.
  - intros [z c r D DO E] d s v Hc. cbn in Hc. subst c. done.
  - intros h d s _. apply disk_ok.
Qed.

(** ** An execution *)

Definition blank : list Z := replicate (Z.to_nat SECTOR_SIZE) 0.
Definition text : list Z := replicate (Z.to_nat SECTOR_SIZE) 7.

Lemma length_blank : forall d s : Z, length ((fun _ _ => blank) d s) = Z.to_nat SECTOR_SIZE.
Proof. intros d s. apply length_replicate. Qed.

Definition power_on : ata := mkata FSSIZE CNone (mkregs 0 0 0 0 0) (fun _ _ => blank) length_blank I.

(** Process 1 writes block 5 through buffer 0, process 2 reads it through buffer 1. *)
Definition write_buf : buf := mkbuf B_DIRTY 1 5 (mksleeplock true false 1) 1 0 0 text.
Definition read_buf : buf := mkbuf 0 1 5 (mksleeplock true false 2) 1 0 0 blank.

Definition boot : ide ata :=
  final (ideinit 3) (mkide true None false {[ 0%nat := write_buf; 1%nat := read_buf ]} {[ 0%nat := None; 1%nat := None ]} ∅ power_on).
Definition written : ide ata := final (Ide.iderw 3 1 0) boot.
Definition queued : ide ata := final (Ide.iderw 3 2 1) written.
Definition intr1 : ide ata := final (interrupt 3) queued.

Lemma boot_inv : ide_inv boot [].
Proof.
  split; try by (vm_compute; constructor).
  - intros b Hb. by apply elem_of_nil in Hb.
  - intros pid b w Hw. assert (E : waiters boot = ∅) by by vm_compute. by rewrite E, lookup_empty in Hw.
  - intros b Hb. by apply elem_of_nil in Hb.
Qed.

Lemma reach_intr1 : reach 3 boot [(0%nat, write_buf); (1%nat, read_buf)] 1 intr1.
Proof.
  apply (reach_interrupt 3 boot _ 0 queued); [|by vm_compute|by vm_compute].
  apply (reach_request 3 boot [(0%nat, write_buf)] 0 written 2 1%nat read_buf IAsleep queued); [|by vm_compute..| |by vm_compute|by vm_compute].
  - apply (reach_request 3 boot [] 0 boot 1 0%nat write_buf IAsleep written); [constructor|by vm_compute..| |by vm_compute|by vm_compute].
    split; [by vm_compute|by vm_compute|split; [by right|by vm_compute]|right; by vm_compute|by vm_compute].
  - split; [by vm_compute|by vm_compute|split; [by right|by vm_compute]|right; by vm_compute|by vm_compute].
Qed.

Definition requests : list (nat * buf) := [(0%nat, write_buf); (1%nat, read_buf)].

(** The write is served: process 1 may return, and process 2 waits. *)
Lemma ide_fifo_witness :
  sector_of (hw intr1) = after (sector_of (hw boot)) (take 1 requests) /\ sector_of (hw intr1) 1 5 = text /\
  (exists i x, requests !! i = Some (1%nat, x) /\
    bufs intr1 !! 1%nat = Some (if decide (i < 1)%nat then served (after (sector_of (hw boot)) (take i requests)) x else x)).
Proof.
  pose proof (ide_fifo 3 (Nat.lt_0_succ 2) boot requests 1 intr1 boot_inv eq_refl reach_intr1) as (_ & Hd & Hw).
  split; [exact Hd|]. split; [by vm_compute|]. apply (Hw 2 1%nat false). by vm_compute.
Defined.


End Ata.
