(* ===== verification/Links.v ===== *)
(** Circular doubly linked lists through index links: the list that bio.c
    keeps its buffers in.  [seg nx pv x l y]: following [nx] from [x] visits
    exactly [l] and then [y], and [pv] goes back the same way. *)

From stdpp Require Import functions.
From S2P Require Import Prelude.

Section links.
Implicit Types (nx pv : nat -> nat) (l : list nat).
Local Open Scope nat_scope.

Fixpoint seg nx pv (x : nat) l (y : nat) : Prop :=
  match l with
  | [] => nx x = y /\ pv y = x
  | z :: l => nx x = z /\ pv z = x /\ seg nx pv z l y
  end.

Lemma seg_app nx pv x l1 z l2 y :
  seg nx pv x (l1 ++ z :: l2) y <-> seg nx pv x l1 z /\ seg nx pv z l2 y.
Proof. revert x. induction l1 as [|w l1 IH]; intros x; simpl; [|rewrite IH]; tauto. Qed.

Lemma seg_frame nx pv nx' pv' x l y :
  (forall i, i ∈ x :: l -> nx' i = nx i) ->
  (forall i, i ∈ l ++ [y] -> pv' i = pv i) ->
  seg nx pv x l y -> seg nx' pv' x l y.
Proof.
  revert x. induction l as [|z l IH]; intros x Hn Hp; simpl.
  - intros [E1 E2]. rewrite Hn, Hp by set_solver. done.
  - intros (E1 & E2 & Hs). rewrite Hn, Hp by set_solver.
    split; [done|]. split; [done|]. apply IH; [set_solver..|done].
Qed.

(** The links that enter and leave an element. *)
Lemma seg_hd nx pv x l y : seg nx pv x l y -> nx x = default y (head l).
Proof. destruct l; simpl; tauto. Qed.

Lemma seg_last nx pv x l y : seg nx pv x l y -> pv y = default x (last l).
Proof.
  revert x. induction l as [|z l IH]; intros x; simpl; [by intros [_ ->]|].
  intros (_ & _ & Hs). rewrite (IH _ Hs).
  rewrite last_cons. by destruct (last l).
Qed.

(** b->next->prev = b->prev; b->prev->next = b->next; *)
Lemma seg_unlink nx pv h l1 b l2 :
  NoDup (h :: l1 ++ b :: l2) ->
  seg nx pv h (l1 ++ b :: l2) h ->
  seg (<[pv b := nx b]> nx) (<[nx b := pv b]> pv) h (l1 ++ l2) h.
Proof.
  intros Hnd Hs. apply seg_app in Hs as [Hs1 Hs2].
  pose proof (seg_hd _ _ _ _ _ Hs2) as Hn. pose proof (seg_last _ _ _ _ _ Hs1) as Hp.
  generalize dependent (nx b). generalize dependent (pv b). intros p Hp n Hn.
  assert (Hl1 : seg (<[p := n]> nx) (<[n := p]> pv) h l1 n).
  { destruct l1 as [|q l1 _] using rev_ind.
    - simpl in *. subst p. split; by rewrite fn_lookup_insert.
    - rewrite last_snoc in Hp. simpl in Hp. rewrite <- Hp in *. clear Hp q.
      apply seg_app in Hs1 as [Ha Hb]. apply seg_app. split.
      + eapply seg_frame; [| |exact Ha]; intros i Hi; rewrite fn_lookup_insert_ne; try done.
        * intros <-. rewrite <- !app_assoc in Hnd. simpl in Hnd.
          clear Hn. set_unfold. apply NoDup_cons in Hnd as [Hh Hnd].
          apply NoDup_app in Hnd as (_ & Hd & _). set_solver.
        * intros <-. assert (n ∈ l2 ++ [h]) as Hin.
          { rewrite Hn. destruct l2; set_solver. }
          rewrite <- !app_assoc in Hnd. simpl in Hnd.
          apply NoDup_cons in Hnd as [Hh Hnd].
          apply NoDup_app in Hnd as (_ & Hd & Hnd). apply NoDup_cons in Hnd as [? Hnd].
          clear Hn Hs2 Hb Ha. set_solver.
      + simpl. split; by rewrite fn_lookup_insert. }
  destruct l2 as [|m l2].
  - rewrite app_nil_r. simpl in Hn. by rewrite Hn in *.
  - simpl in Hn. rewrite Hn in *. apply seg_app. split; [done|].
    simpl in Hs2. destruct Hs2 as (_ & _ & Hs2).
    eapply seg_frame; [| |exact Hs2]; intros i Hi; rewrite fn_lookup_insert_ne; try done.
    + intros <-. assert (p ∈ h :: l1) as Hin.
      { rewrite Hp. destruct l1 using rev_ind; [set_solver|]. rewrite last_snoc. set_solver. }
      apply NoDup_cons in Hnd as [Hh Hnd]. apply NoDup_app in Hnd as (_ & Hd & _).
      clear Hp Hs2 Hl1 Hs1. set_solver.
    + intros <-. apply NoDup_cons in Hnd as [Hh Hnd].
      apply NoDup_app in Hnd as (_ & _ & Hnd). apply NoDup_cons in Hnd as [_ Hnd].
      apply NoDup_cons in Hnd as [? _]. clear Hp Hs2 Hl1 Hs1. set_solver.
Qed.

(** b->next = head.next; b->prev = &head; head.next->prev = b; head.next = b; *)
Lemma seg_push nx pv h l b :
  NoDup (h :: b :: l) ->
  seg nx pv h l h ->
  seg (<[h := b]> (<[b := nx h]> nx)) (<[nx h := b]> (<[b := h]> pv)) h (b :: l) h.
Proof.
  intros Hnd Hs. apply NoDup_cons in Hnd as [Hh Hnd]. apply NoDup_cons in Hnd as [Hb Hnd].
  pose proof (seg_hd _ _ _ _ _ Hs) as Hn.
  assert (nx h ≠ b) as Hne. { rewrite Hn. destruct l; set_solver. }
  simpl. rewrite fn_lookup_insert.
  rewrite fn_lookup_insert_ne, fn_lookup_insert by done.
  split; [done|]. split; [done|].
  destruct l as [|z l]; simpl in *.
  - rewrite Hn in *. rewrite fn_lookup_insert_ne by set_solver.
    by rewrite !fn_lookup_insert.
  - rewrite Hn in *. destruct Hs as (_ & _ & Hs).
    rewrite (fn_lookup_insert_ne _ h) by set_solver. rewrite !fn_lookup_insert.
    split; [done|]. split; [done|].
    apply NoDup_cons in Hnd as [Hz _].
    eapply seg_frame; [| |exact Hs]; intros i Hi; rewrite !fn_lookup_insert_ne; try done;
      set_solver.
Qed.

End links.
