(* ===== verification/Bio.v ===== *)
(** bio.c: the buffer cache.

    The list of the buffers is threaded through their next and prev fields
    (Links.v has the lemmas).  The contract that log.c and fs.c rely on is in
    BioSpec.v. *)

From stdpp Require Import functions sorting.
From S2P Require Import Prelude Params Bytes Buf.

(** bcache.head is the element after bcache.buf[NBUF-1]. *)
Definition HEAD : nat := NBUF.

Record bcache := mkbcache {
  bc_lock : bool;
  bufs : list buf;      (* buf[NBUF], then head *)
}.

Record bio (D : Type) := mkbio {
  bc : bcache;
  ide : D;
  curpid : Z;                          (* myproc()->pid *)
  writes : list (Z * list Z);          (* the disk writes issued so far *)
}.
Arguments mkbio {D} _ _ _ _.
Arguments bc {D} _.
Arguments ide {D} _.
Arguments curpid {D} _.
Arguments writes {D} _.

Definition set_bc_lock v (c : bcache) : bcache := mkbcache v (bufs c).
Definition set_bufs v (c : bcache) : bcache := mkbcache (bc_lock c) v.
Definition set_bc {D} v (s : bio D) : bio D := mkbio v (ide s) (curpid s) (writes s).
Definition set_ide {D} v (s : bio D) : bio D := mkbio (bc s) v (curpid s) (writes s).
Definition set_writes {D} v (s : bio D) : bio D := mkbio (bc s) (ide s) (curpid s) v.

Section bio.
Context {D : Type} `{BlockDev D}.

Definition get_buf (i : nat) : M (bio D) buf :=
  fun s => from_some (bufs (bc s) !! i) s.
Definition upd_buf (i : nat) (f : buf -> buf) : M (bio D) unit :=
  let* b := get_buf i in
  modify (fun s => set_bc (set_bufs (<[i := f b]> (bufs (bc s))) (bc s)) s).
Definition bc_held (s : bio D) : bool := bc_lock (bc s).
Definition put_bc_held (v : bool) (s : bio D) : bio D := set_bc (set_bc_lock v (bc s)) s.

(** An operation on the sleep lock of buffer [i]. *)
Definition on_lock {A} (i : nat) (m : M sleeplock A) : M (bio D) A :=
  let* b := get_buf i in
  let* '(a, l) := on_value m (lock b) in
  upd_buf i (set_lock l) ;;;
  ret a.

(** b->next = bcache.head.next; b->prev = &bcache.head; [mid];
    bcache.head.next->prev = b; bcache.head.next = b; *)
Definition push_front (b : nat) (mid : M (bio D) unit) : M (bio D) unit :=
  let* h := get_buf HEAD in
  upd_buf b (set_next (next h)) ;;;
  upd_buf b (set_prev HEAD) ;;;
  mid ;;;
  let* h := get_buf HEAD in
  upd_buf (next h) (set_prev b) ;;;
  upd_buf HEAD (set_next b).

Definition binit : M (bio D) unit :=
  modify (put_bc_held false) ;;;
  upd_buf HEAD (set_prev HEAD) ;;;
  upd_buf HEAD (set_next HEAD) ;;;
  for_each (seq 0 NBUF) (fun b => push_front b (upd_buf b (set_lock initsleeplock))).

(** for(b = bcache.head.next; b != &bcache.head; b = b->next) *)
Fixpoint scan_next (fuel : nat) (test : buf -> bool) (b : nat) : M (bio D) (option nat) :=
  match fuel with
  | O => nofuel
  | S fuel =>
      if decide (b = HEAD) then ret None
      else
        let* x := get_buf b in
        if test x then ret (Some b) else scan_next fuel test (next x)
  end.

(** for(b = bcache.head.prev; b != &bcache.head; b = b->prev) *)
Fixpoint scan_prev (fuel : nat) (test : buf -> bool) (b : nat) : M (bio D) (option nat) :=
  match fuel with
  | O => nofuel
  | S fuel =>
      if decide (b = HEAD) then ret None
      else
        let* x := get_buf b in
        if test x then ret (Some b) else scan_prev fuel test (prev x)
  end.

Definition bget (dv n : Z) : M (bio D) nat :=
  acquire bc_held put_bc_held ;;;
  (* Is the block already cached? *)
  let* h := get_buf HEAD in
  let* r := scan_next (S NBUF) (fun b => (dev b =? dv) && (blockno b =? n)) (next h) in
  match r with
  | Some b =>
      upd_buf b (fun x => set_refcnt (u32 (refcnt x + 1)) x) ;;;
      release bc_held put_bc_held ;;;
      let* pid := gets curpid in
      on_lock b (acquiresleep (Chan "buf" (Z.of_nat b)) pid) ;;;
      ret b
  | None =>
      (* Not cached; recycle an unused buffer. *)
      let* h := get_buf HEAD in
      let* r := scan_prev (S NBUF)
        (fun b => (refcnt b =? 0) && (Z.land (flags b) B_DIRTY =? 0)) (prev h) in
      match r with
      | Some b =>
          upd_buf b (fun x => set_refcnt 1 (set_flags 0 (set_id dv n x))) ;;;
          release bc_held put_bc_held ;;;
          let* pid := gets curpid in
          on_lock b (acquiresleep (Chan "buf" (Z.of_nat b)) pid) ;;;
          ret b
      | None => panic "bget: no buffers"
      end
  end.

(** iderw(b) on a buffer of the cache. *)
Definition iderw_at (i : nat) : M (bio D) unit :=
  let* b := get_buf i in
  let* pid := gets curpid in
  let* b := zoom ide set_ide (iderw pid b) in
  upd_buf i (fun _ => b).

Definition bread (dv n : Z) : M (bio D) nat :=
  let* b := bget dv n in
  let* x := get_buf b in
  (if Z.land (flags x) B_VALID =? 0 then iderw_at b else ret tt) ;;;
  ret b.

Definition bwrite (b : nat) : M (bio D) unit :=
  let* pid := gets curpid in
  let* h := on_lock b (holdingsleep pid) in
  panic_if (negb h) "bwrite" ;;;
  upd_buf b (fun x => set_flags (Z.lor (flags x) B_DIRTY) x) ;;;
  let* x := get_buf b in
  modify (fun s => set_writes (writes s ++ [(blockno x, data x)]) s) ;;;
  iderw_at b.

(** The list surgery of brelse(): unlink [b] and insert it after the head. *)
Definition to_front (b : nat) : M (bio D) unit :=
  let* x := get_buf b in
  upd_buf (next x) (set_prev (prev x)) ;;;
  let* x := get_buf b in
  upd_buf (prev x) (set_next (next x)) ;;;
  push_front b (ret tt).

Definition brelse (b : nat) : M (bio D) unit :=
  let* pid := gets curpid in
  let* h := on_lock b (holdingsleep pid) in
  panic_if (negb h) "brelse" ;;;
  on_lock b releasesleep ;;;
  acquire bc_held put_bc_held ;;;
  upd_buf b (fun x => set_refcnt (u32 (refcnt x - 1)) x) ;;;
  let* x := get_buf b in
  (if refcnt x =? 0 then to_front b (* no one is waiting for it. *) else ret tt) ;;;
  release bc_held put_bc_held.

(** b->data, as the holder of [b] reads it and writes it. *)
Definition buf_data (b : nat) : M (bio D) (list Z) :=
  let* x := get_buf b in ret (data x).
Definition buf_store (b : nat) (d : list Z) : M (bio D) unit :=
  upd_buf b (set_data d).
(** b->flags |= B_DIRTY, as log_write() does to keep the buffer in the cache. *)
Definition buf_pin (b : nat) : M (bio D) unit :=
  upd_buf b (fun x => set_flags (Z.lor (flags x) B_DIRTY) x).

End bio.
