(* ===== verification/BioSpec.v ===== *)
(** The contract of the buffer cache (bio.c) and its proof.

    [bio_rep s lru D C dirty held] relates a state of the cache to what its
    clients reason about: [lru] the buffers in most-recently-used order, [D]
    the content of the disk, [C] the logical content of every block (what a
    reader sees), [dirty] the blocks pinned by B_DIRTY and [held] the blocks
    whose buffer the running process holds. *)

From stdpp Require Import functions.
From S2P Require Import Prelude Params Bytes Buf Links Bio.

Definition nxt (bs : list buf) (i : nat) : nat := default HEAD (next <$> bs !! i).
Definition prv (bs : list buf) (i : nat) : nat := default HEAD (prev <$> bs !! i).

Record ring (bs : list buf) (l : list nat) : Prop := {
  ring_len : length bs = S NBUF;
  ring_perm : l ≡ₚ seq 0 NBUF;
  ring_seg : seg (nxt bs) (prv bs) HEAD l HEAD;
}.

Definition held_lock (pid : Z) : sleeplock := mksleeplock true false pid.

(** A buffer of the cache: one that caches a block of the root device, or one
    that was never used. *)
Definition buf_rep (pid : Z) (rng : Z -> Prop) (C : Z -> list Z) (dirty held : gset Z)
    (b : buf) : Prop :=
  (dev b = ROOTDEV /\
   is_dirty b = bool_decide (blockno b ∈ dirty) /\
   (if decide (blockno b ∈ held)
    then refcnt b = 1 /\ lock b = held_lock pid /\ is_valid b = true
    else refcnt b = 0 /\ sl_free (lock b)) /\
   (is_dirty b = true -> is_valid b = true) /\
   (is_valid b = true -> data b = C (blockno b)) /\
   rng (blockno b)) \/
  (dev b = 0 /\ flags b = 0 /\ refcnt b = 0 /\ sl_free (lock b)).

Definition cached (bs : list buf) (i : nat) (n : Z) : Prop :=
  (i < NBUF)%nat /\ exists b, bs !! i = Some b /\ dev b = ROOTDEV /\ blockno b = n.

Record bio_rep {D0 : Type} `{BlockDev D0} (s : bio D0) (lru : list nat)
    (D C : Z -> list Z) (dirty held : gset Z) : Prop := {
  rep_ring : ring (bufs (bc s)) lru;
  rep_lock : bc_lock (bc s) = false;
  rep_bufs : forall i b, (i < NBUF)%nat -> bufs (bc s) !! i = Some b ->
    buf_rep (curpid s) (devrange (ide s) ROOTDEV) C dirty held b;
  rep_uniq : forall i j n, cached (bufs (bc s)) i n -> cached (bufs (bc s)) j n -> i = j;
  rep_pinned : forall n, n ∈ dirty ∪ held -> exists i, cached (bufs (bc s)) i n;
  rep_devok : devok (ide s);
  rep_disk : forall n, devrange (ide s) ROOTDEV n -> devblock (ide s) ROOTDEV n = D n;
  rep_clean : forall n, devrange (ide s) ROOTDEV n -> n ∉ dirty -> n ∉ held -> C n = D n;
  rep_size : forall n, devrange (ide s) ROOTDEV n -> length (C n) = Z.to_nat BSIZE;
}.

(** ** Lists of buffers *)

Lemma seg_ext nx pv nx' pv' x l y :
  (forall i, nx' i = nx i) -> (forall i, pv' i = pv i) ->
  seg nx pv x l y -> seg nx' pv' x l y.
Proof. intros Hn Hp. apply seg_frame; auto. Qed.

Lemma nxt_insert bs i b j :
  (i < length bs)%nat -> nxt (<[i := b]> bs) j = (<[i := next b]> (nxt bs)) j.
Proof.
  intros Hi. unfold nxt. destruct (decide (i = j)) as [->|].
  - by rewrite list_lookup_insert_eq, fn_lookup_insert.
  - by rewrite list_lookup_insert_ne, fn_lookup_insert_ne.
Qed.

Lemma prv_insert bs i b j :
  (i < length bs)%nat -> prv (<[i := b]> bs) j = (<[i := prev b]> (prv bs)) j.
Proof.
  intros Hi. unfold prv. destruct (decide (i = j)) as [->|].
  - by rewrite list_lookup_insert_eq, fn_lookup_insert.
  - by rewrite list_lookup_insert_ne, fn_lookup_insert_ne.
Qed.

Lemma nxt_insert_same bs i b b' j :
  bs !! i = Some b -> next b' = next b -> nxt (<[i := b']> bs) j = nxt bs j.
Proof.
  intros Hi Hn. rewrite nxt_insert by (by eapply lookup_lt_Some). rewrite Hn.
  destruct (decide (i = j)) as [->|].
  - rewrite fn_lookup_insert. unfold nxt. by rewrite Hi.
  - by rewrite fn_lookup_insert_ne.
Qed.

Lemma prv_insert_same bs i b b' j :
  bs !! i = Some b -> prev b' = prev b -> prv (<[i := b']> bs) j = prv bs j.
Proof.
  intros Hi Hn. rewrite prv_insert by (by eapply lookup_lt_Some). rewrite Hn.
  destruct (decide (i = j)) as [->|].
  - rewrite fn_lookup_insert. unfold prv. by rewrite Hi.
  - by rewrite fn_lookup_insert_ne.
Qed.

(** Changing anything but the links of a buffer keeps the list. *)
Lemma ring_insert bs l i b b' :
  ring bs l -> bs !! i = Some b -> next b' = next b -> prev b' = prev b ->
  ring (<[i := b']> bs) l.
Proof.
  intros [Hlen Hperm Hseg] Hi Hn Hp. split; [by rewrite length_insert|done|].
  eapply seg_ext; [| |exact Hseg]; intros j.
  - by eapply nxt_insert_same.
  - by eapply prv_insert_same.
Qed.

Lemma ring_elem bs l i : ring bs l -> i ∈ l <-> (i < NBUF)%nat.
Proof. intros [_ Hp _]. rewrite Hp, elem_of_seq. lia. Qed.

Lemma ring_lookup bs l i : ring bs l -> (i <= NBUF)%nat -> exists b, bs !! i = Some b.
Proof. intros [Hl _ _] Hi. apply lookup_lt_is_Some. lia. Qed.

Lemma ring_nodup bs l : ring bs l -> NoDup (HEAD :: l).
Proof.
  intros Hr. apply NoDup_cons. split.
  - rewrite ring_elem by done. unfold HEAD. lia.
  - rewrite (ring_perm _ _ Hr). apply NoDup_seq.
Qed.

(** ** Rules for the primitives *)

Section rules.
Context {D0 : Type} `{BlockDev D0}.
Implicit Types (s : bio D0).

Definition ins (i : nat) (b : buf) s : bio D0 :=
  set_bc (set_bufs (<[i := b]> (bufs (bc s))) (bc s)) s.

Lemma wp_get_buf i b Q s :
  bufs (bc s) !! i = Some b -> Q b s -> wp (get_buf i) Q s.
Proof. intros Hi HQ. unfold wp, get_buf. by rewrite Hi. Qed.

Lemma wp_upd_buf i f b Q s :
  bufs (bc s) !! i = Some b -> Q tt (ins i (f b) s) -> wp (upd_buf i f) Q s.
Proof. intros Hi HQ. unfold upd_buf. apply wp_bind. by eapply wp_get_buf. Qed.

Lemma wp_on_lock {A} i (m : M sleeplock A) b Q s :
  bufs (bc s) !! i = Some b ->
  wp m (fun a l => Q a (ins i (set_lock l b) s)) (lock b) ->
  wp (on_lock i m) Q s.
Proof.
  intros Hi Hm. unfold on_lock. apply wp_bind. eapply wp_get_buf; [done|].
  apply wp_bind, wp_on_value. eapply wp_mono; [exact Hm|]. intros a l HQ. simpl.
  apply wp_bind. by eapply wp_upd_buf.
Qed.

(** The forward scan visits the list in order and stops at the first match. *)
Lemma wp_scan_next test Q s bs l : forall fuel x,
  bufs (bc s) = bs -> (length l < fuel)%nat ->
  (forall i, i ∈ l -> (i < NBUF)%nat) ->
  length bs = S NBUF ->
  seg (nxt bs) (prv bs) x l HEAD ->
  (forall l1 i l2 b, l = l1 ++ i :: l2 -> bs !! i = Some b -> test b = true ->
     (forall j c, j ∈ l1 -> bs !! j = Some c -> test c = false) -> Q (Some i) s) ->
  ((forall j c, j ∈ l -> bs !! j = Some c -> test c = false) -> Q None s) ->
  wp (scan_next fuel test (nxt bs x)) Q s.
Proof.
  induction l as [|z l IH]; intros [|fuel] x Hbs Hf Hlt Hlen Hs HSome HNone;
    simpl in Hf; try lia; simpl in Hs.
  - destruct Hs as [-> _]. cbn [scan_next]. rewrite decide_True by done. apply HNone. set_solver.
  - destruct Hs as (-> & _ & Hs). cbn [scan_next].
    assert (z < NBUF)%nat by set_solver. rewrite decide_False by (unfold HEAD; lia).
    destruct (lookup_lt_is_Some_2 bs z) as [b Hb]; [lia|].
    apply wp_bind. eapply wp_get_buf; [by rewrite Hbs|].
    destruct (test b) eqn:Ht.
    + apply (HSome [] z l b); set_solver.
    + replace (next b) with (nxt bs z) by (unfold nxt; by rewrite Hb).
      apply IH; [done|lia|set_solver|done|done| |].
      * intros l1 i l2 b' -> Hb' Ht' Hl1. apply (HSome (z :: l1) i l2 b'); [done..|].
        intros j c [->|Hj]%elem_of_cons Hc; [congruence|eauto].
      * intros Hl. apply HNone. intros j c [->|Hj]%elem_of_cons Hc; [congruence|eauto].
Qed.

(** The backward scan visits it from the end. *)
Lemma wp_scan_prev test Q s bs l : forall fuel y,
  bufs (bc s) = bs -> (length l < fuel)%nat ->
  (forall i, i ∈ l -> (i < NBUF)%nat) ->
  length bs = S NBUF ->
  seg (nxt bs) (prv bs) HEAD l y ->
  (forall l1 i l2 b, l = l1 ++ i :: l2 -> bs !! i = Some b -> test b = true ->
     (forall j c, j ∈ l2 -> bs !! j = Some c -> test c = false) -> Q (Some i) s) ->
  ((forall j c, j ∈ l -> bs !! j = Some c -> test c = false) -> Q None s) ->
  wp (scan_prev fuel test (prv bs y)) Q s.
Proof.
  induction l as [|z l IH] using rev_ind; intros [|fuel] y Hbs Hf Hlt Hlen Hs HSome HNone;
    rewrite ?length_app in Hf; simpl in Hf; try lia.
  - simpl in Hs. destruct Hs as [_ ->]. cbn [scan_prev]. rewrite decide_True by done.
    apply HNone. set_solver.
  - apply seg_app in Hs as [Hs [_ ->]]. cbn [scan_prev].
    assert (z < NBUF)%nat by set_solver. rewrite decide_False by (unfold HEAD; lia).
    destruct (lookup_lt_is_Some_2 bs z) as [b Hb]; [lia|].
    apply wp_bind. eapply wp_get_buf; [by rewrite Hbs|].
    destruct (test b) eqn:Ht.
    + apply (HSome l z [] b); set_solver.
    + replace (prev b) with (prv bs z) by (unfold prv; by rewrite Hb).
      apply IH; [done|lia|set_solver|done|done| |].
      * intros l1 i l2 b' -> Hb' Ht' Hl2. apply (HSome l1 i (l2 ++ [z]) b'); [|done..|].
        { by rewrite <- app_assoc. }
        intros j c [Hj| ->%list_elem_of_singleton]%elem_of_app Hc; [eauto|congruence].
      * intros Hl. apply HNone.
        intros j c [Hj| ->%list_elem_of_singleton]%elem_of_app Hc; [eauto|congruence].
Qed.

(** ** Relinking

    [relinked bs bs']: the buffers of [bs'] are those of [bs] up to their
    links. *)

Definition core (b : buf) : buf := set_prev HEAD (set_next HEAD b).
Definition relinked (bs bs' : list buf) : Prop :=
  forall j, core <$> bs' !! j = core <$> bs !! j.

Lemma relinked_length bs bs' : relinked bs bs' -> length bs' = length bs.
Proof.
  intros Hr. destruct (Nat.lt_trichotomy (length bs') (length bs)) as [Hlt|[?|Hlt]]; [|done|].
  - specialize (Hr (length bs')). rewrite (lookup_ge_None_2 bs') in Hr by lia.
    destruct (lookup_lt_is_Some_2 bs (length bs')) as [? E]; [lia|]. by rewrite E in Hr.
  - specialize (Hr (length bs)). rewrite (lookup_ge_None_2 bs) in Hr by lia.
    destruct (lookup_lt_is_Some_2 bs' (length bs)) as [? E]; [lia|]. by rewrite E in Hr.
Qed.

Lemma relinked_insert bs i b b' :
  bs !! i = Some b -> core b' = core b -> relinked bs (<[i := b']> bs).
Proof.
  intros Hb Hc j. destruct (decide (i = j)) as [->|]; [|by rewrite list_lookup_insert_ne].
  rewrite list_lookup_insert_eq by (by eapply lookup_lt_Some). rewrite Hb. simpl. by rewrite Hc.
Qed.

Lemma relinked_trans bs1 bs2 bs3 : relinked bs1 bs2 -> relinked bs2 bs3 -> relinked bs1 bs3.
Proof. intros H1 H2 j. by rewrite H2. Qed.

Definition with_bufs (bs : list buf) s : bio D0 := set_bc (set_bufs bs (bc s)) s.

Lemma wp_set_next i v Q s :
  (i < length (bufs (bc s)))%nat ->
  (forall bs', relinked (bufs (bc s)) bs' ->
     (forall k, nxt bs' k = (<[i := v]> (nxt (bufs (bc s)))) k) ->
     (forall k, prv bs' k = prv (bufs (bc s)) k) -> Q tt (with_bufs bs' s)) ->
  wp (upd_buf i (set_next v)) Q s.
Proof.
  intros Hi HQ. destruct (lookup_lt_is_Some_2 _ _ Hi) as [b Hb].
  eapply wp_upd_buf; [done|]. apply HQ.
  - by eapply relinked_insert.
  - intros k. by rewrite nxt_insert.
  - intros k. by eapply prv_insert_same.
Qed.

Lemma wp_set_prev i v Q s :
  (i < length (bufs (bc s)))%nat ->
  (forall bs', relinked (bufs (bc s)) bs' ->
     (forall k, nxt bs' k = nxt (bufs (bc s)) k) ->
     (forall k, prv bs' k = (<[i := v]> (prv (bufs (bc s)))) k) -> Q tt (with_bufs bs' s)) ->
  wp (upd_buf i (set_prev v)) Q s.
Proof.
  intros Hi HQ. destruct (lookup_lt_is_Some_2 _ _ Hi) as [b Hb].
  eapply wp_upd_buf; [done|]. apply HQ.
  - by eapply relinked_insert.
  - intros k. by eapply nxt_insert_same.
  - intros k. by rewrite prv_insert.
Qed.

(** The links of a buffer, as get_buf() reads them. *)
Lemma wp_get_links i Q s :
  (i < length (bufs (bc s)))%nat ->
  (forall b, next b = nxt (bufs (bc s)) i -> prev b = prv (bufs (bc s)) i -> Q b s) ->
  wp (get_buf i) Q s.
Proof.
  intros Hi HQ. destruct (lookup_lt_is_Some_2 _ _ Hi) as [b Hb].
  eapply wp_get_buf; [done|]. apply HQ; unfold nxt, prv; by rewrite Hb.
Qed.

Lemma seg_neighbours nx pv l1 b l2 h :
  seg nx pv h (l1 ++ b :: l2) h -> nx b ∈ h :: l1 ++ l2 /\ pv b ∈ h :: l1 ++ l2.
Proof.
  intros [Hs1 Hs2]%seg_app. rewrite (seg_hd _ _ _ _ _ Hs2), (seg_last _ _ _ _ _ Hs1).
  split; [destruct l2; set_solver|].
  destruct l1 as [|q l1 _] using rev_ind; [set_solver|]. rewrite last_snoc. set_solver.
Qed.

Lemma fn_insert_ext {A} (f g : nat -> A) i v k :
  (forall j, f j = g j) -> (<[i := v]> f) k = (<[i := v]> g) k.
Proof.
  intros E. destruct (decide (i = k)) as [->|]; [by rewrite !fn_lookup_insert|].
  by rewrite !fn_lookup_insert_ne.
Qed.

Lemma wp_push_front i l mid Q s :
  (forall (s1 : bio D0) (Q1 : unit -> bio D0 -> Prop), (i < length (bufs (bc s1)))%nat ->
     relinked (bufs (bc s)) (bufs (bc s1)) ->
     (forall bs', relinked (bufs (bc s1)) bs' -> (forall k, nxt bs' k = nxt (bufs (bc s1)) k) ->
        (forall k, prv bs' k = prv (bufs (bc s1)) k) -> Q1 tt (with_bufs bs' s1)) -> wp mid Q1 s1) ->
  seg (nxt (bufs (bc s))) (prv (bufs (bc s))) HEAD l HEAD ->
  NoDup (HEAD :: i :: l) -> (forall j, j ∈ HEAD :: i :: l -> (j < length (bufs (bc s)))%nat) ->
  (forall bs', relinked (bufs (bc s)) bs' ->
     seg (nxt bs') (prv bs') HEAD (i :: l) HEAD -> Q tt (with_bufs bs' s)) ->
  wp (push_front i mid) Q s.
Proof.
  intros Hmid Hseg Hnd Hlt HQ. destruct s as [[lk bs] d pid wr]. cbn [bc bufs] in *.
  pose proof (seg_push _ _ _ _ _ Hnd Hseg) as Hp.
  assert (HiH : HEAD <> i) by (apply NoDup_cons in Hnd as [? _]; set_solver).
  assert (Hli : (i < length bs)%nat) by (apply Hlt; set_solver).
  assert (HlH : (HEAD < length bs)%nat) by (apply Hlt; set_solver).
  assert (Hn : nxt bs HEAD ∈ HEAD :: l).
  { rewrite (seg_hd _ _ _ _ _ Hseg). destruct l; set_solver. }
  unfold push_front. apply wp_bind, wp_get_links; [done|]. simpl. intros x -> _.
  apply wp_bind, wp_set_next; [done|]. simpl. intros bs1 R1 N1 P1.
  pose proof (relinked_length _ _ R1) as L1.
  apply wp_bind, wp_set_prev; [simpl; by rewrite L1|]. simpl. intros bs2 R2 N2 P2.
  pose proof (relinked_length _ _ R2) as L2.
  apply wp_bind, Hmid; [simpl; by rewrite L2, L1|simpl; by eapply relinked_trans|].
  simpl. intros bs2' R2' N2' P2'. pose proof (relinked_length _ _ R2') as L2'.
  apply wp_bind, wp_get_links; [simpl; by rewrite L2', L2, L1|]. simpl. intros y -> _.
  rewrite N2', N2, N1, fn_lookup_insert_ne by done.
  apply wp_bind, wp_set_prev; [simpl; rewrite L2', L2, L1; apply Hlt; set_solver|].
  simpl. intros bs3 R3 N3 P3. pose proof (relinked_length _ _ R3) as L3.
  apply wp_set_next; [simpl; by rewrite L3, L2', L2, L1|]. simpl. intros bs4 R4 N4 P4.
  apply HQ; [by do 4 (eapply relinked_trans; [eassumption|])|].
  eapply seg_ext; [| |exact Hp]; intros k.
  - rewrite N4. apply fn_insert_ext. intros j. by rewrite N3, N2', N2, N1.
  - rewrite P4, P3. apply fn_insert_ext. intros j. rewrite P2', P2.
    apply fn_insert_ext. done.
Qed.

Lemma wp_to_front i l1 l2 Q s :
  ring (bufs (bc s)) (l1 ++ i :: l2) ->
  (forall bs', relinked (bufs (bc s)) bs' -> ring bs' (i :: l1 ++ l2) ->
     Q tt (with_bufs bs' s)) ->
  wp (to_front i) Q s.
Proof.
  intros Hring HQ. destruct s as [[lk bs] d pid wr]. simpl in *.
  pose proof (ring_nodup _ _ Hring) as Hnd. pose proof Hring as [Hlen Hperm Hseg].
  assert (Hlt : forall j, j ∈ HEAD :: l1 ++ i :: l2 -> (j < S NBUF)%nat).
  { intros j [->|Hj]%elem_of_cons; [unfold HEAD; lia|]. apply (ring_elem _ _ j Hring) in Hj. lia. }
  destruct (seg_neighbours _ _ _ _ _ _ Hseg) as [Hnx Hpv].
  pose proof (seg_unlink _ _ _ _ _ _ Hnd Hseg) as Hu.
  assert (Hnd' : NoDup (HEAD :: i :: l1 ++ l2)) by (by rewrite Permutation_middle).
  assert (Hnxi : nxt bs i <> i).
  { intros E. rewrite E in Hnx. apply NoDup_cons in Hnd' as [H1 H2].
    apply NoDup_cons in H2 as [H2 _]. set_solver. }
  unfold to_front.
  apply wp_bind, wp_get_links; [simpl; rewrite Hlen; apply Hlt; set_solver|]. simpl. intros x -> ->.
  apply wp_bind, wp_set_prev; [simpl; rewrite Hlen; apply Hlt; set_solver|].
  simpl. intros bs1 R1 N1 P1. pose proof (relinked_length _ _ R1) as L1.
  apply wp_bind, wp_get_links; [simpl; rewrite L1, Hlen; apply Hlt; set_solver|].
  simpl. intros x2 -> ->. rewrite N1, P1, fn_lookup_insert_ne by done.
  apply wp_bind, wp_set_next; [simpl; rewrite L1, Hlen; apply Hlt; set_solver|].
  simpl. intros bs2 R2 N2 P2. pose proof (relinked_length _ _ R2) as L2.
  apply (wp_push_front i (l1 ++ l2)); simpl.
  - intros s1 Q1 _ _ HQ1. apply wp_ret. specialize (HQ1 (bufs (bc s1))).
    destruct s1 as [[??]???]. by apply HQ1.
  - eapply seg_ext; [| |exact Hu]; intros k.
    + rewrite N2. by apply fn_insert_ext.
    + by rewrite P2, P1.
  - done.
  - intros j Hj. rewrite L2, L1, Hlen. apply Hlt. set_solver.
  - intros bs3 R3 Hs3. pose proof (relinked_length _ _ R3) as L3. apply HQ.
    + by do 2 (eapply relinked_trans; [eassumption|]).
    + split; [by rewrite L3, L2, L1| |done]. by rewrite Permutation_middle.
Qed.

End rules.
#[global] Arguments scan_next : simpl never.
#[global] Arguments scan_prev : simpl never.

(** ** The contract of each operation *)

Section contract.
Context {D0 : Type} `{BlockDevLaws D0}.
Implicit Types (s : bio D0) (D C : Z -> list Z) (dirty held : gset Z).

(** [i] is the buffer that the running process holds for block [n]. *)
Definition handle s (i : nat) (n : Z) : Prop :=
  (i < NBUF)%nat /\ exists b, bufs (bc s) !! i = Some b /\ dev b = ROOTDEV /\
    blockno b = n /\ lock b = held_lock (curpid s).

Lemma cached_insert bs i b j n :
  (i < length bs)%nat -> cached (<[i := b]> bs) j n ->
  (j = i /\ dev b = ROOTDEV /\ blockno b = n) \/ (j <> i /\ cached bs j n).
Proof.
  intros Hi [Hj (c & Hc & Hd & Hn)]. destruct (decide (j = i)) as [->|].
  - rewrite list_lookup_insert_eq in Hc by done. simplify_eq. auto.
  - rewrite list_lookup_insert_ne in Hc by done. right. split; [done|]. split; eauto.
Qed.

Lemma cached_insert_ne bs i b j n : j <> i -> cached bs j n -> cached (<[i := b]> bs) j n.
Proof. intros ? [Hj Hc]. split; [done|]. by rewrite list_lookup_insert_ne. Qed.

Lemma cached_insert_eq bs i b n :
  (i < NBUF)%nat -> (i < length bs)%nat -> dev b = ROOTDEV -> blockno b = n ->
  cached (<[i := b]> bs) i n.
Proof. intros. split; [done|]. exists b. by rewrite list_lookup_insert_eq. Qed.

Lemma buf_rep_agree pid rng C dirty held C' dirty' held' b :
  (dev b = ROOTDEV -> C' (blockno b) = C (blockno b) /\
     (blockno b ∈ dirty' <-> blockno b ∈ dirty) /\ (blockno b ∈ held' <-> blockno b ∈ held)) ->
  buf_rep pid rng C dirty held b -> buf_rep pid rng C' dirty' held' b.
Proof.
  intros Ha [(Hd & H1 & H2 & H3 & H4 & H5)|Hz]; [left|by right].
  destruct (Ha Hd) as (-> & Ed & Eh). rewrite (bool_decide_ext _ _ Ed).
  split; [done|]. split; [done|]. split; [|done].
  destruct (decide (blockno b ∈ held)), (decide (blockno b ∈ held')); tauto.
Qed.

(** A single-buffer update: buffer [i] becomes [b'], which caches [n]. *)
Lemma rep_update s s' lru D C dirty held D' C' dirty' held' i b b' n :
  bio_rep s lru D C dirty held ->
  (i < NBUF)%nat -> bufs (bc s) !! i = Some b ->
  bufs (bc s') = <[i := b']> (bufs (bc s)) -> bc_lock (bc s') = false ->
  curpid s' = curpid s ->
  next b' = next b -> prev b' = prev b -> dev b' = ROOTDEV -> blockno b' = n ->
  (forall j, cached (bufs (bc s)) j n -> j = i) ->
  (dev b = ROOTDEV -> blockno b <> n -> blockno b ∉ dirty ∪ held) ->
  (forall m, m <> n -> C' m = C m /\ (m ∈ dirty' <-> m ∈ dirty) /\ (m ∈ held' <-> m ∈ held) /\
     D' m = D m) ->
  buf_rep (curpid s) (devrange (ide s) ROOTDEV) C' dirty' held' b' ->
  devok (ide s') -> devrange (ide s') = devrange (ide s) ->
  (forall m, devrange (ide s) ROOTDEV m -> devblock (ide s') ROOTDEV m = D' m) ->
  (n ∉ dirty' -> n ∉ held' -> C' n = D' n) -> length (C' n) = Z.to_nat BSIZE ->
  bio_rep s' lru D' C' dirty' held'.
Proof.
  intros Hrep Hi Hb Hbs Hlk Hpid Hnx Hpv Hdev Hblk Huniq Hev Hagree Hb' Hok Hrng Hdisk Hcl Hsz.
  pose proof (lookup_lt_Some _ _ _ Hb) as Hlt.
  split; rewrite ?Hbs, ?Hrng, ?Hpid; try done.
  - by eapply ring_insert; [apply Hrep|..].
  - intros j c Hj Hc. destruct (decide (j = i)) as [->|Hne].
    + rewrite list_lookup_insert_eq in Hc by done. by simplify_eq.
    + rewrite list_lookup_insert_ne in Hc by done.
      eapply buf_rep_agree; [|by eapply (rep_bufs _ _ _ _ _ _ Hrep)].
      intros Hcd. assert (blockno c <> n) as Hcn.
      { intros <-. apply Hne, Huniq. split; eauto. }
      destruct (Hagree _ Hcn) as (?&?&?&?). done.
  - intros j k m Hj Hk. apply cached_insert in Hj; [|done]. apply cached_insert in Hk; [|done].
    destruct Hj as [(->&?&?)|[Hj Hjc]], Hk as [(->&?&?)|[Hk Hkc]]; subst; try done.
    + symmetry. by apply Huniq.
    + by apply Huniq.
    + by eapply (rep_uniq _ _ _ _ _ _ Hrep).
  - intros m Hm. destruct (decide (m = n)) as [->|Hmn].
    { exists i. by apply cached_insert_eq. }
    destruct (Hagree _ Hmn) as (_ & Ed & Eh & _).
    destruct (rep_pinned _ _ _ _ _ _ Hrep m) as [j Hj]; [set_solver|].
    exists j. destruct (decide (j = i)) as [->|]; [|by apply cached_insert_ne].
    destruct Hj as [_ (c & Hc & Hcd & Hcn)]. simplify_eq. exfalso.
    eapply Hev; [done..|set_solver].
  - intros m Hm Hmd Hmh. destruct (decide (m = n)) as [->|Hmn]; [auto|].
    destruct (Hagree _ Hmn) as (-> & Ed & Eh & ->).
    eapply (rep_clean _ _ _ _ _ _ Hrep); [done|tauto..].
  - intros m Hm. destruct (decide (m = n)) as [->|Hmn]; [done|].
    destruct (Hagree _ Hmn) as (-> & _). by eapply (rep_size _ _ _ _ _ _ Hrep).
Qed.

(** Contents matter up to extensional equality. *)
Lemma rep_ext s lru D C dirty held D' C' :
  (forall n, D' n = D n) -> (forall n, C' n = C n) ->
  bio_rep s lru D C dirty held -> bio_rep s lru D' C' dirty held.
Proof.
  intros ED EC []. split; try done.
  - intros i b Hi Hb. eapply buf_rep_agree; [|by eauto]. intros _. by rewrite EC.
  - intros n Hn. rewrite ED. auto.
  - intros n Hn. rewrite ED, EC. auto.
  - intros n Hn. rewrite EC. auto.
Qed.

(** A buffer that is neither dirty nor held is always available, as long as
    there are fewer pinned blocks than buffers. *)
Lemma pinned_all s lru D C dirty held :
  bio_rep s lru D C dirty held ->
  (forall i b, (i < NBUF)%nat -> bufs (bc s) !! i = Some b ->
     dev b = ROOTDEV /\ blockno b ∈ dirty ∪ held) ->
  (NBUF <= size (dirty ∪ held))%nat.
Proof.
  intros Hrep Hall.
  set (l := (fun i => from_option blockno 0 (bufs (bc s) !! i)) <$> seq 0 NBUF).
  assert (Hl : length l = NBUF) by (unfold l; by rewrite length_fmap, length_seq).
  assert (Hget : forall i, (i < NBUF)%nat -> exists b, bufs (bc s) !! i = Some b).
  { intros i Hi. eapply ring_lookup; [apply Hrep|lia]. }
  assert (Hnd : NoDup l).
  { apply NoDup_fmap_2_strong; [|apply NoDup_seq].
    intros i j Hi%elem_of_seq Hj%elem_of_seq Heq.
    destruct (Hget i) as [b Hb]; [lia|]. destruct (Hget j) as [c Hc]; [lia|].
    rewrite Hb, Hc in Heq. simpl in Heq.
    eapply (rep_uniq _ _ _ _ _ _ Hrep i j (blockno b)).
    - split; [lia|]. exists b. split; [done|]. split; [|done]. apply (Hall i); [lia|done].
    - split; [lia|]. exists c. split; [done|]. split; [|done]. apply (Hall j); [lia|done]. }
  rewrite <- Hl, <- (size_list_to_set (C := gset Z) l) by done.
  apply subseteq_size. intros m Hm. apply elem_of_list_to_set in Hm.
  apply list_elem_of_fmap in Hm as (i & -> & Hi%elem_of_seq).
  destruct (Hget i) as [b Hb]; [lia|]. rewrite Hb. simpl. apply (Hall i); [lia|done].
Qed.

(** bget(): either the buffer that caches [n], or the least recently used
    buffer that is free and clean, retargeted to [n]. *)
Definition recycled s lru (dirty held : gset Z) (n : Z) (i : nat) (b : buf) : Prop :=
  (n ∉ dirty) /\ (forall j, ~ cached (bufs (bc s)) j n) /\
  (dev b = ROOTDEV -> blockno b ∉ dirty ∪ held) /\
  exists l1 l2, lru = l1 ++ i :: l2 /\
    forall j c, j ∈ l2 -> bufs (bc s) !! j = Some c -> refcnt c <> 0 \/ is_dirty c = true.

Lemma wp_bget s lru D C dirty held n Q :
  bio_rep s lru D C dirty held -> n ∉ held ->
  (size ({[n]} ∪ dirty ∪ held) <= NBUF)%nat ->
  (forall i b b', (i < NBUF)%nat -> bufs (bc s) !! i = Some b ->
     next b' = next b -> prev b' = prev b -> dev b' = ROOTDEV -> blockno b' = n ->
     refcnt b' = 1 -> lock b' = held_lock (curpid s) -> refcnt b = 0 ->
     (flags b' = flags b /\ data b' = data b /\ dev b = ROOTDEV /\ blockno b = n) \/
     (flags b' = 0 /\ recycled s lru dirty held n i b) ->
     Q i (ins i b' s)) ->
  wp (bget ROOTDEV n) Q s.
Proof.
  intros Hrep Hnh Hcap HQ. destruct s as [[lk bs] d pid wr].
  pose proof (rep_lock _ _ _ _ _ _ Hrep) as Hlk. simpl in Hlk; subst lk.
  pose proof (rep_ring _ _ _ _ _ _ Hrep) as Hring. simpl in Hring.
  destruct (ring_lookup _ _ HEAD Hring) as [h Hh]; [unfold HEAD; lia|].
  pose proof Hring as [Hlen Hperm Hseg].
  assert (Hll : length lru = NBUF) by (by rewrite Hperm, length_seq).
  assert (Hlt : forall i, i ∈ lru -> (i < NBUF)%nat) by (intros i; by apply (ring_elem bs)).
  unfold bget. apply wp_bind, wp_acquire; [done|].
  apply wp_bind. eapply wp_get_buf; [exact Hh|].
  apply wp_bind. replace (next h) with (nxt bs HEAD) by (unfold nxt; by rewrite Hh).
  eapply (wp_scan_next _ _ _ bs lru); [done|lia|done..| |].
  - (* cached *)
    simpl. intros l1 i l2 b -> Hb Ht _. apply andb_prop in Ht as [Hd%Z.eqb_eq Hn%Z.eqb_eq].
    assert (Hi : (i < NBUF)%nat) by (apply Hlt; set_solver).
    destruct (rep_bufs _ _ _ _ _ _ Hrep i b Hi Hb)
      as [(_ & _ & Hl & _)|(Hd0 & _)]; [|rewrite Hd in Hd0; done].
    rewrite decide_False in Hl by (by rewrite Hn). destruct Hl as [Hr Hfree].
    apply wp_bind. eapply wp_upd_buf; [done|]. apply wp_bind, wp_release; [done|].
    apply wp_bind, wp_gets. apply wp_bind.
    eapply wp_on_lock; [simpl; apply list_lookup_insert_eq; by eapply lookup_lt_Some|].
    apply wp_acquiresleep; [done|]. apply wp_ret.
    unfold ins; simpl. rewrite list_insert_insert_eq.
    eapply (HQ i b); try done; [|by left]. simpl. rewrite Hr. reflexivity.
  - (* recycle *)
    simpl. intros Hnone. apply wp_bind. eapply wp_get_buf; [exact Hh|].
    assert (Hnc : forall j, ~ cached bs j n).
    { intros j [Hj (c & Hc & Hcd & Hcn)]. assert (j ∈ lru) as Hjl by by eapply ring_elem.
      specialize (Hnone _ _ Hjl Hc). rewrite Hcd, Hcn, !Z.eqb_refl in Hnone. done. }
    assert (Hnp : n ∉ dirty ∪ held).
    { intros Hin. destruct (rep_pinned _ _ _ _ _ _ Hrep n Hin) as [j Hj]. by eapply Hnc. }
    apply wp_bind. replace (prev h) with (prv bs HEAD) by (unfold prv; by rewrite Hh).
    eapply (wp_scan_prev _ _ _ bs lru); [done|lia|done..| |].
    + simpl. intros l1 i l2 b Hl Hb Ht Hl2. apply andb_prop in Ht as [Hr%Z.eqb_eq Hdf].
      assert (Hi : (i < NBUF)%nat) by (apply Hlt; rewrite Hl; set_solver).
      pose proof (rep_bufs _ _ _ _ _ _ Hrep i b Hi Hb) as Hbr.
      assert (Hfree : sl_free (lock b)).
      { destruct Hbr as [(_ & _ & Hl' & _)|(_ & _ & _ & ?)]; [|done].
        case_decide; [lia|]. tauto. }
      apply wp_bind. eapply wp_upd_buf; [done|]. apply wp_bind, wp_release; [done|].
      apply wp_bind, wp_gets. apply wp_bind.
      eapply wp_on_lock; [simpl; apply list_lookup_insert_eq; by eapply lookup_lt_Some|].
      apply wp_acquiresleep; [done|]. apply wp_ret.
      unfold ins; simpl. rewrite list_insert_insert_eq.
      eapply (HQ i b); try done. right. split; [done|]. split; [set_solver|].
      split; [done|]. split.
      * intros Hd. destruct Hbr as [(_ & Hdi & Hl' & _)|(Hd0 & _)]; [|by rewrite Hd in Hd0].
        assert (Hdirty : is_dirty b = false) by (unfold is_dirty; by rewrite Hdf).
        rewrite Hdirty in Hdi. symmetry in Hdi. apply bool_decide_eq_false in Hdi.
        case_decide; [lia|]. set_solver.
      * exists l1, l2. split; [done|]. intros j c Hj Hc. specialize (Hl2 _ _ Hj Hc).
        apply andb_false_iff in Hl2 as [?%Z.eqb_neq|Hz]; [by left|right].
        unfold is_dirty. by rewrite Hz.
    + (* no buffer left: more blocks pinned than buffers *)
      simpl. intros Hfull. exfalso.
      assert (NBUF <= size (dirty ∪ held))%nat as Hsz.
      { eapply pinned_all; [done|]. simpl. intros i b Hi Hb.
        assert (i ∈ lru) as Hil by by eapply ring_elem. specialize (Hfull _ _ Hil Hb).
        destruct (rep_bufs _ _ _ _ _ _ Hrep i b Hi Hb)
          as [(Hd & Hdi & Hl & _)|(_ & Hf & Hr & _)].
        - split; [done|]. apply andb_false_iff in Hfull as [Hr%Z.eqb_neq|Hz].
          + case_decide; [set_solver|]. lia.
          + assert (is_dirty b = true) as Hdt by (unfold is_dirty; by rewrite Hz).
            rewrite Hdt in Hdi. symmetry in Hdi. apply bool_decide_eq_true in Hdi. set_solver.
        - rewrite Hf, Hr in Hfull. done. }
      rewrite <- union_assoc_L, size_union, size_singleton in Hcap by set_solver. lia.
Qed.

(** What no operation of the cache changes. *)
Definition same_env s s' : Prop :=
  curpid s' = curpid s /\ devrange (ide s') = devrange (ide s).

Lemma handle_frame s s' i b b' j m :
  bufs (bc s) !! i = Some b -> bufs (bc s') = <[i := b']> (bufs (bc s)) ->
  curpid s' = curpid s -> (j <> i \/ (dev b' = dev b /\ blockno b' = blockno b /\ lock b' = lock b)) ->
  handle s j m -> handle s' j m.
Proof.
  intros Hb Hbs Hpid Hj [Hlt (c & Hc & Hd & Hn & Hl)]. split; [done|]. rewrite Hbs, Hpid.
  destruct (decide (j = i)) as [->|].
  - simplify_eq. destruct Hj as [|(?&?&?)]; [done|]. exists b'.
    rewrite list_lookup_insert_eq by (by eapply lookup_lt_Some). split; [done|]. repeat split; congruence.
  - exists c. by rewrite list_lookup_insert_ne.
Qed.

Lemma sl_held_lock pid : sl_held pid (held_lock pid).
Proof. done. Qed.

(** A free buffer that was just taken is no handle of the process. *)
Lemma free_no_handle s lru D C dirty held i b j m :
  bio_rep s lru D C dirty held -> (i < NBUF)%nat -> bufs (bc s) !! i = Some b ->
  refcnt b = 0 -> handle s j m -> j <> i.
Proof.
  intros Hrep Hi Hb Hr [_ (c & Hc & Hd & Hn & Hl)] ->. simplify_eq.
  destruct (rep_bufs _ _ _ _ _ _ Hrep i b Hi Hb) as [(_&_&Hh&_)|(Hd0&_)];
    [|by rewrite Hd in Hd0].
  case_decide; [lia|]. destruct Hh as [_ [Hf _]]. by rewrite Hl in Hf.
Qed.

(** bread(): the buffer returned is locked by the caller and holds the logical
    content of the block; nothing is written to the disk. *)
Lemma wp_bread s lru D C dirty held n Q :
  bio_rep s lru D C dirty held -> devrange (ide s) ROOTDEV n -> n ∉ held ->
  (size ({[n]} ∪ dirty ∪ held) <= NBUF)%nat ->
  (forall i s', bio_rep s' lru D C dirty ({[n]} ∪ held) -> handle s' i n ->
     (forall j m, handle s j m -> handle s' j m) -> same_env s s' -> writes s' = writes s ->
     Q i s') ->
  wp (bread ROOTDEV n) Q s.
Proof.
  intros Hrep Hrng Hnh Hcap HQ. unfold bread. apply wp_bind.
  eapply wp_bget; [done..|]. intros i b b' Hi Hb Hnx Hpv Hd Hn Hr Hl Hr0 Hcase.
  pose proof (lookup_lt_Some _ _ _ Hb) as Hlt.
  assert (Huniq : forall j, cached (bufs (bc s)) j n -> j = i).
  { intros j Hj. destruct Hcase as [(_ & _ & Hbd & Hbn)|(_ & _ & Hnc & _)].
    - eapply (rep_uniq _ _ _ _ _ _ Hrep); [done|]. split; eauto.
    - exfalso. by eapply Hnc. }
  assert (Hev : dev b = ROOTDEV -> blockno b <> n -> blockno b ∉ dirty ∪ held).
  { destruct Hcase as [(_ & _ & Hbd & Hbn)|(_ & _ & _ & ? & _)]; [done|auto]. }
  assert (Hagree : forall m : Z, m <> n -> C m = C m /\ (m ∈ dirty <-> m ∈ dirty) /\
    (m ∈ {[n]} ∪ held <-> m ∈ held) /\ D m = D m) by set_solver.
  assert (Hho : forall s' c, bufs (bc s') = <[i := c]> (bufs (bc s)) -> curpid s' = curpid s ->
    forall j m, handle s j m -> handle s' j m).
  { intros s' c Hbs Hpid j m Hj. eapply handle_frame; [exact Hb|exact Hbs|done| |done].
    left. by eapply free_no_handle. }
  assert (Hdv : is_dirty b' = bool_decide (n ∈ dirty) /\ (is_dirty b' = true -> is_valid b' = true) /\
    (is_valid b' = true -> data b' = C n)).
  { destruct Hcase as [(Hf & Hda & Hbd & Hbn)|(Hf & Hnd & _)].
    - destruct (rep_bufs _ _ _ _ _ _ Hrep i b Hi Hb) as [(_&H1&_&H2&H3&_)|(Hd0&_)];
        [|by rewrite Hbd in Hd0].
      unfold is_dirty, is_valid in *. rewrite Hf, Hda, <- Hbn. done.
    - unfold is_dirty, is_valid. rewrite Hf. rewrite bool_decide_eq_false_2 by done. done. }
  destruct Hdv as (Hdi & Hdv & Hda).
  apply wp_bind. eapply wp_get_buf; [by apply list_lookup_insert_eq|].
  apply wp_bind. destruct (is_valid b') eqn:Hv; unfold is_valid in Hv.
  - (* the buffer is valid *)
    apply negb_true_iff in Hv. rewrite Hv. apply wp_ret, wp_ret. apply HQ.
    + eapply (rep_update s _ lru D C dirty held D C dirty ({[n]} ∪ held) i b b' n); try done.
      * by apply (rep_lock _ _ _ _ _ _ Hrep).
      * left. rewrite Hn, Hdi. split; [done|]. split; [done|].
        rewrite decide_True by set_solver. unfold is_valid. rewrite Hv.
        split; [done|]. split; [done|]. split; [auto|done].
      * apply Hrep.
      * apply Hrep.
      * set_solver.
      * by apply (rep_size _ _ _ _ _ _ Hrep).
    + split; [done|]. exists b'. simpl. by rewrite list_lookup_insert_eq.
    + by eapply Hho.
    + done.
    + done.
  - (* read it from the disk *)
    apply negb_false_iff in Hv. rewrite Hv.
    assert (Hnd : n ∉ dirty).
    { intros Hin. rewrite bool_decide_eq_true_2 in Hdi by done. by apply Hdv in Hdi. }
    rewrite bool_decide_eq_false_2 in Hdi by done.
    unfold iderw_at. apply wp_bind. eapply wp_get_buf; [by apply list_lookup_insert_eq|].
    apply wp_bind, wp_gets. apply wp_bind, wp_zoom.
    eapply iderw_read; [apply Hrep|by rewrite Hd, Hn|by rewrite Hl| |done|].
    { unfold is_valid. by rewrite Hv. }
    intros z d' Hz1 Hz2 Hok Hblk Hrg. rewrite Hd, Hn. simpl.
    rewrite (rep_disk _ _ _ _ _ _ Hrep) by done.
    eapply wp_upd_buf; [by apply list_lookup_insert_eq|]. apply wp_ret.
    unfold ins; simpl. rewrite list_insert_insert_eq. apply HQ.
    + eapply (rep_update s _ lru D C dirty held D C dirty ({[n]} ∪ held) i b
                (set_data (D n) (set_flags z b')) n); try done.
      * by apply (rep_lock _ _ _ _ _ _ Hrep).
      * left. simpl. rewrite Hn. split; [done|]. rewrite is_dirty_bit, is_valid_bit. cbn [flags set_data set_flags].
        rewrite Hz1, Hz2, bool_decide_eq_false_2 by done. split; [done|].
        rewrite decide_True by set_solver. split; [done|]. split; [done|]. split; [|done].
        intros _. symmetry. by eapply (rep_clean _ _ _ _ _ _ Hrep).
      * simpl. rewrite Hblk. apply Hrep.
      * set_solver.
      * by apply (rep_size _ _ _ _ _ _ Hrep).
    + split; [done|]. eexists. simpl. by rewrite list_lookup_insert_eq.
    + by eapply Hho.
    + done.
    + done.
Qed.

(** Updates of a buffer that the process holds. *)
Record keeps s s' : Prop := {
  keeps_env : same_env s s';
  keeps_handles : forall j m, handle s j m -> handle s' j m;
}.

Record held_buf (pid : Z) (rng : Z -> Prop) (C : Z -> list Z) (dirty held : gset Z)
    (n : Z) (b : buf) : Prop := {
  hb_dev : dev b = ROOTDEV;
  hb_blockno : blockno b = n;
  hb_held : n ∈ held;
  hb_refcnt : refcnt b = 1;
  hb_lock : lock b = held_lock pid;
  hb_valid : is_valid b = true;
  hb_dirty : is_dirty b = bool_decide (n ∈ dirty);
  hb_data : data b = C n;
  hb_rng : rng n;
}.

Lemma handle_buf s lru D C dirty held i n :
  bio_rep s lru D C dirty held -> handle s i n ->
  exists b, bufs (bc s) !! i = Some b /\
    held_buf (curpid s) (devrange (ide s) ROOTDEV) C dirty held n b.
Proof.
  intros Hrep [Hi (b & Hb & Hd & <- & Hl)]. exists b. split; [done|].
  destruct (rep_bufs _ _ _ _ _ _ Hrep i b Hi Hb) as [(_&Hdi&Hh&_&Hda&Hr)|(Hd0&_)];
    [|by rewrite Hd in Hd0].
  case_decide; [|by destruct Hh as [_ [Hf _]]; rewrite Hl in Hf].
  destruct Hh as (?&_&?). split; auto.
Qed.

Lemma held_update s s' lru D C dirty held D' C' dirty' i n b b' :
  bio_rep s lru D C dirty held -> handle s i n -> bufs (bc s) !! i = Some b ->
  bufs (bc s') = <[i := b']> (bufs (bc s)) -> bc_lock (bc s') = bc_lock (bc s) ->
  curpid s' = curpid s -> devrange (ide s') = devrange (ide s) ->
  next b' = next b -> prev b' = prev b -> dev b' = dev b -> blockno b' = blockno b ->
  lock b' = lock b -> refcnt b' = refcnt b -> is_valid b' = true ->
  is_dirty b' = bool_decide (n ∈ dirty') -> data b' = C' n -> length (C' n) = Z.to_nat BSIZE ->
  (forall m, m <> n -> C' m = C m /\ (m ∈ dirty' <-> m ∈ dirty) /\ D' m = D m) ->
  devok (ide s') ->
  (forall m, devrange (ide s) ROOTDEV m -> devblock (ide s') ROOTDEV m = D' m) ->
  bio_rep s' lru D' C' dirty' held /\ keeps s s'.
Proof.
  intros Hrep Hh Hb Hbs Hlk Hpid Hrng Hnx Hpv Hd Hn Hl Hr Hv Hdi Hda Hlen Hag Hok Hdisk.
  destruct (handle_buf _ _ _ _ _ _ _ _ Hrep Hh) as (c & Hc & []). simplify_eq.
  assert (Hi : (i < NBUF)%nat) by apply Hh.
  split.
  - eapply (rep_update s s' lru D C dirty held D' C' dirty' held i b b'); try done.
    + rewrite Hlk. apply Hrep.
    + by rewrite Hd.
    + intros j Hj. eapply (rep_uniq _ _ _ _ _ _ Hrep); [done|]. split; [done|]. eauto.
    + intros m Hm. destruct (Hag m Hm) as (?&?&?). done.
    + left. rewrite Hd, Hn. split; [done|]. split; [done|].
      rewrite decide_True by done. repeat split; try done; congruence.
  - split; [by split|]. intros j m. eapply handle_frame; eauto.
Qed.

Lemma wp_buf_data s lru D C dirty held i n Q :
  bio_rep s lru D C dirty held -> handle s i n -> Q (C n) s -> wp (buf_data i) Q s.
Proof.
  intros Hrep Hh HQ. destruct (handle_buf _ _ _ _ _ _ _ _ Hrep Hh) as (b & Hb & Hhb).
  unfold buf_data. apply wp_bind. eapply wp_get_buf; [done|]. apply wp_ret.
  by rewrite (hb_data _ _ _ _ _ _ _ Hhb).
Qed.

Lemma wp_buf_store s lru D C dirty held i n d Q :
  bio_rep s lru D C dirty held -> handle s i n -> length d = Z.to_nat BSIZE ->
  (forall s', bio_rep s' lru D (<[n := d]> C) dirty held -> keeps s s' ->
     writes s' = writes s -> Q tt s') ->
  wp (buf_store i d) Q s.
Proof.
  intros Hrep Hh Hlen HQ. destruct (handle_buf _ _ _ _ _ _ _ _ Hrep Hh) as (b & Hb & []).
  eapply wp_upd_buf; [done|].
  edestruct (held_update s (ins i (set_data d b) s) lru D C dirty held D (<[n := d]> C) dirty i n b
    (set_data d b)) as [Hrep' Hk]; try done; [by rewrite fn_lookup_insert..| | | |by apply HQ].
  - intros m Hm. by rewrite fn_lookup_insert_ne.
  - apply Hrep.
  - apply Hrep.
Qed.

Lemma wp_buf_pin s lru D C dirty held i n Q :
  bio_rep s lru D C dirty held -> handle s i n ->
  (forall s', bio_rep s' lru D C ({[n]} ∪ dirty) held -> keeps s s' ->
     writes s' = writes s -> Q tt s') ->
  wp (buf_pin i) Q s.
Proof.
  intros Hrep Hh HQ. destruct (handle_buf _ _ _ _ _ _ _ _ Hrep Hh) as (b & Hb & []).
  eapply wp_upd_buf; [done|].
  set (b' := set_flags (Z.lor (flags b) B_DIRTY) b).
  edestruct (held_update s (ins i b' s) lru D C dirty held D C ({[n]} ∪ dirty) i n b b')
    as [Hrep' Hk]; try done; [| | | | | |by apply HQ].
  - rewrite is_valid_bit. unfold b'. cbn [flags set_flags]. autorewrite with flags.
    by rewrite <- is_valid_bit.
  - rewrite is_dirty_bit. unfold b'. cbn [flags set_flags]. autorewrite with flags.
    symmetry. apply bool_decide_eq_true_2. set_solver.
  - by apply (rep_size _ _ _ _ _ _ Hrep).
  - set_solver.
  - apply Hrep.
  - apply Hrep.
Qed.

(** bwrite(): the block's logical content reaches the disk. *)
Lemma wp_bwrite s lru D C dirty held i n Q :
  bio_rep s lru D C dirty held -> handle s i n ->
  (forall s', bio_rep s' lru (<[n := C n]> D) C (dirty ∖ {[n]}) held -> keeps s s' ->
     writes s' = writes s ++ [(n, C n)] -> Q tt s') ->
  wp (bwrite i) Q s.
Proof.
  intros Hrep Hh HQ. destruct (handle_buf _ _ _ _ _ _ _ _ Hrep Hh) as (b & Hb & []).
  pose proof (lookup_lt_Some _ _ _ Hb) as Hlt.
  unfold bwrite. apply wp_bind, wp_gets. apply wp_bind. eapply wp_on_lock; [done|].
  apply wp_holdingsleep; [by rewrite hb_lock0|].
  apply wp_bind, wp_panic_if; [done|]. unfold ins; simpl.
  apply wp_bind. eapply wp_upd_buf; [simpl; by apply list_lookup_insert_eq|].
  apply wp_bind. unfold ins; simpl. rewrite !list_insert_insert_eq.
  eapply wp_get_buf; [simpl; by apply list_lookup_insert_eq|].
  apply wp_bind, wp_modify. unfold iderw_at. apply wp_bind.
  eapply wp_get_buf; [simpl; by apply list_lookup_insert_eq|].
  apply wp_bind, wp_gets. apply wp_bind, wp_zoom. simpl.
  eapply iderw_write; [apply Hrep|simpl; by rewrite hb_dev0, hb_blockno0|simpl; by rewrite hb_lock0| | |].
  { rewrite is_dirty_bit. cbn [flags set_flags set_lock]. by autorewrite with flags. }
  { simpl. rewrite hb_data0. by apply (rep_size _ _ _ _ _ _ Hrep). }
  intros z d' Hz1 Hz2 Hok Hblk Hrg. simpl in Hblk. rewrite hb_dev0, hb_blockno0, hb_data0 in Hblk.
  eapply wp_upd_buf; [simpl; by apply list_lookup_insert_eq|].
  unfold ins; simpl. rewrite list_insert_insert_eq.
  edestruct (held_update s (mkbio (mkbcache (bc_lock (bc s)) (<[i := set_flags z b]> (bufs (bc s)))) d'
     (curpid s) (writes s ++ [(blockno b, data b)])) lru D C dirty held (<[n := C n]> D) C
     (dirty ∖ {[n]}) i n b (set_flags z b)) as [Hrep' Hk]; try done.
  - by rewrite is_valid_bit.
  - rewrite is_dirty_bit. cbn [flags set_flags]. rewrite Hz2.
    symmetry. apply bool_decide_eq_false_2. set_solver.
  - by apply (rep_size _ _ _ _ _ _ Hrep).
  - intros m Hm. rewrite fn_lookup_insert_ne by done. set_solver.
  - intros m Hm. simpl. rewrite Hblk by done. unfold blk_upd.
    destruct (decide (m = n)) as [->|].
    + by rewrite decide_True, fn_lookup_insert.
    + rewrite decide_False, fn_lookup_insert_ne by naive_solver. by apply Hrep.
  - simpl in *. eapply HQ in Hrep' as HQ'; [exact HQ'|done|]. simpl. by rewrite hb_blockno0, hb_data0.
Qed.

Lemma relinked_lookup bs bs' i b' :
  relinked bs bs' -> bs' !! i = Some b' -> exists b, bs !! i = Some b /\ core b' = core b.
Proof.
  intros Hr Hb. specialize (Hr i). rewrite Hb in Hr. destruct (bs !! i) as [b|]; [|done].
  exists b. split; [done|]. by apply (inj Some).
Qed.

Lemma core_fields b b' :
  core b' = core b -> dev b' = dev b /\ blockno b' = blockno b /\ lock b' = lock b /\
    refcnt b' = refcnt b /\ flags b' = flags b /\ data b' = data b.
Proof. destruct b, b'. unfold core; simpl. intros E. by simplify_eq. Qed.

Lemma relinked_cached bs bs' i n : relinked bs bs' -> cached bs' i n <-> cached bs i n.
Proof.
  intros Hr. split; intros [Hi (b & Hb & Hd & Hn)]; (split; [done|]).
  - destruct (relinked_lookup _ _ _ _ Hr Hb) as (c & Hc & E%core_fields).
    exists c. destruct E as (E1 & E2 & _). repeat split; congruence.
  - destruct (relinked_lookup bs' bs i b) as (c & Hc & E%core_fields); [|done|].
    + intros j. by rewrite (Hr j).
    + exists c. destruct E as (E1 & E2 & _). repeat split; congruence.
Qed.

(** Only the order changes when the list is relinked. *)
Lemma rep_relink s s' lru lru' D C dirty held :
  bio_rep s lru D C dirty held -> relinked (bufs (bc s)) (bufs (bc s')) ->
  ring (bufs (bc s')) lru' -> bc_lock (bc s') = false -> ide s' = ide s ->
  curpid s' = curpid s -> bio_rep s' lru' D C dirty held.
Proof.
  intros Hrep Hr Hring Hlk Hide Hpid. split; rewrite ?Hide, ?Hpid; try done; try apply Hrep.
  - intros i b' Hi Hb'. destruct (relinked_lookup _ _ _ _ Hr Hb') as (b & Hb & E%core_fields).
    destruct E as (E1 & E2 & E3 & E4 & E5 & E6).
    pose proof (rep_bufs _ _ _ _ _ _ Hrep i b Hi Hb) as Hbr.
    unfold buf_rep, is_dirty, is_valid in *. by rewrite E1, E2, E3, E4, E5, E6.
  - intros i j n. rewrite !(relinked_cached _ _ _ _ Hr). apply Hrep.
  - intros n Hn. destruct (rep_pinned _ _ _ _ _ _ Hrep n Hn) as [i Hi].
    exists i. by apply (relinked_cached _ _ _ _ Hr).
Qed.

(** brelse(): the buffer becomes free and the most recently used one.  A block
    changed in memory only must have been pinned. *)
Lemma wp_brelse s lru D C dirty held i n Q :
  bio_rep s lru D C dirty held -> handle s i n -> n ∈ dirty \/ C n = D n ->
  (forall s' l1 l2, lru = l1 ++ i :: l2 ->
     bio_rep s' (i :: l1 ++ l2) D C dirty (held ∖ {[n]}) ->
     (forall j m, m <> n -> handle s j m -> handle s' j m) -> same_env s s' ->
     writes s' = writes s -> Q tt s') ->
  wp (brelse i) Q s.
Proof.
  intros Hrep Hh Hcl HQ. destruct (handle_buf _ _ _ _ _ _ _ _ Hrep Hh) as (b & Hb & []).
  pose proof (lookup_lt_Some _ _ _ Hb) as Hlt. assert (Hi : (i < NBUF)%nat) by apply Hh.
  assert (i ∈ lru) as Hil by (eapply ring_elem; [apply Hrep|done]).
  apply list_elem_of_split in Hil as (l1 & l2 & Hl).
  set (b' := set_refcnt 0 (set_lock (mksleeplock false false 0) b)).
  assert (Hrep' : bio_rep (ins i b' s) lru D C dirty (held ∖ {[n]})).
  { eapply (rep_update s _ lru D C dirty held D C dirty (held ∖ {[n]}) i b b' n); try done.
    - apply Hrep.
    - intros j Hj. eapply (rep_uniq _ _ _ _ _ _ Hrep); [done|]. split; eauto.
    - set_solver.
    - left. simpl. rewrite hb_blockno0. split; [done|]. split; [done|].
      rewrite decide_False by set_solver. split; [done|]. split; [by intros _|]. done.
    - apply Hrep.
    - apply Hrep.
    - intros Hnd _. naive_solver.
    - by apply (rep_size _ _ _ _ _ _ Hrep). }
  assert (Hring : ring (<[i := b']> (bufs (bc s))) (l1 ++ i :: l2)).
  { rewrite <- Hl. apply Hrep'. }
  unfold brelse. apply wp_bind, wp_gets. apply wp_bind. eapply wp_on_lock; [done|].
  apply wp_holdingsleep; [by rewrite hb_lock0|]. apply wp_bind, wp_panic_if; [done|].
  apply wp_bind. eapply wp_on_lock; [unfold ins; simpl; by apply list_lookup_insert_eq|].
  apply wp_releasesleep; [simpl; by rewrite hb_lock0|].
  unfold ins; simpl. rewrite !list_insert_insert_eq.
  apply wp_bind, wp_acquire; [simpl; apply Hrep|].
  apply wp_bind. eapply wp_upd_buf; [simpl; by apply list_lookup_insert_eq|].
  unfold ins; simpl. rewrite list_insert_insert_eq, hb_refcnt0.
  change (set_refcnt _ _) with b'.
  apply wp_bind. eapply wp_get_buf; [simpl; by apply list_lookup_insert_eq|].
  apply wp_bind. simpl. eapply wp_to_front; [exact Hring|]. simpl. intros bs' Hr Hring'.
  apply wp_release; [done|]. eapply HQ; [done| | |done|done].
  - eapply rep_relink; [exact Hrep'|..]; try done.
  - intros j m Hm [Hj (c & Hc & Hcd & Hcn & Hcl')]. split; [done|]. simpl.
    destruct (relinked_lookup bs' (<[i := b']> (bufs (bc s))) j c) as (c' & Hc' & E%core_fields).
    { intros k. by rewrite (Hr k). }
    { rewrite list_lookup_insert_ne; [done|]. intros <-. congruence. }
    exists c'. destruct E as (E1 & E2 & E3 & _). repeat split; congruence.
Qed.

(** binit(): the static, zero-filled cache becomes the list of all buffers;
    nothing is cached, so the logical content is that of the disk. *)
Definition zero_buf : buf := mkbuf 0 0 0 initsleeplock 0 0 0 (replicate (Z.to_nat BSIZE) 0).

Lemma relinked_zero bs i b :
  relinked (replicate (S NBUF) zero_buf) bs -> bs !! i = Some b -> core b = core zero_buf.
Proof.
  intros Hr Hb. destruct (relinked_lookup _ _ _ _ Hr Hb) as (c & Hc & ->).
  by apply lookup_replicate in Hc as [-> _].
Qed.

Lemma seq_split l1 i l2 :
  seq 0 NBUF = l1 ++ i :: l2 ->
  NoDup (HEAD :: i :: reverse l1) /\ forall j, j ∈ HEAD :: i :: reverse l1 -> (j < S NBUF)%nat.
Proof.
  intros Hl. assert (Hlt : forall j, j ∈ i :: reverse l1 -> (j < NBUF)%nat).
  { intros j Hj. assert (j ∈ seq 0 NBUF) as Hj'%elem_of_seq; [|lia].
    rewrite Hl. rewrite reverse_Permutation in Hj. set_solver. }
  pose proof (NoDup_seq 0 NBUF) as Hnd. rewrite Hl in Hnd.
  apply NoDup_app in Hnd as (Hn1 & Hd & Hn2). split.
  - rewrite !NoDup_cons. split; [intros Hj%Hlt; unfold HEAD in Hj; lia|].
    rewrite reverse_Permutation. set_solver.
  - intros j [->|Hj%Hlt]%elem_of_cons; unfold HEAD; lia.
Qed.

Lemma wp_binit s Q :
  bufs (bc s) = replicate (S NBUF) zero_buf -> devok (ide s) ->
  (forall s', bio_rep s' (reverse (seq 0 NBUF)) (devblock (ide s) ROOTDEV) (devblock (ide s) ROOTDEV) ∅ ∅ ->
     same_env s s' -> writes s' = writes s -> Q tt s') ->
  wp binit Q s.
Proof.
  intros Hbs Hok HQ. destruct s as [[lk bs] d pid wr]. cbn [bc bufs] in *. subst bs.
  set (zs := replicate (S NBUF) zero_buf) in *.
  assert (Lz : length zs = S NBUF) by apply length_replicate.
  set (st bs := mkbio (mkbcache false bs) d pid wr).
  unfold binit. apply wp_bind, wp_modify. change (put_bc_held _ _) with (st zs).
  apply wp_bind, wp_set_prev; cbn [st bc bufs]; [unfold HEAD; lia|].
  intros bs1 R1 N1 P1. pose proof (relinked_length _ _ R1) as L1.
  apply wp_bind, wp_set_next; cbn [with_bufs set_bc set_bufs st bc bufs]; [unfold HEAD; lia|].
  intros bs2 R2 N2 P2.
  eapply (wp_for_each _ _ (fun l s' => exists bs, s' = st bs /\ relinked zs bs /\
     seg (nxt bs) (prv bs) HEAD (reverse l) HEAD)).
  - exists bs2. split; [done|]. split; [by eapply relinked_trans|]. simpl.
    by rewrite N2, P2, P1, !fn_lookup_insert.
  - intros l1 i l2 s1 Hl (bs & -> & Hr & Hs). pose proof (relinked_length _ _ Hr) as Lr.
    destruct (seq_split _ _ _ Hl) as [Hnd Hlt].
    eapply (wp_push_front i (reverse l1)); [|exact Hs|done| |].
    + intros s1 Q1 Hi Hr1 HQ1. destruct (lookup_lt_is_Some_2 _ _ Hi) as [b Hb].
      eapply wp_upd_buf; [done|]. apply HQ1.
      * eapply relinked_insert; [done|].
        pose proof (relinked_zero _ _ _ (relinked_trans _ _ _ Hr Hr1) Hb) as Hz.
        destruct b. unfold core in *; simpl in *. by simplify_eq.
      * intros k. by eapply nxt_insert_same.
      * intros k. by eapply prv_insert_same.
    + cbn [st bc bufs]. intros j Hj. rewrite Lr, Lz. by apply Hlt.
    + intros bs' Hr' Hs'. exists bs'. split; [done|]. split; [by eapply relinked_trans|].
      by rewrite reverse_snoc.
  - intros s' (bs & -> & Hr & Hs). pose proof (relinked_length _ _ Hr) as Lr. apply HQ; [|done|done].
    assert (Hz : forall i b, bs !! i = Some b -> core b = core zero_buf).
    { intros i b. by apply relinked_zero. }
    assert (Hnc : forall i n, ~ cached bs i n).
    { intros i n [_ (b & Hb & Hd & _)]. apply Hz, core_fields in Hb as [Hb _].
      by rewrite Hd in Hb. }
    split; cbn [st bc bufs bc_lock ide curpid].
    + split; [by rewrite Lr|by rewrite reverse_Permutation|done].
    + done.
    + intros i b _ Hb. apply Hz, core_fields in Hb as (?&?&Hlk&?&?&?). right.
      rewrite Hlk. done.
    + intros i j n Hi. by apply Hnc in Hi.
    + set_solver.
    + done.
    + done.
    + done.
    + intros n Hn. by apply devblock_length.
Qed.

End contract.
