(* ===== verification/Log.v ===== *)
(** log.c: the write-ahead log, and readsb() of fs.c that it calls.

    The state of the log sits on top of the buffer cache.  [commit] and
    [recover_from_log] issue their disk writes through bwrite(), so the list
    [writes] of the cache names every point at which the machine can stop. *)

From S2P Require Import Prelude Params Bytes Buf Bio.

(** ** struct superblock (fs.h) *)

Record superblock := mksb {
  sb_size : Z;
  sb_nblocks : Z;
  sb_ninodes : Z;
  sb_nlog : Z;
  sb_logstart : Z;
  sb_inodestart : Z;
  sb_bmapstart : Z;
}.

Definition decode_sb (b : list Z) : superblock :=
  mksb (get_u32 0 b) (get_u32 4 b) (get_u32 8 b) (get_u32 12 b) (get_u32 16 b)
    (get_u32 20 b) (get_u32 24 b).

(** ** What fs.c uses of bio.c and log.c

    The operations on buffers, so that fs.c is written once and its theorems
    are proved against the laws of Tx.v, and log_write(). *)

Class BufLayer (S : Type) : Type := {
  bl_read : Z -> Z -> M S nat;
  bl_release : nat -> M S unit;
  bl_data : nat -> M S (list Z);
  bl_store : nat -> list Z -> M S unit;
}.

Class TxLayer (S : Type) `{BufLayer S} : Type := {
  bl_log_write : nat -> M S unit;
}.

(** begin_op() and end_op(), which system calls use. *)
Class OpLayer (S : Type) : Type := {
  bl_begin_op : M S unit;
  bl_end_op : M S unit;
}.

#[export] Instance bio_layer {D} `{BlockDev D} : BufLayer (bio D) := {
  bl_read := bread;
  bl_release := brelse;
  bl_data := buf_data;
  bl_store := buf_store;
}.

(** readsb(dev, &sb): the structure is copied out of block 1. *)
Definition readsb {S} `{BufLayer S} (dv : Z) : M S superblock :=
  let* bp := bl_read dv 1 in
  let* d := bl_data bp in
  bl_release bp ;;;
  ret (decode_sb d).

(** ** struct logheader and struct log

    [lh_n] and the elements of [lh_block] are ints; [lh_block] has LOGSIZE
    elements. *)

Record logheader := mklh {
  lh_n : Z;
  lh_block : list Z;
}.

Record log := mklog {
  log_lock : bool;
  log_start : Z;
  log_size : Z;
  outstanding : Z;
  committing : bool;
  log_dev : Z;
  lh : logheader;
}.

Definition set_log_lock v (l : log) := mklog v (log_start l) (log_size l) (outstanding l) (committing l) (log_dev l) (lh l).
Definition set_geometry st sz dv (l : log) := mklog (log_lock l) st sz (outstanding l) (committing l) dv (lh l).
Definition set_outstanding v (l : log) := mklog (log_lock l) (log_start l) (log_size l) v (committing l) (log_dev l) (lh l).
Definition set_committing v (l : log) := mklog (log_lock l) (log_start l) (log_size l) (outstanding l) v (log_dev l) (lh l).
Definition set_lh v (l : log) := mklog (log_lock l) (log_start l) (log_size l) (outstanding l) (committing l) (log_dev l) v.
Definition set_lh_n v (l : log) := set_lh (mklh v (lh_block (lh l))) l.

Record logsys (D : Type) := mklogsys {
  lg : log;
  cache : bio D;
}.
Arguments mklogsys {D} _ _.
Arguments lg {D} _.
Arguments cache {D} _.

Definition set_lg {D} v (s : logsys D) : logsys D := mklogsys v (cache s).
Definition set_cache {D} v (s : logsys D) : logsys D := mklogsys (lg s) v.

Section log.
Context {D : Type} `{BlockDev D}.

Definition onbio {A} (m : M (bio D) A) : M (logsys D) A := zoom cache set_cache m.
Definition uplog (f : log -> log) : M (logsys D) unit := modify (fun s => set_lg (f (lg s)) s).
Definition lg_held (s : logsys D) : bool := log_lock (lg s).
Definition put_lg_held (v : bool) (s : logsys D) : logsys D := set_lg (set_log_lock v (lg s)) s.

(** log.lh.block[i] = v and its read; outside the array is a fault. *)
Definition set_lh_block (i : nat) (v : Z) : M (logsys D) unit :=
  let* h := gets (fun s => lh (lg s)) in
  let* _ := from_some (lh_block h !! i) in
  uplog (fun l => set_lh (mklh (lh_n h) (<[i := v]> (lh_block h))) l).
Definition get_lh_block (i : nat) : M (logsys D) Z :=
  let* h := gets (fun s => lh (lg s)) in
  from_some (lh_block h !! i).

Definition install_trans : M (logsys D) unit :=
  let* n := gets (fun s => lh_n (lh (lg s))) in
  for_each (seq 0 (Z.to_nat n)) (fun tail =>
    let* l := gets lg in
    let* lbuf := onbio (bread (log_dev l) (u32 (log_start l + Z.of_nat tail + 1))) in
    let* blk := get_lh_block tail in
    let* dbuf := onbio (bread (log_dev l) (u32 blk)) in
    let* d := onbio (buf_data lbuf) in
    onbio (buf_store dbuf d) ;;;
    onbio (bwrite dbuf) ;;;
    onbio (brelse lbuf) ;;;
    onbio (brelse dbuf)).

(** The ints of a header block: n, then block[]. *)
Definition hdr_n (b : list Z) : Z := s32 (get_u32 0 b).
Definition hdr_block (b : list Z) (i : nat) : Z := s32 (get_u32 (4 + 4 * i) b).

Definition read_head : M (logsys D) unit :=
  let* l := gets lg in
  let* buf := onbio (bread (log_dev l) (u32 (log_start l))) in
  let* d := onbio (buf_data buf) in
  uplog (set_lh_n (hdr_n d)) ;;;
  for_each (seq 0 (Z.to_nat (hdr_n d))) (fun i => set_lh_block i (hdr_block d i)) ;;;
  onbio (brelse buf).

Definition write_head : M (logsys D) unit :=
  let* l := gets lg in
  let* buf := onbio (bread (log_dev l) (u32 (log_start l))) in
  let* d := onbio (buf_data buf) in
  onbio (buf_store buf (put_u32 0 (lh_n (lh l)) d)) ;;;
  for_each (seq 0 (Z.to_nat (lh_n (lh l)))) (fun i =>
    let* v := get_lh_block i in
    let* d := onbio (buf_data buf) in
    onbio (buf_store buf (put_u32 (4 + 4 * i) v d))) ;;;
  onbio (bwrite buf) ;;;
  onbio (brelse buf).

Definition recover_from_log : M (logsys D) unit :=
  read_head ;;;
  install_trans ;;;
  uplog (set_lh_n 0) ;;;
  write_head.

(** sizeof(struct logheader) is 4 + 4 * LOGSIZE. *)
Definition initlog (dv : Z) : M (logsys D) unit :=
  panic_if (BSIZE <=? 4 + 4 * LOGSIZE) "initlog: too big logheader" ;;;
  uplog (set_log_lock false) ;;;
  let* sb := onbio (readsb dv) in
  uplog (set_geometry (s32 (sb_logstart sb)) (s32 (sb_nlog sb)) dv) ;;;
  recover_from_log.

(** sleep(&log, &log.lock) drops the lock; the loop starts again from its
    tests when the process is woken, which is a new run of begin_op(). *)
Definition begin_op : M (logsys D) unit :=
  acquire lg_held put_lg_held ;;;
  let* l := gets lg in
  if committing l then release lg_held put_lg_held ;;; sleep_on (Chan "log" 0)
  else if LOGSIZE <? lh_n (lh l) + (outstanding l + 1) * MAXOPBLOCKS
  then release lg_held put_lg_held ;;; sleep_on (Chan "log" 0)
  else
    uplog (fun l => set_outstanding (outstanding l + 1) l) ;;;
    release lg_held put_lg_held.

Definition write_log : M (logsys D) unit :=
  let* n := gets (fun s => lh_n (lh (lg s))) in
  for_each (seq 0 (Z.to_nat n)) (fun tail =>
    let* l := gets lg in
    let* to := onbio (bread (log_dev l) (u32 (log_start l + Z.of_nat tail + 1))) in
    let* blk := get_lh_block tail in
    let* from := onbio (bread (log_dev l) (u32 blk)) in
    let* d := onbio (buf_data from) in
    onbio (buf_store to d) ;;;
    onbio (bwrite to) ;;;
    onbio (brelse from) ;;;
    onbio (brelse to)).

Definition commit : M (logsys D) unit :=
  let* n := gets (fun s => lh_n (lh (lg s))) in
  if 0 <? n then
    write_log ;;;
    write_head ;;;
    install_trans ;;;
    uplog (set_lh_n 0) ;;;
    write_head
  else ret tt.

(** wakeup(&log) changes the process table only. *)
Definition end_op : M (logsys D) unit :=
  acquire lg_held put_lg_held ;;;
  uplog (fun l => set_outstanding (outstanding l - 1) l) ;;;
  let* l := gets lg in
  panic_if (committing l) "log.committing" ;;;
  (if outstanding l =? 0 then uplog (set_committing true) else ret tt) ;;;
  release lg_held put_lg_held ;;;
  if outstanding l =? 0 then
    commit ;;;
    acquire lg_held put_lg_held ;;;
    uplog (set_committing false) ;;;
    release lg_held put_lg_held
  else ret tt.

(** The index at which log_write() leaves its loop over log.lh.block[0..n). *)
Fixpoint absorb (blk : Z) (l : list Z) : nat :=
  match l with
  | [] => O
  | x :: l => if u32 x =? blk then O else S (absorb blk l)
  end.

Definition log_write (b : nat) : M (logsys D) unit :=
  let* l := gets lg in
  panic_if ((LOGSIZE <=? lh_n (lh l)) || (log_size l - 1 <=? lh_n (lh l)))
    "too big a transaction" ;;;
  panic_if (outstanding l <? 1) "log_write outside of trans" ;;;
  acquire lg_held put_lg_held ;;;
  let* x := onbio (get_buf b) in
  let* h := gets (fun s => lh (lg s)) in
  let i := absorb (blockno x) (take (Z.to_nat (lh_n h)) (lh_block h)) in
  set_lh_block i (s32 (blockno x)) ;;;
  (if Z.of_nat i =? lh_n h then uplog (fun l => set_lh_n (lh_n (lh l) + 1) l) else ret tt) ;;;
  onbio (buf_pin b) ;;;
  release lg_held put_lg_held.

End log.

#[export] Instance log_layer {D} `{BlockDev D} : BufLayer (logsys D) := {
  bl_read dv n := onbio (bread dv n);
  bl_release b := onbio (brelse b);
  bl_data b := onbio (buf_data b);
  bl_store b d := onbio (buf_store b d);
}.

#[export] Instance log_tx {D} `{BlockDev D} : TxLayer (logsys D) := {
  bl_log_write := log_write;
}.

#[export] Instance log_op {D} `{BlockDev D} : OpLayer (logsys D) := {
  bl_begin_op := begin_op;
  bl_end_op := end_op;
}.
