(* ===== verification/LogSpec.v ===== *)
(** The contract of the log (log.c): what commit() and recovery write to the
    disk, in which order, and what a crash between two of those writes leaves.

    A block write is atomic (a block is one disk sector), so the states in
    which the machine can stop are given by the prefixes of the write list. *)

From stdpp Require Import functions.
From S2P Require Import Prelude Params Bytes Buf Bio BioSpec Log.

(** ** Sequences of disk writes *)

Definition apply_writes (ws : list (Z * list Z)) (D : Z -> list Z) : Z -> list Z :=
  foldl (fun D w => <[w.1 := w.2]> D) D ws.

Lemma apply_writes_app ws1 ws2 D :
  apply_writes (ws1 ++ ws2) D = apply_writes ws2 (apply_writes ws1 D).
Proof. apply foldl_app. Qed.

Lemma apply_writes_snoc ws n d D :
  apply_writes (ws ++ [(n, d)]) D = <[n := d]> (apply_writes ws D).
Proof. apply apply_writes_app. Qed.

Lemma apply_writes_notin ws D n : n ∉ ws.*1 -> apply_writes ws D n = D n.
Proof.
  revert D. induction ws as [|[m d] ws IH]; intros D Hn; [done|].
  rewrite fmap_cons, not_elem_of_cons in Hn. destruct Hn as [Hm Hn].
  cbn [apply_writes foldl]. etrans; [by apply IH|]. by rewrite fn_lookup_insert_ne.
Qed.

Lemma apply_writes_in ws D n d :
  NoDup ws.*1 -> (n, d) ∈ ws -> apply_writes ws D n = d.
Proof.
  revert D. induction ws as [|[m e] ws IH]; intros D Hnd Hin; [by apply elem_of_nil in Hin|].
  rewrite fmap_cons, NoDup_cons in Hnd. destruct Hnd as [Hm Hnd].
  cbn [apply_writes foldl]. apply elem_of_cons in Hin as [[= <- <-]|Hin]; [|by apply IH].
  etrans; [by apply apply_writes_notin|]. by rewrite fn_lookup_insert.
Qed.

(** ** The three write sequences of a commit *)

(** write_log(): block i of the log gets the i-th logged block. *)
Definition log_ws (start : Z) (bl : list Z) (V : Z -> list Z) : list (Z * list Z) :=
  imap (fun i b => (start + Z.of_nat i + 1, V b)) bl.

(** install_trans(): the i-th logged block gets block i of the log. *)
Definition install_ws (start : Z) (bl : list Z) (V : Z -> list Z) : list (Z * list Z) :=
  imap (fun i b => (b, V (start + Z.of_nat i + 1))) bl.

(** write_head(): the header block with n and block[0..n). *)
Fixpoint enc_blocks (bl : list Z) (k : nat) (d : list Z) : list Z :=
  match k with
  | O => put_u32 0 (Z.of_nat (length bl)) d
  | S k => put_u32 (4 + 4 * k) (default 0 (bl !! k)) (enc_blocks bl k d)
  end.
Definition enc_head (bl : list Z) (d : list Z) : list Z := enc_blocks bl (length bl) d.

(** The list of blocks that a header names. *)
Definition hdr_list (b : list Z) : list Z := hdr_block b <$> seq 0 (Z.to_nat (hdr_n b)).

Lemma length_enc_blocks bl k d :
  (4 + 4 * k <= length d)%nat -> length (enc_blocks bl k d) = length d.
Proof.
  induction k as [|k IH]; intros Hk; cbn [enc_blocks]; [by apply length_put_le; lia|].
  rewrite length_put_le; rewrite IH; lia.
Qed.

Lemma hdr_n_enc bl k d :
  (4 + 4 * k <= length d)%nat -> Z.of_nat (length bl) < 2 ^ 31 ->
  hdr_n (enc_blocks bl k d) = Z.of_nat (length bl).
Proof.
  intros Hk Hn. unfold hdr_n. induction k as [|k IH]; cbn [enc_blocks].
  - rewrite get_put_le by lia. rewrite Z.mod_small by lia. apply s32_small. lia.
  - rewrite get_put_le_other; [apply IH; lia| |lia]. rewrite length_enc_blocks; lia.
Qed.

Lemma hdr_block_enc bl k d i b :
  (4 + 4 * k <= length d)%nat -> (i < k)%nat -> bl !! i = Some b -> - 2 ^ 31 <= b < 2 ^ 31 ->
  hdr_block (enc_blocks bl k d) i = b.
Proof.
  intros Hk Hi Hb Hr. unfold hdr_block. induction k as [|k IH]; [lia|]. cbn [enc_blocks].
  destruct (decide (i = k)) as [->|].
  - rewrite get_put_le by (rewrite length_enc_blocks; lia). rewrite Hb. simpl default.
    change (256 ^ Z.of_nat 4) with W32. change (b mod W32) with (u32 b).
    rewrite s32_u32. by apply s32_small.
  - rewrite get_put_le_other; [apply IH; lia| |lia]. rewrite length_enc_blocks; lia.
Qed.

Lemma hdr_list_enc bl d :
  length d = Z.to_nat BSIZE -> (length bl < NBUF)%nat -> Forall (fun b => 0 <= b < 2 ^ 31) bl ->
  hdr_list (enc_head bl d) = bl.
Proof.
  intros Hd Hn Hbl. assert (4 + 4 * length bl <= length d)%nat.
  { rewrite Hd. unfold NBUF, MAXOPBLOCKS, BSIZE in *. lia. }
  unfold hdr_list, enc_head. rewrite hdr_n_enc by (unfold NBUF, MAXOPBLOCKS in *; lia).
  rewrite Nat2Z.id. apply list_eq. intros i. rewrite list_lookup_fmap.
  destruct (bl !! i) as [b|] eqn:Hb.
  - pose proof (lookup_lt_Some _ _ _ Hb). rewrite lookup_seq_lt by done. simpl. f_equal.
    rewrite Forall_lookup in Hbl. specialize (Hbl i b Hb). apply hdr_block_enc; [done..|lia].
  - apply lookup_ge_None in Hb. by rewrite lookup_seq_ge.
Qed.

Lemma log_ws_snoc start bl b V :
  log_ws start (bl ++ [b]) V = log_ws start bl V ++ [(start + Z.of_nat (length bl) + 1, V b)].
Proof. unfold log_ws. rewrite imap_app. simpl. by rewrite Nat.add_0_r. Qed.

Lemma install_ws_snoc start bl b V :
  install_ws start (bl ++ [b]) V = install_ws start bl V ++ [(b, V (start + Z.of_nat (length bl) + 1))].
Proof. unfold install_ws. rewrite imap_app. simpl. by rewrite Nat.add_0_r. Qed.

Lemma install_ws_dom start bl V : (install_ws start bl V).*1 = bl.
Proof.
  apply list_eq. intros i. unfold install_ws. rewrite list_lookup_fmap, list_lookup_imap.
  by destruct (bl !! i).
Qed.

Lemma log_ws_dom start bl V n :
  n ∈ (log_ws start bl V).*1 <-> start < n <= start + Z.of_nat (length bl).
Proof.
  unfold log_ws. rewrite list_elem_of_fmap. split.
  - intros ([n' d] & -> & (i & b & [= -> ->] & Hb)%elem_of_lookup_imap).
    apply lookup_lt_Some in Hb. simpl. lia.
  - intros Hn. destruct (lookup_lt_is_Some_2 bl (Z.to_nat (n - start - 1))) as [b Hb]; [lia|].
    exists (n, V b). split; [done|]. apply elem_of_lookup_imap.
    exists (Z.to_nat (n - start - 1)), b. split; [f_equal; lia|done].
Qed.

Lemma log_ws_nodup start bl V : NoDup (log_ws start bl V).*1.
Proof.
  apply NoDup_alt. intros i j n. unfold log_ws. rewrite !list_lookup_fmap, !list_lookup_imap.
  destruct (bl !! i), (bl !! j); simpl; intros; simplify_eq. lia.
Qed.

Lemma elem_of_take_1 {A} (x : A) k l : x ∈ take k l -> x ∈ l.
Proof. intros (j & Hj & _)%elem_of_take. by eapply list_elem_of_lookup_2. Qed.

(** ** Where the log and the blocks it covers are *)

Record geometry (rng : Z -> Prop) (start nlog : Z) : Prop := {
  geo_start : 0 <= start;
  geo_nlog : 1 <= nlog;
  geo_rng : forall n, start <= n < start + nlog -> rng n;
  geo_int : forall n, rng n -> 0 <= n < 2 ^ 31;
}.

Definition in_log (start nlog n : Z) : Prop := start <= n < start + nlog.

(** A list of blocks that a header may name. *)
Record loggable (rng : Z -> Prop) (start nlog : Z) (bl : list Z) : Prop := {
  lb_nodup : NoDup bl;
  lb_small : (length bl < NBUF)%nat;
  lb_fits : Z.of_nat (length bl) < nlog;
  lb_blocks : forall b, b ∈ bl -> rng b /\ ~ in_log start nlog b;
}.

(** The in-memory log describes [bl]. *)
Record log_at (l : log) (start nlog : Z) (bl : list Z) : Prop := {
  la_dev : log_dev l = ROOTDEV;
  la_start : log_start l = start;
  la_size : log_size l = nlog;
  la_n : lh_n (lh l) = Z.of_nat (length bl);
  la_len : length (lh_block (lh l)) = Z.to_nat LOGSIZE;
  la_block : take (length bl) (lh_block (lh l)) = bl;
}.

(** ** The loops *)

Section log_ops.
Context {D0 : Type} `{BlockDevLaws D0}.
Implicit Types (s : logsys D0) (D C : Z -> list Z) (dirty : gset Z).

Lemma wp_onbio {A} (m : M (bio D0) A) Q s :
  wp m (fun a c => Q a (set_cache c s)) (cache s) -> wp (onbio m) Q s.
Proof. apply wp_zoom. Qed.

(** The tail of both copy loops: dst->data = src->data; bwrite(dst);
    brelse(src); brelse(dst). *)
Lemma wp_copy s lru D C dirty held i j m n Q :
  bio_rep (cache s) lru D C dirty held -> held = {[m; n]} ->
  handle (cache s) i m -> handle (cache s) j n -> m <> n ->
  m ∈ dirty \/ C m = D m ->
  (forall lru' c, bio_rep c lru' (<[n := C m]> D) (<[n := C m]> C) (dirty ∖ {[n]}) ∅ ->
     same_env (cache s) c -> writes c = writes (cache s) ++ [(n, C m)] ->
     Q tt (set_cache c s)) ->
  wp (let* d := onbio (buf_data i) in
      onbio (buf_store j d) ;;; onbio (bwrite j) ;;; onbio (brelse i) ;;; onbio (brelse j)) Q s.
Proof.
  intros Hrep Hheld Hi Hj Hmn Hcl HQ.
  destruct (handle_buf _ _ _ _ _ _ _ _ Hrep Hi) as (b & _ & []).
  apply wp_bind, wp_onbio. eapply wp_buf_data; [done..|].
  apply wp_bind, wp_onbio. eapply wp_buf_store; [done..|by eapply (rep_size _ _ _ _ _ _ Hrep)|].
  simpl. intros c1 R1 [E1 K1] W1.
  apply wp_bind, wp_onbio. eapply wp_bwrite; [done|by apply K1|].
  simpl. intros c2 R2 [E2 K2] W2. rewrite fn_lookup_insert in R2, W2.
  apply wp_bind, wp_onbio. eapply wp_brelse; [done|by apply K2, K1| |].
  { destruct Hcl as [?|Hcl]; [left; set_solver|]. right.
    by rewrite !fn_lookup_insert_ne. }
  simpl. intros c3 l1 l2 _ R3 K3 E3 W3.
  apply wp_onbio. eapply wp_brelse; [done|by apply K3, K2, K1| |].
  { right. by rewrite !fn_lookup_insert. }
  simpl. intros c4 l3 l4 _ R4 K4 E4 W4.
  replace (held ∖ {[m]} ∖ {[n]}) with (∅ : gset Z) in R4 by set_solver.
  eapply HQ; [exact R4| |by rewrite W4, W3, W2, W1].
  destruct E1, E2, E3, E4. split; congruence.
Qed.

Lemma same_env_trans (c1 c2 c3 : bio D0) : same_env c1 c2 -> same_env c2 c3 -> same_env c1 c3.
Proof. intros [] []. split; congruence. Qed.

Lemma wp_get_lh_block l start nlog bl i b Q s :
  lg s = l -> log_at l start nlog bl -> bl !! i = Some b -> Q b s -> wp (get_lh_block i) Q s.
Proof.
  intros Hl Hla Hb HQ. unfold get_lh_block. apply wp_bind, wp_gets.
  eapply wp_from_some; [|exact HQ]. rewrite Hl. rewrite <- (la_block _ _ _ _ Hla) in Hb.
  by apply lookup_take_Some in Hb as [? _].
Qed.

(** The head of both copy loops: block i of the log and the i-th logged block. *)
Lemma wp_pair s lru D C dirty start nlog bl tail b (k : nat -> nat -> M (logsys D0) unit) Q :
  log_at (lg s) start nlog bl -> bl !! tail = Some b ->
  geometry (devrange (ide (cache s)) ROOTDEV) start nlog ->
  loggable (devrange (ide (cache s)) ROOTDEV) start nlog bl ->
  bio_rep (cache s) lru D C dirty ∅ -> (size (dirty ∪ {[b]}) < NBUF)%nat ->
  (forall c x y, bio_rep c lru D C dirty {[b; start + Z.of_nat tail + 1]} ->
     handle c x (start + Z.of_nat tail + 1) -> handle c y b ->
     same_env (cache s) c -> writes c = writes (cache s) ->
     wp (k x y) Q (set_cache c s)) ->
  wp (let* l := gets lg in
      let* x := onbio (bread (log_dev l) (u32 (log_start l + Z.of_nat tail + 1))) in
      let* blk := get_lh_block tail in
      let* y := onbio (bread (log_dev l) (u32 blk)) in
      k x y) Q s.
Proof.
  intros Hla Hb Hg Hlb Hrep Hsz HQ. set (a := start + Z.of_nat tail + 1) in *.
  pose proof (lookup_lt_Some _ _ _ Hb) as Hlt.
  destruct (lb_blocks _ _ _ _ Hlb b) as [Hrb Hnb]; [by eapply list_elem_of_lookup_2|].
  pose proof (lb_fits _ _ _ _ Hlb).
  assert (Hin : in_log start nlog a) by (unfold in_log, a; lia).
  assert (Hra : devrange (ide (cache s)) ROOTDEV a) by (by apply (geo_rng _ _ _ Hg)).
  assert (Hab : b <> a) by (by intros ->).
  assert (Hu : forall n, devrange (ide (cache s)) ROOTDEV n -> u32 n = n).
  { intros n Hn%(geo_int _ _ _ Hg). apply u32_small. unfold is_u32, W32. lia. }
  assert (Hsz2 : (size ({[a]} ∪ (dirty ∪ {[b]})) <= NBUF)%nat).
  { pose proof (size_add_one a (dirty ∪ {[b]})). lia. }
  apply wp_bind, wp_gets. rewrite (la_dev _ _ _ _ Hla), (la_start _ _ _ _ Hla).
  fold a. rewrite (Hu a) by done.
  apply wp_bind, wp_onbio. eapply wp_bread; [done|done|set_solver| |].
  { etrans; [apply subseteq_size|exact Hsz2]. set_solver. }
  intros x c1 R1 Hx _ E1 W1.
  apply wp_bind. eapply wp_get_lh_block; [done|simpl; exact Hla|done|].
  rewrite (Hu b) by done. apply wp_bind, wp_onbio. simpl.
  eapply wp_bread; [done|by rewrite (proj2 E1)|set_solver| |].
  { etrans; [apply subseteq_size|exact Hsz2]. set_solver. }
  intros y c2 R2 Hy K2 E2 W2. apply (HQ c2 x y).
  - replace {[b; a]} with ({[b]} ∪ ({[a]} ∪ ∅) : gset Z) by set_solver. done.
  - by apply K2.
  - done.
  - by eapply same_env_trans.
  - by rewrite W2, W1.
Qed.

(** What install_trans() and write_log() need of the state. *)
Record ready s (start nlog : Z) (bl : list Z) lru D C dirty : Prop := {
  rd_log : log_at (lg s) start nlog bl;
  rd_geo : geometry (devrange (ide (cache s)) ROOTDEV) start nlog;
  rd_bl : loggable (devrange (ide (cache s)) ROOTDEV) start nlog bl;
  rd_rep : bio_rep (cache s) lru D C dirty ∅;
  rd_dirty : forall n, in_log start nlog n -> n ∉ dirty;
  rd_cap : (size (dirty ∪ list_to_set bl) < NBUF)%nat;
}.

Lemma ready_env s start nlog bl lru D C dirty c lru' D' C' dirty' :
  ready s start nlog bl lru D C dirty -> same_env (cache s) c ->
  bio_rep c lru' D' C' dirty' ∅ -> dirty' ⊆ dirty ->
  ready (set_cache c s) start nlog bl lru' D' C' dirty'.
Proof.
  intros [] [_ E] Hrep Hd. split; simpl; rewrite ?E; try done.
  - set_solver.
  - eapply Nat.le_lt_trans; [apply subseteq_size|exact rd_cap0]. set_solver.
Qed.

(** The two blocks of iteration [k]. *)
Lemma ready_index s start nlog bl lru D C dirty k :
  ready s start nlog bl lru D C dirty -> (k < length bl)%nat ->
  exists b, bl !! k = Some b /\ b ∈ bl /\ ~ in_log start nlog b /\
    in_log start nlog (start + Z.of_nat k + 1) /\ (start + Z.of_nat k + 1 ∉ bl) /\
    take (1 + k) bl = take k bl ++ [b] /\ length (take k bl) = k /\
    forall dirty', dirty' ⊆ dirty -> (size (dirty' ∪ {[b]}) < NBUF)%nat.
Proof.
  intros [] Hk. destruct (lookup_lt_is_Some_2 bl k Hk) as [b Hb]. exists b.
  assert (Hbin : b ∈ bl) by (by eapply list_elem_of_lookup_2).
  pose proof (lb_blocks _ _ _ _ rd_bl0) as Hbl. pose proof (lb_fits _ _ _ _ rd_bl0).
  assert (Hin : in_log start nlog (start + Z.of_nat k + 1)) by (unfold in_log; lia).
  repeat split; try done.
  - by apply Hbl.
  - unfold in_log in Hin. lia.
  - unfold in_log in Hin. lia.
  - intros Hi. by apply (Hbl (start + Z.of_nat k + 1)).
  - by apply take_S_r.
  - apply length_take_le. lia.
  - intros dirty' Hd. eapply Nat.le_lt_trans; [apply subseteq_size|exact rd_cap0]. set_solver.
Qed.

Lemma wp_install_trans s start nlog bl lru D C dirty Q :
  ready s start nlog bl lru D C dirty ->
  (forall lru' c, let ws := install_ws start bl C in
     ready (set_cache c s) start nlog bl lru' (apply_writes ws D) (apply_writes ws C)
       (dirty ∖ list_to_set bl) ->
     same_env (cache s) c -> writes c = writes (cache s) ++ ws -> Q tt (set_cache c s)) ->
  wp install_trans Q s.
Proof.
  intros Hrd HQ. unfold install_trans. apply wp_bind, wp_gets.
  rewrite (la_n _ _ _ _ (rd_log _ _ _ _ _ _ _ _ Hrd)), Nat2Z.id.
  apply (wp_for_seq _ _ (fun k s' => exists lru' c, let ws := install_ws start (take k bl) C in
    s' = set_cache c s /\
    ready s' start nlog bl lru' (apply_writes ws D) (apply_writes ws C)
      (dirty ∖ list_to_set (take k bl)) /\
    same_env (cache s) c /\ writes c = writes (cache s) ++ ws)).
  - exists lru, (cache s). rewrite take_0. split; [by destruct s|]. simpl.
    rewrite difference_empty_L, app_nil_r. done.
  - intros k s' Hk (lru' & c & -> & Hrd' & E & W).
    destruct (ready_index _ _ _ _ _ _ _ _ _ Hrd Hk)
      as (b & Hb & Hbin & Hnl & Hin & Hni & Hts & Htl & Hcap).
    eapply wp_pair; [apply Hrd'|exact Hb|apply Hrd'|apply Hrd'|apply Hrd'| |].
    { apply Hcap. set_solver. }
    intros c' x y R' Hx Hy E' W'. simpl in E', W'.
    eapply wp_copy; [exact R'| |exact Hx|exact Hy|by intros <-| |].
    { set_solver. }
    { right. eapply (rep_clean _ _ _ _ _ _ (rd_rep _ _ _ _ _ _ _ _ Hrd')).
      - by apply (geo_rng _ _ _ (rd_geo _ _ _ _ _ _ _ _ Hrd')).
      - by apply Hrd'.
      - set_solver. }
    intros lru'' c'' R'' E'' W''. exists lru'', c''. simpl in *.
    rewrite Hts, install_ws_snoc, Htl, !apply_writes_snoc.
    rewrite (apply_writes_notin _ C (start + Z.of_nat k + 1)) in R'', W''
      by (rewrite install_ws_dom; intros ?%elem_of_take_1; done).
    replace (dirty ∖ list_to_set (take k bl ++ [b]))
      with (dirty ∖ list_to_set (take k bl) ∖ {[b]}) by set_solver.
    pose proof (same_env_trans _ _ _ E' E'') as E2.
    split; [done|]. split; [|split].
    + by eapply (ready_env _ _ _ _ _ _ _ _ c'' _ _ _ _ Hrd'); [| |set_solver].
    + by eapply same_env_trans.
    + by rewrite W'', W', W, app_assoc.
  - intros s' (lru' & c & -> & Hrd' & E & W). rewrite firstn_all in Hrd', W. by eapply HQ.
Qed.

Lemma wp_write_log s start nlog bl lru D C dirty Q :
  ready s start nlog bl lru D C dirty -> (forall b, b ∈ bl -> b ∈ dirty) ->
  (forall lru' c, let ws := log_ws start bl C in
     ready (set_cache c s) start nlog bl lru' (apply_writes ws D) (apply_writes ws C) dirty ->
     same_env (cache s) c -> writes c = writes (cache s) ++ ws -> Q tt (set_cache c s)) ->
  wp write_log Q s.
Proof.
  intros Hrd Hbd HQ. unfold write_log. apply wp_bind, wp_gets.
  rewrite (la_n _ _ _ _ (rd_log _ _ _ _ _ _ _ _ Hrd)), Nat2Z.id.
  apply (wp_for_seq _ _ (fun k s' => exists lru' c, let ws := log_ws start (take k bl) C in
    s' = set_cache c s /\
    ready s' start nlog bl lru' (apply_writes ws D) (apply_writes ws C) dirty /\
    same_env (cache s) c /\ writes c = writes (cache s) ++ ws)).
  - exists lru, (cache s). rewrite take_0. split; [by destruct s|]. simpl.
    by rewrite app_nil_r.
  - intros k s' Hk (lru' & c & -> & Hrd' & E & W).
    destruct (ready_index _ _ _ _ _ _ _ _ _ Hrd Hk)
      as (b & Hb & Hbin & Hnl & Hin & Hni & Hts & Htl & Hcap).
    eapply wp_pair; [apply Hrd'|exact Hb|apply Hrd'|apply Hrd'|apply Hrd'|by apply Hcap|].
    intros c' x y R' Hx Hy E' W'. simpl in E', W'.
    eapply wp_copy; [exact R'|done|exact Hy|exact Hx|by intros ->|left; by apply Hbd|].
    intros lru'' c'' R'' E'' W''. exists lru'', c''. simpl in *.
    rewrite Hts, log_ws_snoc, Htl, !apply_writes_snoc.
    rewrite (apply_writes_notin _ C b) in R'', W''
      by (rewrite log_ws_dom, Htl; unfold in_log in *; lia).
    replace (dirty ∖ {[start + Z.of_nat k + 1]}) with dirty in R''.
    2: { pose proof (rd_dirty _ _ _ _ _ _ _ _ Hrd _ Hin). set_solver. }
    pose proof (same_env_trans _ _ _ E' E'') as E2.
    split; [done|]. split; [|split].
    + by eapply (ready_env _ _ _ _ _ _ _ _ c'' _ _ _ _ Hrd').
    + by eapply same_env_trans.
    + by rewrite W'', W', W, app_assoc.
  - intros s' (lru' & c & -> & Hrd' & E & W). rewrite firstn_all in Hrd', W. by eapply HQ.
Qed.

Lemma fn_insert_insert (f : Z -> list Z) n a b m : (<[n := a]> f) m = (<[n := a]> (<[n := b]> f)) m.
Proof.
  destruct (decide (n = m)) as [->|]; [by rewrite !fn_lookup_insert|].
  by rewrite !fn_lookup_insert_ne.
Qed.

Lemma start_facts s start nlog bl lru D C dirty :
  ready s start nlog bl lru D C dirty ->
  in_log start nlog start /\ u32 start = start /\ devrange (ide (cache s)) ROOTDEV start /\
  length (C start) = Z.to_nat BSIZE /\ (4 + 4 * length bl <= Z.to_nat BSIZE)%nat /\
  (size ({[start]} ∪ dirty ∪ ∅) <= NBUF)%nat.
Proof.
  intros []. destruct rd_geo0, rd_bl0.
  assert (Hs : in_log start nlog start) by (unfold in_log; lia).
  assert (Hr : devrange (ide (cache s)) ROOTDEV start) by auto.
  split; [done|]. split; [|split; [done|]].
  { apply u32_small. unfold is_u32, W32. specialize (geo_int0 _ Hr). lia. }
  split; [by apply rd_rep0|]. split; [unfold NBUF, MAXOPBLOCKS, BSIZE in *; lia|].
  pose proof (size_add_one start dirty).
  pose proof (subseteq_size dirty (dirty ∪ list_to_set bl) ltac:(set_solver)).
  rewrite union_empty_r_L. lia.
Qed.

Lemma wp_write_head s start nlog bl lru D C dirty Q :
  ready s start nlog bl lru D C dirty ->
  (forall lru' c, let hd := enc_head bl (C start) in
     ready (set_cache c s) start nlog bl lru' (<[start := hd]> D) (<[start := hd]> C) dirty ->
     same_env (cache s) c -> writes c = writes (cache s) ++ [(start, hd)] -> Q tt (set_cache c s)) ->
  wp write_head Q s.
Proof.
  intros Hrd HQ. destruct (start_facts _ _ _ _ _ _ _ _ Hrd) as (Hin & Hu & Hrng & Hlen & Hfit & Hcap).
  pose proof (rd_log _ _ _ _ _ _ _ _ Hrd) as Hla.
  unfold write_head. apply wp_bind, wp_gets. rewrite (la_dev _ _ _ _ Hla), (la_start _ _ _ _ Hla), Hu.
  apply wp_bind, wp_onbio. eapply wp_bread; [apply Hrd|done|set_solver|done|].
  intros x c1 R1 H1 _ E1 W1. rewrite union_empty_r_L in R1.
  apply wp_bind, wp_onbio. eapply wp_buf_data; [done..|].
  apply wp_bind, wp_onbio. eapply wp_buf_store; [done..|by rewrite length_put_le; lia|].
  intros c2 R2 [E2 K2] W2. rewrite (la_n _ _ _ _ Hla), Nat2Z.id. simpl in *.
  apply wp_bind. apply (wp_for_seq _ _ (fun k s' => exists c, s' = set_cache c s /\
    bio_rep c lru D (<[start := enc_blocks bl k (C start)]> C) dirty {[start]} /\
    handle c x start /\ same_env (cache s) c /\ writes c = writes (cache s))).
  - exists c2. split; [done|]. cbn [enc_blocks]. rewrite <- (la_n _ _ _ _ Hla).
    split; [done|]. split; [by apply K2|]. split; [by eapply same_env_trans|congruence].
  - intros k s' Hk (c & -> & R & Hx & E & W).
    destruct (lookup_lt_is_Some_2 bl k Hk) as [b Hb].
    apply wp_bind. eapply wp_get_lh_block; [done|exact Hla|done|].
    apply wp_bind, wp_onbio. eapply wp_buf_data; [done..|]. simpl.
    apply wp_onbio. eapply wp_buf_store; [done..| |].
    { rewrite fn_lookup_insert. rewrite length_put_le; rewrite length_enc_blocks; lia. }
    intros c3 R3 [E3 K3] W3. simpl in *. exists c3. split; [done|]. split; [|split; [by apply K3|]].
    + eapply rep_ext; [..|exact R3]; [done|]. intros m. cbn [enc_blocks]. rewrite Hb. simpl default.
      rewrite fn_lookup_insert. apply fn_insert_insert.
    + split; [by eapply same_env_trans|congruence].
  - intros s' (c & -> & R & Hx & E & W).
    apply wp_bind, wp_onbio. eapply wp_bwrite; [done..|]. simpl.
    intros c3 R3 [E3 K3] W3. rewrite fn_lookup_insert in R3, W3.
    apply wp_onbio. eapply wp_brelse; [done|by apply K3|right; by rewrite !fn_lookup_insert|].
    simpl. intros c4 l1 l2 _ R4 _ E4 W4.
    pose proof (rd_dirty _ _ _ _ _ _ _ _ Hrd _ Hin) as Hsd.
    replace (dirty ∖ {[start]}) with dirty in R4 by set_solver.
    replace ({[start]} ∖ {[start]}) with (∅ : gset Z) in R4 by set_solver.
    assert (same_env (cache s) c4) by eauto using same_env_trans.
    eapply HQ; [|done|by rewrite W4, W3, W].
    by eapply (ready_env _ _ _ _ _ _ _ _ c4 _ _ _ _ Hrd).
Qed.

(** The writes of a whole commit, in order. *)
Definition commit_ws (start : Z) (bl : list Z) C : list (Z * list Z) :=
  match bl with
  | [] => []
  | _ =>
      let h := enc_head bl (C start) in
      log_ws start bl C ++ [(start, h)] ++ ((fun b => (b, C b)) <$> bl) ++
        [(start, enc_head [] h)]
  end.

Lemma ready_cleared s start nlog bl lru D C dirty :
  ready s start nlog bl lru D C dirty ->
  ready (set_lg (set_lh_n 0 (lg s)) s) start nlog [] lru D C dirty.
Proof.
  intros [[] ? [] ???]. split; simpl; try done.
  - split; simpl; try done.
    + constructor.
    + unfold NBUF, MAXOPBLOCKS. lia.
    + lia.
    + set_solver.
  - eapply Nat.le_lt_trans; [apply subseteq_size|exact rd_cap0]. set_solver.
Qed.

(** After write_log() and write_head(), installing copies each logged block. *)
Lemma install_ws_after_log start nlog rng bl C h :
  loggable rng start nlog bl ->
  install_ws start bl (<[start := h]> (apply_writes (log_ws start bl C) C)) =
  (fun b => (b, C b)) <$> bl.
Proof.
  intros Hlb. apply list_eq. intros i. unfold install_ws at 1.
  rewrite list_lookup_imap, list_lookup_fmap. destruct (bl !! i) as [b|] eqn:Hb; [|done].
  simpl. f_equal. f_equal. rewrite fn_lookup_insert_ne by lia.
  apply apply_writes_in; [apply log_ws_nodup|]. unfold log_ws. apply elem_of_lookup_imap. eauto.
Qed.

Lemma wp_commit s start nlog bl lru D C Q :
  ready s start nlog bl lru D C (list_to_set bl) ->
  (forall lru' c, let ws := commit_ws start bl C in
     let s' := mklogsys (set_lh_n 0 (lg s)) c in
     ready s' start nlog [] lru' (apply_writes ws D) (apply_writes ws C) ∅ ->
     same_env (cache s) c -> writes c = writes (cache s) ++ ws -> Q tt s') ->
  wp commit Q s.
Proof.
  intros Hrd HQ. pose proof (rd_log _ _ _ _ _ _ _ _ Hrd) as Hla.
  unfold commit. apply wp_bind, wp_gets. rewrite (la_n _ _ _ _ Hla).
  destruct (Z.ltb_spec 0 (Z.of_nat (length bl))).
  - assert (Hne : bl <> []) by (by intros ->).
    apply wp_bind. eapply wp_write_log; [exact Hrd|set_solver|].
    intros lru1 c1 ws1 R1 E1 W1. apply wp_bind. eapply wp_write_head; [exact R1|].
    intros lru2 c2 hd R2 E2 W2. apply wp_bind. eapply wp_install_trans; [exact R2|].
    intros lru3 c3 ws3 R3 E3 W3. apply wp_bind, wp_modify.
    eapply wp_write_head; [eapply ready_cleared, R3|].
    intros lru4 c4 hd4 R4 E4 W4. simpl in *.
    assert (Hws3 : ws3 = (fun b => (b, C b)) <$> bl).
    { eapply install_ws_after_log, Hrd. }
    assert (Hhd : hd = enc_head bl (C start)).
    { unfold hd, ws1. rewrite apply_writes_notin; [done|]. rewrite log_ws_dom. lia. }
    assert (Hst : start ∉ bl).
    { intros Hin. destruct (lb_blocks _ _ _ _ (rd_bl _ _ _ _ _ _ _ _ Hrd) _ Hin) as [_ Hn].
      apply Hn. pose proof (geo_nlog _ _ _ (rd_geo _ _ _ _ _ _ _ _ Hrd)). unfold in_log. lia. }
    assert (Hhd4 : hd4 = enc_head [] (enc_head bl (C start))).
    { unfold hd4. rewrite apply_writes_notin by (by unfold ws3; rewrite install_ws_dom).
      by rewrite fn_lookup_insert, Hhd. }
    assert (Hc : commit_ws start bl C = ws1 ++ [(start, hd)] ++ ws3 ++ [(start, hd4)]).
    { rewrite Hws3, Hhd4, Hhd. unfold commit_ws. by destruct bl. }
    eapply HQ; simpl.
    + rewrite Hc, !apply_writes_app. replace (list_to_set bl ∖ list_to_set bl) with (∅ : gset Z)
        in R4 by set_solver. exact R4.
    + eauto using same_env_trans.
    + rewrite W4, W3, W2, W1, Hc. by rewrite <- !app_assoc.
  - destruct bl as [|? bl]; [|simpl in *; lia]. apply wp_ret.
    specialize (HQ lru (cache s)). simpl in HQ.
    destruct s as [[??????[n blk]] c]. simpl in *. destruct Hla. simpl in *. subst n.
    apply HQ; [done|done|by rewrite app_nil_r].
Qed.

(** ** Recovery *)

(** A header that recovery can replay. *)
Definition hdr_ok (rng : Z -> Prop) (start nlog : Z) (b : list Z) : Prop :=
  0 <= hdr_n b /\ loggable rng start nlog (hdr_list b).

(** The machine after a boot, before recover_from_log(): nothing is dirty and
    the geometry has been read from the super block. *)
Record booted s (start nlog : Z) lru D : Prop := {
  bt_dev : log_dev (lg s) = ROOTDEV;
  bt_start : log_start (lg s) = start;
  bt_size : log_size (lg s) = nlog;
  bt_len : length (lh_block (lh (lg s))) = Z.to_nat LOGSIZE;
  bt_geo : geometry (devrange (ide (cache s)) ROOTDEV) start nlog;
  bt_hdr : hdr_ok (devrange (ide (cache s)) ROOTDEV) start nlog (D start);
  bt_rep : bio_rep (cache s) lru D D ∅ ∅;
}.

Definition recover_ws (start : Z) D : list (Z * list Z) :=
  install_ws start (hdr_list (D start)) D ++ [(start, enc_head [] (D start))].

Lemma wp_set_lh_block i v Q s :
  (i < length (lh_block (lh (lg s))))%nat ->
  Q tt (set_lg (set_lh (mklh (lh_n (lh (lg s))) (<[i := v]> (lh_block (lh (lg s))))) (lg s)) s) ->
  wp (set_lh_block i v) Q s.
Proof.
  intros Hi HQ. destruct (lookup_lt_is_Some_2 _ _ Hi) as [b Hb].
  unfold set_lh_block. apply wp_bind, wp_gets. apply wp_bind. eapply wp_from_some; [exact Hb|].
  by apply wp_modify.
Qed.

Lemma wp_read_head s start nlog lru D Q :
  booted s start nlog lru D ->
  (forall lru' c h, let bl := hdr_list (D start) in
     let s' := mklogsys (set_lh h (lg s)) c in
     ready s' start nlog bl lru' D D ∅ -> same_env (cache s) c ->
     writes c = writes (cache s) -> Q tt s') ->
  wp read_head Q s.
Proof.
  intros [] HQ. destruct bt_hdr0 as [Hn0 Hlb].
  set (bl := hdr_list (D start)) in *.
  assert (Hbl : length bl = Z.to_nat (hdr_n (D start))).
  { unfold bl, hdr_list. by rewrite length_fmap, length_seq. }
  assert (Hs : in_log start nlog start) by (destruct bt_geo0; unfold in_log; lia).
  assert (Hr : devrange (ide (cache s)) ROOTDEV start) by (by apply (geo_rng _ _ _ bt_geo0)).
  assert (Hu : u32 start = start).
  { apply u32_small. unfold is_u32, W32. pose proof (geo_int _ _ _ bt_geo0 _ Hr). lia. }
  pose proof (lb_small _ _ _ _ Hlb) as Hsm.
  unfold read_head. apply wp_bind, wp_gets. rewrite bt_dev0, bt_start0, Hu.
  apply wp_bind, wp_onbio. eapply wp_bread; [done|done|set_solver| |].
  { rewrite !union_empty_r_L, size_singleton. unfold NBUF, MAXOPBLOCKS. lia. }
  intros x c1 R1 H1 _ E1 W1.
  apply wp_bind, wp_onbio. eapply wp_buf_data; [done..|].
  apply wp_bind, wp_modify. apply wp_bind. rewrite <- Hbl. simpl.
  apply (wp_for_seq _ _ (fun k s' => exists h, s' = mklogsys (set_lh h (lg s)) c1 /\
    lh_n h = hdr_n (D start) /\ length (lh_block h) = Z.to_nat LOGSIZE /\
    take k (lh_block h) = take k bl)).
  - eexists. split; [reflexivity|]. simpl. done.
  - intros k s' Hk (h & -> & Hn & Hl & Ht).
    apply wp_set_lh_block; simpl; [rewrite Hl; unfold NBUF, LOGSIZE in *; lia|].
    eexists. split; [reflexivity|]. simpl. split; [done|]. rewrite length_insert. split; [done|].
    destruct (lookup_lt_is_Some_2 bl k Hk) as [b Hb].
    rewrite (take_S_r bl k b), <- Ht by done.
    assert (Hbk : hdr_block (D start) k = b).
    { unfold bl, hdr_list in Hb. rewrite list_lookup_fmap, lookup_seq_lt in Hb by lia.
      by injection Hb. }
    rewrite Hbk. erewrite take_S_r.
    + f_equal. apply take_insert_ge. lia.
    + apply list_lookup_insert_eq. rewrite Hl. unfold NBUF, LOGSIZE in *. lia.
  - intros s' (h & -> & Hn & Hl & Ht). rewrite firstn_all in Ht.
    apply wp_onbio. simpl. eapply wp_brelse; [done..|by right|].
    intros c2 l1 l2 _ R2 _ E2 W2.
    replace (({[start]} ∪ ∅) ∖ {[start]}) with (∅ : gset Z) in R2 by set_solver.
    assert (Hee : same_env (cache s) c2) by eauto using same_env_trans.
    eapply HQ; [|done|congruence]. split; simpl; rewrite ?(proj2 Hee); try done.
    + split; simpl; try done. rewrite Hn, Hbl. lia.
    + rewrite union_empty_l_L, size_list_to_set; [done|apply Hlb].
Qed.

Lemma wp_recover_from_log s start nlog lru D Q :
  booted s start nlog lru D ->
  (forall lru' c h, let ws := recover_ws start D in
     let s' := mklogsys (set_lh h (lg s)) c in
     ready s' start nlog [] lru' (apply_writes ws D) (apply_writes ws D) ∅ ->
     same_env (cache s) c -> writes c = writes (cache s) ++ ws -> Q tt s') ->
  wp recover_from_log Q s.
Proof.
  intros Hbt HQ. unfold recover_from_log. apply wp_bind.
  eapply wp_read_head; [exact Hbt|]. intros lru1 c1 h1 bl s1 R1 E1 W1.
  apply wp_bind. eapply wp_install_trans; [exact R1|]. intros lru2 c2 ws2 R2 E2 W2.
  apply wp_bind, wp_modify. eapply wp_write_head; [eapply ready_cleared, R2|].
  intros lru3 c3 hd R3 E3 W3. simpl in *.
  assert (Hst : start ∉ bl).
  { intros Hin. destruct (lb_blocks _ _ _ _ (rd_bl _ _ _ _ _ _ _ _ R1) _ Hin) as [_ Hn].
    apply Hn. pose proof (geo_nlog _ _ _ (bt_geo _ _ _ _ _ Hbt)). unfold in_log. lia. }
  assert (Hhd : hd = enc_head [] (D start)).
  { unfold hd. rewrite apply_writes_notin; [done|]. unfold ws2. by rewrite install_ws_dom. }
  assert (Hws : recover_ws start D = ws2 ++ [(start, hd)]) by (by rewrite Hhd).
  eapply (HQ lru3 c3 (mklh 0 (lh_block h1))); simpl.
  - rewrite Hws, !apply_writes_app. replace (∅ ∖ list_to_set bl) with (∅ : gset Z) in R3
      by set_solver. exact R3.
  - eauto using same_env_trans.
  - rewrite W3, W2, W1, Hws. by rewrite <- !app_assoc.
Qed.

End log_ops.

Lemma commit_ws_dom start nlog rng bl C n :
  loggable rng start nlog bl -> n ∈ (commit_ws start bl C).*1 -> in_log start nlog n \/ n ∈ bl.
Proof.
  intros Hlb. unfold commit_ws. pose proof (lb_fits _ _ _ _ Hlb).
  assert (Hst : in_log start nlog start) by (unfold in_log; lia).
  destruct bl as [|b bl]; [set_solver|]. rewrite !fmap_app, !elem_of_app, <- list_fmap_compose.
  intros [Hn%log_ws_dom|[->%list_elem_of_singleton|[Hn| ->%list_elem_of_singleton]]]; auto.
  - left. unfold in_log. lia.
  - right. rewrite list_fmap_id in Hn; done.
Qed.

(** ** Crash points *)

(** Two disks agree outside the log. *)
Definition same_home (rng : Z -> Prop) (start nlog : Z) (D D' : Z -> list Z) : Prop :=
  forall n, rng n -> ~ in_log start nlog n -> D n = D' n.

(** The disk that recovery produces. *)
Definition recovered (start : Z) (D : Z -> list Z) : Z -> list Z :=
  apply_writes (recover_ws start D) D.

Lemma prefix_app_cases {A} (p l1 l2 : list A) :
  p `prefix_of` l1 ++ l2 -> p `prefix_of` l1 \/ exists p2, p = l1 ++ p2 /\ p2 `prefix_of` l2.
Proof.
  intros [r Hr]. apply app_eq_app in Hr as (q & [[-> ->]|[-> ->]]).
  - left. by exists q.
  - right. exists q. split; [done|]. by exists r.
Qed.

Lemma prefix_cons_cases {A} (p : list A) x l :
  p `prefix_of` x :: l -> p = [] \/ exists q, p = x :: q /\ q `prefix_of` l.
Proof.
  destruct p as [|y p]; [by left|]. intros Hp. right.
  pose proof (prefix_cons_inv_1 _ _ _ _ Hp) as ->. apply prefix_cons_inv_2 in Hp. eauto.
Qed.

Lemma prefix_fmap {A B} (f : A -> B) (l : list A) p :
  p `prefix_of` f <$> l -> exists l1, l1 `prefix_of` l /\ p = f <$> l1.
Proof.
  intros [r Hr]. apply fmap_app_inv in Hr as (l1 & l2 & -> & -> & ->).
  exists l1. split; [by exists l2|done].
Qed.

Lemma prefix_elem {A} (l1 l2 : list A) x : l1 `prefix_of` l2 -> x ∈ l1 -> x ∈ l2.
Proof. intros [r ->]. set_solver. Qed.

Section crash.
Context (rng : Z -> Prop) (start nlog : Z) (Hgeo : geometry rng start nlog).
Implicit Types (D C : Z -> list Z) (bl : list Z) (p : list (Z * list Z)).

Lemma start_in_log : in_log start nlog start.
Proof. destruct Hgeo. unfold in_log. lia. Qed.

Lemma home_ne_start n : ~ in_log start nlog n -> n <> start.
Proof. intros Hn ->. apply Hn, start_in_log. Qed.

(** What recovery leaves in a home block. *)
Lemma recovered_logged D i b :
  loggable rng start nlog (hdr_list (D start)) -> hdr_list (D start) !! i = Some b ->
  recovered start D b = D (start + Z.of_nat i + 1).
Proof.
  intros Hlb Hb. unfold recovered, recover_ws. rewrite apply_writes_snoc.
  destruct (lb_blocks _ _ _ _ Hlb b) as [_ Hn]; [by eapply list_elem_of_lookup_2|].
  rewrite fn_lookup_insert_ne by (by apply not_eq_sym, home_ne_start).
  apply apply_writes_in; [rewrite install_ws_dom; apply Hlb|].
  unfold install_ws. apply elem_of_lookup_imap. eauto.
Qed.

Lemma recovered_other D n :
  n ∉ hdr_list (D start) -> ~ in_log start nlog n -> recovered start D n = D n.
Proof.
  intros Hn Hl. unfold recovered, recover_ws. rewrite apply_writes_snoc.
  rewrite fn_lookup_insert_ne by (by apply not_eq_sym, home_ne_start).
  apply apply_writes_notin. by rewrite install_ws_dom.
Qed.

(** An empty header: recovery changes no home block. *)
Lemma recovered_empty D : hdr_n (D start) = 0 -> same_home rng start nlog (recovered start D) D.
Proof.
  intros Hn n _ Hl. apply recovered_other; [|done]. unfold hdr_list. rewrite Hn. set_solver.
Qed.

Lemma loggable_nil : loggable rng start nlog [].
Proof.
  destruct Hgeo. split; [constructor|unfold NBUF, MAXOPBLOCKS; simpl; lia|simpl; lia|set_solver].
Qed.

Lemma hdr_ok_empty b : hdr_n b = 0 -> hdr_ok rng start nlog b.
Proof.
  intros Hn. split; [lia|]. unfold hdr_list. rewrite Hn. apply loggable_nil.
Qed.

Lemma hdr_n_erased b : length b = Z.to_nat BSIZE -> hdr_n (enc_head [] b) = 0.
Proof. intros Hb. apply (hdr_n_enc [] 0); simpl; [|lia]. rewrite Hb. unfold BSIZE. lia. Qed.

(** A header that recovery can replay and that names blocks of [bl] only. *)
Definition hdr_within bl (b : list Z) : Prop :=
  hdr_ok rng start nlog b /\ forall n, n ∈ hdr_list b -> n ∈ bl.

Lemma hdr_within_empty bl b : hdr_n b = 0 -> hdr_within bl b.
Proof.
  intros Hn. split; [by apply hdr_ok_empty|]. unfold hdr_list. rewrite Hn. set_solver.
Qed.

(** What a commit starts from: an empty header on the disk, and a logical
    content that differs from the disk in the logged blocks only. *)
Record precommit bl D C : Prop := {
  pc_bl : loggable rng start nlog bl;
  pc_hdr : hdr_n (D start) = 0;
  pc_len : length (C start) = Z.to_nat BSIZE;
  pc_same : forall n, rng n -> n ∉ bl -> C n = D n;
}.

(** Before the header is written: the old contents. *)
Lemma crash_before bl D C p :
  precommit bl D C -> p `prefix_of` log_ws start bl C ->
  let D' := apply_writes p D in
  hdr_within bl (D' start) /\ same_home rng start nlog (recovered start D') D.
Proof.
  intros [] Hp D'. assert (Hdom : forall n, n ∈ p.*1 -> start < n < start + nlog).
  { intros n Hn. pose proof (lb_fits _ _ _ _ pc_bl0).
    assert (n ∈ (log_ws start bl C).*1) as Hn'%log_ws_dom; [|lia].
    apply list_elem_of_fmap in Hn as (w & -> & Hw). apply list_elem_of_fmap. exists w.
    split; [done|]. by eapply prefix_elem. }
  assert (Hs : D' start = D start).
  { apply apply_writes_notin. intros Hn%Hdom. lia. }
  rewrite Hs. split; [by apply hdr_within_empty|]. intros n Hr Hl.
  rewrite recovered_empty; [|by rewrite Hs|done|done].
  apply apply_writes_notin. intros Hn%Hdom. apply Hl. unfold in_log. lia.
Qed.

(** The blocks of the log and the header after write_log() and write_head(). *)
Lemma after_head bl D C bl1 (D' := apply_writes (log_ws start bl C ++
    [(start, enc_head bl (C start))] ++ ((fun b => (b, C b)) <$> bl1)) D) :
  precommit bl D C -> bl1 `prefix_of` bl ->
  D' start = enc_head bl (C start) /\
  (forall i b, bl !! i = Some b -> D' (start + Z.of_nat i + 1) = C b) /\
  (forall n, rng n -> ~ in_log start nlog n -> n ∉ bl \/ n ∈ bl1 -> D' n = C n).
Proof.
  intros [] [bl2 Hp]. pose proof (lb_fits _ _ _ _ pc_bl0) as Hf.
  assert (Hd1 : ((fun b => (b, C b)) <$> bl1).*1 = bl1).
  { rewrite <- list_fmap_compose. by apply list_fmap_id. }
  assert (Hnb : forall n, n ∈ bl1 -> ~ in_log start nlog n).
  { intros n Hn. eapply (lb_blocks _ _ _ _ pc_bl0). rewrite Hp. set_solver. }
  assert (Hnl : forall n, in_log start nlog n -> n ∉ bl1) by (intros n Hn Hi; by apply (Hnb n)).
  unfold D'. rewrite !apply_writes_app. cbn [apply_writes foldl fst snd].
  split; [|split].
  - etrans; [apply apply_writes_notin; rewrite Hd1; apply Hnl, start_in_log|].
    by rewrite fn_lookup_insert.
  - intros i b Hb. pose proof (lookup_lt_Some _ _ _ Hb).
    etrans; [apply apply_writes_notin; rewrite Hd1; apply Hnl; unfold in_log; lia|].
    rewrite fn_lookup_insert_ne by lia. apply apply_writes_in; [apply log_ws_nodup|].
    unfold log_ws. apply elem_of_lookup_imap. eauto.
  - intros n Hr Hl Hn. destruct (decide (n ∈ bl1)) as [Hin|Hin].
    + apply apply_writes_in.
      * rewrite Hd1. pose proof (lb_nodup _ _ _ _ pc_bl0) as Hnd. rewrite Hp in Hnd.
        by apply NoDup_app in Hnd as [? _].
      * apply list_elem_of_fmap. eauto.
    + etrans; [apply apply_writes_notin; by rewrite Hd1|].
      rewrite fn_lookup_insert_ne by (by apply not_eq_sym, home_ne_start).
      etrans; [apply apply_writes_notin|symmetry; apply pc_same0; tauto].
      rewrite log_ws_dom. unfold in_log in Hl. lia.
Qed.

(** From the header write on: the new contents. *)
Lemma crash_after bl D C bl1 :
  precommit bl D C -> bl1 `prefix_of` bl ->
  let D' := apply_writes (log_ws start bl C ++
    [(start, enc_head bl (C start))] ++ ((fun b => (b, C b)) <$> bl1)) D in
  hdr_within bl (D' start) /\ same_home rng start nlog (recovered start D') C.
Proof.
  intros Hpc Hp D'. destruct (after_head bl D C bl1 Hpc Hp) as (Hs & Hlog & Hhome).
  fold D' in Hs, Hlog, Hhome. destruct Hpc.
  assert (Hl : hdr_list (D' start) = bl).
  { rewrite Hs. apply hdr_list_enc; [done|apply pc_bl0|]. apply Forall_forall. intros b Hb.
    by apply (geo_int _ _ _ Hgeo), (lb_blocks _ _ _ _ pc_bl0). }
  split.
  - split; [|by rewrite Hl]. split; [|by rewrite Hl]. rewrite Hs. unfold enc_head.
    pose proof (lb_small _ _ _ _ pc_bl0). unfold NBUF, MAXOPBLOCKS in *.
    rewrite hdr_n_enc; [lia| |lia]. rewrite pc_len0. unfold BSIZE. lia.
  - intros n Hr Hn. destruct (decide (n ∈ bl)) as [Hin|Hin].
    + apply list_elem_of_lookup in Hin as [i Hi]. rewrite <- (Hlog i n) by done.
      apply recovered_logged; rewrite Hl; done.
    + rewrite recovered_other by (rewrite ?Hl; done). apply Hhome; auto.
Qed.

Lemma commit_ws_split bl C :
  bl <> [] -> commit_ws start bl C = (log_ws start bl C ++ [(start, enc_head bl (C start))] ++
    ((fun b => (b, C b)) <$> bl)) ++ [(start, enc_head [] (enc_head bl (C start)))].
Proof. unfold commit_ws. destruct bl; [done|]. intros _. by rewrite <- !app_assoc. Qed.

(** After the last write the log is empty again. *)
Lemma crash_done bl D C :
  precommit bl D C -> let D' := apply_writes (commit_ws start bl C) D in
  hdr_n (D' start) = 0 /\ same_home rng start nlog D' C.
Proof.
  intros Hpc. destruct (decide (bl = [])) as [->|Hne].
  { destruct Hpc. split; [done|]. intros n Hr _. simpl. symmetry. apply pc_same0; set_solver. }
  rewrite commit_ws_split, apply_writes_snoc by done.
  destruct (after_head bl D C bl Hpc) as (Hs & _ & Hhome); [done|].
  split.
  - rewrite fn_lookup_insert. apply hdr_n_erased. unfold enc_head at 1.
    destruct Hpc. rewrite length_enc_blocks, pc_len0; [done|].
    pose proof (lb_small _ _ _ _ pc_bl0). unfold NBUF, MAXOPBLOCKS, BSIZE in *. lia.
  - intros n Hr Hl. rewrite fn_lookup_insert_ne by (by apply not_eq_sym, home_ne_start).
    apply Hhome; [done|done|]. destruct (decide (n ∈ bl)); auto.
Qed.

(** Every crash point of a commit. *)
Lemma crash_atomic_ws bl D C p :
  precommit bl D C -> p `prefix_of` commit_ws start bl C ->
  let D' := apply_writes p D in
  hdr_within bl (D' start) /\
  (same_home rng start nlog (recovered start D') D \/
   same_home rng start nlog (recovered start D') C).
Proof.
  intros Hpc Hp D'. destruct (decide (bl = [])) as [->|Hne].
  { apply prefix_nil_inv in Hp as ->. destruct Hpc. unfold D'; simpl.
    split; [by apply hdr_within_empty|]. left. by apply recovered_empty. }
  pose proof (commit_ws_split bl C Hne) as Hws.
  rewrite Hws in Hp. apply prefix_app_cases in Hp as [Hp|(q & -> & Hq)].
  - apply prefix_app_cases in Hp as [Hp|(q & -> & Hq)].
    { destruct (crash_before _ _ _ _ Hpc Hp) as [??]. auto. }
    apply prefix_cons_cases in Hq as [->|(q' & -> & Hq')].
    { unfold D'. rewrite app_nil_r. destruct (crash_before bl D C (log_ws start bl C) Hpc) as [??]; auto. }
    apply prefix_fmap in Hq' as (bl1 & Hbl1 & ->).
    destruct (crash_after _ _ _ _ Hpc Hbl1) as [??]. auto.
  - apply prefix_cons_cases in Hq as [->|(q' & -> & ->%prefix_nil_inv)].
    { unfold D'. rewrite app_nil_r. destruct (crash_after bl D C bl Hpc) as [??]; auto. }
    unfold D'. rewrite <- Hws. destruct (crash_done _ _ _ Hpc) as [Hn Hh].
    split; [by apply hdr_within_empty|]. right. intros n Hr Hl.
    rewrite <- Hh by done. by apply recovered_empty.
Qed.

(** Any writes to logged blocks leave what recovery replays. *)
Lemma partial_install D p :
  hdr_ok rng start nlog (D start) -> (forall n, n ∈ p.*1 -> n ∈ hdr_list (D start)) ->
  let D' := apply_writes p D in
  hdr_within (hdr_list (D start)) (D' start) /\
  same_home rng start nlog (recovered start D') (recovered start D).
Proof.
  intros [Hn Hlb] Hdom D'. set (bl := hdr_list (D start)) in *.
  assert (Hlog : forall n, in_log start nlog n -> D' n = D n).
  { intros n Hl. apply apply_writes_notin. intros Hin%Hdom. by apply (lb_blocks _ _ _ _ Hlb n). }
  assert (Hs : D' start = D start) by apply Hlog, start_in_log.
  rewrite Hs. split; [by split; [split|auto]|]. intros n Hr Hl. destruct (decide (n ∈ bl)) as [Hin|Hin].
  - apply list_elem_of_lookup in Hin as [i Hi]. pose proof (lookup_lt_Some _ _ _ Hi).
    pose proof (lb_fits _ _ _ _ Hlb).
    rewrite !(recovered_logged _ i n) by (rewrite ?Hs; done). apply Hlog. unfold in_log. lia.
  - rewrite !recovered_other by (rewrite ?Hs; done). apply apply_writes_notin. auto.
Qed.

(** A crash during recovery: the next recovery gives the same home blocks. *)
Lemma recover_crash_ws D p :
  hdr_ok rng start nlog (D start) -> length (D start) = Z.to_nat BSIZE ->
  p `prefix_of` recover_ws start D ->
  let D' := apply_writes p D in
  hdr_within (hdr_list (D start)) (D' start) /\
  same_home rng start nlog (recovered start D') (recovered start D).
Proof.
  intros Hok Hlen Hp. apply prefix_app_cases in Hp as [Hp|(q & -> & Hq)].
  { apply partial_install; [done|]. intros n Hin.
    rewrite <- (install_ws_dom start (hdr_list (D start)) D).
    apply list_elem_of_fmap in Hin as (w & -> & Hw). apply list_elem_of_fmap. exists w.
    split; [done|]. by eapply prefix_elem. }
  apply prefix_cons_cases in Hq as [->|(q' & -> & ->%prefix_nil_inv)].
  { apply partial_install; [done|]. intros n. by rewrite app_nil_r, install_ws_dom. }
  change (install_ws start (hdr_list (D start)) D ++ [(start, enc_head [] (D start))])
    with (recover_ws start D).
  fold (recovered start D). intros D'. assert (Hz : hdr_n (D' start) = 0).
  { unfold D', recovered, recover_ws. rewrite apply_writes_snoc, fn_lookup_insert.
    by apply hdr_n_erased. }
  split; [by apply hdr_within_empty|]. by apply recovered_empty.
Qed.

End crash.
