(* ===== verification/Tx.v ===== *)
(** The interface between fs.c and the two layers below it (bio.c, log.c): the
    view of the disk that a system call works on inside a transaction, the
    laws of each operation on it, and the proof that log.c over bio.c obeys
    them. *)

From stdpp Require Import functions.
From S2P Require Import Prelude Params Bytes Buf Bio BioSpec Log LogSpec.

(** ** The view

    [content] is what a reader of a block sees and [base] what the last
    committed transaction left; [logged] are the blocks given to log_write()
    since, [held] the buffers that the process holds, by block, [touched] the
    blocks written in memory and not yet given to log_write(), and [opens] the
    number of system calls in the transaction. *)

Record view := mkview {
  range : Z -> Prop;
  limit : nat;
  base : Z -> list Z;
  content : Z -> list Z;
  logged : gset Z;
  held : gmap Z nat;
  touched : gset Z;
  opens : Z;
}.

Definition hold (n : Z) (i : nat) (v : view) : view :=
  mkview (range v) (limit v) (base v) (content v) (logged v) (<[n := i]> (held v)) (touched v) (opens v).
Definition unhold (n : Z) (v : view) : view :=
  mkview (range v) (limit v) (base v) (content v) (logged v) (delete n (held v)) (touched v) (opens v).
Definition write (n : Z) (d : list Z) (v : view) : view :=
  mkview (range v) (limit v) (base v) (<[n := d]> (content v)) (logged v) (held v) ({[n]} ∪ touched v) (opens v).
Definition record (n : Z) (v : view) : view :=
  mkview (range v) (limit v) (base v) (content v) ({[n]} ∪ logged v) (held v) (touched v ∖ {[n]}) (opens v).

(** Reading one more block keeps the cache from overflowing. *)
Definition fits (n : Z) (v : view) : Prop :=
  (size ({[n]} ∪ logged v ∪ dom (held v)) <= NBUF)%nat.

Class TxLaws (S : Type) `{TxLayer S} : Type := {
  viewed : S -> view -> Prop;
  law_read : forall s v n Q,
    viewed s v -> range v n -> held v !! n = None -> fits n v ->
    (forall i s', viewed s' (hold n i v) -> Q i s') -> wp (bl_read ROOTDEV n) Q s;
  law_data : forall s v n i Q,
    viewed s v -> held v !! n = Some i -> Q (content v n) s -> wp (bl_data i) Q s;
  law_store : forall s v n i d Q,
    viewed s v -> held v !! n = Some i -> length d = Z.to_nat BSIZE ->
    (forall s', viewed s' (write n d v) -> Q tt s') -> wp (bl_store i d) Q s;
  law_log_write : forall s v n i Q,
    viewed s v -> held v !! n = Some i -> (size (logged v) < limit v)%nat ->
    (forall s', viewed s' (record n v) -> Q tt s') -> wp (bl_log_write i) Q s;
  law_release : forall s v n i Q,
    viewed s v -> held v !! n = Some i -> n ∉ touched v ->
    (forall s', viewed s' (unhold n v) -> Q tt s') -> wp (bl_release i) Q s;
  law_size : forall s v n,
    viewed s v -> range v n -> length (content v n) = Z.to_nat BSIZE;
  law_limit : forall s v, viewed s v -> (limit v < NBUF)%nat;
}.

(** ** log.c over bio.c *)

(** The super block locates the log. *)
Record sb_at (rng : Z -> Prop) (start nlog : Z) (D : Z -> list Z) : Prop := {
  sa_start : s32 (sb_logstart (decode_sb (D 1))) = start;
  sa_nlog : s32 (sb_nlog (decode_sb (D 1))) = nlog;
  sa_one : rng 1;
  sa_home : ~ in_log start nlog 1;
  sa_size : nlog <= LOGSIZE;
}.

Lemma sb_at_ext rng start nlog D D' : sb_at rng start nlog D -> D' 1 = D 1 -> sb_at rng start nlog D'.
Proof. intros [] E. split; rewrite ?E; done. Qed.

Section log_tx.
Context {D0 : Type} `{BlockDevLaws D0}.
Implicit Types (s : logsys D0) (v : view).

(** A process is inside a transaction. *)
Record log_viewed s v (start nlog : Z) (bl : list Z) (lru : list nat) (D : Z -> list Z) : Prop := {
  lv_log : log_at (lg s) start nlog bl;
  lv_lock : log_lock (lg s) = false;
  lv_open : outstanding (lg s) = opens v /\ 1 <= opens v;
  lv_commit : committing (lg s) = false;
  lv_limit : Z.of_nat (limit v) = nlog - 1;
  lv_geo : geometry (devrange (ide (cache s)) ROOTDEV) start nlog;
  lv_bl : loggable (devrange (ide (cache s)) ROOTDEV) start nlog bl;
  lv_logged : logged v = list_to_set bl;
  lv_range : forall n, range v n <-> devrange (ide (cache s)) ROOTDEV n /\ ~ in_log start nlog n;
  lv_rep : bio_rep (cache s) lru D (content v) (logged v) (dom (held v));
  lv_handles : forall n i, held v !! n = Some i -> range v n /\ handle (cache s) i n;
  lv_touched : touched v ⊆ dom (held v);
  lv_base : forall n, range v n -> D n = base v n;
  lv_same : forall n, devrange (ide (cache s)) ROOTDEV n -> n ∉ logged v -> n ∉ touched v ->
    content v n = D n;
  lv_hdr : hdr_n (D start) = 0;
  lv_sb : sb_at (devrange (ide (cache s)) ROOTDEV) start nlog D;
}.

Definition in_tx s v : Prop := exists start nlog bl lru D, log_viewed s v start nlog bl lru D.

Lemma held_dom v n i : held v !! n = Some i -> n ∈ dom (held v).
Proof. intros Hn. by apply elem_of_dom_2 in Hn. Qed.

Lemma tx_read s v n Q :
  in_tx s v -> range v n -> held v !! n = None -> fits n v ->
  (forall i s', in_tx s' (hold n i v) -> Q i s') -> wp (onbio (bread ROOTDEV n)) Q s.
Proof.
  intros (start & nlog & bl & lru & D & []) Hr Hn Hf HQ.
  apply wp_onbio. eapply wp_bread; [exact lv_rep0|by apply lv_range0|by apply not_elem_of_dom|done|].
  intros i c R Hi K [E1 E2] W. apply HQ. exists start, nlog, bl, lru, D.
  split; simpl; rewrite ?E2; try done.
  - by rewrite dom_insert_L.
  - intros m j. rewrite lookup_insert_Some. intros [[<- <-]|[_ Hm]]; [done|].
    destruct (lv_handles0 _ _ Hm). auto.
  - rewrite dom_insert_L. set_solver.
Qed.

Lemma tx_data s v n i Q :
  in_tx s v -> held v !! n = Some i -> Q (content v n) s -> wp (onbio (buf_data i)) Q s.
Proof.
  intros (start & nlog & bl & lru & D & []) Hn HQ. apply wp_onbio.
  eapply wp_buf_data; [done|by eapply lv_handles0|]. by destruct s.
Qed.

Lemma tx_store s v n i d Q :
  in_tx s v -> held v !! n = Some i -> length d = Z.to_nat BSIZE ->
  (forall s', in_tx s' (write n d v) -> Q tt s') -> wp (onbio (buf_store i d)) Q s.
Proof.
  intros (start & nlog & bl & lru & D & []) Hn Hd HQ. destruct (lv_handles0 _ _ Hn) as [Hr Hi].
  apply wp_onbio. eapply wp_buf_store; [done..|]. intros c R [[E1 E2] K] W.
  apply HQ. exists start, nlog, bl, lru, D. split; simpl; rewrite ?E2; try done.
  - intros m j Hm. destruct (lv_handles0 _ _ Hm). auto.
  - apply held_dom in Hn. set_solver.
  - intros m Hm Hl Ht. rewrite fn_lookup_insert_ne by set_solver. apply lv_same0; set_solver.
Qed.

Lemma tx_release s v n i Q :
  in_tx s v -> held v !! n = Some i -> n ∉ touched v ->
  (forall s', in_tx s' (unhold n v) -> Q tt s') -> wp (onbio (brelse i)) Q s.
Proof.
  intros (start & nlog & bl & lru & D & []) Hn Ht HQ. destruct (lv_handles0 _ _ Hn) as [Hr Hi].
  apply wp_onbio. eapply wp_brelse; [done..| |].
  { destruct (decide (n ∈ logged v)); [by left|right]. apply lv_same0; [|done..].
    by apply lv_range0. }
  intros c l1 l2 _ R K [E1 E2] W. apply HQ. exists start, nlog, bl, (i :: l1 ++ l2), D.
  split; simpl; rewrite ?E2; try done.
  - by rewrite dom_delete_L.
  - intros m j. rewrite lookup_delete_Some. intros [Hne Hm]. destruct (lv_handles0 _ _ Hm). auto.
  - rewrite dom_delete_L. set_solver.
Qed.

Lemma absorb_in n bl :
  (forall x, x ∈ bl -> 0 <= x < 2 ^ 31) -> n ∈ bl -> bl !! absorb n bl = Some n.
Proof.
  induction bl as [|x bl IH]; intros Hr Hin; [by apply elem_of_nil in Hin|]. simpl.
  rewrite u32_small by (specialize (Hr x ltac:(set_solver)); unfold is_u32, W32; lia).
  destruct (Z.eqb_spec x n) as [->|Hne]; [done|]. simpl. apply IH; set_solver.
Qed.

Lemma absorb_notin n bl :
  (forall x, x ∈ bl -> 0 <= x < 2 ^ 31) -> n ∉ bl -> absorb n bl = length bl.
Proof.
  induction bl as [|x bl IH]; intros Hr Hin; [done|]. simpl.
  rewrite u32_small by (specialize (Hr x ltac:(set_solver)); unfold is_u32, W32; lia).
  destruct (Z.eqb_spec x n) as [->|Hne]; [set_solver|]. f_equal. apply IH; set_solver.
Qed.

(** What log_write() does to the in-memory header: log absorption, or one
    more entry. *)
Definition log_add (n : Z) (bl : list Z) : list Z := if decide (n ∈ bl) then bl else bl ++ [n].

Lemma log_add_at l start nlog bl n :
  log_at l start nlog bl -> (forall x, x ∈ bl -> 0 <= x < 2 ^ 31) ->
  (length bl < Z.to_nat LOGSIZE)%nat ->
  let i := absorb n bl in
  let h := mklh (lh_n (lh l)) (<[i := n]> (lh_block (lh l))) in
  (i < length (lh_block (lh l)))%nat /\
  log_at (set_lh (if Z.of_nat i =? lh_n (lh l) then mklh (lh_n (lh l) + 1) (lh_block h) else h) l)
    start nlog (log_add n bl).
Proof.
  intros [] Hr Hlt i h. unfold log_add. rewrite la_len.
  assert (Hpre : lh_block (lh l) = bl ++ drop (length bl) (lh_block (lh l))).
  { rewrite <- la_block at 1. by rewrite take_drop. }
  destruct (decide (n ∈ bl)) as [Hin|Hin].
  - pose proof (absorb_in n bl Hr Hin) as Hi. fold i in Hi. pose proof (lookup_lt_Some _ _ _ Hi).
    split; [lia|]. rewrite la_n. destruct (Z.eqb_spec (Z.of_nat i) (Z.of_nat (length bl))); [lia|].
    split; simpl; rewrite ?length_insert; try done.
    rewrite take_insert_lt, la_block by lia. by apply list_insert_id.
  - assert (i = length bl) as Hi by (by apply absorb_notin). split; [lia|].
    rewrite la_n, Hi, Z.eqb_refl. split; simpl; rewrite ?length_insert, ?length_app; simpl; try done.
    + lia.
    + rewrite Hi, Nat.add_1_r. erewrite take_S_r; [|apply list_lookup_insert_eq; lia].
      by rewrite take_insert_ge, la_block.
Qed.

Lemma tx_log_write s v n i Q :
  in_tx s v -> held v !! n = Some i -> (size (logged v) < limit v)%nat ->
  (forall s', in_tx s' (record n v) -> Q tt s') -> wp (log_write i) Q s.
Proof.
  intros (start & nlog & bl & lru & D & []) Hn Hsz HQ. destruct (lv_handles0 _ _ Hn) as [Hr Hi].
  destruct (handle_buf _ _ _ _ _ _ _ _ lv_rep0 Hi) as (b & Hb & Hhb).
  pose proof (lb_nodup _ _ _ _ lv_bl0) as Hnd.
  assert (Hlen : size (logged v) = length bl) by (by rewrite lv_logged0, size_list_to_set).
  pose proof (la_n _ _ _ _ lv_log0) as Hln. pose proof (la_size _ _ _ _ lv_log0) as Hls.
  assert (Hint : forall x, x ∈ bl -> 0 <= x < 2 ^ 31).
  { intros x Hx. by apply (geo_int _ _ _ lv_geo0), (lb_blocks _ _ _ _ lv_bl0). }
  pose proof (geo_int _ _ _ lv_geo0 n (hb_rng _ _ _ _ _ _ _ Hhb)) as Hnr.
  pose proof (sa_size _ _ _ _ lv_sb0) as Hnl.
  assert (Hlt : (length bl < Z.to_nat LOGSIZE)%nat) by lia.
  destruct (log_add_at _ _ _ _ n lv_log0 Hint Hlt) as [Hil Hla].
  unfold log_write. apply wp_bind, wp_gets. apply wp_bind, wp_panic_if.
  { apply orb_false_iff. rewrite Hln, Hls. split; apply Z.leb_gt; lia. }
  apply wp_bind, wp_panic_if; [apply Z.ltb_ge; lia|].
  apply wp_bind, wp_acquire; [done|]. apply wp_bind, wp_onbio. eapply wp_get_buf; [exact Hb|].
  apply wp_bind, wp_gets. rewrite (hb_blockno _ _ _ _ _ _ _ Hhb). simpl. rewrite Hln, Nat2Z.id.
  rewrite (la_block _ _ _ _ lv_log0), s32_small by lia.
  apply wp_bind, wp_set_lh_block; [done|]. rewrite Hln in Hla. simpl in Hla.
  set (h := if _ =? _ then _ else _ : logheader) in Hla.
  apply wp_bind, (wp_mono _ (fun _ s' =>
    s' = mklogsys (set_lh h (set_log_lock true (lg s))) (cache s))).
  { unfold h. simpl. by destruct (Z.of_nat (absorb n bl) =? Z.of_nat (length bl)); rewrite ?Hln. }
  intros _ s' ->. apply wp_bind, wp_onbio. eapply wp_buf_pin; [exact lv_rep0|done|].
  intros c R [[E1 E2] K] W. apply wp_release; [done|]. apply HQ.
  exists start, nlog, (log_add n bl), lru, D. unfold put_lg_held. split; simpl; rewrite ?E2; try done.
  - destruct Hla. by split.
  - destruct lv_bl0. unfold log_add. case_decide; [by split|]. apply lv_range0 in Hr.
    split; rewrite ?length_app; simpl.
    + apply NoDup_app. split; [done|]. split; [set_solver|]. apply NoDup_singleton.
    + unfold NBUF. unfold LOGSIZE in Hnl. lia.
    + lia.
    + set_solver.
  - rewrite lv_logged0. unfold log_add. case_decide; set_solver.
  - intros m j Hm. destruct (lv_handles0 _ _ Hm). auto.
  - set_solver.
  - intros m Hm Hl Ht. apply lv_same0; set_solver.
Qed.

Lemma tx_size s v n :
  in_tx s v -> range v n -> length (content v n) = Z.to_nat BSIZE.
Proof.
  intros (start & nlog & bl & lru & D & []) Hr. apply (rep_size _ _ _ _ _ _ lv_rep0).
  by apply lv_range0.
Qed.

Lemma tx_limit s v : in_tx s v -> (limit v < NBUF)%nat.
Proof.
  intros (start & nlog & bl & lru & D & []). pose proof (sa_size _ _ _ _ lv_sb0).
  unfold LOGSIZE, NBUF in *. lia.
Qed.

#[export] Instance log_tx_laws : TxLaws (logsys D0) := {
  viewed := in_tx;
  law_read := tx_read;
  law_data := tx_data;
  law_store := tx_store;
  law_log_write := tx_log_write;
  law_release := tx_release;
  law_size := tx_size;
  law_limit := tx_limit;
}.

End log_tx.
