(* ===== verification/Crash.v ===== *)
(** Transactions end to end: begin_op() ... end_op(), the boot sequence with
    recovery, and the theorem that a crash at any point of a commit leaves,
    after the next boot, either all of a transaction or nothing of it. *)

From stdpp Require Import functions.
From S2P Require Import Prelude Params Bytes Buf Memide Bio BioSpec Log LogSpec Tx.

Section crash.
Context {D0 : Type} `{BlockDevLaws D0}.
Implicit Types (s : logsys D0) (v : view).

(** No system call is inside a transaction, and the log is empty. *)
Record quiet s (start nlog : Z) (lru : list nat) (D C : Z -> list Z) : Prop := {
  qt_log : log_at (lg s) start nlog [];
  qt_lock : log_lock (lg s) = false;
  qt_out : outstanding (lg s) = 0;
  qt_commit : committing (lg s) = false;
  qt_geo : geometry (devrange (ide (cache s)) ROOTDEV) start nlog;
  qt_rep : bio_rep (cache s) lru D C ∅ ∅;
  qt_hdr : hdr_n (D start) = 0;
  qt_sb : sb_at (devrange (ide (cache s)) ROOTDEV) start nlog D;
}.

(** The view at the start of a transaction. *)
Definition start_view (rng : Z -> Prop) (start nlog : Z) (D C : Z -> list Z) : view :=
  mkview (fun n => rng n /\ ~ in_log start nlog n) (Z.to_nat (nlog - 1)) D C ∅ ∅ ∅ 1.

Lemma wp_begin_op s start nlog lru D C Q :
  quiet s start nlog lru D C ->
  (forall s', log_viewed s' (start_view (devrange (ide (cache s)) ROOTDEV) start nlog D C)
      start nlog [] lru D -> outstanding (lg s') = 1 -> cache s' = cache s -> Q tt s') ->
  wp begin_op Q s.
Proof.
  intros [[] ??? Hg ???] HQ. destruct s as [[??????[??]] c]. simpl in *. subst.
  unfold begin_op, wp, bind, acquire, gets, uplog, modify, release; simpl.
  unfold lg_held, put_lg_held; simpl. apply HQ; [|done|done].
  split; simpl; try done.
  - pose proof (geo_nlog _ _ _ Hg). lia.
  - by apply loggable_nil.
  - intros n Hn _ _. by eapply (rep_clean _ _ _ _ _ _ qt_rep0).
Qed.

Lemma viewed_ready s v start nlog bl lru D l :
  log_viewed s v start nlog bl lru D -> held v = ∅ -> log_at l start nlog bl ->
  ready (mklogsys l (cache s)) start nlog bl lru D (content v) (list_to_set bl).
Proof.
  intros [] Hh Hl. rewrite Hh, dom_empty_L in lv_rep. rewrite lv_logged in lv_rep.
  split; simpl; try done.
  - intros n Hn Hin. apply elem_of_list_to_set in Hin. by apply (lb_blocks _ _ _ _ lv_bl n).
  - rewrite union_idemp_L, size_list_to_set; [|apply lv_bl]. apply lv_bl.
Qed.

Lemma viewed_precommit s v start nlog bl lru D :
  log_viewed s v start nlog bl lru D -> held v = ∅ ->
  precommit (devrange (ide (cache s)) ROOTDEV) start nlog bl D (content v).
Proof.
  intros [] Hh. rewrite Hh in lv_touched. split; [done|done| |].
  - apply (rep_size _ _ _ _ _ _ lv_rep). apply (geo_rng _ _ _ lv_geo).
    pose proof (geo_nlog _ _ _ lv_geo). lia.
  - intros n Hn Hbl. apply lv_same; set_solver.
Qed.

(** end_op() by the last process of a transaction commits it. *)
Lemma wp_end_op s v start nlog bl lru D Q :
  log_viewed s v start nlog bl lru D -> outstanding (lg s) = 1 -> held v = ∅ -> 1 ∉ logged v ->
  (forall s' lru', let ws := commit_ws start bl (content v) in
     quiet s' start nlog lru' (apply_writes ws D) (apply_writes ws (content v)) ->
     same_env (cache s) (cache s') -> writes (cache s') = writes (cache s) ++ ws -> Q tt s') ->
  wp end_op Q s.
Proof.
  intros Hlv Hout Hheld Hone HQ. pose proof (viewed_precommit _ _ _ _ _ _ _ Hlv Hheld) as Hpc.
  unfold end_op. apply wp_bind, wp_acquire; [apply Hlv|]. apply wp_bind, wp_modify.
  apply wp_bind, wp_gets. simpl. rewrite Hout. simpl.
  apply wp_bind, wp_panic_if; [apply Hlv|]. apply wp_bind, wp_modify.
  apply wp_bind, wp_release; [done|]. apply wp_bind.
  set (l1 := set_log_lock false (set_committing true (set_outstanding 0 (set_log_lock true (lg s))))).
  match goal with |- wp commit ?Q _ => change (wp commit Q (mklogsys l1 (cache s))) end.
  eapply wp_commit; [eapply viewed_ready; [exact Hlv|done|]|].
  { destruct (lv_log _ _ _ _ _ _ _ Hlv). by split. }
  intros lru' c ws s' R E W. apply wp_bind, wp_acquire; [done|]. apply wp_bind, wp_modify.
  apply wp_release; [done|]. unfold set_lg, put_lg_held; simpl in *.
  apply (HQ _ lru'); simpl; [|done|done]. destruct R, Hlv. simpl in *.
  split; simpl; try done.
  - destruct rd_log. by split.
  - by apply (crash_done _ _ _ lv_geo _ _ _ Hpc).
  - destruct E as [_ ->]. eapply sb_at_ext; [exact lv_sb|]. apply apply_writes_notin.
    intros Hin. destruct (commit_ws_dom _ _ _ _ _ _ lv_bl Hin); [by apply lv_sb|set_solver].
Qed.

(** ** Booting *)

(** The kernel's memory when it starts, on a disk [d]. *)
Definition fresh (d : D0) (pid : Z) : logsys D0 :=
  mklogsys (mklog false 0 0 0 false 0 (mklh 0 (replicate (Z.to_nat LOGSIZE) 0)))
    (mkbio (mkbcache false (replicate (S NBUF) zero_buf)) d pid []).

(** main() calls binit(), and the first process calls initlog(ROOTDEV). *)
Definition boot : M (logsys D0) unit := onbio binit ;;; initlog ROOTDEV.

Lemma wp_readsb (c : bio D0) lru D Q :
  bio_rep c lru D D ∅ ∅ -> devrange (ide c) ROOTDEV 1 ->
  (forall c' lru', bio_rep c' lru' D D ∅ ∅ -> same_env c c' -> writes c' = writes c ->
     Q (decode_sb (D 1)) c') ->
  wp (readsb ROOTDEV) Q c.
Proof.
  intros R H1 HQ. unfold readsb. apply wp_bind. simpl.
  eapply wp_bread; [done|done|set_solver| |].
  { rewrite !union_empty_r_L, size_singleton. unfold NBUF, MAXOPBLOCKS. lia. }
  intros x c1 R1 Hx _ E1 W1. apply wp_bind. eapply wp_buf_data; [done..|].
  apply wp_bind. eapply wp_brelse; [done..|by right|].
  intros c2 l1 l2 _ R2 _ E2 W2. apply wp_ret.
  replace (({[1]} ∪ ∅) ∖ {[1]}) with (∅ : gset Z) in R2 by set_solver.
  eapply HQ; [exact R2|by eapply same_env_trans|congruence].
Qed.

(** The disk of a booted machine is what recovery makes of the disk found. *)
Lemma wp_boot d pid start nlog Q :
  let D := devblock d ROOTDEV in
  devok d -> geometry (devrange d ROOTDEV) start nlog ->
  sb_at (devrange d ROOTDEV) start nlog D -> hdr_ok (devrange d ROOTDEV) start nlog (D start) ->
  1 ∉ hdr_list (D start) ->
  (forall s lru, let D' := recovered start D in quiet s start nlog lru D' D' ->
     devrange (ide (cache s)) = devrange d -> writes (cache s) = recover_ws start D -> Q tt s) ->
  wp boot Q (fresh d pid).
Proof.
  intros D Hok Hg Hsb Hh Hone HQ. pose proof Hsb as []. unfold boot. apply wp_bind, wp_onbio.
  eapply wp_binit; [done|done|]. intros c R [E1 E2] W. cbn [fresh cache curpid ide writes] in *.
  unfold initlog. apply wp_bind, wp_panic_if; [done|]. apply wp_bind, wp_modify.
  apply wp_bind, wp_onbio. cbn [set_lg set_cache cache].
  eapply wp_readsb; [exact R|by rewrite E2|]. intros c' lru' R' [E1' E2'] W'.
  fold D. rewrite sa_start, sa_nlog. apply wp_bind, wp_modify.
  assert (Hlen : length (D start) = Z.to_nat BSIZE).
  { apply devblock_length; [done|]. apply (geo_rng _ _ _ Hg). pose proof (geo_nlog _ _ _ Hg). lia. }
  assert (Hz : hdr_n (recovered start D start) = 0).
  { unfold recovered, recover_ws. rewrite apply_writes_snoc, fn_lookup_insert. by apply hdr_n_erased. }
  assert (Hsb' : sb_at (devrange d ROOTDEV) start nlog (recovered start D)).
  { eapply sb_at_ext; [exact Hsb|]. by apply (recovered_other _ _ _ Hg). }
  eapply (wp_recover_from_log _ start nlog lru' D).
  - split; cbn; try done; rewrite ?E2', ?E2; done.
  - intros lru2 c2 h ws s' R2 E3 W3. cbn in E3. apply (HQ _ lru2).
    + destruct R2. split; try done. unfold s'. cbn [cache]. destruct E3 as [_ ->]. by rewrite E2', E2.
    + cbn. destruct E3 as [_ ->]. by rewrite E2', E2.
    + cbn. rewrite W3. cbn. rewrite W', W. done.
Qed.

(** ** The transaction theorems *)

(** [d] is the disk [d0] after the block writes [p]. *)
Record after_writes (p : list (Z * list Z)) (d0 d : D0) : Prop := {
  aw_ok : devok d;
  aw_range : devrange d = devrange d0;
  aw_block : forall n, devrange d0 ROOTDEV n ->
    devblock d ROOTDEV n = apply_writes p (devblock d0 ROOTDEV) n;
}.

(** The home blocks of two disks agree. *)
Definition agrees v (D E : Z -> list Z) : Prop := forall n, range v n -> D n = E n.

(** No transaction is open, the log is empty, and the disk content is [D]. *)
Definition stable s (D : Z -> list Z) : Prop := exists start nlog lru, quiet s start nlog lru D D.

Lemma apply_writes_ext ws D D' n : D n = D' n -> apply_writes ws D n = apply_writes ws D' n.
Proof.
  revert D D'. induction ws as [|[m d] ws IH]; intros D D' E; [done|].
  cbn [apply_writes foldl]. apply IH. simpl. destruct (decide (m = n)) as [->|].
  - by rewrite !fn_lookup_insert.
  - by rewrite !fn_lookup_insert_ne.
Qed.

Lemma recovered_ext rng start nlog D D' n :
  geometry rng start nlog -> hdr_ok rng start nlog (D start) ->
  (forall m, rng m -> D' m = D m) -> rng n -> ~ in_log start nlog n ->
  recovered start D' n = recovered start D n.
Proof.
  intros Hg [_ Hlb] HD Hn Hl. assert (Hs : D' start = D start).
  { apply HD, (geo_rng _ _ _ Hg). pose proof (geo_nlog _ _ _ Hg). lia. }
  destruct (decide (n ∈ hdr_list (D start))) as [Hin|Hin].
  - apply list_elem_of_lookup in Hin as [i Hi]. pose proof (lookup_lt_Some _ _ _ Hi).
    rewrite !(recovered_logged _ _ _ Hg _ i n) by (rewrite ?Hs; done).
    apply HD, (geo_rng _ _ _ Hg). pose proof (lb_fits _ _ _ _ Hlb). lia.
  - rewrite !(recovered_other _ _ _ Hg) by (rewrite ?Hs; done). by apply HD.
Qed.

(** Booting from a disk whose header can be replayed. *)
Lemma wp_boot_from d pid start nlog D Q :
  devok d -> (forall n, devrange d ROOTDEV n -> devblock d ROOTDEV n = D n) ->
  geometry (devrange d ROOTDEV) start nlog -> sb_at (devrange d ROOTDEV) start nlog D ->
  hdr_ok (devrange d ROOTDEV) start nlog (D start) -> 1 ∉ hdr_list (D start) ->
  (forall s D', stable s D' -> same_home (devrange d ROOTDEV) start nlog D' (recovered start D) ->
     Q tt s) ->
  wp boot Q (fresh d pid).
Proof.
  intros Hok HD Hg Hsb Hh Hone HQ. assert (Hs : devblock d ROOTDEV start = D start).
  { apply HD, (geo_rng _ _ _ Hg). pose proof (geo_nlog _ _ _ Hg). lia. }
  eapply wp_boot; [done|exact Hg| |by rewrite Hs|by rewrite Hs|].
  { eapply sb_at_ext; [exact Hsb|]. apply HD, Hsb. }
  intros s lru D' Hq _ _. eapply HQ; [by exists start, nlog, lru|].
  intros n Hn Hl. eapply recovered_ext; eauto.
Qed.

(** What a boot finds after a crash in the middle of a commit. *)
Lemma wp_boot_crashed s v start nlog bl lru D p d pid Q :
  log_viewed s v start nlog bl lru D -> held v = ∅ -> 1 ∉ logged v ->
  p `prefix_of` commit_ws start bl (content v) -> after_writes p (ide (cache s)) d ->
  (forall s2 D2, stable s2 D2 -> agrees v D2 (base v) \/ agrees v D2 (content v) ->
     (p = commit_ws start bl (content v) -> agrees v D2 (content v)) -> Q tt s2) ->
  wp boot Q (fresh d pid).
Proof.
  intros Hlv Hheld Hone Hp [Hok Hrg Hblk] HQ.
  pose proof (viewed_precommit _ _ _ _ _ _ _ Hlv Hheld) as Hpc. destruct Hlv.
  destruct (crash_atomic_ws _ _ _ lv_geo _ _ _ _ Hpc Hp) as [[Hh Hhl] Hcase].
  eapply (wp_boot_from _ _ start nlog (apply_writes p D)); rewrite ?Hrg; try done.
  - intros n Hn. rewrite Hblk by done. apply apply_writes_ext. by apply lv_rep.
  - eapply sb_at_ext; [exact lv_sb|]. apply apply_writes_notin. intros Hin.
    assert (1 ∈ (commit_ws start bl (content v)).*1) as Hin'.
    { apply list_elem_of_fmap in Hin as (w & -> & Hw). apply list_elem_of_fmap. exists w.
      split; [done|]. by eapply prefix_elem. }
    destruct (commit_ws_dom _ _ _ _ _ _ lv_bl Hin'); [by apply lv_sb|set_solver].
  - intros Hin%Hhl. set_solver.
  - intros s2 D2 Hst Hsame. eapply HQ; [exact Hst| |].
    + destruct Hcase as [Hc|Hc]; [left|right]; intros n Hn; pose proof Hn as [Hn1 Hn2]%lv_range;
        rewrite Hsame, Hc by done; [by apply lv_base|done].
    + intros ->. destruct (crash_done _ _ _ lv_geo _ _ _ Hpc) as [Hz Hd]. intros n [Hn1 Hn2]%lv_range.
      rewrite Hsame by done. etrans; [by apply (recovered_empty _ _ _ lv_geo)|by apply Hd].
Qed.

(** C1: a transaction is atomic with respect to crashes.  When the last process
    of a transaction calls end_op(), the call returns, and if the machine stops
    between any two of the block writes it issues, the next boot ends in a
    stable state whose home blocks are all as before the transaction or all as
    the transaction left them; after the last write it is always the latter. *)
Theorem end_op_crash_atomic s v :
  in_tx s v -> outstanding (lg s) = 1 -> held v = ∅ -> 1 ∉ logged v ->
  wp end_op (fun _ s' => exists ws, writes (cache s') = writes (cache s) ++ ws /\
    forall p d pid, p `prefix_of` ws -> after_writes p (ide (cache s)) d ->
      wp boot (fun _ s2 => exists D2, stable s2 D2 /\
        (agrees v D2 (base v) \/ agrees v D2 (content v)) /\
        (p = ws -> agrees v D2 (content v))) (fresh d pid)) s.
Proof.
  intros (start & nlog & bl & lru & D & Hlv) Hout Hheld Hone.
  eapply wp_end_op; [exact Hlv|done|done|done|]. intros s' lru' ws Hq E W.
  exists ws. split; [done|]. intros p d pid Hp Haw.
  eapply wp_boot_crashed; [exact Hlv|done|done|exact Hp|done|].
  intros s2 D2 Hst Hor Heq. exists D2. auto.
Qed.


End crash.

(** ** A concrete machine

    A 40-block image on the memory disk: the super block says that the log is
    blocks 2 to 31. *)

Module Example.
Import Memide.

Definition img : list Z :=
  put_u32 524 30 (put_u32 528 2 (replicate (Z.to_nat (40 * BSIZE)) 0)).
Definition disk : memide := ideinit img.

(** Boot, open a transaction and log a change of block 35. *)
Definition change : M (logsys memide) unit :=
  boot ;;;
  begin_op ;;;
  let* b := bl_read ROOTDEV 35 in
  bl_store b (replicate (Z.to_nat BSIZE) 7) ;;;
  bl_log_write b ;;;
  bl_release b.
Definition changed : logsys memide := final change (fresh disk 1).

Lemma disk_ok : devok disk.
Proof. apply Z.leb_le. vm_compute. reflexivity. Qed.

Lemma disk_range n : devrange disk ROOTDEV n <-> 0 <= n < 40.
Proof.
  assert (E : disksize disk = 40) by (vm_compute; reflexivity).
  cbn [devrange memide_dev]. unfold range. rewrite E. unfold ROOTDEV. tauto.
Qed.

Lemma disk_geometry : geometry (devrange disk ROOTDEV) 2 30.
Proof. split; [lia|lia|intros n; rewrite disk_range; lia|intros n; rewrite disk_range; lia]. Qed.

Lemma disk_sb : sb_at (devrange disk ROOTDEV) 2 30 (devblock disk ROOTDEV).
Proof.
  split; [vm_compute; reflexivity|vm_compute; reflexivity|rewrite disk_range; lia|unfold in_log; lia|].
  unfold LOGSIZE, MAXOPBLOCKS. lia.
Qed.

Lemma disk_hdr : hdr_n (devblock disk ROOTDEV 2) = 0.
Proof. vm_compute. reflexivity. Qed.

Lemma changed_in_tx : exists v, in_tx changed v /\ held v = ∅ /\ logged v = {[35]}.
Proof.
  unfold changed. apply (wp_final change (fun s => exists v, in_tx s v /\ held v = ∅ /\ logged v = {[35]})).
  unfold change. apply wp_bind.
  eapply wp_boot; [apply disk_ok|apply disk_geometry|apply disk_sb| | |].
  { eapply hdr_ok_empty; [apply disk_geometry|apply disk_hdr]. }
  { unfold hdr_list. rewrite disk_hdr. set_solver. }
  intros s lru D' Hq Hrg _. apply wp_bind. eapply wp_begin_op; [exact Hq|].
  intros s' Hlv _ _. rewrite Hrg in Hlv. set (v := start_view _ _ _ _ _) in Hlv.
  assert (Htx : in_tx s' v) by (by do 5 eexists).
  apply wp_bind. eapply law_read; [exact Htx| |done| |].
  { split; [rewrite disk_range; lia|unfold in_log; lia]. }
  { unfold fits. cbn. vm_compute. lia. }
  intros i s1 H1. apply wp_bind. eapply (law_store _ _ 35); [exact H1|by apply lookup_insert_eq|done|].
  intros s2 H2. apply wp_bind. eapply (law_log_write _ _ 35); [exact H2|by apply lookup_insert_eq| |].
  { cbn. rewrite size_empty. lia. }
  intros s3 H3. eapply (law_release _ _ 35); [exact H3|by apply lookup_insert_eq|cbn; set_solver|].
  intros s4 H4. eexists. split; [exact H4|]. cbn. split; [|set_solver].
  by rewrite delete_insert_eq, delete_empty.
Qed.

Lemma changed_open : outstanding (lg changed) = 1.
Proof. vm_compute. reflexivity. Qed.

(** The transaction of [changed] commits atomically. *)
Lemma end_op_crash_atomic_witness : exists v, logged v = {[35]} /\
  wp end_op (fun _ s' => exists ws, writes (cache s') = writes (cache changed) ++ ws /\
    forall p d pid, p `prefix_of` ws -> after_writes p (ide (cache changed)) d ->
      wp boot (fun _ s2 => exists D2, stable s2 D2 /\
        (agrees v D2 (base v) \/ agrees v D2 (content v)) /\
        (p = ws -> agrees v D2 (content v))) (fresh d pid)) changed.
Proof.
  destruct changed_in_tx as (v & Hv & Hh & Hl). exists v. split; [exact Hl|].
  apply (end_op_crash_atomic changed v Hv changed_open Hh). rewrite Hl. set_solver.
Defined.

(** A disk on which a commit of block 35 stopped after its header write. *)
Definition log_img : list Z := put_u32 1024 1 (put_u32 1028 35 (splice 1536 (replicate 512 7) img)).
Definition log_disk : memide := ideinit log_img.

Lemma log_hdr : hdr_n (devblock log_disk ROOTDEV 2) = 1 /\ hdr_list (devblock log_disk ROOTDEV 2) = [35].
Proof. split; vm_compute; reflexivity. Qed.

Lemma log_disk_ok : ok log_disk.
Proof. apply Z.leb_le. vm_compute. reflexivity. Qed.

Lemma log_disk_range n : devrange log_disk ROOTDEV n <-> 0 <= n < 40.
Proof.
  assert (E : disksize log_disk = 40) by (vm_compute; reflexivity).
  cbn [devrange memide_dev]. unfold range. rewrite E. unfold ROOTDEV. tauto.
Qed.

Lemma log_disk_geometry : geometry (devrange log_disk ROOTDEV) 2 30.
Proof. split; [lia|lia|intros n; rewrite log_disk_range; lia|intros n; rewrite log_disk_range; lia]. Qed.

(** Recovery of that disk stopped after it had copied block 35. *)
Definition half_ws : list (Z * list Z) := [(35, replicate 512 7)].
Definition half_disk : memide :=
  mkmemide (splice (Z.to_nat (35 * BSIZE)) (replicate 512 7) log_img) (disksize log_disk).

Lemma half_after : after_writes half_ws log_disk half_disk.
Proof.
  assert (E : disksize log_disk = 40) by (vm_compute; reflexivity).
  split.
  - apply Z.leb_le. vm_compute. reflexivity.
  - reflexivity.
  - intros n Hn. apply log_disk_range in Hn. cbn [devblock memide_dev].
    unfold block_of, half_disk. cbn [memdisk].
    change log_img with (memdisk log_disk) at 1.
    rewrite splice_slice_block; [|apply log_disk_ok|rewrite E; lia|rewrite E; lia|vm_compute; reflexivity].
    cbn [apply_writes half_ws foldl fst snd]. case_decide.
    + subst n. by rewrite fn_lookup_insert.
    + by rewrite fn_lookup_insert_ne.
Qed.

Lemma half_prefix : half_ws `prefix_of` recover_ws 2 (devblock log_disk ROOTDEV).
Proof.
  unfold recover_ws. rewrite (proj2 log_hdr). exists [(2, enc_head [] (devblock log_disk ROOTDEV 2))].
  unfold half_ws, install_ws. cbn [imap app]. f_equal.
Qed.


End Example.
