(* ===== verification/Ops.v ===== *)
(** The interface between the system calls and the log: what begin_op() and
    end_op() promise, and the proof that log.c keeps it. *)

From S2P Require Import Prelude Params Bytes Buf Bio BioSpec Log LogSpec Tx Crash.

(** The next transaction sees what the last one left. *)
Record committed (v v' : view) : Prop := {
  cm_range : forall n, range v' n <-> range v n;
  cm_limit : limit v' = limit v;
  cm_content : forall n, range v n -> content v' n = content v n;
  cm_base : forall n, range v n -> base v' n = content v n;
}.

Class OpLaws (S : Type) `{TxLaws S} `{OpLayer S} : Type := {
  idle : S -> view -> Prop;       (* no transaction is open; what the next one sees *)
  law_idle : forall s v, idle s v -> logged v = ∅ /\ held v = ∅ /\ touched v = ∅ /\ opens v = 1;
  law_begin : forall s v Q, idle s v -> (forall s', viewed s' v -> Q tt s') -> wp bl_begin_op Q s;
  law_end : forall s v Q,
    viewed s v -> opens v = 1 -> held v = ∅ -> 1 ∉ logged v ->
    (forall s' v', idle s' v' -> committed v v' -> Q tt s') -> wp bl_end_op Q s;
}.

Section log_ops.
Context {D0 : Type} `{BlockDevLaws D0}.
Implicit Types (s : logsys D0) (v : view).

Definition log_idle s v : Prop :=
  exists start nlog lru D C, quiet s start nlog lru D C /\
    v = start_view (devrange (ide (cache s)) ROOTDEV) start nlog D C.

Lemma log_idle_view s v : log_idle s v -> logged v = ∅ /\ held v = ∅ /\ touched v = ∅ /\ opens v = 1.
Proof. by intros (start & nlog & lru & D & C & _ & ->). Qed.

Lemma log_begin s v Q : log_idle s v -> (forall s', in_tx s' v -> Q tt s') -> wp begin_op Q s.
Proof.
  intros (start & nlog & lru & D & C & Hq & ->) HQ. eapply wp_begin_op; [exact Hq|].
  intros s' Hlv _ _. apply HQ. by do 5 eexists.
Qed.

Lemma log_end s v Q :
  in_tx s v -> opens v = 1 -> held v = ∅ -> 1 ∉ logged v ->
  (forall s' v', log_idle s' v' -> committed v v' -> Q tt s') -> wp end_op Q s.
Proof.
  intros (start & nlog & bl & lru & D & Hlv) Hop Hheld Hone HQ.
  assert (Hout : outstanding (lg s) = 1) by (rewrite <- Hop; apply Hlv).
  pose proof (viewed_precommit _ _ _ _ _ _ _ Hlv Hheld) as Hpc.
  destruct (crash_done _ _ _ (lv_geo _ _ _ _ _ _ _ Hlv) _ _ _ Hpc) as [_ Hhome].
  eapply wp_end_op; [exact Hlv|done|done|done|]. intros s' lru' ws Hq [_ Erng] _. eapply HQ.
  - by exists start, nlog, lru', (apply_writes ws D), (apply_writes ws (content v)).
  - pose proof (lv_range _ _ _ _ _ _ _ Hlv) as Hrng. split; cbn [range limit content base start_view].
    + intros n. rewrite Hrng. by rewrite Erng.
    + pose proof (lv_limit _ _ _ _ _ _ _ Hlv). lia.
    + intros n [Hn Hl]%Hrng. rewrite <- (Hhome n Hn Hl). eapply (rep_clean _ _ _ _ _ _ (qt_rep _ _ _ _ _ _ Hq)); [|set_solver..].
      by rewrite Erng.
    + intros n [Hn Hl]%Hrng. by apply Hhome.
Qed.

#[export] Instance log_op_laws : OpLaws (logsys D0) := {
  idle := log_idle;
  law_idle := log_idle_view;
  law_begin := log_begin;
  law_end := log_end;
}.

End log_ops.
