(* ===== verification/Fs.v ===== *)
(** fs.c: block allocator, inodes, inode content, directories and path names.

    The code is written against the operations of [BufLayer] and [TxLayer]
    (bread, brelse, log_write and the data of a buffer); [S] is the state of
    those layers.  An inode pointer is its index in icache.inode, a buffer
    pointer the handle that bread() returns, and a block of user or kernel
    memory that a function fills is a value it returns. *)

From S2P Require Import Prelude Params Bytes CString Buf Log.

(** ** struct inode (file.h) *)

Record inode := mkinode {
  i_dev : Z;
  i_num : Z;
  i_ref : Z;
  i_lock : sleeplock;
  i_valid : bool;
  i_type : Z;
  i_major : Z;
  i_minor : Z;
  i_nlink : Z;
  i_size : Z;
  i_addrs : list Z;
}.

Definition set_i_id d n r (i : inode) := mkinode d n r (i_lock i) false (i_type i) (i_major i) (i_minor i) (i_nlink i) (i_size i) (i_addrs i).
Definition set_i_ref v (i : inode) := mkinode (i_dev i) (i_num i) v (i_lock i) (i_valid i) (i_type i) (i_major i) (i_minor i) (i_nlink i) (i_size i) (i_addrs i).
Definition set_i_lock v (i : inode) := mkinode (i_dev i) (i_num i) (i_ref i) v (i_valid i) (i_type i) (i_major i) (i_minor i) (i_nlink i) (i_size i) (i_addrs i).
Definition set_i_valid v (i : inode) := mkinode (i_dev i) (i_num i) (i_ref i) (i_lock i) v (i_type i) (i_major i) (i_minor i) (i_nlink i) (i_size i) (i_addrs i).
Definition set_i_type v (i : inode) := mkinode (i_dev i) (i_num i) (i_ref i) (i_lock i) (i_valid i) v (i_major i) (i_minor i) (i_nlink i) (i_size i) (i_addrs i).
Definition set_i_devno ma mi (i : inode) := mkinode (i_dev i) (i_num i) (i_ref i) (i_lock i) (i_valid i) (i_type i) ma mi (i_nlink i) (i_size i) (i_addrs i).
Definition set_i_nlink v (i : inode) := mkinode (i_dev i) (i_num i) (i_ref i) (i_lock i) (i_valid i) (i_type i) (i_major i) (i_minor i) v (i_size i) (i_addrs i).
Definition set_i_size v (i : inode) := mkinode (i_dev i) (i_num i) (i_ref i) (i_lock i) (i_valid i) (i_type i) (i_major i) (i_minor i) (i_nlink i) v (i_addrs i).
Definition set_i_addrs v (i : inode) := mkinode (i_dev i) (i_num i) (i_ref i) (i_lock i) (i_valid i) (i_type i) (i_major i) (i_minor i) (i_nlink i) (i_size i) v.

(** struct stat (stat.h) *)
Record stat := mkstat {
  st_type : Z;
  st_dev : Z;
  st_ino : Z;
  st_nlink : Z;
  st_size : Z;
}.

(** icache, the in-memory super block, and the layers below. *)
Record fsys (S : Type) := mkfsys {
  ic_lock : bool;
  inodes : list inode;
  sb : superblock;
  mypid : Z;                 (* myproc()->pid *)
  blk : S;
}.
Arguments mkfsys {S} _ _ _ _ _.
Arguments ic_lock {S} _.
Arguments inodes {S} _.
Arguments sb {S} _.
Arguments mypid {S} _.
Arguments blk {S} _.

Definition set_ic_lock {S} v (s : fsys S) := mkfsys v (inodes s) (sb s) (mypid s) (blk s).
Definition set_inodes {S} v (s : fsys S) := mkfsys (ic_lock s) v (sb s) (mypid s) (blk s).
Definition set_sb {S} v (s : fsys S) := mkfsys (ic_lock s) (inodes s) v (mypid s) (blk s).
Definition set_blk {S} (v : S) (s : fsys S) : fsys S := mkfsys (ic_lock s) (inodes s) (sb s) (mypid s) v.

(** ** Bits of a bitmap block: bp->data[bi/8] and the mask m. *)
Definition byte_at (d : list Z) (i : nat) : Z := default 0 (d !! i).
Definition mask (bi : nat) : Z := Z.shiftl 1 (Z.of_nat bi mod 8).
Definition bit_free (d : list Z) (bi : nat) : bool := Z.land (byte_at d (bi / 8)) (mask bi) =? 0.
Definition bit_set (d : list Z) (bi : nat) : list Z :=
  <[(bi / 8)%nat := Z.lor (byte_at d (bi / 8)) (mask bi)]> d.
Definition bit_clear (d : list Z) (bi : nat) : list Z :=
  <[(bi / 8)%nat := Z.land (byte_at d (bi / 8)) (Z.lnot (mask bi))]> d.

(** The first index of the inner loop of balloc() whose bit is clear. *)
Fixpoint first_free (d : list Z) (l : list nat) : option nat :=
  match l with
  | [] => None
  | bi :: l => if bit_free d bi then Some bi else first_free d l
  end.

Definition BBLOCK (b : Z) (sb : superblock) : Z := u32 (b / BPB + sb_bmapstart sb).
Definition IBLOCK (i : Z) (sb : superblock) : Z := u32 (i / IPB + sb_inodestart sb).

(** ** struct dinode (fs.h), at byte [o] of an inode block *)
Definition d_type (o : nat) (d : list Z) : Z := s16 (get_u16 o d).
Definition d_major (o : nat) (d : list Z) : Z := s16 (get_u16 (o + 2) d).
Definition d_minor (o : nat) (d : list Z) : Z := s16 (get_u16 (o + 4) d).
Definition d_nlink (o : nat) (d : list Z) : Z := s16 (get_u16 (o + 6) d).
Definition d_size (o : nat) (d : list Z) : Z := get_u32 (o + 8) d.
Definition d_addrs (o : nat) (d : list Z) : list Z := get_u32s (o + 12) 13 d.
Definition dinode_off (inum : Z) : nat := Z.to_nat (inum mod IPB * sizeof_dinode).

(** What iupdate() stores, and what ilock() loads. *)
Definition put_dinode (o : nat) (ip : inode) (d : list Z) : list Z :=
  put_u32s (o + 12) (i_addrs ip)
   (put_u32 (o + 8) (i_size ip)
    (put_u16 (o + 6) (i_nlink ip)
     (put_u16 (o + 4) (i_minor ip)
      (put_u16 (o + 2) (i_major ip)
       (put_u16 o (i_type ip) d))))).
Definition get_dinode (o : nat) (d : list Z) (ip : inode) : inode :=
  mkinode (i_dev ip) (i_num ip) (i_ref ip) (i_lock ip) (i_valid ip)
    (d_type o d) (d_major o d) (d_minor o d) (d_nlink o d) (d_size o d) (d_addrs o d).

Section fs.
Context {S : Type} `{TxLayer S}.

(** devsw[major].read and devsw[major].write; None is a null pointer.  The
    read function returns its result and the bytes it stored. *)
Context (dev_read : Z -> option (nat -> Z -> M (fsys S) (Z * list Z))).
Context (dev_write : Z -> option (nat -> list Z -> Z -> M (fsys S) Z)).

Definition onblk {A} (m : M S A) : M (fsys S) A := zoom blk set_blk m.
Definition ic_held (s : fsys S) : bool := ic_lock s.
Definition get_inode (i : nat) : M (fsys S) inode := fun s => from_some (inodes s !! i) s.
Definition upd_inode (i : nat) (f : inode -> inode) : M (fsys S) unit :=
  let* x := get_inode i in
  modify (fun s => set_inodes (<[i := f x]> (inodes s)) s).
Definition on_ilock {A} (i : nat) (m : M sleeplock A) : M (fsys S) A :=
  let* x := get_inode i in
  let* '(a, l) := on_value m (i_lock x) in
  upd_inode i (set_i_lock l) ;;;
  ret a.

(** ** Blocks *)

Definition bzero (dv bno : Z) : M (fsys S) unit :=
  let* bp := onblk (bl_read dv bno) in
  onblk (bl_store bp (replicate (Z.to_nat BSIZE) 0)) ;;;
  onblk (bl_log_write bp) ;;;
  onblk (bl_release bp).

Definition balloc (dv : Z) : M (fsys S) Z :=
  let* sb := gets sb in
  let* r := for_find (seq 0 (Z.to_nat ((sb_size sb + BPB - 1) / BPB))) (fun k =>
    let b := Z.of_nat k * BPB in
    let* bp := onblk (bl_read dv (BBLOCK b sb)) in
    let* d := onblk (bl_data bp) in
    match first_free d (seq 0 (Z.to_nat (Z.min BPB (sb_size sb - b)))) with
    | Some bi =>
        onblk (bl_store bp (bit_set d bi)) ;;;
        onblk (bl_log_write bp) ;;;
        onblk (bl_release bp) ;;;
        bzero dv (b + Z.of_nat bi) ;;;
        ret (Some (b + Z.of_nat bi))
    | None =>
        onblk (bl_release bp) ;;;
        ret None
    end) in
  match r with
  | Some b => ret b
  | None => panic "balloc: out of blocks"
  end.

Definition bfree (dv b : Z) : M (fsys S) unit :=
  let* sb := onblk (readsb dv) in
  modify (set_sb sb) ;;;
  let* bp := onblk (bl_read dv (BBLOCK b sb)) in
  let bi := Z.to_nat (b mod BPB) in
  let* d := onblk (bl_data bp) in
  panic_if (bit_free d bi) "freeing free block" ;;;
  onblk (bl_store bp (bit_clear d bi)) ;;;
  onblk (bl_log_write bp) ;;;
  onblk (bl_release bp).

(** ** Inodes *)

(** The line that iinit() prints is left out. *)
Definition iinit (dv : Z) : M (fsys S) unit :=
  modify (set_ic_lock false) ;;;
  for_each (seq 0 NINODE) (fun i => upd_inode i (set_i_lock initsleeplock)) ;;;
  let* x := onblk (readsb dv) in
  modify (set_sb x).

(** The scan of iget(): the entry for (dev, inum), or the first free entry. *)
Fixpoint iget_scan (dv inum : Z) (l : list inode) (i : nat) (empty : option nat) : nat + option nat :=
  match l with
  | [] => inr empty
  | x :: l =>
      if (0 <? i_ref x) && (i_dev x =? dv) && (i_num x =? inum) then inl i
      else
        let empty' := match empty with
                      | None => if i_ref x =? 0 then Some i else None
                      | Some e => Some e
                      end in
        iget_scan dv inum l (1 + i) empty'
  end.

Definition iget (dv inum : Z) : M (fsys S) nat :=
  acquire ic_held set_ic_lock ;;;
  let* l := gets inodes in
  match iget_scan dv inum l 0 None with
  | inl i =>
      upd_inode i (fun x => set_i_ref (i_ref x + 1) x) ;;;
      release ic_held set_ic_lock ;;;
      ret i
  | inr None => panic "iget: no inodes"
  | inr (Some i) =>
      upd_inode i (set_i_id dv inum 1) ;;;
      release ic_held set_ic_lock ;;;
      ret i
  end.

Definition ialloc (dv type : Z) : M (fsys S) nat :=
  let* s := gets sb in
  let* r := for_find (seq 1 (Z.to_nat (sb_ninodes s - 1))) (fun k =>
    let inum := Z.of_nat k in
    let* bp := onblk (bl_read dv (IBLOCK inum s)) in
    let* d := onblk (bl_data bp) in
    let o := dinode_off inum in
    if d_type o d =? 0 then
      onblk (bl_store bp (put_u16 o type (splice o (replicate (Z.to_nat sizeof_dinode) 0) d))) ;;;
      onblk (bl_log_write bp) ;;;
      onblk (bl_release bp) ;;;
      let* i := iget dv inum in
      ret (Some i)
    else
      onblk (bl_release bp) ;;;
      ret None) in
  match r with
  | Some i => ret i
  | None => panic "ialloc: no inodes"
  end.

Definition iupdate (ip : nat) : M (fsys S) unit :=
  let* x := get_inode ip in
  let* s := gets sb in
  let* bp := onblk (bl_read (i_dev x) (IBLOCK (i_num x) s)) in
  let* d := onblk (bl_data bp) in
  onblk (bl_store bp (put_dinode (dinode_off (i_num x)) x d)) ;;;
  onblk (bl_log_write bp) ;;;
  onblk (bl_release bp).

Definition idup (ip : nat) : M (fsys S) nat :=
  acquire ic_held set_ic_lock ;;;
  upd_inode ip (fun x => set_i_ref (i_ref x + 1) x) ;;;
  release ic_held set_ic_lock ;;;
  ret ip.

Definition ilock (ip : nat) : M (fsys S) unit :=
  let* x := get_inode ip in
  panic_if (i_ref x <? 1) "ilock" ;;;
  let* pid := gets mypid in
  on_ilock ip (acquiresleep (Chan "inode" (Z.of_nat ip)) pid) ;;;
  let* x := get_inode ip in
  if i_valid x then ret tt
  else
    let* s := gets sb in
    let* bp := onblk (bl_read (i_dev x) (IBLOCK (i_num x) s)) in
    let* d := onblk (bl_data bp) in
    upd_inode ip (get_dinode (dinode_off (i_num x)) d) ;;;
    onblk (bl_release bp) ;;;
    upd_inode ip (set_i_valid true) ;;;
    let* x := get_inode ip in
    panic_if (i_type x =? 0) "ilock: no type".

Definition iunlock (ip : nat) : M (fsys S) unit :=
  let* pid := gets mypid in
  let* h := on_ilock ip (holdingsleep pid) in
  let* x := get_inode ip in
  panic_if (negb h || (i_ref x <? 1)) "iunlock" ;;;
  on_ilock ip releasesleep.

(** ** Inode content *)

(** Entry [bn] of the indirect block [addr], allocated if necessary. *)
Definition bmap_entry (dv addr bn : Z) : M (fsys S) Z :=
  let* bp := onblk (bl_read dv addr) in
  let* d := onblk (bl_data bp) in
  let addr := get_u32 (Z.to_nat (4 * bn)) d in
  let* addr :=
    (if addr =? 0 then
       let* addr := balloc dv in
       let* d := onblk (bl_data bp) in
       onblk (bl_store bp (put_u32 (Z.to_nat (4 * bn)) addr d)) ;;;
       onblk (bl_log_write bp) ;;;
       ret addr
     else ret addr) in
  onblk (bl_release bp) ;;;
  ret addr.

Definition bmap (ip : nat) (bn : Z) : M (fsys S) Z :=
  let* x := get_inode ip in
  if bn <? NDIRECT then
    let* addr := from_some (i_addrs x !! Z.to_nat bn) in
    if addr =? 0 then
      let* addr := balloc (i_dev x) in
      upd_inode ip (fun x => set_i_addrs (<[Z.to_nat bn := addr]> (i_addrs x)) x) ;;;
      ret addr
    else ret addr
  else
    let bn := bn - NDIRECT in
    if bn <? NINDIRECT then
      let* addr := from_some (i_addrs x !! Z.to_nat NDIRECT) in
      let* addr :=
        (if addr =? 0 then
           let* addr := balloc (i_dev x) in
           upd_inode ip (fun x => set_i_addrs (<[Z.to_nat NDIRECT := addr]> (i_addrs x)) x) ;;;
           ret addr
         else ret addr) in
      bmap_entry (i_dev x) addr bn
    else panic "bmap: out of range".

Definition itrunc (ip : nat) : M (fsys S) unit :=
  for_each (seq 0 (Z.to_nat NDIRECT)) (fun i =>
    let* x := get_inode ip in
    let* a := from_some (i_addrs x !! i) in
    if a =? 0 then ret tt
    else
      bfree (i_dev x) a ;;;
      upd_inode ip (fun x => set_i_addrs (<[i := 0]> (i_addrs x)) x)) ;;;
  let* x := get_inode ip in
  let* a := from_some (i_addrs x !! Z.to_nat NDIRECT) in
  (if a =? 0 then ret tt
   else
     let* bp := onblk (bl_read (i_dev x) a) in
     for_each (seq 0 (Z.to_nat NINDIRECT)) (fun j =>
       let* d := onblk (bl_data bp) in
       let e := get_u32 (4 * j) d in
       if e =? 0 then ret tt else bfree (i_dev x) e) ;;;
     onblk (bl_release bp) ;;;
     bfree (i_dev x) a ;;;
     upd_inode ip (fun x => set_i_addrs (<[Z.to_nat NDIRECT := 0]> (i_addrs x)) x)) ;;;
  upd_inode ip (set_i_size 0) ;;;
  iupdate ip.

Definition iput (ip : nat) : M (fsys S) unit :=
  let* pid := gets mypid in
  on_ilock ip (acquiresleep (Chan "inode" (Z.of_nat ip)) pid) ;;;
  let* x := get_inode ip in
  (if i_valid x && (i_nlink x =? 0) then
     acquire ic_held set_ic_lock ;;;
     let* y := get_inode ip in
     release ic_held set_ic_lock ;;;
     if i_ref y =? 1 then
       itrunc ip ;;;
       upd_inode ip (set_i_type 0) ;;;
       iupdate ip ;;;
       upd_inode ip (set_i_valid false)
     else ret tt
   else ret tt) ;;;
  on_ilock ip releasesleep ;;;
  acquire ic_held set_ic_lock ;;;
  upd_inode ip (fun x => set_i_ref (i_ref x - 1) x) ;;;
  release ic_held set_ic_lock.

Definition iunlockput (ip : nat) : M (fsys S) unit := iunlock ip ;;; iput ip.

Definition stati (ip : nat) : M (fsys S) stat :=
  let* x := get_inode ip in
  ret (mkstat (i_type x) (s32 (i_dev x)) (i_num x) (i_nlink x) (i_size x)).

(** The loop of readi(): at least one byte is copied per iteration. *)
Fixpoint readi_loop (fuel : nat) (ip : nat) (off tot n : Z) (dst : list Z) : M (fsys S) (list Z) :=
  if tot <? n then
    match fuel with
    | O => nofuel
    | Datatypes.S fuel =>
        let* b := bmap ip (off / BSIZE) in
        let* x := get_inode ip in
        let* bp := onblk (bl_read (i_dev x) b) in
        let m := Z.min (n - tot) (BSIZE - off mod BSIZE) in
        let* d := onblk (bl_data bp) in
        onblk (bl_release bp) ;;;
        readi_loop fuel ip (off + m) (tot + m) n
          (dst ++ slice (Z.to_nat (off mod BSIZE)) (Z.to_nat m) d)
    end
  else ret dst.

Definition readi (ip : nat) (off n : Z) : M (fsys S) (Z * list Z) :=
  let* x := get_inode ip in
  if i_type x =? T_DEV then
    if (i_major x <? 0) || (NDEV <=? i_major x) then ret (-1, [])
    else match dev_read (i_major x) with
         | None => ret (-1, [])
         | Some f => f ip n
         end
  else if (i_size x <? off) || (u32 (off + n) <? off) then ret (-1, [])
  else
    let n := if i_size x <? u32 (off + n) then u32 (i_size x - off) else n in
    let* dst := readi_loop (Z.to_nat n) ip off 0 n [] in
    ret (s32 n, dst).

(** The loop of writei() returns the final value of off. *)
Fixpoint writei_loop (fuel : nat) (ip : nat) (src : list Z) (off tot n : Z) : M (fsys S) Z :=
  if tot <? n then
    match fuel with
    | O => nofuel
    | Datatypes.S fuel =>
        let* b := bmap ip (off / BSIZE) in
        let* x := get_inode ip in
        let* bp := onblk (bl_read (i_dev x) b) in
        let m := Z.min (n - tot) (BSIZE - off mod BSIZE) in
        let* d := onblk (bl_data bp) in
        onblk (bl_store bp (splice (Z.to_nat (off mod BSIZE)) (slice (Z.to_nat tot) (Z.to_nat m) src) d)) ;;;
        onblk (bl_log_write bp) ;;;
        onblk (bl_release bp) ;;;
        writei_loop fuel ip src (off + m) (tot + m) n
    end
  else ret off.

Definition writei (ip : nat) (src : list Z) (off n : Z) : M (fsys S) Z :=
  let* x := get_inode ip in
  if i_type x =? T_DEV then
    if (i_major x <? 0) || (NDEV <=? i_major x) then ret (-1)
    else match dev_write (i_major x) with
         | None => ret (-1)
         | Some f => f ip src n
         end
  else if (i_size x <? off) || (u32 (off + n) <? off) then ret (-1)
  else if MAXFILE * BSIZE <? u32 (off + n) then ret (-1)
  else
    let* off := writei_loop (Z.to_nat n) ip src off 0 n in
    let* x := get_inode ip in
    (if (0 <? n) && (i_size x <? off) then
       upd_inode ip (set_i_size off) ;;;
       iupdate ip
     else ret tt) ;;;
    ret (s32 n).

(** ** Directories

    A struct dirent is two bytes of inode number and DIRSIZ bytes of name. *)

Definition namecmp (s t : list Z) : Z := strncmp (ptr_to s) (ptr_to t) (Z.to_nat DIRSIZ).
Definition de_inum (de : list Z) : Z := get_u16 0 de.
Definition de_name (de : list Z) : list Z := slice 2 (Z.to_nat DIRSIZ) de.
Definition mkdirent (inum : Z) (name : list Z) : list Z :=
  le_of 2 inum ++ strncpy (ptr_to name) (Z.to_nat DIRSIZ).

(** The byte offsets that for(off = 0; off < size; off += sizeof(de)) visits. *)
Definition de_offs (size : Z) : list Z :=
  (fun k => Z.of_nat k * sizeof_dirent) <$>
    seq 0 (Z.to_nat ((size + sizeof_dirent - 1) / sizeof_dirent)).

(** Returns the inode and the offset stored in *poff, or None for a null
    pointer. *)
Definition dirlookup (dp : nat) (name : list Z) : M (fsys S) (option (nat * Z)) :=
  let* x := get_inode dp in
  panic_if (negb (i_type x =? T_DIR)) "dirlookup not DIR" ;;;
  for_find (de_offs (i_size x)) (fun off =>
    let* '(r, de) := readi dp off sizeof_dirent in
    panic_if (negb (r =? sizeof_dirent)) "dirlookup read" ;;;
    if de_inum de =? 0 then ret None
    else if namecmp name (de_name de) =? 0 then
      let* ip := iget (i_dev x) (de_inum de) in
      ret (Some (ip, off))
    else ret None).

Definition dirlink (dp : nat) (name : list Z) (inum : Z) : M (fsys S) Z :=
  let* r := dirlookup dp name in
  match r with
  | Some (ip, _) =>
      iput ip ;;;
      ret (-1)
  | None =>
      let* x := get_inode dp in
      let* r := for_find (de_offs (i_size x)) (fun off =>
        let* '(r, de) := readi dp off sizeof_dirent in
        panic_if (negb (r =? sizeof_dirent)) "dirlink read" ;;;
        if de_inum de =? 0 then ret (Some off) else ret None) in
      let off := match r with
                 | Some off => off
                 | None => Z.of_nat (length (de_offs (i_size x))) * sizeof_dirent
                 end in
      let* r := writei dp (mkdirent inum name) off sizeof_dirent in
      panic_if (negb (r =? sizeof_dirent)) "dirlink" ;;;
      ret 0
  end.

End fs.

(** ** Paths

    A path is the list of the bytes before its terminating zero byte, a name
    a buffer of DIRSIZ bytes. *)

Definition SLASH : Z := 47.

Fixpoint skip_slashes (path : list Z) : list Z :=
  match path with
  | c :: path' => if c =? SLASH then skip_slashes path' else path
  | [] => []
  end.

(** The scan up to the next slash or the end: the element and the rest. *)
Fixpoint take_elem (path : list Z) : list Z * list Z :=
  match path with
  | c :: path' =>
      if c =? SLASH then ([], path)
      else let '(s, rest) := take_elem path' in (c :: s, rest)
  | [] => ([], [])
  end.

Definition skipelem (path name : list Z) : option (list Z * list Z) :=
  match skip_slashes path with
  | [] => None
  | path =>
      let '(s, rest) := take_elem path in
      let name' :=
        if DIRSIZ <=? Z.of_nat (length s) then splice 0 (take (Z.to_nat DIRSIZ) s) name
        else splice 0 (s ++ [0]) name in
      Some (skip_slashes rest, name')
  end.

Section paths.
Context {S : Type} `{TxLayer S}.
Context (dev_read : Z -> option (nat -> Z -> M (fsys S) (Z * list Z))).

(** Every iteration consumes at least one byte of the path. *)
Fixpoint namex_loop (fuel : nat) (ip : nat) (parent : bool) (path name : list Z)
    : M (fsys S) (option nat * list Z) :=
  match skipelem path name with
  | None =>
      if parent then iput ip ;;; ret (None, name) else ret (Some ip, name)
  | Some (path, name) =>
      match fuel with
      | O => nofuel
      | Datatypes.S fuel =>
          ilock ip ;;;
          let* x := get_inode ip in
          if negb (i_type x =? T_DIR) then iunlockput ip ;;; ret (None, name)
          else if parent && bool_decide (path = []) then iunlock ip ;;; ret (Some ip, name)
          else
            let* r := dirlookup dev_read ip name in
            match r with
            | None => iunlockput ip ;;; ret (None, name)
            | Some (next, _) => iunlockput ip ;;; namex_loop fuel next parent path name
            end
      end
  end.

(** [cwd] is myproc()->cwd.  Returns the inode and the name buffer. *)
Definition namex (cwd : nat) (path : list Z) (parent : bool) (name : list Z)
    : M (fsys S) (option nat * list Z) :=
  let* ip := (if bool_decide (head path = Some SLASH) then iget ROOTDEV ROOTINO else idup cwd) in
  namex_loop (Datatypes.S (length path)) ip parent path name.

Definition namei (cwd : nat) (path : list Z) : M (fsys S) (option nat) :=
  let* '(r, _) := namex cwd path false (replicate (Z.to_nat DIRSIZ) 0) in
  ret r.

Definition nameiparent (cwd : nat) (path name : list Z) : M (fsys S) (option nat * list Z) :=
  namex cwd path true name.

End paths.
