(* ===== verification/FsBlocks.v ===== *)
(** Blocks of fs.c: the bitmap, bzero(), balloc() and bfree(), against the laws
    of the transaction layer. *)

From stdpp Require Import functions.
From S2P Require Import Prelude Params Bytes Buf Log Tx Fs.

(** ** Bits *)

Lemma mask_pow bi : mask bi = 2 ^ (Z.of_nat (bi mod 8)).
Proof. unfold mask. rewrite Z.shiftl_1_l, Nat2Z.inj_mod. done. Qed.

Lemma bit_free_testbit d bi :
  bit_free d bi = negb (Z.testbit (byte_at d (bi / 8)) (Z.of_nat (bi mod 8))).
Proof.
  unfold bit_free. rewrite mask_pow.
  rewrite <- (negb_involutive (_ =? 0)). f_equal. apply land_pow2_testbit. lia.
Qed.

Lemma byte_at_insert d i j x :
  (i < length d)%nat -> byte_at (<[i := x]> d) j = if decide (i = j) then x else byte_at d j.
Proof.
  intros Hi. unfold byte_at. case_decide; subst.
  - by rewrite list_lookup_insert_eq.
  - by rewrite list_lookup_insert_ne.
Qed.

Lemma bit_index bi bj : (bi / 8 = bj / 8)%nat -> (bi mod 8 = bj mod 8)%nat -> bi = bj.
Proof. intros E1 E2. rewrite (Nat.div_mod_eq bi 8), (Nat.div_mod_eq bj 8). lia. Qed.

Lemma bit_free_set d bi bj :
  (bi / 8 < length d)%nat ->
  bit_free (bit_set d bi) bj = if decide (bi = bj) then false else bit_free d bj.
Proof.
  intros Hl. rewrite !bit_free_testbit. unfold bit_set. rewrite byte_at_insert by done.
  destruct (decide (bi = bj)) as [->|Hne].
  - rewrite decide_True by done. by rewrite Z.lor_spec, mask_pow, Z.pow2_bits_true, orb_true_r by lia.
  - case_decide as E; [|done]. f_equal. rewrite Z.lor_spec, mask_pow.
    rewrite Z.pow2_bits_false, orb_false_r; [by rewrite E|].
    intros E2%Nat2Z.inj. by apply Hne, bit_index.
Qed.

Lemma bit_free_clear d bi bj :
  (bi / 8 < length d)%nat ->
  bit_free (bit_clear d bi) bj = if decide (bi = bj) then true else bit_free d bj.
Proof.
  intros Hl. rewrite !bit_free_testbit. unfold bit_clear. rewrite byte_at_insert by done.
  destruct (decide (bi = bj)) as [->|Hne].
  - rewrite decide_True by done.
    by rewrite Z.land_spec, Z.lnot_spec, mask_pow, Z.pow2_bits_true, andb_false_r by lia.
  - case_decide as E; [|done]. f_equal. rewrite Z.land_spec, Z.lnot_spec, mask_pow by lia.
    rewrite Z.pow2_bits_false, andb_true_r; [by rewrite E|].
    intros E2%Nat2Z.inj. by apply Hne, bit_index.
Qed.

Lemma first_free_spec d l :
  match first_free d l with
  | Some bi => exists l1 l2, l = l1 ++ bi :: l2 /\ bit_free d bi = true /\
      forall bj, bj ∈ l1 -> bit_free d bj = false
  | None => forall bj, bj ∈ l -> bit_free d bj = false
  end.
Proof.
  induction l as [|bi l IH]; cbn [first_free]; [set_solver|].
  destruct (bit_free d bi) eqn:E; [exists [], l; set_solver|].
  destruct (first_free d l) as [bk|].
  - destruct IH as (l1 & l2 & -> & Hk & Hl1). exists (bi :: l1), l2. set_solver.
  - set_solver.
Qed.

(** ** The laws, inside a state of the file system *)

(** A block read, changed, logged and released. *)
Definition upd (n : Z) (d : list Z) (v : view) : view :=
  mkview (range v) (limit v) (base v) (<[n := d]> (content v)) ({[n]} ∪ logged v) (held v) (touched v) (opens v).

(** [k] more blocks fit in the transaction. *)
Definition spare (k : nat) (v : view) : Prop :=
  (size (logged v ∪ dom (held v)) + k <= limit v)%nat.

Lemma unhold_hold n i v : held v !! n = None -> unhold n (hold n i v) = v.
Proof.
  intros Hn. destruct v. unfold unhold, hold; simpl in *. f_equal. by apply delete_insert_id.
Qed.

Lemma upd_eq n i d v :
  held v !! n = None -> n ∉ touched v ->
  unhold n (record n (write n d (hold n i v))) = upd n d v.
Proof.
  intros Hn Ht. destruct v. unfold unhold, record, write, hold, upd; simpl in *. f_equal.
  - by apply delete_insert_id.
  - set_solver.
Qed.

Lemma spare_hold n i k v : spare (1 + k) v -> spare k (hold n i v).
Proof.
  unfold spare. simpl. rewrite dom_insert_L.
  pose proof (size_add_one n (logged v ∪ dom (held v))) as Hs.
  replace (logged v ∪ ({[n]} ∪ dom (held v))) with ({[n]} ∪ (logged v ∪ dom (held v))) by set_solver.
  lia.
Qed.

Lemma spare_mono k k' v : (k' <= k)%nat -> spare k v -> spare k' v.
Proof. unfold spare. lia. Qed.

Lemma spare_upd n d k v : spare (1 + k) v -> spare k (upd n d v).
Proof.
  unfold spare. simpl. pose proof (size_add_one n (logged v ∪ dom (held v))) as Hs.
  rewrite <- assoc_L by apply _. lia.
Qed.

Section laws.
Context {S : Type} `{TxLaws S}.
Implicit Types (s : fsys S) (v : view).

Lemma fits_spare (b : S) v n : viewed b v -> spare 0 v -> fits n v.
Proof.
  intros Hv Hs. pose proof (law_limit _ _ Hv). unfold fits, spare in *.
  pose proof (size_add_one n (logged v ∪ dom (held v))). rewrite <- assoc_L by apply _. lia.
Qed.

Lemma wp_onblk {A} (m : M S A) Q s :
  wp m (fun a b => Q a (set_blk b s)) (blk s) -> wp (onblk m) Q s.
Proof. apply wp_zoom. Qed.

Lemma wp_read s v n Q :
  viewed (blk s) v -> range v n -> held v !! n = None -> spare 0 v ->
  (forall i b, viewed b (hold n i v) -> Q i (set_blk b s)) ->
  wp (onblk (bl_read ROOTDEV n)) Q s.
Proof. intros. apply wp_onblk. eapply law_read; eauto using fits_spare. Qed.

Lemma wp_data s v n i Q :
  viewed (blk s) v -> held v !! n = Some i -> Q (content v n) s -> wp (onblk (bl_data i)) Q s.
Proof. intros. apply wp_onblk. eapply law_data; [done..|]. by destruct s. Qed.

Lemma wp_store s v n i d Q :
  viewed (blk s) v -> held v !! n = Some i -> length d = Z.to_nat BSIZE ->
  (forall b, viewed b (write n d v) -> Q tt (set_blk b s)) -> wp (onblk (bl_store i d)) Q s.
Proof. intros. apply wp_onblk. eapply law_store; eauto. Qed.

Lemma wp_log_write s v n i Q :
  viewed (blk s) v -> held v !! n = Some i -> (size (logged v) < limit v)%nat ->
  (forall b, viewed b (record n v) -> Q tt (set_blk b s)) -> wp (onblk (bl_log_write i)) Q s.
Proof. intros. apply wp_onblk. eapply law_log_write; eauto. Qed.

Lemma wp_release_buf s v n i Q :
  viewed (blk s) v -> held v !! n = Some i -> n ∉ touched v ->
  (forall b, viewed b (unhold n v) -> Q tt (set_blk b s)) -> wp (onblk (bl_release i)) Q s.
Proof. intros. apply wp_onblk. eapply law_release; eauto. Qed.

(** One more block can be logged while it is held. *)
Lemma room_for_record n i v :
  spare 1 v -> held v !! n = None -> (size (logged (hold n i v)) < limit v)%nat.
Proof.
  unfold spare. simpl. intros Hs Hn.
  pose proof (subseteq_size (logged v) (logged v ∪ dom (held v)) ltac:(set_solver)). lia.
Qed.

(** bp->data = d; log_write(bp); brelse(bp); for a buffer just read. *)
Lemma wp_commit_buf s v n i d Q :
  viewed (blk s) (hold n i v) -> held v !! n = None -> n ∉ touched v ->
  length d = Z.to_nat BSIZE -> spare 1 v ->
  (forall b, viewed b (upd n d v) -> Q tt (set_blk b s)) ->
  wp (onblk (bl_store i d) ;;; onblk (bl_log_write i) ;;; onblk (bl_release i)) Q s.
Proof.
  intros Hv Hn Ht Hd Hs HQ. apply wp_bind. eapply (wp_store _ _ n); [done|by apply lookup_insert_eq|done|].
  intros b1 Hv1. apply wp_bind. eapply (wp_log_write _ _ n); [done|by apply lookup_insert_eq| |].
  { by apply (room_for_record n i v). }
  intros b2 Hv2. eapply (wp_release_buf _ _ n); [done|by apply lookup_insert_eq|simpl; set_solver|].
  intros b3 Hv3. rewrite upd_eq in Hv3 by done. by apply HQ.
Qed.

Lemma wp_bzero s v n Q :
  viewed (blk s) v -> range v n -> held v !! n = None -> n ∉ touched v -> spare 1 v ->
  (forall b, viewed b (upd n (replicate (Z.to_nat BSIZE) 0) v) -> Q tt (set_blk b s)) ->
  wp (bzero ROOTDEV n) Q s.
Proof.
  intros Hv Hr Hn Ht Hs HQ. unfold bzero. apply wp_bind. eapply wp_read; [done..| |].
  { eapply spare_mono; [|done]. lia. }
  intros i b Hb. eapply wp_commit_buf; [done..| |done|].
  { by rewrite length_replicate. }
  intros b' Hb'. by apply HQ.
Qed.

End laws.

(** ** The layout of the disk *)

(** Is block [b] marked in use in the bitmap? *)
Definition used (sb : superblock) (v : view) (b : Z) : bool :=
  negb (bit_free (content v (BBLOCK b sb)) (Z.to_nat (b mod BPB))).

Definition bitmap_block (sb : superblock) (n : Z) : Prop :=
  exists b, 0 <= b < sb_size sb /\ n = BBLOCK b sb.
Definition inode_block (sb : superblock) (n : Z) : Prop :=
  exists i, 0 <= i < sb_ninodes sb /\ n = IBLOCK i sb.
Definition meta (sb : superblock) (n : Z) : Prop :=
  n = 0 \/ n = 1 \/ bitmap_block sb n \/ inode_block sb n.

Lemma meta_bitmap sb n : bitmap_block sb n -> meta sb n.
Proof. intros. right. right. by left. Qed.

Lemma meta_inode sb n : inode_block sb n -> meta sb n.
Proof. intros. right. right. by right. Qed.

Record layout (sb : superblock) (v : view) : Prop := {
  lo_bmap : 0 <= sb_bmapstart sb /\ sb_bmapstart sb + sb_size sb < 2 ^ 31;
  lo_sb : decode_sb (content v 1) = sb;
  lo_one : range v 1;
  lo_bitmap : forall n, bitmap_block sb n -> range v n /\ n <> 1 /\ ~ inode_block sb n;
  lo_inode : forall n, inode_block sb n -> range v n /\ n <> 1;
  lo_free : forall b, 0 <= b < sb_size sb -> used sb v b = false -> range v b /\ ~ meta sb b;
}.

(** A block that holds file data. *)
Definition data_block (sb : superblock) (v : view) (b : Z) : Prop :=
  0 <= b < sb_size sb /\ range v b /\ ~ meta sb b.

(** [k] distinct free blocks are left. *)
Definition has_free (sb : superblock) (v : view) (k : nat) : Prop :=
  exists l, NoDup l /\ length l = k /\ forall b, b ∈ l -> 0 <= b < sb_size sb /\ used sb v b = false.

Lemma BBLOCK_eq sb v b :
  layout sb v -> 0 <= b < sb_size sb -> BBLOCK b sb = b / BPB + sb_bmapstart sb.
Proof.
  intros Hl Hb. unfold BBLOCK. apply u32_small. destruct (lo_bmap _ _ Hl).
  pose proof (Z.div_pos b BPB). pose proof (Z.div_le_upper_bound b BPB (sb_size sb)).
  unfold is_u32, W32, BPB, BSIZE in *. lia.
Qed.

Lemma bit_in_block b (d : list Z) :
  length d = Z.to_nat BSIZE -> (Z.to_nat (b mod BPB) / 8 < length d)%nat.
Proof.
  intros Hd. pose proof (Z.mod_pos_bound b BPB). unfold BPB, BSIZE in *.
  apply Nat.Div0.div_lt_upper_bound. lia.
Qed.

(** A write to the bitmap block of [b] that changes the bit of [b] only. *)
Lemma used_upd_bit sb v b b' d x :
  layout sb v -> 0 <= b < sb_size sb -> 0 <= b' < sb_size sb ->
  (forall bj, bit_free d bj =
     if decide (Z.to_nat (b mod BPB) = bj) then negb x else bit_free (content v (BBLOCK b sb)) bj) ->
  used sb (upd (BBLOCK b sb) d v) b' = if decide (b' = b) then x else used sb v b'.
Proof.
  intros Hl Hb Hb' Hd. unfold used. simpl.
  pose proof (Z.mod_pos_bound b BPB). pose proof (Z.mod_pos_bound b' BPB).
  destruct (decide (BBLOCK b sb = BBLOCK b' sb)) as [E|E].
  - rewrite <- E, fn_lookup_insert, Hd.
    rewrite !(BBLOCK_eq _ v) in E by done.
    destruct (decide (b' = b)) as [->|Hne].
    { rewrite decide_True by done. apply negb_involutive. }
    rewrite decide_False; [done|]. intros Em. apply Hne.
    rewrite (Z.div_mod b BPB), (Z.div_mod b' BPB) by (unfold BPB, BSIZE; lia).
    unfold BPB, BSIZE in *. lia.
  - rewrite fn_lookup_insert_ne by done. rewrite decide_False; [done|]. by intros ->.
Qed.

(** A write elsewhere changes no bit. *)
Lemma used_upd_other sb v n d b :
  0 <= b < sb_size sb -> ~ bitmap_block sb n -> used sb (upd n d v) b = used sb v b.
Proof.
  intros Hb Hn. unfold used. simpl. rewrite fn_lookup_insert_ne; [done|].
  intros ->. apply Hn. by exists b.
Qed.

(** Writes that keep the layout. *)
Lemma layout_upd sb v n d :
  layout sb v -> n <> 1 ->
  (forall b, 0 <= b < sb_size sb -> used sb (upd n d v) b = false -> range v b /\ ~ meta sb b) ->
  layout sb (upd n d v).
Proof.
  intros [] Hn Hf. split; simpl; try done. by rewrite fn_lookup_insert_ne.
Qed.

Lemma layout_upd_other sb v n d :
  layout sb v -> n <> 1 -> ~ bitmap_block sb n -> layout sb (upd n d v).
Proof.
  intros Hl Hn Hb. apply layout_upd; [done|done|]. intros b Hb'. rewrite used_upd_other by done.
  by apply Hl.
Qed.

(** [b] is a free block. *)
Definition free (sb : superblock) (v : view) (b : Z) : Prop :=
  0 <= b < sb_size sb /\ used sb v b = false.

(** The view after balloc() returned [b]. *)
Definition balloced (sb : superblock) (b : Z) (v : view) : view :=
  upd b (replicate (Z.to_nat BSIZE) 0)
    (upd (BBLOCK b sb) (bit_set (content v (BBLOCK b sb)) (Z.to_nat (b mod BPB))) v).

Lemma used_balloced sb v b b' :
  layout sb v -> 0 <= b < sb_size sb -> used sb v b = false -> 0 <= b' < sb_size sb ->
  length (content v (BBLOCK b sb)) = Z.to_nat BSIZE ->
  used sb (balloced sb b v) b' = if decide (b' = b) then true else used sb v b'.
Proof.
  intros Hl Hb Hu Hb' Hlen. unfold balloced.
  destruct (lo_free _ _ Hl b Hb Hu) as [_ Hm].
  rewrite used_upd_other; [|done|unfold meta in Hm; tauto].
  apply used_upd_bit; [done..|]. intros bj. by rewrite bit_free_set by (by apply bit_in_block).
Qed.

Lemma layout_balloced sb v b :
  layout sb v -> 0 <= b < sb_size sb -> used sb v b = false ->
  length (content v (BBLOCK b sb)) = Z.to_nat BSIZE -> layout sb (balloced sb b v).
Proof.
  intros Hl Hb Hu Hlen. pose proof (lo_free _ _ Hl b Hb Hu) as [_ Hm].
  assert (Hbb : bitmap_block sb (BBLOCK b sb)) by (by exists b).
  apply layout_upd_other; [|unfold meta in Hm; tauto..].
  apply layout_upd; [done|by apply (lo_bitmap _ _ Hl)|]. intros b' Hb'.
  rewrite (used_upd_bit _ _ _ _ _ true); [|done..|].
  - case_decide; [done|]. by apply Hl.
  - intros bj. by rewrite bit_free_set by (by apply bit_in_block).
Qed.

Lemma has_free_balloced sb v b k :
  layout sb v -> 0 <= b < sb_size sb -> used sb v b = false ->
  length (content v (BBLOCK b sb)) = Z.to_nat BSIZE ->
  has_free sb v (1 + k) -> has_free sb (balloced sb b v) k.
Proof.
  intros Hl Hb Hu Hlen (l & Hnd & Hk & Hfree).
  assert (Hsub : exists l', NoDup l' /\ length l' = k /\ (forall x, x ∈ l' -> x ∈ l /\ x <> b)).
  { destruct (decide (b ∈ l)) as [Hin|Hin].
    - apply list_elem_of_split in Hin as (l1 & l2 & ->). exists (l1 ++ l2).
      rewrite length_app in Hk. simpl in Hk. apply NoDup_app in Hnd as (Hn1 & Hd & Hn2).
      apply NoDup_cons in Hn2 as [Hb2 Hn2]. split; [apply NoDup_app; set_solver|].
      rewrite length_app. split; [lia|]. set_solver.
    - destruct l as [|y l]; [done|]. exists l. apply NoDup_cons in Hnd as [? ?].
      simpl in Hk. split; [done|]. split; [lia|]. set_solver. }
  destruct Hsub as (l' & Hnd' & Hk' & Hl'). exists l'. split; [done|]. split; [done|].
  intros x Hx. destruct (Hl' x Hx) as [Hin Hne]. destruct (Hfree x Hin) as [Hr Hux].
  split; [done|]. by rewrite used_balloced, decide_False.
Qed.

(** No buffer of a bitmap block, of a free block or of the super block is held,
    and no change is pending. *)
Record unheld (sb : superblock) (v : view) : Prop := {
  un_bitmap : forall n, bitmap_block sb n -> held v !! n = None;
  un_free : forall b, 0 <= b < sb_size sb -> used sb v b = false -> held v !! b = None;
  un_one : held v !! 1 = None;
  un_touched : touched v = ∅;
}.

Section blocks.
Context {S : Type} `{TxLaws S}.
Implicit Types (s : fsys S) (v : view).

(** Block [k * BPB + bi] of the scan. *)
Lemma scan_index sb v k bi :
  layout sb v -> 0 <= Z.of_nat k * BPB + Z.of_nat bi < sb_size sb -> Z.of_nat bi < BPB ->
  BBLOCK (Z.of_nat k * BPB) sb = BBLOCK (Z.of_nat k * BPB + Z.of_nat bi) sb /\
  Z.to_nat ((Z.of_nat k * BPB + Z.of_nat bi) mod BPB) = bi.
Proof.
  intros Hl Hb Hbi. assert (0 < BPB) by (unfold BPB, BSIZE; lia). split.
  - unfold BBLOCK. f_equal. f_equal. rewrite Z.div_mul by lia.
    rewrite Z.add_comm, Z.div_add by lia. rewrite (Z.div_small (Z.of_nat bi)) by lia. lia.
  - rewrite Z.add_comm, Z.mod_add, Z.mod_small by lia. lia.
Qed.

Lemma scan_used sb v k m b' :
  layout sb v -> Z.of_nat m <= BPB ->
  (forall bj, (bj < m)%nat -> bit_free (content v (BBLOCK (Z.of_nat k * BPB) sb)) bj = false) ->
  0 <= b' < sb_size sb -> Z.of_nat k * BPB <= b' < Z.of_nat k * BPB + Z.of_nat m ->
  used sb v b' = true.
Proof.
  intros Hl Hm Hbits Hb Hb'.
  assert (exists bj, b' = Z.of_nat k * BPB + Z.of_nat bj) as [bj ->].
  { exists (Z.to_nat (b' - Z.of_nat k * BPB)). lia. }
  destruct (scan_index _ _ k bj Hl) as [EB EM]; [lia|lia|].
  unfold used. rewrite <- EB, EM, Hbits; [done|lia].
Qed.

Lemma wp_balloc s v Q :
  viewed (blk s) v -> layout (sb s) v -> unheld (sb s) v -> has_free (sb s) v 1 -> spare 2 v ->
  (forall b x, 0 <= b < sb_size (sb s) -> used (sb s) v b = false ->
     (forall b', 0 <= b' < b -> used (sb s) v b' = true) ->
     viewed x (balloced (sb s) b v) -> Q b (set_blk x s)) ->
  wp (balloc ROOTDEV) Q s.
Proof.
  intros Hv Hl Hu (l & _ & Hlen & Hfree) Hsp HQ.
  destruct l as [|bf l]; [done|]. destruct (Hfree bf) as [Hbf Hbu]; [set_solver|]. clear Hfree Hlen l.
  unfold balloc. apply wp_bind, wp_gets. apply wp_bind.
  assert (HB : 0 < BPB) by (unfold BPB, BSIZE; lia).
  set (nb := Z.to_nat ((sb_size (sb s) + BPB - 1) / BPB)).
  apply (wp_for_find _ _ (fun done s' => exists x, s' = set_blk x s /\ viewed x v /\
    forall b, 0 <= b < sb_size (sb s) -> b < Z.of_nat (length done) * BPB -> used (sb s) v b = true)).
  - exists (blk s). split; [by destruct s|]. split; [done|]. simpl. lia.
  - intros l1 k l2 s' Hl1 (x & -> & Hx & Hused).
    assert (k = length l1) as Hk.
    { assert (seq 0 nb !! length l1 = Some k) as Hk by (rewrite Hl1; by apply list_lookup_middle).
      apply lookup_seq in Hk. lia. }
    assert (Hkn : (k < nb)%nat).
    { rewrite <- (length_seq nb 0), Hl1, length_app. simpl. lia. }
    set (b := Z.of_nat k * BPB). assert (Hb : 0 <= b < sb_size (sb s)).
    { unfold b. split; [lia|]. unfold nb in Hkn.
      pose proof (Z.mul_div_le (sb_size (sb s) + BPB - 1) BPB). nia. }
    assert (Hbb : bitmap_block (sb s) (BBLOCK b (sb s))) by (by exists b).
    destruct (lo_bitmap _ _ Hl _ Hbb) as (Hr & Hn1 & _).
    apply wp_bind. eapply wp_read; [exact Hx|done|by apply Hu| |].
    { eapply spare_mono; [|done]. lia. }
    intros i x1 Hx1. apply wp_bind. eapply (wp_data _ _ (BBLOCK b (sb s)));
      [done|by apply lookup_insert_eq|]. simpl.
    pose proof (first_free_spec (content v (BBLOCK b (sb s)))
      (seq 0 (Z.to_nat (Z.min BPB (sb_size (sb s) - b))))) as Hff.
    destruct (first_free _ _) as [bi|].
    + destruct Hff as (q1 & q2 & Hq & Hbi & Hq1).
      set (m := Z.to_nat (Z.min BPB (sb_size (sb s) - b))) in *.
      assert (seq 0 m !! length q1 = Some bi) as Hi by (rewrite Hq; by apply list_lookup_middle).
      apply lookup_seq in Hi as [Hi Him]. simpl in Hi.
      assert (Hrg : 0 <= b + Z.of_nat bi < sb_size (sb s)) by lia. assert (Hbp : Z.of_nat bi < BPB) by lia.
      destruct (scan_index _ _ k bi Hl) as [EB EM]; [lia|lia|]. fold b in EB, EM.
      assert (Hfr : used (sb s) v (b + Z.of_nat bi) = false).
      { unfold used. by rewrite <- EB, EM, Hbi. }
      assert (Hlow : forall b', 0 <= b' < b + Z.of_nat bi -> used (sb s) v b' = true).
      { intros b' Hb'. assert (0 <= b' < sb_size (sb s)) by lia.
        destruct (Z.lt_ge_cases b' b) as [Hlt|Hge]; [apply Hused; lia|].
        apply (scan_used _ _ k bi _ Hl); [lia| |done|fold b; lia]. intros bj Hj. apply Hq1.
        assert (seq 0 m !! bj = Some bj) as Hjm by (apply lookup_seq; lia).
        rewrite Hq, lookup_app_l in Hjm by lia. by eapply list_elem_of_lookup_2. }
      destruct (lo_free _ _ Hl _ Hrg Hfr) as [Hrn Hnm].
      apply wp_seq3. eapply wp_commit_buf; [exact Hx1|by apply Hu|by rewrite (un_touched _ _ Hu)| | |].
      { unfold bit_set. rewrite length_insert. by apply (law_size x v). }
      { eapply spare_mono; [|done]. lia. }
      intros x2 Hx2. apply wp_bind. eapply wp_bzero; [exact Hx2|done| | | |].
      { simpl. apply (un_free _ _ Hu); [apply Hrg|done]. }
      { simpl. by rewrite (un_touched _ _ Hu). }
      { by apply spare_upd. }
      intros x3 Hx3. simpl. apply wp_ret. apply HQ; [done..|].
      unfold balloced. by rewrite <- EB, EM.
    + apply wp_bind. eapply (wp_release_buf _ _ (BBLOCK b (sb s)));
        [exact Hx1|by apply lookup_insert_eq|simpl; by rewrite (un_touched _ _ Hu)|].
      intros x2 Hx2. rewrite unhold_hold in Hx2 by (by apply Hu). apply wp_ret.
      exists x2. split; [done|]. split; [done|]. rewrite length_app. simpl. intros b' Hb' Hlt.
      destruct (Z.lt_ge_cases b' b) as [?|Hge]; [apply Hused; lia|].
      eapply (scan_used _ _ k (Z.to_nat (Z.min BPB (sb_size (sb s) - b))) _ Hl); [lia| |done|fold b; lia].
      intros bj Hj. apply Hff, elem_of_seq. lia.
  - intros s' (x & -> & Hx & Hused). rewrite length_seq in Hused. exfalso.
    rewrite Hused in Hbu; [done|done|]. unfold nb.
    pose proof (Z.mul_succ_div_gt (sb_size (sb s) + BPB - 1) BPB). nia.
Qed.

Lemma wp_readsb_fs s v Q :
  viewed (blk s) v -> range v 1 -> held v !! 1 = None -> touched v = ∅ -> spare 0 v ->
  (forall x, viewed x v -> Q (decode_sb (content v 1)) (set_blk x s)) ->
  wp (onblk (readsb ROOTDEV)) Q s.
Proof.
  intros Hv Hr Hn Ht Hs HQ. apply wp_onblk. unfold readsb. apply wp_bind.
  eapply law_read; [done..|by eapply fits_spare|]. intros i x Hx.
  apply wp_bind. eapply (law_data _ _ 1); [done|by apply lookup_insert_eq|].
  apply wp_bind. eapply (law_release _ _ 1); [done|by apply lookup_insert_eq|simpl; by rewrite Ht|].
  intros x' Hx'. rewrite unhold_hold in Hx' by done. apply wp_ret. by apply HQ.
Qed.

(** The view after bfree(b). *)
Definition freed (sb : superblock) (b : Z) (v : view) : view :=
  upd (BBLOCK b sb) (bit_clear (content v (BBLOCK b sb)) (Z.to_nat (b mod BPB))) v.

Lemma used_freed sb v b b' :
  layout sb v -> 0 <= b < sb_size sb -> 0 <= b' < sb_size sb ->
  length (content v (BBLOCK b sb)) = Z.to_nat BSIZE ->
  used sb (freed sb b v) b' = if decide (b' = b) then false else used sb v b'.
Proof.
  intros Hl Hb Hb' Hlen. apply used_upd_bit; [done..|].
  intros bj. by rewrite bit_free_clear by (by apply bit_in_block).
Qed.

Lemma layout_freed sb v b :
  layout sb v -> data_block sb v b -> length (content v (BBLOCK b sb)) = Z.to_nat BSIZE ->
  layout sb (freed sb b v).
Proof.
  intros Hl (Hb & Hr & Hm) Hlen. apply layout_upd; [done| |].
  { apply (lo_bitmap _ _ Hl). by exists b. }
  intros b' Hb' Hu. change (used sb (freed sb b v) b' = false) in Hu.
  rewrite used_freed in Hu by done. case_decide; [by subst|by apply Hl].
Qed.

Lemma set_sb_blk s x : set_sb (sb s) (set_blk x s) = set_blk x s.
Proof. by destruct s. Qed.

Lemma wp_bfree s v b Q :
  viewed (blk s) v -> layout (sb s) v -> unheld (sb s) v -> 0 <= b < sb_size (sb s) ->
  used (sb s) v b = true -> spare 1 v ->
  (forall x, viewed x (freed (sb s) b v) -> Q tt (set_blk x s)) ->
  wp (bfree ROOTDEV b) Q s.
Proof.
  intros Hv Hl Hu Hb Hub Hsp HQ. assert (Hsp0 : spare 0 v) by (eapply spare_mono; [|done]; lia).
  assert (Hbb : bitmap_block (sb s) (BBLOCK b (sb s))) by (by exists b).
  destruct (lo_bitmap _ _ Hl _ Hbb) as (Hr & Hn1 & _).
  unfold bfree. apply wp_bind. eapply wp_readsb_fs; [done|by apply lo_one with (sb s)|apply (un_one _ _ Hu)|apply (un_touched _ _ Hu)|done|].
  intros x1 Hx1. rewrite (lo_sb _ _ Hl). apply wp_bind, wp_modify. rewrite set_sb_blk.
  apply wp_bind. eapply wp_read; [exact Hx1|done|by apply Hu|done|]. intros i x2 Hx2.
  apply wp_bind. eapply (wp_data _ _ (BBLOCK b (sb s))); [done|by apply lookup_insert_eq|]. simpl.
  apply wp_bind, wp_panic_if.
  { unfold used in Hub. by apply negb_true_iff in Hub. }
  eapply wp_commit_buf; [exact Hx2|by apply Hu|by rewrite (un_touched _ _ Hu)| |done|].
  { unfold bit_clear. rewrite length_insert. by apply (law_size x1 v). }
  intros x3 Hx3. by apply HQ.
Qed.

Lemma unheld_upd sb v n d :
  unheld sb v ->
  (forall b, 0 <= b < sb_size sb -> used sb (upd n d v) b = false -> held v !! b = None) ->
  unheld sb (upd n d v).
Proof. intros [] Hf. by split. Qed.

Lemma unheld_balloced sb v b :
  layout sb v -> unheld sb v -> 0 <= b < sb_size sb -> used sb v b = false ->
  length (content v (BBLOCK b sb)) = Z.to_nat BSIZE -> unheld sb (balloced sb b v).
Proof.
  intros Hl [U1 U2 U3 U4] Hb Hub Hlen. split; [done| |done|done].
  intros b' Hb'. rewrite used_balloced by done. case_decide; [done|]. by apply U2.
Qed.

(** balloc() returns the lowest free block, zeroed and marked in use; every
    other block keeps its content and its mark. *)
Theorem balloc_correct s v :
  viewed (blk s) v -> layout (sb s) v -> unheld (sb s) v -> has_free (sb s) v 1 -> spare 2 v ->
  wp (balloc ROOTDEV) (fun b s' => exists v', viewed (blk s') v' /\ layout (sb s') v' /\
    0 <= b < sb_size (sb s) /\ used (sb s) v b = false /\
    (forall b', 0 <= b' < b -> used (sb s) v b' = true) /\
    content v' b = replicate (Z.to_nat BSIZE) 0 /\
    (forall b', 0 <= b' < sb_size (sb s) ->
       used (sb s) v' b' = if decide (b' = b) then true else used (sb s) v b') /\
    (forall n, n <> b -> ~ bitmap_block (sb s) n -> content v' n = content v n)) s.
Proof.
  intros Hv Hl Hu Hf Hsp. eapply wp_balloc; [done..|]. intros b x Hb Hub Hlow Hx.
  assert (Hlen : length (content v (BBLOCK b (sb s))) = Z.to_nat BSIZE).
  { apply (law_size _ _ _ Hv). apply (lo_bitmap _ _ Hl). by exists b. }
  eexists. split; [exact Hx|]. split; [by apply layout_balloced|]. split; [done|]. split; [done|].
  split; [done|]. split; [simpl; by rewrite fn_lookup_insert|]. split.
  - intros b' Hb'. by apply used_balloced.
  - intros n Hn Hm. simpl. rewrite !fn_lookup_insert_ne; [done| |done].
    intros <-. apply Hm. by exists b.
Qed.

(** freeing a block that is not in use panics. *)
Theorem bfree_double_free s v b :
  viewed (blk s) v -> layout (sb s) v -> unheld (sb s) v -> 0 <= b < sb_size (sb s) ->
  used (sb s) v b = false -> spare 0 v ->
  panics (bfree ROOTDEV b) "freeing free block" s.
Proof.
  intros Hv Hl Hu Hb Hub Hsp. assert (Hbb : bitmap_block (sb s) (BBLOCK b (sb s))) by (by exists b).
  destruct (lo_bitmap _ _ Hl _ Hbb) as (Hr & Hn1 & _).
  unfold bfree. apply panics_bind. eapply wp_readsb_fs; [done|by apply lo_one with (sb s)|apply (un_one _ _ Hu)|apply (un_touched _ _ Hu)|done|].
  intros x1 Hx1. rewrite (lo_sb _ _ Hl). apply panics_bind, wp_modify. rewrite set_sb_blk.
  apply panics_bind. eapply wp_read; [exact Hx1|done|by apply Hu|done|]. intros i x2 Hx2.
  apply panics_bind. eapply (wp_data _ _ (BBLOCK b (sb s))); [done|by apply lookup_insert_eq|]. simpl.
  apply panics_here, panics_if. unfold used in Hub. by apply negb_false_iff in Hub.
Qed.

(** bfree() undoes balloc(): the bitmap is as before, so the next balloc()
    returns the same block. *)
Theorem bfree_balloc s v :
  viewed (blk s) v -> layout (sb s) v -> unheld (sb s) v -> has_free (sb s) v 1 -> spare 3 v ->
  wp (let* b := balloc ROOTDEV in bfree ROOTDEV b)
    (fun _ s' => exists v', viewed (blk s') v' /\
       forall b, 0 <= b < sb_size (sb s) -> used (sb s) v' b = used (sb s) v b) s.
Proof.
  intros Hv Hl Hu Hf Hsp. apply wp_bind. eapply wp_balloc; [done..|by eapply spare_mono; [|done]; lia|].
  intros b x Hb Hub Hlow Hx.
  assert (Hlen : forall b, 0 <= b < sb_size (sb s) ->
    length (content v (BBLOCK b (sb s))) = Z.to_nat BSIZE).
  { intros c Hc. apply (law_size _ _ _ Hv). apply (lo_bitmap _ _ Hl). by exists c. }
  assert (Hl' : layout (sb s) (balloced (sb s) b v)) by (apply layout_balloced; auto).
  eapply wp_bfree; [exact Hx|exact Hl'|by apply unheld_balloced; auto|done| | |].
  { rewrite used_balloced, decide_True; auto. }
  { by do 2 apply spare_upd. }
  intros x' Hx'. eexists. split; [exact Hx'|]. intros b' Hb'. simpl.
  assert (Hlen' : length (content (balloced (sb s) b v) (BBLOCK b (sb s))) = Z.to_nat BSIZE).
  { apply (law_size _ _ _ Hx). apply (lo_bitmap _ _ Hl). by exists b. }
  rewrite used_freed by done. case_decide; [by subst|]. by rewrite used_balloced, decide_False by auto.
Qed.

End blocks.
