(* ===== verification/FsFile.v ===== *)
(** Inode content of fs.c: bmap(), readi() and writei().

    A file is a function from byte offsets to bytes ([file_byte]).  bmap()
    changes no byte of any file; readi() returns the bytes asked for; writei()
    replaces exactly the bytes asked for. *)

From stdpp Require Import functions.
From S2P Require Import Prelude Params Bytes Buf Log Tx Fs FsBlocks.

Abbreviation zeros := (replicate (Z.to_nat BSIZE) 0).

(** ** The blocks and the bytes of an inode *)

Definition ind_of (x : inode) : Z := default 0 (i_addrs x !! Z.to_nat NDIRECT).

Definition addr_of (x : inode) (v : view) (bn : Z) : Z :=
  if bn <? NDIRECT then default 0 (i_addrs x !! Z.to_nat bn)
  else if ind_of x =? 0 then 0
  else get_u32 (Z.to_nat (4 * (bn - NDIRECT))) (content v (ind_of x)).

Definition file_block (x : inode) (v : view) (bn : Z) : list Z :=
  if addr_of x v bn =? 0 then zeros else content v (addr_of x v bn).

Definition file_byte (x : inode) (v : view) (o : Z) : Z :=
  byte_at (file_block x v (o / BSIZE)) (Z.to_nat (o mod BSIZE)).

(** The block pointers of an inode: -1 is that of the indirect block. *)
Definition slot (x : inode) (v : view) (k : Z) : Z :=
  if k =? -1 then ind_of x else addr_of x v k.

(** Block [n] belongs to the inode. *)
Definition owns (x : inode) (v : view) (n : Z) : Prop :=
  n <> 0 /\ exists k, -1 <= k < MAXFILE /\ n = slot x v k.

Record inode_ok (sb : superblock) (v : view) (x : inode) : Prop := {
  io_dev : i_dev x = ROOTDEV;
  io_len : length (i_addrs x) = 13%nat;
  io_owns : forall n, owns x v n -> data_block sb v n /\ used sb v n = true /\ held v !! n = None;
  io_inj : forall k k', -1 <= k < MAXFILE -> -1 <= k' < MAXFILE -> slot x v k <> 0 ->
    slot x v k = slot x v k' -> k = k';
}.

(** The blocks that an operation on the inode may not change. *)
Definition foreign (sb : superblock) (x : inode) (v : view) (n : Z) : Prop :=
  ~ free sb v n /\ ~ owns x v n /\ ~ bitmap_block sb n.

(** The transaction stays the same, and the super block out of it. *)
Definition same_tx (v v' : view) : Prop := opens v' = opens v /\ (1 ∈ logged v' -> 1 ∈ logged v).

Lemma same_tx_upd v n d : n <> 1 -> same_tx v (upd n d v).
Proof. intros Hn. split; [done|]. cbn. set_solver. Qed.

Lemma same_tx_trans v v1 v2 : same_tx v v1 -> same_tx v1 v2 -> same_tx v v2.
Proof. unfold same_tx. intros [-> ?] [-> ?]. auto. Qed.

(** What bmap() and writei() keep. *)
Record extends (sb : superblock) (x : inode) (v : view) (x' : inode) (v' : view) : Prop := {
  ex_inode : x' = set_i_addrs (i_addrs x') x;
  ex_range : range v' = range v;
  ex_limit : limit v' = limit v;
  ex_base : base v' = base v;
  ex_held : held v' = held v;
  ex_touched : touched v' = touched v;
  ex_layout : layout sb v';
  ex_unheld : unheld sb v';
  ex_ok : inode_ok sb v' x';
  ex_used : forall b, 0 <= b < sb_size sb -> used sb v b = true -> used sb v' b = true;
  ex_owns : forall n, owns x' v' n -> owns x v n \/ free sb v n;
  ex_foreign : forall n, foreign sb x v n -> content v' n = content v n;
  ex_slot : forall k, -1 <= k < MAXFILE -> slot x v k <> 0 -> slot x' v' k = slot x v k;
  ex_tx : same_tx v v';
}.

(** What every law needs of the state. *)
Record fs_at (sb : superblock) (v : view) (x : inode) : Prop := {
  fa_layout : layout sb v;
  fa_unheld : unheld sb v;
  fa_ok : inode_ok sb v x;
  fa_size : forall n, range v n -> length (content v n) = Z.to_nat BSIZE;
}.

Lemma extends_refl sb x v : fs_at sb v x -> extends sb x v x v.
Proof. intros []. split; try done; [by destruct x|by left]. Qed.

Lemma extends_trans sb x v x1 v1 x2 v2 :
  extends sb x v x1 v1 -> extends sb x1 v1 x2 v2 -> extends sb x v x2 v2.
Proof.
  intros E1 E2.
  assert (Hfree : forall n, free sb v1 n -> free sb v n).
  { intros n [Hn Hu]. split; [done|]. destruct (used sb v n) eqn:E; [|done].
    by rewrite (ex_used _ _ _ _ _ E1) in Hu. }
  split; try (by apply E2); try (etrans; [by apply E2|by apply E1]).
  - rewrite (ex_inode _ _ _ _ _ E2) at 1. rewrite (ex_inode _ _ _ _ _ E1). by destruct x.
  - intros b Hb Hu. by apply (ex_used _ _ _ _ _ E2), (ex_used _ _ _ _ _ E1).
  - intros n [Hn|Hn]%(ex_owns _ _ _ _ _ E2); [by apply (ex_owns _ _ _ _ _ E1)|auto].
  - intros n (Hf & Ho & Hb). etrans; [apply E2|apply E1; by repeat split].
    split; [auto|]. split; [|done]. intros [?|?]%(ex_owns _ _ _ _ _ E1); done.
  - intros k Hk Hnz. pose proof (ex_slot _ _ _ _ _ E1 k Hk Hnz) as E.
    rewrite <- E. apply (ex_slot _ _ _ _ _ E2); [done|congruence].
  - by eapply same_tx_trans; [apply E1|apply E2].
Qed.

Lemma free_data sb v b : layout sb v -> free sb v b -> data_block sb v b /\ b <> 0.
Proof.
  intros Hl [Hb Hu]. destruct (lo_free _ _ Hl b Hb Hu) as [Hr Hm]. split; [done|].
  intros ->. apply Hm. by left.
Qed.

(** One null pointer of the inode becomes the newly allocated block [b]. *)
Lemma extends_alloc sb x v x' v' k0 b :
  fs_at sb v x -> free sb v b -> -1 <= k0 < MAXFILE -> slot x v k0 = 0 -> slot x' v' k0 = b ->
  (forall k, -1 <= k < MAXFILE -> k <> k0 -> slot x' v' k = slot x v k) ->
  x' = set_i_addrs (i_addrs x') x -> length (i_addrs x') = 13%nat ->
  range v' = range v -> limit v' = limit v -> base v' = base v -> held v' = held v ->
  touched v' = touched v -> layout sb v' -> unheld sb v' ->
  (forall b', 0 <= b' < sb_size sb ->
     used sb v' b' = if decide (b' = b) then true else used sb v b') ->
  (forall n, foreign sb x v n -> content v' n = content v n) -> same_tx v v' ->
  extends sb x v x' v'.
Proof.
  intros [Hl Hu Hok _] Hb Hk0 H0 Hb' Hk Hx Hlen Hr Hlim Hbase Hheld Ht Hl' Hu' Hused Hfor Htx.
  destruct (free_data _ _ _ Hl Hb) as [Hbd Hbn].
  assert (Hold : forall k, -1 <= k < MAXFILE -> slot x v k <> 0 -> slot x v k <> b).
  { intros k Hkr Hk1 E. destruct (io_owns _ _ _ Hok (slot x v k)) as (_ & Hub & _).
    - split; [done|]. by exists k.
    - rewrite E in Hub. destruct Hb as [_ Hb]. congruence. }
  assert (Hown : forall n, owns x' v' n -> (owns x v n \/ n = b)).
  { intros n (Hn & k & Hkr & ->). destruct (decide (k = k0)) as [->|Hne]; [by right|left].
    rewrite Hk in * by done. split; [done|]. by exists k. }
  split; try done.
  - split; [|done| |].
    + rewrite Hx. by apply Hok.
    + intros n [Hn| ->]%Hown.
      * destruct (io_owns _ _ _ Hok n Hn) as ((Hns & Hnr & Hnm) & Hnu & Hnh).
        split; [by split; [|rewrite Hr]|]. rewrite Hused by done. split; [by case_decide|].
        by rewrite Hheld.
      * split; [destruct Hbd as (?&?&?); by split; [|rewrite Hr]|].
        rewrite Hused by apply Hbd. split; [by rewrite decide_True|].
        rewrite Hheld. apply (un_free _ _ Hu); apply Hb.
    + intros k k' Hkr Hkr'. destruct (decide (k = k0)) as [->|Hne], (decide (k' = k0)) as [->|Hne'];
        [done| | |].
      * rewrite Hb', (Hk k') by done. intros _ E. exfalso. by apply (Hold k'); rewrite <- ?E.
      * rewrite Hb', (Hk k) by done. intros Hk1 E. by apply Hold in E.
      * rewrite !Hk by done. by apply (io_inj _ _ _ Hok).
  - intros b' Hb1 Hu1. rewrite Hused by done. by case_decide.
  - intros n [Hn| ->]%Hown; auto.
  - intros k Hkr Hk1. apply Hk; [done|]. by intros ->.
Qed.

(** ... and the file has the same blocks if that block reads as zeros. *)
Lemma file_block_alloc sb x v x' v' k0 b :
  fs_at sb v x -> free sb v b -> slot x v k0 = 0 -> slot x' v' k0 = b ->
  (forall k, -1 <= k < MAXFILE -> k <> k0 -> slot x' v' k = slot x v k) ->
  content v' b = zeros ->
  (forall k, 0 <= k < MAXFILE -> slot x v k <> 0 -> content v' (slot x v k) = content v (slot x v k)) ->
  forall bn, 0 <= bn < MAXFILE -> file_block x' v' bn = file_block x v bn.
Proof.
  intros Hat Hb H0 Hb' Hk Hz Hc bn Hbn.
  destruct (free_data _ _ _ (fa_layout _ _ _ Hat) Hb) as [_ Hbn0].
  assert (Es : forall y w, slot y w bn = addr_of y w bn).
  { intros y w. unfold slot. destruct (Z.eqb_spec bn (-1)); [lia|done]. }
  unfold file_block. rewrite <- !Es. destruct (decide (bn = k0)) as [->|Hne].
  - rewrite H0, Hb'. simpl. destruct (Z.eqb_spec b 0); [done|]. done.
  - rewrite Hk by lia. destruct (Z.eqb_spec (slot x v bn) 0); [done|]. by apply Hc.
Qed.

(** ** The three ways bmap() allocates *)

Lemma content_balloced sb v b n :
  n <> b -> ~ bitmap_block sb n -> 0 <= b < sb_size sb -> content (balloced sb b v) n = content v n.
Proof.
  intros Hn Hm Hb. simpl. rewrite !fn_lookup_insert_ne; [done| |done].
  intros <-. apply Hm. by exists b.
Qed.

Lemma content_new sb v b : content (balloced sb b v) b = zeros.
Proof. simpl. by rewrite fn_lookup_insert. Qed.

(** Blocks that balloc() leaves alone. *)
Lemma owned_kept sb v x b n :
  fs_at sb v x -> free sb v b -> owns x v n ->
  n <> b /\ ~ bitmap_block sb n /\ content (balloced sb b v) n = content v n.
Proof.
  intros Hat Hb Hn. destruct (io_owns _ _ _ (fa_ok _ _ _ Hat) n Hn) as ((_ & _ & Hm) & Hu & _).
  assert (n <> b) by (intros ->; destruct Hb; congruence).
  assert (~ bitmap_block sb n) by (intros Hbb; apply Hm; right; right; by left).
  split; [done|]. split; [done|]. apply content_balloced; [done..|apply Hb].
Qed.

Lemma bitmap_len sb v x b :
  fs_at sb v x -> 0 <= b < sb_size sb -> length (content v (BBLOCK b sb)) = Z.to_nat BSIZE.
Proof.
  intros [Hl _ _ Hs] Hb. apply Hs. apply (lo_bitmap _ _ Hl). by exists b.
Qed.

Lemma slot_nonneg x v k : 0 <= k -> slot x v k = addr_of x v k.
Proof. intros. unfold slot. destruct (Z.eqb_spec k (-1)); [lia|done]. Qed.

Lemma owns_slot x v k : -1 <= k < MAXFILE -> slot x v k <> 0 -> owns x v (slot x v k).
Proof. intros Hk Hn. split; [done|]. by exists k. Qed.

Lemma ind_slot x v : slot x v (-1) = ind_of x.
Proof. done. Qed.

Definition with_addr (x : inode) (i : Z) (b : Z) : inode :=
  set_i_addrs (<[Z.to_nat i := b]> (i_addrs x)) x.

Lemma foreign_balloced sb x v b n :
  free sb v b -> foreign sb x v n -> content (balloced sb b v) n = content v n.
Proof.
  intros Hb (Hf & _ & Hm). apply content_balloced; [|done|apply Hb]. by intros ->.
Qed.

(** Pointers of the indirect block are not affected by an allocation. *)
Lemma addr_of_balloced sb v x b k :
  fs_at sb v x -> free sb v b -> addr_of x (balloced sb b v) k = addr_of x v k.
Proof.
  intros Hat Hb. unfold addr_of. destruct (k <? NDIRECT); [done|].
  destruct (Z.eqb_spec (ind_of x) 0) as [|Hi]; [done|].
  destruct (owned_kept sb v x b (ind_of x) Hat Hb) as (_ & _ & ->); [|done].
  apply (owns_slot x v (-1)); [rewrite MAXFILE_val; lia|done].
Qed.

Lemma same_tx_balloced sb v b : layout sb v -> free sb v b -> same_tx v (balloced sb b v).
Proof.
  intros Hl Hb. destruct (free_data _ _ _ Hl Hb) as [(_ & _ & Hm) _].
  destruct (lo_bitmap _ _ Hl (BBLOCK b sb)) as (_ & H1 & _); [exists b; split; [apply Hb|done]|].
  eapply same_tx_trans; apply same_tx_upd; [exact H1|]. intros ->. apply Hm. right. by left.
Qed.

Section allocs.
Context (sb : superblock) (v : view) (x : inode) (Hat : fs_at sb v x).
Context (b : Z) (Hb : free sb v b).

Lemma alloc_common x' k0 :
  -1 <= k0 < MAXFILE -> slot x v k0 = 0 -> slot x' (balloced sb b v) k0 = b ->
  (forall k, -1 <= k < MAXFILE -> k <> k0 -> slot x' (balloced sb b v) k = slot x v k) ->
  x' = set_i_addrs (i_addrs x') x -> length (i_addrs x') = 13%nat ->
  extends sb x v x' (balloced sb b v) /\
  forall bn, 0 <= bn < MAXFILE -> file_block x' (balloced sb b v) bn = file_block x v bn.
Proof.
  intros Hk0 H0 Hb' Hk Hx Hlen. destruct Hat as [Hl Hu Hok Hs]. destruct Hb as [Hbr Hbu].
  pose proof (bitmap_len _ _ _ _ Hat Hbr) as Hbl. split.
  - eapply extends_alloc; try done.
    + by apply layout_balloced.
    + by apply unheld_balloced.
    + intros b' Hb1. by apply used_balloced.
    + intros n Hn. by eapply foreign_balloced.
    + by apply same_tx_balloced.
  - eapply file_block_alloc; try done.
    + apply content_new.
    + intros k Hk1 Hk2. eapply owned_kept; [done..|]. apply owns_slot; [lia|done].
Qed.

(** A direct pointer, or that of the indirect block. *)
Lemma alloc_direct i :
  0 <= i <= NDIRECT -> default 0 (i_addrs x !! Z.to_nat i) = 0 ->
  let x' := with_addr x i b in
  extends sb x v x' (balloced sb b v) /\
  (forall bn, 0 <= bn < MAXFILE -> file_block x' (balloced sb b v) bn = file_block x v bn) /\
  default 0 (i_addrs x' !! Z.to_nat i) = b /\
  (i = NDIRECT -> forall bn, NDIRECT <= bn -> addr_of x' (balloced sb b v) bn = 0).
Proof.
  intros Hi H0 x'. pose proof (io_len _ _ _ (fa_ok _ _ _ Hat)) as Hlen.
  assert (Hb0 : b <> 0) by (apply (free_data _ _ _ (fa_layout _ _ _ Hat) Hb)).
  assert (Hlk : forall j, default 0 (i_addrs x' !! j) =
    if decide (j = Z.to_nat i) then b else default 0 (i_addrs x !! j)).
  { intros j. simpl. case_decide.
    - subst. rewrite list_lookup_insert_eq; [done|]. unfold NDIRECT in Hi. lia.
    - by rewrite list_lookup_insert_ne. }
  assert (Hind : i = NDIRECT -> forall bn, NDIRECT <= bn -> addr_of x' (balloced sb b v) bn = 0).
  { intros -> bn Hbn. unfold addr_of. destruct (Z.ltb_spec bn NDIRECT); [lia|].
    unfold ind_of. rewrite Hlk, decide_True by done. destruct (Z.eqb_spec b 0); [done|].
    rewrite content_new. apply get_le_zeros. }
  set (k0 := if decide (i = NDIRECT) then -1 else i).
  assert (Hk0 : -1 <= k0 < MAXFILE).
  { rewrite MAXFILE_val. unfold k0, NDIRECT in *. case_decide; lia. }
  destruct (alloc_common x' k0) as [He Hf]; [done|..].
  - unfold k0. case_decide as E; [by rewrite E in H0|].
    rewrite slot_nonneg by lia. unfold addr_of. destruct (Z.ltb_spec i NDIRECT); [done|lia].
  - unfold k0. case_decide as E.
    + rewrite ind_slot. unfold ind_of. by rewrite Hlk, decide_True by (by rewrite E).
    + rewrite slot_nonneg by lia. unfold addr_of. destruct (Z.ltb_spec i NDIRECT); [|lia].
      by rewrite Hlk, decide_True.
  - intros k Hk Hne. destruct (decide (k = -1)) as [->|Hk1].
    + rewrite !ind_slot. unfold ind_of. rewrite Hlk, decide_False; [done|].
      unfold k0 in Hne. case_decide; [done|]. unfold NDIRECT in *. lia.
    + rewrite !slot_nonneg by lia. destruct (Z.lt_ge_cases k NDIRECT) as [Hd|Hd].
      * unfold addr_of. destruct (Z.ltb_spec k NDIRECT); [|lia]. rewrite Hlk, decide_False; [done|].
        unfold k0 in Hne. case_decide; unfold NDIRECT in *; lia.
      * destruct (decide (i = NDIRECT)) as [->|Hin].
        -- rewrite Hind by lia. unfold addr_of. destruct (Z.ltb_spec k NDIRECT); [lia|].
           unfold ind_of. by rewrite H0.
        -- rewrite <- (addr_of_balloced sb v x b k) by done. unfold addr_of.
           destruct (Z.ltb_spec k NDIRECT); [lia|]. assert (ind_of x' = ind_of x) as ->; [|done].
           unfold ind_of. by rewrite Hlk, decide_False by (unfold NDIRECT in *; lia).
  - done.
  - simpl. by rewrite length_insert.
  - split; [done|]. split; [done|]. split; [|done]. by rewrite Hlk, decide_True.
Qed.

(** A pointer of the indirect block. *)
Lemma alloc_entry bn :
  NDIRECT <= bn < MAXFILE -> ind_of x <> 0 -> addr_of x v bn = 0 ->
  let d := put_u32 (Z.to_nat (4 * (bn - NDIRECT))) b (content v (ind_of x)) in
  let v' := upd (ind_of x) d (balloced sb b v) in
  extends sb x v x v' /\
  (forall k, 0 <= k < MAXFILE -> file_block x v' k = file_block x v k) /\ addr_of x v' bn = b.
Proof.
  intros Hbn Hi H0 d v'. pose proof Hat as [Hl Hu Hok Hs]. destruct Hb as [Hbr Hbu].
  assert (Hm : MAXFILE = 140) by reflexivity.
  assert (Hoi : owns x v (ind_of x)) by (apply (owns_slot x v (-1)); [lia|done]).
  destruct (io_owns _ _ _ Hok _ Hoi) as ((Hir & Hirg & Him) & Hiu & Hih).
  destruct (owned_kept _ _ _ _ _ Hat Hb Hoi) as (Hib & Hibb & Hic).
  assert (Hi1 : ind_of x <> 1) by (intros E; apply Him; unfold meta; tauto).
  assert (Hlen : length (content v (ind_of x)) = Z.to_nat BSIZE) by auto.
  assert (Hfit : (Z.to_nat (4 * (bn - NDIRECT)) + 4 <= length (content v (ind_of x)))%nat).
  { rewrite Hlen. unfold NDIRECT, BSIZE in *. lia. }
  assert (Hb32 : 0 <= b < 2 ^ 32) by (destruct (lo_bmap _ _ Hl); lia).
  assert (Hbl : length (content v (BBLOCK b sb)) = Z.to_nat BSIZE) by (by eapply bitmap_len).
  assert (Hci : content v' (ind_of x) = d) by (simpl; by rewrite fn_lookup_insert).
  assert (Hcn : forall n, n <> ind_of x -> content v' n = content (balloced sb b v) n).
  { intros n Hn. unfold v'. cbn [content upd]. by rewrite fn_lookup_insert_ne. }
  assert (Haddr : forall k, NDIRECT <= k < MAXFILE ->
    addr_of x v' k = if decide (k = bn) then b else addr_of x v k).
  { intros k Hk. unfold addr_of. destruct (Z.ltb_spec k NDIRECT); [lia|].
    destruct (Z.eqb_spec (ind_of x) 0); [done|]. rewrite Hci. unfold d. case_decide.
    - subst. rewrite get_put_le by done. by apply Z.mod_small.
    - apply get_put_le_other; [done|]. unfold NDIRECT in *. lia. }
  assert (Hslot : forall k, -1 <= k < MAXFILE -> k <> bn -> slot x v' k = slot x v k).
  { intros k Hk Hne. destruct (decide (k = -1)) as [->|]; [done|]. rewrite !slot_nonneg by lia.
    destruct (Z.lt_ge_cases k NDIRECT); [|by rewrite Haddr, decide_False by lia].
    unfold addr_of. by destruct (Z.ltb_spec k NDIRECT); [|lia]. }
  assert (Hsb : slot x v' bn = b) by (rewrite slot_nonneg, Haddr, decide_True by (unfold NDIRECT in *; lia); done).
  assert (Hl' : layout sb v') by (apply layout_upd_other; [by apply layout_balloced|done|done]).
  assert (Hused : forall b', 0 <= b' < sb_size sb ->
    used sb v' b' = if decide (b' = b) then true else used sb v b').
  { intros b' Hb'. unfold v'. rewrite used_upd_other by done. by apply used_balloced. }
  assert (Hs0 : slot x v bn = 0) by (by rewrite slot_nonneg by (unfold NDIRECT in *; lia)).
  assert (Hbc : content v' b = zeros) by (rewrite Hcn by done; apply content_new).
  assert (Hbnr : 0 <= bn) by (unfold NDIRECT in *; lia).
  split; [|split].
  - eapply (extends_alloc _ _ _ _ _ bn b); try done; [lia|by destruct x|apply Hok| | |].
    + apply unheld_upd; [by apply unheld_balloced|]. intros b' Hb'.
      change (used sb v' b' = false -> held v !! b' = None). rewrite Hused by done.
      case_decide; [done|]. by apply (un_free _ _ Hu).
    + intros n Hn. rewrite Hcn; [by eapply foreign_balloced|]. intros ->. by destruct Hn as (_ & Hn & _).
    + eapply same_tx_trans; [by apply same_tx_balloced|by apply same_tx_upd].
  - eapply (file_block_alloc _ _ _ _ _ bn b); try done. intros k Hk Hk0.
    assert (Hok' : owns x v (slot x v k)) by (apply owns_slot; [lia|done]).
    rewrite Hcn; [by eapply owned_kept|]. intros E. rewrite <- ind_slot with (v := v) in E.
    apply (io_inj _ _ _ Hok) in E; [lia|lia|lia|done].
  - by rewrite Haddr, decide_True by lia.
Qed.

End allocs.

(** ** bmap() *)

Lemma entry_view sb n i b d v :
  held v !! n = None -> n ∉ touched v ->
  unhold n (record n (write n d (balloced sb b (hold n i v)))) = upd n d (balloced sb b v).
Proof.
  intros Hn Ht. destruct v. unfold unhold, record, write, balloced, upd, hold; simpl in *. f_equal.
  - by apply delete_insert_id.
  - set_solver.
Qed.

Lemma layout_hold sb n i v : layout sb v -> layout sb (hold n i v).
Proof. intros []. by split. Qed.

Lemma unheld_hold sb n i v :
  unheld sb v -> ~ bitmap_block sb n -> ~ free sb v n -> n <> 1 -> unheld sb (hold n i v).
Proof.
  intros [U1 U2 U3 U4] Hb Hf H1. split; simpl; [| | |done].
  - intros m Hm. rewrite lookup_insert_ne; [auto|]. by intros <-.
  - intros m Hm Hu. rewrite lookup_insert_ne; [auto|]. intros <-. by apply Hf.
  - by rewrite lookup_insert_ne.
Qed.

Lemma extends_at sb x v x' v' :
  extends sb x v x' v' -> (forall n, range v n -> length (content v' n) = Z.to_nat BSIZE) ->
  fs_at sb v' x'.
Proof. intros [] Hs. split; try done. intros n. rewrite ex_range0. auto. Qed.

Section file.
Context {S : Type} `{TxLaws S}.
Implicit Types (s : fsys S) (v : view) (x : inode).

(** The state after inode [ip] became [x] and the layers below [bk]. *)
Definition st s (ip : nat) x (bk : S) : fsys S :=
  mkfsys (ic_lock s) (<[ip := x]> (inodes s)) (sb s) (mypid s) bk.

Lemma wp_get_inode s ip x (Q : inode -> fsys S -> Prop) :
  inodes s !! ip = Some x -> Q x s -> wp (get_inode ip) Q s.
Proof. intros Hx HQ. unfold wp, get_inode. by rewrite Hx. Qed.

Lemma wp_upd_inode s ip f x (Q : unit -> fsys S -> Prop) :
  inodes s !! ip = Some x -> Q tt (set_inodes (<[ip := f x]> (inodes s)) s) -> wp (upd_inode ip f) Q s.
Proof. intros Hx HQ. unfold upd_inode. apply wp_bind. by eapply wp_get_inode. Qed.

Lemma st_id s ip x bk : inodes s !! ip = Some x -> st s ip x bk = set_blk bk s.
Proof. intros Hx. unfold st, set_blk. by rewrite list_insert_id. Qed.

(** What bmap() and its parts guarantee: block [b] is now block [bn] of the
    file, and no byte of the file changed. *)
Record mapped sb x v x' v' (bn b : Z) (cost frees : nat) : Prop := {
  mp_ext : extends sb x v x' v';
  mp_block : forall k, 0 <= k < MAXFILE -> file_block x' v' k = file_block x v k;
  mp_addr : addr_of x' v' bn = b;
  mp_nz : b <> 0;
  mp_spare : forall k, spare (cost + k) v -> spare k v';
  mp_free : forall k, has_free sb v (frees + k) -> has_free sb v' k;
}.

Lemma has_free_mono sb v k k' : (k' <= k)%nat -> has_free sb v k -> has_free sb v k'.
Proof.
  intros Hk (l & Hnd & Hlen & Hf). exists (take k' l). split; [by eapply sublist_NoDup, sublist_take|].
  rewrite length_take. split; [lia|]. intros b Hb. apply Hf. by apply elem_of_take in Hb as (?&?%list_elem_of_lookup_2&_).
Qed.

Lemma wp_bmap_entry s v x bn Q :
  viewed (blk s) v -> fs_at (sb s) v x -> NDIRECT <= bn < MAXFILE -> ind_of x <> 0 ->
  has_free (sb s) v 1 -> spare 4 v ->
  (forall b v' bk, viewed bk v' -> mapped (sb s) x v x v' bn b 3 1 -> Q b (set_blk bk s)) ->
  wp (bmap_entry ROOTDEV (ind_of x) (bn - NDIRECT)) Q s.
Proof.
  intros Hv Hat Hbn Hi Hf Hsp HQ. pose proof Hat as [Hl Hu Hok Hs].
  assert (Hoi : owns x v (ind_of x)) by (apply (owns_slot x v (-1)); [rewrite MAXFILE_val; lia|done]).
  destruct (io_owns _ _ _ Hok _ Hoi) as ((Hir & Hirg & Him) & Hiu & Hih).
  assert (Hi1 : ind_of x <> 1) by (intros E; apply Him; unfold meta; tauto).
  assert (Hibb : ~ bitmap_block (sb s) (ind_of x)) by (intros E; apply Him; unfold meta; tauto).
  assert (Hif : ~ free (sb s) v (ind_of x)) by (intros [_ E]; congruence).
  assert (Ht : ind_of x ∉ touched v) by (by rewrite (un_touched _ _ Hu)).
  unfold bmap_entry. apply wp_bind. eapply wp_read; [done..|by eapply spare_mono; [|done]; lia|].
  intros i x1 Hx1. apply wp_bind.
  eapply (wp_data _ _ (ind_of x)); [done|by apply lookup_insert_eq|]. simpl content.
  assert (Ha : addr_of x v bn = get_u32 (Z.to_nat (4 * (bn - NDIRECT))) (content v (ind_of x))).
  { unfold addr_of. destruct (Z.ltb_spec bn NDIRECT); [lia|]. by destruct (Z.eqb_spec (ind_of x) 0). }
  rewrite <- Ha. apply wp_bind. destruct (Z.eqb_spec (addr_of x v bn) 0) as [Hz|Hz].
  - apply wp_bind. eapply wp_balloc; [exact Hx1|by apply layout_hold|by apply unheld_hold|done|
      apply spare_hold; eapply spare_mono; [|done]; lia|].
    intros b x2 Hb Hub _ Hx2.
    assert (Hbf : free (sb s) v b) by done.
    destruct (alloc_entry _ _ _ Hat b Hbf bn Hbn Hi Hz) as (He & Hfb & Hab).
    assert (Hbl : length (content v (BBLOCK b (sb s))) = Z.to_nat BSIZE) by (by eapply bitmap_len).
    apply wp_bind. eapply (wp_data _ _ (ind_of x)); [exact Hx2|by apply lookup_insert_eq|].
    destruct (owned_kept _ _ _ _ _ Hat Hbf Hoi) as (_ & _ & Hkept).
    match goal with |- context [content ?w (ind_of x)] =>
      change (content w (ind_of x)) with (content (balloced (sb s) b v) (ind_of x)) end.
    rewrite Hkept.
    apply wp_bind. eapply (wp_store _ _ (ind_of x)); [exact Hx2|by apply lookup_insert_eq| |].
    { rewrite length_put_le; rewrite Hs by done; [done|]. rewrite MAXFILE_val in Hbn.
      unfold NDIRECT, BSIZE in *. lia. }
    intros x3 Hx3. apply wp_bind. eapply (wp_log_write _ _ (ind_of x)); [exact Hx3|by apply lookup_insert_eq| |].
    { assert (Hsp1 : spare 1 (balloced (sb s) b (hold (ind_of x) i v))).
      { by do 2 apply spare_upd; apply spare_hold. }
      unfold spare in Hsp1. cbn in *. pose proof (subseteq_size
        ({[b]} ∪ ({[BBLOCK b (sb s)]} ∪ logged v))
        ({[b]} ∪ ({[BBLOCK b (sb s)]} ∪ logged v) ∪ dom (<[ind_of x:=i]> (held v))) ltac:(set_solver)). lia. }
    intros x4 Hx4. apply wp_ret. apply wp_bind.
    eapply (wp_release_buf _ _ (ind_of x)); [exact Hx4|by apply lookup_insert_eq|simpl; set_solver|].
    intros x5 Hx5. rewrite entry_view in Hx5 by done. apply wp_ret. eapply HQ; [exact Hx5|].
    split; [done|done|done| | |].
    + by apply (free_data _ _ _ Hl Hbf).
    + intros k Hk. by do 3 apply spare_upd.
    + intros k Hk. destruct (has_free_balloced _ _ _ _ Hl Hb Hub Hbl Hk) as (l & Hnd & Hlen & Hfr).
      exists l. split; [done|]. split; [done|]. intros c Hc. destruct (Hfr c Hc) as [Hcr Hcu].
      split; [done|]. by rewrite used_upd_other.
  - apply wp_ret. apply wp_bind.
    eapply (wp_release_buf _ _ (ind_of x)); [exact Hx1|by apply lookup_insert_eq|done|].
    intros x2 Hx2. rewrite unhold_hold in Hx2 by done. apply wp_ret. eapply HQ; [exact Hx2|].
    split; try done; [by apply extends_refl| |].
    + intros k. by apply spare_mono; lia.
    + intros k. by apply has_free_mono; lia.
Qed.

Lemma balloced_free_spare sb v b k k' :
  layout sb v -> free sb v b -> length (content v (BBLOCK b sb)) = Z.to_nat BSIZE ->
  (spare (2 + k) v -> spare k (balloced sb b v)) /\
  (has_free sb v (1 + k') -> has_free sb (balloced sb b v) k').
Proof.
  intros Hl [Hb Hu] Hlen. split; [intros; by do 2 apply spare_upd|]. by apply has_free_balloced.
Qed.

Lemma mapped_trans sb x v x1 v1 x2 v2 bn b c1 f1 c2 f2 :
  extends sb x v x1 v1 -> (forall k, 0 <= k < MAXFILE -> file_block x1 v1 k = file_block x v k) ->
  (forall k, spare (c1 + k) v -> spare k v1) ->
  (forall k, has_free sb v (f1 + k) -> has_free sb v1 k) ->
  mapped sb x1 v1 x2 v2 bn b c2 f2 -> mapped sb x v x2 v2 bn b (c1 + c2) (f1 + f2).
Proof.
  intros He Hfb Hs Hf []. split; try done.
  - by eapply extends_trans.
  - intros k Hk. rewrite mp_block0 by done. by apply Hfb.
  - intros k Hk. apply mp_spare0, Hs. eapply spare_mono; [|exact Hk]. lia.
  - intros k Hk. apply mp_free0, Hf. eapply has_free_mono; [|exact Hk]. lia.
Qed.

Lemma mapped_weaken sb x v x' v' bn b c f c' f' :
  mapped sb x v x' v' bn b c f -> (c <= c')%nat -> (f <= f')%nat -> mapped sb x v x' v' bn b c' f'.
Proof.
  intros [] Hc Hf. split; try done.
  - intros k Hk. apply mp_spare0. eapply spare_mono; [|exact Hk]. lia.
  - intros k Hk. apply mp_free0. eapply has_free_mono; [|exact Hk]. lia.
Qed.

Lemma mapped_refl sb x v bn :
  fs_at sb v x -> addr_of x v bn <> 0 -> mapped sb x v x v bn (addr_of x v bn) 0 0.
Proof. intros. split; try done. by apply extends_refl. Qed.

(** A pointer in the inode, allocated if it is null. *)
Lemma wp_bmap_slot s v ip x i Q :
  viewed (blk s) v -> fs_at (sb s) v x -> inodes s !! ip = Some x -> 0 <= i <= NDIRECT ->
  has_free (sb s) v 1 -> spare 2 v ->
  (forall a x' v' bk, viewed bk v' -> extends (sb s) x v x' v' ->
     (forall k, 0 <= k < MAXFILE -> file_block x' v' k = file_block x v k) ->
     default 0 (i_addrs x' !! Z.to_nat i) = a -> a <> 0 ->
     (forall k, spare (2 + k) v -> spare k v') ->
     (forall k, has_free (sb s) v (1 + k) -> has_free (sb s) v' k) ->
     Q a (st s ip x' bk)) ->
  wp (let* addr := from_some (i_addrs x !! Z.to_nat i) in
      if addr =? 0 then
        let* addr := balloc (i_dev x) in
        upd_inode ip (fun x => set_i_addrs (<[Z.to_nat i := addr]> (i_addrs x)) x) ;;;
        ret addr
      else ret addr) Q s.
Proof.
  intros Hv Hat Hx Hi Hf Hsp HQ. pose proof Hat as [Hl Hu Hok Hs].
  destruct (lookup_lt_is_Some_2 (i_addrs x) (Z.to_nat i)) as [a Ha].
  { rewrite (io_len _ _ _ Hok). unfold NDIRECT in Hi. lia. }
  apply wp_bind. eapply wp_from_some; [exact Ha|]. destruct (Z.eqb_spec a 0) as [->|Hnz].
  - rewrite (io_dev _ _ _ Hok). apply wp_bind. eapply wp_balloc; [done..|].
    intros b bk Hb Hub _ Hbk. assert (Hbf : free (sb s) v b) by done.
    destruct (alloc_direct _ _ _ Hat b Hbf i Hi) as (He & Hfb & Hab & _); [by rewrite Ha|].
    assert (Hbl : length (content v (BBLOCK b (sb s))) = Z.to_nat BSIZE) by (by eapply bitmap_len).
    apply wp_bind. eapply wp_upd_inode; [exact Hx|]. apply wp_ret.
    eapply (HQ b (with_addr x i b)); [exact Hbk|done|done|done| | |].
    + by apply (free_data _ _ _ Hl Hbf).
    + intros k. by eapply balloced_free_spare.
    + intros k. by eapply balloced_free_spare.
  - apply wp_ret. assert (s = st s ip x (blk s)) as -> by (rewrite st_id by done; by destruct s).
    eapply HQ; [done|by apply extends_refl|done|by rewrite Ha|done| |].
    + intros k. by apply spare_mono; lia.
    + intros k. by apply has_free_mono; lia.
Qed.

Lemma wp_bmap s v ip x bn Q :
  viewed (blk s) v -> fs_at (sb s) v x -> inodes s !! ip = Some x -> 0 <= bn < MAXFILE ->
  has_free (sb s) v 2 -> spare 6 v ->
  (forall b x' v' bk, viewed bk v' -> mapped (sb s) x v x' v' bn b 5 2 -> Q b (st s ip x' bk)) ->
  wp (bmap ip bn) Q s.
Proof.
  intros Hv Hat Hx Hbn Hf Hsp HQ. unfold bmap. apply wp_bind. eapply wp_get_inode; [done|].
  destruct (Z.ltb_spec bn NDIRECT) as [Hd|Hd].
  - eapply wp_bmap_slot; [done..|lia|by eapply has_free_mono; [|done]; lia|
      by eapply spare_mono; [|done]; lia|].
    intros a x' v' bk Hbk He Hfb Ha Hnz Hs Hfr. eapply HQ; [exact Hbk|].
    split; try done.
    + unfold addr_of. destruct (Z.ltb_spec bn NDIRECT); [done|lia].
    + intros k Hk. apply Hs. eapply spare_mono; [|exact Hk]. lia.
    + intros k Hk. apply Hfr. eapply has_free_mono; [|exact Hk]. lia.
  - rewrite MAXFILE_val in Hbn. assert ((bn - NDIRECT <? NINDIRECT) = true) as ->.
    { apply Z.ltb_lt. change NINDIRECT with 128. unfold NDIRECT. lia. }
    apply wp_bind_assoc. eapply (wp_bmap_slot _ _ _ _ NDIRECT); [done..|unfold NDIRECT; lia|
      by eapply has_free_mono; [|done]; lia|by eapply spare_mono; [|done]; lia|].
    intros a x1 v1 bk Hbk He Hfb Ha Hnz Hs Hfr.
    assert (Hat1 : fs_at (sb s) v1 x1).
    { eapply extends_at; [done|]. intros n Hn. apply (law_size _ _ _ Hbk).
      by rewrite (ex_range _ _ _ _ _ He). }
    rewrite (io_dev _ _ _ (fa_ok _ _ _ Hat)). change (default 0 (i_addrs x1 !! Z.to_nat NDIRECT)) with (ind_of x1) in Ha.
    rewrite <- Ha in *. eapply (wp_bmap_entry (st s ip x1 bk)); [exact Hbk|done|rewrite MAXFILE_val; lia|done|by apply Hfr|by apply Hs|].
    intros b v2 bk2 Hbk2 Hm. change (set_blk bk2 (st s ip x1 bk)) with (st s ip x1 bk2).
    eapply HQ; [exact Hbk2|]. by apply (mapped_trans _ _ _ _ _ _ _ _ _ 2 1 3 1 He).
Qed.

(** A block that is there: bmap() only reads. *)
Lemma wp_bmap_present s v ip x bn Q :
  viewed (blk s) v -> fs_at (sb s) v x -> inodes s !! ip = Some x -> 0 <= bn < MAXFILE ->
  addr_of x v bn <> 0 -> spare 0 v ->
  (forall bk, viewed bk v -> Q (addr_of x v bn) (set_blk bk s)) ->
  wp (bmap ip bn) Q s.
Proof.
  intros Hv Hat Hx Hbn Hnz Hsp HQ. pose proof Hat as [Hl Hu Hok Hs].
  unfold bmap. apply wp_bind. eapply wp_get_inode; [done|].
  assert (Hlk : forall i, 0 <= i <= NDIRECT ->
    i_addrs x !! Z.to_nat i = Some (default 0 (i_addrs x !! Z.to_nat i))).
  { intros i Hi. destruct (lookup_lt_is_Some_2 (i_addrs x) (Z.to_nat i)) as [a Ha]; [|by rewrite Ha].
    rewrite (io_len _ _ _ Hok). unfold NDIRECT in Hi. lia. }
  unfold addr_of in *. destruct (Z.ltb_spec bn NDIRECT) as [Hd|Hd].
  - apply wp_bind. eapply wp_from_some; [apply Hlk; lia|].
    destruct (Z.eqb_spec (default 0 (i_addrs x !! Z.to_nat bn)) 0); [done|]. apply wp_ret.
    specialize (HQ (blk s)). destruct s. by apply HQ.
  - rewrite MAXFILE_val in Hbn. assert ((bn - NDIRECT <? NINDIRECT) = true) as ->.
    { apply Z.ltb_lt. change NINDIRECT with 128. unfold NDIRECT. lia. }
    destruct (Z.eqb_spec (ind_of x) 0) as [|Hi]; [done|].
    assert (Hoi : owns x v (ind_of x)) by (apply (owns_slot x v (-1)); [rewrite MAXFILE_val; lia|done]).
    destruct (io_owns _ _ _ Hok _ Hoi) as ((Hir & Hirg & Him) & Hiu & Hih).
    apply wp_bind. eapply wp_from_some; [apply (Hlk NDIRECT); unfold NDIRECT; lia|].
    fold (ind_of x). destruct (Z.eqb_spec (ind_of x) 0); [done|].
    apply wp_bind, wp_ret. rewrite (io_dev _ _ _ Hok).
    unfold bmap_entry. apply wp_bind. eapply wp_read; [done..|].
    intros i x1 Hx1. apply wp_bind. eapply (wp_data _ _ (ind_of x)); [done|by apply lookup_insert_eq|].
    simpl content. apply wp_bind.
    match goal with |- context [?e =? 0] => destruct (Z.eqb_spec e 0); [done|] end.
    apply wp_ret, wp_bind. eapply (wp_release_buf _ _ (ind_of x)); [exact Hx1|by apply lookup_insert_eq| |].
    { simpl. by rewrite (un_touched _ _ Hu). }
    intros x2 Hx2. rewrite unhold_hold in Hx2 by done. apply wp_ret. by apply HQ.
Qed.

(** ** readi() *)

Definition file_bytes x v (off : Z) (k : nat) : list Z :=
  (fun i => file_byte x v (off + Z.of_nat i)) <$> seq 0 k.

Lemma file_bytes_app x v off a b :
  file_bytes x v off (a + b) = file_bytes x v off a ++ file_bytes x v (off + Z.of_nat a) b.
Proof.
  unfold file_bytes. rewrite seq_app, fmap_app. f_equal. simpl.
  apply list_eq. intros i. rewrite !list_lookup_fmap.
  destruct (decide (i < b)%nat).
  - rewrite !lookup_seq_lt by done. simpl. f_equal. f_equal. lia.
  - by rewrite !lookup_seq_ge by lia.
Qed.

Lemma block_len x v sb bn :
  fs_at sb v x -> 0 <= bn < MAXFILE -> length (file_block x v bn) = Z.to_nat BSIZE.
Proof.
  intros [Hl Hu Hok Hs] Hbn. unfold file_block.
  destruct (Z.eqb_spec (addr_of x v bn) 0) as [|Hnz]; [by rewrite length_replicate|].
  apply Hs. destruct (io_owns _ _ _ Hok (addr_of x v bn)) as ((_ & Hr & _) & _); [|done].
  rewrite <- slot_nonneg in * by lia. apply owns_slot; [lia|done].
Qed.

(** The bytes of one block. *)
Lemma chunk_bytes sb x v off m :
  fs_at sb v x -> 0 <= off -> 0 <= m <= BSIZE - off mod BSIZE -> off / BSIZE < MAXFILE ->
  slice (Z.to_nat (off mod BSIZE)) (Z.to_nat m) (file_block x v (off / BSIZE)) =
  file_bytes x v off (Z.to_nat m).
Proof.
  intros Hat Ho Hm Hbn. pose proof (Z.mod_pos_bound off BSIZE ltac:(done)) as Hmod.
  pose proof (Z.div_pos off BSIZE Ho ltac:(done)).
  assert (Hlen := block_len x v sb (off / BSIZE) Hat ltac:(lia)).
  apply list_eq. intros i. rewrite lookup_slice. unfold file_bytes. rewrite list_lookup_fmap.
  case_decide as Hi; [|by rewrite lookup_seq_ge by lia]. rewrite lookup_seq_lt by lia. simpl.
  unfold file_byte, byte_at.
  assert ((off + Z.of_nat i) / BSIZE = off / BSIZE /\ (off + Z.of_nat i) mod BSIZE = off mod BSIZE + Z.of_nat i) as [-> ->].
  { rewrite (Z.div_mod off BSIZE) at 1 3 by done.
    assert (BSIZE * (off / BSIZE) + off mod BSIZE + Z.of_nat i
      = (off mod BSIZE + Z.of_nat i) + off / BSIZE * BSIZE) as -> by lia.
    rewrite Z.div_add, Z.mod_add by done. rewrite Z.div_small, Z.mod_small by lia. lia. }
  rewrite Z2Nat.inj_add, Nat2Z.id by lia.
  destruct (lookup_lt_is_Some_2 (file_block x v (off / BSIZE)) (Z.to_nat (off mod BSIZE) + i)) as [c Hc];
    [lia|]. by rewrite Hc.
Qed.

(** Every block below the size is allocated. *)
Definition no_holes x v : Prop :=
  forall bn, 0 <= bn -> bn * BSIZE < i_size x -> addr_of x v bn <> 0.

Lemma wp_readi_loop fuel : forall s v ip x off tot n dst Q,
  viewed (blk s) v -> fs_at (sb s) v x -> inodes s !! ip = Some x -> no_holes x v -> spare 0 v ->
  i_size x <= MAXFILE * BSIZE -> 0 <= off -> 0 <= tot <= n -> off + (n - tot) <= i_size x ->
  n - tot <= Z.of_nat fuel ->
  (forall bk, viewed bk v ->
     Q (dst ++ file_bytes x v off (Z.to_nat (n - tot))) (set_blk bk s)) ->
  wp (readi_loop fuel ip off tot n dst) Q s.
Proof.
  induction fuel as [|fuel IH]; intros s v ip x off tot n dst Q Hv Hat Hx Hnh Hsp Hmax Ho Ht Hsz Hfu HQ;
    cbn [readi_loop]; destruct (Z.ltb_spec tot n) as [Hlt|Hge].
  1: lia.
  1, 3: replace (n - tot) with 0 in HQ by lia; specialize (HQ (blk s)); simpl in HQ;
    rewrite app_nil_r in HQ; apply wp_ret; destruct s; by apply HQ.
  assert (Hbs : BSIZE = 512) by reflexivity.
  pose proof (Z.mod_pos_bound off BSIZE ltac:(done)) as Hmod.
  pose proof (Z.div_mod off BSIZE ltac:(done)) as Hdm.
  assert (Hbn : 0 <= off / BSIZE < MAXFILE).
  { split; [apply Z.div_pos; lia|]. apply Z.div_lt_upper_bound; lia. }
  assert (Hnz : addr_of x v (off / BSIZE) <> 0) by (apply Hnh; lia).
  pose proof Hat as [Hl Hu Hok Hs].
  assert (Hown : owns x v (addr_of x v (off / BSIZE))).
  { rewrite <- slot_nonneg in * by lia. apply owns_slot; [lia|done]. }
  destruct (io_owns _ _ _ Hok _ Hown) as ((_ & Hr & _) & _ & Hh).
  apply wp_bind. eapply wp_bmap_present; [done..|]. intros bk Hbk.
  apply wp_bind. eapply wp_get_inode; [exact Hx|]. rewrite (io_dev _ _ _ Hok).
  apply wp_bind. eapply wp_read; [exact Hbk|done..|]. intros i b1 Hb1.
  apply wp_bind. eapply (wp_data _ _ (addr_of x v (off / BSIZE))); [done|by apply lookup_insert_eq|].
  apply wp_bind. eapply (wp_release_buf _ _ (addr_of x v (off / BSIZE)));
    [done|by apply lookup_insert_eq|simpl; by rewrite (un_touched _ _ Hu)|].
  intros b2 Hb2. rewrite unhold_hold in Hb2 by done. simpl content.
  set (m := Z.min (n - tot) (BSIZE - off mod BSIZE)).
  assert (Hfb : content v (addr_of x v (off / BSIZE)) = file_block x v (off / BSIZE)).
  { unfold file_block. by destruct (Z.eqb_spec (addr_of x v (off / BSIZE)) 0). }
  rewrite Hfb, (chunk_bytes (sb s)) by (try done; lia).
  eapply (IH _ v _ x); [exact Hb2|done|exact Hx|done|done|done|lia|lia|lia|lia|].
  intros bk' Hbk'. rewrite <- app_assoc.
  replace (off + m) with (off + Z.of_nat (Z.to_nat m)) by lia.
  rewrite <- file_bytes_app. replace (Z.to_nat m + Z.to_nat (n - (tot + m)))%nat with (Z.to_nat (n - tot)) by lia.
  by apply HQ.
Qed.

End file.

(** ** Pure facts about reads and writes *)

Implicit Types (v : view) (x : inode).

(** A file or directory, as large as its blocks allow. *)
Record regular x : Prop := {
  rg_type : i_type x <> T_DEV;
  rg_size : 0 <= i_size x <= MAXFILE * BSIZE;
}.

(** How many bytes a read of [n] bytes at [off] returns. *)
Definition read_len x (off n : Z) : Z := Z.min n (i_size x - off).

Lemma length_put_dinode o x (d : list Z) :
  length (i_addrs x) = 13%nat -> (o + 64 <= length d)%nat -> length (put_dinode o x d) = length d.
Proof.
  intros Hl Ho. unfold put_dinode.
  assert (Hp : forall n k z (e : list Z), length e = length d -> (k + n <= o + 64)%nat ->
    length (put_le n k z e) = length d) by (intros; rewrite length_put_le; lia).
  rewrite length_put_u32s; repeat apply Hp; try done; try lia.
  rewrite Hl. rewrite !Hp; repeat apply Hp; try done; lia.
Qed.

Lemma dinode_off_fits inum (d : list Z) :
  length d = Z.to_nat BSIZE -> (dinode_off inum + 64 <= length d)%nat.
Proof.
  intros ->. unfold dinode_off. assert (IPB = 8) as -> by reflexivity.
  pose proof (Z.mod_pos_bound inum 8 ltac:(lia)). unfold sizeof_dinode, BSIZE. lia.
Qed.

(** The view after iupdate(). *)
Definition iupdated sb x v : view :=
  upd (IBLOCK (i_num x) sb) (put_dinode (dinode_off (i_num x)) x (content v (IBLOCK (i_num x) sb))) v.

(** A write to a block of the file. *)
Lemma extends_write sb x v bn d :
  fs_at sb v x -> 0 <= bn < MAXFILE -> addr_of x v bn <> 0 ->
  let v' := upd (addr_of x v bn) d v in
  extends sb x v x v' /\
  (forall k, 0 <= k < MAXFILE -> file_block x v' k = if decide (k = bn) then d else file_block x v k).
Proof.
  intros Hat Hbn Hnz v'. pose proof Hat as [Hl Hu Hok Hs].
  assert (Hown : owns x v (addr_of x v bn)).
  { rewrite <- slot_nonneg in * by lia. apply owns_slot; [lia|done]. }
  destruct (io_owns _ _ _ Hok _ Hown) as ((Hbr & Hbg & Hbm) & Hbu & Hbh).
  assert (Hn1 : addr_of x v bn <> 1) by (intros E; apply Hbm; rewrite E; unfold meta; tauto).
  assert (Hnb : ~ bitmap_block sb (addr_of x v bn)) by (intros E; apply Hbm; unfold meta; tauto).
  assert (Hni : addr_of x v bn <> ind_of x).
  { intros E. rewrite <- (ind_slot x v) in E. rewrite <- slot_nonneg in * by lia.
    apply (io_inj _ _ _ Hok) in E; [lia|lia|rewrite MAXFILE_val; lia|done]. }
  assert (Hc : forall n, n <> addr_of x v bn -> content v' n = content v n).
  { intros n Hn. simpl. by rewrite fn_lookup_insert_ne. }
  assert (Haddr : forall k, addr_of x v' k = addr_of x v k).
  { intros k. unfold addr_of. destruct (k <? NDIRECT); [done|].
    destruct (ind_of x =? 0); [done|]. f_equal. apply Hc. done. }
  assert (Hslot : forall k, slot x v' k = slot x v k).
  { intros k. unfold slot. by rewrite Haddr. }
  assert (Hused : forall b, 0 <= b < sb_size sb -> used sb v' b = used sb v b).
  { intros b Hb. by apply used_upd_other. }
  assert (Howns : forall n, owns x v' n <-> owns x v n).
  { intros n. unfold owns. setoid_rewrite Hslot. done. }
  split.
  - split; try done.
    + by destruct x.
    + by apply layout_upd_other.
    + apply unheld_upd; [done|]. intros b Hb. change (upd (addr_of x v bn) d v) with v'.
      rewrite Hused by done. by apply (un_free _ _ Hu).
    + split; [apply Hok|apply Hok| |].
      * intros n Hn%Howns. destruct (io_owns _ _ _ Hok n Hn) as (Hd & Hnu & Hnh).
        split; [done|]. split; [|done]. rewrite Hused; [done|apply Hd].
      * intros k k'. rewrite !Hslot. apply Hok.
    + intros b Hb. by rewrite Hused.
    + intros n Hn%Howns. by left.
    + intros n (_ & Hn & _). apply Hc. by intros ->.
    + by apply same_tx_upd.
  - intros k Hk. unfold file_block. rewrite Haddr. case_decide as E.
    + subst k. destruct (Z.eqb_spec (addr_of x v bn) 0); [done|]. simpl. by rewrite fn_lookup_insert.
    + destruct (Z.eqb_spec (addr_of x v k) 0) as [|Hk0]; [done|]. apply Hc. intros E2. apply E.
      rewrite <- !slot_nonneg in * by lia. apply (io_inj _ _ _ Hok) in E2; [done|lia|lia|done].
Qed.

(** After a write of [len] bytes of [src], from byte [tot] of it, at [off]. *)
Record written sb x v x' v' (src : list Z) (off tot len : Z) : Prop := {
  wr_ext : extends sb x v x' v';
  wr_bytes : forall o, 0 <= o < MAXFILE * BSIZE ->
    file_byte x' v' o = if decide (off <= o < off + len)
                        then byte_at src (Z.to_nat (tot + (o - off))) else file_byte x v o;
  wr_alloc : forall bn, 0 <= bn < MAXFILE -> 0 < len -> off < (bn + 1) * BSIZE -> bn * BSIZE < off + len ->
    addr_of x' v' bn <> 0;
}.

Lemma byte_at_splice off new (d : list Z) i :
  (off + length new <= length d)%nat ->
  byte_at (splice off new d) i =
    if decide (off <= i < off + length new)%nat then byte_at new (i - off) else byte_at d i.
Proof.
  intros Hl. unfold byte_at. case_decide.
  - by rewrite lookup_splice_in.
  - by rewrite lookup_splice_out by lia.
Qed.

Lemma byte_at_slice off n (d : list Z) i :
  (i < n)%nat -> byte_at (slice off n d) i = byte_at d (off + i).
Proof. intros Hi. unfold byte_at. by rewrite lookup_slice, decide_True. Qed.

Lemma mapped_bytes sb x v x' v' bn b c f o :
  mapped sb x v x' v' bn b c f -> 0 <= o < MAXFILE * BSIZE -> file_byte x' v' o = file_byte x v o.
Proof.
  intros Hm Ho. unfold file_byte. rewrite (mp_block _ _ _ _ _ _ _ _ _ Hm); [done|].
  split; [apply Z.div_pos; [lia|done]|]. apply Z.div_lt_upper_bound; [done|lia].
Qed.

(** One iteration of the loop. *)
Lemma written_chunk sb x v x1 v1 b c f src off tot m :
  fs_at sb v1 x1 -> mapped sb x v x1 v1 (off / BSIZE) b c f ->
  0 <= off -> 0 <= tot -> 0 < m <= BSIZE - off mod BSIZE -> off + m <= MAXFILE * BSIZE ->
  tot + m <= Z.of_nat (length src) ->
  let d := splice (Z.to_nat (off mod BSIZE)) (slice (Z.to_nat tot) (Z.to_nat m) src) (content v1 b) in
  length d = Z.to_nat BSIZE /\ written sb x v x1 (upd b d v1) src off tot m.
Proof.
  intros Hat Hm Ho Htot Hm0 Hmax Hsrc d.
  assert (Hbs : BSIZE = 512) by reflexivity.
  pose proof (Z.mod_pos_bound off BSIZE ltac:(done)) as Hmod.
  pose proof (Z.div_mod off BSIZE ltac:(done)) as Hdm.
  assert (Hbn : 0 <= off / BSIZE < MAXFILE).
  { split; [apply Z.div_pos; lia|]. apply Z.div_lt_upper_bound; lia. }
  pose proof (mp_addr _ _ _ _ _ _ _ _ _ Hm) as Hab. pose proof (mp_nz _ _ _ _ _ _ _ _ _ Hm) as Hnz.
  rewrite <- Hab in Hnz. destruct (extends_write sb x1 v1 (off / BSIZE) d Hat Hbn Hnz) as [He Hfb].
  rewrite Hab in He, Hfb.
  assert (Hcb : content v1 b = file_block x1 v1 (off / BSIZE)).
  { unfold file_block. rewrite Hab. rewrite Hab in Hnz. by destruct (Z.eqb_spec b 0). }
  pose proof (block_len x1 v1 sb _ Hat Hbn) as Hlen. rewrite <- Hcb in Hlen.
  assert (Hsl : length (slice (Z.to_nat tot) (Z.to_nat m) src) = Z.to_nat m) by (apply length_slice; lia).
  split; [unfold d; rewrite length_splice; [done|lia]|]. split.
  - eapply extends_trans; [apply Hm|exact He].
  - intros o Hor. pose proof (Z.mod_pos_bound o BSIZE ltac:(done)).
    pose proof (Z.div_mod o BSIZE ltac:(done)).
    assert (0 <= o / BSIZE < MAXFILE).
    { split; [apply Z.div_pos; lia|]. apply Z.div_lt_upper_bound; lia. }
    rewrite <- (mapped_bytes _ _ _ _ _ _ _ _ _ o Hm) by done.
    unfold file_byte. rewrite Hfb by done. destruct (decide (o / BSIZE = off / BSIZE)) as [E|E].
    + unfold d. rewrite byte_at_splice by lia. rewrite E, <- Hcb. rewrite Hsl.
      destruct (decide (off <= o < off + m)).
      * rewrite decide_True, byte_at_slice by lia. f_equal. lia.
      * by rewrite decide_False by lia.
    + rewrite decide_False by nia. done.
  - intros bn Hbr _ Hlo Hhi. assert (bn = off / BSIZE) as -> by nia.
    assert (Hs : slot x1 (upd b d v1) (off / BSIZE) = slot x1 v1 (off / BSIZE)).
    { apply (ex_slot _ _ _ _ _ He); [lia|]. by rewrite slot_nonneg by lia. }
    rewrite !slot_nonneg in Hs by lia. by rewrite Hs.
Qed.

Lemma written_trans sb x v x1 v1 x2 v2 src off tot m len :
  0 < m -> 0 <= off -> 0 <= len ->
  written sb x v x1 v1 src off tot m -> written sb x1 v1 x2 v2 src (off + m) (tot + m) len ->
  written sb x v x2 v2 src off tot (m + len).
Proof.
  intros Hm Ho Hlen W1 W2. split.
  - eapply extends_trans; [apply W1|apply W2].
  - intros o Hor. rewrite (wr_bytes _ _ _ _ _ _ _ _ _ W2), (wr_bytes _ _ _ _ _ _ _ _ _ W1) by done.
    repeat case_decide; try lia; try done. f_equal. lia.
  - intros bn Hbn _ Hlo Hhi. destruct (Z.lt_ge_cases (bn * BSIZE) (off + m)) as [Hlt|Hge].
    + assert (Hnz : addr_of x1 v1 bn <> 0) by (by apply W1).
      rewrite <- slot_nonneg in * by lia. rewrite (ex_slot _ _ _ _ _ (wr_ext _ _ _ _ _ _ _ _ _ W2)); [done|lia|done].
    + apply W2; [done|lia| |lia]. unfold BSIZE in *. lia.
Qed.

Lemma written_nil sb x v src off tot : fs_at sb v x -> written sb x v x v src off tot 0.
Proof.
  intros Hat. split; [by apply extends_refl| |].
  - intros o Ho. rewrite decide_False by lia. done.
  - lia.
Qed.

(** Writing an inode block changes no file. *)
Lemma inode_write_at sb v x n d :
  fs_at sb v x -> inode_block sb n -> length d = Z.to_nat BSIZE ->
  fs_at sb (upd n d v) x /\
  (forall k, -1 <= k < MAXFILE -> slot x (upd n d v) k = slot x v k) /\
  (forall k, 0 <= k < MAXFILE -> file_block x (upd n d v) k = file_block x v k).
Proof.
  intros Hat Hib Hd. pose proof Hat as [Hl Hu Hok Hs].
  destruct (lo_inode _ _ Hl _ Hib) as [Hr Hn1].
  assert (Hnb : ~ bitmap_block sb n) by (intros Hb%(lo_bitmap _ _ Hl); tauto).
  assert (Hno : forall m, owns x v m -> m <> n).
  { intros m Hm ->. destruct (io_owns _ _ _ Hok _ Hm) as ((_ & _ & Hmeta) & _).
    apply Hmeta. unfold meta. tauto. }
  assert (Hc : forall m, m <> n -> content (upd n d v) m = content v m).
  { intros m Hm. simpl. by rewrite fn_lookup_insert_ne. }
  assert (Haddr : forall k, addr_of x (upd n d v) k = addr_of x v k).
  { intros k. unfold addr_of. destruct (k <? NDIRECT); [done|].
    destruct (Z.eqb_spec (ind_of x) 0) as [|Hi]; [done|]. f_equal. apply Hc, Hno.
    apply (owns_slot x v (-1)); [rewrite MAXFILE_val; lia|done]. }
  assert (Hslot : forall k, slot x (upd n d v) k = slot x v k).
  { intros k. unfold slot. by rewrite Haddr. }
  assert (Howns : forall m, owns x (upd n d v) m <-> owns x v m).
  { intros m. unfold owns. setoid_rewrite Hslot. done. }
  split; [|split; [auto|]].
  - split.
    + by apply layout_upd_other.
    + apply unheld_upd; [done|]. intros b Hb. rewrite used_upd_other by done. by apply (un_free _ _ Hu).
    + split; [apply Hok|apply Hok| |].
      * intros m Hm%Howns. destruct (io_owns _ _ _ Hok m Hm) as (Hdb & Hnu & Hnh).
        split; [done|]. split; [|done]. rewrite used_upd_other; [done|apply Hdb|done].
      * intros k k'. rewrite !Hslot. apply Hok.
    + intros m Hm. destruct (decide (m = n)) as [->|]; [simpl; by rewrite fn_lookup_insert|].
      rewrite Hc by done. by apply Hs.
  - intros k Hk. unfold file_block. rewrite Haddr.
    destruct (Z.eqb_spec (addr_of x v k) 0) as [|Hnz]; [done|]. apply Hc, Hno.
    rewrite <- slot_nonneg in * by lia. apply owns_slot; [lia|done].
Qed.

(** What writei() leaves: the bytes written, the size, the rest of the disk. *)
Record wrote sb x v x' v' (src : list Z) (off n : Z) : Prop := {
  wo_inode : x' = set_i_size (Z.max (i_size x) (off + n)) (set_i_addrs (i_addrs x') x);
  wo_at : fs_at sb v' x';
  wo_holes : no_holes x' v';
  wo_bytes : forall o, 0 <= o < MAXFILE * BSIZE ->
    file_byte x' v' o = if decide (off <= o < off + n) then byte_at src (Z.to_nat (o - off))
                        else file_byte x v o;
  wo_foreign : forall m, foreign sb x v m -> m <> IBLOCK (i_num x) sb -> content v' m = content v m;
  wo_held : held v' = held v;
  wo_spare : spare 0 v';
  wo_tx : same_tx v v';
  wo_geo : range v' = range v /\ limit v' = limit v /\ base v' = base v;
}.

Lemma written_holes sb x v x' v' src off n :
  written sb x v x' v' src off 0 n -> no_holes x v -> 0 <= off <= i_size x -> 0 <= n ->
  i_size x <= MAXFILE * BSIZE -> off + n <= MAXFILE * BSIZE ->
  forall bn, 0 <= bn -> bn * BSIZE < Z.max (i_size x) (off + n) -> addr_of x' v' bn <> 0.
Proof.
  intros Hw Hnh Ho Hn Hmax Hmax' bn Hbn Hlt. unfold BSIZE in *.
  destruct (Z.lt_ge_cases (bn * 512) (i_size x)) as [Hlow|Hhigh].
  - assert (Hnz : addr_of x v bn <> 0) by (by apply Hnh). rewrite <- slot_nonneg in * by lia.
    rewrite (ex_slot _ _ _ _ _ (wr_ext _ _ _ _ _ _ _ _ _ Hw)); [done|lia|done].
  - apply (wr_alloc _ _ _ _ _ _ _ _ _ Hw); unfold BSIZE; lia.
Qed.

(** An inode of another file: no block in common. *)
Definition separate x y v : Prop := forall n, owns x v n -> owns y v n -> False.

Lemma owned_foreign sb x y v n :
  fs_at sb v y -> separate x y v -> owns y v n -> foreign sb x v n /\ ~ inode_block sb n.
Proof.
  intros Hy Hsep Hn. destruct (io_owns _ _ _ (fa_ok _ _ _ Hy) n Hn) as ((_ & _ & Hm) & Hu & _).
  split; [|intros Hi; apply Hm; unfold meta; tauto]. split; [intros [_ E]; congruence|].
  split; [intros Hx; by apply (Hsep n)|]. intros Hb. apply Hm. unfold meta. tauto.
Qed.

Lemma wrote_other sb x y v x' v' src off n o :
  wrote sb x v x' v' src off n -> fs_at sb v y -> separate x y v ->
  0 <= i_num x < sb_ninodes sb -> 0 <= o < MAXFILE * BSIZE ->
  file_byte y v' o = file_byte y v o.
Proof.
  intros Hw Hy Hsep Hin Ho. assert (Hbn : 0 <= o / BSIZE < MAXFILE).
  { split; [apply Z.div_pos; [lia|done]|]. apply Z.div_lt_upper_bound; [done|lia]. }
  assert (Hc : forall m, owns y v m -> content v' m = content v m).
  { intros m Hm. destruct (owned_foreign _ _ _ _ _ Hy Hsep Hm) as [Hf Hi].
    apply (wo_foreign _ _ _ _ _ _ _ _ Hw); [done|]. intros ->. apply Hi. by exists (i_num x). }
  assert (Ha : forall k, addr_of y v' k = addr_of y v k).
  { intros k. unfold addr_of. destruct (k <? NDIRECT); [done|].
    destruct (Z.eqb_spec (ind_of y) 0) as [|Hi]; [done|]. f_equal. apply Hc.
    apply (owns_slot y v (-1)); [rewrite MAXFILE_val; lia|done]. }
  unfold file_byte, file_block. rewrite Ha. destruct (Z.eqb_spec (addr_of y v (o / BSIZE)) 0) as [|Hnz]; [done|].
  f_equal. apply Hc. rewrite <- slot_nonneg in * by lia. apply owns_slot; [lia|done].
Qed.

#[local] Set Default Proof Using "Type".

Section file_ops.
Context {S : Type} `{TxLaws S}.
Implicit Types (s : fsys S).
Context (dev_read : Z -> option (nat -> Z -> M (fsys S) (Z * list Z))).
Context (dev_write : Z -> option (nat -> list Z -> Z -> M (fsys S) Z)).

Lemma wp_readi s v ip x off n Q :
  viewed (blk s) v -> fs_at (sb s) v x -> inodes s !! ip = Some x -> no_holes x v -> spare 0 v ->
  regular x -> 0 <= off <= i_size x -> 0 <= n -> off + n < 2 ^ 32 ->
  (forall bk, viewed bk v ->
     Q (read_len x off n, file_bytes x v off (Z.to_nat (read_len x off n))) (set_blk bk s)) ->
  wp (readi dev_read ip off n) Q s.
Proof.
  intros Hv Hat Hx Hnh Hsp [Hty Hsz] Ho Hn Hov HQ.
  assert (Hmax : MAXFILE * BSIZE = 71680) by reflexivity.
  unfold readi. apply wp_bind. eapply wp_get_inode; [done|].
  destruct (Z.eqb_spec (i_type x) T_DEV); [done|]. rewrite (u32_small (off + n)) by (unfold is_u32, W32; lia).
  destruct (Z.ltb_spec (i_size x) off); [lia|]. destruct (Z.ltb_spec (off + n) off); [lia|]. simpl orb. cbv iota.
  assert (Hm : (if i_size x <? off + n then u32 (i_size x - off) else n) = read_len x off n).
  { unfold read_len. destruct (Z.ltb_spec (i_size x) (off + n)); [|lia].
    rewrite u32_small by (unfold is_u32, W32; lia). lia. }
  rewrite Hm. unfold read_len in *. set (m := Z.min n (i_size x - off)) in *.
  apply wp_bind. eapply wp_readi_loop; [done..| | | | | |]; try lia.
  intros bk Hbk. apply wp_ret. rewrite Z.sub_0_r. simpl app.
  rewrite s32_small by lia. by apply HQ.
Qed.

(** A read outside the file fails. *)
Lemma wp_readi_outside s ip x off n Q :
  inodes s !! ip = Some x -> i_type x <> T_DEV -> is_u32 off ->
  (i_size x < off \/ 2 ^ 32 <= off + n < 2 ^ 33) -> 0 <= n < 2 ^ 32 ->
  Q (-1, []) s -> wp (readi dev_read ip off n) Q s.
Proof.
  intros Hx Hty Hoff Hout Hn HQ. unfold readi. apply wp_bind. eapply wp_get_inode; [done|].
  destruct (Z.eqb_spec (i_type x) T_DEV); [done|].
  assert (((i_size x <? off) || (u32 (off + n) <? off)) = true) as ->; [|done].
  apply orb_true_iff. destruct Hout as [?|Hov]; [left; by apply Z.ltb_lt|right]. apply Z.ltb_lt.
  unfold u32, W32, is_u32 in *. rewrite (Z.mod_eq _ _) by lia.
  assert ((off + n) / 2 ^ 32 = 1) as -> by (symmetry; apply Z.div_unique with (off + n - 2 ^ 32); lia). lia.
Qed.

(** ** iupdate() *)

(** An inode block says nothing about free blocks. *)
Lemma has_free_inode sb v n d k :
  layout sb v -> inode_block sb n -> has_free sb v k -> has_free sb (upd n d v) k.
Proof.
  intros Hl Hi (l & Hnd & Hlen & Hf). exists l. split; [done|]. split; [done|]. intros b Hb.
  destruct (Hf b Hb) as [Hb1 Hb2]. split; [done|]. rewrite used_upd_other; [done|done|].
  intros Hbm. by destruct (lo_bitmap _ _ Hl _ Hbm) as (_ & _ & Hno).
Qed.

Lemma wp_iupdate s v ip x Q :
  viewed (blk s) v -> fs_at (sb s) v x -> inodes s !! ip = Some x ->
  0 <= i_num x < sb_ninodes (sb s) -> held v !! IBLOCK (i_num x) (sb s) = None -> spare 1 v ->
  (forall bk, viewed bk (iupdated (sb s) x v) -> Q tt (set_blk bk s)) ->
  wp (iupdate ip) Q s.
Proof.
  intros Hv Hat Hx Hn Hh Hsp HQ. pose proof Hat as [Hl Hu Hok Hs].
  assert (Hib : inode_block (sb s) (IBLOCK (i_num x) (sb s))) by (by exists (i_num x)).
  destruct (lo_inode _ _ Hl _ Hib) as [Hr _].
  unfold iupdate. apply wp_bind. eapply wp_get_inode; [done|]. apply wp_bind, wp_gets.
  rewrite (io_dev _ _ _ Hok). apply wp_bind. eapply wp_read; [done..|by eapply spare_mono; [|done]; lia|].
  intros i b1 Hb1. apply wp_bind.
  eapply (wp_data _ _ (IBLOCK (i_num x) (sb s))); [done|by apply lookup_insert_eq|]. simpl content.
  eapply wp_commit_buf; [exact Hb1|done|by rewrite (un_touched _ _ Hu)| |done|].
  { rewrite length_put_dinode; [by apply Hs|apply Hok|]. apply dinode_off_fits. by apply Hs. }
  intros b2 Hb2. by apply HQ.
Qed.

(** ** writei() *)

Lemma written_at sb x v x' v' src off tot len bk :
  viewed bk v' -> written sb x v x' v' src off tot len -> fs_at sb v' x'.
Proof.
  intros Hv Hw. eapply extends_at; [apply Hw|]. intros n Hn. apply (law_size _ _ _ Hv).
  by rewrite (ex_range _ _ _ _ _ (wr_ext _ _ _ _ _ _ _ _ _ Hw)).
Qed.

Lemma st_st s ip x x' bk bk' : st (st s ip x bk) ip x' bk' = st s ip x' bk'.
Proof. unfold st. simpl. by rewrite list_insert_insert_eq. Qed.

(** The body of the loop: bmap(), then the copy into the block. *)
Lemma wp_writei_chunk s v ip x src off tot m (k : M (fsys S) Z) Q :
  viewed (blk s) v -> fs_at (sb s) v x -> inodes s !! ip = Some x ->
  0 <= off -> 0 <= tot -> 0 < m <= BSIZE - off mod BSIZE -> off + m <= MAXFILE * BSIZE ->
  tot + m <= Z.of_nat (length src) -> has_free (sb s) v 2 -> spare 6 v ->
  (forall x' v' bk, viewed bk v' -> written (sb s) x v x' v' src off tot m ->
     (forall j, spare (6 + j) v -> spare j v') ->
     (forall j, has_free (sb s) v (2 + j) -> has_free (sb s) v' j) ->
     wp k Q (st s ip x' bk)) ->
  wp (let* b := bmap ip (off / BSIZE) in
      let* x := get_inode ip in
      let* bp := onblk (bl_read (i_dev x) b) in
      let* d := onblk (bl_data bp) in
      onblk (bl_store bp (splice (Z.to_nat (off mod BSIZE)) (slice (Z.to_nat tot) (Z.to_nat m) src) d)) ;;;
      onblk (bl_log_write bp) ;;;
      onblk (bl_release bp) ;;; k) Q s.
Proof.
  intros Hv Hat Hx Ho Htot Hm Hmax Hsrc Hf Hsp HQ. pose proof (lookup_lt_Some _ _ _ Hx) as Hlt.
  assert (Hbn : 0 <= off / BSIZE < MAXFILE).
  { split; [apply Z.div_pos; [lia|done]|]. apply Z.div_lt_upper_bound; [done|lia]. }
  apply wp_bind. eapply wp_bmap; [done..|]. intros b x1 v1 bk1 Hbk1 Hmp.
  assert (Hat1 : fs_at (sb s) v1 x1).
  { eapply extends_at; [apply Hmp|]. intros n Hn. apply (law_size _ _ _ Hbk1).
    by rewrite (ex_range _ _ _ _ _ (mp_ext _ _ _ _ _ _ _ _ _ Hmp)). }
  destruct (written_chunk _ _ _ _ _ _ _ _ src off tot m Hat1 Hmp) as [Hlen Hw]; [done..|].
  assert (Hown : owns x1 v1 b).
  { split; [apply (mp_nz _ _ _ _ _ _ _ _ _ Hmp)|]. exists (off / BSIZE). split; [lia|]. rewrite slot_nonneg by lia. symmetry. apply (mp_addr _ _ _ _ _ _ _ _ _ Hmp). }
  destruct (io_owns _ _ _ (fa_ok _ _ _ Hat1) _ Hown) as ((_ & Hr & _) & _ & Hh).
  assert (Hsp1 : spare 1 v1) by (by apply (mp_spare _ _ _ _ _ _ _ _ _ Hmp)).
  apply wp_bind. eapply wp_get_inode; [simpl; by apply list_lookup_insert_eq|].
  rewrite (io_dev _ _ _ (fa_ok _ _ _ Hat1)).
  apply wp_bind. eapply wp_read; [exact Hbk1|done|done|by eapply spare_mono; [|done]; lia|].
  intros i b1 Hb1. apply wp_bind. eapply (wp_data _ _ b); [done|by apply lookup_insert_eq|]. simpl content.
  apply wp_seq3. eapply wp_commit_buf; [exact Hb1|done| |done|done|].
  { by rewrite (un_touched _ _ (fa_unheld _ _ _ Hat1)). }
  intros b2 Hb2. change (set_blk b2 (set_blk b1 (st s ip x1 bk1))) with (st s ip x1 b2).
  eapply HQ; [exact Hb2|exact Hw| |].
  - intros j Hj. apply spare_upd. apply (mp_spare _ _ _ _ _ _ _ _ _ Hmp).
    eapply spare_mono; [|exact Hj]. lia.
  - intros j Hj. destruct (mp_free _ _ _ _ _ _ _ _ _ Hmp j) as (l & Hnd & Hl & Hfr); [done|].
    exists l. split; [done|]. split; [done|]. intros c Hc. destruct (Hfr c Hc) as [Hcr Hcu].
    split; [done|]. rewrite used_upd_other; [done|done|]. intros Hbb.
    destruct (io_owns _ _ _ (fa_ok _ _ _ Hat1) _ Hown) as ((_ & _ & Hmeta) & _).
    by apply Hmeta, meta_bitmap.
Qed.

Lemma wp_writei_loop fuel : forall s v ip x src off tot n K j Q,
  viewed (blk s) v -> fs_at (sb s) v x -> inodes s !! ip = Some x ->
  0 <= off -> 0 <= tot <= n -> off + (n - tot) <= MAXFILE * BSIZE ->
  n <= Z.of_nat (length src) -> n - tot <= Z.of_nat fuel ->
  n = tot \/ off mod BSIZE + (n - tot) <= Z.of_nat K * BSIZE ->
  has_free (sb s) v (2 * K) -> spare (6 * K + j) v ->
  (forall x' v' bk, viewed bk v' -> written (sb s) x v x' v' src off tot (n - tot) -> spare j v' ->
     (forall jf, has_free (sb s) v (2 * K + jf) -> has_free (sb s) v' jf) ->
     Q (off + (n - tot)) (st s ip x' bk)) ->
  wp (writei_loop fuel ip src off tot n) Q s.
Proof.
  induction fuel as [|fuel IH]; intros s v ip x src off tot n K j Q Hv Hat Hx Ho Ht Hmax Hsrc Hfu HK Hf Hsp HQ;
    cbn [writei_loop]; destruct (Z.ltb_spec tot n) as [Hlt|Hge].
  1: lia.
  1, 3: assert (n = tot) as -> by lia; rewrite Z.sub_diag, Z.add_0_r in HQ; apply wp_ret;
    assert (s = st s ip x (blk s)) as -> by (rewrite st_id by done; by destruct s);
    eapply HQ; [done|by apply written_nil|by eapply spare_mono; [|done]; lia|
      intros jf; apply has_free_mono; lia].
  assert (Hbs : BSIZE = 512) by reflexivity.
  pose proof (Z.mod_pos_bound off BSIZE ltac:(done)) as Hmod.
  destruct K as [|K]; [lia|].
  set (m := Z.min (n - tot) (BSIZE - off mod BSIZE)).
  eapply (wp_writei_chunk s v ip x src off tot m); try done; try lia.
  { eapply has_free_mono; [|done]. lia. }
  { eapply spare_mono; [|done]. lia. }
  intros x1 v1 bk1 Hbk1 Hw Hs1 Hf1. pose proof (lookup_lt_Some _ _ _ Hx).
  eapply (IH (st s ip x1 bk1) v1 ip x1 src (off + m) (tot + m) n K j); try done; try lia.
  - by eapply written_at.
  - simpl. by apply list_lookup_insert_eq.
  - destruct (decide (n = tot + m)) as [|Hne]; [by left|right].
    assert (m = BSIZE - off mod BSIZE) as Hme by lia.
    assert ((off + m) mod BSIZE = 0) as ->; [|lia].
    rewrite Hme, (Z.div_mod off BSIZE) at 1 by done.
    replace (BSIZE * (off / BSIZE) + off mod BSIZE + (BSIZE - off mod BSIZE))
      with (0 + (off / BSIZE + 1) * BSIZE) by lia. by rewrite Z.mod_add.
  - apply Hf1. eapply has_free_mono; [|exact Hf]. lia.
  - apply Hs1. eapply spare_mono; [|exact Hsp]. lia.
  - intros x2 v2 bk2 Hbk2 Hw2 Hs2 Hf2. rewrite st_st.
    replace (off + m + (n - (tot + m))) with (off + (n - tot)) by lia.
    eapply HQ; [exact Hbk2| |done|intros jf Hjf; apply Hf2, Hf1; eapply has_free_mono; [|exact Hjf]; lia].
    replace (n - tot) with (m + (n - (tot + m))) by lia.
    eapply written_trans; try done; lia.
Qed.

Lemma wp_writei s v ip x src off n K Q :
  viewed (blk s) v -> fs_at (sb s) v x -> inodes s !! ip = Some x -> no_holes x v -> regular x ->
  0 <= off <= i_size x -> 0 <= n <= Z.of_nat (length src) -> off + n <= MAXFILE * BSIZE ->
  off mod BSIZE + n <= Z.of_nat K * BSIZE -> has_free (sb s) v (2 * K) -> spare (6 * K + 1) v ->
  0 <= i_num x < sb_ninodes (sb s) -> held v !! IBLOCK (i_num x) (sb s) = None ->
  (forall x' v' bk, viewed bk v' -> wrote (sb s) x v x' v' src off n ->
     (forall jf, has_free (sb s) v (2 * K + jf) -> has_free (sb s) v' jf) -> Q n (st s ip x' bk)) ->
  wp (writei dev_write ip src off n) Q s.
Proof.
  intros Hv Hat Hx Hnh [Hty Hsz] Ho Hn Hmax HK Hf Hsp Hin Hih HQ.
  assert (Hmv : MAXFILE * BSIZE = 71680) by reflexivity. pose proof (lookup_lt_Some _ _ _ Hx).
  unfold writei. apply wp_bind. eapply wp_get_inode; [done|].
  destruct (Z.eqb_spec (i_type x) T_DEV); [done|]. rewrite (u32_small (off + n)) by (unfold is_u32, W32; lia).
  destruct (Z.ltb_spec (i_size x) off); [lia|]. destruct (Z.ltb_spec (off + n) off); [lia|]. simpl orb. cbv iota.
  destruct (Z.ltb_spec (MAXFILE * BSIZE) (off + n)); [lia|].
  apply wp_bind. eapply (wp_writei_loop _ _ _ _ _ _ _ _ _ K 1); [done..| | | | | | |done|done|]; try lia.
  rewrite Z.sub_0_r. intros x1 v1 bk1 Hbk1 Hw Hs1 Hf1.
  pose proof (written_holes _ _ _ _ _ _ _ _ Hw Hnh Ho) as Hh1.
  pose proof (ex_inode _ _ _ _ _ (wr_ext _ _ _ _ _ _ _ _ _ Hw)) as Hx1.
  pose proof (written_at _ _ _ _ _ _ _ _ _ _ Hbk1 Hw) as Hat1.
  assert (Hsz1 : i_size x1 = i_size x) by (by rewrite Hx1).
  assert (Hno1 : i_num x1 = i_num x) by (by rewrite Hx1).
  apply wp_bind. eapply wp_get_inode; [simpl; by apply list_lookup_insert_eq|]. rewrite Hsz1.
  assert (Hby : forall o, 0 <= o < MAXFILE * BSIZE -> file_byte x1 v1 o =
    if decide (off <= o < off + n) then byte_at src (Z.to_nat (o - off)) else file_byte x v o).
  { intros o Hor. rewrite (wr_bytes _ _ _ _ _ _ _ _ _ Hw) by done. by rewrite Z.add_0_l. }
  assert (Hret : s32 n = n) by (apply s32_small; lia).
  assert (Hfor : forall m, foreign (sb s) x v m -> content v1 m = content v m).
  { apply (ex_foreign _ _ _ _ _ (wr_ext _ _ _ _ _ _ _ _ _ Hw)). }
  destruct ((0 <? n) && (i_size x <? off + n)) eqn:Eg.
  - apply andb_prop in Eg as [Hn0%Z.ltb_lt Hgr%Z.ltb_lt]. set (x2 := set_i_size (off + n) x1).
    apply wp_bind. apply wp_bind. eapply wp_upd_inode; [simpl; by apply list_lookup_insert_eq|].
    simpl inodes. rewrite list_insert_insert_eq. fold x2.
    change (set_inodes (<[ip := x2]> (inodes s)) (st s ip x1 bk1)) with (st s ip x2 bk1).
    assert (Hat2 : fs_at (sb s) v1 x2) by (destruct Hat1 as [??[]?]; by split).
    assert (Hlen : length (content v1 (IBLOCK (i_num x2) (sb s))) = Z.to_nat BSIZE).
    { apply (fa_size _ _ _ Hat1), (lo_inode _ _ (fa_layout _ _ _ Hat1)). exists (i_num x2). split; [simpl; by rewrite Hno1|done]. }
    eapply (wp_iupdate (st s ip x2 bk1)); [exact Hbk1|done|simpl; by apply list_lookup_insert_eq| | |done|].
    { simpl. by rewrite Hno1. }
    { simpl. rewrite Hno1. by rewrite (ex_held _ _ _ _ _ (wr_ext _ _ _ _ _ _ _ _ _ Hw)). }
    intros bk2 Hbk2. apply wp_ret. rewrite Hret.
    change (set_blk bk2 (st s ip x2 bk1)) with (st s ip x2 bk2).
    destruct (inode_write_at _ _ _ (IBLOCK (i_num x2) (sb s))
      (put_dinode (dinode_off (i_num x2)) x2 (content v1 (IBLOCK (i_num x2) (sb s)))) Hat2)
      as (Hat3 & Hsl3 & Hfb3).
    { exists (i_num x2). split; [simpl; by rewrite Hno1|done]. }
    { rewrite length_put_dinode; [done|apply (fa_ok _ _ _ Hat2)|]. by apply dinode_off_fits. }
    pose proof (wr_ext _ _ _ _ _ _ _ _ _ Hw) as He1.
    assert (Hib : inode_block (sb s) (IBLOCK (i_num x2) (sb s))) by (exists (i_num x2); split; [simpl; by rewrite Hno1|done]).
    eapply HQ; [exact Hbk2| |intros jf Hjf; by apply has_free_inode; [apply Hat1|exact Hib|apply Hf1]]. split.
    + unfold x2. rewrite Hx1. simpl. replace (Z.max (i_size x) (off + n)) with (off + n) by lia. by destruct x.
    + exact Hat3.
    + intros bn Hbn Hlt. simpl in Hlt. rewrite <- slot_nonneg by lia.
      unfold iupdated. rewrite Hsl3 by (unfold BSIZE in *; lia). rewrite slot_nonneg by lia.
      apply (Hh1 ltac:(lia) ltac:(lia) ltac:(lia) bn); lia.
    + intros o Hor. rewrite <- Hby by done. unfold file_byte, iupdated. rewrite Hfb3; [done|].
      split; [apply Z.div_pos; [lia|done]|]. apply Z.div_lt_upper_bound; [done|lia].
    + intros m Hm Hne. unfold iupdated. cbn [upd content]. rewrite fn_lookup_insert_ne; [by apply Hfor|].
      simpl. rewrite Hno1. done.
    + apply (ex_held _ _ _ _ _ (wr_ext _ _ _ _ _ _ _ _ _ Hw)).
    + by apply spare_upd.
    + eapply same_tx_trans; [apply He1|]. apply same_tx_upd. by apply (lo_inode _ _ (fa_layout _ _ _ Hat1)).
    + split_and!; apply He1.
  - apply wp_bind, wp_ret, wp_ret. rewrite Hret. eapply HQ; [exact Hbk1| |exact Hf1].
    assert (Hmx : Z.max (i_size x) (off + n) = i_size x).
    { apply andb_false_iff in Eg as [Hn0%Z.ltb_ge|Hgr%Z.ltb_ge]; lia. }
    split; [|done| |done|auto| | | |].
    + rewrite Hmx, Hx1. by destruct x.
    + intros bn Hbn Hlt. rewrite Hsz1 in Hlt. apply (Hh1 ltac:(lia) ltac:(lia) ltac:(lia) bn); lia.
    + apply (ex_held _ _ _ _ _ (wr_ext _ _ _ _ _ _ _ _ _ Hw)).
    + by eapply spare_mono; [|done]; lia.
    + apply (wr_ext _ _ _ _ _ _ _ _ _ Hw).
    + split_and!; apply (wr_ext _ _ _ _ _ _ _ _ _ Hw).
Qed.

(** A read or write outside the file, or past its maximal size, fails and
    changes nothing. *)
Lemma wp_writei_outside s ip x src off n Q :
  inodes s !! ip = Some x -> i_type x <> T_DEV -> is_u32 off -> 0 <= n < 2 ^ 32 ->
  (i_size x < off \/ 2 ^ 32 <= off + n \/ (off + n < 2 ^ 32 /\ MAXFILE * BSIZE < off + n)) ->
  Q (-1) s -> wp (writei dev_write ip src off n) Q s.
Proof.
  intros Hx Hty Hoff Hn Hout HQ. unfold writei. apply wp_bind. eapply wp_get_inode; [done|].
  destruct (Z.eqb_spec (i_type x) T_DEV); [done|].
  destruct (Z.ltb_spec (i_size x) off); [done|]. simpl orb.
  unfold is_u32, W32 in Hoff. destruct Hout as [?|[Hov|[Hno Hbig]]]; [lia| |].
  - assert ((u32 (off + n) <? off) = true) as ->; [|done]. apply Z.ltb_lt.
    unfold u32, W32. rewrite (Z.mod_eq _ _) by lia.
    assert ((off + n) / 2 ^ 32 = 1) as -> by (symmetry; apply Z.div_unique with (off + n - 2 ^ 32); lia). lia.
  - rewrite u32_small by (unfold is_u32, W32; lia).
    destruct (off + n <? off); [done|]. destruct (Z.ltb_spec (MAXFILE * BSIZE) (off + n)); [done|lia].
Qed.

(** ** The theorems *)

(** What a system call needs of the state to work on inode [ip]. *)
Record file_ready s v (ip : nat) x : Prop := {
  fr_view : viewed (blk s) v;
  fr_at : fs_at (sb s) v x;
  fr_inode : inodes s !! ip = Some x;
  fr_holes : no_holes x v;
  fr_regular : regular x;
  fr_num : 0 <= i_num x < sb_ninodes (sb s);
  fr_unheld : held v !! IBLOCK (i_num x) (sb s) = None;
}.

(** readi() returns exactly the bytes of the file from [off] on, as many as
    asked for or as there are, and changes nothing. *)
Theorem readi_correct s v ip x off n :
  file_ready s v ip x -> spare 0 v -> 0 <= off <= i_size x -> 0 <= n -> off + n < 2 ^ 32 ->
  wp (readi dev_read ip off n) (fun r s' => viewed (blk s') v /\ inodes s' = inodes s /\
    r.1 = Z.min n (i_size x - off) /\
    r.2 = (fun i => file_byte x v (off + Z.of_nat i)) <$> seq 0 (Z.to_nat r.1)) s.
Proof.
  intros [] Hsp Ho Hn Hov. eapply wp_readi; [done..|]. intros bk Hbk. done.
Qed.

Lemma wrote_ready s v ip x src off n x' v' bk :
  file_ready s v ip x -> wrote (sb s) x v x' v' src off n -> viewed bk v' ->
  0 <= off -> 0 <= n -> off + n <= MAXFILE * BSIZE -> file_ready (st s ip x' bk) v' ip x'.
Proof.
  intros [] Hw Hbk Ho Hn Hmax. pose proof (lookup_lt_Some _ _ _ fr_inode0) as Hlt.
  pose proof (wo_inode _ _ _ _ _ _ _ _ Hw) as Hx'. destruct Hw. destruct fr_regular0 as [Hty Hsz].
  split; simpl; try done.
  - by apply list_lookup_insert_eq.
  - split; rewrite Hx'; simpl; [done|lia].
  - by rewrite Hx'.
  - rewrite Hx', wo_held0. done.
Qed.


(** what writei() stores, readi() returns: writing the bytes [src] at [off]
    and reading back that many bytes there gives [src]. *)
Theorem writei_readi s v ip x src off K :
  file_ready s v ip x -> 0 <= off <= i_size x ->
  off + Z.of_nat (length src) <= MAXFILE * BSIZE ->
  off mod BSIZE + Z.of_nat (length src) <= Z.of_nat K * BSIZE ->
  has_free (sb s) v (2 * K) -> spare (6 * K + 1) v ->
  wp (let* _ := writei dev_write ip src off (Z.of_nat (length src)) in
      readi dev_read ip off (Z.of_nat (length src)))
    (fun r _ => r = (Z.of_nat (length src), src)) s.
Proof.
  intros Hfr Ho Hmax HK Hf Hsp. pose proof Hfr as [].
  assert (Hmv : MAXFILE * BSIZE = 71680) by reflexivity.
  apply wp_bind. eapply wp_writei; [done|done|done|done|done|done|lia|done|done|done|done|done|done|].
  intros x' v' bk Hbk Hw _.
  destruct (wrote_ready _ _ _ _ _ _ _ _ _ _ Hfr Hw Hbk) as [Hv' Hat' Hin' Hnh' Hrg' _ _]; [lia..|].
  assert (Hsz : i_size x' = Z.max (i_size x) (off + Z.of_nat (length src)))
    by (by rewrite (wo_inode _ _ _ _ _ _ _ _ Hw)).
  eapply wp_readi; [exact Hv'|exact Hat'|exact Hin'|done|apply Hw|done|lia|lia|lia|].
  intros bk' _. unfold read_len. rewrite Hsz.
  replace (Z.min (Z.of_nat (length src)) (Z.max (i_size x) (off + Z.of_nat (length src)) - off))
    with (Z.of_nat (length src)) by lia.
  f_equal. rewrite Nat2Z.id. apply list_eq. intros i. unfold file_bytes. rewrite list_lookup_fmap.
  destruct (src !! i) as [c|] eqn:Hc.
  - pose proof (lookup_lt_Some _ _ _ Hc). rewrite lookup_seq_lt by done. simpl. f_equal.
    rewrite (wo_bytes _ _ _ _ _ _ _ _ Hw) by lia. rewrite decide_True by lia.
    unfold byte_at. replace (Z.to_nat (off + Z.of_nat i - off)) with i by lia. by rewrite Hc.
  - apply lookup_ge_None in Hc. by rewrite lookup_seq_ge.
Qed.

(** a write to one file changes no byte of another file. *)
Theorem writei_isolated s v ip x y src off n K :
  file_ready s v ip x -> fs_at (sb s) v y -> separate x y v ->
  0 <= off <= i_size x -> 0 <= n <= Z.of_nat (length src) ->
  off + n <= MAXFILE * BSIZE -> off mod BSIZE + n <= Z.of_nat K * BSIZE ->
  has_free (sb s) v (2 * K) -> spare (6 * K + 1) v ->
  wp (writei dev_write ip src off n) (fun _ s' => exists v', viewed (blk s') v' /\
    forall o, 0 <= o < MAXFILE * BSIZE -> file_byte y v' o = file_byte y v o) s.
Proof.
  intros [] Hy Hsep Ho Hn Hmax HK Hf Hsp.
  eapply (wp_writei _ v _ x _ _ _ K); [done..|]. intros x' v' bk Hbk Hw _. exists v'. split; [done|].
  intros o Hor. by eapply wrote_other.
Qed.

End file_ops.
