(* ===== verification/FsExample.v ===== *)
(** A concrete file system on the memory disk: the inputs at which the theorems
    of FsBlocks.v and FsFile.v are applied.

    64 blocks: boot block, super block, log (2 to 31), inodes (32), bitmap (33),
    data.  Inode 1 is the root directory (block 35), inode 2 the file "hello"
    (block 34), inode 3 the directory "d" (block 36) and inode 4 an empty file;
    the path of inode 2 is /d/f. *)

From stdpp Require Import functions.
From S2P Require Import Prelude Params Bytes CString Buf Memide Bio BioSpec Log LogSpec Tx Crash Fs FsBlocks FsFile.
#[local] Existing Instances Memide.memide_dev Memide.memide_laws.

Definition sb0 : superblock := mksb 64 29 8 30 2 32 33.

Definition hello : list Z := [104; 101; 108; 108; 111].

Definition my_lock : sleeplock := mksleeplock true false 1.
Definition x0 : inode := mkinode 1 4 1 my_lock true T_FILE 0 0 1 0 (replicate 13 0).
Definition y0 : inode := mkinode 1 2 1 my_lock true T_FILE 0 0 1 5 (34 :: replicate 12 0).
Definition root0 : inode := mkinode 1 1 1 my_lock true T_DIR 0 0 1 48 (35 :: replicate 12 0).
Definition dir0 : inode := mkinode 1 3 1 my_lock true T_DIR 0 0 1 48 (36 :: replicate 12 0).

Definition at_inode (k : nat) (x : inode) (d : list Z) : list Z := put_dinode (32 * 512 + 64 * k) x d.

Definition fs_img : list Z :=
  splice (34 * 512) hello
   (splice (35 * 512) (mkdirent 1 [46] ++ mkdirent 1 [46; 46] ++ mkdirent 3 [100])
    (splice (36 * 512) (mkdirent 3 [46] ++ mkdirent 1 [46; 46] ++ mkdirent 2 [102])
     (splice (33 * 512) [255; 255; 255; 255; 31]
      (at_inode 1 root0 (at_inode 2 y0 (at_inode 3 dir0 (at_inode 4 x0
       (put_u32s 512 [64; 29; 8; 30; 2; 32; 33] (replicate (64 * 512) 0))))))))).
Definition fs_disk : Memide.memide := Memide.ideinit fs_img.

(** The system inside a transaction. *)
Definition tx0 : logsys Memide.memide := final (boot ;;; begin_op) (fresh fs_disk 1).
Definition s0 : fsys (logsys Memide.memide) := mkfsys false [x0; y0; root0] sb0 1 tx0.

Definition block0 (n : Z) : list Z := devblock fs_disk ROOTDEV n.

(** The view of it. *)
Definition v0 : view :=
  start_view (devrange fs_disk ROOTDEV) 2 30 (recovered 2 block0) (recovered 2 block0).

Lemma fs_disk_ok : devok fs_disk.
Proof. apply Z.leb_le. vm_compute. reflexivity. Qed.

Lemma fs_disk_range n : devrange fs_disk ROOTDEV n <-> 0 <= n < 64.
Proof.
  assert (E : Memide.disksize fs_disk = 64) by (vm_compute; reflexivity).
  cbn [devrange Memide.memide_dev]. unfold Memide.range. rewrite E. unfold ROOTDEV. tauto.
Qed.

Lemma fs_geometry : geometry (devrange fs_disk ROOTDEV) 2 30.
Proof. split; [lia|lia|intros n; rewrite fs_disk_range; lia|intros n; rewrite fs_disk_range; lia]. Qed.

Lemma fs_hdr : hdr_n (block0 2) = 0.
Proof. vm_compute. reflexivity. Qed.

Lemma tx0_view : viewed tx0 v0.
Proof.
  unfold tx0. apply (wp_final _ (fun s => viewed s v0)). apply wp_bind.
  eapply wp_boot; [apply fs_disk_ok|apply fs_geometry| | | |].
  { split; [vm_compute; reflexivity|vm_compute; reflexivity|rewrite fs_disk_range; lia|
      unfold in_log; lia|unfold LOGSIZE, MAXOPBLOCKS; lia]. }
  { eapply hdr_ok_empty; [apply fs_geometry|apply fs_hdr]. }
  { unfold hdr_list. fold block0. change (devblock fs_disk ROOTDEV 2) with (block0 2).
    rewrite fs_hdr. set_solver. }
  intros s lru D' Hq Hrg _. eapply wp_begin_op; [exact Hq|]. intros s' Hlv _ _.
  rewrite Hrg in Hlv. by do 5 eexists.
Qed.

Lemma range0 n : range v0 n <-> 0 <= n < 64 /\ ~ in_log 2 30 n.
Proof. cbn [range v0 start_view]. by rewrite fs_disk_range. Qed.

Lemma content0 n : ~ in_log 2 30 n -> content v0 n = block0 n.
Proof.
  intros Hn. cbn [content v0 start_view].
  destruct (decide (0 <= n < 64)) as [Hr|Hr].
  - eapply recovered_empty; [apply fs_geometry|apply fs_hdr|by apply fs_disk_range|done].
  - unfold recovered. apply recovered_other with (rng := devrange fs_disk ROOTDEV) (nlog := 30);
      [apply fs_geometry| |done]. unfold hdr_list. rewrite fs_hdr. set_solver.
Qed.

Lemma bitmap0 b : 0 <= b < 64 -> BBLOCK b sb0 = 33.
Proof.
  intros Hb. unfold BBLOCK. rewrite Z.div_small by (unfold BPB, BSIZE; lia). reflexivity.
Qed.

Lemma inode0 i : 0 <= i < 8 -> IBLOCK i sb0 = 32.
Proof.
  intros Hi. unfold IBLOCK. assert (IPB = 8) as -> by reflexivity. rewrite Z.div_small by lia. reflexivity.
Qed.

(** Blocks 0 to 36 are in use, the others free. *)
Lemma used0 b : 0 <= b < 64 -> used sb0 v0 b = (b <? 37).
Proof.
  intros Hb. unfold used. rewrite bitmap0 by done. rewrite content0 by (unfold in_log; lia).
  rewrite Z.mod_small by (unfold BPB, BSIZE; lia).
  assert (Hall : forallb (fun i => Bool.eqb (negb (bit_free (block0 33) i)) (Z.of_nat i <? 37)) (seq 0 64) = true)
    by (vm_compute; reflexivity).
  rewrite forallb_forall in Hall. specialize (Hall (Z.to_nat b)).
  rewrite Z2Nat.id in Hall by lia. apply eqb_prop, Hall. apply in_seq. lia.
Qed.

Lemma meta0 n : meta sb0 n <-> n = 0 \/ n = 1 \/ n = 33 \/ n = 32.
Proof.
  unfold meta, bitmap_block, inode_block. split.
  - intros [->|[->|[(b & Hb & ->)|(i & Hi & ->)]]]; auto.
    + rewrite bitmap0 by done. auto.
    + rewrite inode0 by done. auto.
  - intros [->|[->|[->| ->]]]; auto.
    + right. right. left. exists 0. split; [simpl; lia|reflexivity].
    + right. right. right. exists 0. split; [simpl; lia|reflexivity].
Qed.

Lemma layout0 : layout sb0 v0.
Proof.
  split.
  - simpl. lia.
  - rewrite content0 by (unfold in_log; lia). vm_compute. reflexivity.
  - apply range0. unfold in_log. lia.
  - intros n (b & Hb & ->). rewrite bitmap0 by done. split; [apply range0; unfold in_log; lia|].
    split; [done|]. intros (i & Hi & E). by rewrite inode0 in E.
  - intros n (i & Hi & ->). rewrite inode0 by done. split; [apply range0; unfold in_log; lia|done].
  - intros b Hb Hu. simpl in Hb. rewrite used0 in Hu by done. apply Z.ltb_ge in Hu.
    split; [apply range0; unfold in_log; lia|]. rewrite meta0. lia.
Qed.

Lemma unheld0 : unheld sb0 v0.
Proof. by split. Qed.

Lemma spare0 : spare 29 v0.
Proof. unfold spare. simpl. rewrite dom_empty_L, union_idemp_L, size_empty. lia. Qed.

Lemma spare_k k : (k <= 29)%nat -> spare k v0.
Proof. intros Hk. eapply spare_mono; [exact Hk|apply spare0]. Qed.

Lemma free0 k : (k <= 27)%nat -> has_free sb0 v0 k.
Proof.
  intros Hk. exists (Z.of_nat <$> seq 37 k). split; [|split].
  - apply NoDup_fmap_2; [apply _|]. apply NoDup_seq.
  - by rewrite length_fmap, length_seq.
  - intros b (i & -> & Hi%elem_of_seq)%list_elem_of_fmap. split; [simpl; lia|].
    rewrite used0 by lia. apply Z.ltb_ge. lia.
Qed.

Lemma size0 n : range v0 n -> length (content v0 n) = Z.to_nat BSIZE.
Proof. apply (law_size _ _ _ tx0_view). Qed.

Lemma replicate_zero n i : default 0 (replicate n 0 !! i) = 0.
Proof.
  destruct (replicate n 0 !! i) eqn:E; [|done]. by apply lookup_replicate in E as [-> _].
Qed.

Lemma x0_slots k : -1 <= k < MAXFILE -> slot x0 v0 k = 0.
Proof.
  intros Hk. unfold slot, addr_of. destruct (k =? -1); [done|].
  destruct (k <? NDIRECT); [|done]. change (i_addrs x0) with (replicate 13 0). apply replicate_zero.
Qed.

Lemma x0_at : fs_at sb0 v0 x0.
Proof.
  split; [apply layout0|apply unheld0| |apply size0].
  split; [done|done| |].
  - intros n (Hn & k & Hk & ->). by rewrite x0_slots in Hn.
  - intros k k' Hk Hk' Hn. by rewrite x0_slots in Hn.
Qed.

Lemma x0_ready : file_ready s0 v0 0 x0.
Proof.
  split; [apply tx0_view|apply x0_at|done| | |simpl; lia|done].
  - intros bn Hbn Hlt. simpl in Hlt. unfold BSIZE in Hlt. lia.
  - split; [done|]. simpl. rewrite MAXFILE_val. unfold BSIZE. lia.
Qed.

(** Files of one block. *)
Lemma one_slots x b k :
  i_addrs x = b :: replicate 12 0 -> -1 <= k < MAXFILE -> slot x v0 k = if decide (k = 0) then b else 0.
Proof.
  intros Ha Hk. unfold slot, addr_of, ind_of. rewrite Ha.
  destruct (Z.eqb_spec k (-1)); [subst; done|]. case_decide; [by subst|].
  destruct (Z.ltb_spec k NDIRECT); [|done].
  destruct (Z.to_nat k) as [|j] eqn:Ej; [lia|]. cbn [lookup list_lookup]. apply replicate_zero.
Qed.

Lemma one_at x b : i_dev x = ROOTDEV -> i_addrs x = b :: replicate 12 0 -> 34 <= b < 37 -> fs_at sb0 v0 x.
Proof.
  intros Hd Ha Hb. split; [apply layout0|apply unheld0| |apply size0].
  split; [done|by rewrite Ha| |].
  - intros n (Hn & k & Hk & ->). rewrite (one_slots x b) in * by done. case_decide; [|done].
    split; [|split; [rewrite used0 by lia; apply Z.ltb_lt; lia|done]]. split; [simpl; lia|].
    split; [apply range0; unfold in_log; lia|]. rewrite meta0. lia.
  - intros k k' Hk Hk' Hn. rewrite !(one_slots x b) in * by done. repeat case_decide; lia.
Qed.

Lemma one_holes x b : i_addrs x = b :: replicate 12 0 -> b <> 0 -> i_size x <= 512 -> no_holes x v0.
Proof.
  intros Ha Hb Hs bn Hbn Hlt. unfold BSIZE in Hlt. assert (bn = 0) as -> by lia. unfold addr_of. by rewrite Ha.
Qed.

Lemma y0_at : fs_at sb0 v0 y0.
Proof. by apply (one_at y0 34). Qed.

Lemma root0_ready : file_ready s0 v0 2 root0.
Proof.
  split; [apply tx0_view|by apply (one_at root0 35)|done|by apply (one_holes root0 35)| |simpl; lia|done].
  split; [done|]. simpl. rewrite MAXFILE_val. unfold BSIZE. lia.
Qed.

Lemma y0_ready : file_ready s0 v0 1 y0.
Proof.
  split; [apply tx0_view|apply y0_at|done|by apply (one_holes y0 34)| |simpl; lia|done].
  split; [done|]. simpl. rewrite MAXFILE_val. unfold BSIZE. lia.
Qed.

Lemma separate0 : separate x0 y0 v0.
Proof. intros n (Hn & k & Hk & ->) _. by rewrite x0_slots in Hn. Qed.

(** ** Applications *)

Definition no_read : Z -> option (nat -> Z -> M (fsys (logsys Memide.memide)) (Z * list Z)) := fun _ => None.
Definition no_write : Z -> option (nat -> list Z -> Z -> M (fsys (logsys Memide.memide)) Z) := fun _ => None.

Lemma balloc_correct_witness :
  wp (balloc ROOTDEV) (fun b s' => exists v', viewed (blk s') v' /\ layout (sb s') v' /\
    0 <= b < 64 /\ used sb0 v0 b = false /\
    (forall b', 0 <= b' < b -> used sb0 v0 b' = true) /\
    content v' b = replicate (Z.to_nat BSIZE) 0 /\
    (forall b', 0 <= b' < 64 ->
       used sb0 v' b' = if decide (b' = b) then true else used sb0 v0 b') /\
    (forall n, n <> b -> ~ bitmap_block sb0 n -> content v' n = content v0 n)) s0.
Proof.
  apply (balloc_correct s0 v0 tx0_view layout0 unheld0); [apply free0; lia|apply spare_k; lia].
Defined.

Lemma bfree_double_free_witness : panics (bfree ROOTDEV 40) "freeing free block" s0.
Proof.
  apply (bfree_double_free s0 v0 40 tx0_view layout0 unheld0); [simpl; lia| |apply spare_k; lia].
  apply used0. lia.
Defined.

Lemma bfree_balloc_witness :
  wp (let* b := balloc ROOTDEV in bfree ROOTDEV b)
    (fun _ s' => exists v', viewed (blk s') v' /\
       forall b, 0 <= b < 64 -> used sb0 v' b = used sb0 v0 b) s0.
Proof.
  apply (bfree_balloc s0 v0 tx0_view layout0 unheld0); [apply free0; lia|apply spare_k; lia].
Defined.

(** Bytes 1 to 3 of "hello". *)
Lemma readi_correct_witness :
  wp (readi no_read 1 1 3) (fun r s' => viewed (blk s') v0 /\ inodes s' = inodes s0 /\
    r.1 = 3 /\ r.2 = (fun i => file_byte y0 v0 (1 + Z.of_nat i)) <$> seq 0 (Z.to_nat r.1)) s0.
Proof.
  apply (readi_correct no_read s0 v0 1 y0 1 3 y0_ready); [apply spare_k; lia|simpl; lia|lia|lia].
Defined.


Lemma writei_readi_witness :
  wp (let* _ := writei no_write 0 hello 0 5 in readi no_read 0 0 5)
    (fun r _ => r = (5, hello)) s0.
Proof.
  apply (writei_readi no_read no_write s0 v0 0 x0 hello 0 1 x0_ready); [simpl; lia| | | |].
  - rewrite MAXFILE_val. unfold BSIZE. simpl. lia.
  - vm_compute. discriminate.
  - apply free0. lia.
  - apply spare_k. lia.
Defined.

Lemma writei_isolated_witness :
  wp (writei no_write 0 hello 0 5) (fun _ s' => exists v', viewed (blk s') v' /\
    forall o, 0 <= o < MAXFILE * BSIZE -> file_byte y0 v' o = file_byte y0 v0 o) s0.
Proof.
  apply (writei_isolated no_write s0 v0 0 x0 y0 hello 0 5 1 x0_ready y0_at separate0);
    [simpl; lia|simpl; lia| | | |].
  - rewrite MAXFILE_val. unfold BSIZE. lia.
  - vm_compute. discriminate.
  - apply free0. lia.
  - apply spare_k. lia.
Defined.
