(* ===== verification/FsDir.v ===== *)
(** Directories of fs.c: dirlookup() and dirlink() as a search in, and an
    insertion into, a list of entries. *)

From stdpp Require Import functions.
From S2P Require Import Prelude Params Bytes CString Buf Log Tx Fs FsBlocks FsFile.

(** ** Entries *)

(** The name of a struct dirent, without its padding. *)
Definition name_of (nm : list Z) : list Z := cstr (ptr_to nm) (Z.to_nat DIRSIZ).

(** An entry: the inode number, 0 when the slot is free, and the name. *)
Definition entry_of (de : list Z) : Z * list Z := (de_inum de, name_of (de_name de)).

Definition entry_at x v (k : nat) : Z * list Z := entry_of (file_bytes x v (16 * Z.of_nat k) 16).
Definition entries x v : list (Z * list Z) := entry_at x v <$> seq 0 (Z.to_nat (i_size x / 16)).

(** The first entry with the name. *)
Fixpoint find_entry (nm : list Z) (es : list (Z * list Z)) : option (nat * Z) :=
  match es with
  | [] => None
  | (inum, n) :: es =>
      if bool_decide (inum <> 0 /\ n = nm) then Some (0%nat, inum)
      else prod_map S id <$> find_entry nm es
  end.

(** The slot that dirlink() fills: the first free one, or one more. *)
Fixpoint free_slot (es : list (Z * list Z)) : nat :=
  match es with
  | [] => 0
  | (inum, _) :: es => if inum =? 0 then 0 else S (free_slot es)
  end.

(** The entries after dirlink(). *)
Definition add_entry (nm : list Z) (inum : Z) (es : list (Z * list Z)) : list (Z * list Z) :=
  let k := free_slot es in
  if decide (k = length es) then es ++ [(inum, nm)] else <[k := (inum, nm)]> es.

Lemma find_entry_app nm es1 es2 :
  find_entry nm (es1 ++ es2) =
  match find_entry nm es1 with
  | Some r => Some r
  | None => prod_map (Nat.add (length es1)) id <$> find_entry nm es2
  end.
Proof.
  induction es1 as [|[i n] es1 IH]; cbn [app find_entry]; [by destruct (find_entry nm es2) as [[]|]|].
  case_bool_decide; [done|]. rewrite IH. destruct (find_entry nm es1); [done|].
  by destruct (find_entry nm es2) as [[]|].
Qed.

Lemma find_entry_None nm es :
  find_entry nm es = None <-> forall e, e ∈ es -> ~ (e.1 <> 0 /\ e.2 = nm).
Proof.
  induction es as [|[i n] es IH]; cbn [find_entry]; [set_solver|]. case_bool_decide as E.
  - split; [done|]. intros H. destruct (H (i, n)); [set_solver|done].
  - rewrite fmap_None, IH. set_solver.
Qed.

Lemma find_entry_Some nm es k j : find_entry nm es = Some (k, j) -> es !! k = Some (j, nm) /\ j <> 0.
Proof.
  revert k. induction es as [|[i n] es IH]; intros k; cbn [find_entry]; [done|]. case_bool_decide as E.
  - intros [= <- <-]. by destruct E as [? ->].
  - destruct (find_entry nm es) as [[k' j']|]; [|done]. intros [= <- <-]. by apply IH.
Qed.

Lemma free_slot_spec es :
  let k := free_slot es in
  (k <= length es)%nat /\ (forall i e, (i < k)%nat -> es !! i = Some e -> e.1 <> 0) /\
  (forall e, es !! k = Some e -> e.1 = 0).
Proof.
  induction es as [|[j n] es (I1 & I2 & I3)]; cbn [free_slot length]; [split_and!; [lia|intros; lia|done]|].
  destruct (Z.eqb_spec j 0) as [->|Hj]; [split_and!; [lia|intros; lia|by intros e [= <-]]|].
  split_and!; [lia| |done]. intros [|i] e Hi He; [by injection He as <-|]. apply (I2 i); [lia|done].
Qed.

(** An added entry is found, and the others are found as before. *)
Lemma find_added nm inum es :
  inum <> 0 -> find_entry nm es = None -> find_entry nm (add_entry nm inum es) = Some (free_slot es, inum).
Proof.
  intros Hi Hn. destruct (free_slot_spec es) as (H1 & _ & _). unfold add_entry. set (k := free_slot es) in *.
  case_decide as E.
  - rewrite find_entry_app, Hn. cbn. rewrite bool_decide_true by done. cbn. by rewrite E, Nat.add_0_r.
  - rewrite insert_take_drop by lia. rewrite find_entry_app.
    assert (find_entry nm (take k es) = None) as ->.
    { rewrite find_entry_None in *. intros e He. apply Hn. by eapply subseteq_take. }
    cbn. rewrite bool_decide_true by done. cbn. rewrite length_take, Nat.min_l by lia. by rewrite Nat.add_0_r.
Qed.

Lemma find_entry_insert nm es k e e' :
  es !! k = Some e -> ~ (e.1 <> 0 /\ e.2 = nm) -> ~ (e'.1 <> 0 /\ e'.2 = nm) ->
  find_entry nm (<[k := e']> es) = find_entry nm es.
Proof.
  revert k. induction es as [|[j n] es IH]; intros [|k] Hk H1 H2; try done; simpl in Hk.
  - simpl. injection Hk as <-. destruct e' as [j' n']. by rewrite !bool_decide_false.
  - simpl. case_bool_decide; [done|]. by rewrite (IH k).
Qed.

Lemma find_others nm nm' inum es :
  nm <> nm' -> find_entry nm' (add_entry nm inum es) = find_entry nm' es.
Proof.
  intros Hne. destruct (free_slot_spec es) as (H1 & _ & H3). unfold add_entry. set (k := free_slot es) in *.
  case_decide as E.
  - rewrite find_entry_app. cbn. rewrite bool_decide_false by naive_solver. cbn. by destruct (find_entry nm' es).
  - destruct (lookup_lt_is_Some_2 es k) as [e He]; [lia|]. apply (find_entry_insert nm' es k e); [done| |cbn; naive_solver].
    specialize (H3 e He). naive_solver.
Qed.

Lemma length_add_entry nm inum es :
  length (add_entry nm inum es) = Nat.max (length es) (S (free_slot es)).
Proof.
  destruct (free_slot_spec es) as (H1 & _ & _). unfold add_entry. case_decide as E.
  - rewrite length_app. cbn. lia.
  - rewrite length_insert. lia.
Qed.

Lemma lookup_add_entry nm inum es i :
  add_entry nm inum es !! i = if decide (i = free_slot es) then Some (inum, nm) else es !! i.
Proof.
  destruct (free_slot_spec es) as (H1 & _ & _). unfold add_entry. set (k := free_slot es) in *. case_decide as E.
  - case_decide as E2; [subst; rewrite lookup_app_r by lia; by rewrite E, Nat.sub_diag|].
    destruct (decide (i < length es)%nat); [by rewrite lookup_app_l|].
    rewrite lookup_app_r by lia. rewrite (lookup_ge_None_2 es) by lia. apply lookup_ge_None_2. cbn. lia.
  - case_decide as E2; [subst; by rewrite list_lookup_insert_eq by lia|by rewrite list_lookup_insert_ne].
Qed.

(** ** dirlookup() and dirlink() *)

Lemma file_bytes_ext x v x' v' off off' n n' :
  off = off' -> n = n' ->
  (forall o, off <= o < off + Z.of_nat n -> file_byte x' v' o = file_byte x v o) ->
  file_bytes x' v' off n = file_bytes x v off' n'.
Proof.
  intros <- <- H. unfold file_bytes. apply list_fmap_ext. intros i k [-> Hk]%lookup_seq. apply H. lia.
Qed.

Lemma file_bytes_src x v src off :
  (forall o, off <= o < off + Z.of_nat (length src) -> file_byte x v o = byte_at src (Z.to_nat (o - off))) ->
  file_bytes x v off (length src) = src.
Proof.
  intros H. apply list_eq. intros i. unfold file_bytes. rewrite list_lookup_fmap.
  destruct (decide (i < length src)%nat) as [Hi|Hi].
  - rewrite lookup_seq_lt by done. cbn. rewrite H by lia. unfold byte_at.
    replace (Z.to_nat (off + Z.of_nat i - off)) with i by lia.
    by destruct (lookup_lt_is_Some_2 src i Hi) as [z ->].
  - by rewrite lookup_seq_ge, lookup_ge_None_2 by lia.
Qed.

Lemma entry_of_mkdirent inum nm : 0 <= inum < 2 ^ 16 -> entry_of (mkdirent inum nm) = (inum, name_of nm).
Proof.
  intros Hi. unfold entry_of, mkdirent, de_inum, de_name, get_le, slice.
  rewrite drop_0, take_app_length' by (by rewrite length_le_of). rewrite of_le_le_of, Z.mod_small by (cbn; lia).
  f_equal. rewrite drop_app_length' by (by rewrite length_le_of). unfold name_of.
  rewrite take_ge by (by rewrite length_strncpy). apply cstr_strncpy.
Qed.

(** A directory is a file of whole entries. *)
Record directory (x : inode) : Prop := {
  dr_type : i_type x = T_DIR;
  dr_size : (16 | i_size x);
}.

Lemma de_offs_entries x : directory x -> 0 <= i_size x ->
  de_offs (i_size x) = (fun k => Z.of_nat k * 16) <$> seq 0 (Z.to_nat (i_size x / 16)).
Proof.
  intros [_ [q Hq]] H0. unfold de_offs, sizeof_dirent. rewrite Hq. do 3 f_equal.
  rewrite Z.div_mul by done. Z.div_mod_to_equations; lia.
Qed.

Lemma entries_lookup x v k : (k < Z.to_nat (i_size x / 16))%nat -> entries x v !! k = Some (entry_at x v k).
Proof. intros Hk. unfold entries. by rewrite list_lookup_fmap, lookup_seq_lt. Qed.

Lemma length_entries x v : length (entries x v) = Z.to_nat (i_size x / 16).
Proof. unfold entries. by rewrite length_fmap, length_seq. Qed.

Section dir.
Context {S : Type} `{TxLaws S}.
Implicit Types (s : fsys S) (v : view) (x : inode).
Context (dev_read : Z -> option (nat -> Z -> M (fsys S) (Z * list Z))).

Lemma ready_blk s v ip x bk : file_ready s v ip x -> viewed bk v -> file_ready (set_blk bk s) v ip x.
Proof. intros [] Hbk. by split. Qed.

Lemma wp_read_entry s v dp x k (Q : Z * list Z -> fsys S -> Prop) :
  file_ready s v dp x -> spare 0 v -> (k < Z.to_nat (i_size x / 16))%nat ->
  (forall bk, viewed bk v -> Q (16, file_bytes x v (16 * Z.of_nat k) 16) (set_blk bk s)) ->
  wp (readi dev_read dp (Z.of_nat k * 16) sizeof_dirent) Q s.
Proof.
  intros Hr Hsp Hk HQ. unfold sizeof_dirent. destruct (rg_size _ (fr_regular _ _ _ _ Hr)) as [Hs0 Hs1].
  assert (Hk' : 16 * Z.of_nat k + 16 <= i_size x) by (Z.div_mod_to_equations; lia).
  assert (MAXFILE * BSIZE < 2 ^ 31) by (rewrite MAXFILE_val; unfold BSIZE; lia).
  eapply wp_readi; [apply Hr|apply Hr|apply Hr|apply Hr|done|apply Hr|lia|lia|lia|]. intros bk Hbk. unfold read_len.
  rewrite Z.min_l by lia. replace (Z.of_nat k * 16) with (16 * Z.of_nat k) by lia. by apply HQ.
Qed.

(** The scan stops at the first entry for which [f] gives a program to run. *)
Lemma wp_scan {B} s v dp x (body : Z -> list Z -> M (fsys S) (option B)) (stop : Z * list Z -> bool) msg
    (Q : option B -> fsys S -> Prop) :
  file_ready s v dp x -> directory x -> spare 0 v ->
  (forall k bk, entries x v !! k = Some (entry_at x v k) -> viewed bk v ->
     (forall j e, (j < k)%nat -> entries x v !! j = Some e -> stop e = false) ->
     let de := file_bytes x v (16 * Z.of_nat k) 16 in
     if stop (entry_of de)
     then wp (body (Z.of_nat k * 16) de) (fun r s' => exists b, r = Some b /\ Q (Some b) s') (set_blk bk s)
     else body (Z.of_nat k * 16) de (set_blk bk s) = Ok None (set_blk bk s)) ->
  (forall bk, viewed bk v -> (forall e, e ∈ entries x v -> stop e = false) -> Q None (set_blk bk s)) ->
  wp (for_find (de_offs (i_size x)) (fun off =>
        let* '(r, de) := readi dev_read dp off sizeof_dirent in
        panic_if (negb (r =? sizeof_dirent)) msg ;;; body off de)) Q s.
Proof.
  intros Hr Hd Hsp Hbody HQ. destruct (rg_size _ (fr_regular _ _ _ _ Hr)) as [Hs0 _].
  rewrite (de_offs_entries x Hd Hs0). set (n := Z.to_nat (i_size x / 16)).
  apply (wp_for_find _ _ (fun l s' => exists bk, viewed bk v /\ s' = set_blk bk s /\
    forall j e, (j < length l)%nat -> entries x v !! j = Some e -> stop e = false)).
  - exists (blk s). split; [apply Hr|]. split; [by destruct s|]. cbn. lia.
  - intros l1 off l2 s' Hl (bk & Hbk & -> & Hno).
    assert (Hk : off = Z.of_nat (length l1) * 16 /\ (length l1 < n)%nat).
    { assert (Hlk : ((fun k => Z.of_nat k * 16) <$> seq 0 n) !! length l1 = Some off) by (by rewrite Hl, list_lookup_middle).
      rewrite list_lookup_fmap in Hlk. destruct (decide (length l1 < n)%nat); [|by rewrite lookup_seq_ge in Hlk by lia].
      rewrite lookup_seq_lt in Hlk by done. by injection Hlk as <-. }
    destruct Hk as [-> Hk]. set (k := length l1) in *. apply wp_bind.
    eapply wp_read_entry; [by apply ready_blk|done|done|]. intros bk2 Hbk2. apply wp_bind, wp_panic_if; [done|].
    change (set_blk bk2 (set_blk bk s)) with (set_blk bk2 s).
    pose proof (entries_lookup x v k Hk) as He.
    specialize (Hbody k bk2 He Hbk2 Hno). cbv zeta in Hbody. fold (entry_at x v k) in Hbody.
    destruct (stop (entry_at x v k)) eqn:E.
    + eapply wp_mono; [exact Hbody|]. by intros r s' (b & -> & ?).
    + unfold wp. rewrite Hbody. exists bk2. split_and!; [done|done|]. rewrite length_app. cbn. intros j e Hj Hje.
      destruct (decide (j = k)) as [->|]; [congruence|]. apply (Hno j); [unfold k in *; lia|done].
  - intros s' (bk & Hbk & -> & Hno). apply HQ; [done|]. intros e (j & Hj)%list_elem_of_lookup. apply (Hno j); [|done].
    rewrite length_fmap, length_seq. apply lookup_lt_Some in Hj. by rewrite length_entries in Hj.
Qed.

Lemma find_entry_first nm es k e :
  es !! k = Some e -> e.1 <> 0 -> e.2 = nm ->
  (forall j e', (j < k)%nat -> es !! j = Some e' -> bool_decide (e'.1 <> 0 /\ e'.2 = nm) = false) ->
  find_entry nm es = Some (k, e.1).
Proof.
  intros He Hi Hnm Hno. rewrite <- (take_drop_middle es k e He). rewrite find_entry_app.
  assert (find_entry nm (take k es) = None) as ->.
  { apply find_entry_None. intros e' (j & Hj)%list_elem_of_lookup. apply lookup_take_Some in Hj as [Hj Hlt].
    specialize (Hno j e' Hlt Hj). by apply bool_decide_eq_false in Hno. }
  cbn. destruct e as [i n]. cbn in *. rewrite bool_decide_true by done. cbn.
  rewrite length_take, Nat.min_l, Nat.add_0_r; [done|]. apply lookup_lt_Some in He. lia.
Qed.

Lemma dir_slot_first es k e :
  es !! k = Some e -> e.1 = 0 -> (forall j e', (j < k)%nat -> es !! j = Some e' -> (e'.1 =? 0) = false) ->
  free_slot es = k.
Proof.
  intros He Hi Hno. destruct (free_slot_spec es) as (F1 & F2 & F3). pose proof (lookup_lt_Some _ _ _ He).
  destruct (lt_eq_lt_dec (free_slot es) k) as [[Hlt|]|Hlt]; [|done|by destruct (F2 k e)].
  destruct (lookup_lt_is_Some_2 es (free_slot es)) as [e' He']; [lia|]. specialize (Hno _ _ Hlt He').
  rewrite (F3 e' He') in Hno. done.
Qed.

Lemma namecmp_name nm de : (namecmp nm (de_name de) =? 0) = bool_decide (name_of (de_name de) = name_of nm).
Proof. apply eq_true_iff_eq. rewrite Z.eqb_eq, bool_decide_eq_true. unfold namecmp, name_of. rewrite strncmp_eq. naive_solver. Qed.

Lemma wp_dirlookup s v dp x nm (Q : option (nat * Z) -> fsys S -> Prop) :
  file_ready s v dp x -> directory x -> spare 0 v ->
  (forall bk, viewed bk v ->
     match find_entry (name_of nm) (entries x v) with
     | None => Q None (set_blk bk s)
     | Some (k, inum) => wp (iget ROOTDEV inum) (fun ip s' => Q (Some (ip, 16 * Z.of_nat k)) s') (set_blk bk s)
     end) ->
  wp (dirlookup dev_read dp nm) Q s.
Proof.
  intros Hr Hd Hsp HQ. unfold dirlookup. apply wp_bind. eapply wp_get_inode; [apply Hr|].
  apply wp_bind, wp_panic_if; [by rewrite (dr_type _ Hd)|].
  rewrite (io_dev _ _ _ (fa_ok _ _ _ (fr_at _ _ _ _ Hr))).
  apply (wp_scan s v dp x (fun off de => if de_inum de =? 0 then ret None
      else if namecmp nm (de_name de) =? 0 then let* ip := iget ROOTDEV (de_inum de) in ret (Some (ip, off)) else ret None)
    (fun e => bool_decide (e.1 <> 0 /\ e.2 = name_of nm))); [done|done|done| |].
  - intros k bk He Hbk Hno de. unfold entry_at in He. fold de in He. rewrite namecmp_name. cbn [fst snd entry_of].
    case_bool_decide as E.
    + destruct E as [E1 E2]. rewrite (proj2 (Z.eqb_neq _ _) E1), bool_decide_true by done.
      specialize (HQ bk Hbk). rewrite (find_entry_first _ _ k _ He E1 E2 Hno) in HQ. cbn [fst entry_of] in HQ.
      apply wp_bind. eapply wp_mono; [exact HQ|]. intros ip s' HQ'. apply wp_ret. eexists; split; [done|].
      by replace (Z.of_nat k * 16) with (16 * Z.of_nat k) by lia.
    + destruct (Z.eqb_spec (de_inum de) 0); [done|]. rewrite bool_decide_false; [done|naive_solver].
  - intros bk Hbk Hno. specialize (HQ bk Hbk).
    rewrite (proj2 (find_entry_None (name_of nm) (entries x v))) in HQ; [done|].
    intros e He. specialize (Hno e He). by apply bool_decide_eq_false in Hno.
Qed.

(** The entry that dirlink() writes, as a write to the file. *)
Lemma wrote_entry sb v x x' v' nm inum :
  let k := free_slot (entries x v) in
  wrote sb x v x' v' (mkdirent inum nm) (16 * Z.of_nat k) 16 -> directory x -> 0 <= i_size x <= MAXFILE * BSIZE ->
  16 * Z.of_nat k + 16 <= MAXFILE * BSIZE -> 0 <= inum < 2 ^ 16 ->
  entries x' v' = add_entry (name_of nm) inum (entries x v) /\ directory x'.
Proof.
  intros k Hw [Hd [q Hq]] Hs Hk Hi. destruct (free_slot_spec (entries x v)) as (F1 & _ & _). fold k in F1.
  assert (Hlen : Z.of_nat (length (entries x v)) = q) by (rewrite length_entries, Hq, Z.div_mul by done; lia).
  pose proof (wo_inode _ _ _ _ _ _ _ _ Hw) as Hx'.
  assert (Hsz : i_size x' = Z.max (i_size x) (16 * Z.of_nat k + 16)) by (by rewrite Hx').
  assert (Hn : i_size x' / 16 = Z.max q (Z.of_nat k + 1)).
  { rewrite Hsz, Hq. replace (Z.max (q * 16) _) with (Z.max q (Z.of_nat k + 1) * 16) by lia. by rewrite Z.div_mul. }
  split; [|split; [by rewrite Hx'|]].
  - apply list_eq. intros i. rewrite lookup_add_entry. fold k.
    destruct (decide (i < Z.to_nat (i_size x' / 16))%nat) as [Hlt|Hge].
    + rewrite entries_lookup by done. case_decide as E.
      * rewrite <- (entry_of_mkdirent inum nm Hi), E. unfold entry_at. do 2 f_equal.
        assert (Hl : length (mkdirent inum nm) = 16%nat) by (unfold mkdirent; by rewrite length_app, length_le_of, length_strncpy).
        rewrite <- Hl. apply file_bytes_src. intros o Ho. rewrite Hl in Ho.
        rewrite (wo_bytes _ _ _ _ _ _ _ _ Hw) by lia. rewrite decide_True by lia. done.
      * rewrite entries_lookup by (rewrite Hq, Z.div_mul by done; lia). unfold entry_at. do 2 f_equal.
        apply file_bytes_ext; [done|done|]. intros o Ho.
        rewrite (wo_bytes _ _ _ _ _ _ _ _ Hw) by lia. by rewrite decide_False by lia.
    + rewrite lookup_ge_None_2 by (rewrite length_entries; lia).
      rewrite decide_False by lia. symmetry. apply lookup_ge_None_2. lia.
  - exists (Z.max q (Z.of_nat k + 1)). lia.
Qed.

Context (dev_write : Z -> option (nat -> list Z -> Z -> M (fsys S) Z)).

Lemma wp_dirlink s v dp x nm inum (Q : Z -> fsys S -> Prop) :
  let k := free_slot (entries x v) in
  file_ready s v dp x -> directory x -> find_entry (name_of nm) (entries x v) = None ->
  0 <= inum < 2 ^ 16 -> 16 * Z.of_nat k + 16 <= MAXFILE * BSIZE -> has_free (sb s) v 2 -> spare 7 v ->
  (forall x' v' bk, viewed bk v' -> wrote (sb s) x v x' v' (mkdirent inum nm) (16 * Z.of_nat k) 16 ->
     file_ready (st s dp x' bk) v' dp x' -> directory x' ->
     entries x' v' = add_entry (name_of nm) inum (entries x v) -> Q 0 (st s dp x' bk)) ->
  wp (dirlink dev_read dev_write dp nm inum) Q s.
Proof.
  intros k Hr Hd Hno Hi Hk Hf Hsp HQ. assert (Hsp0 : spare 0 v) by (by eapply spare_mono; [|exact Hsp]; lia).
  unfold dirlink. apply wp_bind, (wp_dirlookup s v dp x); [done|done|done|].
  intros bk Hbk. rewrite Hno. apply wp_bind. eapply wp_get_inode; [apply Hr|].
  pose proof (ready_blk _ _ _ _ _ Hr Hbk) as Hr1. destruct (free_slot_spec (entries x v)) as (F1 & F2 & _).
  assert (Hs0 : 0 <= i_size x <= MAXFILE * BSIZE) by apply (fr_regular _ _ _ _ Hr).
  assert (Hlen : Z.of_nat (length (entries x v)) * 16 = i_size x).
  { destruct (dr_size _ Hd) as [q Hq]. rewrite length_entries, Hq, Z.div_mul by done. lia. }
  assert (Hwrite : forall bk', viewed bk' v ->
    wp (let* r := writei dev_write dp (mkdirent inum nm) (16 * Z.of_nat k) sizeof_dirent in
        panic_if (negb (r =? sizeof_dirent)) "dirlink" ;;; ret 0) Q (set_blk bk' s)).
  { intros bk' Hbk'. pose proof (ready_blk _ _ _ _ _ Hr Hbk') as Hr'. apply wp_bind. unfold sizeof_dirent.
    assert (Hl : length (mkdirent inum nm) = 16%nat) by (unfold mkdirent; by rewrite length_app, length_le_of, length_strncpy).
    eapply (wp_writei _ _ v dp x _ _ _ 1); [apply Hr'|apply Hr'|apply Hr'|apply Hr'|apply Hr'|fold k in F1; lia|rewrite Hl; lia|done| |done|done|apply Hr'|apply (fr_unheld _ _ _ _ Hr')|].
    { unfold BSIZE. Z.div_mod_to_equations; lia. }
    intros x' v' bk2 Hbk2 Hw _. apply wp_bind, wp_panic_if; [done|]. apply wp_ret.
    assert (Hr2 : file_ready (st (set_blk bk' s) dp x' bk2) v' dp x').
    { eapply wrote_ready; [exact Hr'|exact Hw|done|lia|lia|done]. }
    destruct (wrote_entry _ _ _ _ _ _ _ Hw Hd Hs0 Hk Hi) as [He Hd']. by apply (HQ x' v' bk2). }
  apply wp_bind. apply (wp_scan (set_blk bk s) v dp x (fun off de => if de_inum de =? 0 then ret (Some off) else ret None)
    (fun e => e.1 =? 0)); [done|done|done| |].
  - intros j bk' He Hbk' Hfirst de. unfold entry_at in He. fold de in He. cbn [fst entry_of].
    destruct (Z.eqb_spec (de_inum de) 0) as [E|E]; [|done]. apply wp_ret. eexists. split; [done|].
    assert (Hj : k = j) by (by apply (dir_slot_first _ j _ He)).
    rewrite <- Hj. replace (Z.of_nat k * 16) with (16 * Z.of_nat k) by lia. by apply Hwrite.
  - intros bk' Hbk' Hall. rewrite (de_offs_entries x Hd) by lia. rewrite length_fmap, length_seq.
    assert (Hke : k = length (entries x v)).
    { destruct (decide (k < length (entries x v))%nat) as [Hlt|]; [|fold k in F1; lia].
      destruct (lookup_lt_is_Some_2 _ _ Hlt) as [e He]. destruct (free_slot_spec (entries x v)) as (_ & _ & F3).
      specialize (Hall e (list_elem_of_lookup_2 _ _ _ He)). fold k in F3. by rewrite (F3 e He) in Hall. }
    rewrite <- (length_entries x v), <- Hke. unfold sizeof_dirent at 1.
    replace (Z.of_nat k * 16) with (16 * Z.of_nat k) by lia. by apply Hwrite.
Qed.


End dir.
