(* ===== verification/FsPath.v ===== *)
(** The inode cache and path names of fs.c: iget(), ilock(), iunlock(),
    iput() and namex() against an abstract cache (how many references there
    are to each inode) and the tree of directories that the disk holds. *)

From S2P Require Import Prelude Params Bytes CString Buf Log Tx Fs FsBlocks FsFile FsDir.

(** ** Reference counts *)

Definition refs (R : gmap Z Z) (j : Z) : Z := default 0 (R !! j).
#[local] Arguments refs : simpl never.
Definition incr (j : Z) (R : gmap Z Z) : gmap Z Z := <[j := refs R j + 1]> R.
Definition decr (j : Z) (R : gmap Z Z) : gmap Z Z :=
  if refs R j <=? 1 then delete j R else <[j := refs R j - 1]> R.

Definition positive (R : gmap Z Z) : Prop := map_Forall (fun _ r => 0 < r) R.

Lemma refs_incr R j k : refs (incr j R) k = refs R k + (if decide (k = j) then 1 else 0).
Proof.
  unfold refs, incr. case_decide as E; [subst; by rewrite lookup_insert_eq|rewrite lookup_insert_ne by done]. lia.
Qed.

Lemma refs_decr R j k :
  positive R -> 0 < refs R j -> refs (decr j R) k = refs R k - (if decide (k = j) then 1 else 0).
Proof.
  intros HR Hj. unfold decr. destruct (Z.leb_spec (refs R j) 1).
  - unfold refs at 1. case_decide as E; [subst; rewrite lookup_delete_eq; cbn; lia|].
    rewrite lookup_delete_ne by done. unfold refs. lia.
  - unfold refs at 1. case_decide as E; [subst; rewrite lookup_insert_eq; cbn; lia|].
    rewrite lookup_insert_ne by done. unfold refs. lia.
Qed.

Lemma refs_nonneg R j : positive R -> 0 <= refs R j.
Proof. intros HR. unfold refs. destruct (R !! j) as [r|] eqn:E; [|done]. specialize (HR j r E). cbn in *. lia. Qed.

Lemma positive_incr R j : positive R -> positive (incr j R).
Proof.
  intros HR. apply map_Forall_insert_2; [|done]. pose proof (refs_nonneg R j HR). lia.
Qed.

Lemma positive_decr R j : positive R -> positive (decr j R).
Proof.
  intros HR. unfold decr. destruct (Z.leb_spec (refs R j) 1); [by apply map_Forall_delete|].
  apply map_Forall_insert_2; [lia|done].
Qed.

Lemma refs_lookup R j r : positive R -> R !! j = Some r <-> refs R j = r /\ 0 < r.
Proof.
  intros HR. unfold refs. destruct (R !! j) as [r'|] eqn:E; cbn; split.
  - intros [= ->]. split; [done|]. by apply (HR j).
  - by intros [-> _].
  - done.
  - lia.
Qed.

(** Counts determine the map. *)
Lemma refs_ext R R' : positive R -> positive R' -> (forall j, refs R j = refs R' j) -> R = R'.
Proof.
  intros HR HR' E. apply map_eq. intros j. apply option_eq. intros r.
  rewrite !refs_lookup by done. by rewrite E.
Qed.

(** Taking a reference to the next inode and dropping the one to the last. *)
Lemma decr_incr_incr R j k : positive R -> decr j (incr k (incr j R)) = incr k R.
Proof.
  intros HR. assert (HR2 : positive (incr k (incr j R))) by (by do 2 apply positive_incr).
  pose proof (refs_nonneg R j HR).
  assert (0 < refs (incr k (incr j R)) j) by (rewrite !refs_incr; repeat case_decide; lia).
  apply refs_ext; [by apply positive_decr|by apply positive_incr|].
  intros i. rewrite refs_decr, !refs_incr by done. lia.
Qed.

Lemma decr_incr R j : positive R -> decr j (incr j R) = R.
Proof.
  intros HR. pose proof (refs_nonneg R j HR).
  assert (0 < refs (incr j R) j) by (rewrite refs_incr, decide_True by done; lia).
  apply refs_ext; [by apply positive_decr, positive_incr|done|].
  intros i. rewrite refs_decr, refs_incr; [lia|by apply positive_incr|done].
Qed.

Lemma size_incr R j : (size (incr j R) <= S (size R))%nat.
Proof. unfold incr. rewrite map_size_insert. case_match; cbn; lia. Qed.

(** ** Inodes on the disk *)

Definition dnode (sb : superblock) (v : view) (j : Z) : inode :=
  get_dinode (dinode_off j) (content v (IBLOCK j sb)) (mkinode ROOTDEV j 0 initsleeplock false 0 0 0 0 0 []).

(** What a cached inode copies from the disk. *)
Definition copied (x : inode) : Z * Z * Z * Z * Z * list Z :=
  (i_type x, i_major x, i_minor x, i_nlink x, i_size x, i_addrs x).

Lemma copied_get o d x : copied (get_dinode o d x) = (d_type o d, d_major o d, d_minor o d, d_nlink o d, d_size o d, d_addrs o d).
Proof. done. Qed.

Lemma copied_fields x y :
  copied x = copied y ->
  i_type x = i_type y /\ i_nlink x = i_nlink y /\ i_size x = i_size y /\ i_addrs x = i_addrs y.
Proof. intros [=]. done. Qed.

(** Everything about the content of a file depends on the copied fields. *)
Lemma slot_copied x y v k : copied x = copied y -> slot x v k = slot y v k.
Proof. intros [= _ _ _ _ _ E]. unfold slot, addr_of, ind_of. by rewrite E. Qed.

Lemma owns_copied x y v n : copied x = copied y -> owns x v n -> owns y v n.
Proof. intros E (Hn & k & Hk & ->). split; [done|]. exists k. split; [done|]. by apply slot_copied. Qed.

Lemma fs_at_copied sb v x y : copied x = copied y -> i_dev x = i_dev y -> fs_at sb v x -> fs_at sb v y.
Proof.
  intros E Ed [Hl Hu [D L O I] Hs]. split; try done. split.
  - by rewrite <- Ed.
  - injection E as _ _ _ _ _ E. by rewrite <- E.
  - intros n Hn. apply O. by eapply owns_copied.
  - intros k k'. rewrite <- !(slot_copied x y) by done. by apply I.
Qed.

Lemma no_holes_copied v x y : copied x = copied y -> no_holes x v -> no_holes y v.
Proof.
  intros [= _ _ _ _ Es Ea] H bn. unfold no_holes, addr_of, ind_of in *. rewrite <- Ea, <- Es. by apply H.
Qed.

Lemma entries_copied v x y : copied x = copied y -> entries x v = entries y v.
Proof.
  intros [= _ _ _ _ Es Ea]. unfold entries, entry_at, file_bytes, file_byte, file_block, addr_of, ind_of.
  by rewrite Es, Ea.
Qed.

(** A set of inodes that is closed under directory entries: a tree, or any
    other graph. *)
Record tree (sb : superblock) (v : view) (G : Z -> Prop) : Prop := {
  tr_layout : layout sb v;
  tr_quiet : held v = ∅ /\ touched v = ∅;
  tr_node : forall j, G j -> 0 < j < sb_ninodes sb /\ i_type (dnode sb v j) <> 0 /\ i_nlink (dnode sb v j) <> 0;
  tr_dir : forall j, G j -> i_type (dnode sb v j) = T_DIR ->
    fs_at sb v (dnode sb v j) /\ no_holes (dnode sb v j) v /\ regular (dnode sb v j) /\ directory (dnode sb v j);
  tr_entries : forall j e, G j -> i_type (dnode sb v j) = T_DIR -> e ∈ entries (dnode sb v j) v -> e.1 <> 0 -> G e.1;
}.

(** Following the names from inode [j]; for the parent, up to the last name. *)
Fixpoint resolve (sb : superblock) (v : view) (parent : bool) (j : Z) (names : list (list Z)) : option Z :=
  match names with
  | [] => if parent then None else Some j
  | nm :: names =>
      if i_type (dnode sb v j) =? T_DIR then
        if parent && bool_decide (names = []) then Some j
        else match find_entry nm (entries (dnode sb v j) v) with
             | Some (_, j') => resolve sb v parent j' names
             | None => None
             end
      else None
  end.

(** ** Path names *)

(** The parts between slashes. *)
Fixpoint split_path (path : list Z) : list (list Z) :=
  match path with
  | [] => [[]]
  | c :: path =>
      if c =? SLASH then [] :: split_path path
      else match split_path path with
           | p :: ps => (c :: p) :: ps
           | [] => [[c]]
           end
  end.

(** The names of a path: at most DIRSIZ bytes of every part that is not
    empty. *)
Definition elems (path : list Z) : list (list Z) :=
  take (Z.to_nat DIRSIZ) <$> filter (fun p => p <> []) (split_path path).

Lemma elems_slash path : elems (SLASH :: path) = elems path.
Proof. done. Qed.

Lemma skip_slashes_spec path :
  elems (skip_slashes path) = elems path /\ (length (skip_slashes path) <= length path)%nat /\
  (forall c, head (skip_slashes path) = Some c -> c <> SLASH) /\
  (Forall (fun c => c <> 0) path -> Forall (fun c => c <> 0) (skip_slashes path)).
Proof.
  induction path as [|c path (I1 & I2 & I3 & I4)]; cbn [skip_slashes]; [done|].
  destruct (Z.eqb_spec c SLASH) as [->|Hc].
  - rewrite elems_slash. split_and!; [done|cbn; lia|done|]. intros H%Forall_cons. apply I4, H.
  - split_and!; [done|done|by intros ? [= <-]|done].
Qed.

Lemma take_elem_spec path :
  let '(p, rest) := take_elem path in
  path = p ++ rest /\ split_path path = p :: tail (split_path rest) /\
  (rest = [] \/ exists r, rest = SLASH :: r).
Proof.
  induction path as [|c path IH]; cbn [take_elem]; [split_and!; [done|done|by left]|].
  destruct (Z.eqb_spec c SLASH) as [->|Hc]; [split_and!; [done|done|right; eauto]|].
  destruct (take_elem path) as [p rest]. destruct IH as (-> & I2 & I3). split_and!; [done| |done].
  cbn [split_path]. rewrite (proj2 (Z.eqb_neq _ _) Hc), I2. done.
Qed.

Lemma elems_take_elem path c :
  head path = Some c -> c <> SLASH ->
  let '(p, rest) := take_elem path in
  elems path = take (Z.to_nat DIRSIZ) p :: elems rest /\ p <> [].
Proof.
  intros Hc Hs. pose proof (take_elem_spec path) as Ht. destruct path as [|c' path]; [done|]. injection Hc as ->.
  cbn [take_elem] in *. rewrite (proj2 (Z.eqb_neq _ _) Hs) in *. destruct (take_elem path) as [p rest].
  destruct Ht as (_ & E & Hrest). split; [|done]. unfold elems at 1. rewrite E.
  rewrite filter_cons_True by done. cbn [fmap list_fmap]. f_equal. destruct Hrest as [->|(r & ->)]; done.
Qed.

Lemma elems_nil path : (forall c, head path = Some c -> c <> SLASH) -> elems path = [] <-> path = [].
Proof.
  intros Hh. split; [|by intros ->]. destruct path as [|c path]; [done|].
  pose proof (elems_take_elem (c :: path) c eq_refl (Hh c eq_refl)) as He.
  destruct (take_elem (c :: path)) as [p rest]. destruct He as [-> _]. done.
Qed.

Lemma cstr_nonzero s t n :
  Forall (fun c => c <> 0) s -> (n <= length s)%nat \/ head t = Some 0 -> cstr (ptr_to (s ++ t)) n = take n s.
Proof.
  revert n. induction s as [|c s IH]; intros n Hs Ht.
  - destruct n; [done|]. destruct Ht as [Ht|Ht]; [cbn in Ht; lia|]. destruct t as [|c t]; [done|]. by injection Ht as ->.
  - destruct n as [|n]; [done|]. apply Forall_cons in Hs as [Hc Hs]. cbn [cstr app]. unfold ptr_to at 1. cbn.
    rewrite (proj2 (Z.eqb_neq _ _) Hc). f_equal. rewrite <- IH; [|done|cbn in Ht; destruct Ht; [left; lia|by right]].
    apply cstr_ext. intros i _. done.
Qed.

Lemma skipelem_spec path name :
  Forall (fun c => c <> 0) path -> length name = 14%nat ->
  match skipelem path name with
  | None => elems path = []
  | Some (rest, name') =>
      elems path = name_of name' :: elems rest /\ (length rest < length path)%nat /\ length name' = 14%nat /\
      Forall (fun c => c <> 0) rest /\ (rest = [] <-> elems rest = [])
  end.
Proof.
  intros Hnz Hlen. unfold skipelem. destruct (skip_slashes_spec path) as (E & L & Hh & Hnz'). specialize (Hnz' Hnz).
  rewrite <- E. destruct (skip_slashes path) as [|c q] eqn:Ep; [done|].
  pose proof (elems_take_elem (c :: q) c eq_refl (Hh c eq_refl)) as He. pose proof (take_elem_spec (c :: q)) as Ht.
  destruct (take_elem (c :: q)) as [p rest]. destruct He as [He Hp]. destruct Ht as (Eq & _ & _).
  assert (Hpr : Forall (fun c => c <> 0) p /\ Forall (fun c => c <> 0) rest) by (apply Forall_app; by rewrite <- Eq).
  destruct Hpr as [Hp0 Hr0]. destruct (skip_slashes_spec rest) as (E2 & L2 & Hh2 & Hnz2).
  assert (Hl : (length rest < length path)%nat).
  { assert (length (c :: q) = length (p ++ rest)) by (by rewrite Eq). rewrite length_app in *. destruct p; [done|]. cbn in *. lia. }
  rewrite He, (elems_nil (skip_slashes rest)), E2 by done.
  assert (Hlast : forall name', name_of name' = take (Z.to_nat DIRSIZ) p -> length name' = 14%nat ->
    take (Z.to_nat DIRSIZ) p :: elems rest = name_of name' :: elems rest /\ (length (skip_slashes rest) < length path)%nat /\
    length name' = 14%nat /\ Forall (fun c => c <> 0) (skip_slashes rest) /\ (skip_slashes rest = [] <-> skip_slashes rest = [])).
  { intros name' -> ->. split_and!; [done|lia|done|auto|done..]. }
  unfold splice. rewrite take_0. cbn [app]. destruct (Z.leb_spec DIRSIZ (Z.of_nat (length p))) as [Hge|Hlt]; unfold DIRSIZ in *.
  - apply Hlast.
    + unfold name_of. rewrite cstr_nonzero; [|by apply Forall_take|left; rewrite length_take; unfold DIRSIZ; lia].
      unfold DIRSIZ. rewrite take_take. f_equal. 
    + rewrite length_app, length_take, length_drop, Hlen. lia.
  - apply Hlast.
    + unfold name_of. rewrite <- app_assoc. apply cstr_nonzero; [done|]. by right.
    + rewrite !length_app, length_drop, Hlen. cbn. lia.
Qed.

(** ** The cache *)

Section cache.
Context {S : Type} `{TxLaws S}.
Implicit Types (s : fsys S) (v : view) (x : inode) (R : gmap Z Z).

(** The cache holds the references [R]; the slot [lk] is locked by this
    process and the others are not locked. *)
Record icached s v R (lk : option nat) : Prop := {
  ic_spin : ic_lock s = false;
  ic_view : viewed (blk s) v;
  ic_pos : positive R;
  ic_slot : forall i x, inodes s !! i = Some x ->
    0 <= i_ref x /\ (if decide (lk = Some i) then sl_held (mypid s) (i_lock x) else sl_free (i_lock x));
  ic_live : forall i x, inodes s !! i = Some x -> 0 < i_ref x ->
    i_dev x = ROOTDEV /\ refs R (i_num x) = i_ref x /\
    (i_valid x = true -> copied x = copied (dnode (sb s) v (i_num x)));
  ic_dom : forall j, 0 < refs R j -> exists i x, inodes s !! i = Some x /\ 0 < i_ref x /\ i_num x = j;
  ic_uniq : forall i i' x x', inodes s !! i = Some x -> inodes s !! i' = Some x' ->
    0 < i_ref x -> 0 < i_ref x' -> i_num x = i_num x' -> i = i';
  ic_valid : forall i, lk = Some i -> exists x, inodes s !! i = Some x /\ 0 < i_ref x /\ i_valid x = true;
}.

(** Slot [i] holds a reference to inode [j]. *)
Definition slot_of s (i : nat) (j : Z) : Prop :=
  exists x, inodes s !! i = Some x /\ i_num x = j /\ 0 < i_ref x.

(** What the operations leave alone. *)
Definition same s s' : Prop :=
  sb s' = sb s /\ mypid s' = mypid s /\ length (inodes s') = length (inodes s).

#[export] Instance same_refl : Reflexive same.
Proof. done. Qed.

#[export] Instance same_trans : Transitive same.
Proof. intros s1 s2 s3 (E1 & E2 & E3) (F1 & F2 & F3). unfold same. by rewrite F1, F2, F3. Qed.

(** A change of one slot. *)
Lemma lookup_upd s i x' k y :
  (i < length (inodes s))%nat -> <[i := x']> (inodes s) !! k = Some y ->
  (k = i /\ y = x') \/ (k <> i /\ inodes s !! k = Some y).
Proof.
  intros Hi Hk. apply list_lookup_insert_Some in Hk as [(-> & <- & _)|[Hne Hk]]; [by left|right]. by split.
Qed.

(** ** iget() *)

Lemma iget_scan_spec dv inum l : forall i e,
  match iget_scan dv inum l i e with
  | inl k => exists n x, k = (i + n)%nat /\ l !! n = Some x /\ 0 < i_ref x /\ i_dev x = dv /\ i_num x = inum
  | inr r =>
      (forall n x, l !! n = Some x -> 0 < i_ref x -> i_dev x = dv -> i_num x = inum -> False) /\
      match r with
      | Some k => e = Some k \/ e = None /\ exists n x, k = (i + n)%nat /\ l !! n = Some x /\ i_ref x = 0
      | None => e = None /\ forall n x, l !! n = Some x -> i_ref x <> 0
      end
  end.
Proof.
  induction l as [|x l IH]; intros i e; cbn [iget_scan].
  - split; [done|]. destruct e; [by left|done].
  - destruct ((0 <? i_ref x) && (i_dev x =? dv) && (i_num x =? inum)) eqn:E.
    + apply andb_prop in E as [[E1 E2]%andb_prop E3]. exists 0%nat, x. split_and!; [lia|done|lia|lia|lia].
    + assert (Hx : 0 < i_ref x -> i_dev x = dv -> i_num x = inum -> False).
      { intros H1' H2' H3'. rewrite (proj2 (Z.ltb_lt _ _) H1'), (proj2 (Z.eqb_eq _ _) H2'), (proj2 (Z.eqb_eq _ _) H3') in E. done. }
      set (e' := match e with Some _ => _ | None => _ end). specialize (IH (1 + i)%nat e').
      destruct (iget_scan dv inum l (1 + i) e') as [k|r].
      * destruct IH as (n & y & -> & Hn & Hy). exists (1 + n)%nat, y. split; [lia|done].
      * destruct IH as [Hno Hr]. split; [intros [|n] y Hy; [by injection Hy as <-|by apply (Hno n)]|].
        destruct r as [k|].
        -- destruct Hr as [He|(He & n & y & -> & Hy & Hy0)].
           ++ destruct e as [m|]; cbn in e'; [by left|]. subst e'. destruct (Z.eqb_spec (i_ref x) 0); [|done].
              injection He as <-. right. split; [done|]. exists 0%nat, x. split_and!; [lia|done|done].
           ++ right. destruct e as [m|]; [done|]. split; [done|]. exists (1 + n)%nat, y. split; [lia|done].
        -- destruct Hr as [He Hr]. destruct e as [m|]; [done|]. split; [done|]. subst e'.
           destruct (Z.eqb_spec (i_ref x) 0); [done|]. intros [|m] y Hy; [by injection Hy as <-|by apply (Hr m)].
Qed.

(** A free slot, by counting. *)
Lemma free_slot_exists s v R lk :
  icached s v R lk -> (size R < length (inodes s))%nat -> exists i x, inodes s !! i = Some x /\ i_ref x = 0.
Proof.
  intros IC Hsz. destruct (decide (Exists (fun x => i_ref x = 0) (inodes s))) as [He|Hno].
  { apply Exists_exists in He as (x & (i & Hi)%list_elem_of_lookup & Hx). eauto. }
  exfalso. assert (Hlive : forall i x, inodes s !! i = Some x -> 0 < i_ref x).
  { intros i x Hi. destruct (ic_slot _ _ _ _ IC i x Hi) as [Hge _]. enough (i_ref x <> 0) by lia. intros E. apply Hno.
    apply Exists_exists. exists x. split; [by eapply list_elem_of_lookup_2|done]. }
  assert (Hnd : NoDup (i_num <$> inodes s)).
  { apply NoDup_fmap_2_strong; [|apply NoDup_alt].
    - intros x y (i & Hi)%list_elem_of_lookup (k & Hk)%list_elem_of_lookup E.
      assert (i = k) by (eapply (ic_uniq _ _ _ _ IC); eauto). congruence.
    - intros i k x Hi Hk. eapply (ic_uniq _ _ _ _ IC i k x x); eauto. }
  assert (Hsub : list_to_set (i_num <$> inodes s) ⊆ dom R).
  { intros j Hj. apply elem_of_list_to_set, list_elem_of_fmap in Hj as (x & -> & (i & Hi)%list_elem_of_lookup).
    destruct (ic_live _ _ _ _ IC i x Hi (Hlive i x Hi)) as (_ & Hr & _). specialize (Hlive i x Hi).
    apply elem_of_dom. exists (i_ref x). apply refs_lookup; [apply IC|]. by rewrite Hr. }
  apply subseteq_size in Hsub. rewrite size_list_to_set, length_fmap, size_dom in Hsub by done. lia.
Qed.

(** One slot changes from [x] to [x']. *)
Record changes s v R (lk : option nat) (i : nat) x R' (lk' : option nat) x' : Prop := {
  ch_ref : 0 <= i_ref x';
  ch_lock : if decide (lk' = Some i) then sl_held (mypid s) (i_lock x') else sl_free (i_lock x');
  ch_lk : forall k, k <> i -> lk' = Some k <-> lk = Some k;
  ch_live : 0 < i_ref x' -> i_dev x' = ROOTDEV /\ refs R' (i_num x') = i_ref x' /\
    (i_valid x' = true -> copied x' = copied (dnode (sb s) v (i_num x')));
  ch_refs : forall k y, k <> i -> inodes s !! k = Some y -> 0 < i_ref y -> refs R' (i_num y) = refs R (i_num y);
  ch_dom : forall j, 0 < refs R' j -> (0 < i_ref x' /\ i_num x' = j) \/ (0 < refs R j /\ ~ (0 < i_ref x /\ i_num x = j));
  ch_uniq : 0 < i_ref x' -> forall k y, k <> i -> inodes s !! k = Some y -> 0 < i_ref y -> i_num y <> i_num x';
  ch_valid : lk' = Some i -> 0 < i_ref x' /\ i_valid x' = true;
  ch_pos : positive R';
}.

Lemma icached_change s v R lk i x R' lk' x' s' :
  icached s v R lk -> inodes s !! i = Some x -> changes s v R lk i x R' lk' x' ->
  ic_lock s' = false -> inodes s' = <[i := x']> (inodes s) -> sb s' = sb s -> mypid s' = mypid s -> viewed (blk s') v ->
  icached s' v R' lk'.
Proof.
  intros IC Hi [C1 C2 C3 C4 C5 C6 C7 C8 C9] E1 E2 E3 E4 E5. pose proof (lookup_lt_Some _ _ _ Hi) as Hlt.
  split; try done; rewrite ?E2, ?E3, ?E4.
  - intros k y [[-> ->]|[Hne Hk]]%(lookup_upd s i x' k y Hlt); [by split|].
    destruct (ic_slot _ _ _ _ IC k y Hk) as [Hge Hl]. split; [done|]. specialize (C3 k Hne).
    destruct (decide (lk' = Some k)), (decide (lk = Some k)); tauto.
  - intros k y [[-> ->]|[Hne Hk]]%(lookup_upd s i x' k y Hlt) Hr; [by apply C4|].
    rewrite (C5 k y Hne Hk Hr). by apply (ic_live _ _ _ _ IC k).
  - intros j Hj. destruct (C6 j Hj) as [[Hr Hn]|[Hr Hn]]; [exists i, x'; by rewrite list_lookup_insert_eq|].
    destruct (ic_dom _ _ _ _ IC j Hr) as (k & y & Hk & Hy & Hyn).
    destruct (decide (k = i)) as [->|Hne]; [naive_solver|]. exists k, y. by rewrite list_lookup_insert_ne.
  - intros k k' y y' [[-> ->]|[Hne Hk]]%(lookup_upd s i x' k y Hlt) [[-> ->]|[Hne' Hk']]%(lookup_upd s i x' k' y' Hlt) Hr Hr' En.
    + done.
    + by destruct (C7 Hr k' y' Hne' Hk' Hr').
    + by destruct (C7 Hr' k y Hne Hk Hr).
    + by eapply (ic_uniq _ _ _ _ IC).
  - intros k Hk. destruct (decide (k = i)) as [->|Hne]; [exists x'; rewrite list_lookup_insert_eq by done; naive_solver|].
    apply C3 in Hk; [|done]. destruct (ic_valid _ _ _ _ IC k Hk) as (y & Hy & ?). exists y. by rewrite list_lookup_insert_ne.
Qed.

Lemma wp_on_ilock {A} s i x (m : M sleeplock A) (Q : A -> fsys S -> Prop) :
  inodes s !! i = Some x ->
  wp m (fun a l => Q a (set_inodes (<[i := set_i_lock l x]> (inodes s)) s)) (i_lock x) ->
  wp (on_ilock i m) Q s.
Proof.
  intros Hi Hm. unfold on_ilock. apply wp_bind. eapply wp_get_inode; [done|]. apply wp_bind, wp_on_value.
  eapply wp_mono; [exact Hm|]. intros a l HQ. apply wp_bind. by eapply wp_upd_inode.
Qed.

Lemma wp_iget s v R lk j (Q : nat -> fsys S -> Prop) :
  icached s v R lk -> 0 < refs R j \/ (size R < length (inodes s))%nat ->
  (forall i s', icached s' v (incr j R) lk -> slot_of s' i j -> same s s' ->
     (forall k y, inodes s !! k = Some y -> 0 < i_ref y ->
        exists r, 0 < r /\ inodes s' !! k = Some (set_i_ref r y)) -> Q i s') ->
  wp (iget ROOTDEV j) Q s.
Proof.
  intros IC Hroom HQ. pose proof (ic_pos _ _ _ _ IC) as HR. unfold iget. apply wp_bind, wp_acquire; [apply IC|].
  apply wp_bind, wp_gets. cbn [inodes set_ic_lock]. pose proof (iget_scan_spec ROOTDEV j (inodes s) 0 None) as Hscan.
  destruct (iget_scan ROOTDEV j (inodes s) 0 None) as [i|[i|]].
  - destruct Hscan as (n & x & -> & Hi & Hr & Hd & Hn). cbn in Hi |- *. pose proof (lookup_lt_Some _ _ _ Hi).
    destruct (ic_live _ _ _ _ IC n x Hi Hr) as (_ & Hrefs & Hval).
    apply wp_bind. eapply wp_upd_inode; [done|]. apply wp_bind, wp_release; [done|]. apply wp_ret. apply HQ.
    + eapply (icached_change s v R lk n x _ lk (set_i_ref (i_ref x + 1) x)); try done; [|apply IC]. split; cbn; try done.
      * lia.
      * apply (ic_slot _ _ _ _ IC n x Hi).
      * intros _. rewrite refs_incr, decide_True by done. split_and!; [done|lia|done].
      * intros k y Hne Hk Hy. rewrite refs_incr, decide_False; [lia|]. intros E.
        apply Hne. eapply (ic_uniq _ _ _ _ IC); eauto. congruence.
      * intros j'. rewrite refs_incr. case_decide as E; [left; split; [lia|congruence]|]. intros. right. split; [lia|]. naive_solver.
      * intros _ k y Hne Hk Hy E. apply Hne. by eapply (ic_uniq _ _ _ _ IC).
      * intros ->. destruct (ic_valid _ _ _ _ IC n eq_refl) as (y & Hy & _ & Hv). split; [lia|congruence].
      * by apply positive_incr.
    + exists (set_i_ref (i_ref x + 1) x). cbn. rewrite list_lookup_insert_eq by done. split_and!; [done|done|lia].
    + unfold same. cbn. by rewrite length_insert.
    + intros k y Hk Hy. cbn. destruct (decide (k = n)) as [->|Hne].
      * assert (y = x) as -> by congruence. exists (i_ref x + 1). rewrite list_lookup_insert_eq by done. split; [lia|done].
      * exists (i_ref y). rewrite list_lookup_insert_ne by done. split; [done|]. by destruct y.
  - destruct Hscan as [Hno [?|(_ & n & x & -> & Hi & Hr)]]; [done|]. cbn in Hi |- *. pose proof (lookup_lt_Some _ _ _ Hi).
    assert (Hj : refs R j = 0).
    { pose proof (refs_nonneg R j HR). enough (~ 0 < refs R j) by lia. intros Hj.
      destruct (ic_dom _ _ _ _ IC j Hj) as (k & y & Hk & Hy & Hyn). destruct (ic_live _ _ _ _ IC k y Hk Hy) as (Hd & _). by apply (Hno k y). }
    assert (Hslot := ic_slot _ _ _ _ IC n x Hi).
    apply wp_bind. eapply wp_upd_inode; [done|]. apply wp_bind, wp_release; [done|]. apply wp_ret. apply HQ.
    + eapply (icached_change s v R lk n x _ lk (set_i_id ROOTDEV j 1 x)); try done; [|apply IC]. split; cbn; try done.
      * apply Hslot.
      * intros _. rewrite refs_incr, decide_True by done. split_and!; [done|lia|done].
      * intros k y Hne Hk Hy. rewrite refs_incr, decide_False; [lia|]. intros E.
        destruct (ic_live _ _ _ _ IC k y Hk Hy) as (_ & Hry & _). rewrite E in Hry. lia.
      * intros j'. rewrite refs_incr. destruct (decide (j' = j)) as [E|E]; [intros _; left; split; [lia|congruence]|]. intros. right. split; [lia|lia].
      * intros _ k y Hne Hk Hy E. destruct (ic_live _ _ _ _ IC k y Hk Hy) as (_ & Hry & _). rewrite E in Hry. lia.
      * intros ->. destruct (ic_valid _ _ _ _ IC n eq_refl) as (y & Hy & Hy0 & _). assert (y = x) as -> by congruence. lia.
      * by apply positive_incr.
    + exists (set_i_id ROOTDEV j 1 x). cbn. by rewrite list_lookup_insert_eq.
    + unfold same. cbn. by rewrite length_insert.
    + intros k y Hk Hy. cbn. exists (i_ref y). rewrite list_lookup_insert_ne; [by destruct y|]. intros <-. assert (y = x) as -> by congruence. lia.
  - exfalso. destruct Hscan as [Hno [_ Hall]]. destruct Hroom as [Hj|Hsz].
    + destruct (ic_dom _ _ _ _ IC j Hj) as (k & y & Hk & Hy & Hyn).
      destruct (ic_live _ _ _ _ IC k y Hk Hy) as (Hd & _). by apply (Hno k y).
    + destruct (free_slot_exists s v R lk IC Hsz) as (k & y & Hk & Hy). by apply (Hall k y).
Qed.

(** ** ilock(), iunlock(), idup() and iput() *)

(** A change of the lock and of the copy of the disk inode. *)
Lemma relocked s v R lk i x lk' x' :
  icached s v R lk -> inodes s !! i = Some x -> 0 < i_ref x ->
  i_ref x' = i_ref x -> i_num x' = i_num x -> i_dev x' = i_dev x ->
  (i_valid x' = true -> copied x' = copied (dnode (sb s) v (i_num x))) ->
  (if decide (lk' = Some i) then sl_held (mypid s) (i_lock x') /\ i_valid x' = true else sl_free (i_lock x')) ->
  (forall k, k <> i -> lk' = Some k <-> lk = Some k) ->
  changes s v R lk i x R lk' x'.
Proof.
  intros IC Hi Hr Er En Ed Hval Hlock Hk. destruct (ic_live _ _ _ _ IC i x Hi Hr) as (Hd & Hrefs & _).
  split; rewrite ?Er, ?En, ?Ed; try done.
  - lia.
  - case_decide; [apply Hlock|done].
  - intros j Hj. destruct (decide (i_num x = j)); [by left|right]. naive_solver.
  - intros _ k y Hne Hy Hy0 E. apply Hne. by eapply (ic_uniq _ _ _ _ IC).
  - intros ->. rewrite decide_True in Hlock by done. split; [done|apply Hlock].
  - apply IC.
Qed.

(** Slots keep their inodes while there are references. *)
Definition kept s R s' : Prop := forall k j, slot_of s k j -> 0 < refs R j -> slot_of s' k j.

Lemma kept_change s R i x x' s' :
  inodes s !! i = Some x -> inodes s' = <[i := x']> (inodes s) -> i_num x' = i_num x ->
  (0 < refs R (i_num x) -> 0 < i_ref x') -> kept s R s'.
Proof.
  intros Hi E En Hr k j (y & Hk & <- & Hy) Hj. unfold slot_of. rewrite E. destruct (decide (k = i)) as [->|Hne].
  - assert (y = x) as -> by congruence. exists x'. rewrite list_lookup_insert_eq by (by eapply lookup_lt_Some). auto.
  - exists y. by rewrite list_lookup_insert_ne.
Qed.

Lemma kept_refl s R : kept s R s.
Proof. by intros k j. Qed.

Lemma kept_trans s1 s2 s3 R : kept s1 R s2 -> kept s2 R s3 -> kept s1 R s3.
Proof. intros K1 K2 k j Hk Hj. apply K2; [by apply K1|done]. Qed.

Lemma kept_incr s R j s' : kept s (incr j R) s' -> kept s R s'.
Proof. intros K k j' Hk Hj. apply K; [done|]. rewrite refs_incr. case_decide; lia. Qed.

Lemma wp_ilock s v R i j (Q : unit -> fsys S -> Prop) :
  icached s v R None -> slot_of s i j -> layout (sb s) v -> held v = ∅ /\ touched v = ∅ -> spare 0 v ->
  0 <= j < sb_ninodes (sb s) -> i_type (dnode (sb s) v j) <> 0 ->
  (forall s', icached s' v R (Some i) -> slot_of s' i j -> same s s' -> kept s R s' -> Q tt s') ->
  wp (ilock i) Q s.
Proof.
  intros IC (x & Hi & Hn & Hr) Hl [Hh Ht] Hsp Hj Hty HQ. pose proof (lookup_lt_Some _ _ _ Hi) as Hlt.
  destruct (ic_live _ _ _ _ IC i x Hi Hr) as (Hd & Hrefs & Hval). destruct (ic_slot _ _ _ _ IC i x Hi) as [_ Hfree].
  rewrite decide_False in Hfree by done. unfold ilock. apply wp_bind. eapply wp_get_inode; [done|].
  apply wp_bind, wp_panic_if; [lia|]. apply wp_bind, wp_gets. apply wp_bind. eapply wp_on_ilock; [done|].
  apply wp_acquiresleep; [done|]. set (l := mksleeplock true false (mypid s)). set (x1 := set_i_lock l x).
  apply wp_bind. eapply wp_get_inode; [cbn; by apply list_lookup_insert_eq|].
  assert (Hend : forall x' bk s', i_lock x' = l -> i_ref x' = i_ref x -> i_num x' = j -> i_dev x' = ROOTDEV -> i_valid x' = true ->
     copied x' = copied (dnode (sb s) v j) -> viewed bk v ->
     s' = mkfsys (ic_lock s) (<[i := x']> (inodes s)) (sb s) (mypid s) bk -> Q tt s').
  { intros x' bk s' L1 L2 L3 L4 L5 L6 L7 ->. apply HQ.
    - eapply (icached_change s v R None i x R (Some i) x'); try done; [|apply IC].
      eapply relocked; try done; [congruence|congruence|by rewrite Hn| |naive_solver].
      rewrite decide_True by done. by rewrite L1.
    - exists x'. cbn. rewrite list_lookup_insert_eq by done. split_and!; [done|done|lia].
    - unfold same. cbn. by rewrite length_insert.
    - eapply (kept_change s R i x x'); try done; [congruence|lia]. }
  destruct (i_valid x1) eqn:Ev.
  - apply wp_ret. apply (Hend x1 (blk s)); try done; [rewrite <- Hn; by apply Hval|apply IC].
  - apply wp_bind, wp_gets. cbn [sb set_inodes i_dev i_num x1 set_i_lock]. rewrite Hd, Hn.
    destruct (lo_inode _ _ Hl (IBLOCK j (sb s))) as [Hrng _]; [by exists j|].
    apply wp_bind. eapply wp_read; [apply IC|done|by rewrite Hh|done|]. intros b bk Hbk.
    apply wp_bind. eapply wp_data; [exact Hbk|cbn; by apply lookup_insert_eq|]. cbn [content hold].
    apply wp_bind. eapply wp_upd_inode; [cbn; by apply list_lookup_insert_eq|].
    apply wp_bind. eapply (wp_release_buf _ (hold (IBLOCK j (sb s)) b v) (IBLOCK j (sb s))); [exact Hbk|cbn; by apply lookup_insert_eq| |].
    { cbn. by rewrite Ht. }
    intros bk2 Hbk2. rewrite unhold_hold in Hbk2 by (by rewrite Hh).
    apply wp_bind. eapply wp_upd_inode; [cbn; apply list_lookup_insert_eq; by rewrite length_insert|].
    apply wp_bind. eapply wp_get_inode; [cbn; apply list_lookup_insert_eq; by rewrite !length_insert|].
    apply wp_panic_if; [by apply Z.eqb_neq|].
    apply (Hend (set_i_valid true (get_dinode (dinode_off j) (content v (IBLOCK j (sb s))) x1)) bk2); try done.
    unfold set_inodes, set_blk. cbn. by rewrite !list_insert_insert_eq.
Qed.

Lemma wp_iunlock s v R i j (Q : unit -> fsys S -> Prop) :
  icached s v R (Some i) -> slot_of s i j ->
  (forall s', icached s' v R None -> same s s' -> kept s R s' -> Q tt s') ->
  wp (iunlock i) Q s.
Proof.
  intros IC (x & Hi & Hn & Hr) HQ. pose proof (lookup_lt_Some _ _ _ Hi) as Hlt.
  destruct (ic_live _ _ _ _ IC i x Hi Hr) as (Hd & Hrefs & Hval). destruct (ic_slot _ _ _ _ IC i x Hi) as [_ Hheld].
  rewrite decide_True in Hheld by done. unfold iunlock. apply wp_bind, wp_gets. apply wp_bind.
  eapply wp_on_ilock; [done|]. apply wp_holdingsleep; [done|].
  assert (set_i_lock (i_lock x) x = x) as -> by (by destruct x). rewrite list_insert_id by done.
  assert (set_inodes (inodes s) s = s) as -> by (by destruct s). apply wp_bind. eapply wp_get_inode; [done|].
  apply wp_bind, wp_panic_if; [cbn; lia|]. eapply wp_on_ilock; [done|]. apply wp_releasesleep; [apply Hheld|].
  apply HQ.
  - eapply (icached_change s v R (Some i) i x R None (set_i_lock (mksleeplock false false 0) x)); try done; [|apply IC|apply IC].
    eapply relocked; try done. intros k Hne. naive_solver.
  - unfold same. cbn. by rewrite length_insert.
  - by eapply (kept_change s R i x).
Qed.

(** The reference that iput() drops is not the last one to an unlinked
    inode. *)
Lemma wp_iput s v R i j (Q : unit -> fsys S -> Prop) :
  icached s v R None -> slot_of s i j -> i_nlink (dnode (sb s) v j) <> 0 ->
  (forall s', icached s' v (decr j R) None -> same s s' -> kept s (decr j R) s' -> Q tt s') ->
  wp (iput i) Q s.
Proof.
  intros IC (x & Hi & Hn & Hr) Hnl HQ. pose proof (lookup_lt_Some _ _ _ Hi) as Hlt.
  destruct (ic_live _ _ _ _ IC i x Hi Hr) as (Hd & Hrefs & Hval). destruct (ic_slot _ _ _ _ IC i x Hi) as [_ Hfree].
  pose proof (ic_pos _ _ _ _ IC) as HR. rewrite Hn in Hrefs.
  assert (Hdecr : forall k, refs (decr j R) k = refs R k - (if decide (k = j) then 1 else 0)) by (intros; apply refs_decr; [done|lia]).
  rewrite decide_False in Hfree by done. unfold iput. apply wp_bind, wp_gets. apply wp_bind. eapply wp_on_ilock; [done|].
  apply wp_acquiresleep; [done|]. set (l := mksleeplock true false (mypid s)).
  apply wp_bind. eapply wp_get_inode; [cbn; by apply list_lookup_insert_eq|]. apply wp_bind.
  assert ((i_valid (set_i_lock l x) && (i_nlink (set_i_lock l x) =? 0)) = false) as ->.
  { cbn. destruct (i_valid x); [|done]. specialize (Hval eq_refl). rewrite Hn in Hval. injection Hval as _ _ _ E _ _.
    rewrite E. by apply Z.eqb_neq. }
  apply wp_ret. apply wp_bind. eapply wp_on_ilock; [cbn; by apply list_lookup_insert_eq|]. apply wp_releasesleep; [done|].
  apply wp_bind, wp_acquire; [apply IC|]. apply wp_bind.
  eapply wp_upd_inode; [cbn; apply list_lookup_insert_eq; by rewrite length_insert|]. apply wp_release; [done|].
  cbn. rewrite !list_insert_insert_eq. set (x' := set_i_ref _ _). apply HQ.
  - eapply (icached_change s v R None i x (decr j R) None x'); try done; [|apply IC]. split; cbn; try done.
    + lia.
    + intros _. rewrite Hdecr, Hn, decide_True by done. split_and!; [done|lia|]. intros Hv. rewrite <- Hn. by apply Hval.
    + intros k y Hne Hk Hy. rewrite Hdecr, decide_False; [lia|]. intros E. apply Hne. eapply (ic_uniq _ _ _ _ IC); eauto. congruence.
    + intros k. rewrite Hdecr. destruct (decide (k = j)) as [->|Hne]; intros Hk; [left; split; [lia|done]|right]. split; [lia|]. naive_solver.
    + intros _ k y Hne Hk Hy E. apply Hne. by eapply (ic_uniq _ _ _ _ IC).
    + by apply positive_decr.
  - unfold same. cbn. by rewrite length_insert.
  - eapply (kept_change s _ i x x'); try done. rewrite Hdecr, Hn, decide_True by done. cbn. lia.
Qed.

Lemma wp_iunlockput s v R i j (Q : unit -> fsys S -> Prop) :
  icached s v R (Some i) -> slot_of s i j -> i_nlink (dnode (sb s) v j) <> 0 ->
  (forall s', icached s' v (decr j R) None -> same s s' -> kept s (decr j R) s' -> Q tt s') ->
  wp (iunlockput i) Q s.
Proof.
  intros IC Hs Hnl HQ. unfold iunlockput. apply wp_bind. eapply wp_iunlock; [done|done|].
  intros s1 IC1 S1 K1. assert (Hj : 0 < refs R j).
  { destruct Hs as (x & Hi & <- & Hr). destruct (ic_live _ _ _ _ IC i x Hi Hr) as (_ & -> & _). done. }
  eapply (wp_iput s1 v R i j); [done|by apply K1|by destruct S1 as (-> & _)|]. intros s2 IC2 S2 K2. apply HQ; [done|by etrans|].
  intros k j' Hk Hj'. apply K2; [|done]. apply K1; [done|]. pose proof (ic_pos _ _ _ _ IC) as HR.
  rewrite refs_decr in Hj' by done. case_decide; lia.
Qed.

Lemma wp_idup s v R i j (Q : nat -> fsys S -> Prop) :
  icached s v R None -> slot_of s i j ->
  (forall s', icached s' v (incr j R) None -> slot_of s' i j -> same s s' -> kept s R s' -> Q i s') ->
  wp (idup i) Q s.
Proof.
  intros IC (x & Hi & Hn & Hr) HQ. pose proof (lookup_lt_Some _ _ _ Hi) as Hlt.
  destruct (ic_live _ _ _ _ IC i x Hi Hr) as (Hd & Hrefs & Hval). pose proof (ic_pos _ _ _ _ IC) as HR. rewrite Hn in Hrefs.
  unfold idup. apply wp_bind, wp_acquire; [apply IC|]. apply wp_bind. eapply wp_upd_inode; [done|].
  apply wp_bind, wp_release; [done|]. apply wp_ret. cbn. set (x' := set_i_ref _ _). apply HQ.
  - eapply (icached_change s v R None i x (incr j R) None x'); try done; [|apply IC]. split; cbn; try done.
    + lia.
    + apply (ic_slot _ _ _ _ IC i x Hi).
    + intros _. rewrite refs_incr, Hn, decide_True by done. split_and!; [done|lia|]. intros Hv. rewrite <- Hn. by apply Hval.
    + intros k y Hne Hk Hy. rewrite refs_incr, decide_False; [lia|]. intros E. apply Hne. eapply (ic_uniq _ _ _ _ IC); eauto. congruence.
    + intros k. rewrite refs_incr. destruct (decide (k = j)) as [->|Hne]; intros Hk; [left; split; [lia|done]|right]. split; [lia|]. naive_solver.
    + intros _ k y Hne Hk Hy E. apply Hne. by eapply (ic_uniq _ _ _ _ IC).
    + by apply positive_incr.
  - exists x'. cbn. rewrite list_lookup_insert_eq by done. split_and!; [done|done|lia].
  - unfold same. cbn. by rewrite length_insert.
  - eapply (kept_change s R i x x'); try done. cbn. lia.
Qed.

(** ** namex() *)

Lemma icached_blk s v R lk bk : icached s v R lk -> viewed bk v -> icached (set_blk bk s) v R lk.
Proof. intros [] Hbk. by split. Qed.

Lemma slot_refs s v R lk i j : icached s v R lk -> slot_of s i j -> 0 < refs R j.
Proof. intros IC (x & Hi & <- & Hr). destruct (ic_live _ _ _ _ IC i x Hi Hr) as (_ & -> & _). done. Qed.

(** A locked inode is a copy of the one on the disk. *)
Lemma locked_copy s v R i j :
  icached s v R (Some i) -> slot_of s i j ->
  exists x, inodes s !! i = Some x /\ i_num x = j /\ i_dev x = ROOTDEV /\ copied x = copied (dnode (sb s) v j).
Proof.
  intros IC (x & Hi & Hn & Hr). destruct (ic_valid _ _ _ _ IC i eq_refl) as (y & Hy & _ & Hv).
  assert (y = x) as -> by congruence. destruct (ic_live _ _ _ _ IC i x Hi Hr) as (Hd & _ & Hval).
  exists x. split_and!; [done|done|done|]. rewrite <- Hn. by apply Hval.
Qed.

Lemma dir_ready s v R i j G x :
  icached s v R (Some i) -> tree (sb s) v G -> G j -> i_type (dnode (sb s) v j) = T_DIR ->
  inodes s !! i = Some x -> i_num x = j -> i_dev x = ROOTDEV -> copied x = copied (dnode (sb s) v j) ->
  file_ready s v i x /\ directory x.
Proof.
  intros IC Ht HG Hty Hi Hn Hd Hc. destruct (tr_node _ _ _ Ht j HG) as (Hj & _).
  destruct (tr_dir _ _ _ Ht j HG Hty) as (Hat & Hnh & [Hrt Hrs] & [Hdt Hds]). pose proof Hc as Hc'.
  injection Hc' as E1 E2 E3 E4 E5 E6. split; split; try done.
  - apply IC.
  - by apply (fs_at_copied _ _ (dnode (sb s) v j)).
  - by apply (no_holes_copied _ (dnode (sb s) v j)).
  - split; [by rewrite E1|by rewrite E5].
  - rewrite Hn. lia.
  - destruct (tr_quiet _ _ _ Ht) as [-> _]. done.
  - by rewrite E1.
  - by rewrite E5.
Qed.

Section namex.
Context (dev_read : Z -> option (nat -> Z -> M (fsys S) (Z * list Z))).
Context (v : view) (G : Z -> Prop).

(** What namex() returns and leaves. *)
Definition resolved s R (parent : bool) (j : Z) (names : list (list Z)) (r : option nat * list Z) s' : Prop :=
  same s s' /\ kept s R s' /\
  match resolve (sb s) v parent j names with
  | Some j' => exists i, r.1 = Some i /\ slot_of s' i j' /\ G j' /\ icached s' v (incr j' R) None /\
                 (parent = true -> last names = Some (name_of r.2))
  | None => r.1 = None /\ icached s' v R None
  end.

Lemma resolved_trans s s1 R parent j nm j1 names r s' :
  same s s1 -> kept s R s1 -> resolved s1 R parent j1 names r s' -> i_type (dnode (sb s) v j) = T_DIR ->
  parent && bool_decide (names = []) = false ->
  (exists k, find_entry nm (entries (dnode (sb s) v j) v) = Some (k, j1)) ->
  resolved s R parent j (nm :: names) r s'.
Proof.
  intros S1 K1 (S2 & K2 & Hr) Hty Hp [k Hk]. split; [by etrans|]. split; [by eapply kept_trans|]. cbn [resolve]. rewrite Hty, Hp, Hk. cbn [Z.eqb].
  change (T_DIR =? T_DIR) with true. cbn iota. destruct S1 as (E & _). rewrite E in Hr.
  destruct (resolve (sb s) v parent j1 names) as [j'|]; [|done].
  destruct Hr as (i & R1 & R2 & R3 & R4 & R5). exists i. split_and!; try done. intros ->. destruct names; [done|]. by apply R5.
Qed.

Lemma wp_namex_loop parent fuel : forall path name s ip j R,
  Forall (fun c => c <> 0) path -> length name = 14%nat -> (length path < fuel)%nat ->
  icached s v (incr j R) None -> positive R -> slot_of s ip j -> G j -> tree (sb s) v G -> spare 0 v ->
  (size R + 2 <= length (inodes s))%nat ->
  wp (namex_loop dev_read fuel ip parent path name) (resolved s R parent j (elems path)) s.
Proof.
  induction fuel as [|fuel IH]; intros path name s ip j R Hnz Hlen Hfuel IC HR Hs HG Ht Hsp Hroom; [lia|].
  destruct (tr_node _ _ _ Ht j HG) as (Hj & Hty & Hnl). cbn [namex_loop].
  pose proof (skipelem_spec path name Hnz Hlen) as Hse. destruct (skipelem path name) as [[rest nm]|].
  2: { rewrite Hse. destruct parent.
    - apply wp_bind. eapply wp_iput; [exact IC|done|done|]. rewrite decr_incr by done. intros s' IC' S' K'. apply wp_ret. by split_and!.
    - apply wp_ret. split; [done|]. split; [apply kept_refl|]. exists ip. by split_and!. }
  destruct Hse as (He & Hlt & Hnm & Hnz' & Hnil). rewrite He. apply wp_bind.
  eapply wp_ilock; [exact IC|done|apply Ht|apply Ht|done|lia|done|]. intros s1 IC1 Hs1 S1 K1%kept_incr.
  pose proof S1 as (Esb & Epid & Elen). rewrite <- Esb in Ht, Hty, Hnl.
  destruct (locked_copy _ _ _ _ _ IC1 Hs1) as (x & Hx & Hxn & Hxd & Hxc). apply wp_bind. eapply wp_get_inode; [exact Hx|].
  assert (Ety : i_type x = i_type (dnode (sb s1) v j)) by (injection Hxc; done). rewrite Ety.
  destruct (Z.eqb_spec (i_type (dnode (sb s1) v j)) T_DIR) as [Hdir|Hdir]; cbn [negb].
  2: { apply wp_bind. eapply wp_iunlockput; [exact IC1|done|done|]. rewrite decr_incr by done. intros s2 IC2 S2 K2. apply wp_ret.
       split; [by etrans|]. split; [by eapply kept_trans|]. cbn [resolve]. rewrite <- Esb. by rewrite (proj2 (Z.eqb_neq _ _) Hdir). }
  destruct (parent && bool_decide (rest = [])) eqn:Hp.
  { apply andb_prop in Hp as [-> Hrest]. apply bool_decide_eq_true, Hnil in Hrest. apply wp_bind.
    eapply wp_iunlock; [exact IC1|done|]. intros s2 IC2 S2 K2. apply wp_ret. split; [by etrans|].
    split; [by eapply kept_trans, kept_incr|]. cbn [resolve].
    rewrite <- Esb, Hdir, Hrest. cbn. exists ip. split_and!; try done. apply K2; [done|]. exact (slot_refs _ _ _ _ _ _ IC1 Hs1). }
  destruct (dir_ready _ _ _ _ _ _ _ IC1 Ht HG Hdir Hx Hxn Hxd Hxc) as [Hready Hdd].
  apply wp_bind, (wp_dirlookup dev_read s1 v ip x nm); [done|done|done|]. intros bk Hbk.
  rewrite (entries_copied v _ _ Hxc). set (s2 := set_blk bk s1). pose proof (icached_blk _ _ _ _ _ IC1 Hbk) as IC2. fold s2 in IC2.
  destruct (find_entry (name_of nm) (entries (dnode (sb s1) v j) v)) as [[k j1]|] eqn:Hfind.
  - assert (HG1 : G j1).
    { apply find_entry_Some in Hfind as [Hk1 Hk0]. by apply (tr_entries _ _ _ Ht j (j1, name_of nm)); [..|by eapply list_elem_of_lookup_2|]. }
    eapply (wp_iget s2 v (incr j R)); [exact IC2| |].
    { right. pose proof (size_incr R j). unfold s2. cbn. lia. }
    intros next s3 IC3 Hs3 S3 K3. apply wp_bind.
    assert (Hip3 : slot_of s3 ip j).
    { destruct (K3 ip x Hx) as (r & Hr & Hi). { destruct Hs1 as (y & Hy & _ & Hy0). by replace x with y by congruence. }
      exists (set_i_ref r x). by split_and!. }
    pose proof S3 as (Esb3 & _ & Elen3). cbn in Esb3, Elen3.
    eapply wp_iunlockput; [exact IC3|exact Hip3|by rewrite Esb3|]. rewrite decr_incr_incr by done. intros s4 IC4 S4 K4.
    pose proof S4 as (Esb4 & _ & Elen4).
    assert (Hn4 : slot_of s4 next j1).
    { apply K4; [done|]. rewrite refs_incr, decide_True by done. pose proof (refs_nonneg R j1 HR). lia. }
    eapply wp_mono; [apply (IH rest nm s4 next j1 R); try done; [lia|by rewrite Esb4, Esb3|rewrite Elen4, Elen3, Elen; done]|].
    intros r s' Hres. apply (resolved_trans s s4 R parent j (name_of nm) j1); [| |exact Hres| | |].
    + etrans; [exact S1|]. etrans; [exact S3|exact S4].
    + eapply kept_trans; [exact K1|]. eapply kept_trans; [|eapply kept_incr, K4]. intros i j' (y & Hy & Hyn & Hy0) _.
      destruct (K3 i y Hy Hy0) as (r' & Hr' & Hi'). exists (set_i_ref r' y). by split_and!.
    + by rewrite <- Esb.
    + destruct parent; [|done]. rewrite bool_decide_false; [done|]. cbn in Hp. apply bool_decide_eq_false in Hp. tauto.
    + exists k. by rewrite <- Esb.
  - apply wp_bind. eapply wp_iunlockput; [exact IC2|exact Hs1|done|]. rewrite decr_incr by done. intros s3 IC3 S3 K3. apply wp_ret.
    split; [etrans; [exact S1|exact S3]|]. split; [by eapply kept_trans; [exact K1|]|]. cbn [resolve]. rewrite <- Esb, Hdir, Hfind. change (T_DIR =? T_DIR) with true. cbn iota.
    destruct parent; [|by split]. cbn in Hp |- *. rewrite bool_decide_false; [by split|]. apply bool_decide_eq_false in Hp. tauto.
Qed.

Lemma wp_namex cwd path parent name s R jc :
  icached s v R None -> tree (sb s) v G -> G ROOTINO -> slot_of s cwd jc -> G jc -> spare 0 v ->
  (size R + 2 <= length (inodes s))%nat -> Forall (fun c => c <> 0) path -> length name = 14%nat ->
  wp (namex dev_read cwd path parent name)
    (resolved s R parent (if bool_decide (head path = Some SLASH) then ROOTINO else jc) (elems path)) s.
Proof.
  intros IC Ht Hroot Hc HGc Hsp Hroom Hnz Hlen. pose proof (ic_pos _ _ _ _ IC) as HR. unfold namex. apply wp_bind.
  assert (Hgo : forall ip j s1, G j -> icached s1 v (incr j R) None -> slot_of s1 ip j -> same s s1 -> kept s R s1 ->
    wp (namex_loop dev_read (Datatypes.S (length path)) ip parent path name) (resolved s R parent j (elems path)) s1).
  { intros ip j s1 HG IC1 Hs1 S1 K1. pose proof S1 as (Esb & _ & Elen). eapply wp_mono.
    - apply (wp_namex_loop parent _ path name s1 ip j R); try done; [lia|by rewrite Esb|by rewrite Elen].
    - intros r s' (S2 & K2 & Hr). split; [by etrans|]. split; [by eapply kept_trans|]. by rewrite <- Esb. }
  case_bool_decide as Hh.
  - eapply wp_iget; [exact IC|right; lia|]. intros i s1 IC1 Hs1 S1 K1. apply Hgo; try done.
    intros k j' (y & Hy & Hyn & Hy0) _. destruct (K1 k y Hy Hy0) as (r' & Hr' & Hi'). exists (set_i_ref r' y). by split_and!.
  - eapply wp_idup; [exact IC|exact Hc|]. intros s1 IC1 Hs1 S1 K1. by apply Hgo.
Qed.

(** C15: namex() follows the path: the inode it returns is the one that the
    directories on the disk lead to from the root or the current directory,
    with one more reference, and in the mode for the parent the last name is
    in the buffer; it returns a null pointer exactly when a name is missing or
    its directory is not one, and then every reference it took is dropped. *)
Theorem namex_correct cwd path parent name s R jc :
  icached s v R None -> tree (sb s) v G -> G ROOTINO -> slot_of s cwd jc -> G jc -> spare 0 v ->
  (size R + 2 <= length (inodes s))%nat -> Forall (fun c => c <> 0) path -> length name = 14%nat ->
  wp (namex dev_read cwd path parent name)
    (resolved s R parent (if bool_decide (head path = Some SLASH) then ROOTINO else jc) (elems path)) s.
Proof. apply wp_namex. Qed.

End namex.
End cache.
