(* ===== verification/FsPathExample.v ===== *)
(** The theorems on directories and path names at the file system of
    FsExample.v: /d/f is inode 2. *)

From S2P Require Import Prelude Params Bytes CString Buf Memide Bio Log LogSpec Tx Fs FsBlocks FsFile FsDir FsPath FsExample.
#[local] Existing Instances Memide.memide_dev Memide.memide_laws.

(** The blocks of the two directories. *)
Definition dir_block (es : list Z) : list Z := es ++ replicate (512 - length es) 0.
Definition root_entries : list Z := mkdirent 1 [46] ++ mkdirent 1 [46; 46] ++ mkdirent 3 [100].
Definition d_entries : list Z := mkdirent 3 [46] ++ mkdirent 1 [46; 46] ++ mkdirent 2 [102].

Lemma root_content : content v0 35 = dir_block root_entries.
Proof. rewrite content0 by (unfold in_log; lia). vm_compute. reflexivity. Qed.

Lemma d_content : content v0 36 = dir_block d_entries.
Proof. rewrite content0 by (unfold in_log; lia). vm_compute. reflexivity. Qed.

(** The entries of a directory of one block. *)
Lemma one_block_entries x b es :
  i_addrs x = b :: replicate 12 0 -> b <> 0 -> i_size x = 48 -> content v0 b = dir_block es -> (length es <= 512)%nat ->
  entries x v0 = (fun k => entry_of (slice (16 * k) 16 (dir_block es))) <$> seq 0 3.
Proof.
  intros Ha Hb Hs Hc Hes. unfold entries. rewrite Hs. apply list_fmap_ext. intros i k [-> Hk]%lookup_seq.
  change (Z.to_nat (48 / 16)) with 3%nat in Hk. unfold entry_at. f_equal.
  assert (Hat : forall o, 0 <= o < 512 -> file_byte x v0 o = byte_at (dir_block es) (Z.to_nat o)).
  { intros o Ho. unfold file_byte, file_block, addr_of. unfold BSIZE. rewrite Z.div_small, Z.mod_small, Ha by done.
    change (0 <? NDIRECT) with true. cbn iota. change (default 0 ((b :: replicate 12 0) !! Z.to_nat 0)) with b.
    rewrite (proj2 (Z.eqb_neq _ _) Hb). by rewrite Hc. }
  apply list_eq. intros j. unfold file_bytes. rewrite list_lookup_fmap, lookup_slice.
  destruct (decide (j < 16)%nat) as [Hj|Hj]; [|by rewrite lookup_seq_ge by lia].
  rewrite lookup_seq_lt by done. cbn [fmap option_fmap option_map]. rewrite Hat by lia. unfold byte_at.
  replace (Z.to_nat (16 * Z.of_nat (0 + i) + Z.of_nat (0 + j))) with (16 * (0 + i) + j)%nat by lia.
  assert (Hl : length (dir_block es) = 512%nat) by (unfold dir_block; rewrite length_app, length_replicate; lia).
  by destruct (lookup_lt_is_Some_2 (dir_block es) (16 * (0 + i) + j)) as [z ->]; [lia|].
Qed.

(** The inodes on the disk. *)
Definition inode_of (j : Z) : inode := if j =? 1 then root0 else if j =? 2 then y0 else dir0.

Definition G0 (j : Z) : Prop := j = 1 \/ j = 2 \/ j = 3.

Lemma dnode0 j : G0 j -> copied (dnode sb0 v0 j) = copied (inode_of j).
Proof.
  intros Hj. unfold dnode. rewrite inode0 by (destruct Hj as [->|[->| ->]]; lia). rewrite content0 by (unfold in_log; lia).
  destruct Hj as [->|[->| ->]]; vm_compute; reflexivity.
Qed.

#[local] Opaque dnode.

Definition names_of (j : Z) : list (Z * list Z) :=
  if j =? 1 then [(1, [46]); (1, [46; 46]); (3, [100])] else [(3, [46]); (1, [46; 46]); (2, [102])].

Lemma entries0 j : j = 1 \/ j = 3 -> entries (dnode sb0 v0 j) v0 = names_of j.
Proof.
  intros Hj. rewrite (entries_copied _ _ (inode_of j)) by (apply dnode0; unfold G0; lia).
  destruct Hj as [->| ->].
  - change (inode_of 1) with root0. rewrite (one_block_entries root0 35 root_entries); [vm_compute; reflexivity|done|done|done|apply root_content|by apply Nat.leb_le].
  - change (inode_of 3) with dir0. rewrite (one_block_entries dir0 36 d_entries); [vm_compute; reflexivity|done|done|done|apply d_content|by apply Nat.leb_le].
Qed.

Lemma dnode_dir j : G0 j -> i_type (dnode sb0 v0 j) = T_DIR -> j = 1 \/ j = 3.
Proof.
  intros Hj Ht. assert (E : i_type (dnode sb0 v0 j) = i_type (inode_of j)) by (by apply copied_fields, dnode0).
  destruct Hj as [->|[->| ->]]; [by left|by rewrite E in Ht|by right].
Qed.

Lemma tree0 : tree sb0 v0 G0.
Proof.
  split; [apply layout0|done| | |].
  - intros j Hj. destruct (copied_fields _ _ (dnode0 j Hj)) as (E1 & E4 & _). rewrite E1, E4.
    destruct Hj as [->|[->| ->]]; split_and!; done.
  - intros j Hj Ht. destruct (copied_fields _ _ (dnode0 j Hj)) as (_ & _ & E5 & E6). apply (dnode_dir j Hj) in Ht as Hj'.
    assert (Hb : exists b, i_addrs (dnode sb0 v0 j) = b :: replicate 12 0 /\ 34 <= b < 37 /\ i_size (dnode sb0 v0 j) = 48).
    { rewrite E5, E6. destruct Hj' as [->| ->]; [exists 35|exists 36]; (split; [reflexivity|split; [lia|reflexivity]]). }
    destruct Hb as (b & Ha & Hb & Hs). split_and!.
    + by apply (one_at _ b).
    + apply (one_holes _ b); [done|lia|lia].
    + split; [by rewrite Ht|]. rewrite Hs, MAXFILE_val. unfold BSIZE. lia.
    + split; [done|]. rewrite Hs. by exists 3.
  - intros j e Hj Ht He Hne. apply (dnode_dir j Hj) in Ht as Hj'. rewrite (entries0 j Hj') in He.
    clear Ht Hj. unfold G0. destruct Hj' as [->| ->]; cbn in He;
      (repeat (apply elem_of_cons in He as [->|He]; [cbn; lia|])); by apply elem_of_nil in He.
Qed.

(** The root directory is the current directory; four slots. *)
Definition cwd0 : inode := set_i_lock initsleeplock root0.
Definition no_inode : inode := mkinode 0 0 0 initsleeplock false 0 0 0 0 0 [].
Definition s1 : fsys (logsys Memide.memide) := mkfsys false [cwd0; no_inode; no_inode; no_inode] sb0 1 tx0.
Definition R0 : gmap Z Z := {[1 := 1]}.

Lemma s1_slot i x : inodes s1 !! i = Some x -> (i = 0%nat /\ x = cwd0) \/ x = no_inode.
Proof. intros Hi. do 4 (destruct i as [|i]; [injection Hi as <-; auto|]). done. Qed.

Lemma s1_cached : icached s1 v0 R0 None.
Proof.
  split; [done|apply tx0_view| | | | | |done].
  - by apply map_Forall_singleton.
  - intros i x [[-> ->]| ->]%s1_slot; done.
  - intros i x [[-> ->]| ->]%s1_slot Hr; [|done]. split_and!; [done|done|]. intros _. symmetry. apply (dnode0 1). by left.
  - intros j Hj. exists 0%nat, cwd0. split_and!; [done|done|]. unfold refs, R0 in Hj.
    destruct (decide (j = 1)) as [->|Hne]; [done|]. by rewrite lookup_singleton_ne in Hj by done.
  - intros i i' x x' [[-> ->]| ->]%s1_slot [[-> ->]| ->]%s1_slot Hr Hr'; done.
Qed.

(** "/d//f" *)
Definition path0 : list Z := [47; 100; 47; 47; 102].

Lemma dnode_type j : G0 j -> i_type (dnode sb0 v0 j) = i_type (inode_of j).
Proof. intros Hj. apply (copied_fields _ _ (dnode0 j Hj)). Qed.

Lemma resolve_step j nm k j' names :
  i_type (dnode sb0 v0 j) = T_DIR -> find_entry nm (entries (dnode sb0 v0 j) v0) = Some (k, j') ->
  resolve sb0 v0 false j (nm :: names) = resolve sb0 v0 false j' names.
Proof. intros Ht Hf. cbn [resolve andb]. by rewrite Ht, Hf. Qed.

Lemma resolve0 : resolve sb0 v0 false 1 [[100]; [102]] = Some 2.
Proof.
  rewrite (resolve_step 1 [100] 2 3); [rewrite (resolve_step 3 [102] 2 2); [done| |]| |].
  - apply (dnode_type 3). right. by right.
  - by rewrite (entries0 3) by (by right).
  - apply (dnode_type 1). by left.
  - by rewrite (entries0 1) by (by left).
Qed.

Lemma namex_correct_witness :
  resolve sb0 v0 false 1 (elems path0) = Some 2 /\
  wp (namex no_read 0 path0 false (replicate 14 0)) (resolved v0 G0 s1 R0 false 1 (elems path0)) s1.
Proof.
  split; [exact resolve0|].
  apply (namex_correct no_read v0 G0 0 path0 false (replicate 14 0) s1 R0 1 s1_cached tree0); [by left| |by left|apply spare_k; lia| | |done].
  - exists cwd0. by split_and!.
  - unfold R0. rewrite map_size_singleton. cbn. lia.
  - unfold path0. repeat constructor; lia.
Defined.

