(* ===== verification/Mkfs.v ===== *)
(** mkfs.c: the program that makes the disk image on the host.

    The state is the image, by sectors, with the counters of mkfs.c.  The
    host is little-endian, and its open(), lseek(), read() and write() do not
    fail (mkfs ends when one does, and when it reads past the end of the
    image).  A struct dinode is the part of [inode] that Fs.v copies to and
    from the disk.  The messages are left out. *)

From S2P Require Import Prelude Params Bytes CString Buf Log Tx Fs.

Definition NINODES : Z := 200.
Definition nbitmap : Z := FSSIZE / (BSIZE * 8) + 1.
Definition ninodeblocks : Z := NINODES / IPB + 1.
Definition nlog : Z := LOGSIZE.
Definition nmeta : Z := 2 + nlog + ninodeblocks + nbitmap.
Definition nblocks : Z := FSSIZE - nmeta.

(** The bytes of y are stored one by one. *)
Definition xshort (x : Z) : Z := of_le [u8 x; u8 (Z.shiftr x 8)].
Definition xint (x : Z) : Z := of_le [u8 x; u8 (Z.shiftr x 8); u8 (Z.shiftr x 16); u8 (Z.shiftr x 24)].

Record mkst := mkmk {
  img : gmap Z (list Z);
  msb : superblock;
  freeinode : Z;
  freeblock : Z;
}.

Definition set_img v (s : mkst) := mkmk v (msb s) (freeinode s) (freeblock s).
Definition set_msb v (s : mkst) := mkmk (img s) v (freeinode s) (freeblock s).
Definition set_freeinode v (s : mkst) := mkmk (img s) (msb s) v (freeblock s).
Definition set_freeblock v (s : mkst) := mkmk (img s) (msb s) (freeinode s) v.

Definition zeroes : list Z := replicate (Z.to_nat BSIZE) 0.

Definition wsect (sec : Z) (buf : list Z) : M mkst unit := modify (fun s => set_img (<[sec := buf]> (img s)) s).
Definition rsect (sec : Z) : M mkst (list Z) := fun s => from_some (img s !! sec) s.

(** An inode number with an empty struct dinode. *)
Definition no_dinode (inum : Z) : inode := mkinode ROOTDEV inum 0 initsleeplock false 0 0 0 0 0 (replicate 13 0).

Definition winode (inum : Z) (ip : inode) : M mkst unit :=
  let* b := gets msb in
  let bn := IBLOCK inum b in
  let* buf := rsect bn in
  wsect bn (put_dinode (dinode_off inum) ip buf).

Definition rinode (inum : Z) : M mkst inode :=
  let* b := gets msb in
  let* buf := rsect (IBLOCK inum b) in
  ret (get_dinode (dinode_off inum) buf (no_dinode inum)).

Definition ialloc (type : Z) : M mkst Z :=
  let* inum := gets freeinode in
  modify (set_freeinode (u32 (inum + 1))) ;;;
  winode inum (set_i_size (xint 0) (set_i_nlink (xshort 1) (set_i_type (xshort type) (no_dinode inum)))) ;;;
  ret inum.

Fixpoint mark (used : nat) (buf : list Z) : list Z :=
  match used with
  | O => buf
  | S k => bit_set (mark k buf) k
  end.

Definition balloc (used : Z) : M mkst unit :=
  panic_if (negb (used <? BSIZE * 8)) "assert" ;;;
  let* b := gets msb in
  wsect (sb_bmapstart b) (mark (Z.to_nat used) zeroes).

(** freeblock++ *)
Definition take_block : M mkst Z :=
  let* b := gets freeblock in
  modify (set_freeblock (u32 (b + 1))) ;;;
  ret b.

(** din.addrs[i], allocated if it is 0 *)
Definition din_block (din : inode) (i : Z) : M mkst inode :=
  let* a := from_some (i_addrs din !! Z.to_nat i) in
  if xint a =? 0 then
    let* b := take_block in
    ret (set_i_addrs (<[Z.to_nat i := xint b]> (i_addrs din)) din)
  else ret din.

(** The sector of block [fbn] of the file. *)
Definition iappend_block (din : inode) (fbn : Z) : M mkst (inode * Z) :=
  if fbn <? NDIRECT then
    let* din := din_block din fbn in
    let* a := from_some (i_addrs din !! Z.to_nat fbn) in
    ret (din, xint a)
  else
    let* din := din_block din NDIRECT in
    let* a := from_some (i_addrs din !! Z.to_nat NDIRECT) in
    let* indirect := rsect (xint a) in
    let o := Z.to_nat (4 * (fbn - NDIRECT)) in
    if get_u32 o indirect =? 0 then
      let* b := take_block in
      let indirect := put_u32 o (xint b) indirect in
      wsect (xint a) indirect ;;;
      ret (din, xint (get_u32 o indirect))
    else ret (din, xint (get_u32 o indirect)).

Fixpoint iappend_loop (fuel : nat) (din : inode) (off : Z) (p : list Z) : M mkst (inode * Z) :=
  match p with
  | [] => ret (din, off)
  | _ =>
      match fuel with
      | O => nofuel
      | S fuel =>
          let fbn := off / BSIZE in
          panic_if (negb (fbn <? MAXFILE)) "assert" ;;;
          let* r := iappend_block din fbn in
          let '(din, x) := r in
          let n1 := Z.min (Z.of_nat (length p)) ((fbn + 1) * BSIZE - off) in
          let* buf := rsect x in
          wsect x (splice (Z.to_nat (off - fbn * BSIZE)) (take (Z.to_nat n1) p) buf) ;;;
          iappend_loop fuel din (u32 (off + n1)) (drop (Z.to_nat n1) p)
      end
  end.

Definition iappend (inum : Z) (p : list Z) : M mkst unit :=
  let* din := rinode inum in
  let* r := iappend_loop (length p) din (xint (i_size din)) p in
  let '(din, off) := r in
  winode inum (set_i_size (xint off) din).

(** One argument: its name, and what the calls of read() return. *)
Definition add_file (rootino : Z) (f : list Z * list (list Z)) : M mkst unit :=
  let '(name, chunks) := f in
  panic_if (existsb (Z.eqb SLASH) name) "assert" ;;;
  let name := match name with 95 :: name => name | _ => name end in
  let* inum := ialloc T_FILE in
  iappend rootino (mkdirent (xshort inum) name) ;;;
  for_each chunks (iappend inum).

(** The size of the root directory becomes a multiple of the block size. *)
Definition fix_root (rootino : Z) : M mkst unit :=
  let* din := rinode rootino in
  let off := xint (i_size din) in
  let off := u32 ((off / BSIZE + 1) * BSIZE) in
  winode rootino (set_i_size (xint off) din).

Definition make_sb : superblock :=
  mksb (xint FSSIZE) (xint nblocks) (xint NINODES) (xint nlog) (xint 2) (xint (2 + nlog)) (xint (2 + nlog + ninodeblocks)).

Definition encode_sb (b : superblock) : list Z :=
  concat (le_of 4 <$> [sb_size b; sb_nblocks b; sb_ninodes b; sb_nlog b; sb_logstart b; sb_inodestart b; sb_bmapstart b]).

Definition main (files : list (list Z * list (list Z))) : M mkst unit :=
  modify (set_msb make_sb) ;;;
  modify (set_freeblock nmeta) ;;;
  for_each (seq 0 (Z.to_nat FSSIZE)) (fun i => wsect (Z.of_nat i) zeroes) ;;;
  wsect 1 (splice 0 (encode_sb make_sb) zeroes) ;;;
  let* rootino := ialloc T_DIR in
  panic_if (negb (rootino =? ROOTINO)) "assert" ;;;
  iappend rootino (mkdirent (xshort rootino) [46]) ;;;
  iappend rootino (mkdirent (xshort rootino) [46; 46]) ;;;
  for_each files (add_file rootino) ;;;
  fix_root rootino ;;;
  let* used := gets freeblock in
  balloc used.

(** The globals when the program starts. *)
Definition start : mkst := mkmk ∅ (mksb 0 0 0 0 0 0 0) 1 0.
