(* ===== verification/MkfsSpec.v ===== *)
(** mkfs.c: the files of the image, as the kernel's file system reads them.

    Every operation keeps a list of files, the type and the bytes of each;
    iappend() appends to one of them. *)

From stdpp Require Import functions.
From S2P Require Import Prelude Params Bytes CString Buf Log Tx Fs FsBlocks FsFile FsDir FsPath Mkfs.

(** ** Integers and inodes on the disk *)

Lemma xshort_id x : 0 <= x < 2 ^ 16 -> xshort x = x.
Proof. intros Hx. unfold xshort, u8. cbn [of_le]. rewrite Z.shiftr_div_pow2 by done. Z.div_mod_to_equations. lia. Qed.

Lemma xint_id x : is_u32 x -> xint x = x.
Proof.
  intros Hx. transitivity (of_le (le_of 4 x)); [|rewrite of_le_le_of; by apply Z.mod_small].
  unfold xint, u8. cbn [of_le le_of]. rewrite !Z.shiftr_div_pow2, !Z.div_div by done. done.
Qed.

(** A dinode with fields in their ranges. *)
Record dinode_ok (x : inode) : Prop := {
  di_short : 0 <= i_type x < 2 ^ 15 /\ 0 <= i_major x < 2 ^ 15 /\ 0 <= i_minor x < 2 ^ 15 /\ 0 <= i_nlink x < 2 ^ 15;
  di_size : is_u32 (i_size x);
  di_len : length (i_addrs x) = 13%nat;
  di_addrs : Forall (fun a => 0 <= a < 2 ^ 32) (i_addrs x);
}.

Lemma s16_mod_small x : 0 <= x < 2 ^ 15 -> s16 (x mod 256 ^ Z.of_nat 2) = x.
Proof. intros Hx. rewrite Z.mod_small by (cbn; lia). unfold s16. Z.div_mod_to_equations. repeat case_match; lia. Qed.

Ltac peel d := unfold d; rewrite get_put_le_other by lia.

(** Reading a dinode back. *)
Lemma get_put_dinode o x y d :
  dinode_ok x -> (o + 64 <= length d)%nat -> copied (get_dinode o (put_dinode o x d) y) = copied x.
Proof.
  intros [(R1&R2&R3&R4) R5 R6 R7] Ho. rewrite copied_get. unfold put_dinode, d_type, d_major, d_minor, d_nlink, d_size, d_addrs.
  set (d1 := put_u16 o (i_type x) d). assert (L1 : length d1 = length d) by (apply length_put_le; lia).
  set (d2 := put_u16 (o + 2) (i_major x) d1). assert (L2 : length d2 = length d) by (unfold d2; rewrite length_put_le; lia).
  set (d3 := put_u16 (o + 4) (i_minor x) d2). assert (L3 : length d3 = length d) by (unfold d3; rewrite length_put_le; lia).
  set (d4 := put_u16 (o + 6) (i_nlink x) d3). assert (L4 : length d4 = length d) by (unfold d4; rewrite length_put_le; lia).
  set (d5 := put_u32 (o + 8) (i_size x) d4). assert (L5 : length d5 = length d) by (unfold d5; rewrite length_put_le; lia).
  assert (Hw : forall n off, (off + n <= o + 12)%nat -> get_le n off (put_u32s (o + 12) (i_addrs x) d5) = get_le n off d5).
  { intros n off Hoff. unfold get_le, put_u32s. f_equal. apply slice_splice_other; rewrite length_words; lia. }
  rewrite !Hw by lia. rewrite <- R6. rewrite get_u32s_put by (done || lia). unfold copied.
  assert (E5 : get_u32 (o + 8) d5 = i_size x) by (unfold d5; rewrite get_put_le by lia; by apply Z.mod_small).
  assert (E4 : s16 (get_u16 (o + 6) d5) = i_nlink x).
  { peel d5. unfold d4. rewrite get_put_le by lia. by apply s16_mod_small. }
  assert (E3 : s16 (get_u16 (o + 4) d5) = i_minor x).
  { peel d5. peel d4. unfold d3. rewrite get_put_le by lia. by apply s16_mod_small. }
  assert (E2 : s16 (get_u16 (o + 2) d5) = i_major x).
  { peel d5. peel d4. peel d3. unfold d2. rewrite get_put_le by lia. by apply s16_mod_small. }
  assert (E1 : s16 (get_u16 o d5) = i_type x).
  { peel d5. peel d4. peel d3. peel d2. unfold d1. rewrite get_put_le by lia. by apply s16_mod_small. }
  by rewrite E1, E2, E3, E4, E5.
Qed.

(** The bytes outside the dinode stay. *)
Lemma put_dinode_other o x d i n :
  length (i_addrs x) = 13%nat -> (o + 64 <= length d)%nat -> (i + n <= o \/ o + 64 <= i)%nat ->
  slice i n (put_dinode o x d) = slice i n d.
Proof.
  intros Hl Ho Hi. unfold put_dinode, put_u32s.
  assert (P : forall m off z d', (o <= off)%nat -> (off + m <= o + 64)%nat -> length d' = length d ->
    length (put_le m off z d') = length d /\ slice i n (put_le m off z d') = slice i n d').
  { intros m off z d' Hm1 Hm2 Hd. split; [rewrite length_put_le by lia; done|]. apply slice_splice_other; rewrite length_le_of; lia. }
  destruct (P 2%nat o (i_type x) d) as [L1 E1]; [lia..|]. destruct (P 2%nat (o + 2)%nat (i_major x) _ ltac:(lia) ltac:(lia) L1) as [L2 E2].
  destruct (P 2%nat (o + 4)%nat (i_minor x) _ ltac:(lia) ltac:(lia) L2) as [L3 E3]. destruct (P 2%nat (o + 6)%nat (i_nlink x) _ ltac:(lia) ltac:(lia) L3) as [L4 E4].
  destruct (P 4%nat (o + 8)%nat (i_size x) _ ltac:(lia) ltac:(lia) L4) as [L5 E5].
  rewrite slice_splice_other by (rewrite length_words; lia). by rewrite E5, E4, E3, E2, E1.
Qed.

Lemma get_put_dinode_other o o' x y d :
  length (i_addrs x) = 13%nat -> (o + 64 <= length d)%nat -> (o' + 64 <= o \/ o + 64 <= o')%nat ->
  get_dinode o' (put_dinode o x d) y = get_dinode o' d y.
Proof.
  intros Hl Ho Hd. assert (G : forall m off, (o' <= off)%nat -> (off + m <= o' + 64)%nat -> get_le m off (put_dinode o x d) = get_le m off d).
  { intros m off Hm1 Hm2. unfold get_le. f_equal. apply put_dinode_other; [done|done|lia]. }
  unfold get_dinode, d_type, d_major, d_minor, d_nlink, d_size, d_addrs. rewrite !G by lia. f_equal.
  unfold get_u32s. apply list_fmap_ext. intros k a [-> Ha]%lookup_seq. apply G; lia.
Qed.

(** ** One file *)

(** The content of the image as a view of the kernel. *)
Definition V (c : Z -> list Z) : view := mkview (fun _ => True) 0 c c ∅ ∅ ∅ 0.

Definition nb (len : Z) : Z := (len + BSIZE - 1) / BSIZE.

(** The blocks that a file takes, the indirect one included. *)
Definition cost (len : Z) : Z := nb len + (if NDIRECT <? nb len then 1 else 0).

(** The inode has [na] blocks, from the first on, below [fb], and its bytes
    are [data], and zeros from there on. *)
Record holds (x : inode) (c : Z -> list Z) (data : list Z) (na fb : Z) : Prop := {
  ho_len : length (i_addrs x) = 13%nat;
  ho_na : 0 <= na <= MAXFILE /\ Z.of_nat (length data) <= na * BSIZE;
  ho_data : bytes_ok data;
  ho_slot k : 0 <= k < MAXFILE -> (addr_of x (V c) k <> 0 <-> k < na);
  ho_ind : ind_of x <> 0 <-> NDIRECT < na;
  ho_range k : -1 <= k < MAXFILE -> slot x (V c) k <> 0 -> nmeta <= slot x (V c) k < fb;
  ho_inj k k' : -1 <= k < MAXFILE -> -1 <= k' < MAXFILE -> slot x (V c) k <> 0 -> slot x (V c) k = slot x (V c) k' -> k = k';
  ho_byte o : 0 <= o < MAXFILE * BSIZE -> file_byte x (V c) o = byte_at data (Z.to_nat o);
}.

Lemma holds_owns x c data na fb n : holds x c data na fb -> owns x (V c) n -> nmeta <= n < fb.
Proof. intros Hh (Hn & k & Hk & ->). by apply (ho_range _ _ _ _ _ Hh). Qed.

Lemma owns_ind x v : ind_of x <> 0 -> owns x v (ind_of x).
Proof. intros Hi. apply (owns_slot x v (-1)); [rewrite MAXFILE_val; lia|done]. Qed.

Lemma slot_frame x c c' k : (forall n, owns x (V c) n -> c' n = c n) -> slot x (V c') k = slot x (V c) k.
Proof.
  intros Hc. unfold slot, addr_of. destruct (k =? -1); [done|]. destruct (k <? NDIRECT); [done|].
  destruct (Z.eqb_spec (ind_of x) 0) as [|Hi]; [done|]. cbn [content V]. rewrite Hc; [done|]. by apply owns_ind.
Qed.

Lemma block_div o : 0 <= o < MAXFILE * BSIZE -> 0 <= o / BSIZE < MAXFILE.
Proof. intros Ho. split; [apply Z.div_pos; [lia|done]|apply Z.div_lt_upper_bound; [done|lia]]. Qed.

(** A file does not see changes of other blocks. *)
Lemma holds_frame x c c' data na fb fb' :
  holds x c data na fb -> fb <= fb' -> (forall n, owns x (V c) n -> c' n = c n) -> holds x c' data na fb'.
Proof.
  intros Hh Hfb Hc. assert (Es : forall k, slot x (V c') k = slot x (V c) k) by (intros; by apply slot_frame).
  assert (Ea : forall k, 0 <= k -> addr_of x (V c') k = addr_of x (V c) k) by (intros k Hk; rewrite <- !slot_nonneg; auto).
  destruct Hh as [H1 H2 H3 H4 H5 H6 H7 H8]. split; try done.
  - intros k Hk. rewrite Ea by lia. by apply H4.
  - intros k Hk. rewrite Es. intros Hn. specialize (H6 k Hk Hn). lia.
  - intros k k'. rewrite !Es. apply H7.
  - intros o Ho. rewrite <- H8 by done. pose proof (block_div o Ho). unfold file_byte, file_block. rewrite Ea by lia.
    destruct (Z.eqb_spec (addr_of x (V c) (o / BSIZE)) 0) as [|Hn]; [done|]. cbn [content V]. rewrite Hc; [done|].
    rewrite <- slot_nonneg in * by lia. apply owns_slot; [lia|done].
Qed.

Lemma owns_frame x c c' n : (forall m, owns x (V c) m -> c' m = c m) -> owns x (V c') n <-> owns x (V c) n.
Proof.
  intros Hc. assert (Es : forall k, slot x (V c') k = slot x (V c) k) by (intros; by apply slot_frame).
  unfold owns. split; intros (Hn & k & Hk & E); (split; [done|]); exists k; by rewrite Es in *.
Qed.

(** One more block, [b]. *)
Lemma holds_grow x c data na fb x' c' b fb' :
  holds x c data na fb -> nmeta <= fb -> 0 <= na < MAXFILE -> length (i_addrs x') = 13%nat -> fb <= b < fb' ->
  (forall k, 0 <= k < MAXFILE -> addr_of x' (V c') k = if decide (k = na) then b else addr_of x (V c) k) ->
  ind_of x' = (if decide (na = NDIRECT) then fb else ind_of x) -> (na = NDIRECT -> b <> fb) ->
  c' b = zeroes -> (forall k, 0 <= k < na -> c' (addr_of x (V c) k) = c (addr_of x (V c) k)) ->
  holds x' c' data (na + 1) fb' /\ forall n, owns x' (V c') n -> owns x (V c) n \/ fb <= n.
Proof.
  intros Hh Hm Hna Hl Hb Hk Hi Hbi Hz Hc. assert (nmeta = 59) as Em by done. pose proof (ho_slot _ _ _ _ _ Hh) as Hs.
  pose proof (ho_na _ _ _ _ _ Hh) as [_ Hlen]. assert (NDIRECT = 12) as Ed by done. pose proof MAXFILE_val as EM. assert (BSIZE = 512) as Eb by done.
  assert (Hsl : forall k, -1 <= k < MAXFILE -> slot x' (V c') k =
    if decide (k = na) then b else if decide (k = -1 /\ na = NDIRECT) then fb else slot x (V c) k).
  { intros k Hkr. unfold slot. destruct (Z.eqb_spec k (-1)) as [->|Hn1].
    - rewrite decide_False by lia. rewrite Hi. destruct (decide (na = NDIRECT)); [by rewrite decide_True|by rewrite decide_False by tauto].
    - rewrite Hk by lia. destruct (decide (k = na)); [done|]. by rewrite decide_False by tauto. }
  pose proof (ho_range _ _ _ _ _ Hh) as Hr. pose proof (ho_inj _ _ _ _ _ Hh) as Hj.
  assert (Hz1 : na = NDIRECT -> ind_of x = 0).
  { intros E. destruct (decide (ind_of x = 0)) as [|Hn]; [done|]. apply (ho_ind _ _ _ _ _ Hh) in Hn. lia. }
  split.
  2: { intros n (Hn & k & Hkr & ->). rewrite Hsl in * by done. destruct (decide (k = na)); [right; lia|].
    destruct (decide (k = -1 /\ na = NDIRECT)); [right; lia|]. left. by apply owns_slot. }
  split; [done|lia|apply Hh|..].
  - intros k Hkr. rewrite Hk by done. destruct (decide (k = na)); [lia|]. rewrite Hs by done. lia.
  - rewrite Hi. pose proof (ho_ind _ _ _ _ _ Hh). destruct (decide (na = NDIRECT)); lia.
  - intros k Hkr. rewrite Hsl by done. destruct (decide (k = na)); [lia|]. destruct (decide (k = -1 /\ na = NDIRECT)); [lia|].
    intros Hn. specialize (Hr k Hkr Hn). lia.
  - intros k k' Hkr Hkr'. rewrite !Hsl by done. pose proof (Hr k Hkr). pose proof (Hr k' Hkr'). pose proof (Hj k k' Hkr Hkr'). clear Hk Hsl Hi.
    repeat case_decide; intros Hn E; try lia; try tauto.
  - intros o Ho. rewrite <- (ho_byte _ _ _ _ _ Hh) by done. pose proof (block_div o Ho) as Hd. unfold file_byte, file_block. rewrite Hk by done.
    destruct (decide (o / BSIZE = na)) as [Ek|Ek].
    + assert (addr_of x (V c) (o / BSIZE) = 0) as ->.
      { destruct (decide (addr_of x (V c) (o / BSIZE) = 0)) as [|Hn]; [done|]. apply Hs in Hn; lia. }
      change (0 =? 0) with true. rewrite (proj2 (Z.eqb_neq b 0)) by lia. cbn [content V]. by rewrite Hz.
    + destruct (Z.eqb_spec (addr_of x (V c) (o / BSIZE)) 0) as [|Hn]; [done|]. cbn [content V]. rewrite Hc; [done|]. apply Hs in Hn; lia.
Qed.

(** ** The image *)

Definition C (s : mkst) (n : Z) : list Z := default [] (img s !! n).

(** Every sector is there, and those from freeblock on are empty. *)
Record good (s : mkst) : Prop := {
  gd_sect n : 0 <= n < FSSIZE -> img s !! n = Some (C s n) /\ length (C s n) = Z.to_nat BSIZE /\ bytes_ok (C s n);
  gd_fresh n : freeblock s <= n < FSSIZE -> C s n = zeroes;
  gd_fb : nmeta <= freeblock s <= FSSIZE;
}.

Definition put (n : Z) (d : list Z) (s : mkst) : mkst := set_img (<[n := d]> (img s)) s.

Lemma C_put n d s m : C (put n d s) m = if decide (m = n) then d else C s m.
Proof. unfold C, put. cbn. case_decide as E; [subst; by rewrite lookup_insert_eq|by rewrite lookup_insert_ne by congruence]. Qed.

Lemma wp_rsect n (Q : list Z -> mkst -> Prop) s : good s -> 0 <= n < FSSIZE -> Q (C s n) s -> wp (rsect n) Q s.
Proof. intros Hg Hn HQ. unfold wp, rsect. destruct (gd_sect _ Hg n Hn) as [-> _]. done. Qed.

Lemma wp_wsect n d (Q : unit -> mkst -> Prop) s : Q tt (put n d s) -> wp (wsect n d) Q s.
Proof. done. Qed.

Lemma good_put s n d : good s -> n < freeblock s -> length d = Z.to_nat BSIZE -> bytes_ok d -> good (put n d s).
Proof.
  intros [G1 G2 G3] Hn Hl Hb. split; [|intros m Hm|done].
  - intros m Hm. rewrite C_put. unfold put. cbn. destruct (decide (m = n)) as [->|Hne]; [by rewrite lookup_insert_eq|].
    rewrite lookup_insert_ne by congruence. by apply G1.
  - rewrite C_put, decide_False by (cbn in Hm; lia). by apply G2.
Qed.

Lemma good_take s k : good s -> 0 <= k -> freeblock s + k <= FSSIZE -> good (set_freeblock (freeblock s + k) s).
Proof.
  intros [G1 G2 G3] Hk Hfb. split; [done|intros n Hn; apply G2; cbn in Hn; lia|cbn; lia].
Qed.

Lemma wp_take_freeblock (Q : Z -> mkst -> Prop) s :
  good s -> freeblock s < FSSIZE -> Q (freeblock s) (set_freeblock (freeblock s + 1) s) -> wp take_block Q s.
Proof.
  intros Hg Hf HQ. unfold take_block. pose proof (gd_fb _ Hg). apply wp_bind, wp_gets. assert (nmeta = 59) by done. rewrite u32_small; [|unfold is_u32, W32, FSSIZE in *; lia].
  by apply wp_bind, wp_modify, wp_ret.
Qed.

(** What appending to one inode does to the image. *)
Record grown (x : inode) (s : mkst) (x' : inode) (s' : mkst) : Prop := {
  gr_good : good s';
  gr_inode : x' = set_i_addrs (i_addrs x') x;
  gr_rest : msb s' = msb s /\ freeinode s' = freeinode s /\ freeblock s <= freeblock s';
  gr_same n : n < freeblock s -> ~ owns x (V (C s)) n -> C s' n = C s n;
  gr_owns n : owns x' (V (C s')) n -> owns x (V (C s)) n \/ freeblock s <= n;
}.

Lemma appended_refl x s : good s -> grown x s x s.
Proof. intros Hg. split; [done|by destruct x|split_and!; lia || done|done|by left]. Qed.

Lemma appended_trans x s x1 s1 x2 s2 : grown x s x1 s1 -> grown x1 s1 x2 s2 -> grown x s x2 s2.
Proof.
  intros [A1 A2 (A3&A4&A5) A6 A7] [B1 B2 (B3&B4&B5) B6 B7]. split; [done| | | |].
  - rewrite B2 at 1. rewrite A2. by destruct x.
  - split_and!; congruence || lia.
  - intros n Hn Ho. rewrite B6; [by apply A6|lia|]. intros [?|?]%A7; [done|lia].
  - intros n [[?|?]%A7|?]%B7; [by left|right; lia..].
Qed.

Definition grows (na fbn : Z) : Z := if fbn <? na then 0 else if fbn =? NDIRECT then 2 else 1.

Lemma addr_direct x v k : 0 <= k < NDIRECT -> addr_of x v k = default 0 (i_addrs x !! Z.to_nat k).
Proof. intros Hk. unfold addr_of. by rewrite (proj2 (Z.ltb_lt _ _)) by lia. Qed.

Lemma addr_indirect x v k : NDIRECT <= k -> ind_of x <> 0 -> addr_of x v k = get_u32 (Z.to_nat (4 * (k - NDIRECT))) (content v (ind_of x)).
Proof. intros Hk Hi. unfold addr_of. rewrite (proj2 (Z.ltb_ge _ _)) by lia. by rewrite (proj2 (Z.eqb_neq _ _)). Qed.

Lemma with_addr_lookup x i b j :
  length (i_addrs x) = 13%nat -> 0 <= i <= NDIRECT -> 0 <= j ->
  default 0 (i_addrs (with_addr x i b) !! Z.to_nat j) = if decide (j = i) then b else default 0 (i_addrs x !! Z.to_nat j).
Proof.
  intros Hl Hi Hj. unfold NDIRECT in Hi. cbn. destruct (decide (j = i)) as [->|Hn].
  - by rewrite list_lookup_insert_eq by lia.
  - by rewrite list_lookup_insert_ne by lia.
Qed.

Section grow.
Context (x : inode) (s : mkst) (data : list Z) (na : Z).
Context (Hg : good s) (Hh : holds x (C s) data na (freeblock s)).
#[local] Notation fb := (freeblock s).

(** A direct block. *)
Lemma grow_direct :
  0 <= na < NDIRECT -> fb + 1 <= FSSIZE ->
  let x' := with_addr x na fb in let s' := set_freeblock (fb + 1) s in
  grown x s x' s' /\ holds x' (C s') data (na + 1) (fb + 1) /\ addr_of x' (V (C s')) na = fb.
Proof.
  intros Hna Hf x' s'. pose proof (ho_len _ _ _ _ _ Hh) as Hl. pose proof (gd_fb _ Hg) as Hfb. assert (NDIRECT = 12) as Ed by done. pose proof MAXFILE_val as EM.
  assert (Hi : ind_of x' = ind_of x).
  { unfold ind_of, x'. rewrite with_addr_lookup by (done || lia). by rewrite decide_False by lia. }
  assert (Hk : forall k, 0 <= k < MAXFILE -> addr_of x' (V (C s')) k = if decide (k = na) then fb else addr_of x (V (C s)) k).
  { intros k Hk. destruct (decide (k < NDIRECT)) as [Hlt|Hge].
    - rewrite !addr_direct by lia. unfold x'. rewrite with_addr_lookup by (done || lia). done.
    - rewrite decide_False by lia. unfold addr_of. rewrite !(proj2 (Z.ltb_ge k _)) by lia. by rewrite Hi. }
  destruct (holds_grow x (C s) data na fb x' (C s') fb (fb + 1)) as [H1 H2]; try done || lia.
  - cbn. by rewrite length_insert.
  - rewrite decide_False by lia. done.
  - by apply (gd_fresh _ Hg); lia.
  - split_and!; [|done|by rewrite Hk, decide_True by lia]. split; [by apply good_take; [|lia|]|done|cbn; split_and!; [done..|lia]|done|done].
Qed.

(** A block with its pointer in the indirect block, which is there. *)
Lemma grow_indirect :
  NDIRECT < na < MAXFILE -> fb + 1 <= FSSIZE ->
  let d := put_u32 (Z.to_nat (4 * (na - NDIRECT))) fb (C s (ind_of x)) in
  let s' := put (ind_of x) d (set_freeblock (fb + 1) s) in
  grown x s x s' /\ holds x (C s') data (na + 1) (fb + 1) /\ addr_of x (V (C s')) na = fb.
Proof.
  intros Hna Hf d s'. pose proof (gd_fb _ Hg) as Hfb. assert (NDIRECT = 12) as Ed by done. pose proof MAXFILE_val as EM. assert (nmeta = 59) as Em by done.
  assert (Hi : ind_of x <> 0) by (apply (ho_ind _ _ _ _ _ Hh); lia).
  pose proof (ho_range _ _ _ _ _ Hh (-1) ltac:(lia) Hi) as Hir. rewrite ind_slot in Hir.
  destruct (gd_sect _ Hg (ind_of x)) as (_&Hdl&Hdb); [lia|]. change (Z.to_nat BSIZE) with 512%nat in Hdl.
  assert (Hcs : forall n, C s' n = if decide (n = ind_of x) then d else C s n) by (intros n; exact (C_put (ind_of x) d (set_freeblock (fb + 1) s) n)).
  assert (Hk : forall k, 0 <= k < MAXFILE -> addr_of x (V (C s')) k = if decide (k = na) then fb else addr_of x (V (C s)) k).
  { intros k Hk. destruct (decide (k < NDIRECT)) as [Hlt|Hge].
    - rewrite !addr_direct by lia. by rewrite decide_False by lia.
    - rewrite !addr_indirect by (done || lia). cbn [content V]. rewrite Hcs, decide_True by done. unfold d. destruct (decide (k = na)) as [->|Hn].
      + rewrite get_put_le by lia. apply Z.mod_small. unfold FSSIZE in *. cbn. lia.
      + rewrite get_put_le_other by lia. done. }
  destruct (holds_grow x (C s) data na fb x (C s') fb (fb + 1)) as [H1 H2]; try done || lia.
  - apply Hh.
  - by rewrite decide_False by lia.
  - rewrite Hcs, decide_False by lia. by apply (gd_fresh _ Hg); lia.
  - intros k Hkr. rewrite Hcs, decide_False; [done|]. intros E. assert (k = -1); [|lia].
    apply (ho_inj _ _ _ _ _ Hh); [lia|lia| |by rewrite slot_nonneg by lia]. rewrite slot_nonneg by lia. by rewrite E.
  - split_and!; [|done|by rewrite Hk, decide_True by lia]. split; [|by destruct x|cbn; split_and!; [done..|lia]| |done].
    + apply good_put; [by apply good_take; [|lia|]|cbn; lia| |by apply put_le_bytes_ok]. unfold d. rewrite length_put_le; [done|lia].
    + intros n Hn Ho. rewrite Hcs, decide_False; [done|]. intros ->. by apply Ho, owns_ind.
Qed.

(** The first such block, and the indirect block. *)
Lemma grow_first :
  na = NDIRECT -> fb + 2 <= FSSIZE ->
  let x' := with_addr x NDIRECT fb in
  let s' := put fb (put_u32 0 (fb + 1) zeroes) (set_freeblock (fb + 2) s) in
  grown x s x' s' /\ holds x' (C s') data (na + 1) (fb + 2) /\ addr_of x' (V (C s')) na = fb + 1.
Proof.
  intros Hna Hf x' s'. pose proof (ho_len _ _ _ _ _ Hh) as Hl. pose proof (gd_fb _ Hg) as Hfb. assert (NDIRECT = 12) as Ed by done.
  pose proof MAXFILE_val as EM. assert (nmeta = 59) as Em by done.
  assert (Hcs : forall n, C s' n = if decide (n = fb) then put_u32 0 (fb + 1) zeroes else C s n)
    by (intros n; exact (C_put fb _ (set_freeblock (fb + 2) s) n)).
  assert (Hi : ind_of x' = fb) by (unfold ind_of, x'; rewrite with_addr_lookup by (done || lia); by rewrite decide_True).
  assert (Hi0 : ind_of x = 0).
  { destruct (decide (ind_of x = 0)) as [|Hn]; [done|]. apply (ho_ind _ _ _ _ _ Hh) in Hn. lia. }
  assert (Hk : forall k, 0 <= k < MAXFILE -> addr_of x' (V (C s')) k = if decide (k = na) then fb + 1 else addr_of x (V (C s)) k).
  { intros k Hk. destruct (decide (k < NDIRECT)) as [Hlt|Hge].
    - rewrite !addr_direct by lia. unfold x'. rewrite with_addr_lookup by (done || lia). by rewrite !decide_False by lia.
    - rewrite addr_indirect by lia. rewrite Hi. cbn [content V]. rewrite Hcs, decide_True by done.
      assert (addr_of x (V (C s)) k = 0) as ->.
      { unfold addr_of. rewrite (proj2 (Z.ltb_ge k _)) by lia. by rewrite Hi0. }
      destruct (decide (k = na)) as [->|Hn].
      + rewrite Hna, Z.sub_diag. rewrite get_put_le by (unfold zeroes; rewrite length_replicate; unfold BSIZE; lia).
        apply Z.mod_small. unfold FSSIZE in *. cbn. lia.
      + rewrite get_put_le_other by (unfold zeroes; rewrite ?length_replicate; unfold BSIZE; lia). apply get_le_zeros. }
  destruct (holds_grow x (C s) data na fb x' (C s') (fb + 1) (fb + 2)) as [H1 H2]; try done || lia.
  - cbn. by rewrite length_insert.
  - by rewrite decide_True.
  - rewrite Hcs, decide_False by lia. by apply (gd_fresh _ Hg); lia.
  - intros k Hkr. rewrite Hcs, decide_False; [done|]. intros E.
    pose proof (ho_range _ _ _ _ _ Hh k ltac:(lia)) as Hr. rewrite slot_nonneg in Hr by lia. lia.
  - split_and!; [|done|by rewrite Hk, decide_True by lia]. split; [|done|cbn; split_and!; [done..|lia]| |done].
    + apply good_put; [by apply good_take; [|lia|]|cbn; lia| |].
      * rewrite length_put_le; unfold zeroes; rewrite length_replicate; [done|unfold BSIZE; lia].
      * apply put_le_bytes_ok, Forall_replicate. unfold byte_ok. lia.
    + intros n Hn Ho. rewrite Hcs, decide_False; [done|]. lia.
Qed.
End grow.

Lemma holds_addr_u32 x c data na fb k :
  holds x c data na fb -> fb <= FSSIZE -> -1 <= k < MAXFILE -> 0 <= slot x (V c) k < FSSIZE.
Proof.
  intros Hh Hfb Hk. assert (nmeta = 59) as Em by done. destruct (decide (slot x (V c) k = 0)) as [->|Hn]; [by unfold FSSIZE|].
  pose proof (ho_range _ _ _ _ _ Hh k Hk Hn). lia.
Qed.

Lemma fssize_u32 a : 0 <= a < FSSIZE -> is_u32 a.
Proof. unfold is_u32, FSSIZE, W32. lia. Qed.

(** din_block() at a pointer that is there, and at one that is not. *)
Lemma wp_din_block x s i a (Q : inode -> mkst -> Prop) :
  good s -> i_addrs x !! Z.to_nat i = Some a -> is_u32 a ->
  (a <> 0 -> Q x s) -> (a = 0 -> freeblock s < FSSIZE /\ Q (with_addr x i (freeblock s)) (set_freeblock (freeblock s + 1) s)) ->
  wp (din_block x i) Q s.
Proof.
  intros Hg Ha Hu H1 H2. unfold din_block. apply wp_bind. eapply wp_from_some; [done|]. rewrite xint_id by done.
  destruct (Z.eqb_spec a 0) as [->|Hn]; [|by apply wp_ret, H1]. destruct H2 as [Hf HQ]; [done|].
  apply wp_bind, wp_take_freeblock; [done|done|]. apply wp_ret. rewrite xint_id; [done|]. pose proof (gd_fb _ Hg).
  assert (nmeta = 59) by done. apply fssize_u32. lia.
Qed.

Lemma addr_lookup x k : length (i_addrs x) = 13%nat -> 0 <= k <= NDIRECT -> i_addrs x !! Z.to_nat k = Some (default 0 (i_addrs x !! Z.to_nat k)).
Proof.
  intros Hl Hk. unfold NDIRECT in Hk. destruct (lookup_lt_is_Some_2 (i_addrs x) (Z.to_nat k)) as [a ->]; [lia|]. done.
Qed.

Section append.
Context (x : inode) (s : mkst) (data : list Z) (na fbn : Z) (Q : inode * Z -> mkst -> Prop).
Context (Hg : good s) (Hh : holds x (C s) data na (freeblock s)).
Context (Hfbn : 0 <= fbn < MAXFILE) (Hna : fbn = na \/ fbn = na - 1) (Hroom : freeblock s + grows na fbn <= FSSIZE).
Context (HQ : forall x' s', grown x s x' s' -> holds x' (C s') data (fbn + 1) (freeblock s') ->
  freeblock s' = freeblock s + grows na fbn -> Q (x', addr_of x' (V (C s')) fbn) s').
#[local] Notation fb := (freeblock s).

(** The block is there. *)
Lemma append_present : fbn = na - 1 -> Q (x, addr_of x (V (C s)) fbn) s.
Proof.
  intros E. apply HQ; [by apply appended_refl| |unfold grows; rewrite (proj2 (Z.ltb_lt _ _)); lia].
  replace (fbn + 1) with na by lia. done.
Qed.

Lemma wp_append_direct : fbn < NDIRECT -> wp (iappend_block x fbn) Q s.
Proof.
  intros Hd. assert (NDIRECT = 12) as Ed by done. pose proof MAXFILE_val as EM. pose proof (ho_len _ _ _ _ _ Hh) as Hl. pose proof (gd_fb _ Hg) as Hfb.
  pose proof (holds_addr_u32 _ _ _ _ _ fbn Hh ltac:(lia) ltac:(lia)) as Ha. rewrite slot_nonneg, addr_direct in Ha by lia.
  pose proof (ho_slot _ _ _ _ _ Hh fbn Hfbn) as Hs. rewrite addr_direct in Hs by lia.
  unfold iappend_block. rewrite (proj2 (Z.ltb_lt _ _)) by lia. apply wp_bind.
  eapply wp_din_block; [done|by apply addr_lookup; [|lia]|by apply fssize_u32|intros Hn|intros Hz].
  - apply wp_bind. eapply wp_from_some; [by apply addr_lookup; [|lia]|]. apply wp_ret. rewrite xint_id by (by apply fssize_u32).
    rewrite <- (addr_direct x (V (C s))) by lia. apply append_present. lia.
  - assert (fbn = na) as -> by lia. assert (grows na na = 1) as Egr by (unfold grows; rewrite (proj2 (Z.ltb_ge _ _)), (proj2 (Z.eqb_neq _ _)); lia).
    split; [lia|]. destruct (grow_direct x s data na Hg Hh ltac:(lia) ltac:(lia)) as (H1&H2&H3).
    apply wp_bind. eapply wp_from_some; [apply addr_lookup; [cbn; by rewrite length_insert|lia]|]. apply wp_ret.
    rewrite <- (addr_direct _ (V (C (set_freeblock (fb + 1) s)))) by lia. rewrite H3.
    rewrite xint_id by (apply fssize_u32; assert (nmeta = 59) by done; lia).
    specialize (HQ _ _ H1 H2 ltac:(cbn; lia)). by rewrite H3 in HQ.
Qed.

Lemma wp_append_indirect : NDIRECT <= fbn -> wp (iappend_block x fbn) Q s.
Proof.
  intros Hd. assert (NDIRECT = 12) as Ed by done. pose proof MAXFILE_val as EM. pose proof (ho_len _ _ _ _ _ Hh) as Hl. pose proof (gd_fb _ Hg) as Hfb.
  assert (nmeta = 59) as Em by done.
  pose proof (holds_addr_u32 _ _ _ _ _ (-1) Hh ltac:(lia) ltac:(lia)) as Hi. rewrite ind_slot in Hi. fold (ind_of x) in *.
  pose proof (holds_addr_u32 _ _ _ _ _ fbn Hh ltac:(lia) ltac:(lia)) as Ha. rewrite slot_nonneg in Ha by lia.
  pose proof (ho_slot _ _ _ _ _ Hh fbn Hfbn) as Hs. pose proof (ho_ind _ _ _ _ _ Hh) as Hind.
  unfold iappend_block. rewrite (proj2 (Z.ltb_ge _ _)) by lia. apply wp_bind.
  eapply (wp_din_block _ _ _ (ind_of x)); [done|by apply addr_lookup; [|lia]|by apply fssize_u32|intros Hn|intros Hz].
  - apply wp_bind. eapply wp_from_some; [by apply addr_lookup; [|lia]|]. fold (ind_of x). rewrite xint_id by (by apply fssize_u32).
    apply wp_bind, wp_rsect; [done|done|]. change (C s (ind_of x)) with (content (V (C s)) (ind_of x)). rewrite <- addr_indirect by (done || lia).
    destruct (Z.eqb_spec (addr_of x (V (C s)) fbn) 0) as [Ez|Enz].
    + assert (fbn = na) as -> by lia. assert (grows na na = 1) as Egr by (unfold grows; rewrite (proj2 (Z.ltb_ge _ _)), (proj2 (Z.eqb_neq _ _)); lia).
      destruct (grow_indirect x s data na Hg Hh ltac:(lia) ltac:(lia)) as (H1&H2&H3).
      apply wp_bind, wp_take_freeblock; [done|lia|]. rewrite (xint_id fb) by (apply fssize_u32; lia). apply wp_bind, wp_wsect, wp_ret. cbn [content V].
      rewrite addr_indirect in H3 by (done || lia). cbn [content V] in H3. rewrite C_put, decide_True in H3 by done. rewrite H3.
      rewrite xint_id by (apply fssize_u32; lia). specialize (HQ _ _ H1 H2 ltac:(cbn; lia)).
      rewrite addr_indirect in HQ by (done || lia). cbn [content V] in HQ. rewrite C_put, decide_True, H3 in HQ by done. exact HQ.
    + apply wp_ret. rewrite xint_id by (by apply fssize_u32). apply append_present. lia.
  - assert (fbn = na) as -> by lia. assert (na = NDIRECT) as En by lia. assert (grows na na = 2) as Egr by (unfold grows; rewrite (proj2 (Z.ltb_ge _ _)), (proj2 (Z.eqb_eq _ _)); lia).
    split; [lia|]. destruct (grow_first x s data na Hg Hh En ltac:(lia)) as (H1&H2&H3).
    assert (Hi' : default 0 (i_addrs (with_addr x NDIRECT fb) !! Z.to_nat NDIRECT) = fb) by (rewrite with_addr_lookup by (done || lia); by rewrite decide_True).
    assert (Hg1 : good (set_freeblock (fb + 1) s)) by (by apply good_take; [|lia|lia]).
    apply wp_bind. eapply wp_from_some; [apply addr_lookup; [cbn; by rewrite length_insert|lia]|]. rewrite Hi', (xint_id fb) by (apply fssize_u32; lia).
    apply wp_bind, wp_rsect; [done|lia|]. change (C (set_freeblock (fb + 1) s) fb) with (C s fb). rewrite (gd_fresh _ Hg fb) by lia.
    assert (get_u32 (Z.to_nat (4 * (na - NDIRECT))) zeroes = 0) as -> by apply get_le_zeros. change (0 =? 0) with true. cbv iota.
    apply wp_bind, wp_take_freeblock; [done|cbn; lia|]. cbn [freeblock set_freeblock]. rewrite (xint_id (fb + 1)) by (apply fssize_u32; lia).
    apply wp_bind, wp_wsect, wp_ret. replace (Z.to_nat (4 * (na - NDIRECT))) with 0%nat by lia.
    replace (fb + 1 + 1) with (fb + 2) by lia. specialize (HQ _ _ H1 H2 ltac:(cbn; lia)). rewrite H3 in HQ.
    rewrite get_put_le by (unfold zeroes; rewrite length_replicate; unfold BSIZE; lia).
    rewrite Z.mod_small, xint_id by (try apply fssize_u32; unfold FSSIZE in *; cbn; lia). exact HQ.
Qed.
End append.

Lemma wp_iappend_block x s data na fbn (Q : inode * Z -> mkst -> Prop) :
  good s -> holds x (C s) data na (freeblock s) -> 0 <= fbn < MAXFILE -> fbn = na \/ fbn = na - 1 -> freeblock s + grows na fbn <= FSSIZE ->
  (forall x' s', grown x s x' s' -> holds x' (C s') data (fbn + 1) (freeblock s') -> freeblock s' = freeblock s + grows na fbn ->
     Q (x', addr_of x' (V (C s')) fbn) s') -> wp (iappend_block x fbn) Q s.
Proof.
  intros Hg Hh Hf Hna Hr HQ. destruct (Z.lt_ge_cases fbn NDIRECT).
  - by eapply wp_append_direct.
  - by eapply wp_append_indirect.
Qed.

Lemma nb_step len n : 0 <= len -> 0 < n <= BSIZE - len mod BSIZE -> nb (len + n) = len / BSIZE + 1.
Proof. unfold nb, BSIZE. intros. Z.div_mod_to_equations. lia. Qed.

Lemma nb_block len : 0 <= len -> len / BSIZE = nb len \/ len / BSIZE = nb len - 1.
Proof. unfold nb, BSIZE. intros. Z.div_mod_to_equations. lia. Qed.

Lemma nb_mono a b : a <= b -> nb a <= nb b.
Proof. intros. unfold nb. apply Z.div_le_mono; [done|lia]. Qed.

Lemma cost_mono a b : a <= b -> cost a <= cost b.
Proof. intros Hab%nb_mono. unfold cost. destruct (Z.ltb_spec NDIRECT (nb a)), (Z.ltb_spec NDIRECT (nb b)); lia. Qed.

Lemma cost_step len n :
  0 <= len -> 0 < n <= BSIZE - len mod BSIZE -> grows (nb len) (len / BSIZE) = cost (len + n) - cost len.
Proof.
  intros Hl Hn. unfold cost, grows. rewrite nb_step by done. pose proof (nb_block len Hl). assert (NDIRECT = 12) by done.
  destruct (Z.ltb_spec (len / BSIZE) (nb len)), (Z.eqb_spec (len / BSIZE) NDIRECT), (Z.ltb_spec NDIRECT (len / BSIZE + 1)), (Z.ltb_spec NDIRECT (nb len)); lia.
Qed.

Lemma byte_at_app a b i : byte_at (a ++ b) i = if decide (i < length a)%nat then byte_at a i else byte_at b (i - length a).
Proof. unfold byte_at. case_decide; [by rewrite lookup_app_l|by rewrite lookup_app_r by lia]. Qed.

Lemma byte_at_beyond (d : list Z) i : (length d <= i)%nat -> byte_at d i = 0.
Proof. intros Hi. unfold byte_at. by rewrite lookup_ge_None_2. Qed.

(** The store of one chunk. *)
Lemma write_chunk x s data chunk :
  let len := Z.of_nat (length data) in let fbn := len / BSIZE in let b := addr_of x (V (C s)) fbn in
  let s' := put b (splice (Z.to_nat (len - fbn * BSIZE)) chunk (C s b)) s in
  good s -> holds x (C s) data (fbn + 1) (freeblock s) -> fbn < MAXFILE -> bytes_ok chunk ->
  Z.of_nat (length chunk) <= BSIZE - len mod BSIZE ->
  grown x s x s' /\ holds x (C s') (data ++ chunk) (fbn + 1) (freeblock s).
Proof.
  intros len fbn b s' Hg Hh Hf Hb Hfit. assert (Eo : len - fbn * BSIZE = len mod BSIZE) by (unfold fbn; rewrite Z.mod_eq by done; lia).
  pose proof (Z.mod_pos_bound len BSIZE ltac:(done)) as Hm. assert (0 <= fbn) as Hf0 by (apply Z.div_pos; [lia|done]).
  assert (Hbn : b <> 0) by (apply (ho_slot _ _ _ _ _ Hh); lia). assert (Ho : owns x (V (C s)) b).
  { unfold b in *. rewrite <- slot_nonneg in * by lia. apply owns_slot; [lia|done]. }
  pose proof (holds_owns _ _ _ _ _ _ Hh Ho) as Hr. pose proof (gd_fb _ Hg) as Hfb. assert (nmeta = 59) as Em by done. assert (BSIZE = 512) as Eb by done.
  destruct (gd_sect _ Hg b ltac:(lia)) as (_&Hdl&Hdb). set (d := splice _ _ _) in s'.
  assert (Hld : length d = Z.to_nat BSIZE) by (unfold d; rewrite length_splice; lia).
  assert (Hcs : forall n, C s' n = if decide (n = b) then d else C s n) by (intros; apply C_put).
  assert (Hib : ind_of x <> b).
  { intros E. pose proof (ho_inj _ _ _ _ _ Hh fbn (-1)) as Hj. rewrite ind_slot, slot_nonneg in Hj by lia. fold b in Hj. rewrite MAXFILE_val in *. lia. }
  assert (Es : forall k, slot x (V (C s')) k = slot x (V (C s)) k).
  { intros k. unfold slot, addr_of. cbn [content V]. by rewrite Hcs, decide_False. }
  assert (Ea : forall k, 0 <= k -> addr_of x (V (C s')) k = addr_of x (V (C s)) k) by (intros k Hk; rewrite <- !slot_nonneg; auto).
  assert (Elm : len = 512 * fbn + len mod BSIZE) by (by apply Z.div_mod).
  split.
  - split; [|by destruct x|cbn; split_and!; [done..|lia]| |].
    + apply good_put; [done|lia|done|]. by apply splice_bytes_ok.
    + intros n Hn Hno. rewrite Hcs, decide_False; [done|]. by intros ->.
    + intros n (Hn & k & Hk & E). left. rewrite Es in E. split; [done|]. by exists k.
  - destruct Hh as [H1 H2 H3 H4 H5 H6 H7 H8]. split; try done.
    + split; [lia|]. rewrite length_app. lia.
    + by apply Forall_app.
    + intros k Hk. rewrite Ea by lia. by apply H4.
    + intros k Hk. rewrite Es. by apply H6.
    + intros k k'. rewrite !Es. apply H7.
    + intros o Ho'. pose proof (block_div o Ho') as Hd. pose proof (Z.mod_pos_bound o BSIZE ltac:(done)). assert (Edm : o = 512 * (o / BSIZE) + o mod BSIZE) by (by apply Z.div_mod).
      rewrite byte_at_app. unfold file_byte, file_block. rewrite Ea by lia. cbn [content V]. rewrite Hcs.
      destruct (decide (o / BSIZE = fbn)) as [E|E].
      * rewrite E. fold b. rewrite (proj2 (Z.eqb_neq b 0)), decide_True by done. unfold d. rewrite byte_at_splice by lia. rewrite Eo.
        pose proof (H8 o Ho') as Hold. unfold file_byte, file_block in Hold. rewrite E in Hold. fold b in Hold. rewrite (proj2 (Z.eqb_neq b 0)) in Hold by done. cbn [content V] in Hold.
        destruct (decide (o < len)); [rewrite decide_False, decide_True by lia; done|]. rewrite (decide_False (P := (Z.to_nat o < length data)%nat)) by lia.
        case_decide; [f_equal; lia|]. rewrite Hold, !byte_at_beyond by lia. done.
      * pose proof (H8 o Ho') as Hold. unfold file_byte, file_block in Hold. cbn [content V] in Hold.
        destruct (Z.eqb_spec (addr_of x (V (C s)) (o / BSIZE)) 0) as [Ez|Enz].
        -- assert (~ (o / BSIZE < fbn + 1)) by (intros Hl%(H4 _ Hd); done). rewrite Hold. rewrite decide_False by lia.
           rewrite !byte_at_beyond by lia. done.
        -- assert (o / BSIZE < fbn) by (apply (H4 _ Hd) in Enz; lia). rewrite decide_False; [|].
           ++ rewrite Hold. rewrite decide_True by lia. done.
           ++ intros Eab. apply E. apply H7; [lia|lia|by rewrite slot_nonneg by lia|]. by rewrite !slot_nonneg by lia.
Qed.

Lemma iappend_loop_nil fuel x off : iappend_loop fuel x off [] = ret (x, off).
Proof. by destruct fuel. Qed.

Lemma iappend_loop_step fuel x off p :
  p <> [] ->
  iappend_loop (S fuel) x off p =
    (let fbn := off / BSIZE in
     panic_if (negb (fbn <? MAXFILE)) "assert" ;;;
     let* r := iappend_block x fbn in
     let '(x, b) := r in
     let n1 := Z.min (Z.of_nat (length p)) ((fbn + 1) * BSIZE - off) in
     let* buf := rsect b in
     wsect b (splice (Z.to_nat (off - fbn * BSIZE)) (take (Z.to_nat n1) p) buf) ;;;
     iappend_loop fuel x (u32 (off + n1)) (drop (Z.to_nat n1) p)).
Proof. by destruct p. Qed.

Lemma wp_iappend_loop fuel : forall x s data p (Q : inode * Z -> mkst -> Prop),
  let len := Z.of_nat (length data) in let n := Z.of_nat (length p) in
  good s -> holds x (C s) data (nb len) (freeblock s) -> bytes_ok p -> (length p <= fuel)%nat -> len + n <= MAXFILE * BSIZE ->
  freeblock s + (cost (len + n) - cost len) <= FSSIZE ->
  (forall x' s', grown x s x' s' -> holds x' (C s') (data ++ p) (nb (len + n)) (freeblock s') ->
     freeblock s' = freeblock s + (cost (len + n) - cost len) -> Q (x', len + n) s') ->
  wp (iappend_loop fuel x len p) Q s.
Proof.
  induction fuel as [|fuel IH]; intros x s data p Q len n Hg Hh Hb Hfu Hmax Hroom HQ; (destruct (decide (p = [])) as [->|Hne];
    [rewrite iappend_loop_nil; apply wp_ret; specialize (HQ x s (appended_refl x s Hg)); rewrite app_nil_r in HQ;
     replace (len + n) with len in HQ by (unfold n; cbn; lia); apply HQ; [done|lia]|]).
  { destruct p; [done|]. cbn in Hfu. lia. }
  assert (0 < n) as Hn by (unfold n; destruct p; [done|]; cbn; lia). assert (0 <= len) as Hlen by (unfold len; lia).
  rewrite iappend_loop_step by done. fold n.
  cbv zeta. set (fbn := len / BSIZE). assert (Elm : len = 512 * fbn + len mod BSIZE) by (by apply Z.div_mod). assert (BSIZE = 512) as Eb by done.
  pose proof (Z.mod_pos_bound len BSIZE ltac:(done)) as Hm. pose proof MAXFILE_val as EM. assert (0 <= fbn < MAXFILE) as Hf by lia.
  set (n1 := Z.min n ((fbn + 1) * BSIZE - len)). assert (0 < n1 <= BSIZE - len mod BSIZE) as Hn1 by lia. assert (n1 <= n) as Hn1n by lia.
  pose proof (cost_step len n1 Hlen Hn1) as Ecost. fold fbn in Ecost. pose proof (cost_mono (len + n1) (len + n) ltac:(lia)) as Hmono.
  apply wp_bind, wp_panic_if; [by rewrite (proj2 (Z.ltb_lt _ _)) by lia|].
  apply wp_bind. eapply (wp_iappend_block x s data (nb len) fbn); [done|done|done|by apply nb_block|lia|].
  intros x1 s1 Hgr Hh1 Hfb1. pose proof (gr_good _ _ _ _ Hgr) as Hg1. set (b := addr_of x1 (V (C s1)) fbn).
  assert (Hbr : nmeta <= b < freeblock s1).
  { unfold b. rewrite <- slot_nonneg by lia. apply (ho_range _ _ _ _ _ Hh1); [lia|]. rewrite slot_nonneg by lia. apply (ho_slot _ _ _ _ _ Hh1); lia. }
  pose proof (gd_fb _ Hg1). assert (nmeta = 59) by done. apply wp_bind, wp_rsect; [done|lia|]. apply wp_bind, wp_wsect.
  set (chunk := take (Z.to_nat n1) p). assert (Hcl : Z.of_nat (length chunk) = n1) by (unfold chunk; rewrite length_take; lia).
  destruct (write_chunk x1 s1 data chunk Hg1 Hh1 ltac:(fold len; fold fbn; lia) ltac:(by apply Forall_take) ltac:(fold len; lia)) as [Hgr2 Hh2].
  fold len fbn b in Hgr2, Hh2. set (s2 := put _ _ _) in *. rewrite u32_small by (unfold is_u32, W32; lia).
  replace (len + n1) with (Z.of_nat (length (data ++ chunk))) by (rewrite length_app; lia).
  assert (Hdr : Z.of_nat (length (drop (Z.to_nat n1) p)) = n - n1) by (rewrite length_drop; lia).
  assert (Hla : Z.of_nat (length (data ++ chunk)) = len + n1) by (rewrite length_app; lia).
  assert (Enb : nb (len + n1) = fbn + 1) by (by apply nb_step).
  assert (freeblock s2 = freeblock s1) as Ef2 by done.
  apply IH; rewrite ?Hdr, ?Hla, ?Enb, ?Ef2; replace (len + n1 + (n - n1)) with (len + n) by lia; rewrite ?Ecost in *;
    [apply Hgr2|done|by apply Forall_drop|rewrite length_drop; lia|done|lia|].
  intros x' s' Hgr3 Hh3 Hfb3. apply HQ.
  - eapply appended_trans; [exact Hgr|]. eapply appended_trans; [exact Hgr2|exact Hgr3].
  - unfold chunk in Hh3. by rewrite <- app_assoc, take_drop in Hh3.
  - lia.
Qed.
