(* ===== verification/MkfsImage.v ===== *)
(** mkfs.c: the invariant that the operations on the image keep, and the whole
    program. *)

From stdpp Require Import functions.
From S2P Require Import Prelude Params Bytes CString Buf Log Tx Fs FsBlocks FsFile FsDir FsPath Mkfs MkfsSpec.

Lemma make_sb_val : make_sb = mksb 1000 941 200 30 2 32 58.
Proof. reflexivity. Qed.

Lemma IBLOCK_val j : 0 <= j < NINODES -> IBLOCK j make_sb = j / 8 + 32 /\ 32 <= j / 8 + 32 < 58.
Proof.
  intros Hj. unfold NINODES in Hj. rewrite make_sb_val. unfold IBLOCK. cbn [sb_inodestart]. change IPB with 8.
  assert (0 <= j / 8 < 25) by (Z.div_mod_to_equations; lia). rewrite u32_small by (unfold is_u32, W32; lia). lia.
Qed.

(** The image's inode [j]. *)
Abbreviation node s j := (dnode make_sb (V (C s)) j).

Definition total (F : list (Z * list Z)) : Z := foldr (fun f t => cost (Z.of_nat (length f.2)) + t) 0 F.

(** Inode [j] is a file of type [ty] with the bytes [data]. *)
Definition file_is (s : mkst) (j ty : Z) (data : list Z) : Prop :=
  let x := node s j in let len := Z.of_nat (length data) in
  copied x = (ty, 0, 0, 1, len, i_addrs x) /\ holds x (C s) data (nb len) (freeblock s).

(** Inode number 1 + k, for the [k] that satisfy [P], is file [k]. *)
Record fsinv (P : nat -> Prop) (s : mkst) (F : list (Z * list Z)) : Prop := {
  fi_good : good s;
  fi_sb : msb s = make_sb;
  fi_low n : 0 <= n < 32 -> C s n = if decide (n = 1) then splice 0 (encode_sb make_sb) zeroes else zeroes;
  fi_next : freeinode s = 1 + Z.of_nat (length F) /\ Z.of_nat (length F) < NINODES;
  fi_blocks : freeblock s = nmeta + total F;
  fi_types : Forall (fun f => 0 <= f.1 < 2 ^ 15) F;
  fi_file k ty data : P k -> F !! k = Some (ty, data) -> file_is s (1 + Z.of_nat k) ty data;
  fi_sep k k' : P k -> P k' -> (k < length F)%nat -> (k' < length F)%nat -> k <> k' ->
    separate (node s (1 + Z.of_nat k)) (node s (1 + Z.of_nat k')) (V (C s));
}.

Lemma holds_addrs x y c data na fb : i_addrs x = i_addrs y -> holds x c data na fb -> holds y c data na fb.
Proof.
  intros E Hh. assert (Es : forall k, slot y (V c) k = slot x (V c) k) by (intros k; unfold slot, addr_of, ind_of; by rewrite E).
  assert (Ea : forall k, addr_of y (V c) k = addr_of x (V c) k) by (intros k; unfold addr_of, ind_of; by rewrite E).
  destruct Hh as [H1 H2 H3 H4 H5 H6 H7 H8]. split; try done.
  - by rewrite <- E.
  - intros k. rewrite Ea. apply H4.
  - unfold ind_of in *. by rewrite <- E.
  - intros k. rewrite Es. apply H6.
  - intros k k'. rewrite !Es. apply H7.
  - intros o Ho. rewrite <- H8 by done. unfold file_byte, file_block. by rewrite Ea.
Qed.

Lemma owns_addrs x y v n : i_addrs x = i_addrs y -> owns x v n -> owns y v n.
Proof. intros E (Hn & k & Hk & ->). split; [done|]. exists k. split; [done|]. unfold slot, addr_of, ind_of. by rewrite E. Qed.

Lemma holds_dinode x c data na fb :
  holds x c data na fb -> fb <= FSSIZE -> Forall (fun a => 0 <= a < 2 ^ 32) (i_addrs x).
Proof.
  intros Hh Hfb. apply Forall_lookup. intros i a Hi. pose proof (lookup_lt_Some _ _ _ Hi) as Hlt. rewrite (ho_len _ _ _ _ _ Hh) in Hlt.
  assert (0 <= a < FSSIZE) as Ha; [|unfold FSSIZE in Ha; lia].
  destruct (decide (i = 12%nat)) as [->|Hn].
  - pose proof (holds_addr_u32 _ _ _ _ _ (-1) Hh Hfb ltac:(rewrite MAXFILE_val; lia)) as Hr. rewrite ind_slot in Hr. unfold ind_of in Hr.
    change (Z.to_nat NDIRECT) with 12%nat in Hr. rewrite Hi in Hr. exact Hr.
  - pose proof (holds_addr_u32 _ _ _ _ _ (Z.of_nat i) Hh Hfb ltac:(rewrite MAXFILE_val; lia)) as Hr.
    rewrite slot_nonneg, addr_direct, Nat2Z.id, Hi in Hr by (unfold NDIRECT; lia). exact Hr.
Qed.

(** Two inode numbers in one block have different places. *)
Lemma dinode_offs j j' :
  0 <= j < NINODES -> 0 <= j' < NINODES -> j <> j' -> IBLOCK j make_sb = IBLOCK j' make_sb ->
  (dinode_off j' + 64 <= dinode_off j \/ dinode_off j + 64 <= dinode_off j')%nat.
Proof.
  intros Hj Hj' Hne E. destruct (IBLOCK_val j Hj) as [E1 _], (IBLOCK_val j' Hj') as [E2 _]. rewrite E1, E2 in E. unfold dinode_off.
  change IPB with 8. change sizeof_dinode with 64. Z.div_mod_to_equations. lia.
Qed.

(** winode() of inode [1 + k] completes the invariant. *)
Section winode.
Context (s : mkst) (F : list (Z * list Z)) (k : nat) (ty : Z) (data : list Z) (x : inode).
Context (HI : fsinv (fun k' => k' <> k) s F) (Hk : F !! k = Some (ty, data)).
Context (Hc : copied x = (ty, 0, 0, 1, Z.of_nat (length data), i_addrs x)).
Context (Hh : holds x (C s) data (nb (Z.of_nat (length data))) (freeblock s)).
Context (Hsep : forall k', k' <> k -> (k' < length F)%nat -> separate x (node s (1 + Z.of_nat k')) (V (C s))).
#[local] Notation j := (1 + Z.of_nat k).
#[local] Notation B := (IBLOCK j make_sb).
#[local] Notation s' := (put B (put_dinode (dinode_off j) x (C s B)) s).

Lemma inum_range k' : (k' < length F)%nat -> 0 <= 1 + Z.of_nat k' < NINODES.
Proof. intros Hk'. pose proof (fi_next _ _ _ HI). lia. Qed.

Lemma B_range : 32 <= B < 58 /\ length (C s B) = 512%nat /\ bytes_ok (C s B).
Proof.
  destruct (IBLOCK_val j) as [-> Hr]; [by eapply inum_range, lookup_lt_Some|]. split; [done|].
  apply (gd_sect _ (fi_good _ _ _ HI)). unfold FSSIZE. lia.
Qed.

Lemma x_dinode : dinode_ok x.
Proof.
  injection Hc as E1 E2 E3 E4 E5. pose proof (fi_types _ _ _ HI) as Ht. rewrite Forall_lookup in Ht. specialize (Ht _ _ Hk). cbn in Ht.
  split.
  - rewrite E1, E2, E3, E4. lia.
  - rewrite E5. pose proof (ho_na _ _ _ _ _ Hh). rewrite MAXFILE_val in *. unfold is_u32, W32, BSIZE in *. lia.
  - apply Hh.
  - eapply holds_dinode; [done|]. apply (gd_fb _ (fi_good _ _ _ HI)).
Qed.

Lemma off_fits : (dinode_off j + 64 <= length (C s B))%nat.
Proof. apply dinode_off_fits. by destruct B_range as (_&->&_). Qed.

Lemma node_same : copied (node s' j) = copied x.
Proof. unfold dnode. cbn [content V]. rewrite C_put, decide_True by done. apply get_put_dinode; [apply x_dinode|apply off_fits]. Qed.

Lemma node_other k' : k' <> k -> (k' < length F)%nat -> node s' (1 + Z.of_nat k') = node s (1 + Z.of_nat k').
Proof.
  intros Hne Hk'. unfold dnode. cbn [content V]. rewrite C_put. case_decide as E; [|done]. rewrite E.
  apply get_put_dinode_other; [apply Hh|apply off_fits|]. apply dinode_offs; [|by apply inum_range|lia|done].
  by eapply inum_range, lookup_lt_Some.
Qed.

Lemma data_same n : nmeta <= n -> C s' n = C s n.
Proof. intros Hn. pose proof B_range. rewrite C_put, decide_False; [done|]. change nmeta with 59 in Hn. lia. Qed.

Lemma fsinv_winode : fsinv (fun _ => True) s' F.
Proof.
  pose proof B_range as (Hr&Hl&Hb). pose proof (gd_fb _ (fi_good _ _ _ HI)) as Hfb. assert (nmeta = 59) as Em by done.
  assert (Hown : forall y m, holds y (C s) m.1 m.2 (freeblock s) -> forall n, owns y (V (C s)) n -> C s' n = C s n).
  { intros y m Hy n Hn. apply data_same. by eapply holds_owns in Hn; [|done]; lia. }
  assert (Hoth : forall k', k' <> k -> (k' < length F)%nat -> forall n, owns (node s (1 + Z.of_nat k')) (V (C s)) n -> C s' n = C s n).
  { intros k' Hne Hk'. destruct (lookup_lt_is_Some_2 F k' Hk') as [[ty' d'] Hd']. destruct (fi_file _ _ _ HI k' ty' d' Hne Hd') as [_ Hf].
    by apply (Hown _ (d', nb (Z.of_nat (length d')))). }
  assert (Hself : forall n, owns x (V (C s)) n -> C s' n = C s n) by (by apply (Hown _ (data, nb (Z.of_nat (length data))))).
  assert (Haddr : i_addrs (node s' j) = i_addrs x) by (pose proof node_same as E; by apply copied_fields in E as (_&_&_&?)).
  assert (Hx : forall n, owns (node s' j) (V (C s')) n -> owns x (V (C s)) n).
  { intros n Hn. apply (owns_addrs _ x) in Hn; [|done]. by rewrite (owns_frame x (C s)) in Hn. }
  destruct HI as [I1 I2 I3 I4 I5 I6 I7 I8]. split; try done.
  - apply good_put; [done|lia| |].
    + rewrite length_put_dinode; [done|apply Hh|apply off_fits].
    + unfold put_dinode, put_u32s. apply splice_bytes_ok; [|by do 5 apply put_le_bytes_ok]. apply Forall_concat, Forall_fmap, Forall_true. intros a. apply le_of_bytes_ok.
  - intros n Hn. rewrite C_put, decide_False by lia. by apply I3.
  - intros k' ty' d' _ Hd'. destruct (decide (k' = k)) as [->|Hne].
    + rewrite Hk in Hd'. injection Hd' as <- <-. split; [rewrite Haddr, node_same; exact Hc|].
      eapply holds_addrs; [symmetry; exact Haddr|]. by eapply holds_frame; [exact Hh|reflexivity|].
    + pose proof (lookup_lt_Some _ _ _ Hd') as Hlt. destruct (I7 k' ty' d' Hne Hd') as [E1 E2]. unfold file_is. cbv zeta. rewrite node_other by done.
      split; [done|]. eapply holds_frame; [exact E2|reflexivity|]. by apply Hoth.
  - intros k1 k2 _ _ Hl1 Hl2 Hne n. destruct (decide (k1 = k)) as [->|N1], (decide (k2 = k)) as [->|N2]; [done|..].
    + rewrite (node_other k2) by done. intros O1%Hx O2. rewrite (owns_frame _ (C s)) in O2 by (by apply Hoth). by eapply Hsep.
    + rewrite (node_other k1) by done. intros O1 O2%Hx. rewrite (owns_frame _ (C s)) in O1 by (by apply Hoth). by eapply (Hsep k1).
    + rewrite (node_other k1 N1 Hl1), (node_other k2 N2 Hl2).
      rewrite (owns_frame (node s (1 + Z.of_nat k1)) (C s)), (owns_frame (node s (1 + Z.of_nat k2)) (C s)) by (by apply Hoth).
      by apply (I8 k1 k2).
Qed.

Lemma wp_winode (Q : unit -> mkst -> Prop) : (forall s1, fsinv (fun _ => True) s1 F -> Q tt s1) -> wp (winode j x) Q s.
Proof.
  intros HQ. unfold winode. apply wp_bind, wp_gets. rewrite (fi_sb _ _ _ HI). pose proof B_range as (Hr&_).
  apply wp_bind, wp_rsect; [apply HI|unfold FSSIZE; lia|]. apply wp_wsect, HQ, fsinv_winode.
Qed.
End winode.

Lemma total_app F1 F2 : total (F1 ++ F2) = total F1 + total F2.
Proof. unfold total. induction F1 as [|f F1 IH]; [done|]. cbn [app foldr]. rewrite IH. lia. Qed.

Lemma total_insert F k f f' :
  F !! k = Some f -> total (<[k := f']> F) = total F - cost (Z.of_nat (length f.2)) + cost (Z.of_nat (length f'.2)).
Proof.
  intros Hk. rewrite <- (take_drop_middle F k f Hk) at 2. rewrite insert_take_drop by (by eapply lookup_lt_Some).
  rewrite !total_app. cbn [total foldr]. fold (total (drop (S k) F)). lia.
Qed.

(** ** Allocation *)

Lemma empty_slot x v k : i_addrs x = replicate 13 0 -> -1 <= k -> slot x v k = 0.
Proof.
  intros E Hk. assert (Hi : ind_of x = 0) by (unfold ind_of; by rewrite E). unfold slot, addr_of. rewrite Hi.
  destruct (Z.eqb_spec k (-1)); [done|]. destruct (Z.ltb_spec k NDIRECT); [|done]. rewrite E, lookup_replicate_2; [done|]. unfold NDIRECT in *. lia.
Qed.

Lemma holds_nothing x c fb : i_addrs x = replicate 13 0 -> holds x c [] 0 fb.
Proof.
  intros E. assert (Hs : forall k, -1 <= k -> slot x (V c) k = 0) by (intros k; by apply empty_slot).
  assert (Ha : forall k, 0 <= k -> addr_of x (V c) k = 0) by (intros k Hk; rewrite <- (slot_nonneg x (V c)) by done; apply Hs; lia).
  assert (Hi : ind_of x = 0) by (rewrite <- (ind_slot x (V c)); by apply Hs).
  pose proof MAXFILE_val. split.
  - by rewrite E.
  - split; [lia|]. done.
  - by apply Forall_nil.
  - intros k Hk. rewrite Ha by lia. lia.
  - rewrite Hi. unfold NDIRECT. lia.
  - intros k Hk. by rewrite Hs by lia.
  - intros k k' Hk _. by rewrite Hs by lia.
  - intros o Ho. pose proof (block_div o Ho). unfold file_byte, file_block. rewrite Ha by lia. change (0 =? 0) with true. cbv iota.
    unfold byte_at. rewrite lookup_replicate_2; [done|]. pose proof (Z.mod_pos_bound o BSIZE ltac:(done)). lia.
Qed.

Lemma wp_ialloc s F ty (Q : Z -> mkst -> Prop) :
  fsinv (fun _ => True) s F -> 1 + Z.of_nat (length F) < NINODES -> 0 <= ty < 2 ^ 15 ->
  (forall s', fsinv (fun _ => True) s' (F ++ [(ty, [])]) -> Q (1 + Z.of_nat (length F)) s') -> wp (ialloc ty) Q s.
Proof.
  intros HI Hn Hty HQ. pose proof (fi_next _ _ _ HI) as [Hnext _]. unfold NINODES in *. unfold ialloc. apply wp_bind, wp_gets. rewrite Hnext.
  apply wp_bind, wp_modify. rewrite u32_small by (unfold is_u32, W32; lia). set (s1 := set_freeinode _ s).
  set (x := set_i_size (xint 0) _). assert (i_addrs x = replicate 13 0) as Ea by done.
  assert (Hh : holds x (C s) [] 0 (freeblock s)) by (by apply holds_nothing).
  assert (HI1 : fsinv (fun k' => k' <> length F) s1 (F ++ [(ty, [])])).
  { destruct HI as [I1 I2 I3 I4 I5 I6 I7 I8]. split; try done.
    - by destruct I1; split.
    - rewrite length_app. cbn. unfold NINODES. lia.
    - rewrite total_app. cbn [freeblock set_freeinode s1]. rewrite I5. change (total [(ty, [])]) with 0. lia.
    - apply Forall_app. split; [done|]. by repeat constructor; cbn; try lia.
    - intros k ty' d' Hk Hd'. rewrite lookup_app_l in Hd'; [by apply I7|]. apply lookup_lt_Some in Hd'. rewrite length_app in Hd'. cbn in Hd'. lia.
    - intros k k' Hk Hk' Hl Hl' Hne. rewrite length_app in *. cbn in Hl, Hl'. apply I8; try done; lia. }
  apply wp_bind. eapply (wp_winode s1 (F ++ [(ty, [])]) (length F) ty [] x HI1); [by apply list_lookup_middle| |done| |].
  - unfold copied. change (i_type x) with (xshort ty). rewrite xshort_id by lia. done.
  - intros k' Hne Hk' n (Hn0 & k & Hk & E) _. apply Hn0. rewrite E. apply empty_slot; [done|lia].
  - intros s' HI'. by apply wp_ret, HQ.
Qed.

(** ** Appending *)

Lemma IBLOCK_node s s' P F k :
  fsinv P s F -> (k < length F)%nat ->
  (forall n, n < nmeta -> C s' n = C s n) -> node s' (1 + Z.of_nat k) = node s (1 + Z.of_nat k).
Proof.
  intros HI Hk Hc. unfold dnode. cbn [content V]. rewrite Hc; [done|]. pose proof (fi_next _ _ _ HI) as [_ Hn].
  destruct (IBLOCK_val (1 + Z.of_nat k)) as [-> Hr]; [lia|]. change nmeta with 59. lia.
Qed.

Lemma wp_rinode s P F k (Q : inode -> mkst -> Prop) :
  fsinv P s F -> (k < length F)%nat -> Q (node s (1 + Z.of_nat k)) s -> wp (rinode (1 + Z.of_nat k)) Q s.
Proof.
  intros HI Hk HQ. unfold rinode. apply wp_bind, wp_gets. rewrite (fi_sb _ _ _ HI). pose proof (fi_next _ _ _ HI) as [_ Hn].
  destruct (IBLOCK_val (1 + Z.of_nat k)) as [E Hr]; [lia|]. apply wp_bind, wp_rsect; [apply HI|rewrite E; unfold FSSIZE; lia|]. by apply wp_ret.
Qed.

(** The other files do not notice. *)
Lemma fsinv_grown s F k ty data x' s' data' :
  fsinv (fun _ => True) s F -> F !! k = Some (ty, data) -> grown (node s (1 + Z.of_nat k)) s x' s' ->
  freeblock s' = freeblock s + (cost (Z.of_nat (length data')) - cost (Z.of_nat (length data))) ->
  fsinv (fun k' => k' <> k) s' (<[k := (ty, data')]> F) /\
  forall k', k' <> k -> (k' < length F)%nat -> separate x' (node s' (1 + Z.of_nat k')) (V (C s')).
Proof.
  intros HI Hk Hgr Hfb. pose proof (lookup_lt_Some _ _ _ Hk) as Hlt. destruct (fi_file _ _ _ HI k ty data I Hk) as [_ Hh].
  assert (Hlow : forall n, n < nmeta -> C s' n = C s n).
  { intros n Hn. apply (gr_same _ _ _ _ Hgr); [pose proof (gd_fb _ (fi_good _ _ _ HI)); lia|]. intros Ho%(holds_owns _ _ _ _ _ _ Hh). lia. }
  assert (Hnode : forall k', (k' < length F)%nat -> node s' (1 + Z.of_nat k') = node s (1 + Z.of_nat k')).
  { intros k' Hk'. by eapply IBLOCK_node. }
  assert (Hoth : forall k', k' <> k -> (k' < length F)%nat -> forall n, owns (node s (1 + Z.of_nat k')) (V (C s)) n -> n < freeblock s /\ C s' n = C s n).
  { intros k' Hne Hk' n Ho. destruct (lookup_lt_is_Some_2 F k' Hk') as [[ty' d'] Hd']. destruct (fi_file _ _ _ HI k' ty' d' I Hd') as [_ Hh'].
    pose proof (holds_owns _ _ _ _ _ _ Hh' Ho) as Hr. split; [lia|]. apply (gr_same _ _ _ _ Hgr); [lia|].
    intros Ho'. by apply (fi_sep _ _ _ HI k' k I I Hk' Hlt Hne n). }
  destruct (gr_rest _ _ _ _ Hgr) as (E1&E2&E3). split.
  - destruct HI as [I1 I2 I3 I4 I5 I6 I7 I8]. split.
    + apply Hgr.
    + congruence.
    + intros n Hn. rewrite Hlow by (change nmeta with 59; lia). by apply I3.
    + rewrite length_insert. by rewrite E2.
    + rewrite (total_insert _ _ _ _ Hk). cbn [snd]. lia.
    + apply Forall_insert; [done|]. rewrite Forall_lookup in I6. by apply (I6 _ _ Hk).
    + intros k' ty' d' Hne Hd'. rewrite list_lookup_insert_ne in Hd' by done. pose proof (lookup_lt_Some _ _ _ Hd') as Hl'.
      destruct (I7 k' ty' d' I Hd') as [F1 F2]. unfold file_is. cbv zeta. rewrite Hnode by done. split; [done|].
      eapply holds_frame; [exact F2|done|]. intros n Ho. by apply (Hoth k').
    + intros k1 k2 N1 N2 L1 L2 Hne n. rewrite length_insert in *. rewrite !Hnode by done.
      rewrite (owns_frame (node s (1 + Z.of_nat k1)) (C s)) by (intros m Ho; by apply (Hoth k1)).
      rewrite (owns_frame (node s (1 + Z.of_nat k2)) (C s)) by (intros m Ho; by apply (Hoth k2)). by apply (I8 k1 k2).
  - intros k' Hne Hk' n Ho Ho'. rewrite Hnode in Ho' by done. rewrite (owns_frame _ (C s)) in Ho' by (intros m Hm; by apply (Hoth k')).
    apply (gr_owns _ _ _ _ Hgr) in Ho as [Ho|Hge].
    + by apply (fi_sep _ _ _ HI k k' I I Hlt Hk' (not_eq_sym Hne) n).
    + destruct (Hoth k' Hne Hk' n Ho'). lia.
Qed.

Lemma wp_iappend s F k ty data p (Q : unit -> mkst -> Prop) :
  let len := Z.of_nat (length data) in let n := Z.of_nat (length p) in
  fsinv (fun _ => True) s F -> F !! k = Some (ty, data) -> bytes_ok p -> len + n <= MAXFILE * BSIZE ->
  nmeta + total (<[k := (ty, data ++ p)]> F) <= FSSIZE ->
  (forall s', fsinv (fun _ => True) s' (<[k := (ty, data ++ p)]> F) -> Q tt s') -> wp (iappend (1 + Z.of_nat k) p) Q s.
Proof.
  intros len n HI Hk Hb Hmax Hroom HQ. pose proof (lookup_lt_Some _ _ _ Hk) as Hlt. destruct (fi_file _ _ _ HI k ty data I Hk) as [Hc Hh].
  rewrite (total_insert _ _ _ _ Hk) in Hroom. cbn [snd] in Hroom. pose proof (fi_blocks _ _ _ HI) as Hfb.
  rewrite length_app, Nat2Z.inj_add in Hroom. fold len n in Hroom.
  unfold iappend. apply wp_bind. eapply wp_rinode; [done|done|]. set (x := node s (1 + Z.of_nat k)) in *.
  pose proof MAXFILE_val. assert (BSIZE = 512) as Eb by done.
  assert (i_size x = len) as -> by (by injection Hc). rewrite xint_id by (unfold is_u32, W32; lia).
  apply wp_bind. apply (wp_iappend_loop (length p) x s data p); [apply HI|done|done|done|done|fold len n; lia|].
  intros x' s' Hgr Hh' Hfb'. fold len n in Hh', Hfb'. fold len n. rewrite xint_id by (unfold is_u32, W32; lia).
  assert (Elen : Z.of_nat (length (data ++ p)) = len + n) by (rewrite length_app; lia).
  destruct (fsinv_grown s F k ty data x' s' (data ++ p) HI Hk Hgr) as [HI' Hsep]; [by rewrite Elen|].
  eapply (wp_winode s' _ k ty (data ++ p) (set_i_size (len + n) x') HI'); [by apply list_lookup_insert_eq| | | |exact HQ].
  - rewrite Elen. rewrite (gr_inode _ _ _ _ Hgr). injection Hc as C1 C2 C3 C4 C5. unfold copied. cbn. by rewrite C1, C2, C3, C4.
  - rewrite Elen. by eapply holds_addrs; [|exact Hh'].
  - intros k' Hne Hk'. rewrite length_insert in Hk'. exact (Hsep k' Hne Hk').
Qed.

(** ** The program *)

Definition stripped (name : list Z) : list Z := match name with 95 :: name => name | _ => name end.
Definition file_name (f : list Z * list (list Z)) : list Z := stripped f.1.
Definition file_data (f : list Z * list (list Z)) : list Z := concat f.2.

(** The entries of the root directory, and the files of the image. *)
Definition root_ents (fs : list (list Z * list (list Z))) : list (Z * list Z) :=
  (ROOTINO, [46]) :: (ROOTINO, [46; 46]) :: imap (fun i f => (2 + Z.of_nat i, file_name f)) fs.
Definition dirents (es : list (Z * list Z)) : list Z := concat ((fun e => mkdirent e.1 e.2) <$> es).
Definition layout_of (fs : list (list Z * list (list Z))) : list (Z * list Z) :=
  (T_DIR, dirents (root_ents fs)) :: ((fun f => (T_FILE, file_data f)) <$> fs).

(** What mkfs asks of an argument. *)
Record arg_ok (f : list Z * list (list Z)) : Prop := {
  ar_slash : existsb (Z.eqb SLASH) f.1 = false;
  ar_name : bytes_ok f.1;
  ar_data : Forall bytes_ok f.2;
  ar_size : Z.of_nat (length (file_data f)) <= MAXFILE * BSIZE;
}.

Lemma cost_nonneg len : 0 <= len -> 0 <= cost len.
Proof. intros Hl. unfold cost. assert (0 <= nb len) by (apply Z.div_pos; [unfold BSIZE; lia|done]). destruct (NDIRECT <? nb len); lia. Qed.

Lemma total_nonneg F : 0 <= total F.
Proof. unfold total. induction F as [|f F IH]; cbn; [done|]. pose proof (cost_nonneg (Z.of_nat (length f.2))). lia. Qed.

Lemma total_mono F : forall G,
  (forall k f, F !! k = Some f -> exists g, G !! k = Some g /\ (length f.2 <= length g.2)%nat) -> total F <= total G.
Proof.
  induction F as [|f F IH]; intros G H; [apply total_nonneg|]. destruct (H 0%nat f) as (g&Hg&Hl); [done|].
  destruct G as [|g' G]; [done|]. injection Hg as ->. cbn [total foldr]. fold (total F) (total G).
  pose proof (cost_mono (Z.of_nat (length f.2)) (Z.of_nat (length g.2)) ltac:(lia)).
  assert (total F <= total G); [|lia]. apply IH. intros k f' Hk. by apply (H (S k)).
Qed.

Lemma length_mkdirent i nm : length (mkdirent i nm) = 16%nat.
Proof. unfold mkdirent. rewrite length_app, length_le_of, length_strncpy. done. Qed.

Lemma length_dirents es : length (dirents es) = (16 * length es)%nat.
Proof. unfold dirents. induction es as [|e es IH]; [done|]. rewrite fmap_cons. cbn [concat length]. rewrite length_app, length_mkdirent, IH. lia. Qed.

Lemma dirents_app es1 es2 : dirents (es1 ++ es2) = dirents es1 ++ dirents es2.
Proof. unfold dirents. by rewrite fmap_app, concat_app. Qed.

Lemma root_ents_snoc fs f : root_ents (fs ++ [f]) = root_ents fs ++ [(2 + Z.of_nat (length fs), file_name f)].
Proof. unfold root_ents. rewrite imap_app. cbn. by rewrite Nat.add_0_r. Qed.

Lemma strncpy_ok n : forall t, (forall i, byte_ok (t i)) -> bytes_ok (strncpy t n).
Proof.
  induction n as [|n IH]; intros t Ht; cbn [strncpy]; [by constructor|].
  destruct (t 0%nat =? 0); constructor; [unfold byte_ok; lia|apply Forall_replicate; unfold byte_ok; lia|done|]. apply IH. intros i. apply Ht.
Qed.

Lemma mkdirent_ok i nm : bytes_ok nm -> bytes_ok (mkdirent i nm).
Proof.
  intros Hn. apply Forall_app. split; [apply le_of_bytes_ok|]. apply strncpy_ok. intros k. unfold ptr_to.
  destruct (nm !! k) eqn:E; [|unfold byte_ok; cbn; lia]. unfold bytes_ok in Hn. rewrite Forall_lookup in Hn. by eapply Hn.
Qed.

Lemma stripped_ok nm : bytes_ok nm -> bytes_ok (stripped nm).
Proof. intros Hn. unfold stripped. repeat (case_match; try done). by inversion Hn. Qed.

Lemma length_layout fs : length (layout_of fs) = S (length fs).
Proof. unfold layout_of. cbn. by rewrite length_fmap. Qed.

Lemma layout_total_mono fs fs' : total (layout_of fs) <= total (layout_of (fs ++ fs')).
Proof.
  apply total_mono. unfold layout_of. intros [|k] f Hk.
  - injection Hk as <-. exists (T_DIR, dirents (root_ents (fs ++ fs'))). split; [done|]. cbn [snd]. rewrite !length_dirents.
    unfold root_ents. cbn [length]. rewrite !length_imap, length_app. lia.
  - change (((fun f => (T_FILE, file_data f)) <$> fs) !! k = Some f) in Hk. change (exists g, ((fun f => (T_FILE, file_data f)) <$> (fs ++ fs')) !! k = Some g /\ (length f.2 <= length g.2)%nat).
    rewrite list_lookup_fmap in *. destruct (fs !! k) as [g|] eqn:Hg; [|done]. rewrite (lookup_app_l_Some _ _ _ _ Hg). injection Hk as <-. by eexists.
Qed.

(** The chunks of one file. *)
Lemma wp_chunks chunks : forall s F k ty data (Q : unit -> mkst -> Prop),
  fsinv (fun _ => True) s F -> F !! k = Some (ty, data) -> Forall bytes_ok chunks ->
  Z.of_nat (length (data ++ concat chunks)) <= MAXFILE * BSIZE ->
  nmeta + total (<[k := (ty, data ++ concat chunks)]> F) <= FSSIZE ->
  (forall s', fsinv (fun _ => True) s' (<[k := (ty, data ++ concat chunks)]> F) -> Q tt s') ->
  wp (for_each chunks (iappend (1 + Z.of_nat k))) Q s.
Proof.
  induction chunks as [|c chunks IH]; intros s F k ty data Q HI Hk Hb Hmax Hroom HQ; cbn [for_each concat] in *.
  { apply wp_ret, HQ. rewrite app_nil_r. by rewrite list_insert_id. }
  inversion Hb; subst. pose proof (lookup_lt_Some _ _ _ Hk) as Hlt. rewrite app_assoc in *.
  apply wp_bind. eapply wp_iappend; [done|done|done| | |].
  - rewrite !length_app in Hmax. lia.
  - etrans; [|exact Hroom]. apply Z.add_le_mono_l. rewrite !(total_insert _ _ _ _ Hk). cbn [snd].
    pose proof (cost_mono (Z.of_nat (length (data ++ c))) (Z.of_nat (length ((data ++ c) ++ concat chunks)))) as Hm. rewrite !length_app in *. lia.
  - intros s' HI'. eapply (IH s' _ k ty (data ++ c)); [done|by apply list_lookup_insert_eq|done|done|by rewrite list_insert_insert_eq|].
    intros s2 HI2. apply HQ. by rewrite list_insert_insert_eq in HI2.
Qed.

Lemma wp_add_file s fs f (Q : unit -> mkst -> Prop) :
  fsinv (fun _ => True) s (layout_of fs) -> arg_ok f -> Z.of_nat (length fs) + 2 < NINODES ->
  nmeta + total (layout_of (fs ++ [f])) <= FSSIZE ->
  (forall s', fsinv (fun _ => True) s' (layout_of (fs ++ [f])) -> Q tt s') -> wp (add_file ROOTINO f) Q s.
Proof.
  intros HI [Hs Hn Hd Hz] Hcnt Hroom HQ. destruct f as [name chunks] eqn:Ef. rewrite <- Ef in *. cbn [fst snd] in *.
  assert (Hs' : existsb (Z.eqb SLASH) name = false) by (by rewrite Ef in Hs). assert (Hn' : bytes_ok name) by (by rewrite Ef in Hn).
  assert (Hd' : Forall bytes_ok chunks) by (by rewrite Ef in Hd). assert (Efd : file_data f = concat chunks) by (by rewrite Ef).
  assert (add_file ROOTINO f = (panic_if (existsb (Z.eqb SLASH) name) "assert" ;;;
    let* inum := ialloc T_FILE in iappend ROOTINO (mkdirent (xshort inum) (file_name f)) ;;; for_each chunks (iappend inum))) as -> by (by rewrite Ef).
  apply wp_bind, wp_panic_if; [done|]. apply wp_bind. eapply wp_ialloc; [done|rewrite length_layout; lia|done|]. rewrite length_layout. intros s1 HI1.
  set (n := Z.of_nat (length fs)) in *. replace (1 + Z.of_nat (S (length fs))) with (2 + n) by lia. unfold NINODES in Hcnt.
  rewrite xshort_id by lia. set (de := mkdirent (2 + n) (file_name f)). apply wp_bind.
  assert (E1 : dirents (root_ents fs) ++ de = dirents (root_ents (fs ++ [f]))).
  { rewrite root_ents_snoc, dirents_app. unfold dirents at 3. cbn. by rewrite app_nil_r. }
  assert (Hlr : length (dirents (root_ents fs)) = (16 * (2 + length fs))%nat) by (rewrite length_dirents; unfold root_ents; cbn; rewrite length_imap; lia).
  pose proof MAXFILE_val as EM. assert (BSIZE = 512) as Eb by done.
  set (F1 := layout_of fs ++ [(T_FILE, [])]) in *. set (F2 := <[0%nat := (T_DIR, dirents (root_ents fs) ++ de)]> F1).
  assert (Hk : F2 !! S (length fs) = Some (T_FILE, [])).
  { unfold F2. rewrite list_lookup_insert_ne by done. unfold F1. rewrite lookup_app_r by (rewrite length_layout; lia). by rewrite length_layout, Nat.sub_diag. }
  assert (E2 : <[S (length fs) := (T_FILE, concat chunks)]> F2 = layout_of (fs ++ [f])).
  { transitivity ((T_DIR, dirents (root_ents (fs ++ [f]))) :: <[length fs := (T_FILE, concat chunks)]> (((fun f => (T_FILE, file_data f)) <$> fs) ++ [(T_FILE, [])])).
    - unfold F2. by rewrite E1.
    - unfold layout_of. f_equal. rewrite fmap_app, insert_app_r_alt by (rewrite length_fmap; lia). rewrite length_fmap, Nat.sub_diag. by rewrite <- Efd. }
  change ROOTINO with (1 + Z.of_nat 0). eapply (wp_iappend s1 F1 0 T_DIR); [done|done|by apply mkdirent_ok, stripped_ok; rewrite Ef| | |].
  - rewrite Hlr. unfold de. rewrite length_mkdirent. lia.
  - fold F2. etrans; [|exact Hroom]. apply Z.add_le_mono_l. rewrite <- E2. rewrite (total_insert _ _ _ _ Hk). cbn [snd length].
    pose proof (cost_nonneg (Z.of_nat (length (concat chunks)))). change (cost (Z.of_nat 0)) with 0. lia.
  - fold F2. intros s2 HI2. replace (2 + n) with (1 + Z.of_nat (S (length fs))) by lia.
    eapply (wp_chunks chunks s2 F2); [done|exact Hk|done| | |]; cbn [app]; [by rewrite <- Efd|by rewrite E2|rewrite E2; exact HQ].
Qed.

(** The root directory after its size has been rounded up. *)
Definition pad (d : list Z) : list Z := d ++ replicate (Z.to_nat (BSIZE - Z.of_nat (length d) mod BSIZE)) 0.
Definition fixed (fs : list (list Z * list (list Z))) : list (Z * list Z) := <[0%nat := (T_DIR, pad (dirents (root_ents fs)))]> (layout_of fs).

Lemma length_pad d : Z.of_nat (length d) mod BSIZE <> 0 ->
  Z.of_nat (length (pad d)) = (Z.of_nat (length d) / BSIZE + 1) * BSIZE /\ nb (Z.of_nat (length (pad d))) = nb (Z.of_nat (length d)).
Proof.
  intros Hm. unfold pad. rewrite length_app, length_replicate. unfold nb, BSIZE in *. Z.div_mod_to_equations. lia.
Qed.

Lemma byte_at_pad d i : byte_at (pad d) i = byte_at d i.
Proof.
  unfold pad. rewrite byte_at_app. case_decide; [done|]. rewrite (byte_at_beyond d) by lia. unfold byte_at.
  destruct (replicate _ 0 !! (i - length d)%nat) eqn:E; [|done]. by apply lookup_replicate in E as [-> _].
Qed.

Lemma copied_resize x n ty len : copied x = (ty, 0, 0, 1, len, i_addrs x) -> copied (set_i_size n x) = (ty, 0, 0, 1, n, i_addrs (set_i_size n x)).
Proof. unfold copied. cbn. by intros [= -> -> -> ->]. Qed.

Lemma wp_fix_root s fs (Q : unit -> mkst -> Prop) :
  fsinv (fun _ => True) s (layout_of fs) -> Z.of_nat (length (dirents (root_ents fs))) mod BSIZE <> 0 ->
  (forall s', fsinv (fun _ => True) s' (fixed fs) -> Q tt s') -> wp (fix_root ROOTINO) Q s.
Proof.
  intros HI Hm HQ. set (d := dirents (root_ents fs)) in *. destruct (length_pad d Hm) as [L1 L2].
  assert (Hk : layout_of fs !! 0%nat = Some (T_DIR, d)) by done. destruct (fi_file _ _ _ HI 0 T_DIR d I Hk) as [Hc Hh].
  change ROOTINO with (1 + Z.of_nat 0). unfold fix_root. apply wp_bind. eapply (wp_rinode s _ _ 0); [done|rewrite length_layout; lia|].
  set (x := node s (1 + Z.of_nat 0)) in *. assert (i_size x = Z.of_nat (length d)) as -> by (by injection Hc).
  pose proof (ho_na _ _ _ _ _ Hh) as [Hna Hlen]. rewrite MAXFILE_val in Hna. assert (BSIZE = 512) as Eb by done.
  assert (Hnb : Z.of_nat (length (pad d)) <= nb (Z.of_nat (length d)) * BSIZE) by (rewrite <- L2; unfold nb, BSIZE; Z.div_mod_to_equations; lia).
  rewrite (xint_id (Z.of_nat (length d))) by (unfold is_u32, W32; lia). rewrite <- L1, u32_small by (unfold is_u32, W32; lia).
  rewrite xint_id by (unfold is_u32, W32; lia).
  destruct (fsinv_grown s (layout_of fs) 0 T_DIR d x s (pad d) HI Hk (appended_refl x s (fi_good _ _ _ HI))) as [HI' Hsep].
  { unfold cost. rewrite L2. lia. }
  eapply (wp_winode s _ 0 T_DIR (pad d) (set_i_size (Z.of_nat (length (pad d))) x) HI'); [done| | | |exact HQ].
  - by eapply copied_resize.
  - rewrite L2. eapply (holds_addrs x); [done|]. destruct Hh as [H1 H2 H3 H4 H5 H6 H7 H8]. split; try done.
    + apply Forall_app. split; [done|]. apply Forall_replicate. unfold byte_ok. lia.
    + intros o Ho. rewrite byte_at_pad. by apply H8.
  - intros k' Hne Hk'. rewrite length_insert in Hk'. exact (Hsep k' Hne Hk').
Qed.

(** The empty image. *)
Lemma wp_format (Q : unit -> mkst -> Prop) s :
  freeinode s = 1 -> msb s = make_sb -> freeblock s = nmeta ->
  (forall s', fsinv (fun _ => True) s' [] -> Q tt s') ->
  wp (for_each (seq 0 (Z.to_nat FSSIZE)) (fun i => wsect (Z.of_nat i) zeroes) ;;; wsect 1 (splice 0 (encode_sb make_sb) zeroes)) Q s.
Proof.
  intros Hi Hs Hf HQ. apply wp_bind.
  apply (wp_for_seq _ _ (fun k s' => freeinode s' = 1 /\ msb s' = make_sb /\ freeblock s' = nmeta /\ forall n, 0 <= n < Z.of_nat k -> img s' !! n = Some zeroes)).
  - split_and!; [done..|lia].
  - intros k s1 Hk (E1&E2&E3&E4). apply wp_wsect. split_and!; [done..|]. intros n Hn. unfold put. cbn. destruct (decide (n = Z.of_nat k)) as [->|Hne].
    + by rewrite lookup_insert_eq.
    + rewrite lookup_insert_ne by lia. apply E4. lia.
  - intros s1 (E1&E2&E3&E4). rewrite Z2Nat.id in E4 by done. apply wp_wsect, HQ. set (sbd := splice 0 _ zeroes).
    assert (Hz : length zeroes = Z.to_nat BSIZE /\ bytes_ok zeroes) by (split; [apply length_replicate|apply Forall_replicate; unfold byte_ok; lia]).
    assert (Hc : forall n, 0 <= n < FSSIZE -> C s1 n = zeroes) by (intros n Hn; unfold C; by rewrite E4).
    assert (Hg : good s1).
    { split; [|intros n Hn; apply Hc; change nmeta with 59 in E3; lia|rewrite E3; done]. intros n Hn. rewrite Hc by done. by split; [apply E4|]. }
    split; try done.
    + apply good_put; [done|change nmeta with 59 in E3; lia| |].
      * unfold sbd. rewrite length_splice; [apply Hz|]. destruct Hz as [-> _]. unfold encode_sb. rewrite length_words. change (Z.to_nat BSIZE) with 512%nat. cbn [length]. lia.
      * apply splice_bytes_ok; [|apply Hz]. unfold encode_sb. apply Forall_concat, Forall_fmap, Forall_true. intros a. apply le_of_bytes_ok.
    + intros n Hn. rewrite C_put. case_decide; [done|]. apply Hc. unfold FSSIZE. lia.
    + intros k k' _ _ Hk. cbn in Hk. lia.
Qed.
