(* ===== verification/MkfsBoot.v ===== *)
(** mkfs.c and fs.c: the image that mkfs writes is a file system that the
    theorems about the kernel apply to. *)

From stdpp Require Import functions.
From S2P Require Import Prelude Params Bytes CString Buf Log LogSpec Tx Fs FsBlocks FsFile FsDir FsPath Mkfs MkfsSpec MkfsImage.

(** The kernel sees the blocks of the image outside the log, and no buffer is
    in use. *)
Record shows_image (s : mkst) (v : view) : Prop := {
  si_range n : range v n <-> 0 <= n < FSSIZE /\ ~ in_log 2 LOGSIZE n;
  si_content n : range v n -> content v n = C s n;
  si_quiet : held v = ∅ /\ touched v = ∅;
}.

Lemma mark_free n d j :
  length d = Z.to_nat BSIZE -> (n <= 4096)%nat ->
  length (mark n d) = length d /\ bit_free (mark n d) j = if decide (j < n)%nat then false else bit_free d j.
Proof.
  intros Hd. induction n as [|n IH]; intros Hn; [done|]. cbn [mark]. destruct IH as [L E]; [lia|].
  assert (n / 8 < length (mark n d))%nat as Hlt.
  { rewrite L, Hd. change (Z.to_nat BSIZE) with 512%nat. apply Nat.Div0.div_lt_upper_bound. lia. }
  split; [unfold bit_set; by rewrite length_insert|]. rewrite bit_free_set by done. rewrite E. repeat case_decide; lia || done.
Qed.

Lemma BBLOCK_val b : 0 <= b < FSSIZE -> BBLOCK b make_sb = 58.
Proof. intros Hb. unfold FSSIZE in Hb. rewrite make_sb_val. unfold BBLOCK, BPB, BSIZE. cbn [sb_bmapstart]. rewrite Z.div_small by lia. done. Qed.

Lemma copied_is x ty len a : copied x = (ty, 0, 0, 1, len, a) -> i_type x = ty /\ i_nlink x = 1 /\ i_size x = len.
Proof. by intros [= -> _ _ -> -> _]. Qed.

Lemma size_val : sb_size make_sb = FSSIZE /\ sb_ninodes make_sb = NINODES.
Proof. done. Qed.

Section boot.
Context (s : mkst) (fs : list (list Z * list (list Z))) (v : view).
Context (HI : fsinv (fun _ => True) s (fixed fs)).
#[local] Notation fb := (freeblock s).
#[local] Notation s' := (put 58 (mark (Z.to_nat fb) zeroes) s).
Context (Hv : shows_image s' v).

Lemma range_data n : nmeta <= n < FSSIZE -> range v n /\ content v n = C s n.
Proof.
  intros Hn. change nmeta with 59 in Hn. assert (range v n) as Hr by (apply (si_range _ _ Hv); unfold in_log, LOGSIZE, MAXOPBLOCKS; lia).
  split; [done|]. rewrite (si_content _ _ Hv) by done. by rewrite C_put, decide_False by lia.
Qed.

Lemma range_inode j : 0 <= j < NINODES -> range v (IBLOCK j make_sb) /\ content v (IBLOCK j make_sb) = C s (IBLOCK j make_sb).
Proof.
  intros Hj. destruct (IBLOCK_val j Hj) as [-> Hr]. set (n := j / 8 + 32) in *.
  assert (range v n) as Hn by (apply (si_range _ _ Hv); unfold in_log, LOGSIZE, MAXOPBLOCKS, FSSIZE; lia).
  split; [done|]. rewrite (si_content _ _ Hv) by done. by rewrite C_put, decide_False by lia.
Qed.

Lemma count_files : length (fixed fs) = S (length fs) /\ Z.of_nat (S (length fs)) < NINODES.
Proof. pose proof (fi_next _ _ _ HI) as [_ Hn]. unfold fixed in *. by rewrite length_insert, length_layout in *. Qed.

Lemma node_eq k : (k < length (fixed fs))%nat -> dnode make_sb v (1 + Z.of_nat k) = node s (1 + Z.of_nat k).
Proof.
  intros Hk. pose proof count_files as [E Hn]. unfold dnode. destruct (range_inode (1 + Z.of_nat k)) as [_ ->]; [lia|]. done.
Qed.

(** Every inode is as the invariant says. *)
Lemma node_holds k ty data :
  fixed fs !! k = Some (ty, data) ->
  let x := dnode make_sb v (1 + Z.of_nat k) in
  copied x = (ty, 0, 0, 1, Z.of_nat (length data), i_addrs x) /\
  holds x (content v) data (nb (Z.of_nat (length data))) fb /\ i_dev x = ROOTDEV.
Proof.
  intros Hk x. pose proof (lookup_lt_Some _ _ _ Hk) as Hlt. destruct (fi_file _ _ _ HI k ty data I Hk) as [H1 H2].
  unfold x. rewrite node_eq by done. split; [done|]. split; [|done]. eapply holds_frame; [exact H2|reflexivity|].
  intros n Ho%(holds_owns _ _ _ _ _ _ H2). apply range_data. pose proof (gd_fb _ (fi_good _ _ _ HI)). lia.
Qed.

(** ** The bitmap and the layout *)

Lemma used_image b : 0 <= b < FSSIZE -> used make_sb v b = (b <? fb).
Proof.
  intros Hb. unfold used. rewrite BBLOCK_val by done. pose proof (gd_fb _ (fi_good _ _ _ HI)) as Hfb. unfold FSSIZE in *. change nmeta with 59 in Hfb.
  rewrite (si_content _ _ Hv) by (apply (si_range _ _ Hv); unfold in_log, LOGSIZE, MAXOPBLOCKS, FSSIZE; lia).
  rewrite C_put, decide_True by done. rewrite Z.mod_small by (unfold BPB, BSIZE; lia).
  destruct (mark_free (Z.to_nat fb) zeroes (Z.to_nat b)) as [_ ->]; [apply length_replicate|lia|].
  assert (Hz : bit_free zeroes (Z.to_nat b) = true).
  { unfold bit_free, byte_at. destruct (zeroes !! _) eqn:E; [|done]. apply lookup_replicate in E as [-> _]. done. }
  rewrite Hz. case_decide; destruct (Z.ltb_spec b fb); lia || done.
Qed.

Lemma bitmap_blocks n : bitmap_block make_sb n <-> n = 58.
Proof.
  unfold bitmap_block. destruct size_val as [-> _]. split.
  - intros (b & Hb & ->). by apply BBLOCK_val.
  - intros ->. exists 0. split; [done|]. by rewrite BBLOCK_val.
Qed.

Lemma inode_blocks n : inode_block make_sb n -> 32 <= n < 58.
Proof.
  unfold inode_block. destruct size_val as [_ ->]. intros (i & Hi & ->). by destruct (IBLOCK_val i Hi) as [-> ?].
Qed.

Lemma image_layout : layout make_sb v.
Proof.
  assert (Hr1 : range v 1) by (apply (si_range _ _ Hv); unfold in_log, FSSIZE; lia). split.
  - rewrite make_sb_val. cbn. lia.
  - rewrite (si_content _ _ Hv) by done. rewrite C_put, decide_False by done. rewrite (fi_low _ _ _ HI) by lia. rewrite decide_True by done.
    vm_compute. reflexivity.
  - done.
  - intros n ->%bitmap_blocks. split; [apply (si_range _ _ Hv); unfold in_log, LOGSIZE, MAXOPBLOCKS, FSSIZE; lia|]. split; [done|].
    intros Hi%inode_blocks. lia.
  - intros n (i & Hi & ->). destruct size_val as [_ E]. rewrite E in Hi. destruct (range_inode i Hi) as [Hr _]. split; [done|].
    destruct (IBLOCK_val i Hi) as [-> ?]. lia.
  - intros b Hb Hu. destruct size_val as [E _]. rewrite E in Hb. rewrite used_image in Hu by done.
    apply Z.ltb_ge in Hu. pose proof (gd_fb _ (fi_good _ _ _ HI)) as Hfb. change nmeta with 59 in Hfb.
    split; [apply range_data; change nmeta with 59; lia|]. intros [->|[->|[->%bitmap_blocks|Hi%inode_blocks]]]; lia.
Qed.

Lemma image_at k ty data :
  fixed fs !! k = Some (ty, data) ->
  let x := dnode make_sb v (1 + Z.of_nat k) in fs_at make_sb v x /\ no_holes x v.
Proof.
  intros Hk x. destruct (node_holds k ty data Hk) as (Hc&Hh&Hdev). fold x in Hc, Hh, Hdev. pose proof (gd_fb _ (fi_good _ _ _ HI)) as Hfb.
  change nmeta with 59 in Hfb. destruct (si_quiet _ _ Hv) as [Hheld Ht].
  assert (Ea : forall k', slot x v k' = slot x (V (content v)) k') by done. split.
  - split; [apply image_layout| | |].
    + by split; rewrite ?Hheld.
    + split; [done|apply Hh| |].
      * intros n (Hn & k' & Hk' & E). rewrite Ea in E. pose proof (ho_range _ _ _ _ _ Hh k' Hk' ltac:(congruence)) as Hr. rewrite <- E in Hr. change nmeta with 59 in Hr.
        split; [|split; [rewrite used_image by lia; apply Z.ltb_lt; lia|by rewrite Hheld]].
        split; [destruct size_val as [-> _]; lia|]. split; [apply range_data; change nmeta with 59; lia|].
        intros [->|[->|[->%bitmap_blocks|Hi%inode_blocks]]]; lia.
      * intros k1 k2. rewrite !Ea. apply (ho_inj _ _ _ _ _ Hh).
    + intros n Hn. rewrite (si_content _ _ Hv) by done. apply (si_range _ _ Hv) in Hn as [Hn _].
      rewrite C_put. case_decide; [|by apply (gd_sect _ (fi_good _ _ _ HI))].
      destruct (mark_free (Z.to_nat fb) zeroes 0) as [-> _]; [apply length_replicate|unfold FSSIZE in *; lia|apply length_replicate].
  - intros bn H0 Hlt. destruct (copied_is _ _ _ _ Hc) as (_&_&Es). rewrite Es in Hlt. pose proof (ho_na _ _ _ _ _ Hh) as [[_ Hna] _].
    assert (bn < nb (Z.of_nat (length data))) as Hbn by (unfold nb, BSIZE in *; Z.div_mod_to_equations; lia).
    apply (ho_slot _ _ _ _ _ Hh bn); lia.
Qed.

(** ** The root directory *)

Lemma dirents_byte es k e i :
  es !! k = Some e -> (i < 16)%nat -> byte_at (dirents es) (16 * k + i) = byte_at (mkdirent e.1 e.2) i.
Proof.
  intros Hk Hi. rewrite <- (take_drop_middle es k e Hk), dirents_app. pose proof (lookup_lt_Some _ _ _ Hk) as Hlt.
  rewrite byte_at_app, decide_False by (rewrite length_dirents, length_take; lia). rewrite length_dirents, length_take.
  unfold dirents. rewrite fmap_cons. cbn [concat]. rewrite byte_at_app, length_mkdirent, decide_True by lia. f_equal. lia.
Qed.

#[local] Notation root := (dnode make_sb v ROOTINO).
#[local] Notation rdata := (dirents (root_ents fs)).

Lemma length_root_ents : length (root_ents fs) = (2 + length fs)%nat.
Proof. unfold root_ents. cbn [length]. by rewrite length_imap. Qed.

Lemma root_lookup : fixed fs !! 0%nat = Some (T_DIR, pad rdata).
Proof. done. Qed.

Lemma root_byte o : 0 <= o < MAXFILE * BSIZE -> file_byte root v o = byte_at rdata (Z.to_nat o).
Proof. intros Ho. destruct (node_holds 0 _ _ root_lookup) as (_&Hh&_). rewrite <- byte_at_pad. by apply (ho_byte _ _ _ _ _ Hh). Qed.

Lemma root_entry k e :
  root_ents fs !! k = Some e -> 0 <= e.1 < 2 ^ 16 -> entry_at root v k = (e.1, name_of e.2).
Proof.
  intros Hk He. pose proof (lookup_lt_Some _ _ _ Hk) as Hlt. rewrite length_root_ents in Hlt. pose proof count_files as [_ Hn]. unfold NINODES in Hn.
  rewrite <- entry_of_mkdirent by done. unfold entry_at. f_equal. rewrite <- (length_mkdirent e.1 e.2). apply file_bytes_src. rewrite length_mkdirent. intros o Ho.
  rewrite root_byte by (rewrite MAXFILE_val; unfold BSIZE; lia). rewrite <- (dirents_byte _ _ _ _ Hk) by lia. f_equal. lia.
Qed.

Lemma root_empty k : (length (root_ents fs) <= k)%nat -> 16 * Z.of_nat k + 16 <= MAXFILE * BSIZE -> (entry_at root v k).1 = 0.
Proof.
  intros Hk Hmax. unfold entry_at, entry_of. cbn [fst]. unfold de_inum. assert (file_bytes root v (16 * Z.of_nat k) 16 = replicate 16 0) as ->; [|done].
  change 16%nat with (length (replicate 16 0)) at 1. apply file_bytes_src. rewrite length_replicate. intros o Ho. rewrite root_byte by lia.
  rewrite byte_at_beyond by (rewrite length_dirents; lia). unfold byte_at. by rewrite lookup_replicate_2 by lia.
Qed.

Lemma root_ents_range k e : root_ents fs !! k = Some e -> 1 <= e.1 <= 1 + Z.of_nat (length fs).
Proof.
  destruct k as [|[|k]]; intros Hk; [injection Hk as <-; unfold ROOTINO; cbn; lia..|].
  change (imap (fun i f => (2 + Z.of_nat i, file_name f)) fs !! k = Some e) in Hk. rewrite list_lookup_imap in Hk. destruct (fs !! k) eqn:E; [|done]. injection Hk as <-. apply lookup_lt_Some in E. cbn. lia.
Qed.

(** The first entry with a name. *)
Lemma find_first nm es k j :
  es !! k = Some (j, nm) -> j <> 0 -> (forall i e, (i < k)%nat -> es !! i = Some e -> e.2 <> nm) -> find_entry nm es = Some (k, j).
Proof.
  revert k. induction es as [|[i n] es IH]; intros [|k] Hk Hj Hf; cbn in *; try done.
  - injection Hk as -> ->. by rewrite bool_decide_true.
  - rewrite bool_decide_false by (intros [_ E]; by apply (Hf 0%nat (i, n)); [lia|..]). rewrite (IH k); [done|done|done|].
    intros i' e Hi He. by apply (Hf (S i')); [lia|].
Qed.

(** ** The tree *)

Definition nodes (j : Z) : Prop := 1 <= j <= 1 + Z.of_nat (length fs).

Lemma nodes_lookup j : nodes j -> exists ty data, fixed fs !! Z.to_nat (j - 1) = Some (ty, data) /\ j = 1 + Z.of_nat (Z.to_nat (j - 1)) /\ ty <> 0 /\ (ty = T_DIR -> j = 1).
Proof.
  intros Hj. unfold nodes in Hj. pose proof count_files as [E _]. destruct (lookup_lt_is_Some_2 (fixed fs) (Z.to_nat (j - 1))) as [[ty data] Hk]; [lia|].
  exists ty, data. split; [done|]. split; [lia|]. destruct (Z.to_nat (j - 1)) as [|k] eqn:Ek; [injection Hk as <- <-; split; [done|]; lia|].
  change (((fun f => (T_FILE, file_data f)) <$> fs) !! k = Some (ty, data)) in Hk. rewrite list_lookup_fmap in Hk.
  destruct (fs !! k); [|done]. by injection Hk as <- _.
Qed.

Lemma root_is : i_type root = T_DIR /\ i_size root = Z.of_nat (length (pad rdata)) /\ Z.of_nat (length (pad rdata)) <= MAXFILE * BSIZE.
Proof.
  destruct (node_holds 0 _ _ root_lookup) as (Hc&Hh&_). destruct (copied_is _ _ _ _ Hc) as (E1&_&E2). split; [done|]. split; [done|].
  pose proof (ho_na _ _ _ _ _ Hh) as [Hna Hlen]. unfold BSIZE in *. lia.
Qed.

Context (Hpad : Z.of_nat (length rdata) mod BSIZE <> 0).

Lemma root_size : (16 | i_size root).
Proof.
  destruct root_is as (_&->&_). destruct (length_pad rdata Hpad) as [-> _]. unfold BSIZE. exists ((Z.of_nat (length rdata) / 512 + 1) * 32). lia.
Qed.

Lemma root_entries k : (k < Z.to_nat (i_size root / 16))%nat -> entries root v !! k = Some (entry_at root v k) /\
  ((k < length (root_ents fs))%nat \/ (entry_at root v k).1 = 0).
Proof.
  intros Hk. split; [by apply entries_lookup|]. destruct (decide (k < length (root_ents fs))%nat); [by left|right].
  apply root_empty; [lia|]. destruct root_is as (_&E&Hmax). rewrite <- E in Hmax. destruct root_size as [q Hq]. rewrite Hq, Z.div_mul in * by done. lia.
Qed.

Lemma image_tree : tree make_sb v nodes.
Proof.
  pose proof count_files as [E Hn]. split; [apply image_layout|apply Hv| | |].
  - intros j Hj. destruct (nodes_lookup j Hj) as (ty&data&Hk&Ej&Hty&_). destruct (node_holds _ _ _ Hk) as (Hc&_&_). rewrite <- Ej in Hc.
    destruct (copied_is _ _ _ _ Hc) as (->&->&_). destruct size_val as [_ ->]. unfold nodes in Hj. lia.
  - intros j Hj Ht. destruct (nodes_lookup j Hj) as (ty&data&Hk&Ej&Hty&Hroot). destruct (node_holds _ _ _ Hk) as (Hc&_&_). rewrite <- Ej in Hc.
    destruct (copied_is _ _ _ _ Hc) as (E1&_). assert (j = ROOTINO) as -> by (apply Hroot; congruence).
    destruct (image_at 0 _ _ root_lookup) as [H1 H2]. split; [done|]. split; [done|]. destruct root_is as (R1&R2&R3). split.
    + split; [by rewrite R1|]. rewrite R2. lia.
    + split; [done|apply root_size].
  - intros j e Hj Ht He Hne. destruct (nodes_lookup j Hj) as (ty&data&Hk&Ej&Hty&Hroot). destruct (node_holds _ _ _ Hk) as (Hc&_&_). rewrite <- Ej in Hc.
    destruct (copied_is _ _ _ _ Hc) as (E1&_). assert (j = ROOTINO) as -> by (apply Hroot; congruence).
    apply list_elem_of_lookup in He as [k Hk']. assert (k < Z.to_nat (i_size root / 16))%nat as Hlt.
    { apply lookup_lt_Some in Hk'. unfold entries in Hk'. by rewrite length_fmap, length_seq in Hk'. }
    destruct (root_entries k Hlt) as [E2 Hor]. rewrite Hk' in E2. injection E2 as ->. destruct Hor as [Hr|Hr]; [|done].
    destruct (lookup_lt_is_Some_2 _ _ Hr) as [e' He']. pose proof (root_ents_range _ _ He') as Hrg. unfold NINODES in Hn.
    rewrite (root_entry k e') by (done || lia). cbn. exact Hrg.
Qed.

(** The file [i] is found in the root directory under its name. *)
Lemma image_find i f :
  NoDup ([46] :: [46; 46] :: (name_of <$> (file_name <$> fs))) -> fs !! i = Some f ->
  find_entry (name_of (file_name f)) (entries root v) = Some (S (S i), 2 + Z.of_nat i).
Proof.
  intros Hnd Hi. pose proof (lookup_lt_Some _ _ _ Hi) as Hlt. pose proof count_files as [_ Hn]. unfold NINODES in Hn.
  assert (Hent : forall k e, root_ents fs !! k = Some e -> entries root v !! k = Some (e.1, name_of e.2)).
  { intros k e He. pose proof (root_ents_range _ _ He). rewrite <- (root_entry k e) by (done || lia). apply entries_lookup.
    destruct root_is as (_&->&_). destruct (length_pad rdata Hpad) as [El _]. apply lookup_lt_Some in He. unfold pad in *. rewrite length_app, length_dirents in *.
    pose proof (Z.div_le_mono (16 * Z.of_nat (length (root_ents fs))) (Z.of_nat (16 * length (root_ents fs) + length (replicate (Z.to_nat (BSIZE - Z.of_nat (16 * length (root_ents fs)) mod BSIZE)) 0))) 16 ltac:(done) ltac:(lia)) as Hd.
    rewrite (Z.mul_comm 16), Z.div_mul in Hd by done. lia. }
  assert (Hnames : forall k e, root_ents fs !! k = Some e -> ([46] :: [46; 46] :: (name_of <$> (file_name <$> fs))) !! k = Some (name_of e.2)).
  { intros [|[|k]] e He; [by injection He as <-..|]. change (imap (fun i f => (2 + Z.of_nat i, file_name f)) fs !! k = Some e) in He.
    change ((name_of <$> (file_name <$> fs)) !! k = Some (name_of e.2)). rewrite list_lookup_imap in He. rewrite !list_lookup_fmap.
    destruct (fs !! k); [|done]. by injection He as <-. }
  assert (Hk : root_ents fs !! S (S i) = Some (2 + Z.of_nat i, file_name f)).
  { change (imap (fun i f => (2 + Z.of_nat i, file_name f)) fs !! i = Some (2 + Z.of_nat i, file_name f)). by rewrite list_lookup_imap, Hi. }
  apply find_first; [exact (Hent _ _ Hk)|lia|]. intros k e Hlt' He Heq.
  destruct (lookup_lt_is_Some_2 (root_ents fs) k) as [e' He']; [rewrite length_root_ents; lia|].
  rewrite (Hent _ _ He') in He. injection He as <-. cbn [snd] in Heq. pose proof (Hnames _ _ He') as N1. pose proof (Hnames _ _ Hk) as N2. rewrite Heq in N1.
  pose proof (NoDup_lookup _ _ _ _ Hnd N1 N2). lia.
Qed.

(** What the kernel finds. *)
Lemma image_file i f :
  fs !! i = Some f ->
  let x := dnode make_sb v (2 + Z.of_nat i) in let n := length (file_data f) in
  i_type x = T_FILE /\ i_nlink x = 1 /\ i_size x = Z.of_nat n /\ fs_at make_sb v x /\ no_holes x v /\ file_bytes x v 0 n = file_data f.
Proof.
  intros Hi. assert (Hk : fixed fs !! S i = Some (T_FILE, file_data f)).
  { change (((fun f => (T_FILE, file_data f)) <$> fs) !! i = Some (T_FILE, file_data f)). by rewrite list_lookup_fmap, Hi. }
  replace (2 + Z.of_nat i) with (1 + Z.of_nat (S i)) by lia. destruct (node_holds _ _ _ Hk) as (Hc&Hh&_). destruct (copied_is _ _ _ _ Hc) as (E1&E2&E3).
  destruct (image_at _ _ _ Hk) as [H1 H2]. cbv zeta. do 5 (split; [done|]). apply file_bytes_src. intros o Ho. rewrite Z.sub_0_r.
  apply (ho_byte _ _ _ _ _ Hh). pose proof (ho_na _ _ _ _ _ Hh) as [Hna Hlen]. unfold BSIZE in *. lia.
Qed.
End boot.

(** ** The program *)

Lemma wp_files files : forall fs s (Q : unit -> mkst -> Prop),
  fsinv (fun _ => True) s (layout_of fs) -> Forall arg_ok files -> Z.of_nat (length (fs ++ files)) + 1 < NINODES ->
  nmeta + total (layout_of (fs ++ files)) <= FSSIZE ->
  (forall s', fsinv (fun _ => True) s' (layout_of (fs ++ files)) -> Q tt s') -> wp (for_each files (add_file ROOTINO)) Q s.
Proof.
  induction files as [|f files IH]; intros fs s Q HI Hok Hcnt Hroom HQ; cbn [for_each].
  { apply wp_ret, HQ. by rewrite app_nil_r. }
  inversion Hok; subst. replace (fs ++ f :: files) with ((fs ++ [f]) ++ files) in * by (by rewrite <- app_assoc).
  rewrite !length_app in Hcnt. cbn [length] in Hcnt. pose proof (layout_total_mono (fs ++ [f]) files).
  apply wp_bind. eapply (wp_add_file s fs f); [done|done|lia|lia|]. intros s1 HI1. apply (IH (fs ++ [f])); [done|done|rewrite !length_app; cbn [length]; lia|done|done].
Qed.

(** The tree of [files], its bitmap, and each of the files. *)
Definition in_image (files : list (list Z * list (list Z))) (v : view) : Prop :=
  tree make_sb v (nodes files) /\
  (forall b, 0 <= b < FSSIZE -> used make_sb v b = (b <? nmeta + total (layout_of files))) /\
  forall i f, files !! i = Some f ->
    let x := dnode make_sb v (2 + Z.of_nat i) in let n := length (file_data f) in
    resolve make_sb v false ROOTINO [name_of (file_name f)] = Some (2 + Z.of_nat i) /\
    i_type x = T_FILE /\ i_nlink x = 1 /\ i_size x = Z.of_nat n /\ fs_at make_sb v x /\ no_holes x v /\ file_bytes x v 0 n = file_data f.

(** C8: mkfs, for files that fit and have different names: it ends without a
    failed assertion, and the image is a file system for the kernel.  The
    layout, the bitmap (exactly the blocks handed out are in use) and the
    directory are well-formed, and every file is found in the root directory
    under its name, with its size and exactly its bytes.  The number of
    entries in the root directory is not a multiple of those of a block. *)
Theorem mkfs_correct files :
  Forall arg_ok files -> Z.of_nat (length files) + 1 < NINODES -> nmeta + total (layout_of files) <= FSSIZE ->
  (2 + Z.of_nat (length files)) mod 32 <> 0 -> NoDup ([46] :: [46; 46] :: (name_of <$> (file_name <$> files))) ->
  wp (main files) (fun _ s' => forall v, shows_image s' v -> in_image files v) start.
Proof.
  intros Hok Hcnt Hroom Hmod Hnd. unfold main. apply wp_bind, wp_modify. apply wp_bind, wp_modify.
  apply wp_bind_assoc. eapply wp_mono; [apply (wp_format (fun _ s' => fsinv (fun _ => True) s' [])); [done|done|done|auto]|]. intros [] s1 HI1.
  apply wp_bind. eapply wp_ialloc; [exact HI1|done|done|]. cbn [length app]. intros s2 HI2.
  apply wp_bind, wp_panic_if; [done|]. change (1 + Z.of_nat 0) with ROOTINO.
  assert (E0 : layout_of [] = [(T_DIR, mkdirent ROOTINO [46] ++ mkdirent ROOTINO [46; 46])]) by done.
  pose proof (layout_total_mono [] files) as Hm. rewrite app_nil_l, E0 in Hm.
  assert (Htot : total [(T_DIR, mkdirent ROOTINO [46])] <= total [(T_DIR, mkdirent ROOTINO [46] ++ mkdirent ROOTINO [46; 46])]).
  { apply total_mono. intros [|k] f Hk; [|done]. injection Hk as <-. eexists. split; [done|]. cbn [snd]. rewrite length_app. lia. }
  assert (Hdot : forall nm, bytes_ok nm -> bytes_ok (mkdirent (xshort ROOTINO) nm)) by (intros nm; apply mkdirent_ok).
  change ROOTINO with (1 + Z.of_nat 0) at 1 3.
  apply wp_bind. eapply (wp_iappend s2 _ 0 T_DIR []); [exact HI2|done|by apply Hdot; repeat constructor; unfold byte_ok; lia|done|cbn [insert list_insert app]; change (xshort ROOTINO) with ROOTINO; lia|].
  intros s3 HI3. change (xshort ROOTINO) with ROOTINO in *. cbn [insert list_insert app] in HI3.
  apply wp_bind. eapply (wp_iappend s3 _ 0 T_DIR (mkdirent ROOTINO [46])); [exact HI3|done|by apply Hdot; repeat constructor; unfold byte_ok; lia|done|cbn [insert list_insert]; lia|].
  intros s4 HI4. cbn [insert list_insert] in HI4. rewrite <- E0 in HI4.
  apply wp_bind. eapply (wp_files files []); [exact HI4|done|done|done|]. intros s5 HI5. rewrite app_nil_l in HI5.
  assert (Hpad : Z.of_nat (length (dirents (root_ents files))) mod BSIZE <> 0).
  { rewrite length_dirents, length_root_ents. unfold BSIZE. replace (Z.of_nat (16 * (2 + length files))) with (16 * (2 + Z.of_nat (length files))) by lia.
    change 512 with (16 * 32). rewrite Z.mul_mod_distr_l by done. lia. }
  apply wp_bind. eapply wp_fix_root; [exact HI5|exact Hpad|]. intros s6 HI6. apply wp_bind, wp_gets. unfold balloc.
  pose proof (gd_fb _ (fi_good _ _ _ HI6)) as Hfb. pose proof (fi_blocks _ _ _ HI6) as Hbl.
  apply wp_bind, wp_panic_if; [apply negb_false_iff, Z.ltb_lt; unfold FSSIZE, BSIZE in *; lia|]. apply wp_bind, wp_gets. rewrite (fi_sb _ _ _ HI6).
  apply wp_wsect. change (sb_bmapstart make_sb) with 58. intros v Hv.
  split; [by eapply image_tree|]. split.
  - intros b Hb. rewrite (used_image s6 files v HI6 Hv b Hb), Hbl. unfold fixed. rewrite (total_insert _ 0%nat (T_DIR, dirents (root_ents files))) by done. cbn [snd].
    destruct (length_pad _ Hpad) as [_ E]. unfold cost. rewrite E. f_equal. lia.
  - intros i f Hi. destruct (image_file s6 files v HI6 Hv i f Hi) as (F1&F2&F3&F4&F5&F6). cbv zeta. split; [|done].
    cbn [resolve]. destruct (root_is s6 files v HI6 Hv) as (->&_). rewrite Z.eqb_refl. cbn [andb].
    by rewrite (image_find s6 files v HI6 Hv Hpad i f Hnd Hi).
Qed.

(** ** Two files *)
Definition two_files : list (list Z * list (list Z)) := [([82], [[104; 105]]); ([95; 99], [[1]; [2; 3]])].

Definition image_view (s : mkst) : view := mkview (fun n => 0 <= n < FSSIZE /\ ~ in_log 2 LOGSIZE n) 0 (C s) (C s) ∅ ∅ ∅ 0.

Lemma mkfs_correct_witness : wp (main two_files) (fun _ s' => in_image two_files (image_view s')) start.
Proof.
  eapply wp_mono; [apply (mkfs_correct two_files)|].
  - repeat constructor; unfold byte_ok; try (cbn; lia); try (by vm_compute).
  - done.
  - by vm_compute.
  - done.
  - by apply (bool_decide_unpack _); vm_compute.
  - intros [] s' Hs. apply Hs. by split.
Defined.
