(* ===== verification/Kalloc.v ===== *)
(** kalloc.c: the physical page allocator, and the memory that vm.c and the
    pipes use.

    [ram] is the physical memory above the kernel image, one entry of PGSIZE
    bytes per page, keyed by the kernel virtual address of the page (P2V of
    its physical address).  The free list is threaded through the free pages:
    the first word of a free page is the address of the next one. *)

From S2P Require Import Prelude Params Bytes.

(** ** mmu.h, memlayout.h *)

Definition PGSIZE : Z := 4096.
#[global] Arguments PGSIZE : simpl never.
Definition EXTMEM : Z := 0x100000.
Definition PHYSTOP : Z := 0xE000000.
Definition DEVSPACE : Z := 0xFE000000.
Definition KERNBASE : Z := 0x80000000.
Definition KERNLINK : Z := KERNBASE + EXTMEM.
Definition V2P (a : Z) : Z := u32 (a - KERNBASE).
Definition P2V (a : Z) : Z := u32 (a + KERNBASE).
Definition PGROUNDUP (sz : Z) : Z := Z.land (u32 (sz + PGSIZE - 1)) (u32 (Z.lnot (PGSIZE - 1))).
Definition PGROUNDDOWN (a : Z) : Z := Z.land a (u32 (Z.lnot (PGSIZE - 1))).

(** The addresses that kernel.ld gives to the symbols data and end: data is
    page aligned, and the image lies in the 4MB that entrypgdir (main.c) maps. *)
Class KernelImage : Type := {
  kdata : Z;
  kend : Z;
  kdata_aligned : kdata mod PGSIZE = 0;
  kdata_range : KERNLINK < kdata <= kend;
  kend_range : kend <= P2V (4 * 1024 * 1024);
}.

(** ** kmem and memory *)

Record mem := mkmem {
  km_lock : bool;
  use_lock : bool;
  freelist : Z;
  ram : gmap Z (list Z);
}.

Definition set_km_lock v (s : mem) := mkmem v (use_lock s) (freelist s) (ram s).
Definition set_use_lock v (s : mem) := mkmem (km_lock s) v (freelist s) (ram s).
Definition set_freelist v (s : mem) := mkmem (km_lock s) (use_lock s) v (ram s).
Definition set_ram v (s : mem) := mkmem (km_lock s) (use_lock s) (freelist s) v.

(** The bytes of the page at [v], which must be memory. *)
Definition get_page (v : Z) : M mem (list Z) := fun s => from_some (ram s !! v) s.
Definition put_page (v : Z) (d : list Z) : M mem unit :=
  let* _ := get_page v in
  modify (fun s => set_ram (<[v := d]> (ram s)) s).

(** memset(v, c, PGSIZE) on a whole page *)
Definition memset_page (v c : Z) : M mem unit := put_page v (replicate (Z.to_nat PGSIZE) (u8 c)).

(** Loads and stores of aligned words. *)
Definition load32 (a : Z) : M mem Z :=
  let* d := get_page (PGROUNDDOWN a) in
  ret (get_u32 (Z.to_nat (a mod PGSIZE)) d).
Definition store32 (a x : Z) : M mem unit :=
  let* d := get_page (PGROUNDDOWN a) in
  put_page (PGROUNDDOWN a) (put_u32 (Z.to_nat (a mod PGSIZE)) x d).

Section kalloc.
Context `{KernelImage}.

Definition km_acquire : M mem unit :=
  let* u := gets use_lock in
  if u then acquire km_lock set_km_lock else ret tt.
Definition km_release : M mem unit :=
  let* u := gets use_lock in
  if u then release km_lock set_km_lock else ret tt.

Definition kfree (v : Z) : M mem unit :=
  panic_if (negb (v mod PGSIZE =? 0) || (v <? kend) || (PHYSTOP <=? V2P v)) "kfree" ;;;
  memset_page v 1 ;;;
  km_acquire ;;;
  let* next := gets freelist in
  store32 v next ;;;
  modify (set_freelist v) ;;;
  km_release.

(** Returns 0 if the memory cannot be allocated. *)
Definition kalloc : M mem Z :=
  km_acquire ;;;
  let* r := gets freelist in
  (if r =? 0 then ret tt
   else
     let* next := load32 r in
     modify (set_freelist next)) ;;;
  km_release ;;;
  ret r.

(** The pages p with p + PGSIZE <= vend, from the first one at or above vstart. *)
Fixpoint freerange_loop (fuel : nat) (p vend : Z) : M mem unit :=
  if p + PGSIZE <=? vend then
    match fuel with
    | O => nofuel
    | S fuel =>
        kfree p ;;;
        freerange_loop fuel (p + PGSIZE) vend
    end
  else ret tt.

Definition freerange (vstart vend : Z) : M mem unit :=
  freerange_loop (Z.to_nat (vend / PGSIZE)) (PGROUNDUP vstart) vend.

Definition kinit1 (vstart vend : Z) : M mem unit :=
  modify (set_km_lock false) ;;;
  modify (set_use_lock false) ;;;
  freerange vstart vend.

Definition kinit2 (vstart vend : Z) : M mem unit :=
  freerange vstart vend ;;;
  modify (set_use_lock true).

End kalloc.

(** ** Rounding *)

Lemma land_pages a : is_u32 a -> Z.land a (u32 (Z.lnot (PGSIZE - 1))) = a - a mod PGSIZE.
Proof.
  intros Ha. change (u32 (Z.lnot (PGSIZE - 1))) with (Z.ldiff (Z.ones 32) (Z.ones 12)).
  assert (Z.land a (Z.ldiff (Z.ones 32) (Z.ones 12)) = Z.ldiff (Z.land a (Z.ones 32)) (Z.ones 12)) as ->.
  { apply Z.bits_inj'. intros n Hn. by rewrite !Z.ldiff_spec, !Z.land_spec, !Z.ldiff_spec, andb_assoc. }
  rewrite Z.land_ones, Z.ldiff_ones_r, Z.shiftl_mul_pow2, Z.shiftr_div_pow2 by lia.
  rewrite (Z.mod_small a) by exact Ha. change (2 ^ 12) with PGSIZE.
  pose proof (Z.div_mod a PGSIZE ltac:(done)). lia.
Qed.

Lemma PGROUNDDOWN_eq a : is_u32 a -> PGROUNDDOWN a = a - a mod PGSIZE.
Proof. apply land_pages. Qed.

Lemma PGROUNDDOWN_aligned a : is_u32 a -> a mod PGSIZE = 0 -> PGROUNDDOWN a = a.
Proof. intros Ha Hm. rewrite PGROUNDDOWN_eq, Hm by done. lia. Qed.

Lemma PGROUNDUP_eq a :
  0 <= a -> a + PGSIZE - 1 < W32 -> PGROUNDUP a = (a + PGSIZE - 1) / PGSIZE * PGSIZE.
Proof.
  intros ??. unfold PGROUNDUP. rewrite u32_small by (unfold is_u32, PGSIZE in *; lia).
  rewrite land_pages by (unfold is_u32, PGSIZE in *; lia).
  pose proof (Z.div_mod (a + PGSIZE - 1) PGSIZE ltac:(done)). lia.
Qed.

(** ** Representation: the frames that the list at [freelist] links together *)

Section rep.
Context `{KernelImage}.

Definition frame (v : Z) : Prop := v mod PGSIZE = 0 /\ kend <= v < KERNBASE + PHYSTOP.

#[global] Instance frame_dec v : Decision (frame v).
Proof. unfold frame. apply _. Defined.

Fixpoint chain (m : gmap Z (list Z)) (v : Z) (l : list Z) : Prop :=
  match l with
  | [] => v = 0
  | p :: l => v = p /\ exists d, m !! p = Some d /\ chain m (get_u32 0 d) l
  end.

(** Every frame is memory, and holds a page of bytes. *)
Definition ram_ok (m : gmap Z (list Z)) : Prop :=
  forall v, frame v -> exists d, m !! v = Some d /\ length d = Z.to_nat PGSIZE /\ bytes_ok d.

Record kmem_at (free : list Z) (s : mem) : Prop := {
  ka_lock : km_lock s = false;
  ka_chain : chain (ram s) (freelist s) free;
  ka_nodup : NoDup free;
  ka_frames : Forall frame free;
  ka_ram : ram_ok (ram s);
}.

Lemma frame_pos v : frame v -> KERNLINK < v < W32.
Proof.
  intros [_ Hv]. pose proof kdata_range. pose proof kend_range.
  change (P2V (4 * 1024 * 1024)) with 0x80400000 in *.
  unfold KERNLINK, KERNBASE, EXTMEM, PHYSTOP, W32 in *. lia.
Qed.

Lemma frame_u32 v : frame v -> is_u32 v.
Proof. intros Hv%frame_pos. unfold is_u32, KERNLINK, KERNBASE, EXTMEM in *. lia. Qed.

Lemma frame_V2P v : frame v -> V2P v = v - KERNBASE.
Proof.
  intros Hv%frame_pos. unfold V2P. apply u32_small.
  unfold is_u32, KERNLINK, KERNBASE, EXTMEM in *. lia.
Qed.

Lemma frame_P2V v : frame v -> P2V (V2P v) = v.
Proof. intros Hv. rewrite frame_V2P by done. unfold P2V. rewrite Z.sub_add. by apply u32_small, frame_u32. Qed.

Lemma frame_down v : frame v -> PGROUNDDOWN v = v.
Proof. intros Hv. apply PGROUNDDOWN_aligned; [by apply frame_u32|apply Hv]. Qed.

Lemma kfree_test v :
  frame v -> negb (v mod PGSIZE =? 0) || (v <? kend) || (PHYSTOP <=? V2P v) = false.
Proof.
  intros Hv. rewrite frame_V2P by done. destruct Hv as [Ha Hv]. rewrite Ha. simpl.
  apply orb_false_iff. rewrite Z.ltb_ge, Z.leb_gt. unfold KERNBASE in *. lia.
Qed.

Lemma chain_insert m v l p d : p ∉ l -> chain m v l -> chain (<[p := d]> m) v l.
Proof.
  revert v. induction l as [|q l IH]; intros v Hp; [done|]. cbn [chain].
  intros (->&d'&Hd&Hc). apply not_elem_of_cons in Hp as [Hne Hp].
  split; [done|]. exists d'. split; [by rewrite lookup_insert_ne|]. by apply IH.
Qed.

Lemma ram_ok_insert m v d :
  ram_ok m -> length d = Z.to_nat PGSIZE -> bytes_ok d -> ram_ok (<[v := d]> m).
Proof.
  intros Hm Hl Hb w Hw. destruct (decide (v = w)) as [->|Hne].
  - rewrite lookup_insert_eq. eauto.
  - rewrite lookup_insert_ne by done. by apply Hm.
Qed.

(** ** Contracts *)

Lemma wp_get_page v d Q s : ram s !! v = Some d -> Q d s -> wp (get_page v) Q s.
Proof. intros Hd HQ. unfold wp, get_page. by rewrite Hd. Qed.

Lemma wp_put_page v d0 d Q s :
  ram s !! v = Some d0 -> Q tt (set_ram (<[v := d]> (ram s)) s) -> wp (put_page v d) Q s.
Proof. intros Hd HQ. apply wp_bind. eapply wp_get_page; [done|]. by apply wp_modify. Qed.

Lemma wp_km_acquire Q s :
  km_lock s = false -> Q tt (set_km_lock (use_lock s) s) -> wp km_acquire Q s.
Proof.
  destruct s as [l u f m]; cbn. intros -> HQ. unfold wp, km_acquire, bind, gets; cbn.
  by destruct u.
Qed.

Lemma wp_km_release Q s :
  km_lock s = use_lock s -> Q tt (set_km_lock false s) -> wp km_release Q s.
Proof.
  destruct s as [l u f m]; cbn. intros -> HQ. unfold wp, km_release, bind, gets; cbn.
  by destruct u.
Qed.

Lemma wp_kalloc free Q s :
  kmem_at free s ->
  (forall s', kmem_at (tail free) s' -> ram s' = ram s -> use_lock s' = use_lock s ->
     Q (default 0 (head free)) s') ->
  wp kalloc Q s.
Proof.
  intros [Hlk Hch Hnd Hfr Hram] HQ. unfold kalloc.
  apply wp_bind, wp_km_acquire; [done|]. apply wp_bind, wp_gets. cbn [freelist set_km_lock].
  destruct free as [|p free]; cbn [chain] in Hch.
  - rewrite Hch. change (0 =? 0) with true. cbv iota. apply wp_bind, wp_ret.
    apply wp_bind, wp_km_release; [done|]. apply wp_ret. apply HQ; [|done..].
    by constructor.
  - destruct Hch as (Hp&d&Hd&Hch). rewrite Hp.
    apply NoDup_cons in Hnd as [Hnin Hnd]. inversion_clear Hfr as [|?? Hpf Hfr'].
    pose proof (frame_pos p Hpf) as Hpos. rewrite (proj2 (Z.eqb_neq p 0)) by (unfold KERNLINK, KERNBASE, EXTMEM in *; lia).
    apply wp_bind, wp_bind. unfold load32. rewrite frame_down by done. destruct Hpf as [Hal _].
    rewrite Hal. apply wp_bind. eapply wp_get_page; [exact Hd|]. apply wp_ret, wp_modify.
    apply wp_bind, wp_km_release; [done|]. apply wp_ret. apply HQ; [|done..].
    by constructor.
Qed.

Lemma wp_kfree v free Q s :
  kmem_at free s -> frame v -> v ∉ free ->
  (forall s', kmem_at (v :: free) s' -> (forall w, w <> v -> ram s' !! w = ram s !! w) ->
     use_lock s' = use_lock s -> Q tt s') ->
  wp (kfree v) Q s.
Proof.
  intros [Hlk Hch Hnd Hfr Hram] Hv Hnin HQ. unfold kfree.
  apply wp_bind, wp_panic_if; [by apply kfree_test|].
  destruct (Hram v Hv) as (d0&Hd0&Hlen0&Hb0).
  apply wp_bind. eapply wp_put_page; [exact Hd0|].
  apply wp_bind, wp_km_acquire; [done|]. apply wp_bind, wp_gets. apply wp_bind.
  unfold store32. rewrite frame_down by done. rewrite (proj1 Hv).
  apply wp_bind. eapply wp_get_page; [by apply lookup_insert_eq|].
  eapply wp_put_page; [by apply lookup_insert_eq|].
  apply wp_bind, wp_modify. apply wp_km_release; [done|].
  cbn [ram set_ram set_km_lock set_freelist freelist km_lock use_lock]. rewrite insert_insert_eq.
  set (pg := put_le 4 _ _ _).
  assert (length pg = Z.to_nat PGSIZE) as Hlen.
  { unfold pg. rewrite length_put_le; rewrite length_replicate; [done|]. vm_compute. lia. }
  assert (bytes_ok pg) as Hb.
  { apply put_le_bytes_ok, Forall_replicate. unfold byte_ok. vm_compute. split; congruence. }
  assert (get_u32 0 pg = freelist s) as Hnext.
  { unfold pg. change (Z.to_nat 0) with 0%nat.
    rewrite get_put_le by (rewrite length_replicate; vm_compute; lia).
    change (256 ^ Z.of_nat 4) with W32. apply Z.mod_small.
    destruct free as [|q free]; cbn [chain] in Hch; [by rewrite Hch|].
    destruct Hch as [-> _]. apply frame_u32. by inversion Hfr. }
  apply HQ; cbn; [|intros w Hw; by rewrite lookup_insert_ne|done].
  constructor; cbn; [done| |by constructor|by constructor|by apply ram_ok_insert].
  split; [done|]. exists pg. split; [by rewrite lookup_insert_eq|].
  rewrite Hnext. by apply chain_insert.
Qed.

(** Freeing an address that is not a page of the allocator panics. *)
Lemma kfree_panics v s : is_u32 v -> ~ frame v -> panics (kfree v) "kfree" s.
Proof.
  intros Hv Hn. apply panics_here, panics_if. unfold frame in Hn.
  destruct (Z.eqb_spec (v mod PGSIZE) 0) as [Ha|]; [|done]. simpl. apply orb_true_iff.
  destruct (Z.ltb_spec v kend) as [|Hge]; [by left|]. right. apply Z.leb_le.
  pose proof kdata_range. unfold V2P, is_u32 in *.
  rewrite u32_small; unfold is_u32, KERNLINK, KERNBASE, PHYSTOP, EXTMEM in *; lia.
Qed.

(** The frames from [p] up to [vend]. *)
Definition frames_from (p : Z) (n : nat) : list Z := (fun k => p + PGSIZE * Z.of_nat k) <$> seq 0 n.

Lemma frames_from_S p n : frames_from p (S n) = p :: frames_from (p + PGSIZE) n.
Proof.
  unfold frames_from. cbn [seq fmap list_fmap]. rewrite Z.mul_0_r, Z.add_0_r. f_equal.
  rewrite <- fmap_S_seq, <- list_fmap_compose. apply list_fmap_ext. intros _ k _. simpl. lia.
Qed.

Lemma wp_freerange_loop n : forall fuel p vend free s Q,
  (n <= fuel)%nat -> p + PGSIZE * Z.of_nat n <= vend < p + PGSIZE * Z.of_nat n + PGSIZE ->
  kmem_at free s -> p mod PGSIZE = 0 -> kend <= p -> vend <= KERNBASE + PHYSTOP ->
  (forall w, w ∈ free -> w < p \/ vend <= w) ->
  (forall s', kmem_at (reverse (frames_from p n) ++ free) s' -> use_lock s' = use_lock s -> Q tt s') ->
  wp (freerange_loop fuel p vend) Q s.
Proof.
  induction n as [|n IH]; intros fuel p vend free s Q Hf Hn Hk Hal Hp Hend Hfree HQ.
  - assert ((p + PGSIZE <=? vend) = false) as Hc by (apply Z.leb_gt; lia).
    destruct fuel; cbn [freerange_loop]; rewrite Hc; by apply wp_ret, HQ.
  - destruct fuel as [|fuel]; [lia|]. cbn [freerange_loop].
    rewrite (proj2 (Z.leb_le _ _)) by (unfold PGSIZE in *; lia). apply wp_bind.
    assert (frame p) as Hpf by (split; [done|unfold PGSIZE in *; lia]).
    eapply wp_kfree; [done..| |].
    { intros Hin. destruct (Hfree p Hin); unfold PGSIZE in *; lia. }
    intros s' Hk' _ Hu. eapply (IH _ _ _ (p :: free)); [lia|unfold PGSIZE in *; lia|done| | |done| |].
    + by rewrite <- (Z.mod_add p 1 PGSIZE), Z.mul_1_l in Hal.
    + unfold PGSIZE in *; lia.
    + intros w [->|Hw]%elem_of_cons; [unfold PGSIZE; lia|].
      destruct (Hfree w Hw); unfold PGSIZE in *; lia.
    + intros s'' Hk'' Hu'. apply HQ; [|congruence]. rewrite frames_from_S, reverse_cons.
      by rewrite <- app_assoc.
Qed.

(** ** The allocator from boot on *)

Definition PGMID : Z := P2V (4 * 1024 * 1024).

(** The calls that main() makes. *)
Definition kinit : M mem unit := kinit1 kend PGMID ;;; kinit2 PGMID (P2V PHYSTOP).

(** The states that boot, kalloc() and kfree() lead to when nobody frees a
    page that is not allocated; [owned] are the pages allocated. *)
Inductive reachable : mem -> gset Z -> Prop :=
  | reach_boot s0 s :
      freelist s0 = 0 -> ram_ok (ram s0) -> kinit s0 = Ok tt s -> reachable s ∅
  | reach_kalloc s owned r s' :
      reachable s owned -> kalloc s = Ok r s' -> r <> 0 -> reachable s' ({[r]} ∪ owned)
  | reach_kalloc_null s owned s' :
      reachable s owned -> kalloc s = Ok 0 s' -> reachable s' owned
  | reach_kfree s owned v s' :
      reachable s owned -> v ∈ owned -> kfree v s = Ok tt s' -> reachable s' (owned ∖ {[v]})
  | reach_store s owned v d :
      reachable s owned -> v ∈ owned -> length d = Z.to_nat PGSIZE -> bytes_ok d ->
      reachable (set_ram (<[v := d]> (ram s)) s) owned.

(** Every frame is either free, once, or owned. *)
Definition accounted (s : mem) (owned : gset Z) : Prop :=
  exists free, kmem_at free s /\ (forall v, frame v <-> v ∈ free \/ v ∈ owned) /\
    (forall v, v ∈ free -> v ∉ owned).

Lemma elem_of_frames_from v p n :
  v ∈ frames_from p n <-> exists k, v = p + PGSIZE * Z.of_nat k /\ (k < n)%nat.
Proof.
  unfold frames_from. rewrite list_elem_of_fmap. split; intros (k&->&Hk).
  - exists k. rewrite elem_of_seq in Hk. split; [done|lia].
  - exists k. rewrite elem_of_seq. split; [done|lia].
Qed.

Lemma frames_between p n v :
  p mod PGSIZE = 0 ->
  (v ∈ frames_from p n) <-> v mod PGSIZE = 0 /\ p <= v < p + PGSIZE * Z.of_nat n.
Proof.
  intros Hp. rewrite elem_of_frames_from. split.
  - intros (k&->&Hk). rewrite Z.mul_comm, Z.mod_add by done. unfold PGSIZE in *. lia.
  - intros [Hv Hr]. exists (Z.to_nat ((v - p) / PGSIZE)). unfold PGSIZE in *.
    apply Z.mod_divide in Hp as [a ->]; [|done]. apply Z.mod_divide in Hv as [b ->]; [|done].
    rewrite <- Z.mul_sub_distr_r, Z.div_mul by done. lia.
Qed.

Lemma wp_freerange vstart vend free s Q :
  kmem_at free s -> kend <= vstart <= vend -> vend <= KERNBASE + PHYSTOP -> vend mod PGSIZE = 0 ->
  (forall w, w ∈ free -> w < vstart) ->
  (forall free' s', kmem_at free' s' -> use_lock s' = use_lock s ->
     (forall v, v ∈ free' <-> v ∈ free \/ (v mod PGSIZE = 0 /\ vstart <= v < vend)) -> Q tt s') ->
  wp (freerange vstart vend) Q s.
Proof.
  intros Hk Hs Hend Hal Hfree HQ. unfold freerange. pose proof kdata_range.
  rewrite PGROUNDUP_eq by (unfold W32, PGSIZE, KERNLINK, KERNBASE, PHYSTOP, EXTMEM in *; lia).
  apply Z.mod_divide in Hal as [e ->]; [|done]. rewrite Z.div_mul by done.
  set (b := (vstart + PGSIZE - 1) / PGSIZE).
  assert (PGSIZE * b <= vstart + PGSIZE - 1 < PGSIZE * b + PGSIZE) as Hb.
  { pose proof (Z.div_mod (vstart + PGSIZE - 1) PGSIZE ltac:(done)).
    pose proof (Z.mod_pos_bound (vstart + PGSIZE - 1) PGSIZE ltac:(done)). subst b. lia. }
  clearbody b. unfold PGSIZE, KERNLINK, KERNBASE, PHYSTOP, EXTMEM in *.
  eapply (wp_freerange_loop (Z.to_nat (e - b))); [| |done|by rewrite Z.mod_mul| |done| |].
  - lia.
  - unfold PGSIZE. lia.
  - lia.
  - intros w Hw%Hfree. left. lia.
  - intros s' Hk' Hu. eapply HQ; [done|done|]. intros v. rewrite elem_of_app, elem_of_reverse.
    rewrite frames_between by (by rewrite Z.mod_mul). unfold PGSIZE.
    split; [intros [Hv|Hv]; [right|by left]|intros [Hv|Hv]; [by right|left]].
    + destruct Hv; split; [done|lia].
    + destruct Hv as [Hv ?]. split; [done|]. apply Z.mod_divide in Hv as [c ->]; lia.
Qed.

Lemma wp_kinit s :
  freelist s = 0 -> ram_ok (ram s) ->
  wp kinit (fun _ s' => accounted s' ∅ /\ use_lock s' = true) s.
Proof.
  intros Hf Hram. pose proof kend_range as Hmid. fold PGMID in Hmid.
  unfold kinit. apply wp_bind. unfold kinit1.
  do 2 apply wp_bind, wp_modify. eapply (wp_freerange _ _ []); [|done|done|done| |].
  - constructor; cbn; [done|done|constructor|constructor|done].
  - by intros w []%not_elem_of_nil.
  - intros f1 s1 Hk1 _ Hf1. unfold kinit2. apply wp_bind.
    eapply wp_freerange; [done| |done|done| |].
    + split; [done|]. vm_compute. congruence.
    + intros w [Hw|Hw]%Hf1; [by apply not_elem_of_nil in Hw|lia].
    + intros f2 s2 Hk2 _ Hf2. apply wp_modify. split; [|done].
      exists f2. split; [by destruct Hk2; constructor|]. split; [|set_solver].
      intros v. rewrite Hf2, Hf1. change (P2V PHYSTOP) with (KERNBASE + PHYSTOP). unfold frame.
      assert (PGMID < KERNBASE + PHYSTOP) by done. split.
      * intros [Ha Hr]. left. destruct (decide (v < PGMID)); [left; right|right]; split; try done; lia.
      * intros [[[Hv|Hv]|Hv]|Hv]; [by apply not_elem_of_nil in Hv| | |set_solver];
          destruct Hv; split; try done; lia.
Qed.

Lemma kmem_at_store free v d s :
  kmem_at free s -> v ∉ free -> length d = Z.to_nat PGSIZE -> bytes_ok d ->
  kmem_at free (set_ram (<[v := d]> (ram s)) s).
Proof.
  intros [] Hv Hl Hb. constructor; cbn; [done|by apply chain_insert|done|done|by apply ram_ok_insert].
Qed.

Lemma kalloc_accounted s owned :
  accounted s owned ->
  wp kalloc (fun r s' =>
    (r = 0 /\ accounted s' owned /\ forall v, frame v -> v ∈ owned) \/
    (frame r /\ (r ∉ owned) /\ accounted s' ({[r]} ∪ owned))) s.
Proof.
  intros (free&Hk&Hall&Hd). eapply wp_kalloc; [done|]. intros s' Hk' _ _.
  destruct free as [|r free]; cbn [head tail default] in *.
  - left. split; [done|]. split; [by exists []|]. intros v Hv. apply Hall in Hv. set_solver.
  - right. pose proof (ka_nodup _ _ Hk) as [Hnin _]%NoDup_cons.
    pose proof (ka_frames _ _ Hk) as Hfr. inversion Hfr as [|?? Hr Hfr']; subst.
    split; [done|]. split; [apply Hd; set_solver|]. exists free. split; [done|]. split.
    + intros v. rewrite (Hall v). set_solver.
    + intros v Hv. assert (v <> r) by (by intros ->). assert (v ∉ owned) by (apply Hd; set_solver).
      set_solver.
Qed.

Lemma kfree_accounted s owned v :
  accounted s owned -> v ∈ owned -> wp (kfree v) (fun _ s' => accounted s' (owned ∖ {[v]})) s.
Proof.
  intros (free&Hk&Hall&Hd) Hv. assert (v ∉ free) as Hnin by (intros Hin; by apply (Hd v)).
  eapply wp_kfree; [done|apply Hall; by right|done|]. intros s' Hk' _ _. exists (v :: free).
  split; [done|]. split.
  - intros w. rewrite (Hall w). destruct (decide (w = v)) as [->|]; set_solver.
  - intros w. rewrite elem_of_cons, elem_of_difference, elem_of_singleton.
    intros [->|Hw]; [tauto|]. specialize (Hd w Hw). tauto.
Qed.

Lemma reachable_accounted s owned : reachable s owned -> accounted s owned.
Proof.
  induction 1 as [s0 s Hf Hram E|s owned r s' Hr IH E Hnz|s owned s' Hr IH E|s owned v s' Hr IH Hv E
                 |s owned v d Hr IH Hv Hl Hb].
  - pose proof (wp_kinit s0 Hf Hram) as Hw. unfold wp in Hw. rewrite E in Hw. apply Hw.
  - pose proof (kalloc_accounted s owned IH) as Hw. unfold wp in Hw. rewrite E in Hw. naive_solver.
  - pose proof (kalloc_accounted s owned IH) as Hw. unfold wp in Hw. rewrite E in Hw.
    destruct Hw as [(_&Ha&_)|([_ Hf]&_)]; [done|].
    pose proof kdata_range. unfold KERNLINK, KERNBASE, EXTMEM in *. lia.
  - pose proof (kfree_accounted s owned v IH Hv) as Hw. unfold wp in Hw. by rewrite E in Hw.
  - destruct IH as (free&Hk&Hall&Hd). exists free. split; [|done].
    apply kmem_at_store; [done| |done|done]. intros Hin. by apply (Hd v).
Qed.

(** C10: after boot, and whatever sequence of kalloc() and kfree() calls and of
    stores into allocated pages follows, kalloc() returns a page of memory
    that nobody owns, or 0 exactly when every page is owned; and freeing any
    owned page succeeds. *)
Theorem kalloc_exclusive s owned :
  reachable s owned ->
  wp kalloc (fun r _ => if decide (r = 0) then forall v, frame v -> v ∈ owned
                        else frame r /\ r ∉ owned) s /\
  (forall v, v ∈ owned -> wp (kfree v) (fun _ s' => reachable s' (owned ∖ {[v]})) s).
Proof.
  intros Hr. pose proof (reachable_accounted s owned Hr) as Ha. split.
  - eapply wp_mono; [by apply kalloc_accounted|]. intros r s' [(->&_&Hall)|(Hf&Hn&_)]; [done|].
    rewrite decide_False; [done|]. intros ->. destruct Hf as [_ Hf].
    pose proof kdata_range. unfold KERNLINK, KERNBASE, EXTMEM in *. lia.
  - intros v Hv. pose proof (kfree_accounted s owned v Ha Hv) as (u&s'&E&_)%wp_elim.
    destruct u. eapply wp_intro; [exact E|]. by eapply reach_kfree.
Qed.

End rep.

(** ** A concrete machine

    The kernel image ends at 2MB; every page above it is filled with zeros. *)
Module Machine.

#[global] Program Instance image : KernelImage := {|
  kdata := 0x80110000;
  kend := 0x80200000;
|}.
Next Obligation. reflexivity. Qed.
Next Obligation. split; [reflexivity|discriminate]. Qed.
Next Obligation. discriminate. Qed.

Definition zeros : list Z := replicate (Z.to_nat PGSIZE) 0.
Definition ram0 : gmap Z (list Z) :=
  list_to_map ((fun v => (v, zeros)) <$> frames_from 0x80200000 (Z.to_nat 56832)).
Definition boot0 : mem := mkmem false false 0 ram0.

Lemma zeros_ok : length zeros = Z.to_nat PGSIZE /\ bytes_ok zeros.
Proof.
  split; [apply length_replicate|]. apply Forall_replicate. unfold byte_ok. lia.
Qed.

Lemma ram0_lookup v : frame v -> ram0 !! v = Some zeros.
Proof.
  intros [Ha Hv]. unfold ram0. apply elem_of_list_to_map_1.
  - rewrite <- list_fmap_compose. apply (NoDup_fmap_2 _), NoDup_fmap_2_strong, NoDup_seq.
    intros x y _ _. unfold PGSIZE. lia.
  - apply list_elem_of_fmap. exists v. split; [done|]. apply frames_between; [done|].
    split; [done|]. change (kend <= v < KERNBASE + PHYSTOP) in Hv.
    change kend with 0x80200000 in Hv. unfold KERNBASE, PHYSTOP, PGSIZE in *. lia.
Qed.

Lemma ram0_ok : ram_ok ram0.
Proof. intros v Hv. exists zeros. split; [by apply ram0_lookup|apply zeros_ok]. Qed.

#[global] Opaque ram0.

Lemma kalloc_exclusive_witness :
  exists s, reachable s ∅ /\
  wp kalloc (fun r _ => if decide (r = 0) then forall v, frame v -> v ∈ (∅ : gset Z)
                        else frame r /\ r ∉ (∅ : gset Z)) s.
Proof.
  destruct (wp_elim _ _ _ (wp_kinit boot0 eq_refl ram0_ok)) as ([]&s&E&_).
  exists s. assert (reachable s ∅) as Hr by (by eapply reach_boot; [..|exact E]; [|apply ram0_ok]).
  split; [exact Hr|]. exact (proj1 (kalloc_exclusive s ∅ Hr)).
Defined.

End Machine.
