(* ===== verification/Mp.v ===== *)
(** mp.c: the search for the tables in which the BIOS describes the processors,
    and mpinit(), which reads them.

    The memory at the kernel's addresses is [mem], a byte at each address; the
    code only reads it.  The state is cpus[i].apicid, ncpu, ioapicid and lapic,
    and the bytes sent to I/O ports. *)

From S2P Require Import Prelude Params Bytes CString Kalloc.

(** ** mp.h *)

Definition sizeof_mp : Z := 16.
Definition sizeof_mpconf : Z := 44.
Definition sizeof_mpproc : Z := 20.
Definition sizeof_mpioapic : Z := 8.

Definition MPPROC : Z := 0x00.
Definition MPBUS : Z := 0x01.
Definition MPIOAPIC : Z := 0x02.
Definition MPIOINTR : Z := 0x03.
Definition MPLINTR : Z := 0x04.

(** "_MP_" and "PCMP" *)
Definition MP_SIGNATURE : list Z := [95; 77; 80; 95].
Definition PCMP_SIGNATURE : list Z := [80; 67; 77; 80].

Record mpst := mkmp {
  apicids : list Z;            (* cpus[i].apicid *)
  ncpu : Z;
  ioapicid : Z;
  lapic : Z;
  ports : list (Z * Z);
}.

Definition set_apicids v s := mkmp v (ncpu s) (ioapicid s) (lapic s) (ports s).
Definition set_ncpu v s := mkmp (apicids s) v (ioapicid s) (lapic s) (ports s).
Definition set_ioapicid v s := mkmp (apicids s) (ncpu s) v (lapic s) (ports s).
Definition set_lapic v s := mkmp (apicids s) (ncpu s) (ioapicid s) v (ports s).
Definition set_ports v s := mkmp (apicids s) (ncpu s) (ioapicid s) (lapic s) v.

Section mp.
Context (mem : Z -> Z).

(** What inb(0x23) returns *)
Context (imcr : Z).

Definition at_ (a : Z) : cptr := fun i => mem (u32 (a + Z.of_nat i)).
Definition ld (n : nat) (a : Z) : Z := of_le ((fun i => mem (u32 (a + Z.of_nat i))) <$> seq 0 n).

(** ** Searching *)

Fixpoint sum_loop (addr : Z) (len : nat) (sum : Z) : Z :=
  match len with
  | O => sum
  | S len => sum_loop (u32 (addr + 1)) len (sum + mem addr)
  end.
Definition sum (addr len : Z) : Z := u8 (sum_loop addr (Z.to_nat len) 0).

Definition is_mp (p : Z) : bool := (memcmp (at_ p) (ptr_to MP_SIGNATURE) 4 =? 0) && (sum p sizeof_mp =? 0).

Fixpoint mpsearch1_loop (fuel : nat) (p e : Z) : M mpst Z :=
  if p <? e then
    match fuel with
    | O => nofuel
    | S fuel => if is_mp p then ret p else mpsearch1_loop fuel (u32 (p + sizeof_mp)) e
    end
  else ret 0.

Definition mpsearch1 (a len : Z) : M mpst Z :=
  let addr := P2V a in
  let e := u32 (addr + len) in
  mpsearch1_loop (Z.to_nat (len / sizeof_mp + 1)) addr e.

Definition mpsearch : M mpst Z :=
  let bda := P2V 0x400 in
  let p := Z.shiftl (Z.lor (Z.shiftl (mem (bda + 0x0F)) 8) (mem (bda + 0x0E))) 4 in
  let* mp := (if negb (p =? 0) then mpsearch1 p 1024
              else
                let p := Z.lor (Z.shiftl (mem (bda + 0x14)) 8) (mem (bda + 0x13)) * 1024 in
                mpsearch1 (u32 (p - 1024)) 1024) in
  if negb (mp =? 0) then ret mp else mpsearch1 0xF0000 0x10000.

(** The tables of struct mp and struct mpconf, or a null pointer *)
Definition mpconfig : M mpst (Z * Z) :=
  let* mp := mpsearch in
  if (mp =? 0) || (ld 4 (mp + 4) =? 0) then ret (0, 0)
  else
    let conf := P2V (ld 4 (mp + 4)) in
    if negb (memcmp (at_ conf) (ptr_to PCMP_SIGNATURE) 4 =? 0) then ret (0, 0)
    else if negb (ld 1 (conf + 6) =? 1) && negb (ld 1 (conf + 6) =? 4) then ret (0, 0)
    else if negb (sum conf (ld 2 (conf + 4)) =? 0) then ret (0, 0)
    else ret (mp, conf).

(** ** The entries of the table *)

Definition outb (port v : Z) : M mpst unit :=
  let* s := gets ports in
  modify (set_ports (s ++ [(port, u8 v)])).

Definition add_cpu (apicid : Z) : M mpst unit :=
  let* n := gets ncpu in
  if n <? Z.of_nat NCPU then
    let* l := gets apicids in
    modify (set_apicids (<[Z.to_nat n := apicid]> l)) ;;;
    modify (set_ncpu (n + 1))
  else ret tt.

(** The break of the default case leaves the switch, not the loop. *)
Fixpoint mpinit_loop (fuel : nat) (p e : Z) (ismp : bool) : M mpst bool :=
  if p <? e then
    match fuel with
    | O => nofuel
    | S fuel =>
        let ty := ld 1 p in
        if ty =? MPPROC then
          add_cpu (ld 1 (p + 1)) ;;;
          mpinit_loop fuel (u32 (p + sizeof_mpproc)) e ismp
        else if ty =? MPIOAPIC then
          modify (set_ioapicid (ld 1 (p + 1))) ;;;
          mpinit_loop fuel (u32 (p + sizeof_mpioapic)) e ismp
        else if (ty =? MPBUS) || (ty =? MPIOINTR) || (ty =? MPLINTR) then
          mpinit_loop fuel (u32 (p + 8)) e ismp
        else mpinit_loop fuel p e false
    end
  else ret ismp.

Definition mpinit (fuel : nat) : M mpst unit :=
  let* '(mp, conf) := mpconfig in
  panic_if (conf =? 0) "Expect to run on an SMP" ;;;
  modify (set_lapic (ld 4 (conf + 36))) ;;;
  let* ismp := mpinit_loop fuel (u32 (conf + sizeof_mpconf)) (u32 (conf + ld 2 (conf + 4))) true in
  panic_if (negb ismp) "Didn't find a suitable machine" ;;;
  if negb (ld 1 (mp + 12) =? 0) then
    outb 0x22 0x70 ;;;
    outb 0x23 (Z.lor imcr 1)
  else ret tt.

(** ** The search finds the first structure *)

Definition candidates (a len : Z) : list Z := (fun i => a + sizeof_mp * Z.of_nat i) <$> seq 0 (Z.to_nat (len / sizeof_mp)).

(** The places where the code looks, in its order *)
Definition mp_places : list Z :=
  let bda := P2V 0x400 in
  let p := Z.shiftl (Z.lor (Z.shiftl (mem (bda + 0x0F)) 8) (mem (bda + 0x0E))) 4 in
  (if negb (p =? 0) then candidates (P2V p) 1024
   else candidates (P2V (u32 (Z.lor (Z.shiftl (mem (bda + 0x14)) 8) (mem (bda + 0x13)) * 1024 - 1024))) 1024) ++
  candidates (P2V 0xF0000) 0x10000.


Lemma mpsearch1_loop_find n : forall p e fuel s,
  0 < p -> e = p + sizeof_mp * Z.of_nat n -> e < 2 ^ 32 -> (n <= fuel)%nat ->
  mpsearch1_loop fuel p e s = Ok (default 0 (List.find is_mp ((fun i => p + sizeof_mp * Z.of_nat i) <$> seq 0 n))) s.
Proof.
  unfold sizeof_mp. induction n as [|n IH]; intros p e fuel s Hp He Hw Hf.
  - destruct fuel; cbn [mpsearch1_loop]; rewrite (proj2 (Z.ltb_ge _ _)) by lia; done.
  - destruct fuel as [|fuel]; [lia|]. cbn [mpsearch1_loop]. rewrite (proj2 (Z.ltb_lt _ _)) by lia.
    cbn [seq fmap list_fmap List.find]. rewrite Z.add_0_r. destruct (is_mp p); [done|].
    rewrite u32_small by (unfold is_u32, W32, sizeof_mp; lia). rewrite IH by (unfold sizeof_mp; lia).
    do 3 f_equal. rewrite <- fmap_S_seq, <- list_fmap_compose. apply list_fmap_ext. intros i x _. cbn. unfold sizeof_mp. lia.
Qed.

Lemma mpsearch1_find a len s :
  0 < P2V a -> 0 <= len -> len mod sizeof_mp = 0 -> P2V a + len < 2 ^ 32 ->
  mpsearch1 a len s = Ok (default 0 (List.find is_mp (candidates (P2V a) len))) s.
Proof.
  intros Ha Hl Hm Hw. unfold mpsearch1. unfold sizeof_mp in *. rewrite (u32_small (_ + len)) by (unfold is_u32, W32; lia).
  pose proof (Z.div_mod len 16 ltac:(lia)). pose proof (Z.div_pos len 16 Hl ltac:(lia)).
  rewrite (mpsearch1_loop_find (Z.to_nat (len / 16))); [done|done|unfold sizeof_mp; lia|done|lia].
Qed.

Lemma find_app_default (l1 l2 : list Z) :
  Forall (fun p => p <> 0) l1 ->
  default 0 (List.find is_mp (l1 ++ l2)) =
    (if negb (default 0 (List.find is_mp l1) =? 0) then default 0 (List.find is_mp l1) else default 0 (List.find is_mp l2)).
Proof.
  induction 1 as [|p l1 Hp Hl IH]; [done|]. cbn [app List.find]. destruct (is_mp p); [|done]. cbn.
  by rewrite (proj2 (Z.eqb_neq _ _) Hp).
Qed.

Hypothesis mem_bytes : forall a, 0 <= mem a < 256.


Lemma word_range hi lo : 0 <= Z.lor (Z.shiftl (mem hi) 8) (mem lo) < 2 ^ 16.
Proof. pose proof (mem_bytes hi). pose proof (mem_bytes lo). rewrite lor_add by lia. lia. Qed.

Lemma P2V_small a : 0 <= a < KERNBASE -> P2V a = a + KERNBASE.
Proof. intros Ha. unfold P2V, KERNBASE in *. by apply u32_small; unfold is_u32, W32; lia. Qed.

Lemma candidates_pos a len : 0 < a -> Forall (fun p => p <> 0) (candidates a len).
Proof. intros Ha. apply Forall_fmap, Forall_forall. intros i _. cbn. unfold sizeof_mp. lia. Qed.

(** mpsearch() returns the first structure with the signature and a checksum
    of 0, in the order of the places; 0 when there is none. *)
Lemma mpsearch_first s :
  let base := Z.lor (Z.shiftl (mem (P2V 0x400 + 0x14)) 8) (mem (P2V 0x400 + 0x13)) in
  0 < base -> mpsearch s = Ok (default 0 (List.find is_mp mp_places)) s.
Proof.
  cbv zeta. intros Hb. unfold mpsearch, mp_places. cbv zeta. pose proof (word_range (P2V 0x400 + 0x14) (P2V 0x400 + 0x13)) as Hr.
  pose proof (word_range (P2V 0x400 + 0x0F) (P2V 0x400 + 0x0E)) as Hr2.
  set (w := Z.lor (Z.shiftl (mem (P2V 0x400 + 0x14)) 8) (mem (P2V 0x400 + 0x13))) in *.
  set (w2 := Z.lor (Z.shiftl (mem (P2V 0x400 + 0x0F)) 8) (mem (P2V 0x400 + 0x0E))) in *.
  rewrite Z.shiftl_mul_pow2 by lia.
  assert (E2 : mpsearch1 0xF0000 0x10000 s = Ok (default 0 (List.find is_mp (candidates (P2V 0xF0000) 0x10000))) s) by (by apply mpsearch1_find).
  assert (E1 : forall a, 0 <= a < 2 ^ 27 -> mpsearch1 a 1024 s = Ok (default 0 (List.find is_mp (candidates (P2V a) 1024))) s).
  { intros a Ha. pose proof (P2V_small a) as E. unfold KERNBASE in E. apply mpsearch1_find; [lia..|done|lia]. }
  unfold bind. destruct (Z.eqb_spec (w2 * 2 ^ 4) 0); cbn [negb].
  - rewrite (u32_small (w * 1024 - 1024)) by (unfold is_u32, W32; lia). rewrite E1 by lia. rewrite find_app_default.
    + destruct (negb _); [reflexivity|exact E2].
    + apply candidates_pos. rewrite P2V_small; unfold KERNBASE; lia.
  - rewrite E1 by lia. rewrite find_app_default.
    + destruct (negb _); [reflexivity|exact E2].
    + apply candidates_pos. rewrite P2V_small; unfold KERNBASE; lia.
Qed.

(** ** The table *)

(** A processor, an I/O interrupt controller, or an entry that mpinit() skips,
    with the bytes after the first two (or the first one). *)
Inductive entry :=
  | EProc (apicid : Z) (rest : list Z)
  | EIoapic (apicno : Z) (rest : list Z)
  | ESkip (ty : Z) (rest : list Z).

Definition entry_bytes (x : entry) : list Z :=
  match x with
  | EProc i r => MPPROC :: i :: r
  | EIoapic i r => MPIOAPIC :: i :: r
  | ESkip t r => t :: r
  end.

Definition entry_ok (x : entry) : Prop :=
  match x with
  | EProc _ r => length r = 18%nat
  | EIoapic _ r => length r = 6%nat
  | ESkip t r => (t = MPBUS \/ t = MPIOINTR \/ t = MPLINTR) /\ length r = 7%nat
  end.

(** The bytes [l] are at address [a]. *)
Definition bytes_at (a : Z) (l : list Z) : Prop := forall i b, l !! i = Some b -> mem (a + Z.of_nat i) = b.

(** The processors and the last interrupt controller of a table *)
Definition procs (l : list entry) : list Z := omap (fun x => match x with EProc i _ => Some i | _ => None end) l.
Definition ioapics (l : list entry) : list Z := omap (fun x => match x with EIoapic i _ => Some i | _ => None end) l.

Definition cpu_step (s : mpst) (id : Z) : mpst :=
  if ncpu s <? Z.of_nat NCPU then set_ncpu (ncpu s + 1) (set_apicids (<[Z.to_nat (ncpu s) := id]> (apicids s)) s) else s.

Definition entry_step (s : mpst) (x : entry) : mpst :=
  match x with
  | EProc i _ => cpu_step s i
  | EIoapic i _ => set_ioapicid i s
  | ESkip _ _ => s
  end.

Lemma ld1 a : is_u32 a -> ld 1 a = mem a.
Proof. intros Ha. unfold ld. cbn [seq fmap list_fmap of_le]. change (Z.of_nat 0) with 0. rewrite (Z.add_0_r a), u32_small by done. lia. Qed.

Lemma bytes_at_app a l1 l2 : bytes_at a (l1 ++ l2) -> bytes_at a l1 /\ bytes_at (a + Z.of_nat (length l1)) l2.
Proof.
  intros Hb. split; intros i b Hi.
  - apply Hb. by apply lookup_app_l_Some.
  - rewrite <- Z.add_assoc, <- Nat2Z.inj_add. apply Hb. by rewrite lookup_app_r, Nat.add_comm, Nat.add_sub by lia.
Qed.

Lemma entry_length x : entry_ok x ->
  Z.of_nat (length (entry_bytes x)) = match x with EProc _ _ => sizeof_mpproc | EIoapic _ _ => sizeof_mpioapic | ESkip _ _ => 8 end.
Proof. destruct x; cbn; unfold sizeof_mpproc, sizeof_mpioapic; lia. Qed.

(** One turn of the loop *)
Lemma mpinit_loop_entry x p e ismp fuel s :
  entry_ok x -> bytes_at p (entry_bytes x) -> 0 <= p -> p + Z.of_nat (length (entry_bytes x)) <= e -> e < 2 ^ 32 ->
  mpinit_loop (S fuel) p e ismp s = mpinit_loop fuel (p + Z.of_nat (length (entry_bytes x))) e ismp (entry_step s x).
Proof.
  intros Hx Hb Hp He Hw. pose proof (entry_length x Hx) as Hl.
  assert (H0 : forall b, entry_bytes x !! 0%nat = Some b -> ld 1 p = b).
  { intros b Eb. apply Hb in Eb. rewrite ld1 by (unfold is_u32, W32; destruct x; cbn in *; lia). by rewrite Z.add_0_r in Eb. }
  assert (H1 : forall b, entry_bytes x !! 1%nat = Some b -> ld 1 (p + 1) = b).
  { intros b Eb. apply Hb in Eb. rewrite ld1 by (unfold is_u32, W32; destruct x; cbn in *; lia). exact Eb. }
  cbn [mpinit_loop]. rewrite (proj2 (Z.ltb_lt _ _)) by (destruct x; cbn in *; lia). rewrite Hl in *.
  destruct x as [i r|i r|t r]; cbn [entry_bytes entry_step entry_ok] in *; rewrite (H0 _ eq_refl).
  - rewrite (H1 _ eq_refl). rewrite (u32_small (p + sizeof_mpproc)) by (unfold is_u32, W32, sizeof_mpproc in *; lia). cbn [Z.eqb MPPROC].
    unfold bind, add_cpu, gets, cpu_step, modify. unfold bind. by destruct (ncpu s <? Z.of_nat NCPU).
  - rewrite (H1 _ eq_refl). rewrite (u32_small (p + sizeof_mpioapic)) by (unfold is_u32, W32, sizeof_mpioapic in *; lia). done.
  - rewrite (u32_small (p + 8)) by (unfold is_u32, W32; lia). destruct Hx as [[->|[->| ->]] _]; done.
Qed.

Lemma mpinit_loop_entries l : forall p e ismp fuel s,
  Forall entry_ok l -> bytes_at p (concat (entry_bytes <$> l)) -> 0 <= p ->
  p + Z.of_nat (length (concat (entry_bytes <$> l))) <= e -> e < 2 ^ 32 ->
  mpinit_loop (length l + fuel) p e ismp s =
    mpinit_loop fuel (p + Z.of_nat (length (concat (entry_bytes <$> l)))) e ismp (fold_left entry_step l s).
Proof.
  induction l as [|x l IH]; intros p e ismp fuel s Hl Hb Hp He Hw; cbn [fmap list_fmap concat length Nat.add fold_left] in *; [by rewrite Z.add_0_r|].
  apply Forall_cons in Hl as [Hx Hl]. apply bytes_at_app in Hb as [Hb1 Hb2]. rewrite length_app in *.
  rewrite (mpinit_loop_entry x) by (done || lia). rewrite IH by (done || lia). f_equal. lia.
Qed.

(** ** What a table makes of the state *)

Lemma cpus_fold ids : forall s, length (apicids s) = NCPU -> 0 <= ncpu s <= Z.of_nat NCPU ->
  let s' := fold_left cpu_step ids s in
  ncpu s' = Z.min (Z.of_nat NCPU) (ncpu s + Z.of_nat (length ids)) /\
  (forall i, (i < NCPU)%nat -> apicids s' !! i =
    if decide (Z.of_nat i < ncpu s) then apicids s !! i
    else match ids !! (i - Z.to_nat (ncpu s))%nat with Some x => Some x | None => apicids s !! i end).
Proof.
  induction ids as [|x ids IH]; intros s Hl Hn; cbn [fold_left length].
  - split; [lia|]. intros i Hi. by case_decide.
  - unfold cpu_step at 2 4. destruct (Z.ltb_spec (ncpu s) (Z.of_nat NCPU)) as [Hlt|Hge].
    + edestruct (IH (set_ncpu (ncpu s + 1) (set_apicids (<[Z.to_nat (ncpu s):=x]> (apicids s)) s))) as [E1 E2];
        cbn [apicids ncpu set_ncpu set_apicids] in *; [by rewrite length_insert|lia|].
      split; [rewrite E1; lia|]. intros i Hi. rewrite E2 by done.
      destruct (decide (Z.of_nat i < ncpu s)); [rewrite decide_True by lia; by rewrite list_lookup_insert_ne by lia|].
      destruct (decide (Z.of_nat i = ncpu s)) as [Ei|Ei].
      * rewrite decide_True by lia. rewrite <- Ei, Nat2Z.id, list_lookup_insert_eq by lia. by rewrite Nat.sub_diag.
      * rewrite decide_False by lia. rewrite list_lookup_insert_ne by lia.
        replace (i - Z.to_nat (ncpu s))%nat with (S (i - Z.to_nat (ncpu s + 1))) by lia. done.
    + destruct (IH s Hl Hn) as [E1 E2]. split; [rewrite E1; lia|]. intros i Hi. rewrite E2 by done. rewrite !decide_True by lia. done.
Qed.

Lemma last_default (l : list Z) : forall a d, List.last (a :: l) d = List.last l a.
Proof. induction l as [|x l IH]; intros a d; [done|]. change (List.last (x :: l) d = List.last (x :: l) a). by rewrite !IH. Qed.

(** cpu_step() looks at the processors only. *)
Lemma cpus_fold_ioapic ids : forall s v, fold_left cpu_step ids (set_ioapicid v s) = set_ioapicid v (fold_left cpu_step ids s).
Proof.
  induction ids as [|x ids IH]; intros s v; [done|]. cbn [fold_left]. rewrite <- IH. f_equal. unfold cpu_step. cbn [ncpu set_ioapicid].
  by destruct (ncpu s <? Z.of_nat NCPU).
Qed.

Lemma entries_fold l : forall s,
  fold_left entry_step l s = set_ioapicid (List.last (ioapics l) (ioapicid s)) (fold_left cpu_step (procs l) s).
Proof.
  induction l as [|x l IH]; intros s; [by destruct s|]. cbn [fold_left]. rewrite IH. unfold procs, ioapics.
  destruct x as [i r|i r|t r]; cbn [entry_step omap list_omap fold_left].
  - f_equal. f_equal. unfold cpu_step. by destruct (ncpu s <? Z.of_nat NCPU).
  - rewrite cpus_fold_ioapic, last_default. by destruct (fold_left cpu_step _ s).
  - done.
Qed.

Lemma cpus_fold_frame ids : forall s, lapic (fold_left cpu_step ids s) = lapic s /\ ports (fold_left cpu_step ids s) = ports s.
Proof.
  induction ids as [|x ids IH]; intros s; [done|]. cbn [fold_left]. destruct (IH (cpu_step s x)) as [-> ->]. unfold cpu_step.
  by destruct (ncpu s <? Z.of_nat NCPU).
Qed.

Lemma memcmp_same (p q : cptr) n : (forall i, (i < n)%nat -> p i = q i) -> memcmp p q n = 0.
Proof.
  revert p q. induction n as [|n IH]; intros p q E; [done|]. cbn. rewrite (E 0%nat) by lia. rewrite Z.eqb_refl. apply IH.
  intros i Hi. apply (E (S i)). lia.
Qed.

Lemma signature_at a l : bytes_at a l -> 0 <= a -> a + Z.of_nat (length l) < 2 ^ 32 -> memcmp (at_ a) (ptr_to l) (length l) = 0.
Proof.
  intros Hb Ha Hw. apply memcmp_same. intros i Hi. unfold at_, ptr_to. rewrite u32_small by (unfold is_u32, W32; lia).
  destruct (lookup_lt_is_Some_2 l i Hi) as [b Eb]. rewrite Eb. by apply Hb.
Qed.

(** A table with a valid header at [conf], to which the structure at [mp]
    points, the first one that the search finds. *)
Record table (mp conf : Z) : Prop := {
  tb_base : 0 < Z.lor (Z.shiftl (mem (P2V 0x400 + 0x14)) 8) (mem (P2V 0x400 + 0x13));
  tb_found : List.find is_mp mp_places = Some mp;
  tb_mp : mp <> 0;
  tb_addr : ld 4 (mp + 4) <> 0;
  tb_conf : conf = P2V (ld 4 (mp + 4));
  tb_sig : bytes_at conf PCMP_SIGNATURE;
  tb_version : ld 1 (conf + 6) = 1 \/ ld 1 (conf + 6) = 4;
  tb_sum : sum conf (ld 2 (conf + 4)) = 0;
  tb_low : 0 < conf;
  tb_range : conf + sizeof_mpconf <= conf + ld 2 (conf + 4) < 2 ^ 32;
}.

Lemma mpconfig_table mp conf s : table mp conf -> mpconfig s = Ok (mp, conf) s.
Proof.
  intros [Hb Hf Hm Ha Hc Hs Hv Hsum Hl Hr]. unfold mpconfig, bind. rewrite mpsearch_first, Hf by exact Hb. change (default 0 (Some mp)) with mp.
  rewrite (proj2 (Z.eqb_neq _ _) Hm), (proj2 (Z.eqb_neq _ _) Ha). cbn [orb]. rewrite <- Hc.
  pose proof (signature_at conf PCMP_SIGNATURE Hs) as E. cbn [length PCMP_SIGNATURE] in E. unfold sizeof_mpconf in Hr. rewrite E by lia. cbn [negb Z.eqb].
  rewrite Hsum. by destruct Hv as [-> | ->].
Qed.

(** mpinit() on a table of entries of known types: the first NCPU processors
    of the table are the processors of the kernel, in order, with their
    identifiers; the interrupt controller is the last one of the table; and
    the interrupt mode register is written only where there is one. *)
Theorem mpinit_correct mp conf l s fuel :
  table mp conf -> Forall entry_ok l -> bytes_at (conf + sizeof_mpconf) (concat (entry_bytes <$> l)) ->
  ld 2 (conf + 4) = sizeof_mpconf + Z.of_nat (length (concat (entry_bytes <$> l))) ->
  length (apicids s) = NCPU -> ncpu s = 0 -> (length l <= fuel)%nat ->
  exists s', mpinit fuel s = Ok tt s' /\
    ncpu s' = Z.min (Z.of_nat NCPU) (Z.of_nat (length (procs l))) /\
    (forall i, (i < NCPU)%nat -> apicids s' !! i = match procs l !! i with Some id => Some id | None => apicids s !! i end) /\
    ioapicid s' = List.last (ioapics l) (ioapicid s) /\ lapic s' = ld 4 (conf + 36) /\
    ports s' = ports s ++ (if ld 1 (mp + 12) =? 0 then [] else [(0x22, 0x70); (0x23, u8 (Z.lor imcr 1))]).
Proof.
  intros Ht Hl Hb Hlen Ha Hn Hf. unfold mpinit, bind. rewrite (mpconfig_table mp conf s Ht). cbn iota beta.
  destruct Ht as [_ _ _ _ _ _ _ _ Hlow Hr]. rewrite (proj2 (Z.eqb_neq _ _)) by lia. cbn [panic_if modify ret].
  replace fuel with (length l + (fuel - length l))%nat by lia. rewrite Hlen in *.
  rewrite !u32_small by (unfold is_u32, W32, sizeof_mpconf in *; lia).
  rewrite mpinit_loop_entries by (done || unfold sizeof_mpconf in *; lia).
  rewrite entries_fold. match goal with |- context [fold_left cpu_step (procs l) ?x] => set (s0 := x) end.
  destruct (cpus_fold (procs l) s0) as [E1 E2]; [exact Ha|unfold s0; cbn [ncpu set_lapic]; lia|]. destruct (cpus_fold_frame (procs l) s0) as [E3 E4].
  assert (E0 : ncpu s0 = 0) by exact Hn. rewrite E0 in *.
  assert (Hend : forall n p e x, p = e -> mpinit_loop n p e true x = Ok true x).
  { intros n p e x ->. destruct n; cbn [mpinit_loop]; by rewrite Z.ltb_irrefl. }
  rewrite Hend by lia. cbn [negb panic_if ret].
  assert (Hcpu : forall i, (i < NCPU)%nat -> apicids (fold_left cpu_step (procs l) s0) !! i = match procs l !! i with Some id => Some id | None => apicids s !! i end).
  { intros i Hi. rewrite E2 by done. rewrite decide_False by lia. by rewrite Nat.sub_0_r. }
  destruct (ld 1 (mp + 12) =? 0); cbn [negb].
  - eexists. split; [reflexivity|]. cbn [ncpu apicids ioapicid lapic ports set_ioapicid]. rewrite E1, E3, E4, app_nil_r. split_and!; [lia|exact Hcpu|reflexivity..].
  - eexists. split; [reflexivity|]. cbn [ncpu apicids ioapicid lapic ports set_ioapicid set_ports]. rewrite E1, E3, E4, <- app_assoc.
    split_and!; [lia|exact Hcpu|reflexivity..].
Qed.

(** An entry of another type: the loop does not get past it, and mpinit()
    never returns and never reports the error. *)
Theorem mpinit_unknown mp conf l ty s fuel :
  table mp conf -> Forall entry_ok l -> bytes_at (conf + sizeof_mpconf) (concat (entry_bytes <$> l) ++ [ty]) ->
  sizeof_mpconf + Z.of_nat (length (concat (entry_bytes <$> l))) < ld 2 (conf + 4) -> 4 < ty ->
  mpinit fuel s = NoFuel.
Proof.
  intros Ht Hl Hb Hlen Hty. unfold mpinit, bind. rewrite (mpconfig_table mp conf s Ht). cbn iota beta.
  destruct Ht as [_ _ _ _ _ _ _ _ Hlow Hr]. rewrite (proj2 (Z.eqb_neq _ _)) by lia. cbn [panic_if modify ret].
  rewrite !u32_small by (unfold is_u32, W32, sizeof_mpconf in *; lia). apply bytes_at_app in Hb as [Hb Hu].
  set (p := conf + sizeof_mpconf) in *. set (e := conf + ld 2 (conf + 4)) in *.
  assert (Hstuck : forall n b x, mpinit_loop n (p + Z.of_nat (length (concat (entry_bytes <$> l)))) e b x = NoFuel).
  { specialize (Hu 0%nat ty eq_refl). rewrite Z.add_0_r in Hu. induction n as [|n IH]; intros b x; cbn [mpinit_loop].
    - by rewrite (proj2 (Z.ltb_lt _ _)) by lia.
    - rewrite (proj2 (Z.ltb_lt _ _)) by lia. rewrite ld1, Hu by (unfold is_u32, W32, p, sizeof_mpconf in *; lia).
      unfold MPPROC, MPIOAPIC, MPBUS, MPIOINTR, MPLINTR. rewrite !(proj2 (Z.eqb_neq ty _)) by lia. apply IH. }
  assert (Hrun : forall n x, mpinit_loop n p e true x = NoFuel).
  { intros n x. destruct (decide (length l <= n)%nat) as [Hn|Hn].
    - replace n with (length l + (n - length l))%nat by lia.
      rewrite mpinit_loop_entries by (done || (unfold p, sizeof_mpconf in *; lia)). apply Hstuck.
    - rewrite <- (take_drop n l), fmap_app, concat_app in Hb, Hlen. rewrite length_app in Hlen. apply bytes_at_app in Hb as [Hb _].
      replace n with (length (take n l) + 0)%nat by (rewrite length_take; lia).
      rewrite mpinit_loop_entries by (done || (by apply Forall_take) || (unfold p, sizeof_mpconf in *; lia)).
      cbn [mpinit_loop]. by rewrite (proj2 (Z.ltb_lt _ _)) by lia. }
  by rewrite Hrun.
Qed.

End mp.

(** ** A machine with two processors *)

Module Example.

(** What makes the bytes of a table add up to 0 *)
Definition checksum (l : list Z) : Z := (- foldr Z.add 0 l) mod 256.

Definition entries : list entry := [EProc 0 (replicate 18 0); EProc 6 (replicate 18 0); ESkip MPBUS (replicate 7 0); EIoapic 2 (replicate 6 0)].

(** The table is at 0xF0100, after the structure at 0xF0000. *)
Definition floating (c : Z) : list Z := MP_SIGNATURE ++ le_of 4 0xF0100 ++ [1; 4; c; 0; 128; 0; 0; 0].
Definition header (c : Z) : list Z :=
  PCMP_SIGNATURE ++ le_of 2 100 ++ [4; c] ++ replicate 26 0 ++ le_of 2 4 ++ le_of 4 0xFEE00000 ++ replicate 4 0.
Definition body : list Z := concat (entry_bytes <$> entries).
Definition rom : list Z :=
  floating (checksum (floating 0)) ++ replicate 240 0 ++ header (checksum (header 0 ++ body)) ++ body.

(** 639 KB of base memory, in the BIOS data area at 0x413 *)
Definition bios_mem (a : Z) : Z :=
  if a =? P2V 0x413 then 127 else if a =? P2V 0x414 then 2 else if a <? P2V 0xF0000 then 0 else default 0 (rom !! Z.to_nat (a - P2V 0xF0000)).

Definition off : mpst := mkmp (replicate NCPU 0) 0 0 0 [].

Lemma bios_bytes a : 0 <= bios_mem a < 256.
Proof.
  assert (Hr : Forall (fun b => 0 <= b < 256) rom).
  { apply Forall_forall. intros b Hb. assert (Hc : forallb (fun b => (0 <=? b) && (b <? 256)) rom = true) by (vm_compute; reflexivity).
    rewrite forallb_forall in Hc. apply list_elem_of_In in Hb. specialize (Hc b Hb). lia. }
  unfold bios_mem. destruct (a =? P2V 0x413); [lia|]. destruct (a =? P2V 0x414); [lia|]. destruct (a <? P2V 0xF0000); [lia|].
  destruct (rom !! Z.to_nat (a - P2V 0xF0000)) as [b|] eqn:E; [|cbn; lia]. by eapply Forall_lookup in Hr.
Qed.

Lemma bytes_at_check a l : forallb (fun i => bios_mem (a + Z.of_nat i) =? default 0 (l !! i)) (seq 0 (length l)) = true -> bytes_at bios_mem a l.
Proof.
  intros Hc i b Hi. rewrite forallb_forall in Hc. specialize (Hc i). rewrite Hi in Hc. apply Z.eqb_eq, Hc.
  apply list_elem_of_In, elem_of_seq. apply lookup_lt_Some in Hi. lia.
Qed.

Lemma table_here : table bios_mem (P2V 0xF0000) (P2V 0xF0100).
Proof.
  split.
  - vm_compute. reflexivity.
  - vm_compute. reflexivity.
  - vm_compute. discriminate.
  - vm_compute. discriminate.
  - vm_compute. reflexivity.
  - apply bytes_at_check. vm_compute. reflexivity.
  - right. vm_compute. reflexivity.
  - vm_compute. reflexivity.
  - vm_compute. reflexivity.
  - split; [vm_compute; discriminate|vm_compute; reflexivity].
Qed.

Lemma entries_at : bytes_at bios_mem (P2V 0xF0100 + sizeof_mpconf) (concat (entry_bytes <$> entries)).
Proof. apply bytes_at_check. vm_compute. reflexivity. Qed.

Lemma mpinit_correct_witness : exists s', mpinit bios_mem 0 4 off = Ok tt s' /\ ncpu s' = 2.
Proof.
  destruct (mpinit_correct bios_mem 0 bios_bytes (P2V 0xF0000) (P2V 0xF0100) entries off 4 table_here) as (s'&E&En&_).
  - repeat constructor; vm_compute; auto.
  - exact entries_at.
  - vm_compute. reflexivity.
  - apply length_replicate.
  - reflexivity.
  - apply le_n.
  - exists s'. split; [exact E|]. rewrite En. vm_compute. reflexivity.
Defined.

End Example.
