(* ===== verification/Vm.v ===== *)
(** vm.c: page directories and page tables.

    Page tables live in the pages of [Kalloc.mem], so that every change of an
    entry is a store into a page that kalloc() handed out.  Pointers to
    directories, tables and entries are kernel virtual addresses, 0 is the
    null pointer.  The messages that allocuvm() prints are left out, and so
    are the loads of the machine's registers (lgdt, ltr, lcr3), except that
    [cr3] of the CPU is recorded; loaduvm() is in Exec.v. *)

From S2P Require Import Prelude Params Bytes Kalloc.

(** ** mmu.h *)

Definition PTE_P : Z := 0x001.
Definition PTE_W : Z := 0x002.
Definition PTE_U : Z := 0x004.
Definition PTE_PS : Z := 0x080.
Definition NPDENTRIES : nat := Z.to_nat 1024.
Definition PDX (va : Z) : Z := Z.land (Z.shiftr va 22) 0x3FF.
Definition PTX (va : Z) : Z := Z.land (Z.shiftr va 12) 0x3FF.
Definition PGADDR (d t o : Z) : Z := u32 (Z.lor (Z.lor (Z.shiftl d 22) (Z.shiftl t 12)) o).
Definition PTE_ADDR (pte : Z) : Z := Z.land pte (u32 (Z.lnot 0xFFF)).
Definition PTE_FLAGS (pte : Z) : Z := Z.land pte 0xFFF.

(** (e & f) != 0 *)
Definition has (e f : Z) : bool := negb (Z.land e f =? 0).

(** memmove(dst, src, PGSIZE) of one page to another *)
Definition copy_page (dst src : Z) : M mem unit :=
  let* d := get_page src in
  put_page dst d.

(** memmove(a, buf, n) within one page *)
Definition store_bytes (a : Z) (buf : list Z) : M mem unit :=
  let* d := get_page (PGROUNDDOWN a) in
  put_page (PGROUNDDOWN a) (splice (Z.to_nat (a mod PGSIZE)) buf d).

Section vm.
Context `{KernelImage}.

(** The address of the entry for [va], or 0. *)
Definition walkpgdir (pgdir va : Z) (alloc : bool) : M mem Z :=
  let pde := pgdir + 4 * PDX va in
  let* e := load32 pde in
  if has e PTE_P then ret (P2V (PTE_ADDR e) + 4 * PTX va)
  else if negb alloc then ret 0
  else
    let* pgtab := kalloc in
    if pgtab =? 0 then ret 0
    else
      memset_page pgtab 0 ;;;
      store32 pde (Z.lor (Z.lor (Z.lor (V2P pgtab) PTE_P) PTE_W) PTE_U) ;;;
      ret (pgtab + 4 * PTX va).

(** One iteration per page, ending with the page [last]. *)
Fixpoint mappages_loop (fuel : nat) (pgdir a last pa perm : Z) : M mem Z :=
  match fuel with
  | O => nofuel
  | S fuel =>
      let* pte := walkpgdir pgdir a true in
      if pte =? 0 then ret (-1)
      else
        let* e := load32 pte in
        panic_if (has e PTE_P) "remap" ;;;
        store32 pte (Z.lor (Z.lor pa perm) PTE_P) ;;;
        if a =? last then ret 0
        else mappages_loop fuel pgdir (u32 (a + PGSIZE)) last (u32 (pa + PGSIZE)) perm
  end.

Definition mappages (pgdir va size pa perm : Z) : M mem Z :=
  let a := PGROUNDDOWN va in
  let last := PGROUNDDOWN (u32 (va + size - 1)) in
  mappages_loop (S (Z.to_nat (u32 (last - a) / PGSIZE))) pgdir a last pa perm.

(** One iteration per page or per missing page table. *)
Fixpoint deallocuvm_loop (fuel : nat) (pgdir a oldsz : Z) : M mem unit :=
  if a <? oldsz then
    match fuel with
    | O => nofuel
    | S fuel =>
        let* pte := walkpgdir pgdir a false in
        if pte =? 0 then
          let a := u32 (PGADDR (PDX a + 1) 0 0 - PGSIZE) in
          deallocuvm_loop fuel pgdir (u32 (a + PGSIZE)) oldsz
        else
          let* e := load32 pte in
          (if has e PTE_P then
             let pa := PTE_ADDR e in
             panic_if (pa =? 0) "kfree" ;;;
             kfree (P2V pa) ;;;
             store32 pte 0
           else ret tt) ;;;
          deallocuvm_loop fuel pgdir (u32 (a + PGSIZE)) oldsz
    end
  else ret tt.

Definition deallocuvm (pgdir oldsz newsz : Z) : M mem Z :=
  if oldsz <=? newsz then ret oldsz
  else
    let a := PGROUNDUP newsz in
    deallocuvm_loop (Z.to_nat ((oldsz - a) / PGSIZE + 1)) pgdir a oldsz ;;;
    ret newsz.

Definition freevm (pgdir : Z) : M mem unit :=
  panic_if (pgdir =? 0) "freevm: no pgdir" ;;;
  let* _ := deallocuvm pgdir KERNBASE 0 in
  for_each (seq 0 NPDENTRIES) (fun i =>
    let* e := load32 (pgdir + 4 * Z.of_nat i) in
    if has e PTE_P then kfree (P2V (PTE_ADDR e)) else ret tt) ;;;
  kfree pgdir.

(** struct kmap: virt, phys_start, phys_end, perm *)
Definition kmap : list (Z * Z * Z * Z) := [
  (KERNBASE, 0, EXTMEM, PTE_W);
  (KERNLINK, V2P KERNLINK, V2P kdata, 0);
  (kdata, V2P kdata, PHYSTOP, PTE_W);
  (DEVSPACE, DEVSPACE, 0, PTE_W)
].

Definition setupkvm : M mem Z :=
  let* pgdir := kalloc in
  if pgdir =? 0 then ret 0
  else
    memset_page pgdir 0 ;;;
    panic_if (DEVSPACE <? P2V PHYSTOP) "PHYSTOP too high" ;;;
    let* bad := for_find kmap (fun '(virt, phys_start, phys_end, perm) =>
      let* r := mappages pgdir virt (u32 (phys_end - phys_start)) phys_start perm in
      if r <? 0 then
        freevm pgdir ;;;
        ret (Some tt)
      else ret None) in
    match bad with
    | Some _ => ret 0
    | None => ret pgdir
    end.

Definition inituvm (pgdir : Z) (init : list Z) (sz : Z) : M mem unit :=
  panic_if (PGSIZE <=? sz) "inituvm: more than a page" ;;;
  let* m := kalloc in
  memset_page m 0 ;;;
  let* _ := mappages pgdir 0 PGSIZE (V2P m) (Z.lor PTE_W PTE_U) in
  store_bytes m (take (Z.to_nat sz) init).

Fixpoint allocuvm_loop (fuel : nat) (pgdir a oldsz newsz : Z) : M mem Z :=
  if a <? newsz then
    match fuel with
    | O => nofuel
    | S fuel =>
        let* m := kalloc in
        if m =? 0 then
          let* _ := deallocuvm pgdir newsz oldsz in
          ret 0
        else
          memset_page m 0 ;;;
          let* r := mappages pgdir a PGSIZE (V2P m) (Z.lor PTE_W PTE_U) in
          if r <? 0 then
            let* _ := deallocuvm pgdir newsz oldsz in
            kfree m ;;;
            ret 0
          else allocuvm_loop fuel pgdir (u32 (a + PGSIZE)) oldsz newsz
    end
  else ret newsz.

Definition allocuvm (pgdir oldsz newsz : Z) : M mem Z :=
  if KERNBASE <=? newsz then ret 0
  else if newsz <? oldsz then ret oldsz
  else
    let a := PGROUNDUP oldsz in
    allocuvm_loop (Z.to_nat ((newsz - a) / PGSIZE + 1)) pgdir a oldsz newsz.

Definition clearpteu (pgdir uva : Z) : M mem unit :=
  let* pte := walkpgdir pgdir uva false in
  panic_if (pte =? 0) "clearpteu" ;;;
  let* e := load32 pte in
  store32 pte (Z.land e (u32 (Z.lnot PTE_U))).

Fixpoint copyuvm_loop (fuel : nat) (pgdir d i sz : Z) : M mem Z :=
  if i <? sz then
    match fuel with
    | O => nofuel
    | S fuel =>
        let* pte := walkpgdir pgdir i false in
        panic_if (pte =? 0) "copyuvm: pte should exist" ;;;
        let* e := load32 pte in
        panic_if (negb (has e PTE_P)) "copyuvm: page not present" ;;;
        let pa := PTE_ADDR e in
        let flags := PTE_FLAGS e in
        let* m := kalloc in
        if m =? 0 then freevm d ;;; ret 0
        else
          copy_page m (P2V pa) ;;;
          let* r := mappages d i PGSIZE (V2P m) flags in
          if r <? 0 then kfree m ;;; freevm d ;;; ret 0
          else copyuvm_loop fuel pgdir d (u32 (i + PGSIZE)) sz
    end
  else ret d.

Definition copyuvm (pgdir sz : Z) : M mem Z :=
  let* d := setupkvm in
  if d =? 0 then ret 0
  else copyuvm_loop (Z.to_nat (sz / PGSIZE + 1)) pgdir d 0 sz.

Definition uva2ka (pgdir uva : Z) : M mem Z :=
  let* pte := walkpgdir pgdir uva false in
  let* e := load32 pte in
  if negb (has e PTE_P) then ret 0
  else if negb (has e PTE_U) then ret 0
  else ret (P2V (PTE_ADDR e)).

(** [buf] holds the bytes at p, which are copied one page at a time. *)
Fixpoint copyout_loop (fuel : nat) (pgdir va : Z) (buf : list Z) (len : Z) : M mem Z :=
  if 0 <? len then
    match fuel with
    | O => nofuel
    | S fuel =>
        let va0 := PGROUNDDOWN va in
        let* pa0 := uva2ka pgdir va0 in
        if pa0 =? 0 then ret (-1)
        else
          let n := Z.min (PGSIZE - (va - va0)) len in
          store_bytes (pa0 + (va - va0)) (take (Z.to_nat n) buf) ;;;
          copyout_loop fuel pgdir (u32 (va0 + PGSIZE)) (drop (Z.to_nat n) buf) (len - n)
    end
  else ret 0.

Definition copyout (pgdir va : Z) (buf : list Z) (len : Z) : M mem Z :=
  copyout_loop (Z.to_nat len) pgdir va buf len.

End vm.
