(* ===== verification/VmSpec.v ===== *)
(** Specifications of vm.c: what a page directory maps, and what mappages(),
    setupkvm(), allocuvm(), deallocuvm(), copyuvm(), freevm() and copyout()
    do to it, to the user's bytes and to the free list. *)

From S2P Require Import Prelude Params Bytes Kalloc Vm.

(** ** Words and flags *)

Definition NPT : Z := 1024.

Lemma PDX_eq va : is_u32 va -> PDX va = va / 2 ^ 22.
Proof.
  intros Hv. unfold PDX. change 0x3FF with (Z.ones 10).
  rewrite Z.land_ones, Z.shiftr_div_pow2 by lia. apply Z.mod_small.
  unfold is_u32, W32 in Hv. split; [apply Z.div_pos; lia|]. apply Z.div_lt_upper_bound; lia.
Qed.

Lemma PTX_eq va : PTX va = (va / PGSIZE) mod NPT.
Proof.
  unfold PTX. change 0x3FF with (Z.ones 10).
  by rewrite Z.land_ones, Z.shiftr_div_pow2 by lia.
Qed.

Lemma PTX_range va : 0 <= PTX va < NPT.
Proof. rewrite PTX_eq. by apply Z.mod_pos_bound. Qed.

Lemma PDX_range va : is_u32 va -> 0 <= PDX va < NPT.
Proof.
  intros Hv. rewrite PDX_eq by done. unfold is_u32, W32 in Hv.
  split; [apply Z.div_pos; lia|]. apply Z.div_lt_upper_bound; unfold NPT; lia.
Qed.

(** Arithmetic on addresses, with the constants of the memory layout. *)
Ltac mlia :=
  unfold is_u32, W32, NPT, KERNLINK, KERNBASE, EXTMEM, PHYSTOP, DEVSPACE, PGSIZE,
    PTE_P, PTE_W, PTE_U in *; lia.

(** The two indices determine the page. *)
Lemma page_of_indices va :
  is_u32 va -> va = PDX va * 2 ^ 22 + PTX va * PGSIZE + va mod PGSIZE.
Proof.
  intros Hv. rewrite PDX_eq, PTX_eq by done. unfold PGSIZE, NPT.
  pose proof (Z.div_mod va 4096 ltac:(done)). pose proof (Z.div_mod (va / 4096) 1024 ltac:(done)).
  assert (va / 2 ^ 22 = va / 4096 / 1024) as -> by (by rewrite Z.div_div). lia.
Qed.

Lemma indices_eq a b :
  is_u32 a -> is_u32 b -> PDX a = PDX b -> PTX a = PTX b -> a - a mod PGSIZE = b - b mod PGSIZE.
Proof.
  intros Ha Hb H1 H2. pose proof (page_of_indices a Ha). pose proof (page_of_indices b Hb).
  rewrite H1, H2 in *. lia.
Qed.

Lemma lor_page a f : a mod PGSIZE = 0 -> 0 <= f < PGSIZE -> Z.lor a f = a + f.
Proof.
  intros Ha Hf. rewrite <- Z.lxor_lor, Z.add_nocarry_lxor; [done| |];
    apply Z.bits_inj_0; intros n; rewrite Z.land_spec.
  all: destruct (decide (n < 0)); [by rewrite Z.testbit_neg_r|].
  all: destruct (decide (n < 12)) as [Hn|Hn].
  1, 3: apply Z.mod_divide in Ha as [q ->]; [|done]; change PGSIZE with (2 ^ 12);
    by rewrite Z.mul_pow2_bits_low by lia.
  all: rewrite (Z.bits_above_log2 f); [by rewrite andb_false_r|lia|].
  all: destruct (decide (f = 0)) as [->|]; [simpl; lia|].
  all: assert (Z.log2 f < 12) by (apply Z.log2_lt_pow2; unfold PGSIZE in *; lia); lia.
Qed.

Lemma lor_flags a b : 0 <= a < PGSIZE -> 0 <= b < PGSIZE -> 0 <= Z.lor a b < PGSIZE.
Proof.
  intros Ha Hb. assert (Z.land (Z.lor a b) (Z.ones 12) = Z.lor a b) as He.
  { rewrite Z.land_lor_distr_l, !Z.land_ones by lia. change (2 ^ 12) with PGSIZE.
    by rewrite !Z.mod_small. }
  rewrite <- He, Z.land_ones by lia. by apply Z.mod_pos_bound.
Qed.

Lemma PTE_ADDR_eq e : is_u32 e -> PTE_ADDR e = e - e mod PGSIZE.
Proof. apply land_pages. Qed.

Lemma PTE_FLAGS_eq e : PTE_FLAGS e = e mod PGSIZE.
Proof. unfold PTE_FLAGS. change 0xFFF with (Z.ones 12). by rewrite Z.land_ones. Qed.

Lemma mod_page_add a f : a mod PGSIZE = 0 -> 0 <= f < PGSIZE -> (a + f) mod PGSIZE = f.
Proof. intros Ha Hf. rewrite Z.add_mod, Ha, Z.add_0_l, Z.mod_mod by done. by apply Z.mod_small. Qed.

Lemma has_flags e f : 0 <= f < PGSIZE -> has e f = has (e mod PGSIZE) f.
Proof.
  intros Hf. unfold has. do 2 f_equal. change PGSIZE with (2 ^ 12).
  rewrite <- Z.land_ones by lia. rewrite <- Z.land_assoc. f_equal.
  rewrite Z.land_comm, Z.land_ones by lia. symmetry. by apply Z.mod_small.
Qed.

Lemma has_P e : has e PTE_P = Z.odd e.
Proof.
  unfold has, PTE_P. change 0x001 with (Z.ones 1). rewrite Z.land_ones by lia.
  change (2 ^ 1) with 2. rewrite Zmod_odd. by destruct (Z.odd e).
Qed.

(** ** Page tables in memory *)

(** A page directory and the page-table pages it points to, by index. *)
Record ptable := mkpt {
  root : Z;
  tabs : gmap Z Z;
}.

Definition pages_of (t : ptable) : gset Z := {[root t]} ∪ map_img (tabs t).

Definition entry (d : list Z) (i : Z) : Z := get_u32 (Z.to_nat (4 * i)) d.
Definition page_at (m : gmap Z (list Z)) (v : Z) : list Z := default [] (m !! v).

(** The entry of the page that holds [va]; 0 when there is no page table. *)
Definition pte_of (t : ptable) (m : gmap Z (list Z)) (va : Z) : Z :=
  match tabs t !! PDX va with
  | Some p => entry (page_at m p) (PTX va)
  | None => 0
  end.

Section rep.
Context `{KernelImage}.

Record pt_at (t : ptable) (m : gmap Z (list Z)) : Prop := {
  pa_root : frame (root t);
  pa_tabs i p : tabs t !! i = Some p -> frame p /\ p <> root t;
  pa_inj i j p : tabs t !! i = Some p -> tabs t !! j = Some p -> i = j;
  pa_idx i p : tabs t !! i = Some p -> 0 <= i < NPT;
  pa_pde i : 0 <= i < NPT ->
    let e := entry (page_at m (root t)) i in
    match tabs t !! i with
    | Some p => has e PTE_P = true /\ PTE_ADDR e = V2P p
    | None => has e PTE_P = false
    end;
}.

(** The allocator and a page table; their pages are disjoint. *)
Record vm_at (t : ptable) (free : list Z) (s : mem) : Prop := {
  va_kmem : kmem_at free s;
  va_pt : pt_at t (ram s);
  va_disj v : v ∈ pages_of t -> v ∉ free;
}.

Lemma root_in_pages t : root t ∈ pages_of t.
Proof. unfold pages_of. set_solver. Qed.

Lemma tab_in_pages t i p : tabs t !! i = Some p -> p ∈ pages_of t.
Proof. intros Hp. unfold pages_of. apply elem_of_union_r, elem_of_map_img. eauto. Qed.

Lemma pages_of_inv t v : v ∈ pages_of t -> v = root t \/ exists i, tabs t !! i = Some v.
Proof.
  unfold pages_of. rewrite elem_of_union, elem_of_singleton, elem_of_map_img. done.
Qed.

Lemma pages_frame t m v : pt_at t m -> v ∈ pages_of t -> frame v.
Proof. intros [] [->|[i Hi]]%pages_of_inv; [done|]. by eapply pa_tabs0. Qed.

(** A word of a frame. *)
Lemma frame_word v i :
  frame v -> 0 <= i < NPT ->
  PGROUNDDOWN (v + 4 * i) = v /\ (v + 4 * i) mod PGSIZE = 4 * i /\ v + 4 * i <> 0.
Proof.
  intros Hv Hi. pose proof (frame_pos v Hv). destruct Hv as [Ha Hr].
  assert ((v + 4 * i) mod PGSIZE = 4 * i) as Hm by (apply mod_page_add; [done|unfold PGSIZE, NPT in *; lia]).
  split; [|split; [done|]].
  - rewrite PGROUNDDOWN_eq, Hm; [lia|].
    mlia.
  - mlia.
Qed.

Lemma ram_page m v : ram_ok m -> frame v -> m !! v = Some (page_at m v).
Proof. intros Hm Hv. destruct (Hm v Hv) as (d&Hd&_). unfold page_at. by rewrite Hd. Qed.

Lemma page_len m v : ram_ok m -> frame v -> length (page_at m v) = Z.to_nat PGSIZE.
Proof. intros Hm Hv. destruct (Hm v Hv) as (d&Hd&Hl&_). unfold page_at. by rewrite Hd. Qed.

Lemma page_bytes m v : ram_ok m -> frame v -> bytes_ok (page_at m v).
Proof. intros Hm Hv. destruct (Hm v Hv) as (d&Hd&_&Hb). unfold page_at. by rewrite Hd. Qed.

Lemma entry_u32 d i : bytes_ok d -> is_u32 (entry d i).
Proof. apply get_le_range. Qed.

Lemma page_at_insert m v d : page_at (<[v := d]> m) v = d.
Proof. unfold page_at. by rewrite lookup_insert_eq. Qed.

Lemma page_at_insert_ne m v w d : v <> w -> page_at (<[v := d]> m) w = page_at m w.
Proof. intros Hn. unfold page_at. by rewrite lookup_insert_ne. Qed.

Definition put_entry (i x : Z) (d : list Z) : list Z := put_u32 (Z.to_nat (4 * i)) x d.

Lemma length_put_entry i x d :
  length d = Z.to_nat PGSIZE -> 0 <= i < NPT -> length (put_entry i x d) = Z.to_nat PGSIZE.
Proof. intros Hl Hi. unfold put_entry. rewrite length_put_le; [done|]. unfold PGSIZE, NPT in *. lia. Qed.

Lemma entry_put i j x d :
  length d = Z.to_nat PGSIZE -> 0 <= i < NPT -> 0 <= j < NPT -> is_u32 x ->
  entry (put_entry i x d) j = if decide (i = j) then x else entry d j.
Proof.
  intros Hl Hi Hj Hx. unfold entry, put_entry, PGSIZE, NPT in *. case_decide; subst.
  - rewrite get_put_le by lia. by apply Z.mod_small.
  - apply get_put_le_other; lia.
Qed.

Lemma wp_load_entry v i Q s :
  ram_ok (ram s) -> frame v -> 0 <= i < NPT ->
  Q (entry (page_at (ram s) v) i) s -> wp (load32 (v + 4 * i)) Q s.
Proof.
  intros Hr Hv Hi HQ. destruct (frame_word v i Hv Hi) as (H1&H2&_). unfold load32. rewrite H1, H2.
  apply wp_bind. eapply wp_get_page; [by apply ram_page|]. by apply wp_ret.
Qed.

Lemma wp_store_entry v i x Q s :
  ram_ok (ram s) -> frame v -> 0 <= i < NPT ->
  Q tt (set_ram (<[v := put_entry i x (page_at (ram s) v)]> (ram s)) s) ->
  wp (store32 (v + 4 * i) x) Q s.
Proof.
  intros Hr Hv Hi HQ. destruct (frame_word v i Hv Hi) as (H1&H2&_). unfold store32. rewrite H1, H2.
  apply wp_bind. eapply wp_get_page; [by apply ram_page|].
  eapply wp_put_page; [by apply ram_page|]. done.
Qed.

(** Storing an entry keeps the allocator's invariant. *)
Lemma kmem_at_entry free v i x s :
  kmem_at free s -> frame v -> v ∉ free -> 0 <= i < NPT ->
  kmem_at free (set_ram (<[v := put_entry i x (page_at (ram s) v)]> (ram s)) s).
Proof.
  intros Hk Hv Hn Hi. pose proof (ka_ram _ _ Hk) as Hr. apply kmem_at_store; [done..| |].
  - apply length_put_entry; [by apply page_len|done].
  - apply put_le_bytes_ok. by apply page_bytes.
Qed.

(** Only the pages of a page table matter to it. *)
Lemma pt_at_frame t m m' :
  (forall w, w ∈ pages_of t -> m' !! w = m !! w) -> pt_at t m -> pt_at t m'.
Proof.
  intros Hm [Hr Ht Hi Hx Hp]. constructor; [done..|]. intros i Hi'.
  assert (page_at m' (root t) = page_at m (root t)) as ->
    by (unfold page_at; by rewrite Hm by apply root_in_pages).
  by apply Hp.
Qed.

Lemma pte_of_frame t m m' va :
  (forall w, w ∈ pages_of t -> m' !! w = m !! w) -> pte_of t m' va = pte_of t m va.
Proof.
  intros Hm. unfold pte_of. destruct (tabs t !! PDX va) as [p|] eqn:Hp; [|done].
  unfold page_at. by rewrite Hm by (by eapply tab_in_pages).
Qed.

Lemma pte_of_u32 t m va : pt_at t m -> ram_ok m -> is_u32 (pte_of t m va).
Proof.
  intros Ht Hr. unfold pte_of. destruct (tabs t !! PDX va) as [p|] eqn:Hp; [|done].
  apply entry_u32, page_bytes; [done|]. by eapply pa_tabs.
Qed.

(** A frame's physical address with flags in an entry. *)
Lemma frame_pa v : frame v -> V2P v mod PGSIZE = 0 /\ 0 <= V2P v < PHYSTOP.
Proof.
  intros Hv. rewrite frame_V2P by done. pose proof (frame_pos v Hv). destruct Hv as [Ha Hr]. split; [|mlia].
  change KERNBASE with (524288 * PGSIZE). by rewrite Zminus_mod, Z.mod_mul, Z.sub_0_r, Z.mod_mod.
Qed.

Lemma entry_decode pa f :
  pa mod PGSIZE = 0 -> 0 <= pa -> pa < W32 -> 0 <= f < PGSIZE ->
  is_u32 (Z.lor pa f) /\ PTE_ADDR (Z.lor pa f) = pa /\ PTE_FLAGS (Z.lor pa f) = f.
Proof.
  intros Ha H0 Hw Hf. rewrite lor_page by done. assert (is_u32 (pa + f)) as Hu.
  { apply Z.mod_divide in Ha as [q ->]; [|done]. mlia. }
  split; [done|]. rewrite PTE_ADDR_eq, PTE_FLAGS_eq, mod_page_add by done. lia.
Qed.

(** ** walkpgdir *)

Lemma wp_walk t va Q s :
  pt_at t (ram s) -> ram_ok (ram s) -> is_u32 va ->
  Q (match tabs t !! PDX va with Some p => p + 4 * PTX va | None => 0 end) s ->
  wp (walkpgdir (root t) va false) Q s.
Proof.
  intros Ht Hr Hv HQ. pose proof (PDX_range va Hv) as Hi. unfold walkpgdir. apply wp_bind.
  apply wp_load_entry; [done|by apply Ht|done|].
  pose proof (pa_pde _ _ Ht _ Hi) as He. cbv zeta in He. destruct (tabs t !! PDX va) as [p|] eqn:Hp.
  - destruct He as [-> ->]. rewrite frame_P2V by (by eapply pa_tabs). by apply wp_ret.
  - rewrite He. by apply wp_ret.
Qed.

Definition add_tab (t : ptable) (i p : Z) : ptable := mkpt (root t) (<[i := p]> (tabs t)).

(** Memory after the new page table [p] has been entered at index [i]. *)
Definition tab_ram (t : ptable) (i p : Z) (m : gmap Z (list Z)) : gmap Z (list Z) :=
  let m := <[p := replicate (Z.to_nat PGSIZE) 0]> m in
  <[root t := put_entry i (Z.lor (V2P p) 7) (page_at m (root t))]> m.

Lemma pages_of_add t i p v :
  tabs t !! i = None -> (v ∈ pages_of (add_tab t i p)) <-> v ∈ pages_of t \/ v = p.
Proof.
  intros Hi. unfold pages_of, add_tab. cbn. rewrite map_img_insert_notin_L by done. set_solver.
Qed.

Lemma add_tab_ok t i p m :
  pt_at t m -> ram_ok m -> 0 <= i < NPT -> tabs t !! i = None -> frame p -> p ∉ pages_of t ->
  pt_at (add_tab t i p) (tab_ram t i p m) /\
  (forall va, is_u32 va -> pte_of (add_tab t i p) (tab_ram t i p m) va = pte_of t m va).
Proof.
  intros Ht Hr Hi Hn Hp Hnin. destruct (frame_pa p Hp) as [Hpa Hpr].
  assert (p <> root t) as Hne by (intros ->; apply Hnin, root_in_pages).
  assert (page_at (<[p := replicate (Z.to_nat PGSIZE) 0]> m) (root t) = page_at m (root t)) as Hroot
    by (by apply page_at_insert_ne).
  unfold tab_ram. rewrite Hroot.
  assert (length (page_at m (root t)) = Z.to_nat PGSIZE) as Hlen by (apply page_len; [done|apply Ht]).
  destruct (entry_decode (V2P p) 7) as (Hu&Hadr&_); [done|lia|mlia|mlia|].
  split.
  - constructor; cbn [root tabs add_tab].
    + apply Ht.
    + intros j q. destruct (decide (i = j)) as [->|Hij].
      * rewrite lookup_insert_eq. by intros [= <-].
      * rewrite lookup_insert_ne by done. apply Ht.
    + assert (forall j, tabs t !! j = Some p -> False) as Hno
        by (intros j Hj; by eapply Hnin, tab_in_pages).
      intros j k q. rewrite !lookup_insert_Some.
      intros [[??]|[??]] [[??]|[??]]; subst; [done|exfalso; eauto..|]. by eapply (pa_inj _ _ Ht).
    + intros j q [[<- _]|[_ Hj]]%lookup_insert_Some; [done|]. by eapply (pa_idx _ _ Ht).
    + intros j Hj. cbv zeta. rewrite page_at_insert, entry_put by done.
      destruct (decide (i = j)) as [->|Hij].
      * rewrite lookup_insert_eq. split; [|done]. rewrite has_P, lor_page by (done || mlia).
        rewrite Z.odd_add. replace (Z.odd (V2P p)) with false; [done|].
        apply Z.mod_divide in Hpa as [q ->]; [|done]. unfold PGSIZE. by rewrite Z.odd_mul, andb_false_r.
      * rewrite lookup_insert_ne by done. by apply (pa_pde _ _ Ht).
  - intros va Hva. unfold pte_of. cbn [tabs add_tab]. destruct (decide (i = PDX va)) as [->|Hij].
    + rewrite lookup_insert_eq, Hn, page_at_insert_ne, page_at_insert by done. apply get_le_zeros.
    + rewrite lookup_insert_ne by done. destruct (tabs t !! PDX va) as [q|] eqn:Hq; [|done].
      rewrite !page_at_insert_ne; [done|intros ->; by eapply Hnin, tab_in_pages|].
      by apply not_eq_sym, (pa_tabs _ _ Ht _ _ Hq).
Qed.

(** What adding entries to a page table may do to the rest: it takes page
    tables from the front of the free list and writes nowhere else. *)
Record grown (t : ptable) (free : list Z) (s : mem) (t' : ptable) (free' : list Z) (s' : mem) : Prop := {
  gr_vm : vm_at t' free' s';
  gr_root : root t' = root t;
  gr_free : exists fresh, free = fresh ++ free' /\
    forall v, (v ∈ pages_of t') <-> v ∈ pages_of t \/ v ∈ fresh;
  gr_ram w : w ∉ pages_of t' -> ram s' !! w = ram s !! w;
  gr_use : use_lock s' = use_lock s;
}.

Lemma grown_refl t free s : vm_at t free s -> grown t free s t free s.
Proof. intros Hv. constructor; [done..| |done|done]. exists []. split; [done|]. set_solver. Qed.

Lemma grown_trans t1 f1 s1 t2 f2 s2 t3 f3 s3 :
  grown t1 f1 s1 t2 f2 s2 -> grown t2 f2 s2 t3 f3 s3 -> grown t1 f1 s1 t3 f3 s3.
Proof.
  intros [V1 R1 (n1&->&P1) M1 U1] [V2 R2 (n2&->&P2) M2 U2]. constructor; [done|congruence| | |congruence].
  - exists (n1 ++ n2). split; [by rewrite app_assoc|]. intros v. rewrite P2, P1. set_solver.
  - intros w Hw. rewrite M2 by done. apply M1. rewrite P2 in Hw. tauto.
Qed.

Lemma pages_not_fresh t p free s : vm_at t (p :: free) s -> p ∉ pages_of t.
Proof. intros Hv Hp. eapply va_disj; [done..|]. by left. Qed.

Lemma wp_walk_alloc t free va Q s :
  vm_at t free s -> is_u32 va ->
  (free = [] -> forall s', vm_at t [] s' -> ram s' = ram s -> use_lock s' = use_lock s ->
     tabs t !! PDX va = None -> Q 0 s') ->
  (forall t' free' p s', grown t free s t' free' s' -> tabs t' !! PDX va = Some p ->
     (forall a, is_u32 a -> pte_of t' (ram s') a = pte_of t (ram s) a) -> Q (p + 4 * PTX va) s') ->
  wp (walkpgdir (root t) va true) Q s.
Proof.
  intros Hvm Hv Hnull HQ. pose proof Hvm as [Hk Ht Hd]. pose proof (ka_ram _ _ Hk) as Hr.
  pose proof (PDX_range va Hv) as Hi. unfold walkpgdir. apply wp_bind.
  apply wp_load_entry; [done|by apply Ht|done|].
  pose proof (pa_pde _ _ Ht _ Hi) as He. cbv zeta in He. destruct (tabs t !! PDX va) as [p|] eqn:Hp.
  { destruct He as [-> ->]. rewrite frame_P2V by (by eapply pa_tabs). apply wp_ret.
    eapply HQ; [by apply grown_refl|done|done]. }
  rewrite He. cbv iota. change (negb true) with false. cbv iota. apply wp_bind.
  eapply wp_kalloc; [done|]. intros s1 Hk1 Hram1 Hu1.
  destruct free as [|p free]; cbn [hd_error default tail from_option id] in *.
  { apply wp_ret. apply (Hnull eq_refl); [|done|done|done].
    constructor; [done|by rewrite Hram1|set_solver]. }
  pose proof (ka_frames _ _ Hk) as Hpf%Forall_inv.
  pose proof (ka_nodup _ _ Hk) as [Hpn _]%NoDup_cons. pose proof (pages_not_fresh _ _ _ _ Hvm) as Hnin.
  rewrite (proj2 (Z.eqb_neq p 0)) by (pose proof (frame_pos p Hpf); mlia).
  apply wp_bind. eapply wp_put_page; [rewrite Hram1; by apply ram_page|].
  assert (kmem_at free (set_ram (<[p := replicate (Z.to_nat PGSIZE) (u8 0)]> (ram s1)) s1)) as Hk2.
  { apply kmem_at_store; [done|done|by rewrite length_replicate|].
    apply Forall_replicate. unfold byte_ok. vm_compute. split; congruence. }
  apply wp_bind, wp_store_entry; [apply Hk2|by apply Ht|done|]. apply wp_ret.
  destruct (add_tab_ok t (PDX va) p (ram s) Ht Hr Hi Hp Hpf Hnin) as [Ht' Hpte].
  rewrite <- !Z.lor_assoc. change (Z.lor PTE_P (Z.lor PTE_W PTE_U)) with 7.
  eapply (HQ (add_tab t (PDX va) p) free).
  - constructor; [constructor| |exists [p]; split; [done|]| |done].
    + apply kmem_at_entry; [done|apply Ht| |done]. intros Hin. eapply Hd; [apply root_in_pages|by right].
    + cbn [ram set_ram]. rewrite Hram1. exact Ht'.
    + intros v. rewrite pages_of_add by done. intros [Hv'| ->] Hin; [|done].
      eapply Hd; [done|by right].
    + done.
    + intros v. by rewrite pages_of_add, list_elem_of_singleton by done.
    + intros w Hw. rewrite pages_of_add in Hw by done. cbn [ram set_ram]. rewrite Hram1.
      rewrite !lookup_insert_ne; [done|intros <-; tauto|]. intros <-. apply Hw. left. apply root_in_pages.
  - cbn [tabs add_tab]. by rewrite lookup_insert_eq.
  - intros a Ha. cbn [ram set_ram]. rewrite Hram1. by apply Hpte.
Qed.

(** ** mappages *)

Definition pg (va : Z) : Z := va - va mod PGSIZE.

Lemma pg_range va : pg va <= va < pg va + PGSIZE.
Proof. unfold pg. pose proof (Z.mod_pos_bound va PGSIZE ltac:(done)). lia. Qed.

Lemma pg_mod va : pg va mod PGSIZE = 0.
Proof. unfold pg. by rewrite Zminus_mod, Z.mod_mod, Z.sub_diag. Qed.

Lemma pg_id va : va mod PGSIZE = 0 -> pg va = va.
Proof. unfold pg. lia. Qed.

(** The pages between two aligned addresses. *)
Lemma pg_between a n va : a mod PGSIZE = 0 -> a <= pg va < a + PGSIZE * n <-> a <= va < a + PGSIZE * n.
Proof.
  intros [q ->]%Z.mod_divide; [|done]. unfold pg. pose proof (Z.div_mod va PGSIZE ltac:(done)).
  pose proof (Z.mod_pos_bound va PGSIZE ltac:(done)). mlia.
Qed.

Lemma pg_eq a va : a mod PGSIZE = 0 -> pg va = a <-> a <= va < a + PGSIZE.
Proof.
  intros Ha. pose proof (pg_range va). split; [lia|]. intros Hv.
  pose proof (pg_between a 1 va Ha) as Hb. rewrite Z.mul_1_r in Hb. apply Hb in Hv.
  pose proof (pg_mod va) as [q Hq]%Z.mod_divide; [|done].
  apply Z.mod_divide in Ha as [q' ->]; [|done]. mlia.
Qed.

Lemma pg_user va : pg va < KERNBASE <-> va < KERNBASE.
Proof.
  pose proof (pg_range va). pose proof (pg_mod va) as [m Hm]%Z.mod_divide; [|done]. mlia.
Qed.

Lemma pg_indices a b :
  is_u32 a -> is_u32 b -> pg a = pg b -> PDX a = PDX b /\ PTX a = PTX b.
Proof.
  intros Ha Hb Hpg. unfold pg in Hpg. rewrite !PDX_eq, !PTX_eq by done.
  assert (a / PGSIZE = b / PGSIZE) as Hdiv.
  { pose proof (Z.div_mod a PGSIZE ltac:(done)). pose proof (Z.div_mod b PGSIZE ltac:(done)). mlia. }
  assert (forall z, z / 2 ^ 22 = z / PGSIZE / 1024) as Hz by (intros z; by rewrite Z.div_div).
  by rewrite !Hz, Hdiv.
Qed.

Lemma set_pte_ok t free a p x s :
  vm_at t free s -> is_u32 a -> tabs t !! PDX a = Some p -> is_u32 x ->
  let s' := set_ram (<[p := put_entry (PTX a) x (page_at (ram s) p)]> (ram s)) s in
  grown t free s t free s' /\
  (forall va, is_u32 va ->
     pte_of t (ram s') va = if decide (pg va = pg a) then x else pte_of t (ram s) va).
Proof.
  intros Hvm Ha Hp Hx s'. destruct Hvm as [Hk Ht Hd]. pose proof (ka_ram _ _ Hk) as Hr.
  destruct (pa_tabs _ _ Ht _ _ Hp) as [Hpf Hpr]. pose proof (tab_in_pages t _ p Hp) as Hin.
  pose proof (PTX_range a) as Hpx. split.
  - constructor; [constructor|done| | |done].
    + by apply kmem_at_entry; [|..|apply Hd|].
    + destruct Ht as [H1 H2 H3 Hx4 H4]. constructor; [done..|]. intros i Hi. unfold s'. cbn [ram set_ram].
      rewrite page_at_insert_ne by done. by apply H4.
    + done.
    + exists []. split; [done|]. intros v. rewrite elem_of_nil. tauto.
    + intros w Hw. unfold s'. cbn [ram set_ram]. rewrite lookup_insert_ne; [done|]. by intros ->.
  - intros va Hva. unfold pte_of, s'. cbn [ram set_ram].
    destruct (tabs t !! PDX va) as [q|] eqn:Hq.
    + destruct (decide (q = p)) as [->|Hqp].
      * assert (PDX va = PDX a) as Hpd by (by eapply pa_inj).
        rewrite page_at_insert, entry_put by (done || apply PTX_range || by apply page_len).
        destruct (decide (PTX a = PTX va)) as [He|He].
        -- rewrite decide_True; [done|]. by apply indices_eq.
        -- rewrite decide_False; [done|]. intros Hpg. by apply He, eq_sym, pg_indices.
      * rewrite page_at_insert_ne by done. rewrite decide_False; [done|]. intros Hpg. apply Hqp.
        apply pg_indices in Hpg as [Hpd _]; [|done..]. congruence.
    + rewrite decide_False; [done|]. intros Hpg. apply pg_indices in Hpg as [Hpd _]; [|done..]. congruence.
Qed.

(** The entries of [n] pages from [a] on now map consecutive frames from [pa]
    on with the flags [f]; the others are as before. *)
Definition maps_range (t : ptable) (m : gmap Z (list Z)) (t' : ptable) (m' : gmap Z (list Z))
    (a n pa f : Z) : Prop :=
  forall va, is_u32 va ->
    pte_of t' m' va =
      if decide (a <= va < a + PGSIZE * n) then Z.lor (pa + (pg va - a)) f else pte_of t m va.

Definition clear_range (t : ptable) (m : gmap Z (list Z)) (a n : Z) : Prop :=
  forall va, is_u32 va -> a <= va < a + PGSIZE * n -> has (pte_of t m va) PTE_P = false.

Lemma maps_range_nil t m a pa f : maps_range t m t m a 0 pa f.
Proof. intros va Hva. rewrite decide_False by mlia. done. Qed.

Lemma maps_range_cons t0 m0 t1 m1 t2 m2 a n pa f :
  a mod PGSIZE = 0 -> 0 <= n ->
  (forall va, is_u32 va -> pte_of t1 m1 va = if decide (pg va = a) then Z.lor pa f else pte_of t0 m0 va) ->
  maps_range t1 m1 t2 m2 (a + PGSIZE) n (pa + PGSIZE) f -> maps_range t0 m0 t2 m2 a (n + 1) pa f.
Proof.
  intros Ha Hn H1 H2 va Hva. rewrite (H2 va Hva), (H1 va Hva).
  pose proof (pg_eq a va Ha) as Hpg.
  destruct (decide (a + PGSIZE <= va < a + PGSIZE + PGSIZE * n)).
  - rewrite decide_True by mlia. f_equal. mlia.
  - destruct (decide (pg va = a)) as [He|He].
    + rewrite decide_True by mlia. f_equal. lia.
    + rewrite decide_False; [done|]. mlia.
Qed.

Lemma next_page a : a mod PGSIZE = 0 -> (a + PGSIZE) mod PGSIZE = 0.
Proof. intros Ha. by rewrite <- (Z.mul_1_l PGSIZE) at 1; rewrite Z.mod_add. Qed.

(** One iteration, up to the test for the last page. *)
Lemma wp_map_page t free a x (k : M mem Z) Q s :
  vm_at t free s -> is_u32 a -> is_u32 x -> has (pte_of t (ram s) a) PTE_P = false ->
  (forall s', grown t free s t [] s' -> ram s' = ram s -> Q (-1) s') ->
  (forall t' free' s', grown t free s t' free' s' ->
     (forall va, is_u32 va ->
        pte_of t' (ram s') va = if decide (pg va = pg a) then x else pte_of t (ram s) va) ->
     wp k Q s') ->
  wp (let* pte := walkpgdir (root t) a true in
      if pte =? 0 then ret (-1)
      else
        let* e := load32 pte in
        panic_if (has e PTE_P) "remap" ;;;
        store32 pte x ;;;
        k) Q s.
Proof.
  intros Hvm Ha Hx Hclr Hbad Hok. apply wp_bind. eapply wp_walk_alloc; [done|done| |].
  - intros -> s' Hvm' Hr' Hu' _. apply wp_ret, Hbad; [|done]. constructor; [done|done| | |done].
    + exists []. split; [done|]. intros v. rewrite elem_of_nil. tauto.
    + intros w _. by rewrite Hr'.
  - intros t1 free1 p s1 Hg Hp Hpte. pose proof (gr_vm _ _ _ _ _ _ Hg) as Hvm1.
    pose proof Hvm1 as [Hk1 Ht1 Hd1]. pose proof (ka_ram _ _ Hk1) as Hr1.
    destruct (pa_tabs _ _ Ht1 _ _ Hp) as [Hpf _]. pose proof (PTX_range a) as Hpx.
    destruct (frame_word p (PTX a) Hpf Hpx) as (_&_&Hnz). rewrite (proj2 (Z.eqb_neq _ 0)) by done.
    apply wp_bind, wp_load_entry; [done..|]. apply wp_bind, wp_panic_if.
    { specialize (Hpte a Ha). unfold pte_of in Hpte at 1. rewrite Hp in Hpte. by rewrite Hpte. }
    apply wp_bind, wp_store_entry; [done..|].
    destruct (set_pte_ok t1 free1 a p x s1 Hvm1 Ha Hp Hx) as [Hg2 Hpte2].
    eapply Hok; [by eapply grown_trans|]. intros va Hva. rewrite (Hpte2 va Hva), (Hpte va Hva). done.
Qed.

Lemma wp_mappages_loop n : forall fuel t free a pa perm s Q,
  (n < fuel)%nat -> vm_at t free s -> a mod PGSIZE = 0 -> 0 <= a -> pa mod PGSIZE = 0 -> 0 <= pa ->
  a + PGSIZE * Z.of_nat n < W32 -> pa + PGSIZE * Z.of_nat n < W32 -> 0 <= perm < PGSIZE ->
  clear_range t (ram s) a (Z.of_nat n + 1) ->
  (forall t' free' s', grown t free s t' free' s' ->
     maps_range t (ram s) t' (ram s') a (Z.of_nat n + 1) pa (Z.lor perm PTE_P) -> Q 0 s') ->
  (forall t' k s', grown t free s t' [] s' -> 0 <= k <= Z.of_nat n ->
     maps_range t (ram s) t' (ram s') a k pa (Z.lor perm PTE_P) -> Q (-1) s') ->
  wp (mappages_loop fuel (root t) a (a + PGSIZE * Z.of_nat n) pa perm) Q s.
Proof.
  induction n as [|n IH]; intros [|fuel] t free a pa perm s Q Hfuel Hvm Ha Ha0 Hpa Hpa0 Hlast Hplast Hperm Hclr Hok Hbad;
    try lia; cbn [mappages_loop]; assert (is_u32 a) as Hau by mlia;
    assert (0 <= Z.lor perm PTE_P < PGSIZE) as Hf by (apply lor_flags; [done|mlia]);
    (eapply (wp_map_page t free a); [done|done| | | |]).
  all: try (rewrite <- Z.lor_assoc; apply entry_decode; [done|done|mlia|done]).
  all: try (apply Hclr; [done|mlia]).
  - intros s' Hg Hr. eapply Hbad; [exact Hg| |rewrite Hr; apply maps_range_nil]. lia.
  - intros t1 free1 s1 Hg Hpte. rewrite (proj2 (Z.eqb_eq _ _)) by lia. apply wp_ret.
    eapply Hok; [exact Hg|]. eapply (maps_range_cons _ _ t1 (ram s1)); [done|done| |apply maps_range_nil].
    rewrite <- Z.lor_assoc in Hpte. by rewrite (pg_id a) in Hpte.
  - intros s' Hg Hr. eapply Hbad; [exact Hg| |rewrite Hr; apply maps_range_nil]. lia.
  - intros t1 free1 s1 Hg Hpte. rewrite (proj2 (Z.eqb_neq _ _)) by mlia.
    rewrite !u32_small by mlia. rewrite (pg_id a), <- Z.lor_assoc in Hpte by done.
    replace (a + PGSIZE * Z.of_nat (S n)) with (a + PGSIZE + PGSIZE * Z.of_nat n) by mlia.
    rewrite <- (gr_root _ _ _ _ _ _ Hg).
    eapply (IH fuel t1 free1); [lia|apply Hg|by apply next_page|mlia|by apply next_page|mlia|mlia|mlia|done| | |].
    + intros va Hva Hr. rewrite (Hpte va Hva), decide_False; [apply Hclr; [done|mlia]|].
      intros He%pg_eq; [mlia|done].
    + intros t2 free2 s2 Hg2 Hm2. eapply Hok; [by eapply grown_trans|].
      replace (Z.of_nat (S n) + 1) with (Z.of_nat n + 1 + 1) by lia.
      eapply maps_range_cons; [done|lia|exact Hpte|done].
    + intros t2 k s2 Hg2 Hk Hm2. eapply (Hbad t2 (k + 1)); [by eapply grown_trans|lia|].
      eapply maps_range_cons; [done|lia|exact Hpte|done].
Qed.

(** mappages() of whole pages: it succeeds, or the free list is exhausted. *)
Lemma wp_mappages t free va n pa perm s Q :
  vm_at t free s -> va mod PGSIZE = 0 -> 0 <= va -> 0 < n -> va + PGSIZE * n <= W32 ->
  pa mod PGSIZE = 0 -> 0 <= pa -> pa + PGSIZE * n <= W32 -> 0 <= perm < PGSIZE ->
  clear_range t (ram s) va n ->
  (forall t' free' s', grown t free s t' free' s' ->
     maps_range t (ram s) t' (ram s') va n pa (Z.lor perm PTE_P) -> Q 0 s') ->
  (forall t' k s', grown t free s t' [] s' -> 0 <= k < n ->
     maps_range t (ram s) t' (ram s') va k pa (Z.lor perm PTE_P) -> Q (-1) s') ->
  wp (mappages (root t) va (u32 (PGSIZE * n)) pa perm) Q s.
Proof.
  intros Hvm Ha Ha0 Hn Hw Hpa Hpa0 Hpw Hperm Hclr Hok Hbad. unfold mappages.
  rewrite (PGROUNDDOWN_aligned va) by (done || mlia).
  assert (u32 (va + u32 (PGSIZE * n) - 1) = va + PGSIZE * (n - 1) + (PGSIZE - 1)) as ->.
  { rewrite <- Z.add_sub_assoc, Z.add_comm, <- Z.add_sub_swap, <- Z.add_sub_assoc, u32_add_l.
    rewrite u32_small; mlia. }
  assert ((va + PGSIZE * (n - 1)) mod PGSIZE = 0) as Hl.
  { by rewrite (Z.mul_comm PGSIZE), Z.mod_add. }
  rewrite PGROUNDDOWN_eq, mod_page_add by (done || mlia).
  replace (va + PGSIZE * (n - 1) + (PGSIZE - 1) - (PGSIZE - 1)) with (va + PGSIZE * Z.of_nat (Z.to_nat (n - 1))) by mlia.
  rewrite u32_small by mlia. replace (va + PGSIZE * Z.of_nat (Z.to_nat (n - 1)) - va) with (Z.of_nat (Z.to_nat (n - 1)) * PGSIZE) by lia.
  rewrite Z.div_mul, Nat2Z.id by done.
  replace n with (Z.of_nat (Z.to_nat (n - 1)) + 1) in Hclr, Hok, Hbad by lia.
  eapply wp_mappages_loop; [lia|done|done|done|done|done|mlia|mlia|done|done|done|].
  intros t' k s' Hg Hk Hm. apply (Hbad t' k s'); [done|lia|done].
Qed.

(** ** User memory

    [up] maps the user pages, by their virtual address, to the frames that
    hold them. *)
Record uvm_at (t : ptable) (up : gmap Z Z) (free : list Z) (s : mem) : Prop := {
  uv_vm : vm_at t free s;
  uv_pte va : is_u32 va -> va < KERNBASE ->
    let e := pte_of t (ram s) va in
    match up !! pg va with
    | Some p => has e PTE_P = true /\ PTE_ADDR e = V2P p
    | None => has e PTE_P = false
    end;
  uv_dom a p : up !! a = Some p ->
    a mod PGSIZE = 0 /\ 0 <= a < KERNBASE /\ frame p /\ (p ∉ pages_of t) /\ p ∉ free;
  uv_inj a b p : up !! a = Some p -> up !! b = Some p -> a = b;
}.

(** The user pages in [a, z) have been freed and unmapped. *)
Record shrunk (t : ptable) (a z : Z) (up : gmap Z Z) (free : list Z) (s : mem)
    (up' : gmap Z Z) (free' : list Z) (s' : mem) : Prop := {
  sh_uvm : uvm_at t up' free' s';
  sh_up k : up' !! k = if decide (a <= k < z) then None else up !! k;
  sh_free : exists freed, free' = freed ++ free /\
    forall v, v ∈ freed <-> exists k, a <= k < z /\ up !! k = Some v;
  sh_ram w : w ∉ pages_of t -> (forall k, a <= k < z -> up !! k <> Some w) -> ram s' !! w = ram s !! w;
  sh_pte va : is_u32 va -> ~ (a <= pg va < z) -> pte_of t (ram s') va = pte_of t (ram s) va;
  sh_use : use_lock s' = use_lock s;
}.

Lemma shrunk_none t a z up free s :
  uvm_at t up free s -> (forall k, a <= k < z -> up !! k = None) -> shrunk t a z up free s up free s.
Proof.
  intros Hu Hn. constructor; [done| | |done|done|done].
  - intros k. case_decide; [by apply Hn|done].
  - exists []. split; [done|]. intros v. rewrite elem_of_nil. split; [done|].
    intros (k&Hk&Hv). rewrite (Hn k Hk) in Hv. done.
Qed.

Lemma shrunk_trans t a b z up1 f1 s1 up2 f2 s2 up3 f3 s3 :
  a <= b -> b <= z ->
  shrunk t a b up1 f1 s1 up2 f2 s2 -> shrunk t b z up2 f2 s2 up3 f3 s3 ->
  shrunk t a z up1 f1 s1 up3 f3 s3.
Proof.
  intros Hab Hbz [U1 P1 (n1&E1&F1) R1 T1 K1] [U2 P2 (n2&E2&F2) R2 T2 K2].
  constructor; [done| | | | |congruence].
  - intros k. rewrite P2, P1. repeat case_decide; done || lia.
  - exists (n2 ++ n1). split; [rewrite E2, E1; apply app_assoc|]. intros v.
    rewrite elem_of_app, F1, F2. split.
    + intros [(k&Hk&Hv)|(k&Hk&Hv)]; exists k; [|split; [lia|done]].
      rewrite P1 in Hv. case_decide; [done|]. split; [lia|done].
    + intros (k&Hk&Hv). destruct (decide (k < b)); [right|left]; exists k; (split; [lia|]); [done|].
      rewrite P1. by rewrite decide_False by lia.
  - intros w Hw Hk. rewrite R2, R1; [done|done| |done|].
    + intros k Hk'. apply Hk. lia.
    + intros k Hk'. rewrite P1. rewrite decide_False by lia. apply Hk. lia.
  - intros va Hva Hn. rewrite T2, T1 by (done || lia). done.
Qed.

(** kfree() of the frame of one user page, followed by clearing its entry. *)
Lemma wp_free_user t up free a p q Q s :
  uvm_at t up free s -> up !! a = Some p -> tabs t !! PDX a = Some q ->
  (forall s', shrunk t a (a + PGSIZE) up free s (delete a up) (p :: free) s' -> Q tt s') ->
  wp (kfree p ;;; store32 (q + 4 * PTX a) 0) Q s.
Proof.
  intros Hu Hp Hq HQ. pose proof Hu as [Hvm Hpte Hdom Hinj]. pose proof Hvm as [Hk Ht Hd].
  destruct (Hdom a p Hp) as (Ha&Har&Hpf&Hpn&Hpfree).
  destruct (pa_tabs _ _ Ht _ _ Hq) as [Hqf _]. pose proof (PTX_range a) as Hpx.
  apply wp_bind. eapply wp_kfree; [done..|]. intros s1 Hk1 Hr1 Hu1.
  assert (forall w, w ∈ pages_of t -> ram s1 !! w = ram s !! w) as Hpages.
  { intros w Hw. apply Hr1. by intros ->. }
  assert (vm_at t (p :: free) s1) as Hvm1.
  { constructor; [done|by eapply pt_at_frame|]. intros v Hv [->|Hin]%elem_of_cons; [done|]. by eapply Hd. }
  apply wp_store_entry; [apply Hk1|done|done|].
  destruct (set_pte_ok t (p :: free) a q 0 s1 Hvm1) as [[Hvm2 _ _ Hr2 _] Hpte2]; [mlia|done|done|].
  set (s2 := set_ram _ s1) in *. apply HQ.
  assert (forall va, is_u32 va -> pte_of t (ram s2) va = if decide (pg va = a) then 0 else pte_of t (ram s) va) as Hpt.
  { intros va Hva. rewrite (Hpte2 va Hva), (pg_id a) by done. case_decide; [done|]. by apply pte_of_frame. }
  constructor; [constructor|..].
  - done.
  - intros va Hva Hlt e. unfold e. rewrite (Hpt va Hva). destruct (decide (pg va = a)) as [->|Hne].
    + by rewrite lookup_delete_eq.
    + rewrite lookup_delete_ne by done. by apply Hpte.
  - intros b r [Hne Hb]%lookup_delete_Some. destruct (Hdom b r Hb) as (?&?&?&?&Hnf). do 4 (split; [done|]).
    intros [->|?]%elem_of_cons; [|done]. apply Hne. by eapply Hinj.
  - intros b c r [_ Hb]%lookup_delete_Some [_ Hc]%lookup_delete_Some. by eapply Hinj.
  - intros k. destruct (decide (k = a)) as [->|Hne].
    + rewrite lookup_delete_eq, decide_True; [done|]. mlia.
    + rewrite lookup_delete_ne by done. case_decide as Hin; [|done].
      destruct (up !! k) as [r|] eqn:Hk'; [|done]. destruct (Hdom k r Hk') as (Hkm&_).
      exfalso. apply Hne. apply (pg_eq a k Ha) in Hin. by rewrite pg_id in Hin.
  - exists [p]. split; [done|]. intros v. rewrite list_elem_of_singleton. split.
    + intros ->. exists a. split; [mlia|done].
    + intros (k&Hin&Hk'). destruct (Hdom k v Hk') as (Hkm&_). apply (pg_eq a k Ha) in Hin.
      rewrite pg_id in Hin by done. congruence.
  - intros w Hw Hno. rewrite Hr2 by done. apply Hr1. intros ->. apply (Hno a); [mlia|done].
  - intros va Hva Hno. rewrite (Hpt va Hva), decide_False; [done|]. intros <-. apply Hno. mlia.
  - done.
Qed.

(** ** deallocuvm *)

Lemma frame_V2P_nonzero p : frame p -> V2P p <> 0.
Proof. intros Hp. rewrite frame_V2P by done. pose proof (frame_pos p Hp). mlia. Qed.

(** The address that deallocuvm() continues from when a page table is missing. *)
Definition next_dir (a : Z) : Z := u32 (u32 (PGADDR (PDX a + 1) 0 0 - PGSIZE) + PGSIZE).

Lemma next_dir_eq a : is_u32 a -> a < KERNBASE -> next_dir a = (PDX a + 1) * 2 ^ 22.
Proof.
  intros Ha Hk. unfold next_dir, PGADDR. rewrite Z.shiftl_0_l, !Z.lor_0_r, Z.shiftl_mul_pow2 by lia.
  assert (PDX a < 512) by (rewrite PDX_eq by done; apply Z.div_lt_upper_bound; mlia).
  pose proof (PDX_range a Ha). rewrite u32_add_l, (u32_small (_ * _)) by mlia. rewrite u32_small; mlia.
Qed.

Lemma no_table_no_page t up free a k s :
  uvm_at t up free s -> is_u32 a -> tabs t !! PDX a = None -> a <= k < (PDX a + 1) * 2 ^ 22 ->
  up !! k = None.
Proof.
  intros Hu Ha Hn Hk. destruct (up !! k) as [p|] eqn:Hp; [|done]. exfalso.
  destruct (uv_dom _ _ _ _ Hu _ _ Hp) as (Hkm&Hkr&_). assert (is_u32 k) as Hku by mlia.
  pose proof (uv_pte _ _ _ _ Hu k Hku ltac:(lia)) as He. cbv zeta in He.
  rewrite pg_id, Hp in He by done. unfold pte_of in He.
  assert (PDX k = PDX a) as Hpd.
  { rewrite !PDX_eq in * by done. pose proof (Z.div_mod a (2 ^ 22) ltac:(done)).
    pose proof (Z.mod_pos_bound a (2 ^ 22) ltac:(done)).
    symmetry. apply (Z.div_unique_pos _ _ _ (k - a / 2 ^ 22 * 2 ^ 22)); lia. }
  rewrite Hpd, Hn in He. by destruct He.
Qed.

(** Only page boundaries matter in the bounds of a range. *)
Lemma shrunk_bounds t a z b y up free s up' free' s' :
  uvm_at t up free s ->
  (forall k, k mod PGSIZE = 0 -> a <= k < z <-> b <= k < y) ->
  shrunk t a z up free s up' free' s' -> shrunk t b y up free s up' free' s'.
Proof.
  intros Hu Heq [U P (n&E&F) R T K].
  assert (forall k p, up !! k = Some p -> a <= k < z <-> b <= k < y) as Heq'
    by (intros k p Hk; by apply Heq, (uv_dom _ _ _ _ Hu _ _ Hk)).
  constructor; [done| | | | |done].
  - intros k. rewrite P. destruct (up !! k) as [p|] eqn:Hk; [|by repeat case_decide].
    specialize (Heq' k p Hk). repeat case_decide; done || lia.
  - exists n. split; [done|]. intros v. rewrite F.
    split; intros (k&Hr&Hk); exists k; (split; [|done]); by apply (Heq' k v Hk).
  - intros w Hw Hno. apply R; [done|]. intros k Hr Hk. apply (Hno k); [by apply (Heq' k w Hk)|done].
  - intros va Hva Hno. apply T; [done|]. by rewrite Heq by apply pg_mod.
Qed.

Lemma shrunk_step t a b z up1 f1 s1 up2 f2 s2 up3 f3 s3 :
  uvm_at t up2 f2 s2 -> a < z -> a <= b ->
  shrunk t a (Z.min b z) up1 f1 s1 up2 f2 s2 -> shrunk t b z up2 f2 s2 up3 f3 s3 ->
  shrunk t a z up1 f1 s1 up3 f3 s3.
Proof.
  intros Hu Haz Hab H1 H2. destruct (decide (b <= z)).
  - rewrite Z.min_l in H1 by lia. by eapply (shrunk_trans t a b z).
  - rewrite Z.min_r in H1 by lia. eapply (shrunk_trans t a z z); [lia|lia|done|].
    eapply shrunk_bounds; [done| |exact H2]. lia.
Qed.

Lemma wp_deallocuvm_loop fuel : forall t up free a z s Q,
  uvm_at t up free s -> a mod PGSIZE = 0 -> 0 <= a -> z <= KERNBASE -> z - a <= PGSIZE * Z.of_nat fuel ->
  (forall up' free' s', shrunk t a z up free s up' free' s' -> Q tt s') ->
  wp (deallocuvm_loop fuel (root t) a z) Q s.
Proof.
  induction fuel as [|fuel IH]; intros t up free a z s Q Hu Ha Ha0 Hz Hf HQ; cbn [deallocuvm_loop].
  { rewrite (proj2 (Z.ltb_ge _ _)) by mlia. apply wp_ret. eapply HQ, shrunk_none; [done|]. intros k Hk. mlia. }
  destruct (Z.ltb_spec a z) as [Hlt|Hge].
  2: { apply wp_ret. eapply HQ, shrunk_none; [done|]. intros k Hk. mlia. }
  assert (is_u32 a) as Hau by mlia. pose proof (uv_vm _ _ _ _ Hu) as [Hk Ht Hd].
  apply wp_bind. apply wp_walk; [done|apply Hk|done|].
  destruct (tabs t !! PDX a) as [q|] eqn:Hq.
  - destruct (pa_tabs _ _ Ht _ _ Hq) as [Hqf _]. pose proof (PTX_range a) as Hpx.
    destruct (frame_word q (PTX a) Hqf Hpx) as (_&_&Hnz). rewrite (proj2 (Z.eqb_neq _ 0)) by done.
    apply wp_bind, wp_load_entry; [apply Hk|done|done|].
    pose proof (uv_pte _ _ _ _ Hu a Hau ltac:(lia)) as He. cbv zeta in He.
    rewrite pg_id in He by done. unfold pte_of in He. rewrite Hq in He.
    rewrite (u32_small (a + PGSIZE)) by mlia.
    destruct (up !! a) as [p|] eqn:Hp.
    + destruct He as [-> ->]. destruct (uv_dom _ _ _ _ Hu _ _ Hp) as (_&_&Hpf&_).
      apply wp_bind, wp_bind, wp_panic_if; [by apply Z.eqb_neq, frame_V2P_nonzero|].
      rewrite frame_P2V by done. eapply wp_free_user; [done..|]. intros s1 Hs1.
      eapply IH; [apply Hs1|by apply next_page|mlia|done|mlia|].
      intros up2 free2 s2 Hs2. eapply HQ, (shrunk_step _ _ (a + PGSIZE)); [apply Hs1|done|mlia| |done].
      eapply shrunk_bounds; [done| |exact Hs1]. intros k [m ->]%Z.mod_divide; [|done].
      apply Z.mod_divide in Ha as [m' ->]; [|done]. mlia.
    + rewrite He. apply wp_bind, wp_ret. eapply IH; [done|by apply next_page|mlia|done|mlia|].
      intros up2 free2 s2 Hs2. eapply HQ, (shrunk_step _ _ (a + PGSIZE)); [done|done|mlia| |done].
      apply shrunk_none; [done|]. intros k Hkr. destruct (up !! k) as [r|] eqn:Hkk; [|done].
      destruct (uv_dom _ _ _ _ Hu _ _ Hkk) as (Hkm&_). assert (pg k = a) as Hpg by (apply pg_eq; [done|lia]).
      rewrite pg_id in Hpg by done. congruence.
  - change (0 =? 0) with true. cbv iota. fold (next_dir a). rewrite next_dir_eq by (done || lia).
    assert (a < (PDX a + 1) * 2 ^ 22) as Hnext.
    { rewrite PDX_eq by done. pose proof (Z.div_mod a (2 ^ 22) ltac:(done)).
      pose proof (Z.mod_pos_bound a (2 ^ 22) ltac:(done)). lia. }
    assert (((PDX a + 1) * 2 ^ 22) mod PGSIZE = 0) as Hal.
    { change (2 ^ 22) with (1024 * PGSIZE). by rewrite Z.mul_assoc, Z.mod_mul. }
    eapply IH; [done|done|lia|done| |].
    + apply Z.mod_divide in Ha as [m' ->]; [|done]. apply Z.mod_divide in Hal as [m Hm]; [|done]. mlia.
    + intros up2 free2 s2 Hs2. eapply HQ, shrunk_step; [done|done| | |exact Hs2]; [lia|].
      apply shrunk_none; [done|]. intros k Hkr. eapply no_table_no_page; [done..|]. lia.
Qed.

Lemma roundup_range a : 0 <= a -> a <= KERNBASE ->
  PGROUNDUP a mod PGSIZE = 0 /\ a <= PGROUNDUP a < a + PGSIZE.
Proof.
  intros H0 H1. rewrite PGROUNDUP_eq by mlia. split; [by rewrite Z.mod_mul|].
  pose proof (Z.div_mod (a + PGSIZE - 1) PGSIZE ltac:(done)).
  pose proof (Z.mod_pos_bound (a + PGSIZE - 1) PGSIZE ltac:(done)). mlia.
Qed.

(** deallocuvm(): the pages from PGROUNDUP(newsz) up to oldsz are gone. *)
Lemma wp_deallocuvm t up free oldsz newsz s Q :
  uvm_at t up free s -> 0 <= newsz < oldsz -> oldsz <= KERNBASE ->
  (forall up' free' s', shrunk t (PGROUNDUP newsz) oldsz up free s up' free' s' -> Q newsz s') ->
  wp (deallocuvm (root t) oldsz newsz) Q s.
Proof.
  intros Hu Hn Hk HQ. unfold deallocuvm. rewrite (proj2 (Z.leb_gt _ _)) by lia.
  destruct (roundup_range newsz) as [Hal Hr]; [lia|lia|].
  apply wp_bind. eapply wp_deallocuvm_loop; [done|done|lia|done| |].
  - pose proof (Z.div_mod (oldsz - PGROUNDUP newsz) PGSIZE ltac:(done)).
    pose proof (Z.mod_pos_bound (oldsz - PGROUNDUP newsz) PGSIZE ltac:(done)).
    destruct (decide (0 <= (oldsz - PGROUNDUP newsz) / PGSIZE + 1)); [rewrite Z2Nat.id by done|]; mlia.
  - intros up' free' s' Hs. by eapply wp_ret, HQ.
Qed.

(** ** allocuvm *)

Definition zero_page : list Z := replicate (Z.to_nat PGSIZE) 0.

(** The pages in [a, z) have been mapped to fresh frames; [img] relates the
    address, the bytes and the flags of a new page.  Every page taken from
    the free list is a new page table, a new user page or one of [orph],
    which nothing refers to yet. *)
Record alloced (img : Z -> list Z -> Z -> Prop) (orph : list Z)
    (t : ptable) (up : gmap Z Z) (free : list Z) (s : mem) (a z : Z)
    (t' : ptable) (up' : gmap Z Z) (free' : list Z) (s' : mem) : Prop := {
  al_uvm : uvm_at t' up' free' s';
  al_root : root t' = root t;
  al_up k : ~ (a <= k < z) -> up' !! k = up !! k;
  al_new k : a <= k < z -> k mod PGSIZE = 0 ->
    exists p, up' !! k = Some p /\ img k (page_at (ram s') p) (PTE_FLAGS (pte_of t' (ram s') k));
  al_own v : v ∈ free <->
    v ∈ free' \/ v ∈ orph \/ (v ∈ pages_of t' /\ v ∉ pages_of t) \/
    exists k, a <= k < z /\ up' !! k = Some v;
  al_orph v : v ∈ orph -> (v ∉ free') /\ (v ∉ pages_of t') /\ forall k, up' !! k <> Some v;
  al_tabs v : v ∈ pages_of t -> v ∈ pages_of t';
  al_ram w : w ∉ free -> w ∉ pages_of t -> ram s' !! w = ram s !! w;
  al_pte va : is_u32 va -> ~ (a <= pg va < z) -> KERNBASE <= va \/ is_Some (up !! pg va) ->
    pte_of t' (ram s') va = pte_of t (ram s) va;
}.

Lemma alloced_refl img t up free s a : uvm_at t up free s -> alloced img [] t up free s a a t up free s.
Proof.
  intros Hu. constructor; [done|done|done|lia| | |done|done|done].
  - intros v. split; [by left|]. rewrite elem_of_nil. intros [?|[?|[[??]|(k&?&?)]]]; done || lia.
  - intros v []%not_elem_of_nil.
Qed.

Lemma alloced_trans img orph t1 up1 f1 s1 t2 up2 f2 s2 t3 up3 f3 s3 a b c :
  a <= b <= c -> alloced img [] t1 up1 f1 s1 a b t2 up2 f2 s2 ->
  alloced img orph t2 up2 f2 s2 b c t3 up3 f3 s3 -> alloced img orph t1 up1 f1 s1 a c t3 up3 f3 s3.
Proof.
  intros Hb [U1 R1 P1 N1 O1 H1 T1 M1 E1] [U2 R2 P2 N2 O2 H2 T2 M2 E2].
  constructor; [done|congruence| | | |done|by eauto| |].
  - intros k Hk. rewrite P2, P1 by lia. done.
  - intros k Hk Hkm. destruct (decide (k < b)) as [Hkb|Hkb]; [|apply N2; [lia|done]].
    destruct (N1 k) as (p&Hp&Himg); [lia|done|]. exists p. rewrite P2 by lia. split; [done|].
    destruct (uv_dom _ _ _ _ U1 k p Hp) as (_&Hkr&_&Hpn&Hpf).
    assert (page_at (ram s3) p = page_at (ram s2) p) as -> by (unfold page_at; by rewrite M2).
    rewrite E2; [done|mlia| |right]; rewrite pg_id by done; [lia|by eexists].
  - intros v. rewrite O1, O2. split.
    + intros [[Hv|[Hv|[[Hv Hn]|(k&Hk&Hv)]]]|[[]%not_elem_of_nil|[[Hv Hn]|(k&Hk&Hv)]]].
      * by left.
      * right. by left.
      * do 2 right. left. split; [done|]. intros Hv'. by apply Hn, T1.
      * do 3 right. exists k. split; [lia|done].
      * do 2 right. left. split; [by apply T2|done].
      * do 3 right. exists k. split; [lia|]. by rewrite P2 by lia.
    + intros [Hv|[Hv|[[Hv Hn]|(k&Hk&Hv)]]]; [by left; left|by left; right; left| |].
      * destruct (decide (v ∈ pages_of t2)); [right; right; left|left; right; right; left]; done.
      * destruct (decide (k < b)); [do 3 right|left; do 3 right]; exists k; (split; [lia|]); [|done].
        by rewrite <- P2 by lia.
  - intros w Hw Hn. rewrite M2; [by apply M1| |].
    + intros Hw2. apply Hw. rewrite O1. by left.
    + intros Hw2. apply Hw. rewrite O1. do 2 right. by left.
  - intros va Hva Hr Hs. rewrite E2, E1; [done|done|lia|done|done|lia|]. by rewrite P1 by lia.
Qed.

(** Freeing what has been added leaves only new page tables behind. *)
Lemma alloced_undo img orph t up free s a b z t' up1 f1 s1 up2 f2 s2 :
  a <= b <= z -> alloced img orph t up free s a b t' up1 f1 s1 -> shrunk t' a z up1 f1 s1 up2 f2 s2 ->
  (forall k, a <= k < z -> up !! k = None) -> z <= KERNBASE ->
  alloced img orph t up free s a a t' up f2 s2.
Proof.
  intros Hab [U1 R1 P1 N1 O1 H1 T1 M1 E1] [U2 P2 (n&E2&F2) M2 T2 K2] Hnone Hz.
  assert (up2 = up) as ->.
  { apply map_eq. intros k. rewrite P2. case_decide as Hk; [by rewrite Hnone|]. apply P1. lia. }
  constructor; [done|done|done|lia| | |done| |].
  - intros v. rewrite O1, E2, elem_of_app, F2. split.
    + intros [Hv|[Hv|[[Hv Hn]|(k&Hk&Hv)]]]; [by left; right|by right; left|by do 2 right; left|].
      left. left. exists k. split; [lia|done].
    + intros [[(k&Hk&Hv)|Hv]|[Hv|[[Hv Hn]|(k&Hk&_)]]];
        [|by left|by right; left|by do 2 right; left|lia].
      do 3 right. exists k. split; [|done]. destruct (decide (k < b)); [lia|].
      rewrite P1, Hnone in Hv by lia. done.
  - intros v Hv. destruct (H1 v Hv) as (Hn1&Hn2&Hn3). split; [|split; [done|]].
    + rewrite E2, elem_of_app, F2. intros [(k&_&Hk)|?]; [by eapply Hn3|done].
    + intros k Hk. apply (Hn3 k). rewrite <- Hk. apply P1. intros Hr. rewrite Hnone in Hk; [done|lia].
  - intros w Hw Hn. rewrite M2; [by apply M1| |].
    + intros Hw'. apply Hw. rewrite O1. do 2 right. by left.
    + intros k Hk Hv. destruct (decide (k < b)).
      * apply Hw. rewrite O1. do 3 right. exists k. split; [lia|done].
      * rewrite P1, Hnone in Hv by lia. done.
  - intros va Hva _ Hs. assert (~ (a <= pg va < z)) as Hout.
    { intros Hin. destruct Hs as [Hs|[p Hp]]; [|by rewrite (Hnone _ Hin) in Hp].
      pose proof (pg_user va). lia. }
    rewrite T2, E1; [done|done|lia|done|done|lia].
Qed.

(** The user pages of a page table that has grown. *)
Lemma uvm_grown t up free s t' free' s' :
  uvm_at t up free s -> grown t free s t' free' s' ->
  (forall va, is_u32 va -> pte_of t' (ram s') va = pte_of t (ram s) va) -> uvm_at t' up free' s'.
Proof.
  intros [Hvm Hpte Hdom Hinj] [Hvm' Hr (n&->&Hpg) Hram Huse] Heq. constructor; [done| | |done].
  - intros va Hva Hlt. rewrite Heq by done. by apply Hpte.
  - intros a p Hp. destruct (Hdom a p Hp) as (?&?&?&Hn&Hf). do 3 (split; [done|]). split.
    + rewrite Hpg. intros [?|?]; [done|]. apply Hf. apply elem_of_app. by left.
    + intros Hin. apply Hf. apply elem_of_app. by right.
Qed.

(** kalloc(), as seen by a page table and its user pages. *)
Lemma wp_kalloc_user {A} t up free (c : Z -> M mem A) Q s :
  uvm_at t up free s ->
  (free = [] -> forall s', uvm_at t up [] s' -> ram s' = ram s -> use_lock s' = use_lock s -> wp (c 0) Q s') ->
  (forall p free', free = p :: free' -> frame p -> p <> 0 -> forall s', uvm_at t up free' s' ->
     ram s' = ram s -> use_lock s' = use_lock s -> wp (c p) Q s') ->
  wp (let* m := kalloc in c m) Q s.
Proof.
  intros Hu Hnil Hcons. pose proof Hu as [[Hk Ht Hd] Hpte Hdom Hinj]. apply wp_bind.
  eapply wp_kalloc; [done|]. intros s1 Hk1 Hr1 Hu1.
  assert (forall f1, kmem_at f1 s1 -> (forall v, v ∈ f1 -> v ∈ free) -> uvm_at t up f1 s1) as Hu'.
  { intros f1 Hkf Hsub. constructor; [constructor|..].
    - done.
    - by rewrite Hr1.
    - intros v Hv Hin. by eapply Hd, Hsub.
    - intros va Hva Hlt. rewrite Hr1. by apply Hpte.
    - intros a p Hp. destruct (Hdom a p Hp) as (?&?&?&?&?). do 4 (split; [done|]). intros Hin. by apply Hsub in Hin.
    - done. }
  destruct free as [|p free']; cbn [hd_error default tail from_option id] in *.
  - apply Hnil; [done| |done|done]. apply Hu'; done.
  - pose proof (ka_frames _ _ Hk) as Hpf%Forall_inv. eapply Hcons; [done|done| | |done|done].
    + pose proof (frame_pos p Hpf). mlia.
    + apply Hu'; [done|]. intros v Hv. by right.
Qed.

(** Changes of pages that are neither page tables nor free nor user pages. *)
Lemma uvm_frame t up free free' s s' :
  uvm_at t up free s -> kmem_at free' s' -> (forall w, w ∈ pages_of t -> ram s' !! w = ram s !! w) ->
  (forall v, v ∈ free' -> (v ∉ pages_of t) /\ forall k, up !! k <> Some v) -> uvm_at t up free' s'.
Proof.
  intros [[Hk Ht Hd] Hpte Hdom Hinj] Hk' Hr Hf. constructor; [constructor|..].
  - done.
  - by eapply pt_at_frame.
  - intros v Hv Hin. by apply (proj1 (Hf v Hin)).
  - intros va Hva Hlt. rewrite (pte_of_frame _ _ _ _ Hr). by apply Hpte.
  - intros a p Hp. destruct (Hdom a p Hp) as (?&?&?&?&?). do 4 (split; [done|]). intros Hin.
    by eapply (proj2 (Hf p Hin)).
  - done.
Qed.

(** kfree() of an orphan. *)
Lemma wp_kfree_orphan img t up free s a z t' up' free' s' p Q :
  alloced img [p] t up free s a z t' up' free' s' -> frame p ->
  (forall s'', alloced img [] t up free s a z t' up' (p :: free') s'' -> Q tt s'') ->
  wp (kfree p) Q s'.
Proof.
  intros [U R P N O Ho T Mm E] Hp HQ. destruct (Ho p) as (Hn1&Hn2&Hn3); [set_solver|].
  eapply wp_kfree; [apply U|done|done|]. intros s2 Hk2 Hr2 _. apply HQ.
  assert (forall w, w ∈ pages_of t' -> ram s2 !! w = ram s' !! w) as Hpg.
  { intros w Hw. apply Hr2. by intros ->. }
  assert (forall k q, up' !! k = Some q -> page_at (ram s2) q = page_at (ram s') q) as Hpages.
  { intros k q Hk. unfold page_at. rewrite Hr2; [done|]. intros ->. by eapply Hn3. }
  constructor; [|done|done| | | |done| |].
  - eapply uvm_frame; [done|done|done|]. intros v [->|Hv]%elem_of_cons; [done|]. split.
    + intros Hin. by eapply (va_disj _ _ _ (uv_vm _ _ _ _ U)).
    + intros k Hk. by apply (uv_dom _ _ _ _ U) in Hk as (_&_&_&_&Hk).
  - intros k Hk Hkm. destruct (N k Hk Hkm) as (q&Hq&Himg). exists q. split; [done|].
    by rewrite (Hpages k q Hq), (pte_of_frame _ _ _ _ Hpg).
  - intros v. rewrite O, !elem_of_cons, !elem_of_nil. tauto.
  - intros v []%not_elem_of_nil.
  - intros w Hw Hwn. rewrite Hr2; [by apply Mm|]. intros ->. apply Hw. rewrite O. right. left. set_solver.
  - intros va Hva Hr Hs. rewrite (pte_of_frame _ _ _ _ Hpg). by apply E.
Qed.

(** The head of the free list is nobody's page. *)
Lemma head_fresh t up p free s :
  uvm_at t up (p :: free) s ->
  frame p /\ (p ∉ free) /\ (p ∉ pages_of t) /\ forall k, up !! k <> Some p.
Proof.
  intros [[Hk Ht Hd] Hpte Hdom Hinj]. pose proof (ka_frames _ _ Hk) as Hpf%Forall_inv.
  pose proof (ka_nodup _ _ Hk) as [Hn _]%NoDup_cons. split; [done|]. split; [done|]. split.
  - intros Hin. eapply Hd; [done|by left].
  - intros k Hk'. apply Hdom in Hk' as (_&_&_&_&Hf). apply Hf. by left.
Qed.

(** Taking the head of the free list and filling it with [d]. *)
Definition popped (p : Z) (d : list Z) (free : list Z) (s0 s : mem) : Prop :=
  kmem_at free s /\ (forall w, w <> p -> ram s !! w = ram s0 !! w) /\ ram s !! p = Some d.

Lemma popped_uvm t up p d free s0 s :
  uvm_at t up (p :: free) s0 -> popped p d free s0 s -> uvm_at t up free s.
Proof.
  intros Hu (Hk&Hr&_). pose proof (head_fresh _ _ _ _ _ Hu) as (Hpf&Hpn&Hpt&Hpu).
  eapply uvm_frame; [done|done| |].
  - intros w Hw. apply Hr. by intros ->.
  - intros v Hv. split.
    + intros Hin. eapply (va_disj _ _ _ (uv_vm _ _ _ _ Hu)); [done|by right].
    + intros k Hk'. apply (uv_dom _ _ _ _ Hu) in Hk' as (_&_&_&_&Hf). apply Hf. by right.
Qed.

(** mappages() of one page at the popped frame: the failing case. *)
Lemma map_user_failed img t up free a p d f t' s0 s s' :
  uvm_at t up (p :: free) s0 -> popped p d free s0 s -> grown t free s t' [] s' ->
  maps_range t (ram s) t' (ram s') a 0 (V2P p) f ->
  alloced img [p] t up (p :: free) s0 a a t' up [] s'.
Proof.
  intros Hu Hpop Hg Hm. pose proof (head_fresh _ _ _ _ _ Hu) as (Hpf&Hpn&Hpt&Hpu).
  pose proof (popped_uvm _ _ _ _ _ _ _ Hu Hpop) as Hu1. destruct Hpop as (Hk&Hr&Hd).
  pose proof Hg as [Hvm' Hroot (n&Hn&Hpg) Hram Huse]. rewrite app_nil_r in Hn. subst n.
  assert (forall va, is_u32 va -> pte_of t' (ram s') va = pte_of t (ram s) va) as Heq.
  { intros va Hva. rewrite (Hm va Hva), decide_False; [done|mlia]. }
  assert (forall va, pte_of t (ram s) va = pte_of t (ram s0) va) as Heq0.
  { intros va. apply pte_of_frame. intros w Hw. apply Hr. by intros ->. }
  constructor; [by eapply uvm_grown|done|done|lia| | | | |].
  - intros v. rewrite !elem_of_cons, !elem_of_nil, Hpg. split.
    + intros [->|Hv]; [by right; left; left|]. do 2 right. left. split; [by right|].
      intros Hin. eapply (va_disj _ _ _ (uv_vm _ _ _ _ Hu1)); done.
    + intros [[]|[[->|[]]|[[[?|?] ?]|(k&?&?)]]]; [by left|done|by right|lia].
  - intros v ->%list_elem_of_singleton. rewrite Hpg. split; [by intros ?%elem_of_nil|]. split; [|done].
    by intros [?|?].
  - intros v Hv. apply Hpg. by left.
  - intros w Hw Hwn. apply not_elem_of_cons in Hw as [Hwp Hwf]. rewrite Hram, Hr; [done|done|].
    rewrite Hpg. by intros [?|?].
  - intros va Hva _ _. by rewrite Heq, Heq0.
Qed.

Lemma uvm_insert t up free t' free' n s0 s' a p x :
  uvm_at t up (p :: n ++ free') s0 -> vm_at t' free' s' ->
  (forall v, (v ∈ pages_of t') <-> v ∈ pages_of t \/ v ∈ n) ->
  (forall va, is_u32 va ->
     pte_of t' (ram s') va = if decide (pg va = a) then x else pte_of t (ram s0) va) ->
  has x PTE_P = true -> PTE_ADDR x = V2P p -> a mod PGSIZE = 0 -> 0 <= a < KERNBASE ->
  free = n ++ free' -> uvm_at t' (<[a := p]> up) free' s'.
Proof.
  intros Hu Hvm' Hpg Heq HP Hadr Ha Har ->. pose proof (head_fresh _ _ _ _ _ Hu) as (Hpf&Hpn&Hpt&Hpu).
  destruct Hu as [Hvm Hpte Hdom Hinj]. constructor; [done|..].
  - intros va Hva Hlt e. unfold e. rewrite (Heq va Hva). destruct (decide (pg va = a)) as [->|Hne].
    + by rewrite lookup_insert_eq.
    + rewrite lookup_insert_ne by done. by apply Hpte.
  - intros b q [[<- <-]|[Hne Hq]]%lookup_insert_Some.
    + do 3 (split; [done|]). rewrite Hpg. rewrite elem_of_app in Hpn. tauto.
    + destruct (Hdom b q Hq) as (?&?&?&Hq1&Hq2). do 3 (split; [done|]). rewrite Hpg.
      rewrite elem_of_cons, elem_of_app in Hq2. tauto.
  - intros b c q [[<- <-]|[Hne Hq]]%lookup_insert_Some [[<- E]|[Hne' Hq']]%lookup_insert_Some.
    + done.
    + by apply Hpu in Hq'.
    + subst q. by apply Hpu in Hq.
    + by eapply Hinj.
Qed.

Lemma map_user_ok img t up free a p d f t' free' s0 s s' :
  uvm_at t up (p :: free) s0 -> popped p d free s0 s -> grown t free s t' free' s' ->
  maps_range t (ram s) t' (ram s') a 1 (V2P p) f ->
  up !! a = None -> a mod PGSIZE = 0 -> 0 <= a < KERNBASE -> 0 <= f < PGSIZE -> has f PTE_P = true ->
  img a d f ->
  alloced img [] t up (p :: free) s0 a (a + PGSIZE) t' (<[a := p]> up) free' s'.
Proof.
  intros Hu Hpop Hg Hm Hna Ha Har Hf HfP Himg. pose proof (head_fresh _ _ _ _ _ Hu) as (Hpf&Hpn&Hpt&Hpu).
  pose proof (popped_uvm _ _ _ _ _ _ _ Hu Hpop) as Hu1. destruct Hpop as (Hk&Hr&Hd).
  pose proof Hg as [Hvm' Hroot (n&Hn&Hpg) Hram Huse]. subst free.
  assert (forall va, is_u32 va -> pte_of t' (ram s') va =
            if decide (pg va = a) then Z.lor (V2P p) f else pte_of t (ram s0) va) as Heq.
  { intros va Hva. rewrite (Hm va Hva), Z.mul_1_r. pose proof (pg_eq a va Ha).
    destruct (decide (pg va = a)); [rewrite decide_True by tauto; f_equal; lia|].
    rewrite decide_False by tauto. apply pte_of_frame. intros w Hw. apply Hr. by intros ->. }
  destruct (frame_pa p Hpf) as [Hpa Hpr]. destruct (entry_decode (V2P p) f) as (Hu32&Hadr&Hfl); [done|lia|mlia|done|].
  assert (has (Z.lor (V2P p) f) PTE_P = true) as HP.
  { rewrite has_flags by mlia. by rewrite <- PTE_FLAGS_eq, Hfl. }
  assert (p ∉ pages_of t') as Hpt' by (rewrite Hpg; intros [?|?]; [done|apply Hpn, elem_of_app; by left]).
  constructor; [by eapply uvm_insert|done| | | | | | |].
  - intros k Hk'. apply lookup_insert_ne. intros ->. mlia.
  - intros k Hk' Hkm. assert (pg k = a) as Hpk by (by apply pg_eq). rewrite pg_id in Hpk by done. subst k.
    exists p. rewrite lookup_insert_eq. split; [done|]. rewrite Heq, pg_id, decide_True, Hfl by (done || mlia).
    unfold page_at. by rewrite Hram, Hd.
  - intros v. rewrite elem_of_cons, elem_of_app, elem_of_nil, Hpg. split.
    + intros [->|[Hv|Hv]]; [| |by left].
      * do 3 right. exists a. rewrite lookup_insert_eq. split; [mlia|done].
      * do 2 right. left. split; [by right|]. intros Hin. eapply (va_disj _ _ _ (uv_vm _ _ _ _ Hu1)); [done|].
        apply elem_of_app. by left.
    + intros [?|[[]|[[[?|?] ?]|(k&Hkr&Hkk)]]]; [by right; right|done|by right; left|]. left.
      apply lookup_insert_Some in Hkk as [[_ ?]|[Hne Hkk]]; [done|]. exfalso. apply Hne.
      apply (uv_dom _ _ _ _ Hu) in Hkk as (Hkm&_). apply pg_eq in Hkr; [|done]. by rewrite pg_id in Hkr.
  - intros v []%not_elem_of_nil.
  - intros v Hv. apply Hpg. by left.
  - intros w Hw Hwn. apply not_elem_of_cons in Hw as [Hwp Hwf]. rewrite Hram, Hr; [done|done|].
    rewrite Hpg. rewrite elem_of_app in Hwf. tauto.
  - intros va Hva Hr' _. rewrite (Heq va Hva), decide_False; [done|]. intros <-. apply Hr'. mlia.
Qed.

(** mappages() of one page at the popped frame [p]. *)
Lemma wp_map_user img t up free a p d perm s0 s Q :
  uvm_at t up (p :: free) s0 -> popped p d free s0 s ->
  up !! a = None -> a mod PGSIZE = 0 -> 0 <= a < KERNBASE -> 0 <= perm < PGSIZE ->
  img a d (Z.lor perm PTE_P) ->
  (forall t' free' s', alloced img [] t up (p :: free) s0 a (a + PGSIZE) t' (<[a := p]> up) free' s' -> Q 0 s') ->
  (forall t' s', alloced img [p] t up (p :: free) s0 a a t' up [] s' -> Q (-1) s') ->
  wp (mappages (root t) a PGSIZE (V2P p) perm) Q s.
Proof.
  intros Hu Hpop Hna Ha Har Hperm Himg Hok Hbad.
  pose proof (popped_uvm _ _ _ _ _ _ _ Hu Hpop) as Hu1. pose proof (head_fresh _ _ _ _ _ Hu) as (Hpf&_).
  destruct (frame_pa p Hpf) as [Hpa Hpr]. change PGSIZE with (u32 (PGSIZE * 1)).
  assert (0 <= Z.lor perm PTE_P < PGSIZE) as Hf by (apply lor_flags; [done|mlia]).
  eapply wp_mappages; [apply Hu1|done|lia|lia|mlia|done|lia|mlia|done| | |].
  - intros va Hva Hr. rewrite Z.mul_1_r in Hr. apply pg_eq in Hr; [|done].
    pose proof (uv_pte _ _ _ _ Hu1 va Hva) as He. cbv zeta in He. rewrite Hr, Hna in He. apply He, pg_user. lia.
  - intros t' free' s' Hg Hm. eapply Hok, map_user_ok; [done..| |done].
    by rewrite has_P, <- Z.bit0_odd, Z.lor_spec, orb_true_r.
  - intros t' k s' Hg Hk Hm. assert (k = 0) as -> by lia. by eapply Hbad, map_user_failed.
Qed.

Definition img_zero (_ : Z) (d : list Z) (f : Z) : Prop := d = zero_page /\ f = 7.

Lemma zero_page_ok : length zero_page = Z.to_nat PGSIZE /\ bytes_ok zero_page.
Proof. split; [apply length_replicate|]. apply Forall_replicate. unfold byte_ok. lia. Qed.

(** Taking back what allocuvm() has mapped so far, when it fails. *)
Lemma wp_undo img orph t0 up0 free0 s0 oldsz newsz a t up free s Q :
  alloced img orph t0 up0 free0 s0 (PGROUNDUP oldsz) a t up free s ->
  0 <= oldsz < newsz -> newsz < KERNBASE -> PGROUNDUP oldsz <= a <= PGROUNDUP newsz ->
  (forall k, PGROUNDUP oldsz <= k < PGROUNDUP newsz -> up0 !! k = None) ->
  (forall free' s', alloced img orph t0 up0 free0 s0 (PGROUNDUP oldsz) (PGROUNDUP oldsz) t up0 free' s' ->
     Q oldsz s') ->
  wp (deallocuvm (root t) newsz oldsz) Q s.
Proof.
  intros Hal Hsz Hk Ha Hnone HQ. pose proof (al_uvm _ _ _ _ _ _ _ _ _ _ _ _ Hal) as Hu.
  destruct (roundup_range newsz) as [Hzm Hzr]; [lia|lia|].
  eapply wp_deallocuvm; [done|done|lia|]. intros up' free' s' Hs. eapply HQ.
  eapply alloced_undo; [|exact Hal| |exact Hnone|].
  - exact Ha.
  - eapply shrunk_bounds; [done| |exact Hs]. intros k [m ->]%Z.mod_divide; [|done].
    apply Z.mod_divide in Hzm as [m' Hm']; [|done]. mlia.
  - apply Z.mod_divide in Hzm as [m' Hm']; [|done]. mlia.
Qed.

Lemma alloced_same_ram img orph t0 up0 free0 s0 a z t up free s s1 :
  alloced img orph t0 up0 free0 s0 a z t up free s -> uvm_at t up free s1 -> ram s1 = ram s ->
  alloced img orph t0 up0 free0 s0 a z t up free s1.
Proof. intros [] Hu Hr. constructor; try rewrite Hr; done. Qed.

Lemma popped_zero t up p free s s1 :
  uvm_at t up (p :: free) s -> uvm_at t up free s1 -> ram s1 = ram s ->
  popped p zero_page free s (set_ram (<[p := replicate (Z.to_nat PGSIZE) (u8 0)]> (ram s1)) s1).
Proof.
  intros Hu Hu1 Hr. pose proof (head_fresh _ _ _ _ _ Hu) as (Hpf&Hpn&_).
  split; [|split].
  - apply kmem_at_store; [apply Hu1|done|apply zero_page_ok|apply zero_page_ok].
  - intros w Hw. cbn [ram set_ram]. rewrite lookup_insert_ne by done. by rewrite Hr.
  - cbn [ram set_ram]. by rewrite lookup_insert_eq.
Qed.

(** Fewer free pages than 1025, which a directory and all its page tables can
    take, and [n] bytes. *)
Definition short (free : list Z) (n : Z) : Prop := PGSIZE * (Z.of_nat (length free) - 1025) <= n.

(** The pages of a page table, and of the user pages of a range. *)
Definition table_list (t : ptable) : list Z := root t :: omap (fun i => tabs t !! Z.of_nat i) (seq 0 NPDENTRIES).
Definition user_list (up : gmap Z Z) (a : Z) (n : nat) : list Z := omap (fun i => up !! (a + PGSIZE * Z.of_nat i)) (seq 0 n).

Lemma length_omap {A B} (f : A -> option B) l : (length (omap f l) <= length l)%nat.
Proof. induction l as [|x l IH]; [done|]. cbn. destruct (f x); cbn; lia. Qed.

Lemma elem_of_table_list t m v : pt_at t m -> v ∈ pages_of t -> v ∈ table_list t.
Proof.
  intros Ht [->|[i Hi]]%pages_of_inv; [by left|right]. apply list_elem_of_omap. pose proof (pa_idx _ _ Ht _ _ Hi) as Hr.
  exists (Z.to_nat i). rewrite Z2Nat.id by lia. split; [|done]. apply elem_of_seq. unfold NPDENTRIES, NPT in *. lia.
Qed.

Lemma elem_of_user_list up a n k v :
  a mod PGSIZE = 0 -> k mod PGSIZE = 0 -> a <= k < a + PGSIZE * Z.of_nat n -> up !! k = Some v -> v ∈ user_list up a n.
Proof.
  intros [x ->]%Z.mod_divide [y ->]%Z.mod_divide Hk Hv; [|done..]. apply list_elem_of_omap. exists (Z.to_nat (y - x)).
  split; [apply elem_of_seq; mlia|]. rewrite <- Hv. f_equal. mlia.
Qed.

(** When all pages have gone into a page table and the range [a, z), there
    were not many. *)
Lemma alloced_short img orph t up free s a z t' up' s' :
  alloced img orph t up free s a z t' up' [] s' -> NoDup free -> a mod PGSIZE = 0 -> z mod PGSIZE = 0 -> a <= z ->
  short free (PGSIZE * Z.of_nat (length orph) + (z - a)).
Proof.
  intros Hal Hnd Ha Hz Hle. destruct (proj1 (Z.mod_divide a PGSIZE ltac:(done)) Ha) as [x Hx].
  destruct (proj1 (Z.mod_divide z PGSIZE ltac:(done)) Hz) as [y Hy].
  set (l := orph ++ table_list t' ++ user_list up' a (Z.to_nat (y - x))).
  assert (Hsub : free ⊆+ l).
  { apply NoDup_submseteq; [done|]. intros v Hv. apply (al_own _ _ _ _ _ _ _ _ _ _ _ _ Hal) in Hv as [[]%not_elem_of_nil|[Hv|[[Hv _]|(k&Hk&Hv)]]];
      unfold l; rewrite !elem_of_app; [by left|right; left|right; right].
    - eapply elem_of_table_list; [|done]. apply (al_uvm _ _ _ _ _ _ _ _ _ _ _ _ Hal).
    - eapply (elem_of_user_list _ _ _ k); [done| |mlia|done]. by apply (uv_dom _ _ _ _ (al_uvm _ _ _ _ _ _ _ _ _ _ _ _ Hal) _ _ Hv). }
  apply submseteq_length in Hsub. unfold l in Hsub. rewrite !length_app in Hsub. unfold table_list in Hsub. cbn [length] in Hsub.
  pose proof (length_omap (fun i => tabs t' !! Z.of_nat i) (seq 0 NPDENTRIES)) as H1. rewrite length_seq in H1.
  pose proof (length_omap (fun i => up' !! (a + PGSIZE * Z.of_nat i)) (seq 0 (Z.to_nat (y - x)))) as H2. rewrite length_seq in H2.
  unfold user_list in Hsub. unfold NPDENTRIES in *. unfold short. mlia.
Qed.

Lemma wp_allocuvm_loop t0 up0 free0 s0 oldsz newsz Q fuel : forall t up free a s,
  alloced img_zero [] t0 up0 free0 s0 (PGROUNDUP oldsz) a t up free s ->
  a mod PGSIZE = 0 -> 0 <= oldsz <= newsz -> newsz < KERNBASE -> PGROUNDUP oldsz <= a <= PGROUNDUP newsz ->
  (forall k, PGROUNDUP oldsz <= k < PGROUNDUP newsz -> up0 !! k = None) ->
  newsz - a <= PGSIZE * Z.of_nat fuel ->
  (forall t' up' free' s',
     alloced img_zero [] t0 up0 free0 s0 (PGROUNDUP oldsz) (PGROUNDUP newsz) t' up' free' s' -> Q newsz s') ->
  (forall t' free' s',
     alloced img_zero [] t0 up0 free0 s0 (PGROUNDUP oldsz) (PGROUNDUP oldsz) t' up0 free' s' ->
     short free0 (PGROUNDUP newsz - PGROUNDUP oldsz) -> Q 0 s') ->
  NoDup free0 ->
  wp (allocuvm_loop fuel (root t) a oldsz newsz) Q s.
Proof.
  induction fuel as [|fuel IH]; intros t up free a s Hal Ham Hsz Hk Ha Hnone Hf Hok Hbad Hnd;
    destruct (roundup_range newsz) as [Hzm Hzr]; [lia|lia| |lia|lia|]; cbn [allocuvm_loop];
    destruct (Z.ltb_spec a newsz) as [Hlt|Hge]; try mlia.
  1, 3: replace a with (PGROUNDUP newsz) in Hal by
    (apply Z.mod_divide in Hzm as [m Hm]; [|done]; apply Z.mod_divide in Ham as [m' Hm']; [|done]; mlia);
    by eapply wp_ret, Hok.
  destruct (roundup_range oldsz) as [Hom Hor]; [lia|lia|].
  pose proof (al_uvm _ _ _ _ _ _ _ _ _ _ _ _ Hal) as Hu.
  assert (Hshort : forall orph t1 up1 s1, alloced img_zero orph t0 up0 free0 s0 (PGROUNDUP oldsz) a t1 up1 [] s1 ->
    (length orph <= 1)%nat -> short free0 (PGROUNDUP newsz - PGROUNDUP oldsz)).
  { intros orph t1 up1 s1 Hal1 Ho. pose proof (alloced_short _ _ _ _ _ _ _ _ _ _ _ Hal1 Hnd Hom Ham ltac:(lia)) as Hsh.
    unfold short in *. apply Z.mod_divide in Hzm as [m Hm]; [|done]; apply Z.mod_divide in Ham as [m' Hm']; [|done]. mlia. }
  eapply wp_kalloc_user; [done| |].
  - intros -> s1 Hu1 Hr1 _. change (0 =? 0) with true. cbv iota. apply wp_bind.
    eapply wp_undo; [|lia|done|done|done|]; [|intros; eapply wp_ret, Hbad; [done|exact (Hshort [] _ _ _ Hal ltac:(cbn; lia))]].
    by eapply alloced_same_ram.
  - intros p free1 -> Hpf Hp0 s1 Hu1 Hr1 Huse1. rewrite (proj2 (Z.eqb_neq p 0)) by done.
    apply wp_bind. eapply wp_put_page; [rewrite Hr1; apply ram_page; [apply Hu|done]|].
    pose proof (popped_zero _ _ _ _ _ _ Hu Hu1 Hr1) as Hpop. set (s2 := set_ram _ s1) in *.
    apply wp_bind. eapply (wp_map_user img_zero t up free1 a p zero_page); [done|done| |done|mlia|done|done| |].
    + rewrite (al_up _ _ _ _ _ _ _ _ _ _ _ _ Hal) by lia. apply Hnone. lia.
    + intros t' free' s' Hst. change (0 <? 0) with false. cbv iota. rewrite u32_small by mlia.
      rewrite <- (al_root _ _ _ _ _ _ _ _ _ _ _ _ Hst).
      eapply IH; [eapply alloced_trans; [|exact Hal|exact Hst]; mlia|by apply next_page|done|done| |done|mlia|done|done|done].
      apply Z.mod_divide in Hzm as [m Hm]; [|done]; apply Z.mod_divide in Ham as [m' Hm']; [|done]. mlia.
    + intros t' s' Hst. change (-1 <? 0) with true. cbv iota. apply wp_bind.
      rewrite <- (al_root _ _ _ _ _ _ _ _ _ _ _ _ Hst).
      assert (Hst' : alloced img_zero [p] t0 up0 free0 s0 (PGROUNDUP oldsz) a t' up [] s')
        by (eapply alloced_trans; [|exact Hal|exact Hst]; lia).
      eapply wp_undo; [exact Hst'|lia|done|done|done|].
      intros free2 s3 Hund. apply wp_bind. eapply wp_kfree_orphan; [exact Hund|done|].
      intros s4 Hfin. eapply wp_ret, Hbad; [done|]. exact (Hshort [p] _ _ _ Hst' ltac:(cbn; lia)).
Qed.

(** allocuvm(): the new pages are there, zeroed; or the user map is unchanged. *)
Lemma wp_allocuvm t up free oldsz newsz s Q :
  uvm_at t up free s -> 0 <= oldsz <= newsz -> newsz < KERNBASE ->
  (forall k, PGROUNDUP oldsz <= k < PGROUNDUP newsz -> up !! k = None) ->
  (forall t' up' free' s',
     alloced img_zero [] t up free s (PGROUNDUP oldsz) (PGROUNDUP newsz) t' up' free' s' -> Q newsz s') ->
  (forall t' free' s',
     alloced img_zero [] t up free s (PGROUNDUP oldsz) (PGROUNDUP oldsz) t' up free' s' ->
     short free (PGROUNDUP newsz - PGROUNDUP oldsz) -> Q 0 s') ->
  wp (allocuvm (root t) oldsz newsz) Q s.
Proof.
  intros Hu Hsz Hk Hnone Hok Hbad. unfold allocuvm.
  rewrite (proj2 (Z.leb_gt _ _)), (proj2 (Z.ltb_ge _ _)) by lia.
  destruct (roundup_range oldsz) as [Hom Hor]; [lia|lia|].
  destruct (roundup_range newsz) as [Hnm Hnr]; [lia|lia|].
  eapply wp_allocuvm_loop; [by apply alloced_refl|done|done|done| |done| |done|done|apply (ka_nodup _ _ (va_kmem _ _ _ (uv_vm _ _ _ _ Hu)))].
  - apply Z.mod_divide in Hom as [m Hm]; [|done]; apply Z.mod_divide in Hnm as [m' Hm']; [|done]. mlia.
  - pose proof (Z.div_mod (newsz - PGROUNDUP oldsz) PGSIZE ltac:(done)).
    pose proof (Z.mod_pos_bound (newsz - PGROUNDUP oldsz) PGSIZE ltac:(done)).
    destruct (decide (0 <= (newsz - PGROUNDUP oldsz) / PGSIZE + 1)); [rewrite Z2Nat.id by done|]; mlia.
Qed.
End rep.
