(* ===== verification/VmFork.v ===== *)
(** vm.c, continued: freevm(), setupkvm(), copyuvm(), copyout() and the
    theorems about address spaces. *)

From S2P Require Import Prelude Params Bytes Kalloc Vm VmSpec.

Section rep.
Context `{KernelImage}.

(** ** freevm *)

(** [v] is a page of the page table or a user page. *)
Definition vm_pages (t : ptable) (up : gmap Z Z) (v : Z) : Prop :=
  v ∈ pages_of t \/ exists k, up !! k = Some v.

(** The page-table pages with an index below [n]. *)
Definition tabs_below (t : ptable) (n : nat) (v : Z) : Prop :=
  exists i, tabs t !! i = Some v /\ 0 <= i < Z.of_nat n.

(** Some frames [P] have been added to the free list. *)
Record given_back (P : Z -> Prop) (free : list Z) (s : mem) (free' : list Z) (s' : mem) : Prop := {
  gb_kmem : kmem_at free' s';
  gb_free v : v ∈ free' <-> v ∈ free \/ P v;
  gb_ram w : ~ P w -> ram s' !! w = ram s !! w;
}.

Lemma wp_freetabs t free s Q :
  pt_at t (ram s) -> kmem_at free s -> (forall v, v ∈ pages_of t -> v ∉ free) ->
  (forall free' s', given_back (tabs_below t NPDENTRIES) free s free' s' -> Q tt s') ->
  wp (for_each (seq 0 NPDENTRIES) (fun i =>
        let* e := load32 (root t + 4 * Z.of_nat i) in
        if has e PTE_P then kfree (P2V (PTE_ADDR e)) else ret tt)) Q s.
Proof.
  intros Ht Hk Hd HQ.
  apply (wp_for_seq _ _ (fun n s' => exists f, given_back (tabs_below t n) free s f s')).
  - exists free. constructor; [done| |done]. intros v. split; [by left|].
    intros [?|(i&_&Hi)]; [done|lia].
  - intros n s1 Hn (f&[Hk1 Hf1 Hr1]).
    assert (0 <= Z.of_nat n < NPT) as Hnr by (unfold NPDENTRIES in Hn; mlia).
    assert (ram s1 !! root t = ram s !! root t) as Hroot.
    { apply Hr1. intros (i&Hi&_). by eapply (pa_tabs _ _ Ht) in Hi as [_ ?]. }
    apply wp_bind, wp_load_entry; [apply Hk1|apply Ht|done|].
    unfold page_at. rewrite Hroot. fold (page_at (ram s) (root t)).
    pose proof (pa_pde _ _ Ht _ Hnr) as He. cbv zeta in He.
    destruct (tabs t !! Z.of_nat n) as [p|] eqn:Hp.
    + destruct He as [-> ->]. destruct (pa_tabs _ _ Ht _ _ Hp) as [Hpf _]. rewrite frame_P2V by done.
      eapply wp_kfree; [done|done| |].
      * rewrite Hf1. intros [Hin|(i&Hi&Hir)]; [by eapply Hd; [eapply tab_in_pages|]|].
        rewrite (pa_inj _ _ Ht _ _ _ Hi Hp) in Hir. lia.
      * intros s2 Hk2 Hr2 _. exists (p :: f). constructor; [done| |].
        -- intros v. rewrite elem_of_cons, Hf1. split.
           ++ intros [->|[?|(i&Hi&Hir)]]; [|by left|]; right; [exists (Z.of_nat n)|exists i]; (split; [done|lia]).
           ++ intros [?|(i&Hi&Hir)]; [by right; left|]. destruct (decide (i = Z.of_nat n)) as [->|].
              { left. congruence. } do 2 right. exists i. split; [done|lia].
        -- intros w Hw. rewrite Hr2, Hr1; [done| |].
           ++ intros (i&Hi&Hir). apply Hw. exists i. split; [done|lia].
           ++ intros ->. apply Hw. exists (Z.of_nat n). split; [done|lia].
    + rewrite He. apply wp_ret. exists f.
      assert (forall v, tabs_below t (1 + n) v <-> tabs_below t n v) as Hiff.
      { intros v. split; intros (i&Hi&Hir); exists i; (split; [done|]); [|lia].
        destruct (decide (i = Z.of_nat n)) as [->|]; [by rewrite Hp in Hi|lia]. }
      constructor; [done| |].
      * intros v. by rewrite Hf1, Hiff.
      * intros w Hw. apply Hr1. by rewrite <- Hiff.
  - intros s' (f&Hg). by eapply HQ.
Qed.

Lemma pages_below t m v :
  pt_at t m -> v ∈ pages_of t <-> v = root t \/ tabs_below t NPDENTRIES v.
Proof.
  intros Ht. split.
  - intros [->|[i Hi]]%pages_of_inv; [by left|]. right. exists i. split; [done|].
    apply (pa_idx _ _ Ht) in Hi. unfold NPDENTRIES. mlia.
  - intros [->|(i&Hi&_)]; [apply root_in_pages|by eapply tab_in_pages].
Qed.

(** freevm() gives every page of an address space back. *)
Lemma wp_freevm t up free s Q :
  uvm_at t up free s ->
  (forall free' s', given_back (vm_pages t up) free s free' s' -> Q tt s') ->
  wp (freevm (root t)) Q s.
Proof.
  intros Hu HQ. pose proof (uv_vm _ _ _ _ Hu) as [Hk Ht Hd]. pose proof (pa_root _ _ Ht) as Hrf.
  pose proof (frame_pos _ Hrf). unfold freevm.
  apply wp_bind, wp_panic_if; [apply Z.eqb_neq; mlia|].
  apply wp_bind. eapply wp_deallocuvm; [done|split; [done|by vm_compute]|done|].
  intros up1 f1 s1 [Hu1 Hup1 (n&Hn&Hin) Hr1 Hp1 _]. change (PGROUNDUP 0) with 0 in *.
  pose proof (uv_vm _ _ _ _ Hu1) as [Hk1 Ht1 Hd1].
  assert (forall k v, up !! k = Some v -> 0 <= k < KERNBASE) as Hrange.
  { intros k v Hkv. by apply (uv_dom _ _ _ _ Hu) in Hkv as (_&?&_). }
  apply wp_bind. eapply wp_freetabs; [done|done|done|]. intros f2 s2 [Hk2 Hf2 Hr2].
  eapply wp_kfree; [done|done| |].
  { rewrite Hf2. intros [Hin'|(i&Hi&_)]; [by eapply Hd1; [apply root_in_pages|]|].
    by apply (pa_tabs _ _ Ht) in Hi as [_ ?]. }
  intros s3 Hk3 Hr3 _. apply (HQ (root t :: f2)). constructor; [done| |].
  - intros v. unfold vm_pages. rewrite elem_of_cons, Hf2, Hn, elem_of_app, Hin, (pages_below t _ v Ht). split.
    + intros [->|[[(k&_&Hv)|Hv]|Hv]]; [by right; left; left|by right; right; exists k|by left|by right; left; right].
    + intros [Hv|[[->|Hv]|(k&Hv)]]; [by right; left; right|by left|by right; right|].
      right. left. left. exists k. split; [by eapply Hrange|done].
  - intros w Hw. unfold vm_pages in Hw. rewrite (pages_below t _ w Ht) in Hw.
    rewrite Hr3, Hr2, Hr1; [done| | | |].
    + rewrite (pages_below t _ w Ht). tauto.
    + intros k _ Hv. apply Hw. right. by exists k.
    + tauto.
    + tauto.
Qed.


(** ** setupkvm *)

(** What a prefix of kmap makes of an address. *)
Definition kmap_entry (va acc : Z) (k : Z * Z * Z * Z) : Z :=
  let '(virt, phys_start, phys_end, perm) := k in
  if decide (virt <= va < virt + u32 (phys_end - phys_start))
  then Z.lor (phys_start + (pg va - virt)) (Z.lor perm PTE_P) else acc.
Definition kmap_pte (l : list (Z * Z * Z * Z)) (va : Z) : Z := foldl (kmap_entry va) 0 l.

Lemma kmap_pte_snoc l k va : kmap_pte (l ++ [k]) va = kmap_entry va (kmap_pte l va) k.
Proof. unfold kmap_pte. by rewrite foldl_app. Qed.

(** A row of kmap describes whole pages that no earlier row covers. *)
Definition kmap_row_ok (l : list (Z * Z * Z * Z)) (k : Z * Z * Z * Z) : Prop :=
  let '(virt, phys_start, phys_end, perm) := k in
  exists n, u32 (phys_end - phys_start) = u32 (PGSIZE * n) /\ u32 (PGSIZE * n) = PGSIZE * n /\ 0 < n /\
    virt mod PGSIZE = 0 /\ 0 <= virt /\ virt + PGSIZE * n <= W32 /\
    phys_start mod PGSIZE = 0 /\ 0 <= phys_start /\ phys_start + PGSIZE * n <= W32 /\
    0 <= perm < PGSIZE /\ KERNBASE <= virt /\
    forall va, is_u32 va -> virt <= va < virt + PGSIZE * n -> kmap_pte l va = 0.

Lemma kdata_facts :
  exists d, kdata = d * PGSIZE /\ KERNLINK < d * PGSIZE /\ d * PGSIZE <= 0x80400000.
Proof.
  pose proof kdata_aligned as [d Hd]%Z.mod_divide; [|done]. pose proof kdata_range. pose proof kend_range.
  change (P2V (4 * 1024 * 1024)) with 0x80400000 in *. exists d. rewrite <- Hd. lia.
Qed.

Lemma V2P_kdata d :
  kdata = d * PGSIZE -> KERNLINK < d * PGSIZE -> d * PGSIZE <= 0x80400000 ->
  V2P kdata = d * PGSIZE - KERNBASE.
Proof. intros -> H1 H2. unfold V2P. apply u32_small. mlia. Qed.

Lemma kmap_rows l1 k l2 : kmap = l1 ++ k :: l2 -> kmap_row_ok l1 k.
Proof.
  destruct kdata_facts as (d&Hd&H1&H2). pose proof (V2P_kdata d Hd H1 H2) as Hv.
  assert (forall z, (z - KERNBASE) mod PGSIZE = z mod PGSIZE) as Hmod.
  { intros z. change KERNBASE with (524288 * PGSIZE).
    by rewrite Zminus_mod, Z.mod_mul, Z.sub_0_r, Z.mod_mod. }
  assert (V2P KERNLINK = EXTMEM) as Hl by done.
  intros Hk. unfold kmap in Hk. rewrite Hv, Hl, Hd in Hk.
  destruct l1 as [|k1 [|k2 [|k3 [|k4 l1]]]]; simplify_eq/=.
  - exists 256. do 11 (split; [done|]). intros va _ _. done.
  - exists (d - 524544). rewrite !(u32_small (_ * (d - 524544))) by mlia.
    rewrite u32_small by mlia. split; [mlia|]. split; [done|]. split; [mlia|]. split; [done|].
    split; [done|]. split; [mlia|]. split; [done|]. split; [done|]. split; [mlia|]. split; [mlia|]. split; [mlia|].
    intros va _ Hr. unfold kmap_pte; cbn [foldl kmap_entry]. change (u32 (EXTMEM - 0)) with EXTMEM.
    rewrite decide_False; [done|mlia].
  - exists (581632 - d). rewrite !(u32_small (_ * (581632 - d))) by mlia.
    rewrite u32_small by mlia. split; [mlia|]. split; [done|]. split; [mlia|]. split; [by rewrite Z.mod_mul|].
    split; [mlia|]. split; [mlia|]. split; [by rewrite Hmod, Z.mod_mul|]. split; [mlia|]. split; [mlia|]. split; [mlia|]. split; [mlia|].
    intros va _ Hr. unfold kmap_pte; cbn [foldl kmap_entry]. change (u32 (EXTMEM - 0)) with EXTMEM.
    rewrite (u32_small (_ - EXTMEM)) by mlia. rewrite !decide_False by mlia. done.
  - exists 8192. do 11 (split; [done|]). intros va _ Hr. unfold kmap_pte; cbn [foldl kmap_entry].
    change (u32 (EXTMEM - 0)) with EXTMEM. rewrite !(u32_small (_ - _)) by mlia.
    rewrite !decide_False by mlia. done.
  - by destruct l1.
Qed.

(** A page table that the pages [all], and nothing else, went into. *)
Record built (all : list Z) (s0 : mem) (pte : Z -> Z) (t : ptable) (free : list Z) (s : mem) : Prop := {
  bt_vm : vm_at t free s;
  bt_pte va : is_u32 va -> pte_of t (ram s) va = pte va;
  bt_own v : v ∈ all <-> v ∈ free \/ v ∈ pages_of t;
  bt_ram w : w ∉ all -> ram s !! w = ram s0 !! w;
}.

Lemma built_uvm all s0 pte t free s :
  built all s0 pte t free s -> (forall va, is_u32 va -> va < KERNBASE -> pte va = 0) ->
  uvm_at t ∅ free s.
Proof.
  intros [Hvm Hpte Hown Hram] H0. constructor; [done| |done|done].
  intros va Hva Hlt. cbv zeta. rewrite lookup_empty, Hpte, H0 by done. done.
Qed.

Lemma built_grown all s0 pte pte' t free s t' free' s' :
  built all s0 pte t free s -> grown t free s t' free' s' ->
  (forall va, is_u32 va -> pte_of t' (ram s') va = pte' va) -> built all s0 pte' t' free' s'.
Proof.
  intros [Hvm Hpte Hown Hram] [Hvm' Hroot (n&->&Hpg) Hr Hu] Hp'. constructor; [done|done| |].
  - intros v. rewrite Hown, Hpg, elem_of_app. tauto.
  - intros w Hw. rewrite Hr; [by apply Hram|]. rewrite Hpg. rewrite Hown, elem_of_app in Hw. tauto.
Qed.

(** The empty page directory. *)
Lemma built_empty p free s s1 :
  kmem_at (p :: free) s -> popped p zero_page free s s1 ->
  built (p :: free) s (fun _ => 0) (mkpt p ∅) free s1.
Proof.
  intros Hk (Hk1&Hr&Hd). pose proof (ka_frames _ _ Hk) as Hpf%Forall_inv.
  pose proof (ka_nodup _ _ Hk) as [Hn _]%NoDup_cons.
  assert (forall v, (v ∈ pages_of (mkpt p ∅)) <-> v = p) as Hpg.
  { intros v. unfold pages_of. cbn. rewrite map_img_empty_L. set_solver. }
  constructor; [constructor|..].
  - done.
  - constructor; cbn; [done|done|done|done|]. intros i Hi. unfold page_at. rewrite Hd, lookup_empty. cbn [default from_option id].
    unfold entry, zero_page. by rewrite get_le_zeros.
  - intros v ->%Hpg. done.
  - done.
  - intros v. rewrite elem_of_cons, Hpg. tauto.
  - intros w [Hw _]%not_elem_of_cons. by apply Hr.
Qed.

(** A page table that took all the pages. *)
Lemma built_short all s0 s' pte t s : built all s0 pte t [] s -> kmem_at all s' -> short all 0.
Proof.
  intros [Hvm _ Hown _] Hk. assert (Hsub : all ⊆+ table_list t).
  { apply NoDup_submseteq; [apply Hk|]. intros v [[]%not_elem_of_nil|Hv]%Hown. eapply elem_of_table_list; [apply Hvm|done]. }
  apply submseteq_length in Hsub. cbn [table_list length] in Hsub.
  pose proof (length_omap (fun i => tabs t !! Z.of_nat i) (seq 0 NPDENTRIES)) as H1. rewrite length_seq in H1.
  unfold NPDENTRIES in *. unfold short. mlia.
Qed.

Lemma kmap_entry_user va acc l1 k l2 :
  kmap = l1 ++ k :: l2 -> is_u32 va -> va < KERNBASE -> kmap_entry va acc k = acc.
Proof.
  intros Hk Hva Hlt. pose proof (kmap_rows _ _ _ Hk) as Hrow. destruct k as [[[virt ps] pe] perm].
  destruct Hrow as (n&H1&H2&_&_&_&_&_&_&_&_&Hv&_). unfold kmap_entry. rewrite decide_False; [done|lia].
Qed.

Lemma kmap_pte_user l1 l2 va : kmap = l1 ++ l2 -> is_u32 va -> va < KERNBASE -> kmap_pte l1 va = 0.
Proof.
  revert l2. induction l1 as [|k l1 IH] using rev_ind; intros l2 Hk Hva Hlt; [done|].
  rewrite <- app_assoc in Hk. rewrite kmap_pte_snoc, (kmap_entry_user _ _ _ _ _ Hk) by done.
  by eapply IH.
Qed.

Lemma wp_setupkvm free s Q :
  kmem_at free s ->
  (forall t free' s', built free s (kmap_pte kmap) t free' s' -> Q (root t) s') ->
  (forall free' s', kmem_at free' s' -> (forall v, v ∈ free' <-> v ∈ free) ->
     (forall w, w ∉ free -> ram s' !! w = ram s !! w) -> short free 0 -> Q 0 s') ->
  wp setupkvm Q s.
Proof.
  intros Hk Hok Hbad. unfold setupkvm. apply wp_bind. eapply wp_kalloc; [done|].
  intros s1 Hk1 Hr1 _. destruct free as [|p free]; cbn [hd_error default tail from_option id] in *.
  { apply wp_ret. eapply Hbad; [done|done| |done]. intros w _. by rewrite Hr1. }
  pose proof (ka_frames _ _ Hk) as Hpf%Forall_inv. pose proof (ka_nodup _ _ Hk) as [Hpn _]%NoDup_cons.
  pose proof (frame_pos p Hpf) as Hpos. rewrite (proj2 (Z.eqb_neq p 0)) by mlia.
  apply wp_bind. eapply wp_put_page; [rewrite Hr1; apply ram_page; [apply Hk|done]|].
  assert (popped p zero_page free s (set_ram (<[p:=replicate (Z.to_nat PGSIZE) (u8 0)]> (ram s1)) s1)) as Hpop.
  { split; [|split].
    - apply kmem_at_store; [done|done|apply zero_page_ok|apply zero_page_ok].
    - intros w Hw. cbn [ram set_ram]. rewrite lookup_insert_ne by done. by rewrite Hr1.
    - cbn [ram set_ram]. by rewrite lookup_insert_eq. }
  pose proof (built_empty _ _ _ _ Hk Hpop) as Hb0. set (s2 := set_ram _ s1) in *. clearbody s2.
  apply wp_bind, wp_panic_if; [done|]. apply wp_bind.
  apply (wp_for_find _ _ (fun l1 s' => exists t f, root t = p /\ built (p :: free) s (kmap_pte l1) t f s')).
  - by exists (mkpt p ∅), free.
  - intros l1 k l2 s' Hkm (t&f&Hroot&Hb). pose proof (kmap_rows _ _ _ Hkm) as Hrow.
    destruct k as [[[virt ps] pe] perm].
    destruct Hrow as (n&Hsz&Hszn&Hn&Hva&Hv0&Hvw&Hpa&Hp0&Hpw&Hperm&Hvk&Hclr). rewrite Hsz. subst p.
    apply wp_bind. eapply wp_mappages; [apply Hb|done|done|done|done|done|done|done|done| | |].
    + intros va Hvau Hr. rewrite (bt_pte _ _ _ _ _ _ Hb va Hvau), Hclr by done. done.
    + intros t' f' s3 Hg Hm. change (0 <? 0) with false. cbv iota. apply wp_ret.
      exists t', f'. split; [apply Hg|]. eapply built_grown; [exact Hb|exact Hg|].
      intros va Hvau. rewrite kmap_pte_snoc, (Hm va Hvau), (bt_pte _ _ _ _ _ _ Hb va Hvau).
      unfold kmap_entry. by rewrite Hsz, Hszn.
    + intros t' j s3 Hg Hj Hm. change (-1 <? 0) with true. cbv iota.
      apply wp_bind. rewrite <- (gr_root _ _ _ _ _ _ Hg).
      assert (built (root t :: free) s (fun va => pte_of t' (ram s3) va) t' [] s3) as Hb3
        by (by eapply built_grown; [exact Hb|exact Hg|]).
      eapply wp_freevm.
      { eapply built_uvm; [exact Hb3|]. intros va Hvau Hlt. cbv beta. rewrite (Hm va Hvau), decide_False by mlia.
        rewrite (bt_pte _ _ _ _ _ _ Hb va Hvau). by eapply kmap_pte_user. }
      intros f4 s4 [Hk4 Hf4 Hr4]. do 2 apply wp_ret. eapply Hbad; [done| | |by eapply built_short].
      * intros v. rewrite Hf4, (bt_own _ _ _ _ _ _ Hb3 v). unfold vm_pages.
        rewrite elem_of_nil. split; [|by intros [?|?]; [|right; left]].
        intros [?|[?|(k&Hk')]]; [by left|by right|]. by rewrite lookup_empty in Hk'.
      * intros w Hw. rewrite Hr4; [by apply (bt_ram _ _ _ _ _ _ Hb3)|]. intros [Hin|(k&Hk')].
        -- apply Hw. apply (bt_own _ _ _ _ _ _ Hb3). by right.
        -- by rewrite lookup_empty in Hk'.
  - intros s' (t&f&Hroot&Hb). apply wp_ret. rewrite <- Hroot. by eapply Hok.
Qed.

(** ** copyuvm *)

(** What the allocations of copyuvm() leave alone: everything that was not on
    the free list. *)
Lemma alloced_built_ram img orph all s0 pte t0 f0 s1 a z t up f s w :
  built all s0 pte t0 f0 s1 -> alloced img orph t0 ∅ f0 s1 a z t up f s ->
  w ∉ all -> ram s !! w = ram s0 !! w.
Proof.
  intros [_ _ Hown Hram] Hal Hw. rewrite (al_ram _ _ _ _ _ _ _ _ _ _ _ _ Hal).
  - by apply Hram.
  - intros Hin. apply Hw, Hown. by left.
  - intros Hin. apply Hw, Hown. by right.
Qed.

Lemma alloced_built_own img all s0 pte t0 f0 s1 a z t up f s v :
  built all s0 pte t0 f0 s1 -> alloced img [] t0 ∅ f0 s1 a z t up f s ->
  v ∈ all <-> v ∈ f \/ vm_pages t up v.
Proof.
  intros [_ _ Hown _] Hal. rewrite Hown, (al_own _ _ _ _ _ _ _ _ _ _ _ _ Hal v), elem_of_nil.
  unfold vm_pages. split.
  - intros [[?|[[]|[[??]|(k&_&?)]]]|Hv]; [by left|by right; left|by right; right; exists k|].
    right. left. by eapply al_tabs.
  - intros [?|[Hv|(k&Hk)]]; [by left; left| |].
    + destruct (decide (v ∈ pages_of t0)); [by right|]. left. do 2 right. by left.
    + left. do 3 right. exists k. split; [|done]. destruct (decide (a <= k < z)) as [|Hout]; [done|].
      rewrite (al_up _ _ _ _ _ _ _ _ _ _ _ _ Hal) in Hk by done. by rewrite lookup_empty in Hk.
Qed.

Section copy.
Context (tp : ptable) (upp : gmap Z Z) (all : list Z) (s0 : mem).
Context (Hparent : uvm_at tp upp all s0).

(** A copy of the parent's page: same bytes, same flags. *)
Definition img_copy (k : Z) (d : list Z) (f : Z) : Prop :=
  exists q, upp !! k = Some q /\ d = page_at (ram s0) q /\ f = PTE_FLAGS (pte_of tp (ram s0) k).

(** The parent while its child is being built. *)
Lemma parent_kept free s :
  kmem_at free s -> (forall v, v ∈ free -> v ∈ all) -> (forall w, w ∉ all -> ram s !! w = ram s0 !! w) ->
  uvm_at tp upp free s.
Proof.
  intros Hk Hsub Hram. eapply uvm_frame; [exact Hparent|done| |].
  - intros w Hw. apply Hram. by eapply (va_disj _ _ _ (uv_vm _ _ _ _ Hparent)).
  - intros v Hv%Hsub. split.
    + intros Hin. by eapply (va_disj _ _ _ (uv_vm _ _ _ _ Hparent)).
    + intros k Hkk. by apply (uv_dom _ _ _ _ Hparent) in Hkk as (_&_&_&_&?).
Qed.

Lemma wp_copy_abort pte t0 f0 s1 i t up f s (Q : Z -> mem -> Prop) :
  built all s0 pte t0 f0 s1 -> alloced img_copy [] t0 ∅ f0 s1 0 i t up f s ->
  (forall free' s', uvm_at tp upp free' s' -> (forall v, v ∈ free' <-> v ∈ all) ->
     (forall w, w ∉ all -> ram s' !! w = ram s0 !! w) -> Q 0 s') ->
  wp (freevm (root t) ;;; ret 0) Q s.
Proof.
  intros Hb Hal HQ. apply wp_bind. eapply wp_freevm; [apply Hal|]. intros f2 s2 [Hk2 Hf2 Hr2].
  assert (forall v, v ∈ f2 <-> v ∈ all) as Hiff.
  { intros v. by rewrite Hf2, (alloced_built_own _ _ _ _ _ _ _ _ _ _ _ _ _ v Hb Hal). }
  assert (forall w, w ∉ all -> ram s2 !! w = ram s0 !! w) as Hram.
  { intros w Hw. rewrite Hr2; [by eapply alloced_built_ram|]. intros Hv. apply Hw.
    apply (alloced_built_own _ _ _ _ _ _ _ _ _ _ _ _ _ w Hb Hal). by right. }
  eapply wp_ret, HQ; [|exact Hiff|exact Hram]. apply parent_kept; [done| |done]. intros v. by rewrite Hiff.
Qed.

Lemma flags_present e : has e PTE_P = true -> Z.lor (PTE_FLAGS e) PTE_P = PTE_FLAGS e.
Proof.
  rewrite has_P. intros He. apply Z.bits_inj'. intros n Hn. rewrite Z.lor_spec. unfold PTE_P.
  destruct (decide (n = 0)) as [->|Hne].
  - unfold PTE_FLAGS. rewrite Z.land_spec, Z.bit0_odd, He. done.
  - rewrite (Z.bits_above_log2 1) by (simpl; lia). apply orb_false_r.
Qed.

(** A present user page has a page table. *)
Lemma user_tab t up free s a p :
  uvm_at t up free s -> up !! a = Some p ->
  exists q, tabs t !! PDX a = Some q /\ frame q /\ entry (page_at (ram s) q) (PTX a) = pte_of t (ram s) a /\
    has (pte_of t (ram s) a) PTE_P = true /\ PTE_ADDR (pte_of t (ram s) a) = V2P p.
Proof.
  intros Hu Hp. destruct (uv_dom _ _ _ _ Hu a p Hp) as (Ham&Har&_).
  pose proof (uv_pte _ _ _ _ Hu a ltac:(mlia) ltac:(lia)) as He. cbv zeta in He.
  rewrite pg_id, Hp in He by done. destruct He as [HP Hadr]. pose proof HP as HP'.
  unfold pte_of in HP'. destruct (tabs t !! PDX a) as [q|] eqn:Hq; [|done]. exists q. split; [done|].
  split; [by eapply (pa_tabs _ _ (va_pt _ _ _ (uv_vm _ _ _ _ Hu)))|]. unfold pte_of. rewrite Hq in *.
  unfold pte_of in Hadr. rewrite Hq in Hadr. done.
Qed.

Lemma popped_copy t up p f r s s1 :
  uvm_at t up (p :: f) s -> uvm_at t up f s1 -> ram s1 = ram s -> frame r ->
  popped p (page_at (ram s) r) f s (set_ram (<[p := page_at (ram s) r]> (ram s1)) s1).
Proof.
  intros Hu Hu1 Hr Hrf. pose proof (head_fresh _ _ _ _ _ Hu) as (Hpf&Hpn&_).
  assert (ram_ok (ram s)) as Hok by apply Hu. split; [|split].
  - apply kmem_at_store; [apply Hu1|done|by apply page_len|by apply page_bytes].
  - intros w Hw. cbn [ram set_ram]. rewrite lookup_insert_ne by done. by rewrite Hr.
  - cbn [ram set_ram]. by rewrite lookup_insert_eq.
Qed.

Lemma wp_copyuvm_loop pte t0 f0 s1 sz Q fuel : forall i t up f s,
  built all s0 pte t0 f0 s1 -> alloced img_copy [] t0 ∅ f0 s1 0 i t up f s ->
  i mod PGSIZE = 0 -> 0 <= i <= PGROUNDUP sz -> 0 <= sz <= KERNBASE -> sz - i <= PGSIZE * Z.of_nat fuel ->
  (forall k, k mod PGSIZE = 0 -> 0 <= k < sz -> is_Some (upp !! k)) ->
  (forall t' up' f' s', alloced img_copy [] t0 ∅ f0 s1 0 (PGROUNDUP sz) t' up' f' s' -> Q (root t') s') ->
  (forall free' s', uvm_at tp upp free' s' -> (forall v, v ∈ free' <-> v ∈ all) ->
     (forall w, w ∉ all -> ram s' !! w = ram s0 !! w) -> Q 0 s') ->
  wp (copyuvm_loop fuel (root tp) (root t) i sz) Q s.
Proof.
  induction fuel as [|fuel IH]; intros i t up f s Hb Hal Him Hi Hsz Hfuel Hdom Hok Hbad;
    destruct (roundup_range sz) as [Hzm Hzr]; [lia|lia| |lia|lia|]; cbn [copyuvm_loop];
    destruct (Z.ltb_spec i sz) as [Hlt|Hge]; try mlia.
  1, 3: replace i with (PGROUNDUP sz) in Hal by
    (apply Z.mod_divide in Hzm as [m Hm]; [|done]; apply Z.mod_divide in Him as [m' Hm']; [|done]; mlia);
    by eapply wp_ret, Hok.
  pose proof (al_uvm _ _ _ _ _ _ _ _ _ _ _ _ Hal) as Hu.
  assert (forall v, v ∈ f -> v ∈ all) as Hsub.
  { intros v Hv. apply (alloced_built_own _ _ _ _ _ _ _ _ _ _ _ _ _ v Hb Hal). by left. }
  assert (forall w, w ∉ all -> ram s !! w = ram s0 !! w) as Hram by (intros w; by eapply alloced_built_ram).
  assert (uvm_at tp upp f s) as Hpar by (apply parent_kept; [apply Hu|done|done]).
  destruct (Hdom i Him ltac:(lia)) as [r Hr]. destruct (user_tab _ _ _ _ _ _ Hpar Hr) as (q&Hq&Hqf&He&HP&Hadr).
  destruct (uv_dom _ _ _ _ Hpar _ _ Hr) as (_&_&Hrf&_).
  destruct (frame_word q (PTX i) Hqf (PTX_range i)) as (_&_&Hnz).
  assert (forall w, w ∈ pages_of tp -> ram s !! w = ram s0 !! w) as Hpgs.
  { intros w Hw. apply Hram. by eapply (va_disj _ _ _ (uv_vm _ _ _ _ Hparent)). }
  assert (page_at (ram s) r = page_at (ram s0) r) as Hpgr.
  { unfold page_at. rewrite Hram; [done|]. by apply (uv_dom _ _ _ _ Hparent) in Hr as (_&_&_&_&?). }
  apply wp_bind, wp_walk; [apply Hpar|apply Hpar|mlia|]. rewrite Hq.
  apply wp_bind, wp_panic_if; [by apply Z.eqb_neq|].
  apply wp_bind, wp_load_entry; [apply Hpar|done|apply PTX_range|]. rewrite He.
  apply wp_bind, wp_panic_if; [by rewrite HP|]. rewrite Hadr, frame_P2V by done.
  eapply wp_kalloc_user; [exact Hu| |].
  - intros -> s2 Hu2 Hr2 _. change (0 =? 0) with true. cbv iota.
    eapply wp_copy_abort; [exact Hb|by eapply alloced_same_ram|done].
  - intros p f1 -> Hpf Hp0 s2 Hu2 Hr2 _. rewrite (proj2 (Z.eqb_neq p 0)) by done.
    apply wp_bind, wp_bind. eapply wp_get_page; [rewrite Hr2; apply ram_page; [apply Hu|done]|].
    eapply wp_put_page; [rewrite Hr2; apply ram_page; [apply Hu|done]|].
    pose proof (popped_copy t up p f1 r s s2 Hu Hu2 Hr2 Hrf) as Hpop. set (s3 := set_ram _ s2) in *. clearbody s3.
    apply wp_bind. eapply (wp_map_user img_copy t up f1 i p _ _ s s3); [done|exact Hpop| |done|mlia| | | |].
    + rewrite (al_up _ _ _ _ _ _ _ _ _ _ _ _ Hal) by lia. apply lookup_empty.
    + rewrite PTE_FLAGS_eq. by apply Z.mod_pos_bound.
    + rewrite flags_present by done. exists r. split; [done|]. by rewrite Hpgr, (pte_of_frame _ _ _ _ Hpgs).
    + intros t' f' s' Hst. change (0 <? 0) with false. cbv iota. rewrite u32_small by mlia.
      rewrite <- (al_root _ _ _ _ _ _ _ _ _ _ _ _ Hst).
      eapply IH; [exact Hb|eapply alloced_trans; [|exact Hal|exact Hst]; mlia|by apply next_page| |done|mlia|done|done|done].
      apply Z.mod_divide in Hzm as [m Hm]; [|done]; apply Z.mod_divide in Him as [m' Hm']; [|done]. mlia.
    + intros t' s' Hst. change (-1 <? 0) with true. cbv iota.
      rewrite <- (al_root _ _ _ _ _ _ _ _ _ _ _ _ Hst). apply wp_bind.
      eapply wp_kfree_orphan; [eapply alloced_trans; [|exact Hal|exact Hst]; lia|done|].
      intros s4 Hfin. eapply wp_copy_abort; [exact Hb|exact Hfin|done].
Qed.
End copy.

(** ** copyout *)

(** The byte at user address [va]. *)
Definition user_byte (up : gmap Z Z) (m : gmap Z (list Z)) (va : Z) : option Z :=
  p ← up !! pg va; page_at m p !! Z.to_nat (va mod PGSIZE).

Definition user_ok (t : ptable) (up : gmap Z Z) (m : gmap Z (list Z)) (va : Z) : Prop :=
  is_Some (up !! pg va) /\ has (pte_of t m va) PTE_U = true.

(** [buf] has been stored at user address [va], and nothing else has changed. *)
Record copied (t : ptable) (up : gmap Z Z) (free : list Z) (s : mem) (va : Z) (buf : list Z) (s' : mem) : Prop := {
  cp_uvm : uvm_at t up free s';
  cp_byte a : 0 <= a -> user_byte up (ram s') a =
    if decide (va <= a < va + Z.of_nat (length buf)) then buf !! Z.to_nat (a - va) else user_byte up (ram s) a;
  cp_pte a : pte_of t (ram s') a = pte_of t (ram s) a;
  cp_ram w : (forall k, up !! k <> Some w) -> ram s' !! w = ram s !! w;
}.

Lemma pte_of_page t m a b : is_u32 a -> is_u32 b -> pg a = pg b -> pte_of t m a = pte_of t m b.
Proof. intros Ha Hb Hpg. destruct (pg_indices a b Ha Hb Hpg) as [H1 H2]. unfold pte_of. by rewrite H1, H2. Qed.

Lemma wp_uva2ka t up free s va p Q :
  uvm_at t up free s -> va mod PGSIZE = 0 -> up !! va = Some p -> has (pte_of t (ram s) va) PTE_U = true ->
  Q p s -> wp (uva2ka (root t) va) Q s.
Proof.
  intros Hu Hm Hp HU HQ. destruct (uv_dom _ _ _ _ Hu _ _ Hp) as (_&Hr&Hpf&_).
  destruct (user_tab _ _ _ _ _ _ Hu Hp) as (q&Hq&Hqf&He&HP&Hadr).
  unfold uva2ka. apply wp_bind, wp_walk; [apply Hu|apply Hu|mlia|]. rewrite Hq.
  apply wp_bind, wp_load_entry; [apply Hu|done|apply PTX_range|]. rewrite He, HP, HU. cbn [negb].
  apply wp_ret. by rewrite Hadr, frame_P2V.
Qed.

Lemma frame_byte v o :
  frame v -> 0 <= o < PGSIZE -> PGROUNDDOWN (v + o) = v /\ (v + o) mod PGSIZE = o.
Proof.
  intros Hv Ho. pose proof (frame_pos v Hv). destruct Hv as [Ha Hr].
  assert ((v + o) mod PGSIZE = o) as Hm by (by apply mod_page_add).
  split; [|done]. rewrite PGROUNDDOWN_eq, Hm; [lia|mlia].
Qed.

(** A store into one user page. *)
Lemma copied_page t up free s va p new :
  uvm_at t up free s -> 0 <= va -> up !! pg va = Some p -> bytes_ok new ->
  va mod PGSIZE + Z.of_nat (length new) <= PGSIZE ->
  copied t up free s va new
    (set_ram (<[p := splice (Z.to_nat (va mod PGSIZE)) new (page_at (ram s) p)]> (ram s)) s).
Proof.
  intros Hu Hva Hp Hb Hfit. destruct (uv_dom _ _ _ _ Hu _ _ Hp) as (_&Hr&Hpf&Hpt&Hpn).
  pose proof (Z.mod_pos_bound va PGSIZE ltac:(done)) as Hvm.
  assert (ram_ok (ram s)) as Hok by apply Hu. pose proof (page_len _ _ Hok Hpf) as Hlen.
  assert (Z.to_nat (va mod PGSIZE) + length new <= length (page_at (ram s) p))%nat as Hle by (rewrite Hlen; lia).
  assert (forall w, w ∈ pages_of t ->
    <[p:=splice (Z.to_nat (va mod PGSIZE)) new (page_at (ram s) p)]> (ram s) !! w = ram s !! w) as Hpg.
  { intros w Hw. rewrite lookup_insert_ne; [done|]. by intros ->. }
  constructor; cbn [ram set_ram].
  - eapply uvm_frame; [exact Hu| |done|].
    + apply kmem_at_store; [apply Hu|done|by rewrite length_splice|].
      apply splice_bytes_ok; [done|]. by apply page_bytes.
    + intros v Hv. split; [intros Hin; by eapply (va_disj _ _ _ (uv_vm _ _ _ _ Hu))|].
      intros k Hk. by apply (uv_dom _ _ _ _ Hu) in Hk as (_&_&_&_&?).
  - intros a Ha. unfold user_byte. pose proof (Z.mod_pos_bound a PGSIZE ltac:(done)) as Ham.
    destruct (decide (pg a = pg va)) as [Hpa|Hpa].
    + rewrite Hpa, Hp. cbn. rewrite page_at_insert. unfold pg in Hpa. case_decide as Hin.
      * rewrite lookup_splice_in by (done || lia). f_equal. lia.
      * rewrite lookup_splice_out by (done || lia). done.
    + rewrite decide_False.
      2: { pose proof (pg_range a). pose proof (pg_range va). intros Hin. apply Hpa.
           apply pg_eq; [apply pg_mod|]. unfold pg in *. lia. }
      destruct (up !! pg a) as [q|] eqn:Hq; [|done]. cbn.
      rewrite page_at_insert_ne; [done|]. intros ->. by eapply Hpa, (uv_inj _ _ _ _ Hu).
  - intros a. by apply pte_of_frame.
  - intros w Hw. rewrite lookup_insert_ne; [done|]. intros ->. by eapply Hw.
Qed.

Lemma copied_nil t up free s va : uvm_at t up free s -> copied t up free s va [] s.
Proof. intros Hu. constructor; [done| |done|done]. intros a Ha. rewrite decide_False; [done|]. simpl. lia. Qed.

Lemma copied_app t up free s va b1 s1 b2 s2 :
  copied t up free s va b1 s1 -> copied t up free s1 (va + Z.of_nat (length b1)) b2 s2 ->
  copied t up free s va (b1 ++ b2) s2.
Proof.
  intros [U1 B1 P1 R1] [U2 B2 P2 R2]. constructor; [done| | |].
  - intros a Ha. rewrite (B2 a Ha), (B1 a Ha), length_app.
    destruct (decide (va + Z.of_nat (length b1) <= a < va + Z.of_nat (length b1) + Z.of_nat (length b2))).
    + rewrite decide_True by lia. rewrite lookup_app_r by lia. f_equal. lia.
    + destruct (decide (va <= a < va + Z.of_nat (length b1))).
      * rewrite decide_True by lia. by rewrite lookup_app_l by lia.
      * by rewrite decide_False by lia.
  - intros a. by rewrite P2.
  - intros w Hw. by rewrite R2, R1.
Qed.

Lemma wp_copyout_loop fuel : forall t up free s va buf Q,
  uvm_at t up free s -> 0 <= va -> va + Z.of_nat (length buf) <= KERNBASE -> bytes_ok buf ->
  (length buf <= fuel)%nat ->
  (forall a, va <= a < va + Z.of_nat (length buf) -> user_ok t up (ram s) a) ->
  (forall s', copied t up free s va buf s' -> Q 0 s') ->
  wp (copyout_loop fuel (root t) va buf (Z.of_nat (length buf))) Q s.
Proof.
  induction fuel as [|fuel IH]; intros t up free s va buf Q Hu Hva Hend Hb Hf Hok HQ; cbn [copyout_loop].
  { destruct buf; [|simpl in *; lia]. by apply wp_ret, HQ, copied_nil. }
  destruct (Z.ltb_spec 0 (Z.of_nat (length buf))) as [Hlt|Hge].
  2: { destruct buf; [|simpl in *; lia]. by apply wp_ret, HQ, copied_nil. }
  pose proof (Z.mod_pos_bound va PGSIZE ltac:(done)) as Hvm.
  assert (is_u32 va) as Hvau by mlia. rewrite PGROUNDDOWN_eq by done. fold (pg va).
  pose proof (pg_range va) as Hpr. pose proof (pg_mod va) as Hpm.
  destruct (Hok va) as [[p Hp] HU]; [lia|]. destruct (uv_dom _ _ _ _ Hu _ _ Hp) as (_&Hr&Hpf&_).
  apply wp_bind. eapply wp_uva2ka; [done|done|done| |].
  { rewrite <- HU. f_equal. apply pte_of_page; [mlia|done|by apply pg_id]. }
  rewrite (proj2 (Z.eqb_neq p 0)) by (pose proof (frame_pos p Hpf); mlia).
  assert (va - pg va = va mod PGSIZE) as Hoff by (unfold pg; lia). rewrite Hoff.
  set (n := Z.min (PGSIZE - va mod PGSIZE) (Z.of_nat (length buf))).
  destruct (frame_byte p (va mod PGSIZE) Hpf Hvm) as [Hd1 Hd2].
  apply wp_bind. unfold store_bytes. rewrite Hd1, Hd2. apply wp_bind.
  eapply wp_get_page; [apply ram_page; [apply Hu|done]|]. eapply wp_put_page; [apply ram_page; [apply Hu|done]|].
  assert (Z.of_nat (length (take (Z.to_nat n) buf)) = n) as Hln by (rewrite length_take; lia).
  pose proof (copied_page t up free s va p (take (Z.to_nat n) buf) Hu Hva Hp
    ltac:(by apply Forall_take) ltac:(lia)) as Hc.
  set (s1 := set_ram _ s) in *. clearbody s1.
  assert (n = Z.of_nat (length buf) \/ pg va + PGSIZE = va + n) as Hn by lia.
  replace (Z.of_nat (length buf) - n) with (Z.of_nat (length (drop (Z.to_nat n) buf))) by (rewrite length_drop; lia).
  destruct Hn as [Hn|Hn].
  - rewrite (drop_ge buf) by lia. cbn [length]. change (Z.of_nat 0) with 0.
    rewrite take_ge in Hc by lia. destruct fuel; by apply wp_ret, HQ.
  - rewrite u32_small, Hn by mlia. eapply (IH t up free); [apply Hc|lia|rewrite length_drop; lia|by apply Forall_drop
      |rewrite length_drop; lia| |].
    + intros a Ha. rewrite length_drop in Ha. destruct (Hok a) as [Ho1 Ho2]; [lia|]. split; [done|].
      by rewrite (cp_pte _ _ _ _ _ _ _ Hc).
    + intros s2 Hc2. apply HQ. rewrite <- (take_drop (Z.to_nat n) buf). eapply copied_app; [exact Hc|].
      by rewrite Hln.
Qed.
End rep.
