(* ===== verification/VmThms.v ===== *)
(** The theorems about vm.c, and an address space they apply to. *)

From S2P Require Import Prelude Params Bytes Kalloc Vm VmSpec VmFork.

Section thms.
Context `{KernelImage}.

Lemma same_frames free free' s s' :
  kmem_at free s -> kmem_at free' s' -> (forall v, v ∈ free' <-> v ∈ free) -> free' ≡ₚ free.
Proof. intros [] [] Hiff. by apply NoDup_Permutation. Qed.

Lemma user_byte_frame t up all m m' va s :
  uvm_at t up all s -> (forall w, w ∉ all -> m' !! w = m !! w) -> user_byte up m' va = user_byte up m va.
Proof.
  intros Hu Hm. unfold user_byte. destruct (up !! pg va) as [p|] eqn:Hp; [|done]. cbn.
  unfold page_at. rewrite Hm; [done|]. by apply (uv_dom _ _ _ _ Hu) in Hp as (_&_&_&_&?).
Qed.

Lemma pg_pos va : 0 <= va -> 0 <= pg va.
Proof.
  intros Hva. unfold pg. pose proof (Z.div_mod va PGSIZE ltac:(done)).
  pose proof (Z.div_pos va PGSIZE Hva ltac:(done)). mlia.
Qed.

Lemma roundup_page sz va : 0 <= sz <= KERNBASE -> 0 <= va < PGROUNDUP sz -> 0 <= pg va < sz.
Proof.
  intros Hsz Hva. destruct (roundup_range sz) as [Hm Hr]; [lia|lia|]. split; [apply pg_pos; lia|].
  pose proof (pg_range va). pose proof (pg_mod va) as [a Ha]%Z.mod_divide; [|done].
  apply Z.mod_divide in Hm as [b Hb]; [|done]. mlia.
Qed.

(** What copyuvm() makes: a child whose user bytes and flags are those of the
    parent, in other frames, with the kernel's own mappings; the parent keeps
    its address space and its bytes. *)
Definition is_copy (t : ptable) (up : gmap Z Z) (s : mem) (sz : Z)
    (t' : ptable) (up' : gmap Z Z) (s' : mem) : Prop :=
  (forall va, user_byte up (ram s') va = user_byte up (ram s) va) /\
  (forall va, 0 <= va < PGROUNDUP sz -> user_byte up' (ram s') va = user_byte up (ram s) va) /\
  (forall va, 0 <= va < PGROUNDUP sz ->
     PTE_FLAGS (pte_of t' (ram s') va) = PTE_FLAGS (pte_of t (ram s) va)) /\
  (forall k, PGROUNDUP sz <= k -> up' !! k = None) /\
  (forall va, is_u32 va -> KERNBASE <= va -> pte_of t' (ram s') va = kmap_pte kmap va) /\
  (forall k k' p, up !! k = Some p -> up' !! k' <> Some p).

Lemma copy_made t up free s sz pte t0 f0 s1 t' up' f' s' :
  uvm_at t up free s -> 0 <= sz <= KERNBASE ->
  built free s pte t0 f0 s1 -> (forall va, is_u32 va -> pte va = kmap_pte kmap va) ->
  alloced (img_copy t up s) [] t0 ∅ f0 s1 0 (PGROUNDUP sz) t' up' f' s' ->
  is_copy t up s sz t' up' s'.
Proof.
  intros Hu Hsz Hb Hpte Hal. destruct (roundup_range sz) as [Hm Hr]; [lia|lia|].
  assert (forall w, w ∉ free -> ram s' !! w = ram s !! w) as Hram by (intros w; by eapply alloced_built_ram).
  assert (forall va, 0 <= va < PGROUNDUP sz -> exists p, up' !! pg va = Some p /\
    img_copy t up s (pg va) (page_at (ram s') p) (PTE_FLAGS (pte_of t' (ram s') (pg va)))) as Hnew.
  { intros va Hva. eapply (al_new _ _ _ _ _ _ _ _ _ _ _ _ Hal); [|apply pg_mod].
    pose proof (pg_range va). pose proof (pg_pos va). lia. }
  assert (forall va, 0 <= va < PGROUNDUP sz -> is_u32 va /\ is_u32 (pg va)) as Hu32.
  { intros va Hva. pose proof (pg_range va). pose proof (pg_pos va). mlia. }
  repeat split.
  - intros va. by eapply user_byte_frame.
  - intros va Hva. destruct (Hnew va Hva) as (p&Hp&q&Hq&Hpg&_). unfold user_byte.
    rewrite Hp, Hq. cbn. by rewrite Hpg.
  - intros va Hva. destruct (Hnew va Hva) as (p&Hp&q&Hq&_&Hfl). destruct (Hu32 va Hva).
    rewrite <- !(pte_of_page _ _ (pg va) va) by (done || by rewrite pg_id by apply pg_mod). done.
  - intros k Hk. rewrite (al_up _ _ _ _ _ _ _ _ _ _ _ _ Hal) by lia. apply lookup_empty.
  - intros va Hva Hge. rewrite (al_pte _ _ _ _ _ _ _ _ _ _ _ _ Hal); [|done| |by left].
    + by rewrite (bt_pte _ _ _ _ _ _ Hb), Hpte.
    + pose proof (pg_user va). apply Z.mod_divide in Hm as [b Hb']; [|done]. mlia.
  - intros k k' p Hk Hk'. apply (uv_dom _ _ _ _ Hu) in Hk as (_&_&_&_&Hn). apply Hn.
    apply (alloced_built_own _ _ _ _ _ _ _ _ _ _ _ _ _ p Hb Hal). right. right. by exists k'.
Qed.

(** copyuvm(): the copy, or nothing; the frames that were not free are as
    before. *)
Lemma wp_copyuvm t up free sz s (Q : Z -> mem -> Prop) :
  uvm_at t up free s -> 0 <= sz <= KERNBASE ->
  (forall k, k mod PGSIZE = 0 -> 0 <= k < sz -> is_Some (up !! k)) ->
  (forall t' up' free' s', uvm_at t' up' free' s' -> uvm_at t up free' s' -> is_copy t up s sz t' up' s' ->
     (forall w, w ∉ free -> ram s' !! w = ram s !! w) ->
     (forall v, v ∈ free <-> v ∈ free' \/ vm_pages t' up' v) -> root t' <> 0 -> Q (root t') s') ->
  (forall free' s', uvm_at t up free' s' -> (forall v, v ∈ free' <-> v ∈ free) ->
     (forall w, w ∉ free -> ram s' !! w = ram s !! w) -> Q 0 s') ->
  wp (copyuvm (root t) sz) Q s.
Proof.
  intros Hu Hsz Hdom Hok Hbad. unfold copyuvm. apply wp_bind. eapply wp_setupkvm; [apply Hu| |].
  - intros t0 f0 s1 Hb. assert (root t0 <> 0) as Hnz.
    { pose proof (pa_root _ _ (va_pt _ _ _ (bt_vm _ _ _ _ _ _ Hb))) as Hf%frame_pos. mlia. }
    rewrite (proj2 (Z.eqb_neq _ 0)) by done.
    assert (uvm_at t0 ∅ f0 s1) as Hu0.
    { eapply built_uvm; [done|]. intros va Hva Hlt. by eapply kmap_pte_user; [rewrite app_nil_r|..]. }
    eapply (wp_copyuvm_loop t up free s Hu (kmap_pte kmap) t0 f0 s1);
      [done|by apply alloced_refl|done| |done| |done| |done].
    + destruct (roundup_range sz); lia.
    + pose proof (Z.div_mod sz PGSIZE ltac:(done)). pose proof (Z.mod_pos_bound sz PGSIZE ltac:(done)).
      pose proof (Z.div_pos sz PGSIZE). mlia.
    + intros t' up' f' s' Hal.
      assert (forall w, w ∉ free -> ram s' !! w = ram s !! w) as Hram by (intros w; by eapply alloced_built_ram).
      eapply (Hok t' up' f' s'); [apply Hal| |by eapply copy_made|done| |by rewrite (al_root _ _ _ _ _ _ _ _ _ _ _ _ Hal)].
      * eapply parent_kept; [done|apply Hal| |done].
        intros v Hv. apply (alloced_built_own _ _ _ _ _ _ _ _ _ _ _ _ _ v Hb Hal). by left.
      * intros v. exact (alloced_built_own _ _ _ _ _ _ _ _ _ _ _ _ _ v Hb Hal).
  - intros free' s' Hk Hiff Hram _. change (0 =? 0) with true. cbv iota. apply wp_ret.
    eapply Hbad; [|done|done]. eapply parent_kept; [done|done| |done]. intros v. by rewrite Hiff.
Qed.

(** C11: copyuvm() either copies the whole user memory into fresh frames, or
    returns 0 with every page back on the free list; either way the parent's
    address space and bytes are unchanged. *)
Theorem copyuvm_correct t up free sz s :
  uvm_at t up free s -> 0 <= sz <= KERNBASE ->
  (forall k, k mod PGSIZE = 0 -> 0 <= k < sz -> is_Some (up !! k)) ->
  wp (copyuvm (root t) sz) (fun d s' =>
    if decide (d = 0)
    then exists free', uvm_at t up free' s' /\ free' ≡ₚ free /\
           forall va, user_byte up (ram s') va = user_byte up (ram s) va
    else exists t' up' free', d = root t' /\ uvm_at t' up' free' s' /\ uvm_at t up free' s' /\
           is_copy t up s sz t' up' s') s.
Proof.
  intros Hu Hsz Hdom. eapply wp_copyuvm; [done..| |].
  - intros t' up' f' s' Hu' Hpar Hcp _ _ Hnz. rewrite decide_False by done. by exists t', up', f'.
  - intros f' s' Hu' Hiff Hram. rewrite decide_True by done. exists f'. split; [done|].
    split; [by eapply same_frames; [apply Hu|apply Hu'|]|]. intros va. by eapply (user_byte_frame t up free).
Qed.

(** C25: copyout() of a buffer into pages that the user may access returns 0
    and stores exactly its bytes at exactly those addresses; a second address
    space that shares no frame with the first keeps all its bytes. *)
Theorem copyout_correct t up t2 up2 free va buf s :
  uvm_at t up free s -> 0 <= va -> va + Z.of_nat (length buf) <= KERNBASE -> bytes_ok buf ->
  (forall a, va <= a < va + Z.of_nat (length buf) -> user_ok t up (ram s) a) ->
  uvm_at t2 up2 free s -> (forall k k' p, up !! k = Some p -> up2 !! k' <> Some p) ->
  wp (copyout (root t) va buf (Z.of_nat (length buf))) (fun r s' =>
    r = 0 /\ uvm_at t up free s' /\
    (forall a, 0 <= a -> user_byte up (ram s') a =
       if decide (va <= a < va + Z.of_nat (length buf)) then buf !! Z.to_nat (a - va)
       else user_byte up (ram s) a) /\
    (forall a, user_byte up2 (ram s') a = user_byte up2 (ram s) a)) s.
Proof.
  intros Hu Hva Hend Hb Hok Hu2 Hdisj. unfold copyout.
  eapply wp_copyout_loop; [done|done|done|done|lia|done|]. intros s' [Hu' Hby _ Hram].
  split; [done|]. split; [done|]. split; [done|]. intros a. unfold user_byte.
  destruct (up2 !! pg a) as [p|] eqn:Hp; [|done]. cbn. unfold page_at. rewrite Hram; [done|].
  intros k Hk. by eapply Hdisj.
Qed.

Lemma alloced_bytes img orph t up free s a z t' up' free' s' va :
  uvm_at t up free s -> alloced img orph t up free s a z t' up' free' s' -> ~ (a <= pg va < z) ->
  user_byte up' (ram s') va = user_byte up (ram s) va.
Proof.
  intros Hu Hal Hr. unfold user_byte. rewrite (al_up _ _ _ _ _ _ _ _ _ _ _ _ Hal) by done.
  destruct (up !! pg va) as [p|] eqn:Hp; [|done]. cbn. unfold page_at.
  apply (uv_dom _ _ _ _ Hu) in Hp as (_&_&_&Hn1&Hn2). by rewrite (al_ram _ _ _ _ _ _ _ _ _ _ _ _ Hal).
Qed.

(** The frames of an address space, page tables and user pages, and the free
    list: together they are the same before and after. *)
Definition conserved (t : ptable) (up : gmap Z Z) (free : list Z) (t' : ptable) (up' : gmap Z Z) (free' : list Z) : Prop :=
  forall v, v ∈ free \/ vm_pages t up v <-> v ∈ free' \/ vm_pages t' up' v.

Lemma alloced_conserved img t up free s a z t' up' free' s' :
  alloced img [] t up free s a z t' up' free' s' -> (forall k, a <= k < z -> up !! k = None) ->
  conserved t up free t' up' free'.
Proof.
  intros Hal Hnone v. rewrite (al_own _ _ _ _ _ _ _ _ _ _ _ _ Hal v), elem_of_nil. unfold vm_pages. split.
  - intros [[?|[[]|[[??]|(k&_&?)]]]|[?|(k&Hk)]]; [by left|by right; left|by right; right; exists k
      |by right; left; eapply al_tabs|]. right. right. exists k.
    rewrite (al_up _ _ _ _ _ _ _ _ _ _ _ _ Hal); [done|]. intros Hr. by rewrite Hnone in Hk.
  - intros [?|[?|(k&Hk)]]; [by left; left| |].
    + destruct (decide (v ∈ pages_of t)); [by right; left|]. left. do 2 right. by left.
    + destruct (decide (a <= k < z)); [left; do 3 right; by exists k|].
      right. right. exists k. by rewrite <- (al_up _ _ _ _ _ _ _ _ _ _ _ _ Hal).
Qed.

(** C26: growing from oldsz to newsz either returns newsz, with every new page
    mapped, zeroed and accessible to the user, or returns 0 with the user
    memory as it was; no byte of the old memory changes and no page is lost. *)
Theorem allocuvm_correct t up free oldsz newsz s :
  uvm_at t up free s -> 0 <= oldsz <= newsz -> newsz < KERNBASE ->
  (forall k, PGROUNDUP oldsz <= k < PGROUNDUP newsz -> up !! k = None) ->
  wp (allocuvm (root t) oldsz newsz) (fun r s' =>
    exists t' up' free', root t' = root t /\ uvm_at t' up' free' s' /\ conserved t up free t' up' free' /\
      (forall va, ~ (PGROUNDUP oldsz <= pg va < PGROUNDUP newsz) ->
         user_byte up' (ram s') va = user_byte up (ram s) va) /\
      ((r = newsz /\ forall va, PGROUNDUP oldsz <= pg va < PGROUNDUP newsz ->
          user_byte up' (ram s') va = Some 0 /\ PTE_FLAGS (pte_of t' (ram s') (pg va)) = 7) \/
       (r = 0 /\ up' = up))) s.
Proof.
  intros Hu Hsz Hk Hnone. eapply wp_allocuvm; [done..| |].
  - intros t' up' free' s' Hal. exists t', up', free'. split; [apply Hal|]. split; [apply Hal|].
    split; [by eapply alloced_conserved|]. split; [intros va Hr; by eapply alloced_bytes|]. left. split; [done|].
    intros va Hr. destruct (al_new _ _ _ _ _ _ _ _ _ _ _ _ Hal (pg va) Hr (pg_mod va)) as (p&Hp&Hz&Hf).
    split; [|done]. unfold user_byte. rewrite Hp. cbn. rewrite Hz.
    pose proof (Z.mod_pos_bound va PGSIZE ltac:(done)). apply lookup_replicate_2. lia.
  - intros t' free' s' Hal _. exists t', up, free'. split; [apply Hal|]. split; [apply Hal|].
    split; [eapply alloced_conserved; [done|]; lia|]. split; [|by right].
    intros va Hr. eapply alloced_bytes; [done|done|]. lia.
Qed.

(** sbrk up and down: growing and shrinking back gives the same user
    memory, and every frame taken for a user page is free again. *)
Theorem allocuvm_deallocuvm t up free oldsz newsz s :
  uvm_at t up free s -> 0 <= oldsz < newsz -> newsz < KERNBASE ->
  (forall k, PGROUNDUP oldsz <= k < PGROUNDUP newsz -> up !! k = None) ->
  wp (allocuvm (root t) oldsz newsz ;;; deallocuvm (root t) newsz oldsz) (fun r s' =>
    r = oldsz /\ exists t' free', root t' = root t /\ uvm_at t' up free' s' /\
      conserved t up free t' up free' /\
      forall va, user_byte up (ram s') va = user_byte up (ram s) va) s.
Proof.
  intros Hu Hsz Hk Hnone.
  assert (forall t' free' s', alloced img_zero [] t up free s (PGROUNDUP oldsz) (PGROUNDUP oldsz) t' up free' s' ->
    exists t' free', root t' = root t /\ uvm_at t' up free' s' /\ conserved t up free t' up free' /\
      forall va, user_byte up (ram s') va = user_byte up (ram s) va) as Hend.
  { intros t' free' s' Hal. exists t', free'. split; [apply Hal|]. split; [apply Hal|].
    split; [eapply alloced_conserved; [done|]; lia|]. intros va. eapply alloced_bytes; [done|done|]. lia. }
  apply wp_bind. destruct (roundup_range oldsz) as [Hom Hor]; [lia|lia|].
  destruct (roundup_range newsz) as [Hnm Hnr]; [lia|lia|].
  assert (PGROUNDUP oldsz <= PGROUNDUP newsz).
  { apply Z.mod_divide in Hom as [m Hm]; [|done]; apply Z.mod_divide in Hnm as [m' Hm']; [|done]. mlia. }
  eapply wp_allocuvm; [done|lia|done|done| |].
  - intros t' up' free' s1 Hal. replace (root t) with (root t') at 1 by apply Hal.
    eapply wp_undo; [done|done|done|lia|done|]. intros free2 s2 Hun. split; [done|]. by eapply Hend.
  - intros t' free' s1 Hal _. replace (root t) with (root t') at 1 by apply Hal.
    eapply wp_undo; [done|done|done|lia|done|]. intros free2 s2 Hun. split; [done|]. by eapply Hend.
Qed.

(** kmap by ranges of addresses. *)
Lemma kmap_pte_cases va :
  is_u32 va -> KERNBASE <= va < KERNBASE + PHYSTOP ->
  kmap_pte kmap va =
    Z.lor (pg va - KERNBASE) (if decide (KERNLINK <= va < kdata) then PTE_P else Z.lor PTE_W PTE_P).
Proof.
  intros Hva Hr. destruct kdata_facts as (d&Hd&H1&H2). pose proof (V2P_kdata d Hd H1 H2) as Hv.
  unfold kmap_pte, kmap. cbn [foldl kmap_entry]. change (V2P KERNLINK) with EXTMEM.
  change (u32 (0 - DEVSPACE)) with 0x2000000. change (u32 (EXTMEM - 0)) with EXTMEM. rewrite Hv, Hd.
  rewrite (u32_small (PHYSTOP - _)), (u32_small (_ - EXTMEM)) by mlia.
  rewrite (decide_False (P := DEVSPACE <= va < _)) by mlia.
  destruct (decide (KERNLINK <= va < d * PGSIZE)).
  - rewrite (decide_False (P := d * PGSIZE <= va < _)) by mlia.
    rewrite decide_True by mlia. rewrite Z.lor_0_l. f_equal. mlia.
  - destruct (decide (d * PGSIZE <= va < d * PGSIZE + (PHYSTOP - (d * PGSIZE - KERNBASE)))).
    + f_equal. mlia.
    + rewrite (decide_False (P := KERNLINK <= va < _)) by mlia. rewrite decide_True by mlia. f_equal.
Qed.

(** setupkvm() returns 0 with the free list as it was, or a directory in
    which every kernel address below PHYSTOP maps to the physical address V2P
    gives, without user access, and writable unless it is kernel text; no
    user address is mapped. *)
Theorem setupkvm_direct_map free s :
  kmem_at free s ->
  wp setupkvm (fun d s' =>
    if decide (d = 0) then exists free', kmem_at free' s' /\ free' ≡ₚ free
    else exists t free', root t = d /\ uvm_at t ∅ free' s' /\
      forall va, KERNBASE <= va < KERNBASE + PHYSTOP ->
        let e := pte_of t (ram s') va in
        PTE_ADDR e = V2P (pg va) /\ has e PTE_P = true /\ has e PTE_U = false /\
        has e PTE_W = negb (bool_decide (KERNLINK <= va < kdata))) s.
Proof.
  intros Hk. eapply wp_setupkvm; [done| |].
  - intros t free' s' Hb. assert (root t <> 0) as Hnz.
    { pose proof (pa_root _ _ (va_pt _ _ _ (bt_vm _ _ _ _ _ _ Hb))) as Hf%frame_pos. mlia. }
    rewrite decide_False by done. exists t, free'. split; [done|]. split.
    { eapply built_uvm; [done|]. intros va Hva Hlt. by eapply kmap_pte_user; [rewrite app_nil_r|..]. }
    intros va Hr e. assert (is_u32 va) as Hva by mlia. unfold e.
    rewrite (bt_pte _ _ _ _ _ _ Hb va Hva), kmap_pte_cases by done.
    pose proof (pg_range va) as Hpr. pose proof (pg_user va) as Hpu.
    assert ((pg va - KERNBASE) mod PGSIZE = 0) as Hm.
    { change KERNBASE with (524288 * PGSIZE). by rewrite Zminus_mod, pg_mod, Z.mod_mul. }
    assert (V2P (pg va) = pg va - KERNBASE) as -> by (unfold V2P; apply u32_small; mlia).
    set (f := if decide (KERNLINK <= va < kdata) then PTE_P else Z.lor PTE_W PTE_P).
    assert (f = 1 \/ f = 3) as Hf by (unfold f; case_decide; [by left|by right]).
    destruct (entry_decode (pg va - KERNBASE) f) as (Hu&Ha&Hfl); [done|mlia|mlia|destruct Hf; mlia|].
    split; [done|]. rewrite !(has_flags (Z.lor _ f)) by mlia. rewrite <- PTE_FLAGS_eq, Hfl.
    unfold f. case_decide as Hd; [rewrite bool_decide_true by done|rewrite bool_decide_false by done]; done.
  - intros free' s' Hk' Hiff _ _. rewrite decide_True by done. exists free'. split; [done|].
    by eapply same_frames.
Qed.

(** an address space that is built and freed again leaves the free list
    with exactly the pages it had: neither setupkvm() nor freevm() leaks. *)
Theorem setupkvm_freevm free s :
  kmem_at free s ->
  wp (let* d := setupkvm in if d =? 0 then ret tt else freevm d)
    (fun _ s' => exists free', kmem_at free' s' /\ free' ≡ₚ free) s.
Proof.
  intros Hk. apply wp_bind. eapply wp_setupkvm; [done| |].
  - intros t f s1 Hb. assert (root t <> 0) as Hnz.
    { pose proof (pa_root _ _ (va_pt _ _ _ (bt_vm _ _ _ _ _ _ Hb))) as Hf%frame_pos. mlia. }
    rewrite (proj2 (Z.eqb_neq _ 0)) by done. eapply wp_freevm.
    { eapply built_uvm; [done|]. intros va Hva Hlt. by eapply kmap_pte_user; [rewrite app_nil_r|..]. }
    intros f' s' [Hk' Hf' _]. exists f'. split; [done|]. eapply same_frames; [done|done|].
    intros v. rewrite Hf', (bt_own _ _ _ _ _ _ Hb). unfold vm_pages. split.
    + intros [?|[?|(k&Hkk)]]; [by left|by right|]. by rewrite lookup_empty in Hkk.
    + intros [?|?]; [by left|by right; left].
  - intros f' s' Hk' Hiff _ _. change (0 =? 0) with true. cbv iota. apply wp_ret. exists f'.
    split; [done|]. by eapply same_frames.
Qed.

(** uva2ka() of an address without a page table dereferences the null pointer
    that walkpgdir() returns. *)
Lemma uva2ka_null t up free va s :
  uvm_at t up free s -> is_u32 va -> tabs t !! PDX va = None -> ram s !! 0 = None ->
  uva2ka (root t) va s = Fault "out of bounds".
Proof.
  intros Hu Hva Hn H0. unfold uva2ka, bind.
  pose proof (wp_walk t va (fun r s' => r = 0 /\ s' = s) s) as Hw. unfold wp in Hw.
  rewrite Hn in Hw. destruct (walkpgdir (root t) va false s);
    try (exfalso; by apply Hw; [apply Hu|apply Hu|..]).
  destruct Hw as [-> ->]; [apply Hu|apply Hu|done|done|].
  unfold load32, bind, get_page. change (PGROUNDDOWN 0) with 0. by rewrite H0.
Qed.
End thms.

(** ** Two small address spaces

    Each has a directory at [b], one page table after it and one user page at
    address 0 after that; one page is free. *)
Module Example.
Import Machine.

Definition F1 : Z := 0x80500000.
Definition dir (b : Z) : list Z := put_entry 0 (Z.lor (V2P (b + 4096)) 7) zeros.
Definition tab (b : Z) : list Z := put_entry 0 (Z.lor (V2P (b + 8192)) 7) zeros.
Definition B1 : Z := 0x80400000.
Definition B2 : Z := 0x80410000.
Definition ram1 : gmap Z (list Z) :=
  <[B1 := dir B1]> (<[B1 + 4096 := tab B1]> (<[B2 := dir B2]> (<[B2 + 4096 := tab B2]> ram0))).
Definition s1 : mem := mkmem false true F1 ram1.
Definition pt (b : Z) : ptable := mkpt b {[0 := b + 4096]}.
Definition us (b : Z) : gmap Z Z := {[0 := b + 8192]}.

Lemma entry_zeros i : entry zeros i = 0.
Proof. apply get_le_zeros. Qed.

Lemma put_zeros_ok x : length (put_entry 0 x zeros) = Z.to_nat PGSIZE /\ bytes_ok (put_entry 0 x zeros).
Proof.
  split; [apply length_put_entry; [apply zeros_ok|by unfold NPT]|].
  apply put_le_bytes_ok, zeros_ok.
Qed.

Lemma kmem1 : kmem_at [F1] s1.
Proof.
  assert (frame F1) as Hf by (by vm_compute).
  assert (ram1 !! F1 = Some zeros) as H1.
  { unfold ram1. rewrite !lookup_insert_ne by done. by apply ram0_lookup. }
  constructor; cbn [km_lock ram freelist s1].
  - done.
  - split; [done|]. exists zeros. split; [exact H1|]. apply get_le_zeros.
  - apply NoDup_singleton.
  - by constructor.
  - unfold ram1. do 4 (apply ram_ok_insert; [|apply put_zeros_ok..]). apply ram0_ok.
Qed.

Lemma entry_one x i : is_u32 x -> 0 <= i < NPT -> entry (put_entry 0 x zeros) i = if decide (0 = i) then x else 0.
Proof. intros Hx Hi. rewrite entry_put; [|apply zeros_ok|by unfold NPT|done|done]. by rewrite entry_zeros. Qed.

Lemma space_ok b s :
  kmem_at [F1] s -> frame b -> frame (b + 4096) -> frame (b + 8192) -> F1 <> b -> F1 <> b + 4096 -> F1 <> b + 8192 ->
  ram s !! b = Some (dir b) -> ram s !! (b + 4096) = Some (tab b) ->
  uvm_at (pt b) (us b) [F1] s.
Proof.
  intros Hkm Hb Ht Hu N1 N2 N3 Hd Htb.
  destruct (frame_pa _ Ht) as [Ht1 Ht2]. destruct (frame_pa _ Hu) as [Hu1 Hu2].
  destruct (entry_decode (V2P (b + 4096)) 7) as (Et1&Et2&Et3); [done|lia|mlia|done|].
  destruct (entry_decode (V2P (b + 8192)) 7) as (Eu1&Eu2&Eu3); [done|lia|mlia|done|].
  assert (forall v, (v ∈ pages_of (pt b)) <-> v = b \/ v = b + 4096) as Hpg.
  { intros v. unfold pages_of, pt. cbn. by rewrite map_img_singleton_L, elem_of_union, !elem_of_singleton. }
  assert (forall x, PTE_FLAGS x = 7 -> has x PTE_P = true) as HP.
  { intros x Hx. rewrite has_flags by mlia. by rewrite <- PTE_FLAGS_eq, Hx. }
  constructor; [constructor|..].
  - exact Hkm.
  - constructor; cbn [root tabs pt].
    + done.
    + intros i p [<- <-]%lookup_singleton_Some. split; [done|]. lia.
    + intros i j p [<- _]%lookup_singleton_Some [<- _]%lookup_singleton_Some. done.
    + intros i p [<- _]%lookup_singleton_Some. by unfold NPT.
    + intros i Hi. cbv zeta. unfold page_at. rewrite Hd. cbn [default from_option id]. unfold dir.
      rewrite entry_one by done. destruct (decide (0 = i)) as [<-|Hne].
      * rewrite lookup_singleton_eq. split; [by apply HP|done].
      * by rewrite lookup_singleton_ne.
  - intros v Hv%Hpg ->%list_elem_of_singleton. destruct Hv; congruence.
  - intros va Hva Hlt. cbv zeta. unfold pte_of, us. cbn [tabs pt].
    destruct (decide (0 = PDX va)) as [Hp|Hp].
    + rewrite <- Hp, lookup_singleton_eq. unfold page_at. rewrite Htb. cbn [default from_option id]. unfold tab.
      rewrite entry_one by (done || apply PTX_range). destruct (decide (0 = PTX va)) as [Hx|Hx].
      * assert (pg va = 0) as ->.
        { change 0 with (0 - 0 mod PGSIZE). apply indices_eq; [done|done|by rewrite <- Hp|by rewrite <- Hx]. }
        rewrite lookup_singleton_eq. split; [by apply HP|done].
      * rewrite lookup_singleton_ne; [done|]. intros Hpg0. apply Hx.
        apply (pg_indices 0 va); [done|done|by rewrite <- Hpg0].
    + rewrite (lookup_singleton_ne 0 (PDX va)) by done. rewrite lookup_singleton_ne; [done|].
      intros Hpg0. apply Hp. apply (pg_indices 0 va); [done|done|by rewrite <- Hpg0].
  - unfold us. intros a p [<- <-]%lookup_singleton_Some. do 3 (split; [done|]). rewrite Hpg. split; [lia|].
    intros E%list_elem_of_singleton. congruence.
  - unfold us. intros a c p [<- _]%lookup_singleton_Some [<- _]%lookup_singleton_Some. done.
Qed.

Lemma space1 : uvm_at (pt B1) (us B1) [F1] s1.
Proof.
  apply space_ok; [exact kmem1|by vm_compute|by vm_compute|by vm_compute|done|done|done|..];
    cbn [ram s1]; unfold ram1.
  - by rewrite lookup_insert_eq.
  - by rewrite (lookup_insert_ne _ B1 (B1 + 4096)), lookup_insert_eq.
Qed.

Lemma space2 : uvm_at (pt B2) (us B2) [F1] s1.
Proof.
  apply space_ok; [exact kmem1|by vm_compute|by vm_compute|by vm_compute|done|done|done|..];
    cbn [ram s1]; unfold ram1.
  - by rewrite (lookup_insert_ne _ B1 B2), (lookup_insert_ne _ (B1 + 4096) B2), lookup_insert_eq.
  - by rewrite (lookup_insert_ne _ B1 (B2 + 4096)), (lookup_insert_ne _ (B1 + 4096) (B2 + 4096)),
      (lookup_insert_ne _ B2 (B2 + 4096)), lookup_insert_eq.
Qed.

Lemma user_ok1 a : 0 <= a < 4096 -> user_ok (pt B1) (us B1) (ram s1) a.
Proof.
  intros Ha. assert (pg a = 0) as Hpg by (apply pg_eq; [done|mlia]).
  split; [rewrite Hpg; unfold us; rewrite lookup_singleton_eq; by eexists|].
  rewrite (pte_of_page _ _ a 0) by (mlia || done). unfold pte_of, pt. cbn [tabs ram s1].
  change (PDX 0) with 0. rewrite lookup_singleton_eq. unfold page_at, ram1.
  rewrite (lookup_insert_ne _ B1 (B1 + 4096)), lookup_insert_eq by done. cbn [default from_option id].
  unfold tab. rewrite entry_one by done. done.
Qed.

Lemma user_disjoint k k' p : us B1 !! k = Some p -> us B2 !! k' <> Some p.
Proof. unfold us. intros [_ <-]%lookup_singleton_Some [_ E]%lookup_singleton_Some. done. Qed.

Lemma us_below k : k mod PGSIZE = 0 -> 0 <= k < 4096 -> is_Some (us B1 !! k).
Proof.
  intros Hm Hk. assert (k = 0) as -> by (rewrite <- (pg_id k Hm); apply pg_eq; [done|mlia]).
  unfold us. rewrite lookup_singleton_eq. by eexists.
Qed.

Lemma us_above k : 4096 <= k -> us B1 !! k = None.
Proof. intros Hk. apply lookup_singleton_ne. lia. Qed.

Lemma copyuvm_correct_witness :
  wp (copyuvm (root (pt B1)) 4096) (fun d s' =>
    if decide (d = 0)
    then exists free', uvm_at (pt B1) (us B1) free' s' /\ free' ≡ₚ [F1] /\
           forall va, user_byte (us B1) (ram s') va = user_byte (us B1) (ram s1) va
    else exists t' up' free', d = root t' /\ uvm_at t' up' free' s' /\ uvm_at (pt B1) (us B1) free' s' /\
           is_copy (pt B1) (us B1) s1 4096 t' up' s') s1.
Proof.
  apply (copyuvm_correct (pt B1) (us B1) [F1] 4096 s1 space1); [by vm_compute|apply us_below].
Defined.

Lemma copyout_correct_witness :
  wp (copyout (root (pt B1)) 100 [104; 105; 33] 3) (fun r s' =>
    r = 0 /\ uvm_at (pt B1) (us B1) [F1] s' /\
    (forall a, 0 <= a -> user_byte (us B1) (ram s') a =
       if decide (100 <= a < 103) then [104; 105; 33] !! Z.to_nat (a - 100)
       else user_byte (us B1) (ram s1) a) /\
    (forall a, user_byte (us B2) (ram s') a = user_byte (us B2) (ram s1) a)) s1.
Proof.
  apply (copyout_correct (pt B1) (us B1) (pt B2) (us B2) [F1] 100 [104; 105; 33] s1 space1);
    [done|done| | |exact space2|exact user_disjoint].
  - do 3 (apply Forall_cons; split; [unfold byte_ok; lia|]). by apply Forall_nil.
  - intros a Ha. apply user_ok1. simpl in Ha. lia.
Defined.

Lemma allocuvm_correct_witness :
  wp (allocuvm (root (pt B1)) 4096 8000) (fun r s' =>
    exists t' up' free', root t' = root (pt B1) /\ uvm_at t' up' free' s' /\
      conserved (pt B1) (us B1) [F1] t' up' free' /\
      (forall va, ~ (PGROUNDUP 4096 <= pg va < PGROUNDUP 8000) ->
         user_byte up' (ram s') va = user_byte (us B1) (ram s1) va) /\
      ((r = 8000 /\ forall va, PGROUNDUP 4096 <= pg va < PGROUNDUP 8000 ->
          user_byte up' (ram s') va = Some 0 /\ PTE_FLAGS (pte_of t' (ram s') (pg va)) = 7) \/
       (r = 0 /\ up' = us B1))) s1.
Proof.
  apply (allocuvm_correct (pt B1) (us B1) [F1] 4096 8000 s1 space1); [done|done|].
  intros k Hk. apply us_above. change (PGROUNDUP 4096) with 4096 in Hk. lia.
Defined.

Lemma allocuvm_deallocuvm_witness :
  wp (allocuvm (root (pt B1)) 4096 8000 ;;; deallocuvm (root (pt B1)) 8000 4096) (fun r s' =>
    r = 4096 /\ exists t' free', root t' = root (pt B1) /\ uvm_at t' (us B1) free' s' /\
      conserved (pt B1) (us B1) [F1] t' (us B1) free' /\
      forall va, user_byte (us B1) (ram s') va = user_byte (us B1) (ram s1) va) s1.
Proof.
  apply (allocuvm_deallocuvm (pt B1) (us B1) [F1] 4096 8000 s1 space1); [done|done|].
  intros k Hk. apply us_above. change (PGROUNDUP 4096) with 4096 in Hk. lia.
Defined.

Lemma setupkvm_direct_map_witness :
  wp setupkvm (fun d s' =>
    if decide (d = 0) then exists free', kmem_at free' s' /\ free' ≡ₚ [F1]
    else exists t free', root t = d /\ uvm_at t ∅ free' s' /\
      forall va, KERNBASE <= va < KERNBASE + PHYSTOP ->
        let e := pte_of t (ram s') va in
        PTE_ADDR e = V2P (pg va) /\ has e PTE_P = true /\ has e PTE_U = false /\
        has e PTE_W = negb (bool_decide (KERNLINK <= va < kdata))) s1.
Proof. exact (setupkvm_direct_map [F1] s1 kmem1). Defined.

Lemma setupkvm_freevm_witness :
  wp (let* d := setupkvm in if d =? 0 then ret tt else freevm d)
    (fun _ s' => exists free', kmem_at free' s' /\ free' ≡ₚ [F1]) s1.
Proof. exact (setupkvm_freevm [F1] s1 kmem1). Defined.

End Example.
