(* ===== verification/Pipe.v ===== *)
(** pipe.c: pipes, with their readers and writers running concurrently.

    A call of piperead() or pipewrite() runs under the pipe's lock until it
    returns or sleeps, so an execution is an interleaving of such segments;
    what a sleeping call resumes with is kept in its thread.  wakeup() makes
    the threads asleep on a channel runnable, kill() does so and marks the
    thread.  pipealloc() is in File.v, with the file table. *)

From S2P Require Import Prelude Params Bytes Kalloc.

Definition PIPESIZE : Z := 512.
#[global] Arguments PIPESIZE : simpl never.

Record pipe := mkpipe {
  pi_lock : bool;
  pi_data : list Z;
  nread : Z;            (* number of bytes read *)
  nwrite : Z;           (* number of bytes written *)
  readopen : bool;      (* read fd is still open *)
  writeopen : bool;     (* write fd is still open *)
}.

(** The channels &p->nread and &p->nwrite. *)
Inductive pchan := ReadChan | WriteChan.
#[global] Instance pchan_eq : EqDecision pchan.
Proof. solve_decision. Defined.

(** A call in progress: its arguments and, for a writer, the loop variable. *)
Inductive pcall :=
  | PWrite (addr : list Z) (n : Z) (i : nat)
  | PRead (n : Z).

Inductive pstate := Ready | Asleep (c : pchan) | Returned (r : Z).

Record thread := mkthread {
  th_call : pcall;
  th_state : pstate;
  th_killed : bool;
}.

Definition set_th_state v (t : thread) := mkthread (th_call t) v (th_killed t).
Definition set_th_killed v (t : thread) := mkthread (th_call t) (th_state t) v.

(** The pipe, the threads that have called it, and the page allocator. *)
Record psys := mkpsys {
  pp : pipe;
  threads : gmap nat thread;
  kpg : mem;
}.

Definition set_pp v (s : psys) := mkpsys v (threads s) (kpg s).
Definition set_threads v (s : psys) := mkpsys (pp s) v (kpg s).
Definition set_kpg v (s : psys) := mkpsys (pp s) (threads s) v.

Definition set_pi_lock v (p : pipe) := mkpipe v (pi_data p) (nread p) (nwrite p) (readopen p) (writeopen p).
Definition p_held (s : psys) : bool := pi_lock (pp s).
Definition set_p_lock (v : bool) (s : psys) : psys := set_pp (set_pi_lock v (pp s)) s.

(** wakeup(chan) *)
Definition wake (c : pchan) (t : thread) : thread :=
  match th_state t with
  | Asleep c' => if decide (c = c') then set_th_state Ready t else t
  | _ => t
  end.
Definition wakeup (c : pchan) : M psys unit := modify (fun s => set_threads (wake c <$> threads s) s).

(** myproc()->killed *)
Definition killed (me : nat) : M psys bool :=
  let* o := gets (fun s => threads s !! me) in
  let* t := from_some o in
  ret (th_killed t).

(** p->data[p->nwrite++ % PIPESIZE] = b *)
Definition put_byte (b : Z) (p : pipe) : pipe :=
  mkpipe (pi_lock p) (<[Z.to_nat (nwrite p mod PIPESIZE) := b]> (pi_data p)) (nread p) (u32 (nwrite p + 1))
    (readopen p) (writeopen p).
(** p->data[p->nread++ % PIPESIZE] *)
Definition get_byte (p : pipe) : option (Z * pipe) :=
  b ← pi_data p !! Z.to_nat (nread p mod PIPESIZE);
  Some (b, mkpipe (pi_lock p) (pi_data p) (u32 (nread p + 1)) (nwrite p) (readopen p) (writeopen p)).

(** How a segment of pipewrite() ends: the value returned, or the loop
    variable with which it sleeps on &p->nwrite. *)
Inductive wout := WReturn (r : Z) (i : nat) | WSleep (i : nat).

Fixpoint pipewrite_loop (fuel : nat) (me : nat) (addr : list Z) (n : Z) (i : nat) : M psys wout :=
  if Z.of_nat i <? n then
    match fuel with
    | O => nofuel
    | S fuel =>
        let* p := gets pp in
        if nwrite p =? u32 (nread p + PIPESIZE) then
          let* k := killed me in
          if negb (readopen p) || k then
            release p_held set_p_lock ;;;
            ret (WReturn (-1) i)
          else
            wakeup ReadChan ;;;
            release p_held set_p_lock ;;;
            ret (WSleep i)
        else
          let* b := from_some (addr !! i) in
          modify (fun s => set_pp (put_byte b (pp s)) s) ;;;
          pipewrite_loop fuel me addr n (1 + i)
    end
  else
    wakeup ReadChan ;;;
    release p_held set_p_lock ;;;
    ret (WReturn n i).

(** From the start ([i] = 0), or from the sleep at [i] on. *)
Definition pipewrite (me : nat) (addr : list Z) (n : Z) (i : nat) : M psys wout :=
  acquire p_held set_p_lock ;;;
  pipewrite_loop (1 + Z.to_nat n) me addr n i.

Inductive rout := RReturn (r : Z) (got : list Z) | RSleep.

Fixpoint piperead_loop (fuel : nat) (n : Z) (i : nat) (got : list Z) : M psys (list Z) :=
  if Z.of_nat i <? n then
    match fuel with
    | O => nofuel
    | S fuel =>
        let* p := gets pp in
        if nread p =? nwrite p then ret got
        else
          let* '(b, p') := from_some (get_byte p) in
          modify (set_pp p') ;;;
          piperead_loop fuel n (1 + i) (got ++ [b])
    end
  else ret got.

Definition piperead (me : nat) (n : Z) : M psys rout :=
  acquire p_held set_p_lock ;;;
  let* p := gets pp in
  if (nread p =? nwrite p) && writeopen p then
    let* k := killed me in
    if k then
      release p_held set_p_lock ;;;
      ret (RReturn (-1) [])
    else
      release p_held set_p_lock ;;;
      ret RSleep
  else
    let* got := piperead_loop (Z.to_nat n) n 0 [] in
    wakeup WriteChan ;;;
    release p_held set_p_lock ;;;
    ret (RReturn (Z.of_nat (length got)) got).

Definition close_end (writable : bool) (p : pipe) : pipe :=
  if writable then mkpipe (pi_lock p) (pi_data p) (nread p) (nwrite p) (readopen p) false
  else mkpipe (pi_lock p) (pi_data p) (nread p) (nwrite p) false (writeopen p).

(** [self] is the address of the pipe's page. *)
Definition pipeclose `{KernelImage} (self : Z) (writable : bool) : M psys unit :=
  acquire p_held set_p_lock ;;;
  modify (fun s => set_pp (close_end writable (pp s)) s) ;;;
  wakeup (if writable then ReadChan else WriteChan) ;;;
  let* p := gets pp in
  if negb (readopen p) && negb (writeopen p) then
    release p_held set_p_lock ;;;
    zoom kpg set_kpg (kfree self)
  else
    release p_held set_p_lock.

(** ** Executions *)

Definition running (t : thread) : Prop := match th_state t with Returned _ => False | _ => True end.
Definition is_write (t : thread) : Prop := match th_call t with PWrite _ _ _ => True | _ => False end.
Definition is_read (t : thread) : Prop := match th_call t with PRead _ => True | _ => False end.

(** The bytes that a segment stores in the pipe and takes out of it. *)
Record bytes_moved := mkmoved { put : list Z; got : list Z }.
Definition nothing : bytes_moved := mkmoved [] [].

Inductive label := LCall | LRun (m : bytes_moved) | LKill | LClose.

Section steps.
Context `{KernelImage} (self : Z).

(** The thread after a segment. *)
Definition after_write (addr : list Z) (n : Z) (k : bool) (o : wout) : thread :=
  match o with
  | WReturn r i => mkthread (PWrite addr n i) (Returned r) k
  | WSleep i => mkthread (PWrite addr n i) (Asleep WriteChan) k
  end.
Definition wout_index (o : wout) : nat := match o with WReturn _ i | WSleep i => i end.
Definition after_read (n : Z) (k : bool) (o : rout) : thread :=
  match o with
  | RReturn r _ => mkthread (PRead n) (Returned r) k
  | RSleep => mkthread (PRead n) (Asleep ReadChan) k
  end.
Definition rout_bytes (o : rout) : list Z := match o with RReturn _ got => got | RSleep => [] end.

(** A writer's file is open for writing while its call runs, and likewise a
    reader's: fileclose() calls pipeclose() when the last reference to the
    end is gone. *)
Inductive step : psys -> label -> psys -> Prop :=
  | step_call_write s me addr n :
      threads s !! me = None -> writeopen (pp s) = true -> n <= Z.of_nat (length addr) ->
      step s LCall (set_threads (<[me := mkthread (PWrite addr n 0) Ready false]> (threads s)) s)
  | step_call_read s me n :
      threads s !! me = None -> readopen (pp s) = true ->
      step s LCall (set_threads (<[me := mkthread (PRead n) Ready false]> (threads s)) s)
  | step_write s me addr n i k o s' :
      threads s !! me = Some (mkthread (PWrite addr n i) Ready k) ->
      pipewrite me addr n i s = Ok o s' ->
      step s (LRun (mkmoved (slice i (wout_index o - i) addr) []))
        (set_threads (<[me := after_write addr n k o]> (threads s')) s')
  | step_read s me n k o s' :
      threads s !! me = Some (mkthread (PRead n) Ready k) ->
      piperead me n s = Ok o s' ->
      step s (LRun (mkmoved [] (rout_bytes o)))
        (set_threads (<[me := after_read n k o]> (threads s')) s')
  | step_kill s me t :
      threads s !! me = Some t -> running t ->
      step s LKill (set_threads (<[me := set_th_state Ready (set_th_killed true t)]> (threads s)) s)
  | step_close s s' (writable : bool) :
      (if writable then writeopen (pp s) else readopen (pp s)) = true ->
      (forall me t, threads s !! me = Some t -> running t -> if writable then is_read t else is_write t) ->
      pipeclose self writable s = Ok tt s' ->
      step s LClose s'.

(** An execution and the bytes moved in it. *)
Inductive execution (s0 : psys) : psys -> list Z -> list Z -> bool -> Prop :=
  | exec_start : execution s0 s0 [] [] false
  | exec_step s sent recv kills l s' :
      execution s0 s sent recv kills -> step s l s' ->
      execution s0 s'
        (sent ++ match l with LRun m => put m | _ => [] end)
        (recv ++ match l with LRun m => got m | _ => [] end)
        (match l with LKill => true | _ => kills end).
End steps.
