(* ===== verification/PipeSpec.v ===== *)
(** Correctness of pipes: bytes come out in the order they went in, whatever
    the interleaving; nobody sleeps without a reason unless a writer has been
    killed; end of file means that everything has been read. *)

From S2P Require Import Prelude Params Bytes Kalloc Pipe.

#[local] Arguments slice : simpl never.

(** ** The ring buffer as a queue *)

Definition count (p : pipe) : Z := u32 (nwrite p - nread p).
Definition slot (p : pipe) (k : nat) : Z :=
  default 0 (pi_data p !! Z.to_nat ((nread p + Z.of_nat k) mod PIPESIZE)).
Definition contents (p : pipe) : list Z := slot p <$> seq 0 (Z.to_nat (count p)).

Record pipe_ok (p : pipe) : Prop := {
  po_data : length (pi_data p) = Z.to_nat PIPESIZE;
  po_nread : is_u32 (nread p);
  po_nwrite : is_u32 (nwrite p);
  po_count : count p <= PIPESIZE;
}.

Ltac plia := unfold count, is_u32, PIPESIZE, u32, W32 in *; lia.

Lemma count_range p : 0 <= count p.
Proof. apply u32_range. Qed.

Lemma length_contents p : Z.of_nat (length (contents p)) = count p.
Proof. unfold contents. rewrite length_fmap, length_seq. pose proof (count_range p). lia. Qed.

(** nwrite is nread + count, modulo 2^32. *)
Lemma nwrite_count p : pipe_ok p -> nwrite p = u32 (nread p + count p).
Proof.
  intros []. unfold count. rewrite u32_add_r. replace (nread p + (nwrite p - nread p)) with (nwrite p) by lia.
  symmetry. by apply u32_small.
Qed.

Lemma full_test p : pipe_ok p -> (nwrite p =? u32 (nread p + PIPESIZE)) = (count p =? PIPESIZE).
Proof.
  intros Hp. pose proof (nwrite_count p Hp) as Hn. pose proof (count_range p).
  destruct Hp. apply Bool.eq_iff_eq_true. rewrite !Z.eqb_eq. split; [|by intros <-].
  intros He. unfold count. rewrite He, u32_sub_l. replace (nread p + PIPESIZE - nread p) with PIPESIZE by lia. done.
Qed.

Lemma empty_test p : pipe_ok p -> (nread p =? nwrite p) = (count p =? 0).
Proof.
  intros Hp. pose proof (nwrite_count p Hp) as Hn. destruct Hp.
  apply Bool.eq_iff_eq_true. rewrite !Z.eqb_eq. split.
  - intros He. unfold count. by rewrite He, Z.sub_diag.
  - intros He. rewrite Hn, He, Z.add_0_r. symmetry. by apply u32_small.
Qed.

(** PIPESIZE divides 2^32, so the wrap-around of the counters is harmless. *)
Lemma u32_mod_pipe z : u32 z mod PIPESIZE = z mod PIPESIZE.
Proof.
  unfold u32. change W32 with (PIPESIZE * 8388608). rewrite Z.rem_mul_r by done.
  rewrite Z.mul_comm, Z.mod_add by done. by apply Z.mod_mod.
Qed.

Lemma index_range z : (Z.to_nat (z mod PIPESIZE) < Z.to_nat PIPESIZE)%nat.
Proof. pose proof (Z.mod_pos_bound z PIPESIZE ltac:(done)). plia. Qed.

Lemma put_byte_ok p b :
  pipe_ok p -> count p < PIPESIZE ->
  pipe_ok (put_byte b p) /\ count (put_byte b p) = count p + 1 /\ contents (put_byte b p) = contents p ++ [b].
Proof.
  intros Hp Hc. pose proof (count_range p) as H0. pose proof (nwrite_count p Hp) as Hnw.
  destruct Hp as [Hd Hr Hw Hl].
  assert (count (put_byte b p) = count p + 1) as Hc'.
  { unfold count at 1. cbn. rewrite u32_sub_l, Hnw.
    replace (u32 (nread p + count p) + 1 - nread p) with (u32 (nread p + count p) + (1 - nread p)) by lia.
    rewrite u32_add_l. replace (nread p + count p + (1 - nread p)) with (count p + 1) by lia.
    apply u32_small. plia. }
  split; [|split; [done|]].
  - constructor; cbn [pi_data nread nwrite put_byte]; [by rewrite length_insert|done|apply u32_range|].
    rewrite Hc'. lia.
  - unfold contents. rewrite Hc', Z2Nat.inj_add, Nat.add_1_r, seq_S, fmap_app by lia. f_equal.
    + apply list_fmap_ext. intros k ? [-> Hk]%lookup_seq. rewrite Nat.add_0_l. unfold slot. cbn.
      rewrite list_lookup_insert_ne; [done|]. rewrite Hnw, u32_mod_pipe.
      pose proof (Z.mod_pos_bound (nread p + count p) PIPESIZE ltac:(done)).
      pose proof (Z.mod_pos_bound (nread p + Z.of_nat k) PIPESIZE ltac:(done)).
      pose proof (Z.div_mod (nread p + count p) PIPESIZE ltac:(done)).
      pose proof (Z.div_mod (nread p + Z.of_nat k) PIPESIZE ltac:(done)).
      intros Heq. assert ((nread p + count p) mod PIPESIZE = (nread p + Z.of_nat k) mod PIPESIZE) by lia.
      unfold PIPESIZE in *. lia.
    + cbn. f_equal. unfold slot. cbn. rewrite Hnw, u32_mod_pipe, Z2Nat.id by lia.
      rewrite list_lookup_insert_eq; [done|]. rewrite Hd. apply index_range.
Qed.

Lemma get_byte_ok p :
  pipe_ok p -> count p <> 0 ->
  exists b p', get_byte p = Some (b, p') /\ pipe_ok p' /\ contents p = b :: contents p' /\
    count p' = count p - 1 /\ readopen p' = readopen p /\ writeopen p' = writeopen p /\ pi_lock p' = pi_lock p.
Proof.
  intros Hp Hc. pose proof (count_range p) as H0. pose proof (nwrite_count p Hp) as Hnw.
  destruct Hp as [Hd Hr Hw Hl].
  destruct (lookup_lt_is_Some_2 (pi_data p) (Z.to_nat (nread p mod PIPESIZE))) as [b Hb].
  { rewrite Hd. apply index_range. }
  unfold get_byte. rewrite Hb. cbn. eexists b, _. split; [done|].
  set (p' := mkpipe _ _ _ _ _ _). assert (count p' = count p - 1) as Hc'.
  { unfold count at 1. cbn. rewrite u32_sub_r. replace (nwrite p - (nread p + 1)) with (nwrite p - nread p - 1) by lia.
    rewrite <- u32_sub_l. fold (count p). apply u32_small. plia. }
  split; [constructor; cbn; [done|apply u32_range|done|lia]|]. split; [|done].
  unfold contents. rewrite Hc'. replace (Z.to_nat (count p)) with (S (Z.to_nat (count p - 1))) by lia.
  cbn [seq]. rewrite fmap_cons. f_equal.
  - unfold slot. by rewrite Z.add_0_r, Hb.
  - rewrite <- fmap_S_seq, <- list_fmap_compose. apply list_fmap_ext. intros _ k _. unfold slot. cbn.
    do 3 f_equal. rewrite (Zplus_mod (u32 _)), u32_mod_pipe, <- Zplus_mod. f_equal. lia.
Qed.

(** ** Segments *)

Record same_ends (s s' : psys) : Prop := {
  se_read : readopen (pp s') = readopen (pp s);
  se_write : writeopen (pp s') = writeopen (pp s);
  se_kpg : kpg s' = kpg s;
}.

#[global] Instance same_ends_trans : Transitive same_ends.
Proof. intros s1 s2 s3 [] []. constructor; congruence. Qed.

(** A segment of pipewrite() from [i] on. *)
Record wrote (th : thread) (addr : list Z) (n : Z) (i : nat) (s : psys) (o : wout) (s' : psys) : Prop := {
  wr_ok : pipe_ok (pp s');
  wr_lock : p_held s' = false;
  wr_index : (i <= wout_index o <= Nat.max i (Z.to_nat n))%nat;
  wr_data : contents (pp s') = contents (pp s) ++ slice i (wout_index o - i) addr;
  wr_ends : same_ends s s';
  wr_end : match o with
    | WReturn r j =>
        (r = n /\ n <= Z.of_nat j /\ threads s' = wake ReadChan <$> threads s) \/
        (r = -1 /\ count (pp s') = PIPESIZE /\ (readopen (pp s) = false \/ th_killed th = true) /\
         threads s' = threads s)
    | WSleep j =>
        count (pp s') = PIPESIZE /\ readopen (pp s) = true /\ th_killed th = false /\
        threads s' = wake ReadChan <$> threads s
    end;
}.

Lemma wp_killed me th Q s : threads s !! me = Some th -> Q (th_killed th) s -> wp (killed me) Q s.
Proof. intros Hth HQ. unfold wp, killed, bind, gets. by rewrite Hth. Qed.

Lemma same_ends_refl s v : same_ends s (set_p_lock v s).
Proof. by constructor. Qed.

Lemma slice_none i (l : list Z) : slice i (i - i) l = [].
Proof. by rewrite Nat.sub_diag. Qed.

Lemma wp_pipewrite_loop fuel : forall me th addr n i s Q,
  pipe_ok (pp s) -> p_held s = true -> threads s !! me = Some th ->
  n <= Z.of_nat (length addr) -> n - Z.of_nat i <= Z.of_nat fuel ->
  (forall o s', wrote th addr n i s o s' -> Q o s') ->
  wp (pipewrite_loop fuel me addr n i) Q s.
Proof.
  induction fuel as [|fuel IH]; intros me th addr n i s Q Hp Hl Hth Hn Hf HQ; cbn [pipewrite_loop];
    destruct (Z.ltb_spec (Z.of_nat i) n) as [Hlt|Hge]; try lia.
  1, 3: apply wp_bind, wp_modify; apply wp_bind, wp_release; [done|]; apply wp_ret, HQ; constructor; cbn;
    [by destruct Hp|done|lia|by rewrite slice_none, app_nil_r|by constructor|by left].
  apply wp_bind, wp_gets. rewrite full_test by done.
  destruct (Z.eqb_spec (count (pp s)) PIPESIZE) as [Hfull|Hnf].
  - apply wp_bind. eapply wp_killed; [done|].
    destruct (negb (readopen (pp s)) || th_killed th) eqn:Hc.
    + apply wp_bind, wp_release; [done|]. apply wp_ret, HQ. constructor; cbn;
        [by destruct Hp|done|lia|by rewrite slice_none, app_nil_r|by constructor|]. right.
      split; [done|]. split; [done|]. split; [|done]. destruct (readopen (pp s)); [by right|by left].
    + apply orb_false_iff in Hc as [Hro Hk]. apply wp_bind, wp_modify. apply wp_bind, wp_release; [done|].
      apply wp_ret, HQ. constructor; cbn;
        [by destruct Hp|done|lia|by rewrite slice_none, app_nil_r|by constructor|].
      split; [done|]. split; [by destruct (readopen (pp s))|done].
  - destruct (lookup_lt_is_Some_2 addr i) as [b Hb]; [lia|]. apply wp_bind. eapply wp_from_some; [exact Hb|].
    apply wp_bind, wp_modify. pose proof (po_count _ Hp).
    destruct (put_byte_ok (pp s) b Hp ltac:(lia)) as (Hp'&Hc'&Hcont).
    eapply (IH me th); [done|done|done|done|lia|]. intros o s' [O L I D E F]. apply HQ.
    constructor; [done|done|lia| |by destruct E; constructor|done].
    rewrite D. cbn [pp set_pp]. rewrite Hcont, <- app_assoc. f_equal. unfold slice.
    replace (wout_index o - i)%nat with (S (wout_index o - (1 + i))) by lia.
    rewrite (drop_S addr b i Hb). done.
Qed.

Lemma wp_pipewrite me th addr n i s Q :
  pipe_ok (pp s) -> p_held s = false -> threads s !! me = Some th -> n <= Z.of_nat (length addr) ->
  (forall o s', wrote th addr n i s o s' -> Q o s') -> wp (pipewrite me addr n i) Q s.
Proof.
  intros Hp Hl Hth Hn HQ. unfold pipewrite. apply wp_bind, wp_acquire; [done|].
  eapply wp_pipewrite_loop; [by destruct Hp|done|done|done|lia|].
  intros o s' [O L I D E F]. apply HQ. by constructor; [..|destruct E; constructor|].
Qed.

(** A run of piperead(). *)
Record was_read (th : thread) (n : Z) (s : psys) (o : rout) (s' : psys) : Prop := {
  rd_ok : pipe_ok (pp s');
  rd_lock : p_held s' = false;
  rd_ends : same_ends s s';
  rd_data : contents (pp s) = rout_bytes o ++ contents (pp s');
  rd_end : match o with
    | RSleep => count (pp s) = 0 /\ writeopen (pp s) = true /\ th_killed th = false /\ threads s' = threads s
    | RReturn r got =>
        (r = -1 /\ got = [] /\ th_killed th = true /\ threads s' = threads s) \/
        (r = Z.of_nat (length got) /\ (count (pp s) <> 0 \/ writeopen (pp s) = false) /\
         Z.of_nat (length got) = Z.max 0 (Z.min n (count (pp s))) /\
         threads s' = wake WriteChan <$> threads s)
    end;
}.

Lemma wp_piperead_loop fuel : forall n i acc s Q,
  pipe_ok (pp s) -> p_held s = true -> n - Z.of_nat i <= Z.of_nat fuel ->
  (forall more s', pipe_ok (pp s') -> p_held s' = true -> same_ends s s' -> threads s' = threads s ->
     contents (pp s) = more ++ contents (pp s') ->
     Z.of_nat (length more) = Z.max 0 (Z.min (n - Z.of_nat i) (count (pp s))) -> Q (acc ++ more) s') ->
  wp (piperead_loop fuel n i acc) Q s.
Proof.
  induction fuel as [|fuel IH]; intros n i acc s Q Hp Hl Hf HQ; cbn [piperead_loop];
    pose proof (count_range (pp s)) as H0; destruct (Z.ltb_spec (Z.of_nat i) n) as [Hlt|Hge]; try lia.
  1, 3: apply wp_ret; rewrite <- (app_nil_r acc); apply HQ; [done|done|by constructor|done|done|cbn; lia].
  apply wp_bind, wp_gets. rewrite empty_test by done.
  destruct (Z.eqb_spec (count (pp s)) 0) as [Hz|Hnz].
  - apply wp_ret. rewrite <- (app_nil_r acc). apply HQ; [done|done|by constructor|done|done|cbn; lia].
  - destruct (get_byte_ok (pp s) Hp Hnz) as (b&p'&Hg&Hp'&Hc&Hct&Hr&Hw&Hlk). apply wp_bind.
    eapply wp_from_some; [exact Hg|]. apply wp_bind, wp_modify. apply IH; [done|by unfold p_held in *; cbn; congruence|lia|].
    intros more s' Hp2 Hl2 E2 T2 C2 L2. rewrite <- app_assoc. apply HQ; [done|done| |done| |].
    + destruct E2. constructor; cbn in *; congruence.
    + rewrite Hc. cbn in C2. by rewrite C2.
    + cbn in *. lia.
Qed.

Lemma wp_piperead me th n s Q :
  pipe_ok (pp s) -> p_held s = false -> threads s !! me = Some th ->
  (forall o s', was_read th n s o s' -> Q o s') -> wp (piperead me n) Q s.
Proof.
  intros Hp Hl Hth HQ. unfold piperead. apply wp_bind, wp_acquire; [done|]. apply wp_bind, wp_gets. cbn.
  rewrite empty_test by done.
  destruct ((count (pp s) =? 0) && writeopen (pp s)) eqn:Hc.
  - apply andb_true_iff in Hc as [Hz%Z.eqb_eq Hw]. apply wp_bind. eapply wp_killed; [done|].
    destruct (th_killed th) eqn:Hk; apply wp_bind, wp_release; [done| |done|]; apply wp_ret, HQ;
      (constructor; cbn; [by destruct Hp|done|by constructor|done|by left || done]).
  - apply wp_bind. eapply wp_piperead_loop; [by destruct Hp|done|lia|].
    intros more s' Hp' Hl' E' T' C' L'. cbn [app]. apply wp_bind, wp_modify. apply wp_bind, wp_release; [done|].
    apply wp_ret, HQ. constructor; cbn in *; [by destruct Hp'|done|by destruct E'; constructor|done|]. right.
    split; [done|]. split; [|split; [change (count (set_pi_lock true (pp s))) with (count (pp s)) in L'; lia|by rewrite T']].
    apply andb_false_iff in Hc as [Hz%Z.eqb_neq|Hw]; [by left|by right].
Qed.

(** ** Executions *)

(** The pipe that pipealloc() makes. *)
Definition fresh (s : psys) : Prop :=
  threads s = ∅ /\ exists d, length d = Z.to_nat PIPESIZE /\ pp s = mkpipe false d 0 0 true true.

Definition call_ok (t : thread) : Prop :=
  match th_call t with PWrite addr n _ => n <= Z.of_nat (length addr) | PRead _ => True end.

(** Which calls sleep on which channel. *)
Definition chan_ok (t : thread) : Prop :=
  match th_state t with Asleep ReadChan => is_read t | Asleep WriteChan => is_write t | _ => True end.

Record pipe_inv (s : psys) (sent recv : list Z) : Prop := {
  pv_ok : pipe_ok (pp s);
  pv_lock : p_held s = false;
  pv_fifo : sent = recv ++ contents (pp s);
  pv_call me t : threads s !! me = Some t -> call_ok t /\ chan_ok t;
  pv_read me t : threads s !! me = Some t -> running t -> readopen (pp s) = false -> is_write t;
  pv_write me t : threads s !! me = Some t -> running t -> writeopen (pp s) = false -> is_read t;
}.

(** What a sleeping call is waiting for. *)
Definition sleep_ok (p : pipe) (t : thread) : Prop :=
  match th_state t with
  | Asleep ReadChan => count p = 0 /\ writeopen p = true
  | Asleep WriteChan => count p = PIPESIZE /\ readopen p = true
  | _ => True
  end.
Definition unkilled (s : psys) : Prop :=
  forall me t, threads s !! me = Some t -> th_killed t = false /\ sleep_ok (pp s) t.

Lemma fresh_inv s : fresh s -> pipe_inv s [] [] /\ unkilled s.
Proof.
  intros [Ht (d&Hd&Hp)]. split; [|intros me t; by rewrite Ht].
  constructor; try (intros me t; by rewrite Ht); unfold p_held; rewrite Hp; [|done|done].
  by constructor.
Qed.

Lemma wake_keeps c t :
  th_call (wake c t) = th_call t /\ th_killed (wake c t) = th_killed t /\
  (th_state (wake c t) = th_state t \/ (th_state t = Asleep c /\ th_state (wake c t) = Ready)).
Proof. unfold wake. destruct (th_state t) eqn:E; [by auto| |by auto]. case_decide; subst; cbn; auto. Qed.

Lemma wake_not_asleep c t : th_state (wake c t) <> Asleep c.
Proof. unfold wake. destruct (th_state t) eqn:E; [by rewrite E| |by rewrite E]. case_decide; cbn; congruence. Qed.

Lemma wake_running c t : running (wake c t) <-> running t.
Proof. unfold running, wake. destruct (th_state t) eqn:E; [by rewrite E| |by rewrite E]. case_decide; cbn; [done|by rewrite E]. Qed.

Lemma wake_call_ok c t : call_ok t /\ chan_ok t -> call_ok (wake c t) /\ chan_ok (wake c t).
Proof.
  destruct (wake_keeps c t) as (Hc&_&[Hs|[_ Hs]]); unfold call_ok, chan_ok, is_read, is_write; rewrite Hc, Hs; tauto.
Qed.

(** Threads before and after a segment or a close, the running one aside. *)
Definition woken (c : option pchan) (m m' : gmap nat thread) : Prop :=
  m' = match c with Some c => wake c <$> m | None => m end.

Lemma woken_lookup c m m' me t' :
  woken c m m' -> m' !! me = Some t' ->
  exists t, m !! me = Some t /\ t' = match c with Some c => wake c t | None => t end.
Proof.
  unfold woken. intros ->. destruct c as [c|]; [|by eauto]. rewrite lookup_fmap_Some. naive_solver.
Qed.

(** The invariant after a change of the pipe and of the threads. *)
Lemma pipe_inv_change s sent recv s' sent' recv' c me tme :
  pipe_inv s sent recv -> pipe_ok (pp s') -> p_held s' = false -> sent' = recv' ++ contents (pp s') ->
  readopen (pp s') = readopen (pp s) -> writeopen (pp s') = writeopen (pp s) ->
  woken c (threads s) (threads s') -> call_ok tme /\ chan_ok tme ->
  (exists t, threads s !! me = Some t /\ running t /\ (is_read t <-> is_read tme) /\ (is_write t <-> is_write tme)) ->
  pipe_inv (set_threads (<[me := tme]> (threads s')) s') sent' recv'.
Proof.
  intros [O L F C R W] Hok Hl Hf Hr Hw Hwk Hme (t0&Ht0&Hrun0&Hir&Hiw). constructor; cbn; [done|done|done| | |].
  - intros j t [[<- <-]|[Hne Hj]]%lookup_insert_Some; [done|].
    destruct (woken_lookup _ _ _ _ _ Hwk Hj) as (t1&Ht1&->). destruct c; [apply wake_call_ok|]; by eapply C.
  - intros j t [[<- <-]|[Hne Hj]]%lookup_insert_Some Hrun Hro.
    + rewrite Hr in Hro. by apply Hiw, (R _ _ Ht0).
    + destruct (woken_lookup _ _ _ _ _ Hwk Hj) as (t1&Ht1&->). rewrite Hr in Hro. destruct c as [c|]; [|by eapply R].
      apply wake_running in Hrun. destruct (wake_keeps c t1) as (Hc&_). unfold is_write. rewrite Hc. by eapply (R j).
  - intros j t [[<- <-]|[Hne Hj]]%lookup_insert_Some Hrun Hwo.
    + rewrite Hw in Hwo. by apply Hir, (W _ _ Ht0).
    + destruct (woken_lookup _ _ _ _ _ Hwk Hj) as (t1&Ht1&->). rewrite Hw in Hwo. destruct c as [c|]; [|by eapply W].
      apply wake_running in Hrun. destruct (wake_keeps c t1) as (Hc&_). unfold is_read. rewrite Hc. by eapply (W j).
Qed.

Lemma wp_ok {S A} (m : M S A) Q s a s' : wp m Q s -> m s = Ok a s' -> Q a s'.
Proof. unfold wp. intros Hw E. by rewrite E in Hw. Qed.

Lemma wrote_woken th addr n i s o s' :
  wrote th addr n i s o s' -> exists c, woken c (threads s) (threads s').
Proof.
  intros [_ _ _ _ _ F]. unfold woken. destruct o; [destruct F as [(_&_&F)|(_&_&_&F)]|destruct F as (_&_&_&F)].
  - by exists (Some ReadChan).
  - by exists None.
  - by exists (Some ReadChan).
Qed.

Lemma read_woken th n s o s' :
  was_read th n s o s' -> exists c, woken c (threads s) (threads s').
Proof.
  intros [_ _ _ _ F]. unfold woken. destruct o; [destruct F as [(_&_&_&F)|(_&_&_&F)]|destruct F as (_&_&_&F)].
  - by exists None.
  - by exists (Some WriteChan).
  - by exists None.
Qed.

(** What pipeclose() does when it returns. *)
Lemma pipeclose_inv `{KernelImage} self (w : bool) s s' :
  p_held s = false -> pipeclose self w s = Ok tt s' ->
  pp s' = close_end w (pp s) /\ threads s' = wake (if w then ReadChan else WriteChan) <$> threads s.
Proof.
  destruct s as [[l d nr nw ro wo] th k]. unfold p_held. cbn [pp pi_lock]. intros -> E.
  destruct w; cbn [close_end pp]; unfold pipeclose, bind, acquire, p_held, modify, wakeup, gets in E; cbn in E;
    destruct ro, wo; cbn in E;
    try (injection E as <-; done);
    unfold zoom in E; cbn in E; destruct (kfree self k) as [[] k'| | | |]; try done; injection E as <-; done.
Qed.

Section invariant.
Context `{KernelImage} (self : Z).

Lemma step_inv s sent recv l s' :
  pipe_inv s sent recv -> step self s l s' ->
  pipe_inv s' (sent ++ match l with LRun m => put m | _ => [] end)
    (recv ++ match l with LRun m => got m | _ => [] end).
Proof.
  intros Hi Hs. destruct Hs as [s me addr n Hn Ho Hlen|s me n Hn Ho|s me addr n i k o s' Ht E
    |s me n k o s' Ht E|s me t Ht Hrun|s s' w Ho Hcl E]; cbn [put got]; rewrite ?app_nil_r.
  - destruct Hi as [O L F C R W]. constructor; cbn; [done|done|done| | |];
      intros j t [[<- <-]|[Hne Hj]]%lookup_insert_Some; try (by eauto); cbn; try done. congruence.
  - destruct Hi as [O L F C R W]. constructor; cbn; [done|done|done| | |];
      intros j t [[<- <-]|[Hne Hj]]%lookup_insert_Some; try (by eauto); cbn; try done. congruence.
  - destruct (pv_call _ _ _ Hi _ _ Ht) as [Hlen _]. cbn in Hlen.
    pose proof (wp_ok _ _ _ _ _ (wp_pipewrite me _ addr n i s (fun o s' => wrote (mkthread (PWrite addr n i) Ready k) addr n i s o s')
      (pv_ok _ _ _ Hi) (pv_lock _ _ _ Hi) Ht Hlen (fun _ _ H => H)) E) as Hw.
    destruct (wrote_woken _ _ _ _ _ _ _ Hw) as [c Hwk]. destruct Hw as [O L I D [R W K] F].
    eapply pipe_inv_change; [exact Hi|done|done| |done|done|exact Hwk| |].
    + rewrite D, (pv_fifo _ _ _ Hi). by rewrite app_assoc.
    + by destruct o.
    + eexists. split; [exact Ht|]. by destruct o.
  - pose proof (wp_ok _ _ _ _ _ (wp_piperead me _ n s (fun o s' => was_read (mkthread (PRead n) Ready k) n s o s')
      (pv_ok _ _ _ Hi) (pv_lock _ _ _ Hi) Ht (fun _ _ H => H)) E) as Hw.
    destruct (read_woken _ _ _ _ _ Hw) as [c Hwk]. destruct Hw as [O L [R W K] D F].
    eapply pipe_inv_change; [exact Hi|done|done| |done|done|exact Hwk| |].
    + rewrite (pv_fifo _ _ _ Hi), D. by rewrite app_assoc.
    + by destruct o.
    + eexists. split; [exact Ht|]. by destruct o.
  - destruct (pv_call _ _ _ Hi _ _ Ht) as [Hlen _].
    eapply (pipe_inv_change s sent recv s sent recv None me); [exact Hi|apply Hi..|done|done|done| |].
    + split; [exact Hlen|done].
    + exists t. done.
  - destruct (pipeclose_inv self w s s' (pv_lock _ _ _ Hi) E) as [Hp Ht]. destruct Hi as [[O1 O2 O3 O4] L F C R W].
    assert (forall j t, threads s' !! j = Some t -> running t ->
      exists t0, threads s !! j = Some t0 /\ running t0 /\ th_call t = th_call t0) as Hback.
    { intros j t Hj Hrun. rewrite Ht, lookup_fmap_Some in Hj. destruct Hj as (t0&<-&Hj). exists t0.
      split; [done|]. split; [by eapply wake_running|apply wake_keeps]. }
    constructor.
    + rewrite Hp. destruct w; by constructor.
    + unfold p_held in *. rewrite Hp. by destruct w.
    + rewrite F, Hp. by destruct w.
    + intros j t. rewrite Ht, lookup_fmap_Some. intros (t0&<-&Hj). apply wake_call_ok. by eapply C.
    + intros j t Hj Hrun Hro. destruct (Hback j t Hj Hrun) as (t0&Hj0&Hr0&Hc). unfold is_write. rewrite Hc.
      rewrite Hp in Hro. destruct w; [by eapply (R j)|]. by apply (Hcl j).
    + intros j t Hj Hrun Hwo. destruct (Hback j t Hj Hrun) as (t0&Hj0&Hr0&Hc). unfold is_read. rewrite Hc.
      rewrite Hp in Hwo. destruct w; [by apply (Hcl j)|]. by eapply (W j).
Qed.

Lemma execution_inv s0 s sent recv kills :
  fresh s0 -> execution self s0 s sent recv kills -> pipe_inv s sent recv.
Proof.
  intros Hf He. induction He as [|s sent recv kills l s' He IH Hs]; [by apply fresh_inv|].
  by eapply step_inv.
Qed.

(** A thread other than the running one, after its wakeup. *)
Lemma sleep_ok_woken p p' c t :
  sleep_ok p t ->
  (forall c', th_state t = Asleep c' -> Some c' <> c ->
     match c' with ReadChan => count p' = 0 /\ writeopen p' = true
                 | WriteChan => count p' = PIPESIZE /\ readopen p' = true end) ->
  sleep_ok p' (match c with Some c => wake c t | None => t end).
Proof.
  intros Ht Hc. unfold sleep_ok. destruct c as [c|].
  - pose proof (wake_not_asleep c t) as Hna. destruct (wake_keeps c t) as (_&_&[Hs|[_ Hs]]); rewrite Hs; [|done].
    rewrite Hs in Hna. destruct (th_state t) as [|c'|] eqn:E; [done| |done].
    specialize (Hc c' eq_refl). destruct c'; apply Hc; congruence.
  - destruct (th_state t) as [|c'|] eqn:E; [done| |done]. specialize (Hc c' eq_refl). destruct c'; by apply Hc.
Qed.

Lemma unkilled_change s s' c me tme :
  unkilled s -> woken c (threads s) (threads s') -> th_killed tme = false -> sleep_ok (pp s') tme ->
  (forall j t c', j <> me -> threads s !! j = Some t -> th_state t = Asleep c' -> Some c' <> c ->
     match c' with ReadChan => count (pp s') = 0 /\ writeopen (pp s') = true
                 | WriteChan => count (pp s') = PIPESIZE /\ readopen (pp s') = true end) ->
  unkilled (set_threads (<[me := tme]> (threads s')) s').
Proof.
  intros Hu Hw Hk Hs Hoth j t. cbn [threads set_threads]. intros [[<- <-]|[Hne Hj]]%lookup_insert_Some; [done|].
  destruct (woken_lookup _ _ _ _ _ Hw Hj) as (t1&Ht1&->). destruct (Hu j t1 Ht1) as [Hk1 Hs1]. split.
  - destruct c as [c|]; [|done]. destruct (wake_keeps c t1) as (_&Hkk&_). by rewrite Hkk.
  - eapply sleep_ok_woken; [exact Hs1|]. intros c' Hc'. eapply (Hoth j); done.
Qed.

(** Someone asleep on ReadChan sees an empty pipe open for writing, and
    someone asleep on WriteChan a full one open for reading. *)
Lemma asleep_facts s j t c :
  unkilled s -> threads s !! j = Some t -> th_state t = Asleep c ->
  match c with ReadChan => count (pp s) = 0 /\ writeopen (pp s) = true
             | WriteChan => count (pp s) = PIPESIZE /\ readopen (pp s) = true end.
Proof. intros Hu Hj Hs. destruct (Hu j t Hj) as [_ Ho]. unfold sleep_ok in Ho. rewrite Hs in Ho. by destruct c. Qed.

Lemma write_unkilled s sent recv s' me addr n i o :
  pipe_inv s sent recv -> unkilled s -> threads s !! me = Some (mkthread (PWrite addr n i) Ready false) ->
  wrote (mkthread (PWrite addr n i) Ready false) addr n i s o s' ->
  unkilled (set_threads (<[me := after_write addr n false o]> (threads s')) s').
Proof.
  intros Hi Hu Ht Hw. destruct (wrote_woken _ _ _ _ _ _ _ Hw) as [c Hwk].
  destruct Hw as [O L I D [R W K] F].
  assert (count (pp s) = PIPESIZE -> count (pp s') = PIPESIZE) as Hfull.
  { intros Hc. pose proof (po_count _ O). rewrite <- !length_contents in *. rewrite D, length_app in *. lia. }
  destruct o as [r j|j]; cbn [after_write].
  - destruct F as [(->&_&F)|(->&Hc&Hro&F)].
    + eapply (unkilled_change _ _ (Some ReadChan)); [done|done|done|done|]. intros j' t c' Hne Hj Hs Hn.
      pose proof (asleep_facts _ _ _ _ Hu Hj Hs) as Ha. destruct c'; [done|].
      rewrite R. destruct Ha. split; [by apply Hfull|done].
    + eapply (unkilled_change _ _ None); [done|done|done|done|]. intros j' t c' Hne Hj Hs _.
      pose proof (asleep_facts _ _ _ _ Hu Hj Hs) as Ha. destruct Hro as [Hro|Hk]; [|done].
      destruct c'.
      * destruct (pv_call _ _ _ Hi _ _ Hj) as [_ Hch]. unfold chan_ok in Hch. rewrite Hs in Hch.
        assert (is_write t) as Hwr by (eapply (pv_read _ _ _ Hi); [done| |done]; unfold running; by rewrite Hs).
        unfold is_read, is_write in *. by destruct (th_call t).
      * rewrite Hro in Ha. by destruct Ha.
  - destruct F as (Hc&Hro&Hk&F). eapply (unkilled_change _ _ (Some ReadChan)); [done|done|done| |].
    + cbn. by rewrite R.
    + intros j' t c' Hne Hj Hs Hn. destruct c'; [done|]. by rewrite R.
Qed.

Lemma read_unkilled s s' me n o :
  unkilled s -> threads s !! me = Some (mkthread (PRead n) Ready false) ->
  was_read (mkthread (PRead n) Ready false) n s o s' ->
  unkilled (set_threads (<[me := after_read n false o]> (threads s')) s').
Proof.
  intros Hu Ht [O L [R W K] D F]. destruct o as [r got|]; cbn [after_read].
  - destruct F as [(_&_&Hk&_)|(->&Hor&_&F)]; [done|].
    eapply (unkilled_change _ _ (Some WriteChan)); [done|done|done|done|]. intros j' t c' Hne Hj Hs Hn.
    pose proof (asleep_facts _ _ _ _ Hu Hj Hs) as Ha. destruct c'; [|done].
    destruct Ha as [H1 H2], Hor as [H3|H3]; [done|]. congruence.
  - destruct F as (Hz&Hwo&Hk&F). assert (count (pp s') = count (pp s)) as Hc.
    { rewrite <- !length_contents. by rewrite D. }
    eapply (unkilled_change _ _ None); [done|done|done| |].
    + cbn. by rewrite Hc, W.
    + intros j' t c' Hne Hj Hs _. pose proof (asleep_facts _ _ _ _ Hu Hj Hs) as Ha.
      destruct c'; by rewrite ?Hc, ?W, ?R.
Qed.

Lemma step_unkilled s sent recv l s' :
  pipe_inv s sent recv -> unkilled s -> step self s l s' -> l <> LKill -> unkilled s'.
Proof.
  intros Hi Hu Hs Hl. destruct Hs as [s me addr n Hn Ho Hlen|s me n Hn Ho|s me addr n i k o s' Ht E
    |s me n k o s' Ht E|s me t Ht Hrun|s s' w Ho Hcl E]; [| | | |done|].
  - eapply (unkilled_change _ _ None); [done|done|done|done|]. intros j t c' _ Hj Hs' _. by eapply asleep_facts.
  - eapply (unkilled_change _ _ None); [done|done|done|done|]. intros j t c' _ Hj Hs' _. by eapply asleep_facts.
  - destruct (pv_call _ _ _ Hi _ _ Ht) as [Hlen _]. cbn in Hlen. destruct (Hu me _ Ht) as [Hk _]. cbn in Hk. subst k.
    eapply write_unkilled; [done|done|done|].
    eapply (wp_ok _ _ _ _ _ (wp_pipewrite me _ addr n i s _ (pv_ok _ _ _ Hi) (pv_lock _ _ _ Hi) Ht Hlen (fun _ _ H => H)) E).
  - destruct (Hu me _ Ht) as [Hk _]. cbn in Hk. subst k. eapply read_unkilled; [done|done|].
    eapply (wp_ok _ _ _ _ _ (wp_piperead me _ n s _ (pv_ok _ _ _ Hi) (pv_lock _ _ _ Hi) Ht (fun _ _ H => H)) E).
  - destruct (pipeclose_inv self w s s' (pv_lock _ _ _ Hi) E) as [Hp Ht].
    intros j t Hj. rewrite Ht, lookup_fmap_Some in Hj. destruct Hj as (t0&<-&Hj0). destruct (Hu j t0 Hj0) as [Hk Hsl].
    split; [destruct (wake_keeps (if w then ReadChan else WriteChan) t0) as (_&Hkk&_); by rewrite Hkk|].
    eapply (sleep_ok_woken _ _ (Some (if w then ReadChan else WriteChan))); [exact Hsl|].
    intros c' Hst Hne. destruct (pv_call _ _ _ Hi _ _ Hj0) as [_ Hch]. unfold chan_ok in Hch. rewrite Hst in Hch.
    assert (running t0) as Hrun by (unfold running; by rewrite Hst). specialize (Hcl j t0 Hj0 Hrun).
    destruct w, c'; try done; unfold is_read, is_write in *; by destruct (th_call t0).
Qed.

Lemma execution_unkilled s0 s sent recv :
  fresh s0 -> execution self s0 s sent recv false -> unkilled s.
Proof.
  intros Hf He. remember false as kills eqn:Hk.
  induction He as [|s sent recv kills l s' He IH Hs]; [by apply fresh_inv|].
  eapply step_unkilled; [by eapply execution_inv| |exact Hs|by destruct l]. apply IH. by destruct l.
Qed.

(** C9: a pipe is a bounded queue: in any interleaving of any number of
    readers and writers, closes and kills, the bytes stored so far are the
    bytes read so far followed by the bytes in the buffer, of which there are
    at most PIPESIZE; also when the counters wrap around. *)
Theorem pipe_fifo s0 s sent recv kills :
  fresh s0 -> execution self s0 s sent recv kills ->
  sent = recv ++ contents (pp s) /\ Z.of_nat (length (contents (pp s))) <= PIPESIZE.
Proof.
  intros Hf He. destruct (execution_inv _ _ _ _ _ Hf He) as [O _ F _ _ _]. split; [exact F|].
  rewrite length_contents. apply O.
Qed.

(** C29: without kills there is no lost wakeup: a sleeping reader faces an empty
    pipe that is open for writing, a sleeping writer a full pipe that is open
    for reading; so readers and writers are never asleep at the same time. *)
Theorem pipe_no_lost_wakeup s0 s sent recv :
  fresh s0 -> execution self s0 s sent recv false ->
  (forall j t, threads s !! j = Some t -> sleep_ok (pp s) t) /\
  (forall i j t u, threads s !! i = Some t -> threads s !! j = Some u ->
     ~ (th_state t = Asleep ReadChan /\ th_state u = Asleep WriteChan)).
Proof.
  intros Hf He. pose proof (execution_unkilled _ _ _ _ Hf He) as Hu. split.
  - intros j t Hj. by apply (Hu j t).
  - intros i j t u Hi Hj [Ht Hs]. pose proof (asleep_facts _ _ _ _ Hu Hi Ht) as [H1 _].
    pose proof (asleep_facts _ _ _ _ Hu Hj Hs) as [H2 _]. rewrite H1 in H2. done.
Qed.

(** C30: a call that is not asleep always runs to a return or to a sleep, and a
    piperead() of n > 0 bytes that returns 0 has met the end of the file: no
    writer is left and every byte sent has been received. *)
Theorem pipe_runs_and_eof s0 s sent recv kills me n k :
  fresh s0 -> execution self s0 s sent recv kills -> 0 < n ->
  threads s !! me = Some (mkthread (PRead n) Ready k) ->
  wp (piperead me n) (fun o s' =>
    match o with
    | RReturn r got => (r = -1 /\ k = true) \/
        (r = Z.of_nat (length got) /\ (r = 0 -> writeopen (pp s) = false /\ sent = recv))
    | RSleep => contents (pp s) = [] /\ writeopen (pp s) = true
    end) s.
Proof.
  intros Hf He Hn Ht. destruct (execution_inv _ _ _ _ _ Hf He) as [O L F _ _ _].
  eapply wp_piperead; [done|done|exact Ht|]. intros o s' [O' L' E D R]. destruct o as [r got|].
  - destruct R as [(->&_&Hk&_)|(->&Hor&Hlen&_)]; [by left|]. right. split; [done|]. intros Hz.
    pose proof (count_range (pp s)). rewrite Hz in Hlen. assert (count (pp s) = 0) as Hc by lia.
    split; [by destruct Hor|]. rewrite <- length_contents in Hc. destruct (contents (pp s)); [|done].
    by rewrite app_nil_r in F.
  - destruct R as (Hz&Hw&_). split; [|done]. rewrite <- length_contents in Hz. by destruct (contents (pp s)).
Qed.
End invariant.

(** ** Example executions *)
Module Example.
#[local] Existing Instance Machine.image.

Definition self : Z := 0x80500000.
Definition s0 : psys := mkpsys (mkpipe false (replicate (Z.to_nat PIPESIZE) 0) 0 0 true true) ∅ (mkmem false false 0 ∅).

Lemma s0_fresh : fresh s0.
Proof. split; [done|]. eexists. split; [|done]. apply length_replicate. Qed.

(** The state after a segment of a writer or a reader that ends with [o]. *)
Definition run_write me addr n i k o (s : psys) : psys :=
  let s' := final (pipewrite me addr n i) s in set_threads (<[me := after_write addr n k o]> (threads s')) s'.
Definition run_read me n k o (s : psys) : psys :=
  let s' := final (piperead me n) s in set_threads (<[me := after_read n k o]> (threads s')) s'.
Definition call me c (s : psys) : psys := set_threads (<[me := mkthread c Ready false]> (threads s)) s.

(** A writer stores three bytes, a reader takes two. *)
Definition msg : list Z := [97; 98; 99].
Definition a1 : psys := call 0 (PWrite msg 3 0) s0.
Definition a2 : psys := run_write 0 msg 3 0 false (WReturn 3 3) a1.
Definition a3 : psys := call 1 (PRead 2) a2.
Definition a4 : psys := run_read 1 2 false (RReturn 2 [97; 98]) a3.

Lemma a3_execution : execution self s0 a3 msg [] false.
Proof.
  apply (exec_step self s0 a2 msg [] false LCall); [|apply step_call_read; by vm_compute].
  apply (exec_step self s0 a1 [] [] false (LRun (mkmoved msg []))).
  - apply (exec_step self s0 s0 [] [] false LCall); [constructor|apply step_call_write; by vm_compute].
  - apply (step_write self a1 0 msg 3 0 false (WReturn 3 3) (final (pipewrite 0 msg 3 0) a1)); by vm_compute.
Qed.

Lemma a3_reader : threads a3 !! 1%nat = Some (mkthread (PRead 2) Ready false).
Proof. by vm_compute. Qed.

Lemma a4_execution : execution self s0 a4 msg [97; 98] false.
Proof.
  apply (exec_step self s0 a3 msg [] false (LRun (mkmoved [] [97; 98]))); [exact a3_execution|].
  apply (step_read self a3 1 2 false (RReturn 2 [97; 98]) (final (piperead 1 2) a3)); by vm_compute.
Qed.

Lemma pipe_fifo_witness :
  msg = [97; 98] ++ contents (pp a4) /\ Z.of_nat (length (contents (pp a4))) <= PIPESIZE.
Proof. exact (pipe_fifo self s0 a4 msg [97; 98] false s0_fresh a4_execution). Defined.

Lemma pipe_no_lost_wakeup_witness :
  (forall j t, threads a4 !! j = Some t -> sleep_ok (pp a4) t) /\
  (forall i j t u, threads a4 !! i = Some t -> threads a4 !! j = Some u ->
     ~ (th_state t = Asleep ReadChan /\ th_state u = Asleep WriteChan)).
Proof. exact (pipe_no_lost_wakeup self s0 a4 msg [97; 98] s0_fresh a4_execution). Defined.

Lemma pipe_runs_and_eof_witness :
  wp (piperead 1 2) (fun o s' =>
    match o with
    | RReturn r got => (r = -1 /\ false = true) \/
        (r = Z.of_nat (length got) /\ (r = 0 -> writeopen (pp a3) = false /\ msg = []))
    | RSleep => contents (pp a3) = [] /\ writeopen (pp a3) = true
    end) a3.
Proof. exact (pipe_runs_and_eof self s0 a3 msg [] false 1 2 false s0_fresh a3_execution eq_refl a3_reader). Defined.

(** A writer that is killed after it has filled the pipe returns without
    wakeup(&p->nread): a reader sleeps although the pipe is full. *)
Definition big : list Z := replicate 600 7.
Definition b0 : psys := call 0 (PRead 1) s0.
Definition b1 : psys := run_read 0 1 false RSleep b0.
Definition b2 : psys := call 1 (PWrite big 600 0) b1.
Definition b3 : psys := set_threads (<[1%nat := mkthread (PWrite big 600 0) Ready true]> (threads b2)) b2.
Definition b4 : psys := run_write 1 big 600 0 true (WReturn (-1) 512) b3.

Theorem killed_writer_loses_wakeup :
  execution self s0 b4 (slice 0 512 big) [] true /\
  threads b4 !! 0%nat = Some (mkthread (PRead 1) (Asleep ReadChan) false) /\
  threads b4 !! 1%nat = Some (mkthread (PWrite big 600 512) (Returned (-1)) true) /\
  count (pp b4) = 512.
Proof.
  split; [|by vm_compute].
  apply (exec_step self s0 b3 [] [] true (LRun (mkmoved (slice 0 (512 - 0) big) []))).
  - apply (exec_step self s0 b2 [] [] false LKill).
    + apply (exec_step self s0 b1 [] [] false LCall); [|apply step_call_write; by vm_compute].
      apply (exec_step self s0 b0 [] [] false (LRun (mkmoved [] []))).
      * apply (exec_step self s0 s0 [] [] false LCall); [constructor|apply step_call_read; by vm_compute].
      * apply (step_read self b0 0 1 false RSleep (final (piperead 0 1) b0)); by vm_compute.
    + apply (step_kill self b2 1 (mkthread (PWrite big 600 0) Ready false)); by vm_compute.
  - apply (step_write self b3 1 big 600 0 true (WReturn (-1) 512) (final (pipewrite 1 big 600 0) b3)); by vm_compute.
Qed.
End Example.
