(* ===== verification/File.v ===== *)
(** file.c: the table of open files, and pipealloc() of pipe.c, over the
    operations of fs.c, pipe.c, kalloc.c and log.c.

    A pointer to a struct file is its index in ftable.file.  A buffer that
    fileread() fills is returned; a buffer that filewrite() reads is a list of
    bytes. *)

From S2P Require Import Prelude Params Bytes Buf Log Fs Kalloc Pipe.

(** ** struct file (file.h) *)

Inductive ftype := FD_NONE | FD_PIPE | FD_INODE.

Record file := mkfile {
  f_type : ftype;
  f_ref : Z;
  f_readable : bool;
  f_writable : bool;
  f_pipe : Z;
  f_ip : nat;
  f_off : Z;
}.

Definition set_f_ref v (f : file) := mkfile (f_type f) v (f_readable f) (f_writable f) (f_pipe f) (f_ip f) (f_off f).
Definition set_f_type v (f : file) := mkfile v (f_ref f) (f_readable f) (f_writable f) (f_pipe f) (f_ip f) (f_off f).
Definition set_f_off v (f : file) := mkfile (f_type f) (f_ref f) (f_readable f) (f_writable f) (f_pipe f) (f_ip f) v.
Definition set_f_pipe r w p (f : file) := mkfile FD_PIPE (f_ref f) r w p (f_ip f) (f_off f).

(** ftable, and the parts of the kernel that file.c calls: the pipes by the
    address of their page, with the threads that use them. *)
Record filesys (S : Type) := mkfilesys {
  ft_lock : bool;
  files : list file;
  fsy : fsys S;
  ptab : gmap Z pipe;
  pthreads : gmap nat thread;
  pages : mem;
  me : nat;                   (* the process that runs *)
}.
Arguments mkfilesys {S} _ _ _ _ _ _ _.
Arguments ft_lock {S} _.
Arguments files {S} _.
Arguments fsy {S} _.
Arguments ptab {S} _.
Arguments pthreads {S} _.
Arguments pages {S} _.
Arguments me {S} _.

Definition set_ft_lock {S} v (s : filesys S) := mkfilesys v (files s) (fsy s) (ptab s) (pthreads s) (pages s) (me s).
Definition set_files {S} v (s : filesys S) := mkfilesys (ft_lock s) v (fsy s) (ptab s) (pthreads s) (pages s) (me s).
Definition set_fsy {S} (v : fsys S) (s : filesys S) := mkfilesys (ft_lock s) (files s) v (ptab s) (pthreads s) (pages s) (me s).
Definition set_pages {S} v (s : filesys S) := mkfilesys (ft_lock s) (files s) (fsy s) (ptab s) (pthreads s) v (me s).
Definition set_ptab {S} v (s : filesys S) := mkfilesys (ft_lock s) (files s) (fsy s) v (pthreads s) (pages s) (me s).

(** How a call that may sleep in a pipe ends: with its result and the bytes
    read, or asleep, a writer at byte [i] of its buffer. *)
Inductive fout := FDone (r : Z) (got : list Z) | FAsleep (i : nat).

(** ((MAXOPBLOCKS-1-1-2) / 2) * 512 *)
Definition max_write : Z := (MAXOPBLOCKS - 1 - 1 - 2) / 2 * 512.

(** offsetof(struct pipe, data): the lock is three words and the ten of pcs. *)
Definition pipe_data_off : nat := 52.

Section file.
Context {S : Type} `{TxLayer S} `{OpLayer S} `{KernelImage}.
Context (dev_read : Z -> option (nat -> Z -> M (fsys S) (Z * list Z))).
Context (dev_write : Z -> option (nat -> list Z -> Z -> M (fsys S) Z)).

Definition onfs {A} (m : M (fsys S) A) : M (filesys S) A := zoom fsy set_fsy m.
Definition oncore {A} (m : M S A) : M (filesys S) A := onfs (onblk m).
Definition onpages {A} (m : M mem A) : M (filesys S) A := zoom pages set_pages m.
Definition onpipe {A} (p : Z) (m : M psys A) : M (filesys S) A :=
  let* t := gets ptab in
  let* pi := from_some (t !! p) in
  zoom (fun s => mkpsys pi (pthreads s) (pages s))
    (fun t s => mkfilesys (ft_lock s) (files s) (fsy s) (<[p := pp t]> (ptab s)) (threads t) (kpg t) (me s)) m.

Definition get_file (f : nat) : M (filesys S) file := fun s => from_some (files s !! f) s.
Definition upd_file (f : nat) (g : file -> file) : M (filesys S) unit :=
  let* x := get_file f in
  modify (fun s => set_files (<[f := g x]> (files s)) s).

Definition fileinit : M (filesys S) unit := modify (set_ft_lock false).

(** Returns None for a null pointer. *)
Definition filealloc : M (filesys S) (option nat) :=
  acquire ft_lock set_ft_lock ;;;
  let* r := for_find (seq 0 NFILE) (fun f =>
    let* x := get_file f in
    if f_ref x =? 0 then
      upd_file f (set_f_ref 1) ;;;
      release ft_lock set_ft_lock ;;;
      ret (Some f)
    else ret None) in
  match r with
  | Some f => ret (Some f)
  | None => release ft_lock set_ft_lock ;;; ret None
  end.

Definition filedup (f : nat) : M (filesys S) nat :=
  acquire ft_lock set_ft_lock ;;;
  let* x := get_file f in
  panic_if (f_ref x <? 1) "filedup" ;;;
  upd_file f (set_f_ref (f_ref x + 1)) ;;;
  release ft_lock set_ft_lock ;;;
  ret f.

Definition fileclose (f : nat) : M (filesys S) unit :=
  acquire ft_lock set_ft_lock ;;;
  let* x := get_file f in
  panic_if (f_ref x <? 1) "fileclose" ;;;
  upd_file f (set_f_ref (f_ref x - 1)) ;;;
  if 0 <? f_ref x - 1 then release ft_lock set_ft_lock
  else
    let* ff := get_file f in
    upd_file f (fun x => set_f_type FD_NONE (set_f_ref 0 x)) ;;;
    release ft_lock set_ft_lock ;;;
    match f_type ff with
    | FD_PIPE => onpipe (f_pipe ff) (pipeclose (f_pipe ff) (f_writable ff))
    | FD_INODE =>
        oncore bl_begin_op ;;;
        onfs (iput (f_ip ff)) ;;;
        oncore bl_end_op
    | FD_NONE => ret tt
    end.

(** The result, and the structure that it fills. *)
Definition filestat (f : nat) : M (filesys S) (Z * option stat) :=
  let* x := get_file f in
  match f_type x with
  | FD_INODE =>
      onfs (ilock (f_ip x)) ;;;
      let* st := onfs (stati (f_ip x)) in
      onfs (iunlock (f_ip x)) ;;;
      ret (0, Some st)
  | _ => ret (-1, None)
  end.

Definition fileread (f : nat) (n : Z) : M (filesys S) fout :=
  let* x := get_file f in
  if negb (f_readable x) then ret (FDone (-1) [])
  else
    match f_type x with
    | FD_PIPE =>
        let* me := gets me in
        let* o := onpipe (f_pipe x) (piperead me n) in
        ret (match o with RReturn r got => FDone r got | RSleep => FAsleep 0 end)
    | FD_INODE =>
        onfs (ilock (f_ip x)) ;;;
        let* '(r, got) := onfs (readi dev_read (f_ip x) (f_off x) (u32 n)) in
        (if 0 <? r then upd_file f (fun x => set_f_off (u32 (f_off x + r)) x) else ret tt) ;;;
        onfs (iunlock (f_ip x)) ;;;
        ret (FDone r got)
    | FD_NONE => panic "fileread"
    end.

(** The loop of filewrite(): the final value of i. *)
Fixpoint filewrite_loop (fuel : nat) (f : nat) (addr : list Z) (n i : Z) : M (filesys S) Z :=
  if i <? n then
    match fuel with
    | O => nofuel
    | Datatypes.S fuel =>
        let n1 := if max_write <? n - i then max_write else n - i in
        let* x := get_file f in
        oncore bl_begin_op ;;;
        onfs (ilock (f_ip x)) ;;;
        let* r := onfs (writei dev_write (f_ip x) (drop (Z.to_nat i) addr) (f_off x) n1) in
        (if 0 <? r then upd_file f (fun x => set_f_off (u32 (f_off x + r)) x) else ret tt) ;;;
        onfs (iunlock (f_ip x)) ;;;
        oncore bl_end_op ;;;
        if r <? 0 then ret i
        else
          panic_if (negb (r =? n1)) "short filewrite" ;;;
          filewrite_loop fuel f addr n (i + r)
    end
  else ret i.

(** [i0] is 0, or the byte at which a write to a pipe went to sleep. *)
Definition filewrite (f : nat) (addr : list Z) (n : Z) (i0 : nat) : M (filesys S) fout :=
  let* x := get_file f in
  if negb (f_writable x) then ret (FDone (-1) [])
  else
    match f_type x with
    | FD_PIPE =>
        let* me := gets me in
        let* o := onpipe (f_pipe x) (pipewrite me addr n i0) in
        ret (match o with WReturn r _ => FDone r [] | WSleep i => FAsleep i end)
    | FD_INODE =>
        let* i := filewrite_loop (Z.to_nat n) f addr n 0 in
        ret (FDone (if i =? n then n else -1) [])
    | FD_NONE => panic "filewrite"
    end.

(** pipealloc() of pipe.c: the two files, or None for -1.  Of the two calls
    of filealloc() the second is made only when the first succeeds. *)
Definition pipealloc : M (filesys S) (option (nat * nat)) :=
  let* f0 := filealloc in
  match f0 with
  | None => ret None
  | Some f0 =>
      let* f1 := filealloc in
      match f1 with
      | None => fileclose f0 ;;; ret None
      | Some f1 =>
          let* p := onpages kalloc in
          if p =? 0 then
            fileclose f0 ;;;
            fileclose f1 ;;;
            ret None
          else
            let* d := onpages (get_page p) in
            modify (fun s => set_ptab (<[p := mkpipe false (slice pipe_data_off (Z.to_nat PIPESIZE) d) 0 0 true true]> (ptab s)) s) ;;;
            upd_file f0 (set_f_pipe true false p) ;;;
            upd_file f1 (set_f_pipe false true p) ;;;
            ret (Some (f0, f1))
      end
  end.

End file.
