(* ===== verification/FileSpec.v ===== *)
(** file.c: a write to a file of any size, as a sequence of transactions. *)

From S2P Require Import Prelude Params Bytes CString Buf Log Tx Ops Fs FsBlocks FsFile FsDir FsPath Kalloc Pipe File.

(** ** Across a commit *)

Section committed.
Context (sb : superblock) (v v' : view).
Context (Hc : committed v v') (Hl : layout sb v).

Lemma used_committed b : 0 <= b < sb_size sb -> used sb v' b = used sb v b.
Proof.
  intros Hb. unfold used. rewrite (cm_content _ _ Hc); [done|]. apply (lo_bitmap _ _ Hl). by exists b.
Qed.

Lemma layout_committed : layout sb v'.
Proof.
  pose proof (cm_range _ _ Hc) as Hr. split.
  - apply Hl.
  - rewrite (cm_content _ _ Hc); apply Hl.
  - apply Hr, Hl.
  - intros n Hn. destruct (lo_bitmap _ _ Hl n Hn) as (? & ? & ?). split_and!; [by apply Hr|done|done].
  - intros n Hn. destruct (lo_inode _ _ Hl n Hn). split; [by apply Hr|done].
  - intros b Hb Hu. rewrite used_committed in Hu by done. destruct (lo_free _ _ Hl b Hb Hu). split; [by apply Hr|done].
Qed.

Lemma has_free_committed k : has_free sb v k -> has_free sb v' k.
Proof.
  intros (l & Hnd & Hlen & Hf). exists l. split; [done|]. split; [done|]. intros b Hb. destruct (Hf b Hb) as [H1 H2].
  split; [done|]. by rewrite used_committed.
Qed.

Context (x : inode) (Hok : inode_ok sb v x).

Lemma content_owned n : owns x v n -> content v' n = content v n.
Proof. intros Hn. apply (cm_content _ _ Hc). destruct (io_owns _ _ _ Hok n Hn) as ((_ & ? & _) & _). done. Qed.

Lemma slot_committed k : slot x v' k = slot x v k.
Proof.
  unfold slot, addr_of. destruct (k =? -1); [done|]. destruct (k <? NDIRECT); [done|].
  destruct (Z.eqb_spec (ind_of x) 0) as [|Hi]; [done|]. rewrite content_owned; [done|].
  apply (owns_slot x v (-1)); [rewrite MAXFILE_val; lia|done].
Qed.

Lemma addr_committed bn : 0 <= bn -> addr_of x v' bn = addr_of x v bn.
Proof. intros Hb. rewrite <- !slot_nonneg by done. apply slot_committed. Qed.

Lemma file_byte_committed o : 0 <= o < MAXFILE * BSIZE -> file_byte x v' o = file_byte x v o.
Proof.
  intros Ho. unfold file_byte, file_block. assert (Hb : 0 <= o / BSIZE < MAXFILE).
  { split; [apply Z.div_pos; [lia|done]|]. apply Z.div_lt_upper_bound; [done|lia]. }
  rewrite addr_committed by lia. destruct (Z.eqb_spec (addr_of x v (o / BSIZE)) 0) as [|Hn]; [done|].
  rewrite content_owned; [done|]. rewrite <- slot_nonneg in * by lia. apply owns_slot; [lia|done].
Qed.

Lemma no_holes_committed : no_holes x v -> no_holes x v'.
Proof. intros Hn bn Hb Hlt. rewrite addr_committed by done. by apply Hn. Qed.

Lemma fs_at_committed :
  held v' = ∅ -> touched v' = ∅ -> (forall n, range v n -> length (content v n) = Z.to_nat BSIZE) -> fs_at sb v' x.
Proof.
  intros Hh Ht Hs. split; [apply layout_committed| | |].
  - split; intros; rewrite ?Hh; done.
  - destruct Hok as [D L O I]. split; [done|done| |].
    + intros n (Hn & k & Hk & ->). rewrite slot_committed in *.
      destruct (O (slot x v k)) as ((H1 & H2 & H3) & Hu & _); [by apply owns_slot|].
      split; [split; [done|split; [by apply (cm_range _ _ Hc)|done]]|].
      rewrite used_committed by done. split; [done|]. by rewrite Hh.
    + intros k k' Hk Hk'. rewrite !slot_committed. by apply I.
  - intros n Hn%(cm_range _ _ Hc). rewrite (cm_content _ _ Hc) by done. by apply Hs.
Qed.
End committed.

(** ** filewrite() *)

Section filewrite.
Context {S : Type} `{OpLaws S} `{KernelImage}.
Context (dev_write : Z -> option (nat -> list Z -> Z -> M (fsys S) Z)).
Implicit Types (s : filesys S) (v : view) (x : inode).

(** Entry [f] of the table is an open file; no system call is in progress. *)
Record file_open s v (f : nat) (fl : file) x : Prop := {
  fo_idle : idle (blk (fsy s)) v;
  fo_file : files s !! f = Some fl;
  fo_type : f_type fl = FD_INODE;
  fo_inode : inodes (fsy s) !! f_ip fl = Some x;
  fo_lock : sl_free (i_lock x);
  fo_valid : i_valid x = true;
  fo_ref : 1 <= i_ref x;
  fo_at : fs_at (sb (fsy s)) v x;
  fo_holes : no_holes x v;
  fo_regular : regular x;
  fo_num : 0 <= i_num x < sb_ninodes (sb (fsy s));
}.

Lemma wp_onfs {A} (m : M (fsys S) A) Q s :
  wp m (fun a t => Q a (set_fsy t s)) (fsy s) -> wp (onfs m) Q s.
Proof. apply wp_zoom. Qed.

Lemma wp_oncore {A} (m : M S A) Q s :
  wp m (fun a b => Q a (set_fsy (set_blk b (fsy s)) s)) (blk (fsy s)) -> wp (oncore m) Q s.
Proof. intros Hm. apply wp_onfs. by apply wp_onblk. Qed.

Lemma wp_get_file s f fl (Q : file -> filesys S -> Prop) : files s !! f = Some fl -> Q fl s -> wp (get_file f) Q s.
Proof. intros Hf HQ. unfold wp, get_file. by rewrite Hf. Qed.

Lemma wp_upd_file s f g fl (Q : unit -> filesys S -> Prop) :
  files s !! f = Some fl -> Q tt (set_files (<[f := g fl]> (files s)) s) -> wp (upd_file f g) Q s.
Proof. intros Hf HQ. unfold upd_file. apply wp_bind. by eapply wp_get_file. Qed.

(** ilock() of an inode that is valid and not locked. *)
Lemma wp_ilock_valid (t : fsys S) ip x (Q : unit -> fsys S -> Prop) :
  inodes t !! ip = Some x -> sl_free (i_lock x) -> i_valid x = true -> 1 <= i_ref x ->
  Q tt (st t ip (set_i_lock (mksleeplock true false (mypid t)) x) (blk t)) -> wp (ilock ip) Q t.
Proof.
  intros Hi Hf Hv Hr HQ. pose proof (lookup_lt_Some _ _ _ Hi). unfold ilock. apply wp_bind. eapply wp_get_inode; [done|].
  apply wp_bind, wp_panic_if; [lia|]. apply wp_bind, wp_gets. apply wp_bind. eapply wp_on_ilock; [done|].
  apply wp_acquiresleep; [done|]. apply wp_bind. eapply wp_get_inode; [cbn; by apply list_lookup_insert_eq|]. cbn. rewrite Hv.
  apply wp_ret. by destruct t.
Qed.

Lemma wp_iunlock_mine (t : fsys S) ip x (Q : unit -> fsys S -> Prop) :
  inodes t !! ip = Some x -> sl_held (mypid t) (i_lock x) -> 1 <= i_ref x ->
  Q tt (st t ip (set_i_lock (mksleeplock false false 0) x) (blk t)) -> wp (iunlock ip) Q t.
Proof.
  intros Hi Hh Hr HQ. pose proof (lookup_lt_Some _ _ _ Hi). unfold iunlock. apply wp_bind, wp_gets. apply wp_bind.
  eapply wp_on_ilock; [done|]. apply wp_holdingsleep; [done|].
  assert (set_i_lock (i_lock x) x = x) as -> by (by destruct x). rewrite list_insert_id by done.
  assert (set_inodes (inodes t) t = t) as -> by (by destruct t). apply wp_bind. eapply wp_get_inode; [done|].
  apply wp_bind, wp_panic_if; [cbn; lia|]. eapply wp_on_ilock; [done|]. apply wp_releasesleep; [apply Hh|]. by destruct t.
Qed.

Lemma copied_lock l x : copied (set_i_lock l x) = copied x.
Proof. done. Qed.

Lemma file_byte_copied x y v o : copied x = copied y -> file_byte x v o = file_byte y v o.
Proof. intros (_ & _ & _ & E)%copied_fields. unfold file_byte, file_block, addr_of, ind_of. by rewrite E. Qed.

(** The state after the inode of the file was unlocked and the transaction
    committed. *)
Lemma file_reopened s f fl x v1 v2 b x1 off :
  idle b v2 -> committed v1 v2 -> fs_at (sb (fsy s)) v1 x1 -> no_holes x1 v1 -> regular x1 ->
  0 <= i_num x1 < sb_ninodes (sb (fsy s)) -> i_valid x1 = true -> 1 <= i_ref x1 ->
  files s !! f = Some fl -> f_type fl = FD_INODE -> inodes (fsy s) !! f_ip fl = Some x ->
  let x2 := set_i_lock (mksleeplock false false 0) x1 in
  let s' := mkfilesys (ft_lock s) (<[f := set_f_off off fl]> (files s))
              (mkfsys (ic_lock (fsy s)) (<[f_ip fl := x2]> (inodes (fsy s))) (sb (fsy s)) (mypid (fsy s)) b)
              (ptab s) (pthreads s) (pages s) (me s) in
  file_open s' v2 f (set_f_off off fl) x2.
Proof.
  intros Hi Hc Hat Hnh Hrg Hnum Hv Hr Hf Hty Hx x2 s'. pose proof (lookup_lt_Some _ _ _ Hf). pose proof (lookup_lt_Some _ _ _ Hx).
  destruct (law_idle _ _ Hi) as (_ & Hheld & Htou & _). pose proof Hat as [Hl _ Hok Hs]. split; cbn; try done.
  - by apply list_lookup_insert_eq.
  - by apply list_lookup_insert_eq.
  - apply (fs_at_copied _ _ x1); [done|done|]. by apply (fs_at_committed _ v1).
  - apply (no_holes_copied _ x1); [done|]. by apply (no_holes_committed (sb (fsy s)) v1).
  - destruct Hrg. by split.
Qed.

Lemma wp_write_one s v f fl x src n1 (k : Z -> M (filesys S) Z) Q :
  file_open s v f fl x -> 0 <= f_off fl <= i_size x -> 0 < n1 <= max_write -> n1 <= Z.of_nat (length src) ->
  f_off fl + n1 <= MAXFILE * BSIZE -> has_free (sb (fsy s)) v 8 -> (25 <= limit v)%nat ->
  (forall s' v' x', file_open s' v' f (set_f_off (f_off fl + n1) fl) x' ->
     i_size x' = Z.max (i_size x) (f_off fl + n1) ->
     (forall o, 0 <= o < MAXFILE * BSIZE -> file_byte x' v' o =
        if decide (f_off fl <= o < f_off fl + n1) then byte_at src (Z.to_nat (o - f_off fl)) else file_byte x v o) ->
     (forall j, has_free (sb (fsy s)) v (8 + j) -> has_free (sb (fsy s')) v' j) -> limit v' = limit v ->
     wp (k n1) Q s') ->
  wp (oncore bl_begin_op ;;;
      onfs (ilock (f_ip fl)) ;;;
      let* r := onfs (writei dev_write (f_ip fl) src (f_off fl) n1) in
      (if 0 <? r then upd_file f (fun y => set_f_off (u32 (f_off y + r)) y) else ret tt) ;;;
      onfs (iunlock (f_ip fl)) ;;;
      oncore bl_end_op ;;;
      k r) Q s.
Proof.
  intros Ho Hoff Hn Hsrc Hmax Hfree Hlim HQ. destruct (law_idle _ _ (fo_idle _ _ _ _ _ Ho)) as (Hlog & Hheld & Htou & Hop).
  pose proof (lookup_lt_Some _ _ _ (fo_inode _ _ _ _ _ Ho)) as Hlt. assert (Hmv : MAXFILE * BSIZE = 71680) by reflexivity.
  apply wp_bind, wp_oncore. eapply law_begin; [apply Ho|]. intros b0 Hb0.
  apply wp_bind, wp_onfs. eapply wp_ilock_valid; [apply Ho|apply Ho|apply Ho|apply Ho|]. cbn [fsy set_fsy].
  set (x0 := set_i_lock _ x). apply wp_bind, wp_onfs. change (max_write) with 1536 in Hn.
  eapply (wp_writei _ _ v _ x0 _ _ _ 4); cbn; [done|by apply (fs_at_copied _ _ x); [..|apply Ho]|by apply list_lookup_insert_eq
    |apply (no_holes_copied _ x); [done|apply Ho]|destruct (fo_regular _ _ _ _ _ Ho); by split|done|lia|done| |done| |apply Ho|by rewrite Hheld|].
  { unfold BSIZE. pose proof (Z.mod_pos_bound (f_off fl) 512). lia. }
  { unfold spare. rewrite Hlog, Hheld, dom_empty_L, union_empty_l_L, size_empty. lia. }
  intros x1 v1 b1 Hb1 Hw Hf1. pose proof (wo_inode _ _ _ _ _ _ _ _ Hw) as Hx1.
  rewrite (proj2 (Z.ltb_lt 0 n1)) by lia. apply wp_bind.
  eapply wp_upd_file; [apply Ho|]. cbn.
  rewrite u32_small by (unfold is_u32, W32; lia).
  apply wp_bind, wp_onfs. eapply wp_iunlock_mine; [cbn; apply list_lookup_insert_eq; by rewrite length_insert|by rewrite Hx1|rewrite Hx1; apply Ho|].
  unfold st, set_fsy, set_files, set_blk. cbn [ic_lock inodes sb mypid blk fsy files ft_lock ptab pthreads pages me].
  rewrite !list_insert_insert_eq. apply wp_bind, wp_oncore. cbn [fsy blk].
  destruct (wo_tx _ _ _ _ _ _ _ _ Hw) as [Eop Esb].
  eapply law_end; [exact Hb1|by rewrite Eop|by rewrite (wo_held _ _ _ _ _ _ _ _ Hw)|rewrite Hlog in Esb; set_solver|].
  intros b2 v2 Hb2 Hc. cbn. destruct (wo_geo _ _ _ _ _ _ _ _ Hw) as (_ & Elim & _).
  assert (Hsz1 : i_size x1 = Z.max (i_size x) (f_off fl + n1)) by (by rewrite Hx1).
  pose proof (fo_regular _ _ _ _ _ Ho) as [Hty Hsz].
  eapply (HQ _ v2 (set_i_lock (mksleeplock false false 0) x1)).
  - eapply (file_reopened s f fl x v1 v2); try done; try apply Ho; try (by rewrite Hx1; apply Ho).
    + apply Hw.
    + apply Hw.
    + split; [by rewrite Hx1|]. rewrite Hsz1. lia.
  - done.
  - intros o Hor. rewrite (file_byte_copied _ x1) by done. 
    rewrite (file_byte_committed (sb (fsy s)) v1 v2 Hc); [|apply (fa_ok _ _ _ (wo_at _ _ _ _ _ _ _ _ Hw))|done].
    rewrite (wo_bytes _ _ _ _ _ _ _ _ Hw) by done. case_decide; [done|]. by apply file_byte_copied.
  - intros j Hj. cbn. apply (has_free_committed (sb (fsy s)) v1); [done|apply (fa_layout _ _ _ (wo_at _ _ _ _ _ _ _ _ Hw))|]. by apply Hf1.
  - by rewrite (cm_limit _ _ Hc), Elim.
Qed.

(** [len] bytes of [addr] from byte [i] on are in the file at [off]. *)
Definition file_has x v (addr : list Z) (i off len : Z) x' v' : Prop :=
  i_size x' = Z.max (i_size x) (off + len) /\
  forall o, 0 <= o < MAXFILE * BSIZE -> file_byte x' v' o =
    if decide (off <= o < off + len) then byte_at addr (Z.to_nat (i + (o - off))) else file_byte x v o.

Lemma byte_at_drop (l : list Z) i j : byte_at (drop i l) j = byte_at l (i + j).
Proof. unfold byte_at. by rewrite lookup_drop. Qed.

Lemma file_has_trans x v addr i off a x1 v1 len x2 v2 :
  0 <= i -> 0 < a -> 0 <= len ->
  i_size x1 = Z.max (i_size x) (off + a) ->
  (forall o, 0 <= o < MAXFILE * BSIZE -> file_byte x1 v1 o =
     if decide (off <= o < off + a) then byte_at (drop (Z.to_nat i) addr) (Z.to_nat (o - off)) else file_byte x v o) ->
  file_has x1 v1 addr (i + a) (off + a) len x2 v2 -> file_has x v addr i off (a + len) x2 v2.
Proof.
  intros Hi Ha Hl Hs1 Hb1 [Hs2 Hb2]. split; [rewrite Hs2, Hs1; lia|]. intros o Ho. rewrite Hb2, Hb1 by done.
  repeat case_decide; try lia; try done; [|rewrite byte_at_drop]; f_equal; lia.
Qed.

Lemma wp_filewrite_loop fuel : forall s v f fl x addr n i c Q,
  file_open s v f fl x -> 0 <= f_off fl <= i_size x -> 0 <= i <= n -> n - i <= Z.of_nat fuel ->
  n <= Z.of_nat (length addr) -> f_off fl + (n - i) <= MAXFILE * BSIZE -> n - i <= Z.of_nat c * max_write ->
  has_free (sb (fsy s)) v (8 * c) -> (25 <= limit v)%nat ->
  (forall s' v' x', file_open s' v' f (set_f_off (f_off fl + (n - i)) fl) x' ->
     file_has x v addr i (f_off fl) (n - i) x' v' -> Q n s') ->
  wp (filewrite_loop dev_write fuel f addr n i) Q s.
Proof.
  induction fuel as [|fuel IH]; intros s v f fl x addr n i c Q Ho Hoff Hi Hf Hlen Hmax Hc Hfree Hlim HQ;
    cbn [filewrite_loop]; destruct (Z.ltb_spec i n) as [Hlt|Hge].
  1: lia.
  1, 3: assert (i = n) as -> by lia; apply wp_ret; apply (HQ s v x);
    [by replace (set_f_off (f_off fl + (n - n)) fl) with fl by (rewrite Z.sub_diag, Z.add_0_r; by destruct fl)
    |split; [lia|]; intros o Hor; by rewrite decide_False by lia].
  change max_write with 1536 in *. destruct c as [|c]; [lia|].
  set (n1 := if 1536 <? n - i then 1536 else n - i).
  assert (Hn1 : 0 < n1 <= 1536 /\ n1 <= n - i /\ n - (i + n1) <= Z.of_nat c * 1536) by (unfold n1; destruct (Z.ltb_spec 1536 (n - i)); lia).
  clearbody n1. destruct Hn1 as (Hn1 & Hn2 & Hn3). cbv zeta. apply wp_bind. eapply wp_get_file; [apply Ho|].
  eapply (wp_write_one s v f fl x (drop (Z.to_nat i) addr) n1); [done|done|done|rewrite length_drop; lia|lia| |done|].
  { eapply has_free_mono; [|exact Hfree]. lia. }
  intros s1 v1 x1 Ho1 Hsz1 Hb1 Hf1 Hl1. destruct (Z.ltb_spec n1 0); [lia|].
  apply wp_bind, wp_panic_if; [by rewrite Z.eqb_refl|].
  eapply (IH s1 v1 f _ x1 addr n (i + n1) c); [exact Ho1|cbn; lia|lia|lia|done|cbn; lia|done| |by rewrite Hl1|].
  { apply Hf1. eapply has_free_mono; [|exact Hfree]. lia. }
  intros s2 v2 x2 Ho2 Hh2. cbn in Ho2, Hh2. eapply (HQ s2 v2 x2).
  - replace (f_off fl + (n - i)) with (f_off fl + n1 + (n - (i + n1))) by lia. exact Ho2.
  - replace (n - i) with (n1 + (n - (i + n1))) by lia. by eapply (file_has_trans _ _ _ _ _ n1 x1 v1); try lia.
Qed.

(** C14: write() to an open file returns n for any number of bytes that fit in
    a file: the bytes [off, off+n) of the file are those of the buffer, the
    others are as before, the offset moves by n and the size grows if it has
    to.  Every transaction that it is split into fits in the log. *)
Theorem filewrite_correct s v f fl x addr n :
  file_open s v f fl x -> f_writable fl = true -> 0 <= f_off fl <= i_size x -> 0 <= n <= Z.of_nat (length addr) ->
  f_off fl + n <= MAXFILE * BSIZE -> has_free (sb (fsy s)) v (8 * Z.to_nat (n / max_write + 1)) -> (25 <= limit v)%nat ->
  wp (filewrite dev_write f addr n 0) (fun r s' => r = FDone n [] /\ exists v' x',
    file_open s' v' f (set_f_off (f_off fl + n) fl) x' /\
    i_size x' = Z.max (i_size x) (f_off fl + n) /\
    forall o, 0 <= o < MAXFILE * BSIZE -> file_byte x' v' o =
      if decide (f_off fl <= o < f_off fl + n) then byte_at addr (Z.to_nat (o - f_off fl)) else file_byte x v o) s.
Proof.
  intros Ho Hw Hoff Hn Hmax Hfree Hlim. unfold filewrite. apply wp_bind. eapply wp_get_file; [apply Ho|].
  rewrite Hw, (fo_type _ _ _ _ _ Ho). cbn [negb]. apply wp_bind.
  eapply (wp_filewrite_loop _ s v f fl x addr n 0 (Z.to_nat (n / max_write + 1))); try done; try lia.
  { change max_write with 1536. Z.div_mod_to_equations; lia. }
  rewrite !Z.sub_0_r. intros s' v' x' Ho' [Hs Hb]. apply wp_ret. rewrite Z.eqb_refl. split; [done|]. exists v', x'.
  split_and!; [done|done|]. intros o Hor. rewrite Hb by done. by case_decide.
Qed.

End filewrite.

(** ** The table of open files *)

Section table.
Context {S : Type} `{TxLayer S} `{OpLayer S} `{KernelImage}.
Implicit Types (s : filesys S).

Definition unused (x : file) : Prop := f_ref x = 0.

(** Entries that are not in use have no type: fileclose() leaves them so, and
    pipealloc() relies on it when it closes a file it has just allocated. *)
Definition table_ok s : Prop :=
  ft_lock s = false /\ length (files s) = NFILE /\
  Forall (fun x => 0 <= f_ref x /\ (unused x -> f_type x = FD_NONE)) (files s).

Lemma relock s : ft_lock s = false -> set_ft_lock false (set_ft_lock true s) = s.
Proof. destruct s. cbn. by intros ->. Qed.

Lemma wp_filealloc s (Q : option nat -> filesys S -> Prop) :
  table_ok s ->
  (forall f x, files s !! f = Some x -> unused x -> (forall g y, (g < f)%nat -> files s !! g = Some y -> ~ unused y) ->
     Q (Some f) (set_files (<[f := set_f_ref 1 x]> (files s)) s)) ->
  (Forall (fun x => ~ unused x) (files s) -> Q None s) ->
  wp filealloc Q s.
Proof.
  intros (Hl & Hlen & Hok) Hsome Hnone. unfold filealloc. apply wp_bind, wp_acquire; [done|]. apply wp_bind.
  apply (wp_for_find _ _ (fun l s' => s' = set_ft_lock true s /\
    forall g y, (g < length l)%nat -> files s !! g = Some y -> ~ unused y)).
  - split; [done|]. cbn. lia.
  - intros l1 f l2 s' El [-> Hno].
    assert (Ef : f = length l1 /\ (f < NFILE)%nat).
    { assert (E : seq 0 NFILE !! length l1 = Some f) by (by rewrite El, list_lookup_middle). apply lookup_seq in E. lia. }
    destruct Ef as [-> Hlt]. destruct (lookup_lt_is_Some_2 (files s) (length l1)) as [x Hx]; [lia|].
    apply wp_bind. eapply wp_get_file; [exact Hx|]. destruct (Z.eqb_spec (f_ref x) 0) as [E|E].
    + apply wp_bind. eapply wp_upd_file; [exact Hx|]. apply wp_bind, wp_release; [done|]. apply wp_ret, wp_ret.
      specialize (Hsome _ _ Hx E Hno). rewrite <- (relock (set_files _ s)) in Hsome by done. exact Hsome.
    + apply wp_ret. split; [done|]. intros g y Hg Hy. rewrite length_app in Hg. cbn in Hg.
      destruct (decide (g = length l1)) as [->|]; [congruence|]. apply (Hno g); [lia|done].
  - intros s' [-> Hno]. apply wp_bind, wp_release; [done|]. apply wp_ret. rewrite relock by done. apply Hnone.
    apply Forall_lookup_2. intros g y Hy. apply (Hno g); [|done]. rewrite length_seq, <- Hlen. by eapply lookup_lt_Some.
Qed.

(** Closing a file that was just allocated. *)
Lemma wp_fileclose_new s f x (Q : unit -> filesys S -> Prop) :
  ft_lock s = false -> files s !! f = Some (set_f_ref 1 x) -> unused x -> f_type x = FD_NONE ->
  Q tt (set_files (<[f := x]> (files s)) s) -> wp (fileclose f) Q s.
Proof.
  intros Hl Hf Hu Ht HQ. pose proof (lookup_lt_Some _ _ _ Hf). unfold fileclose. apply wp_bind, wp_acquire; [done|].
  apply wp_bind. eapply wp_get_file; [exact Hf|]. apply wp_bind, wp_panic_if; [done|]. apply wp_bind.
  eapply wp_upd_file; [exact Hf|]. cbn [f_ref set_f_ref]. change (0 <? 1 - 1) with false. cbn iota. apply wp_bind.
  eapply wp_get_file; [cbn; by apply list_lookup_insert_eq|]. apply wp_bind. eapply wp_upd_file; [cbn; by apply list_lookup_insert_eq|].
  apply wp_bind, wp_release; [done|]. cbn [f_type set_f_ref]. rewrite Ht. apply wp_ret.
  unfold set_files, set_ft_lock in *. cbn [ft_lock files fsy ptab pthreads pages me] in *. rewrite Hl in HQ.
  rewrite list_insert_insert_eq. assert (Ex : set_f_type FD_NONE (set_f_ref 0 (set_f_ref (1 - 1) (set_f_ref 1 x))) = x).
  { unfold unused in Hu. clear HQ Hf. destruct x. cbn in Hu, Ht |- *. by subst. }
  by rewrite Ex.
Qed.

Lemma wp_pipealloc s free :
  table_ok s -> kmem_at free (pages s) ->
  wp pipealloc (fun r s' => table_ok s' /\ fsy s' = fsy s /\ me s' = me s /\
    match r with
    | Some (f0, f1) => exists p x0 x1 pi, head free = Some p /\ kmem_at (tail free) (pages s') /\
        f0 <> f1 /\ files s !! f0 = Some x0 /\ unused x0 /\ files s !! f1 = Some x1 /\ unused x1 /\
        files s' = <[f1 := set_f_pipe false true p (set_f_ref 1 x1)]>
                     (<[f0 := set_f_pipe true false p (set_f_ref 1 x0)]> (files s)) /\
        ptab s' = <[p := pi]> (ptab s) /\ nread pi = nwrite pi /\ readopen pi = true /\ writeopen pi = true /\ pi_lock pi = false
    | None => files s' = files s /\ ptab s' = ptab s /\ kmem_at free (pages s') /\
        (free = [] \/ forall f0 f1 x0 x1, files s !! f0 = Some x0 -> files s !! f1 = Some x1 -> unused x0 -> unused x1 -> f0 = f1)
    end) s.
Proof.
  intros Ht Hk. pose proof Ht as (Hl & Hlen & Hok). unfold pipealloc. apply wp_bind, wp_filealloc; [done| |].
  2: { intros Hall. apply wp_ret. split; [done|]. split_and!; [done|done|done|done|done|]. right. intros f0 f1 x0 x1 E0 _ U0.
       by apply (Forall_lookup_1 _ _ _ _ Hall) in E0. }
  intros f0 x0 Hx0 Hu0 Hmin0. pose proof (lookup_lt_Some _ _ _ Hx0) as Hlt0.
  destruct (Forall_lookup_1 _ _ _ _ Hok Hx0) as [_ Hn0]. specialize (Hn0 Hu0).
  set (s1 := set_files _ s). assert (Ht1 : table_ok s1).
  { split_and!; [done|by cbn; rewrite length_insert|]. apply Forall_insert; [done|]. split; [cbn; lia|done]. }
  apply wp_bind, wp_filealloc; [done| |].
  2: { intros Hall. apply wp_bind. eapply (wp_fileclose_new s1 f0 x0); [done|cbn; by apply list_lookup_insert_eq|done|done|].
       apply wp_ret. cbn. rewrite list_insert_insert_eq, list_insert_id by done. split; [by destruct s|]. split_and!; [done|done|done|done|done|].
       right. assert (Hone : forall f x, files s !! f = Some x -> unused x -> f = f0).
       { intros f x Hf Hu. destruct (decide (f = f0)) as [|Hne]; [done|]. exfalso.
         apply (Forall_lookup_1 _ _ f x Hall); [|done]. cbn. by rewrite list_lookup_insert_ne. }
       intros f f1 x x1 E0 E1 U0 U1. rewrite (Hone f x E0 U0). by rewrite (Hone f1 x1 E1 U1). }
  intros f1 x1 Hx1 Hu1 Hmin1. assert (Hne : f0 <> f1).
  { intros <-. cbn in Hx1. rewrite list_lookup_insert_eq in Hx1 by done. by injection Hx1 as <-. }
  cbn in Hx1. rewrite list_lookup_insert_ne in Hx1 by done. pose proof (lookup_lt_Some _ _ _ Hx1) as Hlt1.
  destruct (Forall_lookup_1 _ _ _ _ Hok Hx1) as [_ Hn1]. specialize (Hn1 Hu1).
  set (s2 := set_files _ s1). apply wp_bind, wp_zoom. eapply wp_kalloc; [exact Hk|]. intros pg Hpg Eram Euse.
  assert (Hrest : forall pg', files (set_pages pg' s2) = <[f1 := set_f_ref 1 x1]> (<[f0 := set_f_ref 1 x0]> (files s))) by done.
  assert (Hfin : forall y0 y1, f_ref y0 = 1 -> f_ref y1 = 1 ->
    Forall (fun x => 0 <= f_ref x /\ (unused x -> f_type x = FD_NONE)) (<[f1 := y1]> (<[f0 := y0]> (files s)))).
  { intros y0 y1 E0 E1. unfold unused. repeat apply Forall_insert; [done|rewrite E0; lia|rewrite E1; lia]. }
  destruct free as [|p free]; cbn [head tail default] in *.
  - change (default 0 None =? 0) with true. cbn iota. apply wp_bind. eapply (wp_fileclose_new _ f0 x0); [done| |done|done|].
    { cbn. rewrite list_lookup_insert_ne by done. by apply list_lookup_insert_eq. }
    apply wp_bind. eapply (wp_fileclose_new _ f1 x1); [done| |done|done|].
    { cbn. rewrite list_lookup_insert_ne by done. by rewrite list_lookup_insert_eq by (by rewrite length_insert). }
    apply wp_ret. assert (Ef : <[f1 := x1]> (<[f0 := x0]> (<[f1 := set_f_ref 1 x1]> (<[f0 := set_f_ref 1 x0]> (files s)))) = files s).
    { rewrite (list_insert_insert_ne _ f0 f1) by done. rewrite list_insert_insert_eq, list_insert_insert_eq.
      rewrite (list_insert_id _ f0), list_insert_id by done. done. }
    cbn. rewrite Ef. split; [by split_and!|]. split_and!; [done|done|done|done|done|by left].
  - pose proof (ka_frames _ _ Hk) as [Hp _]%Forall_cons. apply frame_pos in Hp as Hp0.
    change (id p) with p. rewrite (proj2 (Z.eqb_neq p 0)) by (unfold KERNLINK, KERNBASE, EXTMEM in Hp0; lia).
    destruct (ka_ram _ _ Hpg p Hp) as (d & Hd & _). apply wp_bind, wp_zoom. eapply wp_get_page; [exact Hd|].
    apply wp_bind, wp_modify, wp_bind. eapply wp_upd_file.
    { cbn. rewrite list_lookup_insert_ne by done. by apply list_lookup_insert_eq. }
    apply wp_bind. eapply wp_upd_file.
    { cbn. rewrite list_lookup_insert_ne by done. by rewrite list_lookup_insert_eq by (by rewrite length_insert). }
    apply wp_ret. cbn. rewrite (list_insert_insert_ne _ f0 f1) by done. rewrite !list_insert_insert_eq.
    split; [split_and!; [done|by cbn; rewrite !length_insert|by apply Hfin]|].
    split; [done|]. split; [done|]. exists p, x0, x1. eexists. split_and!; try done.
Qed.

(** pipealloc() returns two unused entries of the table, a reader and a
    writer of a new empty pipe in a page taken from the allocator; when there
    are fewer than two unused entries or no page it returns -1 and leaves the
    table, the pipes and the free pages as they were. *)
Theorem pipealloc_correct s free :
  table_ok s -> kmem_at free (pages s) ->
  wp pipealloc (fun r s' => table_ok s' /\
    match r with
    | Some (f0, f1) => exists p x0 x1 pi, head free = Some p /\ kmem_at (tail free) (pages s') /\
        f0 <> f1 /\ files s !! f0 = Some x0 /\ unused x0 /\ files s !! f1 = Some x1 /\ unused x1 /\
        files s' = <[f1 := set_f_pipe false true p (set_f_ref 1 x1)]>
                     (<[f0 := set_f_pipe true false p (set_f_ref 1 x0)]> (files s)) /\
        ptab s' = <[p := pi]> (ptab s) /\ nread pi = nwrite pi /\ readopen pi = true /\ writeopen pi = true
    | None => files s' = files s /\ ptab s' = ptab s /\ kmem_at free (pages s') /\
        (free = [] \/ forall f0 f1 x0 x1, files s !! f0 = Some x0 -> files s !! f1 = Some x1 -> unused x0 -> unused x1 -> f0 = f1)
    end) s.
Proof.
  intros Ht Hk. eapply wp_mono; [by apply (wp_pipealloc s free)|]. intros [[f0 f1]|] s' (Ht' & _ & _ & Hr); [|by split].
  split; [done|]. destruct Hr as (p & x0 & x1 & pi & Hr). exists p, x0, x1, pi. naive_solver.
Qed.

End table.
