(* ===== verification/FileExample.v ===== *)
(** The theorems of FileSpec.v at the file system of FsExample.v: inode 2, the
    file "hello", is open for reading and writing at its end. *)

From S2P Require Import Prelude Params Bytes CString Buf Memide Bio BioSpec Log LogSpec Tx Crash Ops Fs FsBlocks FsFile FsDir FsPath FsExample Kalloc Pipe File FileSpec.
#[local] Existing Instances Memide.memide_dev Memide.memide_laws.

(** The system after boot. *)
Definition booted : logsys Memide.memide := final boot (fresh fs_disk 1).

Lemma booted_idle : idle booted v0.
Proof.
  unfold booted. apply (wp_final _ (fun s => idle s v0)).
  eapply wp_boot; [apply fs_disk_ok|apply fs_geometry| | | |].
  { split; [vm_compute; reflexivity|vm_compute; reflexivity|rewrite fs_disk_range; lia|
      unfold in_log; lia|unfold LOGSIZE, MAXOPBLOCKS; lia]. }
  { eapply hdr_ok_empty; [apply fs_geometry|apply fs_hdr]. }
  { unfold hdr_list. change (devblock fs_disk ROOTDEV 2) with (block0 2). rewrite fs_hdr. set_solver. }
  intros s lru D' Hq Hrg _. exists 2, 30, lru, D', D'. split; [exact Hq|]. by rewrite Hrg.
Qed.

Definition y1 : inode := set_i_lock initsleeplock y0.
Definition open_hello : file := mkfile FD_INODE 1 true true 0 0 5.
Definition no_file : file := mkfile FD_NONE 0 false false 0 0 0.
Definition one_page : mem := mkmem false true 0x80200000 Machine.ram0.

Definition fs1 : filesys (logsys Memide.memide) :=
  mkfilesys false (open_hello :: replicate 99 no_file) (mkfsys false [y1] sb0 1 booted) ∅ ∅ one_page 1.

Lemma hello_open : file_open fs1 v0 0 open_hello y1.
Proof.
  split; [apply booted_idle|reflexivity|reflexivity|reflexivity|by split|reflexivity|cbn; lia| | | |cbn; lia].
  - apply (fs_at_copied _ _ y0); [done|done|apply y0_at].
  - apply (no_holes_copied _ y0); [done|]. by apply (one_holes y0 34).
  - split; [done|]. cbn. rewrite MAXFILE_val. unfold BSIZE. lia.
Qed.

Lemma filewrite_correct_witness :
  wp (filewrite no_write 0 [33; 10] 2 0) (fun r s' => r = FDone 2 [] /\ exists v' x',
    file_open s' v' 0 (set_f_off 7 open_hello) x' /\ i_size x' = 7 /\
    forall o, 0 <= o < MAXFILE * BSIZE -> file_byte x' v' o =
      if decide (5 <= o < 5 + 2) then byte_at [33; 10] (Z.to_nat (o - 5)) else file_byte y1 v0 o) fs1.
Proof.
  apply (filewrite_correct no_write fs1 v0 0 open_hello y1 [33; 10] 2 hello_open); [done|cbn; lia|cbn; lia| |apply free0|].
  - rewrite MAXFILE_val. unfold BSIZE. cbn. lia.
  - vm_compute. lia.
  - apply Nat.leb_le. reflexivity.
Defined.

Lemma fs1_table : table_ok fs1.
Proof.
  split_and!; [done|done|]. constructor; [split; cbn; [lia|done]|]. by apply Forall_replicate.
Qed.

Lemma one_page_free : kmem_at [0x80200000] one_page.
Proof.
  assert (Hf : frame 0x80200000) by (split; [done|]; cbn; unfold KERNBASE, PHYSTOP; lia).
  split; [done| |by apply NoDup_singleton|by constructor|apply Machine.ram0_ok].
  split; [done|]. exists Machine.zeros. split; [by apply Machine.ram0_lookup|done].
Qed.

Lemma pipealloc_correct_witness :
  wp pipealloc (fun r s' => table_ok s' /\
    match r with
    | Some (f0, f1) => exists p x0 x1 pi, head [0x80200000] = Some p /\ kmem_at (tail [0x80200000]) (pages s') /\
        f0 <> f1 /\ files fs1 !! f0 = Some x0 /\ unused x0 /\ files fs1 !! f1 = Some x1 /\ unused x1 /\
        files s' = <[f1 := set_f_pipe false true p (set_f_ref 1 x1)]>
                     (<[f0 := set_f_pipe true false p (set_f_ref 1 x0)]> (files fs1)) /\
        ptab s' = <[p := pi]> (ptab fs1) /\ nread pi = nwrite pi /\ readopen pi = true /\ writeopen pi = true
    | None => files s' = files fs1 /\ ptab s' = ptab fs1 /\ kmem_at [0x80200000] (pages s') /\
        ([0x80200000] = [] \/ forall f0 f1 x0 x1, files fs1 !! f0 = Some x0 -> files fs1 !! f1 = Some x1 ->
           unused x0 -> unused x1 -> f0 = f1)
    end) fs1.
Proof. apply (pipealloc_correct fs1 [0x80200000] fs1_table one_page_free). Defined.
