(* ===== verification/Syscall.v ===== *)
(** syscall.c and sysproc.c: the arguments of system calls and the calls on
    processes.

    [K] is the state of the kernel; the process that made the call is a part
    of it.  The user part of its memory is [u_mem], the bytes from address 0
    to u_sz: an access of the kernel to a user address outside of it is a
    fault.  A pointer argument that a function fills is a value it returns,
    and None stands for the result -1. *)

From Stdlib Require Import ZifyBool.
From S2P Require Import Prelude Params Bytes Kalloc.

(** ** The calling process *)

Record uproc := mkuproc {
  u_sz : Z;
  u_esp : Z;                     (* tf->esp *)
  u_eax : Z;                     (* tf->eax *)
  u_mem : list Z;
  u_ofile : list (option nat);
  u_cwd : nat;
  u_pid : Z;
  u_killed : bool;
  u_alarmticks : Z;
  u_alarmhandler : Z;
}.

Definition set_u_eax v (u : uproc) := mkuproc (u_sz u) (u_esp u) v (u_mem u) (u_ofile u) (u_cwd u) (u_pid u) (u_killed u) (u_alarmticks u) (u_alarmhandler u).
Definition set_u_mem v (u : uproc) := mkuproc (u_sz u) (u_esp u) (u_eax u) v (u_ofile u) (u_cwd u) (u_pid u) (u_killed u) (u_alarmticks u) (u_alarmhandler u).
Definition set_u_ofile v (u : uproc) := mkuproc (u_sz u) (u_esp u) (u_eax u) (u_mem u) v (u_cwd u) (u_pid u) (u_killed u) (u_alarmticks u) (u_alarmhandler u).
Definition set_u_cwd v (u : uproc) := mkuproc (u_sz u) (u_esp u) (u_eax u) (u_mem u) (u_ofile u) v (u_pid u) (u_killed u) (u_alarmticks u) (u_alarmhandler u).
Definition set_u_alarm t h (u : uproc) := mkuproc (u_sz u) (u_esp u) (u_eax u) (u_mem u) (u_ofile u) (u_cwd u) (u_pid u) (u_killed u) t h.

(** The state of the kernel, as far as the process is concerned. *)
Class HasProc (K : Type) : Type := {
  cur : K -> uproc;
  set_cur : uproc -> K -> K;
}.

Class HasProcLaws (K : Type) `{HasProc K} : Prop := {
  cur_set : forall u k, cur (set_cur u k) = u;
  set_cur_set : forall u u' k, set_cur u (set_cur u' k) = set_cur u k;
}.

Section syscall.
Context {K : Type} `{HasProc K}.

(** The kernel's accesses to user memory. *)
Definition load8 (a : Z) : M K Z :=
  let* u := gets cur in
  if (0 <=? a) && (a <? Z.of_nat (length (u_mem u))) then from_some (u_mem u !! Z.to_nat a) else fault "user memory".
Definition load_int (a : Z) : M K Z :=
  let* u := gets cur in
  if (0 <=? a) && (a + 4 <=? Z.of_nat (length (u_mem u))) then ret (get_u32 (Z.to_nat a) (u_mem u)) else fault "user memory".
Definition load_bytes (a n : Z) : M K (list Z) :=
  let* u := gets cur in
  if (0 <=? a) && (a + n <=? Z.of_nat (length (u_mem u))) then ret (slice (Z.to_nat a) (Z.to_nat n) (u_mem u)) else fault "user memory".
Definition store_bytes (a : Z) (d : list Z) : M K unit :=
  let* u := gets cur in
  if (0 <=? a) && (a + Z.of_nat (length d) <=? Z.of_nat (length (u_mem u)))
  then modify (fun k => set_cur (set_u_mem (splice (Z.to_nat a) d (u_mem u)) u) k) else fault "user memory".

(** ** syscall.c *)

Definition fetchint (addr : Z) : M K (option Z) :=
  let* u := gets cur in
  if (u_sz u <=? addr) || (u_sz u <? u32 (addr + 4)) then ret None
  else let* v := load_int addr in ret (Some (s32 v)).

(** The loop of fetchstr(): from s to the end of the process. *)
Fixpoint fetchstr_loop (fuel : nat) (p s ep : Z) : M K (option Z) :=
  if s <? ep then
    match fuel with
    | O => nofuel
    | S fuel =>
        let* c := load8 s in
        if c =? 0 then ret (Some (s - p)) else fetchstr_loop fuel p (s + 1) ep
    end
  else ret None.

(** The pointer and the length. *)
Definition fetchstr (addr : Z) : M K (option (Z * Z)) :=
  let* u := gets cur in
  if u_sz u <=? addr then ret None
  else
    let* r := fetchstr_loop (Z.to_nat (u_sz u)) addr addr (u_sz u) in
    ret (match r with Some n => Some (addr, n) | None => None end).

Definition argint (n : Z) : M K (option Z) :=
  let* u := gets cur in
  fetchint (u32 (u_esp u + 4 + 4 * n)).

Definition argptr (n size : Z) : M K (option Z) :=
  let* u := gets cur in
  let* i := argint n in
  match i with
  | None => ret None
  | Some i =>
      if (size <? 0) || (u_sz u <=? u32 i) || (u_sz u <? u32 (u32 i + size)) then ret None
      else ret (Some (u32 i))
  end.

Definition argstr (n : Z) : M K (option (Z * Z)) :=
  let* addr := argint n in
  match addr with
  | None => ret None
  | Some addr => fetchstr (u32 addr)
  end.

(** [syscalls] is the table: None for a number without an entry.  The line
    that an unknown number prints is left out. *)
Definition syscall (syscalls : Z -> option (M K Z)) : M K unit :=
  let* u := gets cur in
  let num := s32 (u_eax u) in
  match (if 0 <? num then syscalls num else None) with
  | Some f =>
      let* r := f in
      let* u := gets cur in
      modify (set_cur (set_u_eax (u32 r) u))
  | None =>
      let* u := gets cur in
      modify (set_cur (set_u_eax (u32 (-1)) u))
  end.

(** ** sysproc.c *)

(** The functions of proc.c that the calls pass on to. *)
Context (fork exit wait : M K Z) (kill growproc : Z -> M K Z).
(** ticks and tickslock (trap.c), and cmostime() of lapic.c, which stores
    24 bytes at the address it is given. *)
Context (ticks : K -> Z) (tickslock : K -> bool) (set_tickslock : bool -> K -> K) (rtcdate : K -> list Z).

Definition sys_fork : M K Z := fork.
Definition sys_exit : M K Z := exit ;;; ret 0.
Definition sys_wait : M K Z := wait.

Definition sys_kill : M K Z :=
  let* pid := argint 0 in
  match pid with
  | None => ret (-1)
  | Some pid => kill pid
  end.

Definition sys_getpid : M K Z :=
  let* u := gets cur in
  ret (u_pid u).

Definition sys_sbrk : M K Z :=
  let* n := argint 0 in
  match n with
  | None => ret (-1)
  | Some n =>
      let* u := gets cur in
      let addr := s32 (u_sz u) in
      let* r := growproc n in
      if r <? 0 then ret (-1) else ret addr
  end.

(** How a run of sys_sleep() ends: with a result, or asleep on &ticks with
    the value of ticks0. *)
Inductive sout := SDone (r : Z) | SAsleep (ticks0 : Z).

(** The loop, run with tickslock held.  Every wakeup starts it again. *)
Definition sleep_loop (n ticks0 : Z) : M K sout :=
  let* t := gets ticks in
  if u32 (t - ticks0) <? u32 n then
    let* u := gets cur in
    release tickslock set_tickslock ;;;
    ret (if u_killed u then SDone (-1) else SAsleep ticks0)
  else
    release tickslock set_tickslock ;;;
    ret (SDone 0).

Definition sys_sleep : M K sout :=
  let* n := argint 0 in
  match n with
  | None => ret (SDone (-1))
  | Some n =>
      acquire tickslock set_tickslock ;;;
      let* ticks0 := gets ticks in
      sleep_loop n ticks0
  end.

(** From a wakeup on. *)
Definition sleep_again (n ticks0 : Z) : M K sout :=
  acquire tickslock set_tickslock ;;;
  sleep_loop n ticks0.

Definition sys_uptime : M K Z :=
  acquire tickslock set_tickslock ;;;
  let* t := gets ticks in
  release tickslock set_tickslock ;;;
  ret (s32 t).

Definition sys_date : M K Z :=
  let* temp := argint 0 in
  match temp with
  | None => ret (-1)
  | Some temp =>
      let* d := gets rtcdate in
      store_bytes (u32 temp) d ;;;
      ret 0
  end.

Definition sys_alarm : M K Z :=
  let* t := argint 0 in
  match t with
  | None => ret (-1)
  | Some t =>
      let* h := argptr 1 1 in
      match h with
      | None => ret (-1)
      | Some h =>
          let* u := gets cur in
          modify (set_cur (set_u_alarm t h u)) ;;;
          ret 0
      end
  end.

End syscall.

(** ** What the argument functions return *)

(** The memory of a process: u_sz bytes, below the kernel. *)
Record uproc_ok (u : uproc) : Prop := {
  uo_len : Z.of_nat (length (u_mem u)) = u_sz u;
  uo_sz : u_sz u <= KERNBASE;
  uo_bytes : bytes_ok (u_mem u);
}.

(** Argument [n], the word above the saved program counter and the earlier
    arguments, if all of it is memory of the process. *)
Definition arg_word (u : uproc) (n : Z) : option Z :=
  let a := u32 (u_esp u + 4 + 4 * n) in
  if a + 4 <=? u_sz u then Some (get_u32 (Z.to_nat a) (u_mem u)) else None.

(** A pointer to [size] bytes of the process. *)
Definition arg_block (u : uproc) (n size : Z) : option Z :=
  w ← arg_word u n;
  if (0 <=? size) && (w <? u_sz u) && (w + size <=? u_sz u) then Some w else None.

(** A string that ends within the process, with its length. *)
Definition arg_string (u : uproc) (n : Z) : option (Z * Z) :=
  w ← arg_word u n;
  '(i, _) ← list_find (fun c => c = 0) (drop (Z.to_nat w) (u_mem u));
  Some (w, Z.of_nat i).

Lemma get_u32_range o d : bytes_ok d -> 0 <= get_u32 o d < 2 ^ 32.
Proof.
  intros Hd. unfold get_le. assert (Hb : bytes_ok (slice o 4 d)) by (by apply Forall_take, Forall_drop).
  assert (Hl : (length (slice o 4 d) <= 4)%nat) by (unfold slice; rewrite length_take; lia).
  revert Hb Hl. generalize (slice o 4 d). intros l Hb Hl.
  assert (H : 0 <= of_le l < 256 ^ Z.of_nat (length l)).
  { clear Hl. induction Hb as [|b l Hb _ IH]; cbn [of_le length]; [done|]. unfold byte_ok in Hb.
    rewrite Nat2Z.inj_succ, Z.pow_succ_r by lia. lia. }
  assert (256 ^ Z.of_nat (length l) <= 256 ^ 4) by (apply Z.pow_le_mono_r; lia). change (2 ^ 32) with (256 ^ 4). lia.
Qed.

Lemma u32_s32 z : u32 (s32 z) = u32 z.
Proof. unfold s32, u32, W32. rewrite Zminus_mod_idemp_l. f_equal. lia. Qed.

Section args.
Context {K : Type} `{HasProc K}.
Implicit Types (k : K).

Lemma wp_fetchint k a (Q : option Z -> K -> Prop) :
  uproc_ok (cur k) -> is_u32 a ->
  Q (if a + 4 <=? u_sz (cur k) then Some (s32 (get_u32 (Z.to_nat a) (u_mem (cur k)))) else None) k ->
  wp (fetchint a) Q k.
Proof.
  intros [Hl Hs Hb] Ha HQ. unfold is_u32, W32, KERNBASE in *. unfold fetchint. apply wp_bind, wp_gets.
  destruct (Z.leb_spec (u_sz (cur k)) a) as [Hge|Hlt]; cbn [orb].
  { rewrite (proj2 (Z.leb_gt _ _)) in HQ by lia. by apply wp_ret. }
  rewrite u32_small by (unfold is_u32, W32; lia). destruct (Z.ltb_spec (u_sz (cur k)) (a + 4)) as [Hlt2|Hge2].
  { rewrite (proj2 (Z.leb_gt _ _)) in HQ by lia. by apply wp_ret. }
  rewrite (proj2 (Z.leb_le _ _)) in HQ by lia. apply wp_bind. unfold load_int. apply wp_bind, wp_gets.
  rewrite (proj2 (andb_true_iff _ _)) by (split; lia). by apply wp_ret, wp_ret.
Qed.

Lemma wp_argint k n (Q : option Z -> K -> Prop) :
  uproc_ok (cur k) -> Q (s32 <$> arg_word (cur k) n) k -> wp (argint n) Q k.
Proof.
  intros Hu HQ. unfold argint. apply wp_bind, wp_gets. apply wp_fetchint; [done|apply u32_range|].
  unfold arg_word in HQ. by destruct (_ <=? u_sz (cur k)).
Qed.

Lemma wp_fetchstr_loop k p fuel : forall s (Q : option Z -> K -> Prop),
  uproc_ok (cur k) -> 0 <= s -> u_sz (cur k) - s <= Z.of_nat fuel ->
  Q ((fun x => s - p + Z.of_nat x.1) <$> list_find (fun c => c = 0) (drop (Z.to_nat s) (u_mem (cur k)))) k ->
  wp (fetchstr_loop fuel p s (u_sz (cur k))) Q k.
Proof.
  induction fuel as [|fuel IH]; intros s Q Hu Hs Hf HQ; pose proof Hu as [Hl _ _]; cbn [fetchstr_loop];
    destruct (Z.ltb_spec s (u_sz (cur k))) as [Hlt|Hge]; try lia.
  1, 3: rewrite drop_ge in HQ by lia; by apply wp_ret.
  apply wp_bind. unfold load8. apply wp_bind, wp_gets. rewrite (proj2 (andb_true_iff _ _)) by (split; lia).
  destruct (lookup_lt_is_Some_2 (u_mem (cur k)) (Z.to_nat s)) as [c Hc]; [lia|].
  eapply wp_from_some; [exact Hc|]. rewrite (drop_S _ c) in HQ by done. cbn [list_find] in HQ.
  destruct (Z.eqb_spec c 0) as [Hz|Hz]; [rewrite decide_True in HQ by done|rewrite decide_False in HQ by done].
  - apply wp_ret. cbn in HQ. by rewrite Z.add_0_r in HQ.
  - apply IH; [done|lia|lia|]. replace (Z.to_nat (s + 1)) with (S (Z.to_nat s)) by lia.
    destruct (list_find _ (drop (S (Z.to_nat s)) (u_mem (cur k)))) as [[i z]|]; cbn in *; [|done].
    by replace (s + 1 - p + Z.of_nat i) with (s - p + Z.of_nat (S i)) by lia.
Qed.

Lemma arg_word_range u n w : uproc_ok u -> arg_word u n = Some w -> 0 <= w < 2 ^ 32.
Proof.
  intros Hu. unfold arg_word. destruct (_ <=? u_sz u); [|done]. intros [= <-]. by apply get_u32_range, uo_bytes.
Qed.

Lemma wp_argptr k n size (Q : option Z -> K -> Prop) :
  uproc_ok (cur k) -> - 2 ^ 31 <= size < 2 ^ 31 -> Q (arg_block (cur k) n size) k -> wp (argptr n size) Q k.
Proof.
  intros Hu Hsize HQ. pose proof (uo_sz _ Hu) as Hs. unfold KERNBASE in Hs. unfold argptr. unfold arg_block in HQ.
  apply wp_bind, wp_gets. apply wp_bind, wp_argint; [done|].
  destruct (arg_word (cur k) n) as [w|] eqn:Ew; cbn in *; [|by apply wp_ret]. pose proof (arg_word_range _ _ _ Hu Ew) as Hw.
  rewrite u32_s32, (u32_small w) by (unfold is_u32, W32; lia).
  destruct (Z.leb_spec 0 size) as [H0|H0]; [|rewrite (proj2 (Z.ltb_lt size 0)) by lia; by apply wp_ret].
  destruct (Z.ltb_spec w (u_sz (cur k))) as [H1|H1]; [|rewrite (proj2 (Z.leb_le (u_sz (cur k)) w)), orb_true_r by lia; by apply wp_ret].
  rewrite (proj2 (Z.ltb_ge size 0)), (proj2 (Z.leb_gt (u_sz (cur k)) w)) by lia. cbn [orb andb] in *.
  rewrite u32_small by (unfold is_u32, W32; lia).
  destruct (Z.leb_spec (w + size) (u_sz (cur k))); [rewrite (proj2 (Z.ltb_ge _ _)) by lia|rewrite (proj2 (Z.ltb_lt _ _)) by lia]; by apply wp_ret.
Qed.

Lemma wp_argstr k n (Q : option (Z * Z) -> K -> Prop) :
  uproc_ok (cur k) -> Q (arg_string (cur k) n) k -> wp (argstr n) Q k.
Proof.
  intros Hu HQ. pose proof (uo_len _ Hu) as Hl. unfold argstr. unfold arg_string in HQ. apply wp_bind, wp_argint; [done|].
  destruct (arg_word (cur k) n) as [w|] eqn:Ew; cbn in *; [|by apply wp_ret]. pose proof (arg_word_range _ _ _ Hu Ew) as Hw.
  rewrite u32_s32, (u32_small w) by (unfold is_u32, W32; lia). unfold fetchstr. apply wp_bind, wp_gets.
  destruct (Z.leb_spec (u_sz (cur k)) w); [rewrite drop_ge in HQ by lia; by apply wp_ret|].
  apply wp_bind, wp_fetchstr_loop; [done|lia|lia|]. apply wp_ret.
  destruct (list_find _ _) as [[i z]|]; cbn in *; [|done]. by replace (w - w + Z.of_nat i) with (Z.of_nat i) by lia.
Qed.

(** C22: whatever stack pointer and arguments a process passes, the argument
    functions return without touching memory outside of the process, and
    accept exactly the arguments that lie within it: a word, a block of the
    size asked for, a string with its terminating zero. *)
Theorem args_safe k n size :
  uproc_ok (cur k) -> - 2 ^ 31 <= size < 2 ^ 31 ->
  wp (argint n) (fun r k' => k' = k /\ r = (s32 <$> arg_word (cur k) n)) k /\
  wp (argptr n size) (fun r k' => k' = k /\ r = arg_block (cur k) n size) k /\
  wp (argstr n) (fun r k' => k' = k /\ r = arg_string (cur k) n) k.
Proof.
  intros Hu Hsize. split_and!; [by apply wp_argint|by apply wp_argptr|by apply wp_argstr].
Qed.

(** A string argument is part of the memory, and has no zero. *)
Lemma arg_string_Some u n p len :
  uproc_ok u -> arg_string u n = Some (p, len) ->
  0 <= p /\ 0 <= len /\ p + len < u_sz u /\ Forall (fun c => c <> 0) (slice (Z.to_nat p) (Z.to_nat len) (u_mem u)).
Proof.
  intros Hu. pose proof (uo_len _ Hu) as Hl. unfold arg_string. destruct (arg_word u n) as [w|] eqn:Ew; cbn; [|done].
  pose proof (arg_word_range _ _ _ Hu Ew) as Hw.
  destruct (list_find _ _) as [[i z]|] eqn:Ef; cbn; [|done]. intros [= <- <-]. apply list_find_Some in Ef as (Hi & -> & Hno).
  assert (Hlt : (i < length (drop (Z.to_nat w) (u_mem u)))%nat) by (by eapply lookup_lt_Some). rewrite length_drop in Hlt.
  split_and!; [lia|lia|lia|]. rewrite Nat2Z.id. unfold slice. apply Forall_lookup_2. intros j c Hj.
  apply lookup_take_Some in Hj as [Hj Hji]. by apply (Hno j).
Qed.

End args.

(** ** sleep() *)

(** The state that sys_sleep() and sys_uptime() use. *)
Record clock := mkclock {
  ck_proc : uproc;
  ck_ticks : Z;
  ck_lock : bool;
}.

Definition set_ck_proc v (c : clock) := mkclock v (ck_ticks c) (ck_lock c).
Definition set_ck_lock v (c : clock) := mkclock (ck_proc c) (ck_ticks c) v.

#[global] Instance clock_proc : HasProc clock := { cur := ck_proc; set_cur := set_ck_proc }.

(** [d] timer interrupts later: trap() increments ticks. *)
Definition later (d : Z) (c : clock) : clock := mkclock (ck_proc c) (u32 (ck_ticks c + d)) (ck_lock c).

(** What the loop finds [d] ticks after the call. *)
Definition sleep_outcome (u : uproc) (n d t0 : Z) : sout :=
  if d <? u32 n then (if u_killed u then SDone (-1) else SAsleep t0) else SDone 0.

Lemma wp_sleep_loop c n d :
  ck_lock c = false -> 0 <= d < W32 ->
  wp (sleep_loop ck_ticks ck_lock set_ck_lock n (ck_ticks c))
    (fun r c' => c' = later d c /\ r = sleep_outcome (ck_proc c) n d (ck_ticks c)) (set_ck_lock true (later d c)).
Proof.
  intros Hl Hd. unfold sleep_loop. apply wp_bind, wp_gets.
  cbn [ck_ticks set_ck_lock later]. rewrite u32_sub_l, Z.add_simpl_l, (u32_small d) by done. unfold sleep_outcome.
  assert (E : set_ck_lock false (set_ck_lock true (later d c)) = later d c) by (destruct c; cbn in *; by subst).
  destruct (d <? u32 n); [apply wp_bind, wp_gets|]; (apply wp_bind, wp_release; [done|]); apply wp_ret; by split.
Qed.

Lemma wp_sleep_again c n d :
  ck_lock c = false -> 0 <= d < W32 ->
  wp (sleep_again ck_ticks ck_lock set_ck_lock n (ck_ticks c))
    (fun r c' => c' = later d c /\ r = sleep_outcome (ck_proc c) n d (ck_ticks c)) (later d c).
Proof. intros Hl Hd. apply wp_bind, wp_acquire; [done|]. by apply wp_sleep_loop. Qed.

(** sleep(n) with n >= 0 returns 0 at the first wakeup that finds n ticks
    gone since the call and sleeps at every earlier one, also when the counter
    wraps around in between; at once for n = 0.  A killed process returns -1
    instead of sleeping. *)
Theorem sleep_exact c w n d :
  uproc_ok (ck_proc c) -> ck_lock c = false -> is_u32 (ck_ticks c) -> 0 <= d < W32 ->
  arg_word (ck_proc c) 0 = Some w -> n = s32 w -> 0 <= n ->
  let u := ck_proc c in
  wp (sys_sleep ck_ticks ck_lock set_ck_lock) (fun r c' => c' = c /\
    r = (if 0 <? n then (if u_killed u then SDone (-1) else SAsleep (ck_ticks c)) else SDone 0)) c /\
  wp (sleep_again ck_ticks ck_lock set_ck_lock n (ck_ticks c)) (fun r c' => c' = later d c /\
    r = (if d <? n then (if u_killed u then SDone (-1) else SAsleep (ck_ticks c)) else SDone 0)) (later d c).
Proof.
  intros Hu Hl Ht Hd Hw -> Hn u. pose proof (s32_range w) as Hr.
  assert (Hun : u32 (s32 w) = s32 w) by (apply u32_small; unfold is_u32, W32; lia).
  assert (Hc : later 0 c = c) by (destruct c; unfold later; cbn in *; by rewrite Z.add_0_r, u32_small).
  split.
  - unfold sys_sleep. apply wp_bind, wp_argint; [done|]. cbn [cur clock_proc]. rewrite Hw. cbn [fmap option_fmap option_map].
    apply wp_bind, wp_acquire; [done|]. apply wp_bind, wp_gets.
    pose proof (wp_sleep_loop c (s32 w) 0 Hl ltac:(done)) as E. rewrite Hc in E. unfold sleep_outcome in E. by rewrite Hun in E.
  - pose proof (wp_sleep_again c (s32 w) d Hl Hd) as E. unfold sleep_outcome in E. by rewrite Hun in E.
Qed.

(** A negative argument is converted to unsigned: sleep(-1) does not return
    before 2^32 - 1 ticks have passed. *)
Lemma sleep_negative c d :
  ck_lock c = false -> u_killed (ck_proc c) = false -> 0 <= d < W32 - 1 ->
  wp (sleep_again ck_ticks ck_lock set_ck_lock (-1) (ck_ticks c)) (fun r _ => r = SAsleep (ck_ticks c)) (later d c).
Proof.
  intros Hl Hk Hd. eapply wp_mono; [apply wp_sleep_again; [done|lia]|]. intros r c' [_ ->]. unfold sleep_outcome.
  change (u32 (-1)) with (W32 - 1). by rewrite (proj2 (Z.ltb_lt _ _) (proj2 Hd)), Hk.
Qed.

Module Example.

(** Argument 0 is 3 and the counter is about to wrap around. *)
Definition u3 : uproc := mkuproc 32 8 0 (replicate 12 0 ++ le_of 4 3 ++ replicate 16 0) [] 0 1 false 0 0.
Definition c0 : clock := mkclock u3 (W32 - 2) false.

Lemma u3_ok : uproc_ok u3.
Proof.
  split; [done|unfold KERNBASE; cbn; lia|]. unfold bytes_ok.
  repeat apply Forall_app_2; try apply le_of_bytes_ok; apply Forall_replicate; unfold byte_ok; lia.
Qed.

Lemma sleep_exact_witness :
  wp (sys_sleep ck_ticks ck_lock set_ck_lock) (fun r c' => c' = c0 /\ r = SAsleep (W32 - 2)) c0 /\
  wp (sleep_again ck_ticks ck_lock set_ck_lock 3 (W32 - 2)) (fun r c' => c' = later 3 c0 /\ r = SDone 0) (later 3 c0).
Proof. apply (sleep_exact c0 3 3 3 u3_ok); [done|by split; vm_compute|unfold W32; lia|done|done|lia]. Defined.

Lemma args_safe_witness :
  wp (argint (K := clock) 0) (fun r k' => k' = c0 /\ r = Some 3) c0 /\
  wp (argptr (K := clock) 0 8) (fun r k' => k' = c0 /\ r = Some 3) c0 /\
  wp (argstr (K := clock) 0) (fun r k' => k' = c0 /\ r = Some (3, 0)) c0.
Proof.
  pose proof (args_safe (K := clock) c0 0 8 u3_ok ltac:(lia)) as E.
  assert (E1 : arg_word (cur c0) 0 = Some 3) by (vm_compute; reflexivity).
  assert (E2 : arg_block (cur c0) 0 8 = Some 3) by (vm_compute; reflexivity).
  assert (E3 : arg_string (cur c0) 0 = Some (3, 0)) by (vm_compute; reflexivity).
  rewrite E1, E2, E3 in E. exact E.
Defined.

(** date() does not check the pointer: at 2^31 it is outside of the process. *)
Definition far : uproc := mkuproc 32 8 0 (replicate 12 0 ++ le_of 4 (2 ^ 31) ++ replicate 16 0) [] 0 1 false 0 0.

Lemma date_unchecked :
  sys_date (fun _ => replicate 24 0) (mkclock far 0 false) = Fault "user memory".
Proof. vm_compute. reflexivity. Qed.

End Example.
