(* ===== verification/Sysfile.v ===== *)
(** sysfile.c: the system calls on files.

    The state is the file system with its table of open files, and the process
    that makes the call.  A call that may sleep in a pipe ends asleep, with
    what it needs to go on from the wakeup. *)

From S2P Require Import Prelude Params Bytes CString Buf Log Fs Kalloc Pipe File Syscall.


Record kern (S : Type) := mkkern {
  ksys : filesys S;
  kproc : uproc;
}.
Arguments mkkern {S} _ _.
Arguments ksys {S} _.
Arguments kproc {S} _.

Definition set_ksys {S} (v : filesys S) (k : kern S) : kern S := mkkern v (kproc k).
Definition set_kproc {S} (v : uproc) (k : kern S) : kern S := mkkern (ksys k) v.

#[global] Instance kern_proc {S} : HasProc (kern S) := { cur := kproc; set_cur := set_kproc }.
#[global] Instance kern_proc_laws {S} : HasProcLaws (kern S).
Proof. by split. Qed.

(** How a call ends: with a result, or asleep at byte [i] of the transfer of
    [n] bytes between [f] and address [p]. *)
Inductive rwout := RWDone (r : Z) | RWAsleep (f : nat) (p n : Z) (i : nat).

(** An uninitialised name[DIRSIZ]: skipelem() writes it before it is read. *)
Definition no_name : list Z := replicate (Z.to_nat DIRSIZ) 0.
Definition DOT : list Z := [46; 0].
Definition DOTDOT : list Z := [46; 46; 0].

Section sysfile.
Context {S : Type} `{TxLayer S} `{OpLayer S} `{KernelImage}.
Context (dev_read : Z -> option (nat -> Z -> M (fsys S) (Z * list Z))).
Context (dev_write : Z -> option (nat -> list Z -> Z -> M (fsys S) Z)).
(** exec() of exec.c: the path and the arguments. *)
Context (exec : list Z -> list (list Z) -> M (kern S) Z).

Definition onfile {A} (m : M (filesys S) A) : M (kern S) A := zoom ksys set_ksys m.
Definition onfsys {A} (m : M (fsys S) A) : M (kern S) A := onfile (onfs m).
Definition kbegin_op : M (kern S) unit := onfile (oncore bl_begin_op).
Definition kend_op : M (kern S) unit := onfile (oncore bl_end_op).
Definition set_ofile (fd : nat) (v : option nat) : M (kern S) unit :=
  modify (fun k => set_kproc (set_u_ofile (<[fd := v]> (u_ofile (kproc k))) (kproc k)) k).

(** The descriptor and the file. *)
Definition argfd (n : Z) : M (kern S) (option (nat * nat)) :=
  let* fd := argint n in
  match fd with
  | None => ret None
  | Some fd =>
      if (fd <? 0) || (Z.of_nat NOFILE <=? fd) then ret None
      else
        let* u := gets kproc in
        let* o := from_some (u_ofile u !! Z.to_nat fd) in
        ret (match o with Some f => Some (Z.to_nat fd, f) | None => None end)
  end.

Definition fdalloc (f : nat) : M (kern S) (option nat) :=
  for_find (seq 0 NOFILE) (fun fd =>
    let* u := gets kproc in
    let* o := from_some (u_ofile u !! fd) in
    match o with
    | None => set_ofile fd (Some f) ;;; ret (Some fd)
    | Some _ => ret None
    end).

Definition sys_dup : M (kern S) Z :=
  let* a := argfd 0 in
  match a with
  | None => ret (-1)
  | Some (_, f) =>
      let* fd := fdalloc f in
      match fd with
      | None => ret (-1)
      | Some fd => onfile (filedup f) ;;; ret (Z.of_nat fd)
      end
  end.

(** fileread(f, p, n), from the call or from a wakeup on. *)
Definition sys_read_from (f : nat) (p n : Z) : M (kern S) rwout :=
  let* o := onfile (fileread dev_read f n) in
  match o with
  | FDone r got => store_bytes p got ;;; ret (RWDone r)
  | FAsleep i => ret (RWAsleep f p n i)
  end.

Definition sys_read : M (kern S) rwout :=
  let* a := argfd 0 in
  match a with
  | None => ret (RWDone (-1))
  | Some (_, f) =>
      let* n := argint 2 in
      match n with
      | None => ret (RWDone (-1))
      | Some n =>
          let* p := argptr 1 n in
          match p with
          | None => ret (RWDone (-1))
          | Some p => sys_read_from f p n
          end
      end
  end.

Definition sys_write_from (f : nat) (p n : Z) (i : nat) : M (kern S) rwout :=
  let* d := load_bytes p n in
  let* o := onfile (filewrite dev_write f d n i) in
  match o with
  | FDone r _ => ret (RWDone r)
  | FAsleep i => ret (RWAsleep f p n i)
  end.

Definition sys_write : M (kern S) rwout :=
  let* a := argfd 0 in
  match a with
  | None => ret (RWDone (-1))
  | Some (_, f) =>
      let* n := argint 2 in
      match n with
      | None => ret (RWDone (-1))
      | Some n =>
          let* p := argptr 1 n in
          match p with
          | None => ret (RWDone (-1))
          | Some p => sys_write_from f p n 0
          end
      end
  end.

Definition sys_close : M (kern S) Z :=
  let* a := argfd 0 in
  match a with
  | None => ret (-1)
  | Some (fd, f) =>
      set_ofile fd None ;;;
      onfile (fileclose f) ;;;
      ret 0
  end.

(** struct stat is 20 bytes: type at 0, dev at 4, ino at 8, nlink at 12 and
    size at 16; the gaps are not written. *)
Definition sizeof_stat : Z := 20.
Definition store_stat (p : Z) (st : stat) : M (kern S) unit :=
  store_bytes p (le_of 2 (u16 (st_type st))) ;;;
  store_bytes (p + 4) (le_of 4 (u32 (st_dev st))) ;;;
  store_bytes (p + 8) (le_of 4 (st_ino st)) ;;;
  store_bytes (p + 12) (le_of 2 (u16 (st_nlink st))) ;;;
  store_bytes (p + 16) (le_of 4 (st_size st)).

Definition sys_fstat : M (kern S) Z :=
  let* a := argfd 0 in
  match a with
  | None => ret (-1)
  | Some (_, f) =>
      let* p := argptr 1 sizeof_stat in
      match p with
      | None => ret (-1)
      | Some p =>
          let* '(r, st) := onfile (filestat f) in
          (match st with Some st => store_stat p st | None => ret tt end) ;;;
          ret r
      end
  end.

(** ** Paths

    The functions between begin_op() and end_op() run on the file system;
    [cwd] is the current directory of the process. *)

Definition add_nlink (ip : nat) (d : Z) : M (fsys S) unit :=
  upd_inode ip (fun x => set_i_nlink (s16 (i_nlink x + d)) x) ;;;
  iupdate ip.

Definition link (cwd : nat) (old new : list Z) : M (fsys S) Z :=
  let* r := namei dev_read cwd old in
  match r with
  | None => ret (-1)
  | Some ip =>
      ilock ip ;;;
      let* x := get_inode ip in
      if i_type x =? T_DIR then iunlockput ip ;;; ret (-1)
      else
        add_nlink ip 1 ;;;
        iunlock ip ;;;
        let bad :=
          ilock ip ;;;
          add_nlink ip (-1) ;;;
          iunlockput ip ;;;
          ret (-1) in
        let* '(r, name) := nameiparent dev_read cwd new no_name in
        match r with
        | None => bad
        | Some dp =>
            ilock dp ;;;
            let* d := get_inode dp in
            let* x := get_inode ip in
            let* r := (if negb (i_dev d =? i_dev x) then ret (-1)
                       else dirlink dev_read dev_write dp name (i_num x)) in
            if r <? 0 then iunlockput dp ;;; bad
            else
              iunlockput dp ;;;
              iput ip ;;;
              ret 0
        end
  end.

Definition isdirempty (dp : nat) : M (fsys S) bool :=
  let* x := get_inode dp in
  let* r := for_find (drop 2 (de_offs (i_size x))) (fun off =>
    let* '(r, de) := readi dev_read dp off sizeof_dirent in
    panic_if (negb (r =? sizeof_dirent)) "isdirempty: readi" ;;;
    ret (if de_inum de =? 0 then None else Some tt)) in
  ret (match r with Some _ => false | None => true end).

Definition unlink (cwd : nat) (path : list Z) : M (fsys S) Z :=
  let* '(r, name) := nameiparent dev_read cwd path no_name in
  match r with
  | None => ret (-1)
  | Some dp =>
      ilock dp ;;;
      let bad := iunlockput dp ;;; ret (-1) in
      if (namecmp name DOT =? 0) || (namecmp name DOTDOT =? 0) then bad
      else
        let* r := dirlookup dev_read dp name in
        match r with
        | None => bad
        | Some (ip, off) =>
            ilock ip ;;;
            let* x := get_inode ip in
            panic_if (i_nlink x <? 1) "unlink: nlink < 1" ;;;
            let* full := (if i_type x =? T_DIR then let* e := isdirempty ip in ret (negb e) else ret false) in
            if (full : bool) then iunlockput ip ;;; bad
            else
              let* r := writei dev_write dp (replicate (Z.to_nat sizeof_dirent) 0) off sizeof_dirent in
              panic_if (negb (r =? sizeof_dirent)) "unlink: writei" ;;;
              (if i_type x =? T_DIR then add_nlink dp (-1) else ret tt) ;;;
              iunlockput dp ;;;
              add_nlink ip (-1) ;;;
              iunlockput ip ;;;
              ret 0
        end
  end.

(** Returns the inode locked, or None. *)
Definition create (cwd : nat) (path : list Z) (type major minor : Z) : M (fsys S) (option nat) :=
  let* '(r, name) := nameiparent dev_read cwd path no_name in
  match r with
  | None => ret None
  | Some dp =>
      ilock dp ;;;
      let* r := dirlookup dev_read dp name in
      match r with
      | Some (ip, _) =>
          iunlockput dp ;;;
          ilock ip ;;;
          let* x := get_inode ip in
          if (type =? T_FILE) && (i_type x =? T_FILE) then ret (Some ip)
          else iunlockput ip ;;; ret None
      | None =>
          let* d := get_inode dp in
          let* ip := ialloc (i_dev d) type in
          ilock ip ;;;
          upd_inode ip (fun x => set_i_nlink 1 (set_i_devno major minor x)) ;;;
          iupdate ip ;;;
          let* x := get_inode ip in
          (if type =? T_DIR then
             add_nlink dp 1 ;;;
             let* r := dirlink dev_read dev_write ip DOT (i_num x) in
             let* r' := (if r <? 0 then ret r else dirlink dev_read dev_write ip DOTDOT (i_num d)) in
             panic_if (r' <? 0) "create dots"
           else ret tt) ;;;
          let* r := dirlink dev_read dev_write dp name (i_num x) in
          panic_if (r <? 0) "create: dirlink" ;;;
          iunlockput dp ;;;
          ret (Some ip)
      end
  end.

(** The string of an argument, read where argstr() found it. *)
Definition argpath (n : Z) : M (kern S) (option (list Z)) :=
  let* r := argstr n in
  match r with
  | None => ret None
  | Some (p, len) => let* s := load_bytes p len in ret (Some s)
  end.

Definition cwd : M (kern S) nat := gets (fun k => u_cwd (kproc k)).

Definition sys_link : M (kern S) Z :=
  let* old := argpath 0 in
  match old with
  | None => ret (-1)
  | Some old =>
      let* new := argpath 1 in
      match new with
      | None => ret (-1)
      | Some new =>
          kbegin_op ;;;
          let* c := cwd in
          let* r := onfsys (link c old new) in
          kend_op ;;;
          ret r
      end
  end.

Definition sys_unlink : M (kern S) Z :=
  let* path := argpath 0 in
  match path with
  | None => ret (-1)
  | Some path =>
      kbegin_op ;;;
      let* c := cwd in
      let* r := onfsys (unlink c path) in
      kend_op ;;;
      ret r
  end.

(** The inode that sys_open() opens, locked. *)
Definition open_inode (c : nat) (path : list Z) (omode : Z) : M (fsys S) (option nat) :=
  if negb (Z.land omode O_CREATE =? 0) then create c path T_FILE 0 0
  else
    let* r := namei dev_read c path in
    match r with
    | None => ret None
    | Some ip =>
        ilock ip ;;;
        let* x := get_inode ip in
        if (i_type x =? T_DIR) && negb (omode =? O_RDONLY) then iunlockput ip ;;; ret None
        else ret (Some ip)
    end.

Definition opened (ip : nat) (omode : Z) (f : file) : file :=
  mkfile FD_INODE (f_ref f)
    (Z.land omode O_WRONLY =? 0)
    (negb (Z.land omode O_WRONLY =? 0) || negb (Z.land omode O_RDWR =? 0))
    (f_pipe f) ip 0.

Definition sys_open : M (kern S) Z :=
  let* path := argpath 0 in
  match path with
  | None => ret (-1)
  | Some path =>
      let* omode := argint 1 in
      match omode with
      | None => ret (-1)
      | Some omode =>
          kbegin_op ;;;
          let* c := cwd in
          let* r := onfsys (open_inode c path omode) in
          match r with
          | None => kend_op ;;; ret (-1)
          | Some ip =>
              let bad := onfsys (iunlockput ip) ;;; kend_op ;;; ret (-1) in
              let* f := onfile filealloc in
              match f with
              | None => bad
              | Some f =>
                  let* fd := fdalloc f in
                  match fd with
                  | None => onfile (fileclose f) ;;; bad
                  | Some fd =>
                      onfsys (iunlock ip) ;;;
                      kend_op ;;;
                      onfile (upd_file f (opened ip omode)) ;;;
                      ret (Z.of_nat fd)
                  end
              end
          end
      end
  end.

(** The end of sys_mkdir() and sys_mknod(): the inode that create() returned. *)
Definition end_create (r : option nat) : M (kern S) Z :=
  match r with
  | None => kend_op ;;; ret (-1)
  | Some ip => onfsys (iunlockput ip) ;;; kend_op ;;; ret 0
  end.

Definition sys_mkdir : M (kern S) Z :=
  kbegin_op ;;;
  let* path := argpath 0 in
  match path with
  | None => end_create None
  | Some path =>
      let* c := cwd in
      let* r := onfsys (create c path T_DIR 0 0) in
      end_create r
  end.

Definition sys_mknod : M (kern S) Z :=
  kbegin_op ;;;
  let* path := argpath 0 in
  match path with
  | None => end_create None
  | Some path =>
      let* major := argint 1 in
      match major with
      | None => end_create None
      | Some major =>
          let* minor := argint 2 in
          match minor with
          | None => end_create None
          | Some minor =>
              let* c := cwd in
              let* r := onfsys (create c path T_DEV (s16 major) (s16 minor)) in
              end_create r
          end
      end
  end.

Definition sys_chdir : M (kern S) Z :=
  kbegin_op ;;;
  let* path := argpath 0 in
  match path with
  | None => kend_op ;;; ret (-1)
  | Some path =>
      let* c := cwd in
      let* r := onfsys (namei dev_read c path) in
      match r with
      | None => kend_op ;;; ret (-1)
      | Some ip =>
          onfsys (ilock ip) ;;;
          let* x := onfsys (get_inode ip) in
          if negb (i_type x =? T_DIR) then onfsys (iunlockput ip) ;;; kend_op ;;; ret (-1)
          else
            onfsys (iunlock ip) ;;;
            onfsys (iput c) ;;;
            kend_op ;;;
            modify (fun k => set_kproc (set_u_cwd ip (kproc k)) k) ;;;
            ret 0
      end
  end.

(** The loop of sys_exec(): the arguments from argv[i] on, None for -1. *)
Fixpoint exec_args (fuel : nat) (uargv i : Z) (argv : list (list Z)) : M (kern S) (option (list (list Z))) :=
  match fuel with
  | O => ret None
  | Datatypes.S fuel =>
      let* uarg := fetchint (u32 (uargv + 4 * i)) in
      match uarg with
      | None => ret None
      | Some uarg =>
          if u32 uarg =? 0 then ret (Some argv)
          else
            let* s := fetchstr (u32 uarg) in
            match s with
            | None => ret None
            | Some (p, len) =>
                let* a := load_bytes p len in
                exec_args fuel uargv (i + 1) (argv ++ [a])
            end
      end
  end.

Definition sys_exec : M (kern S) Z :=
  let* path := argpath 0 in
  match path with
  | None => ret (-1)
  | Some path =>
      let* uargv := argint 1 in
      match uargv with
      | None => ret (-1)
      | Some uargv =>
          let* argv := exec_args MAXARG (u32 uargv) 0 [] in
          match argv with
          | None => ret (-1)
          | Some argv => exec path argv
          end
      end
  end.

Definition sys_pipe : M (kern S) Z :=
  let* fd := argptr 0 8 in
  match fd with
  | None => ret (-1)
  | Some fd =>
      let* p := onfile pipealloc in
      match p with
      | None => ret (-1)
      | Some (rf, wf) =>
          let bad := onfile (fileclose rf) ;;; onfile (fileclose wf) ;;; ret (-1) in
          let* fd0 := fdalloc rf in
          match fd0 with
          | None => bad
          | Some fd0 =>
              let* fd1 := fdalloc wf in
              match fd1 with
              | None => set_ofile fd0 None ;;; bad
              | Some fd1 =>
                  store_bytes fd (le_of 4 (Z.of_nat fd0)) ;;;
                  store_bytes (fd + 4) (le_of 4 (Z.of_nat fd1)) ;;;
                  ret 0
              end
          end
      end
  end.

End sysfile.
