(* ===== verification/SysfileSpec.v ===== *)
(** sysfile.c: every reference is accounted for.  The count of an open file is
    the number of descriptors for it, and the count of an inode in the cache
    the number of open files and current directories that refer to it. *)

From S2P Require Import Prelude Params Bytes CString Buf Log Tx Ops Fs FsBlocks FsFile FsDir FsPath Kalloc Pipe File FileSpec Syscall Sysfile.

(** ** Across a commit *)

Section committed.
Context (sb : superblock) (v v' : view) (G : Z -> Prop).
Context (Hc : committed v v') (Ht : tree sb v G).

Lemma dnode_committed j : G j -> dnode sb v' j = dnode sb v j.
Proof.
  intros Hj. destruct (tr_node _ _ _ Ht j Hj) as (Hr & _). unfold dnode. rewrite (cm_content _ _ Hc); [done|].
  apply (lo_inode _ _ (tr_layout _ _ _ Ht)). exists j. split; [lia|done].
Qed.

Lemma entries_committed x : fs_at sb v x -> regular x -> entries x v' = entries x v.
Proof.
  intros Hx [_ Hr]. unfold entries. apply list_fmap_ext. intros i k [-> Hk]%lookup_seq. unfold entry_at.
  apply (f_equal entry_of). unfold file_bytes. apply list_fmap_ext. intros i' o [-> Ho]%lookup_seq. apply (file_byte_committed sb v v' Hc x); [apply Hx|].
  pose proof (Z.mul_div_le (i_size x) 16 ltac:(lia)). lia.
Qed.

Lemma tree_committed : held v' = ∅ -> touched v' = ∅ -> tree sb v' G.
Proof.
  intros Hh Htou. split.
  - apply (layout_committed sb v v' Hc), Ht.
  - done.
  - intros j Hj. rewrite dnode_committed by done. by apply (tr_node _ _ _ Ht).
  - intros j Hj. rewrite dnode_committed by done. intros Hd. destruct (tr_dir _ _ _ Ht j Hj Hd) as ([Hl Hu Hok Hs] & Hn & Hr & Hdd).
    split_and!; [|by apply (no_holes_committed sb v v' Hc)|done|done]. by apply (fs_at_committed sb v v' Hc Hl).
  - intros j e Hj. rewrite dnode_committed by done. intros Hd. destruct (tr_dir _ _ _ Ht j Hj Hd) as (Hx & _ & Hr & _).
    rewrite entries_committed by done. by apply (tr_entries _ _ _ Ht).
Qed.

Lemma resolve_committed parent names : forall j, G j -> resolve sb v' parent j names = resolve sb v parent j names.
Proof.
  induction names as [|nm names IH]; intros j Hj; [done|]. cbn [resolve]. rewrite dnode_committed by done.
  destruct (Z.eqb_spec (i_type (dnode sb v j)) T_DIR) as [Hd|]; [|done].
  destruct (tr_dir _ _ _ Ht j Hj Hd) as (Hx & _ & Hr & _). rewrite entries_committed by done.
  destruct (parent && bool_decide (names = [])); [done|].
  destruct (find_entry nm (entries (dnode sb v j) v)) as [[k j']|] eqn:Hf; [|done]. apply IH.
  apply find_entry_Some in Hf as [Hk Hk0]. by apply (tr_entries _ _ _ Ht j (j', nm)); [..|by eapply list_elem_of_lookup_2|].
Qed.
End committed.

(** ** Descriptors *)

(** The descriptor in argument [n], and its file. *)
Definition arg_fd (u : uproc) (n : Z) : option (nat * nat) :=
  w ← arg_word u n;
  if decide (0 <= s32 w < Z.of_nat NOFILE) then
    o ← u_ofile u !! Z.to_nat (s32 w);
    pair (Z.to_nat (s32 w)) <$> o
  else None.

(** The lowest descriptor that is not in use. *)
Definition first_fd (l : list (option nat)) : option nat := fst <$> list_find (fun o => o = None) l.

Definition put_fd {S} (fd : nat) (o : option nat) (k : kern S) : kern S :=
  set_kproc (set_u_ofile (<[fd := o]> (u_ofile (kproc k))) (kproc k)) k.

Section fds.
Context {S : Type}.
Implicit Types (k : kern S).

Lemma wp_onfile {A} (m : M (filesys S) A) Q k :
  wp m (fun a s => Q a (set_ksys s k)) (ksys k) -> wp (onfile m) Q k.
Proof. apply wp_zoom. Qed.

Lemma wp_argfd k n (Q : option (nat * nat) -> kern S -> Prop) :
  uproc_ok (kproc k) -> length (u_ofile (kproc k)) = NOFILE -> Q (arg_fd (kproc k) n) k -> wp (argfd n) Q k.
Proof.
  intros Hu Hlen HQ. unfold argfd. apply wp_bind, wp_argint; [done|]. cbn [cur kern_proc]. unfold arg_fd in HQ.
  destruct (arg_word (kproc k) n) as [w|]; cbn [fmap option_fmap option_map mbind option_bind] in *; [|by apply wp_ret].
  destruct (decide (0 <= s32 w < Z.of_nat NOFILE)) as [Hr|Hr].
  - destruct (Z.ltb_spec (s32 w) 0); [lia|]. destruct (Z.leb_spec (Z.of_nat NOFILE) (s32 w)); [lia|]. cbn [orb].
    apply wp_bind, wp_gets. destruct (lookup_lt_is_Some_2 (u_ofile (kproc k)) (Z.to_nat (s32 w))) as [o Ho]; [lia|].
    rewrite Ho in HQ. apply wp_bind. eapply wp_from_some; [exact Ho|]. apply wp_ret. by destruct o.
  - assert (((s32 w <? 0) || (Z.of_nat NOFILE <=? s32 w)) = true) as -> by lia. by apply wp_ret.
Qed.

Lemma arg_fd_Some u n fd f : arg_fd u n = Some (fd, f) -> u_ofile u !! fd = Some (Some f).
Proof.
  unfold arg_fd. destruct (arg_word u n) as [w|]; cbn; [|done]. case_decide; [|done].
  destruct (u_ofile u !! Z.to_nat (s32 w)) as [[f'|]|] eqn:E; cbn; [|done..]. by intros [= <- <-].
Qed.

Lemma first_fd_Some l fd : first_fd l = Some fd -> l !! fd = Some None.
Proof.
  unfold first_fd. destruct (list_find _ l) as [[i o]|] eqn:E; [|done]. cbn. intros [= <-].
  apply list_find_Some in E as (Hi & -> & _). done.
Qed.

Lemma wp_fdalloc k f (Q : option nat -> kern S -> Prop) :
  length (u_ofile (kproc k)) = NOFILE ->
  Q (first_fd (u_ofile (kproc k))) (match first_fd (u_ofile (kproc k)) with Some fd => put_fd fd (Some f) k | None => k end) ->
  wp (fdalloc f) Q k.
Proof.
  intros Hlen HQ. unfold fdalloc. set (l := u_ofile (kproc k)) in *.
  apply (wp_for_find _ _ (fun l1 k' => k' = k /\ forall i o, (i < length l1)%nat -> l !! i = Some o -> o <> None)).
  - split; [done|]. cbn. lia.
  - intros l1 fd l2 k' El [-> Hno].
    assert (Efd : fd = length l1 /\ (fd < NOFILE)%nat).
    { assert (E : seq 0 NOFILE !! length l1 = Some fd) by (by rewrite El, list_lookup_middle). apply lookup_seq in E. lia. }
    destruct Efd as [-> Hlt]. destruct (lookup_lt_is_Some_2 l (length l1)) as [o Ho]; [lia|].
    apply wp_bind, wp_gets. apply wp_bind. eapply wp_from_some; [exact Ho|]. destruct o as [g|].
    + apply wp_ret. split; [done|]. intros i o Hi Hio. rewrite length_app in Hi. cbn in Hi.
      destruct (decide (i = length l1)) as [->|]; [congruence|]. apply (Hno i); [lia|done].
    + apply wp_bind. unfold set_ofile. apply wp_modify, wp_ret. replace (first_fd l) with (Some (length l1)) in HQ; [exact HQ|].
      unfold first_fd. assert (list_find (fun o => o = None) l = Some (length l1, None)) as ->; [|done].
      apply list_find_Some. split_and!; [done|done|]. intros i o Hi Hlt'. by apply (Hno i).
  - intros k' [-> Hno]. rewrite length_seq in Hno. replace (first_fd l) with (@None nat) in HQ; [exact HQ|].
    unfold first_fd. assert (list_find (fun o => o = None) l = None) as ->; [|done].
    apply list_find_None, Forall_lookup_2. intros i o Hi. apply (Hno i); [|done]. apply lookup_lt_Some in Hi. lia.
Qed.
End fds.

(** ** Paths *)

(** The path in argument [n]. *)
Definition arg_path (u : uproc) (n : Z) : option (list Z) :=
  '(p, len) ← arg_string u n;
  Some (slice (Z.to_nat p) (Z.to_nat len) (u_mem u)).

Lemma arg_path_nonzero u n path : uproc_ok u -> arg_path u n = Some path -> Forall (fun c => c <> 0) path.
Proof.
  intros Hu. unfold arg_path. destruct (arg_string u n) as [[p len]|] eqn:Ea; cbn; [|done]. intros [= <-].
  by apply (arg_string_Some u n p len Hu).
Qed.

Lemma wp_load_user {S} (k : kern S) a n (Q : list Z -> kern S -> Prop) :
  uproc_ok (kproc k) -> 0 <= a -> a + n <= u_sz (kproc k) -> Q (slice (Z.to_nat a) (Z.to_nat n) (u_mem (kproc k))) k ->
  wp (load_bytes a n) Q k.
Proof.
  intros Hu Ha Hn HQ. unfold load_bytes. apply wp_bind, wp_gets. cbn [cur kern_proc]. rewrite (uo_len _ Hu).
  assert (((0 <=? a) && (a + n <=? u_sz (kproc k))) = true) as -> by lia. by apply wp_ret.
Qed.

Lemma wp_argpath {S} (k : kern S) n (Q : option (list Z) -> kern S -> Prop) :
  uproc_ok (kproc k) -> Q (arg_path (kproc k) n) k -> wp (argpath n) Q k.
Proof.
  intros Hu HQ. unfold argpath. apply wp_bind, wp_argstr; [done|]. unfold arg_path in HQ. cbn [cur kern_proc].
  destruct (arg_string (kproc k) n) as [[p len]|] eqn:Ea; cbn in *; [|by apply wp_ret].
  destruct (arg_string_Some _ _ _ _ Hu Ea) as (H1 & H2 & H3 & _). apply wp_bind, wp_load_user; [done|done|lia|]. by apply wp_ret.
Qed.

(** Where a path starts, from the current directory [jc]. *)
Definition start_at (jc : Z) (path : list Z) : Z := if bool_decide (head path = Some SLASH) then ROOTINO else jc.

Definition lookup_path (sb : superblock) (v : view) (jc : Z) (path : list Z) : option Z :=
  resolve sb v false (start_at jc path) (elems path).

(** The inode that open() without O_CREATE opens. *)
Definition open_target (sb : superblock) (v : view) (jc : Z) (path : list Z) (omode : Z) : option Z :=
  j ← lookup_path sb v jc path;
  if (i_type (dnode sb v j) =? T_DIR) && negb (omode =? O_RDONLY) then None else Some j.

(** ** The invariant *)

Definition live (x : file) : Prop := 0 < f_ref x.

#[global] Instance live_dec x : Decision (live x).
Proof. unfold live. apply _. Defined.

#[global] Instance ftype_eq_dec : EqDecision ftype.
Proof. solve_decision. Defined.

Definition fd_is (f : nat) (o : option nat) : bool := bool_decide (o = Some f).

(** [x] is open on inode [j]. *)
Definition opens_on (l : list inode) (j : Z) (x : file) : bool :=
  (0 <? f_ref x) && bool_decide (f_type x = FD_INODE) && bool_decide (i_num <$> l !! f_ip x = Some j).

Section accounts.
Context {S : Type} `{OpLaws S} `{KernelImage}.

(** The inodes of the tree; the descriptors of the other processes for each
    file, and their current directories. *)
Context (G : Z -> Prop) (desc : nat -> Z) (dirs : Z -> Z).
Context (Hdesc : forall f, 0 <= desc f) (Hdirs : forall j, 0 <= dirs j).
Implicit Types (k : kern S) (s : filesys S) (t : fsys S) (v : view) (R : gmap Z Z) (fl : list file) (l : list (option nat)).

Record fds_ok fl l : Prop := {
  fd_len : length l = NOFILE;
  fd_file : forall i f, l !! i = Some (Some f) -> (f < length fl)%nat;
  fd_ref : forall f x, fl !! f = Some x -> f_ref x = desc f + countb (fd_is f) l;
  fd_type : forall f x, fl !! f = Some x -> live x -> f_type x <> FD_NONE;
}.

Record counted R t (c : nat) fl : Prop := {
  co_refs : forall j, refs R j = dirs j + Z.b2z (bool_decide (i_num <$> inodes t !! c = Some j)) + countb (opens_on (inodes t) j) fl;
  co_cwd : exists j, slot_of t c j;
  co_files : forall f x, fl !! f = Some x -> live x -> f_type x = FD_INODE -> exists j, slot_of t (f_ip x) j;
}.

Record nodes_ok v R t (c : nat) fl : Prop := {
  no_idle : idle (blk t) v;
  no_tree : tree (sb t) v G;
  no_cache : forall b, viewed b v -> icached (set_blk b t) v R None;
  no_count : counted R t c fl;
  no_known : forall j, 0 < refs R j -> G j;
}.

(** Every end of a pipe is one open file, and the page of a pipe with an open
    end is not free. *)
Record pipes_ok (free : list Z) (pt : gmap Z pipe) (pg : mem) fl : Prop := {
  po_mem : kmem_at free pg;
  po_end : forall f x, fl !! f = Some x -> live x -> f_type x = FD_PIPE ->
    exists pi, pt !! f_pipe x = Some pi /\ pi_lock pi = false /\ (if f_writable x then writeopen pi else readopen pi) = true /\
      frame (f_pipe x) /\ f_pipe x ∉ free;
  po_one : forall f g x y, fl !! f = Some x -> live x -> f_type x = FD_PIPE -> fl !! g = Some y -> live y -> f_type y = FD_PIPE ->
    f_pipe x = f_pipe y -> f_writable x = f_writable y -> f = g;
}.

Record kinv (free : list Z) v R k : Prop := {
  ki_proc : uproc_ok (kproc k);
  ki_table : table_ok (ksys k);
  ki_fds : fds_ok (files (ksys k)) (u_ofile (kproc k));
  ki_nodes : nodes_ok v R (fsy (ksys k)) (u_cwd (kproc k)) (files (ksys k));
  ki_pipes : pipes_ok free (ptab (ksys k)) (pages (ksys k)) (files (ksys k));
}.

(** *** Changes of one file *)

Lemma lookup_upd_file fl f x y g z :
  fl !! f = Some x -> <[f := y]> fl !! g = Some z -> (g = f /\ z = y) \/ (g <> f /\ fl !! g = Some z).
Proof.
  intros Hf Hg. apply lookup_lt_Some in Hf. apply list_lookup_insert_Some in Hg as [(-> & <- & _)|[Hne Hk]]; [by left|right]. by split.
Qed.

(** A descriptor for [f] and the count of [f] change together. *)
Lemma fds_change fl l f x y fd o o' :
  fds_ok fl l -> fl !! f = Some x -> l !! fd = Some o -> (o = None \/ o = Some f) -> (o' = None \/ o' = Some f) ->
  f_ref y = f_ref x - Z.b2z (fd_is f o) + Z.b2z (fd_is f o') -> (live y -> f_type y <> FD_NONE) ->
  fds_ok (<[f := y]> fl) (<[fd := o']> l).
Proof.
  intros [L F D T] Hf Hfd Ho Ho' Er Hty. pose proof (lookup_lt_Some _ _ _ Hf). pose proof (lookup_lt_Some _ _ _ Hfd).
  assert (Hother : forall g p, g <> f -> p = None \/ p = Some f -> fd_is g p = false).
  { intros g p Hne [->| ->]; unfold fd_is; apply bool_decide_eq_false; congruence. }
  split.
  - by rewrite length_insert.
  - intros i g Hi. rewrite length_insert. apply list_lookup_insert_Some in Hi as [(_ & -> & _)|[_ Hi]]; [|by eapply F].
    destruct Ho' as [?|[= ->]]; [done|]. done.
  - intros g z [[-> ->]|[Hne Hg]]%(lookup_upd_file fl f x y g z Hf); rewrite (countb_insert _ _ fd o o' Hfd).
    + rewrite Er, (D f x Hf). lia.
    + rewrite !(Hother g _ Hne), (D g z Hg) by done. cbn. lia.
  - intros g z [[-> ->]|[Hne Hg]]%(lookup_upd_file fl f x y g z Hf); [done|by eapply T].
Qed.

Lemma fd_in_use fl l fd f x : fds_ok fl l -> l !! fd = Some (Some f) -> fl !! f = Some x -> live x.
Proof.
  intros Hfds Hfd Hf. unfold live. rewrite (fd_ref _ _ Hfds f x Hf).
  pose proof (countb_pos (fd_is f) l fd (Some f) Hfd (bool_decide_eq_true_2 _ eq_refl)). specialize (Hdesc f). lia.
Qed.

(** *** Inodes *)

Lemma slot_num t i j : slot_of t i j -> i_num <$> inodes t !! i = Some j.
Proof. intros (x & -> & <- & _). done. Qed.

Lemma opens_slot t j x j' :
  live x -> f_type x = FD_INODE -> slot_of t (f_ip x) j' -> opens_on (inodes t) j x = bool_decide (j = j').
Proof.
  intros Hl Hty Hs. unfold opens_on. rewrite (slot_num _ _ _ Hs), Hty. unfold live in Hl.
  rewrite (proj2 (Z.ltb_lt _ _) Hl), bool_decide_true by done. cbn. apply bool_decide_ext. split; congruence.
Qed.

Lemma opens_not (li : list inode) j x : ~ live x \/ f_type x <> FD_INODE -> opens_on li j x = false.
Proof.
  unfold opens_on, live. intros [Hl|Hty].
  - rewrite (proj2 (Z.ltb_ge _ _)) by lia. done.
  - rewrite (bool_decide_false _ Hty), andb_false_r. done.
Qed.

Lemma cwd_slot t c j j' : slot_of t c j' -> bool_decide (i_num <$> inodes t !! c = Some j) = bool_decide (j = j').
Proof. intros Hs. rewrite (slot_num _ _ _ Hs). apply bool_decide_ext. split; congruence. Qed.

(** Files and the current directory hold their inodes. *)
Lemma counted_file R t c fl f x j :
  counted R t c fl -> fl !! f = Some x -> live x -> f_type x = FD_INODE -> slot_of t (f_ip x) j -> 0 < refs R j.
Proof.
  intros [Cr _ _] Hf Hl Hty Hs. rewrite Cr. specialize (Hdirs j).
  pose proof (countb_pos (opens_on (inodes t) j) fl f x Hf) as Hp. rewrite (opens_slot t j x j Hl Hty Hs) in Hp.
  specialize (Hp (bool_decide_eq_true_2 _ eq_refl)). destruct (bool_decide _); cbn; lia.
Qed.

Lemma counted_cwd R t c fl j : counted R t c fl -> slot_of t c j -> 0 < refs R j.
Proof.
  intros [Cr _ _] Hs. rewrite Cr, (cwd_slot t c j j Hs), bool_decide_true by done. specialize (Hdirs j).
  pose proof (countb_nonneg (opens_on (inodes t) j) fl). cbn. lia.
Qed.

Lemma counted_kept R t c fl t' : counted R t c fl -> kept t R t' -> counted R t' c fl.
Proof.
  intros Hc K. pose proof Hc as [Cr [jc Hcwd] Cf].
  assert (Hc' : slot_of t' c jc) by (apply K; [done|by eapply counted_cwd]).
  assert (Hf' : forall f x j, fl !! f = Some x -> live x -> f_type x = FD_INODE -> slot_of t (f_ip x) j -> slot_of t' (f_ip x) j).
  { intros f x j Hf Hl Hty Hs. apply K; [done|by eapply counted_file]. }
  split.
  - intros j. rewrite Cr, (cwd_slot t c j jc Hcwd), (cwd_slot t' c j jc Hc'). f_equal. apply countb_ext. intros f x Hf.
    destruct (decide (live x)) as [Hl|Hl]; [|by rewrite !opens_not by (by left)].
    destruct (decide (f_type x = FD_INODE)) as [Hty|Hty]; [|by rewrite !opens_not by (by right)].
    destruct (Cf f x Hf Hl Hty) as [j' Hs]. rewrite (opens_slot t j x j' Hl Hty Hs).
    by rewrite (opens_slot t' j x j' Hl Hty) by (by eapply Hf').
  - by exists jc.
  - intros f x Hf Hl Hty. destruct (Cf f x Hf Hl Hty) as [j Hs]. exists j. by eapply Hf'.
Qed.
(** The file [f] was not open on an inode, or was on the same one. *)
Lemma counted_same R t c fl f x y :
  counted R t c fl -> fl !! f = Some x -> (forall j, opens_on (inodes t) j y = opens_on (inodes t) j x) ->
  (live y -> f_type y = FD_INODE -> live x /\ f_type x = FD_INODE /\ f_ip y = f_ip x) -> counted R t c (<[f := y]> fl).
Proof.
  intros [Cr Cc Cf] Hf E Hy. split; [|done|].
  - intros j. rewrite Cr, (countb_insert _ _ f x y Hf), E. lia.
  - intros g z [[-> ->]|[Hne Hg]]%(lookup_upd_file fl f x y g z Hf) Hl Hty; [|by eapply Cf].
    destruct (Hy Hl Hty) as (Hl' & Hty' & ->). by eapply Cf.
Qed.

Lemma counted_open R t c fl f x y j :
  counted R t c fl -> fl !! f = Some x -> f_type x <> FD_INODE -> live y -> f_type y = FD_INODE -> slot_of t (f_ip y) j ->
  counted (incr j R) t c (<[f := y]> fl).
Proof.
  intros [Cr Cc Cf] Hf Hx Hl Hty Hs. split; [|done|].
  - intros i. rewrite refs_incr, Cr, (countb_insert _ _ f x y Hf), (opens_slot t i y j Hl Hty Hs).
    rewrite (opens_not (inodes t) i x) by (by right). repeat case_bool_decide; case_decide; cbn; try congruence; lia.
  - intros g z [[-> ->]|[Hne Hg]]%(lookup_upd_file fl f x y g z Hf) Hlz Htyz; [by exists j|by eapply Cf].
Qed.

Lemma counted_close R t c fl f x y j :
  counted R t c fl -> positive R -> fl !! f = Some x -> live x -> f_type x = FD_INODE -> slot_of t (f_ip x) j -> ~ live y ->
  counted (decr j R) t c (<[f := y]> fl).
Proof.
  intros Hc HR Hf Hl Hty Hs Hy. pose proof (counted_file _ _ _ _ _ _ _ Hc Hf Hl Hty Hs) as Hj. destruct Hc as [Cr Cc Cf]. split; [|done|].
  - intros i. rewrite refs_decr by done. rewrite Cr, (countb_insert _ _ f x y Hf), (opens_slot t i x j Hl Hty Hs).
    rewrite (opens_not (inodes t) i y) by (by left). repeat case_bool_decide; case_decide; cbn; try congruence; lia.
  - intros g z [[-> ->]|[Hne Hg]]%(lookup_upd_file fl f x y g z Hf) Hlz Htyz; [done|by eapply Cf].
Qed.

Lemma counted_chdir R t c fl c' j j' :
  counted R t c fl -> positive R -> slot_of t c j -> slot_of t c' j' -> counted (decr j (incr j' R)) t c' fl.
Proof.
  intros Hc HR Hs Hs'. pose proof (counted_cwd _ _ _ _ _ Hc Hs) as Hj. destruct Hc as [Cr Cc Cf]. split; [|by exists j'|done].
  intros i. rewrite refs_decr; [|by apply positive_incr|rewrite refs_incr; case_decide; lia]. rewrite refs_incr, Cr.
  rewrite (cwd_slot t c i j Hs), (cwd_slot t c' i j' Hs'). repeat case_bool_decide; repeat case_decide; cbn; try congruence; lia.
Qed.

Lemma nodes_positive v R t c fl : nodes_ok v R t c fl -> positive R.
Proof.
  intros [Hi _ Hc _ _].
  assert (Hex : wp bl_begin_op (fun _ b => viewed b v) (blk t)) by (eapply law_begin; [exact Hi|done]).
  unfold wp in Hex. destruct (bl_begin_op (blk t)) as [[] b|? |? |? ?|]; try done. apply (ic_pos _ _ _ _ (Hc b Hex)).
Qed.

(** The end of a transaction that wrote nothing. *)
Lemma nodes_end v v' R t b c fl :
  icached t v R None -> tree (sb t) v G -> counted R t c fl -> (forall j, 0 < refs R j -> G j) ->
  idle b v' -> committed v v' -> nodes_ok v' R (set_blk b t) c fl.
Proof.
  intros IC Ht Hc HG Hi Hcm. destruct (law_idle _ _ Hi) as (_ & Hh & Htou & _). split; try done.
  - by apply (tree_committed _ v).
  - intros b' Hb'. destruct IC as [I1 I2 I3 I4 I5 I6 I7 I8]. split; try done.
    intros i x Hx Hr. destruct (I5 i x Hx Hr) as (Hd & Hn & Hv). split_and!; [done|done|]. intros Hval. rewrite (Hv Hval). cbn.
    symmetry. f_equal. apply (dnode_committed (sb t) v v' G); [done|done|]. apply HG. lia.
  - apply (counted_kept R t); [done|]. by intros i j.
Qed.

(** *** Pipes *)

Lemma pipes_same free pt pg fl f x y :
  pipes_ok free pt pg fl -> fl !! f = Some x ->
  (live y -> f_type y = FD_PIPE -> live x /\ f_type x = FD_PIPE /\ f_pipe y = f_pipe x /\ f_writable y = f_writable x) ->
  pipes_ok free pt pg (<[f := y]> fl).
Proof.
  intros [Pm Pe Po] Hf Hy.
  assert (Hold : forall g z, <[f := y]> fl !! g = Some z -> live z -> f_type z = FD_PIPE ->
    exists z', fl !! g = Some z' /\ live z' /\ f_type z' = FD_PIPE /\ f_pipe z = f_pipe z' /\ f_writable z = f_writable z').
  { intros g z [[-> ->]|[Hne Hg]]%(lookup_upd_file fl f x y g z Hf) Hl Hty; [|by exists z].
    destruct (Hy Hl Hty) as (? & ? & ? & ?). by exists x. }
  split; [done| |].
  - intros g z Hg Hl Hty. destruct (Hold g z Hg Hl Hty) as (z' & Hz & Hl' & Hty' & -> & ->). by eapply Pe.
  - intros g h z w Hg Hlz Htz Hh Hlw Htw Ep Ew.
    destruct (Hold g z Hg Hlz Htz) as (z' & Hz & ? & ? & E1 & E2). destruct (Hold h w Hh Hlw Htw) as (w' & Hw & ? & ? & E3 & E4).
    apply (Po g h z' w'); try done; congruence.
Qed.

Lemma wp_pipeclose (a : psys) self w free (Q : unit -> psys -> Prop) :
  pi_lock (pp a) = false -> kmem_at free (kpg a) -> frame self -> self ∉ free ->
  (forall a' free', kmem_at free' (kpg a') -> pp a' = close_end w (pp a) ->
     free' = free \/ (free' = self :: free /\ readopen (pp a') = false /\ writeopen (pp a') = false) -> Q tt a') ->
  wp (pipeclose self w) Q a.
Proof.
  intros Hl Hk Hf Hn HQ. unfold pipeclose. apply wp_bind, wp_acquire; [done|]. apply wp_bind, wp_modify.
  apply wp_bind. unfold wakeup. apply wp_modify. apply wp_bind, wp_gets.
  assert (E : set_pi_lock false (close_end w (set_pi_lock true (pp a))) = close_end w (pp a)).
  { destruct a as [[lk d nr nw ro wo] ? ?]. cbn in Hl. subst lk. by destruct w. }
  assert (Hheld : pi_lock (close_end w (set_pi_lock true (pp a))) = true) by (by destruct w).
  destruct (negb _ && negb _) eqn:Ec.
  - apply andb_prop in Ec as [E1%negb_true_iff E2%negb_true_iff]. apply wp_bind, wp_release; [exact Hheld|]. apply wp_zoom.
    eapply wp_kfree; [exact Hk|done|done|]. intros pg Hpg _ _. apply (HQ _ (self :: free)); [done|exact E|]. right.
    split; [done|]. split; [exact E1|exact E2].
  - apply wp_release; [exact Hheld|]. apply (HQ _ free); [done|exact E|by left].
Qed.

(** A file after fileclose(). *)
Definition dropped (x : file) : file :=
  if 1 <? f_ref x then set_f_ref (f_ref x - 1) x else set_f_type FD_NONE (set_f_ref 0 x).

Lemma dropped_kept x : 1 < f_ref x -> dropped x = set_f_ref (f_ref x - 1) x.
Proof. intros Hr. unfold dropped. by rewrite (proj2 (Z.ltb_lt _ _) Hr). Qed.

Lemma dropped_last x : f_ref x = 1 -> dropped x = set_f_type FD_NONE (set_f_ref 0 x).
Proof. intros Hr. unfold dropped. by rewrite Hr. Qed.

Lemma dropped_ref x : live x -> f_ref (dropped x) = f_ref x - 1.
Proof. unfold live, dropped. destruct (Z.ltb_spec 1 (f_ref x)); cbn; lia. Qed.

Lemma pipes_close free free' pt pg pg' fl f x pi :
  pipes_ok free pt pg fl -> fl !! f = Some x -> f_ref x = 1 -> f_type x = FD_PIPE -> pt !! f_pipe x = Some pi ->
  kmem_at free' pg' ->
  (free' = free \/ (free' = f_pipe x :: free /\ readopen (close_end (f_writable x) pi) = false /\ writeopen (close_end (f_writable x) pi) = false)) ->
  pipes_ok free' (<[f_pipe x := close_end (f_writable x) pi]> pt) pg' (<[f := dropped x]> fl).
Proof.
  intros [Pm Pe Po] Hf Hr Hty Hpi Hk Hfree. assert (Hl : live x) by (unfold live; lia).
  assert (Hold : forall g z, <[f := dropped x]> fl !! g = Some z -> live z -> g <> f /\ fl !! g = Some z).
  { intros g z [[-> ->]|[Hne Hg]]%(lookup_upd_file fl f x _ g z Hf) Hlz; [|done]. rewrite dropped_last in Hlz by done. by cbn in Hlz. }
  split; [done| |].
  - intros g z Hg Hlz Htz. destruct (Hold g z Hg Hlz) as [Hne Hg']. destruct (Pe g z Hg' Hlz Htz) as (pz & E1 & E2 & E3 & E4 & E5).
    destruct (decide (f_pipe z = f_pipe x)) as [Ep|Ep].
    + assert (Ew : f_writable z <> f_writable x) by (intros Ew; apply Hne; by apply (Po g f z x)).
      rewrite Ep, Hpi in E1. injection E1 as <-. exists (close_end (f_writable x) pi). rewrite Ep, lookup_insert_eq in *.
      assert (Eend : (if f_writable z then writeopen (close_end (f_writable x) pi) else readopen (close_end (f_writable x) pi)) = true)
        by (by destruct (f_writable x), (f_writable z)).
      split_and!; [done|by destruct (f_writable x)|exact Eend|done|].
      destruct Hfree as [->|(-> & Er & Ew')]; [done|]. exfalso. destruct (f_writable z); congruence.
    + exists pz. rewrite lookup_insert_ne by done. split_and!; try done. destruct Hfree as [->|(-> & _)]; [done|].
      by apply not_elem_of_cons.
  - intros g h z w Hg Hlz Htz Hh Hlw Htw. destruct (Hold g z Hg Hlz) as [_ Hg']. destruct (Hold h w Hh Hlw) as [_ Hh']. by apply Po.
Qed.

Lemma wp_fileclose_kept s f x (Q : unit -> filesys S -> Prop) :
  ft_lock s = false -> files s !! f = Some x -> 1 < f_ref x ->
  Q tt (set_files (<[f := dropped x]> (files s)) s) -> wp (fileclose f) Q s.
Proof.
  intros Hl Hf Hr HQ. unfold fileclose. apply wp_bind, wp_acquire; [done|]. apply wp_bind. eapply wp_get_file; [exact Hf|].
  apply wp_bind, wp_panic_if; [lia|]. apply wp_bind. eapply wp_upd_file; [exact Hf|].
  rewrite (proj2 (Z.ltb_lt 0 (f_ref x - 1))) by lia. apply wp_release; [done|]. rewrite <- (dropped_kept x Hr).
  rewrite <- (relock (set_files _ s)) in HQ by done. exact HQ.
Qed.

Lemma wp_fileclose_last s f x (Q : unit -> filesys S -> Prop) :
  ft_lock s = false -> files s !! f = Some x -> f_ref x = 1 ->
  wp (match f_type x with
      | FD_PIPE => onpipe (f_pipe x) (pipeclose (f_pipe x) (f_writable x))
      | FD_INODE => oncore bl_begin_op ;;; onfs (iput (f_ip x)) ;;; oncore bl_end_op
      | FD_NONE => ret tt
      end) Q (set_files (<[f := dropped x]> (files s)) s) ->
  wp (fileclose f) Q s.
Proof.
  intros Hl Hf Hr HQ. pose proof (lookup_lt_Some _ _ _ Hf). unfold fileclose. apply wp_bind, wp_acquire; [done|]. apply wp_bind.
  eapply wp_get_file; [exact Hf|]. apply wp_bind, wp_panic_if; [by rewrite Hr|]. apply wp_bind. eapply wp_upd_file; [exact Hf|].
  rewrite Hr. change (0 <? 1 - 1) with false. cbn iota. apply wp_bind. eapply wp_get_file; [cbn; by apply list_lookup_insert_eq|].
  apply wp_bind. eapply wp_upd_file; [cbn; by apply list_lookup_insert_eq|]. apply wp_bind, wp_release; [done|].
  rewrite (dropped_last x Hr) in HQ. rewrite <- (relock (set_files _ s)) in HQ by done.
  unfold set_files, set_ft_lock in *. cbn [ft_lock files fsy ptab pthreads pages me] in *. rewrite list_insert_insert_eq. exact HQ.
Qed.

Lemma table_upd s f x y :
  table_ok s -> files s !! f = Some x -> 0 <= f_ref y -> (unused y -> f_type y = FD_NONE) ->
  ft_lock s = false /\ length (<[f := y]> (files s)) = NFILE /\
  Forall (fun x => 0 <= f_ref x /\ (unused x -> f_type x = FD_NONE)) (<[f := y]> (files s)).
Proof.
  intros (Hl & Hlen & Hok) Hf Hr Hu. split_and!; [done|by rewrite length_insert|]. by apply Forall_insert.
Qed.

(** Dropping a reference to an inode of the tree, as a transaction. *)
Lemma wp_drop_inode s v R c fl fl' f x j (Q : unit -> filesys S -> Prop) :
  nodes_ok v R (fsy s) c fl -> fl !! f = Some x -> live x -> f_type x = FD_INODE -> slot_of (fsy s) (f_ip x) j ->
  fl' = <[f := dropped x]> fl -> f_ref x = 1 ->
  (forall t v', nodes_ok v' (decr j R) t c fl' -> committed v v' -> sb t = sb (fsy s) -> length (inodes t) = length (inodes (fsy s)) ->
     Q tt (set_fsy t s)) ->
  wp (oncore bl_begin_op ;;; onfs (iput (f_ip x)) ;;; oncore bl_end_op) Q s.
Proof.
  intros Hn Hf Hl Hty Hs -> Hr HQ. pose proof (nodes_positive _ _ _ _ _ Hn) as HR. destruct Hn as [Hi Ht Hc Hcnt HG].
  destruct (law_idle _ _ Hi) as (Hlog & Hheld & Htou & Hop). pose proof (counted_file _ _ _ _ _ _ _ Hcnt Hf Hl Hty Hs) as Hj.
  apply wp_bind, wp_oncore. eapply law_begin; [exact Hi|]. intros b Hb. apply wp_bind, wp_onfs. cbn [fsy set_fsy].
  eapply (wp_iput _ v R _ j); [by apply Hc|exact Hs|by apply (tr_node _ _ _ Ht), HG|]. intros t IC (Esb & _ & Elen) K. cbn in Esb, Elen.
  assert (Hcnt' : counted (decr j R) t c (<[f := dropped x]> fl)).
  { apply (counted_kept _ (fsy s)); [|exact K]. eapply counted_close; try done. unfold live. rewrite dropped_ref by done. lia. }
  apply wp_oncore. cbn [fsy set_fsy]. eapply (law_end _ v); [apply IC|done|done|by rewrite Hlog|].
  intros b' v' Hi' Hcm. eapply (HQ _ v'); [|done|done|done]. eapply (nodes_end v); try done; [by rewrite Esb|].
  intros i. rewrite refs_decr by done. case_decide; intros; apply HG; lia.
Qed.

(** What a call leaves of the file system. *)
Definition kept_fs s s' : Prop :=
  sb (fsy s') = sb (fsy s) /\ length (inodes (fsy s')) = length (inodes (fsy s)).

Definition steady k k' : Prop := kept_fs (ksys k) (ksys k') /\ u_sz (kproc k') = u_sz (kproc k).

Definition same_or_committed (v v' : view) : Prop := v' = v \/ committed v v'.

Lemma wp_fileclose s free v R c f x (Q : unit -> filesys S -> Prop) :
  table_ok s -> nodes_ok v R (fsy s) c (files s) -> pipes_ok free (ptab s) (pages s) (files s) ->
  files s !! f = Some x -> live x -> f_type x <> FD_NONE ->
  (forall s' free' v' R', table_ok s' -> files s' = <[f := dropped x]> (files s) ->
     nodes_ok v' R' (fsy s') c (files s') -> pipes_ok free' (ptab s') (pages s') (files s') ->
     kept_fs s s' -> same_or_committed v v' -> Q tt s') ->
  wp (fileclose f) Q s.
Proof.
  intros Htab Hn Hp Hf Hl Hty HQ. assert (Hld : 1 < f_ref x \/ f_ref x = 1) by (unfold live in Hl; lia).
  pose proof (dropped_ref x Hl) as Hdr.
  assert (Htab' : forall s', ft_lock s' = ft_lock s -> files s' = <[f := dropped x]> (files s) -> table_ok s').
  { intros s' E1 E2. unfold table_ok. rewrite E1, E2. apply (table_upd s f x); [done|done|unfold live in Hl; lia|].
    unfold unused. intros E. rewrite dropped_last by lia. done. }
  destruct Hld as [Hr|Hr].
  - eapply wp_fileclose_kept; [apply Htab|exact Hf|done|]. apply (HQ _ free v R); cbn; try done.
    + by apply Htab'.
    + split; try apply Hn. rewrite dropped_kept by done. eapply counted_same; [apply Hn|exact Hf| |].
      * intros j. unfold opens_on. cbn. f_equal. f_equal. apply Bool.eq_true_iff_eq. lia.
      * intros _ Ht. by split_and!.
    + eapply pipes_same; [exact Hp|exact Hf|]. rewrite dropped_kept by done. done.
    + by left.
  - eapply wp_fileclose_last; [apply Htab|exact Hf|done|]. destruct (f_type x) eqn:Et; [done| |].
    + destruct (po_end _ _ _ _ Hp f x Hf Hl Et) as (pi & E1 & E2 & E3 & E4 & E5). unfold onpipe. apply wp_bind, wp_gets.
      apply wp_bind. eapply wp_from_some; [exact E1|]. apply wp_zoom. cbn [pthreads pages set_files].
      eapply (wp_pipeclose _ _ _ free); [done|apply Hp|done|done|]. cbn [pp]. intros a' free' Hk Epp Hfree.
      apply (HQ _ free' v R); cbn; try done.
      * by apply Htab'.
      * split; try apply Hn. eapply counted_same; [apply Hn|exact Hf| |].
        -- intros j. rewrite !opens_not; [done|right; congruence|left; unfold live; lia].
        -- unfold live. lia.
      * rewrite Epp in *. by eapply pipes_close.
      * by left.
    + destruct (co_files _ _ _ _ (no_count _ _ _ _ _ Hn) f x Hf Hl Et) as [j Hs].
      eapply (wp_drop_inode (set_files _ s) v R c (files s) _ f x j); try done.
      intros t v' Hn' Hcm Esb Elen. apply (HQ _ free v' (decr j R)); cbn; try done.
      * by apply Htab'.
      * eapply pipes_same; [exact Hp|exact Hf|]. unfold live. lia.
      * by right.
Qed.

(** *** dup() and close() *)

Lemma uproc_ok_same u u' : uproc_ok u -> u_sz u' = u_sz u -> u_mem u' = u_mem u -> uproc_ok u'.
Proof. intros [] E1 E2. split; by rewrite ?E1, ?E2. Qed.

Lemma fd_lookup free v R k fd f :
  kinv free v R k -> u_ofile (kproc k) !! fd = Some (Some f) ->
  exists x, files (ksys k) !! f = Some x /\ live x /\ f_type x <> FD_NONE.
Proof.
  intros Hk Hfd. pose proof (fd_file _ _ (ki_fds _ _ _ _ Hk) _ _ Hfd) as Hlt.
  destruct (lookup_lt_is_Some_2 _ _ Hlt) as [x Hx]. pose proof (fd_in_use _ _ _ _ _ (ki_fds _ _ _ _ Hk) Hfd Hx) as Hl.
  exists x. split_and!; [done|done|]. by eapply fd_type; [apply Hk|..].
Qed.

Definition duped (x : file) : file := set_f_ref (f_ref x + 1) x.

Lemma wp_filedup s f x (Q : nat -> filesys S -> Prop) :
  ft_lock s = false -> files s !! f = Some x -> live x -> Q f (set_files (<[f := duped x]> (files s)) s) -> wp (filedup f) Q s.
Proof.
  intros Hl Hf Hr HQ. unfold live in Hr. unfold filedup. apply wp_bind, wp_acquire; [done|]. apply wp_bind.
  eapply wp_get_file; [exact Hf|]. apply wp_bind, wp_panic_if; [lia|]. apply wp_bind. eapply wp_upd_file; [exact Hf|].
  apply wp_bind, wp_release; [done|]. apply wp_ret. rewrite <- (relock (set_files _ s)) in HQ by done. exact HQ.
Qed.

Lemma wp_sys_dup free v R k :
  kinv free v R k ->
  wp sys_dup (fun r k' => kinv free v R k' /\ steady k k' /\
    match arg_fd (kproc k) 0, first_fd (u_ofile (kproc k)) with
    | Some (_, f), Some fd => r = Z.of_nat fd /\ u_ofile (kproc k') = <[fd := Some f]> (u_ofile (kproc k))
    | _, _ => r = -1 /\ k' = k
    end) k.
Proof.
  intros Hk. pose proof (fd_len _ _ (ki_fds _ _ _ _ Hk)) as Hlen. unfold sys_dup. apply wp_bind, wp_argfd; [apply Hk|done|].
  destruct (arg_fd (kproc k) 0) as [[fd0 f]|] eqn:Ea; [|by apply wp_ret]. apply arg_fd_Some in Ea.
  destruct (fd_lookup _ _ _ _ _ _ Hk Ea) as (x & Hx & Hl & Hty). apply wp_bind, wp_fdalloc; [done|].
  destruct (first_fd (u_ofile (kproc k))) as [fd|] eqn:Ef; [|by apply wp_ret]. apply first_fd_Some in Ef.
  apply wp_bind, wp_onfile. eapply wp_filedup; [apply Hk|exact Hx|done|]. apply wp_ret. split; [|by split_and!].
  unfold live in Hl. assert (Hlx : live (duped x)) by (unfold live; cbn; lia). split; cbn.
  - by eapply uproc_ok_same; [apply Hk|..].
  - destruct (table_upd (ksys k) f x (duped x)) as (T1 & T2 & T3); [apply Hk|done|cbn; lia|unfold unused; cbn; lia|by split_and!].
  - eapply (fds_change _ _ f x (duped x) fd None (Some f)); [apply Hk|done|done|by left|by right| |done].
    unfold fd_is. rewrite bool_decide_false, bool_decide_true by done. cbn. lia.
  - split; try apply Hk. eapply counted_same; [apply Hk|exact Hx| |by intros; split_and!].
    intros j. unfold opens_on. cbn. f_equal. f_equal. apply Bool.eq_true_iff_eq. lia.
  - eapply pipes_same; [apply Hk|exact Hx|done].
Qed.

Lemma wp_sys_close free v R k :
  kinv free v R k ->
  wp sys_close (fun r k' => (exists free' v' R', kinv free' v' R' k' /\ same_or_committed v v') /\ steady k k' /\
    match arg_fd (kproc k) 0 with
    | Some (fd, f) => r = 0 /\ u_ofile (kproc k') = <[fd := None]> (u_ofile (kproc k))
    | None => r = -1 /\ k' = k
    end) k.
Proof.
  intros Hk. pose proof (fd_len _ _ (ki_fds _ _ _ _ Hk)) as Hlen. unfold sys_close. apply wp_bind, wp_argfd; [apply Hk|done|].
  destruct (arg_fd (kproc k) 0) as [[fd f]|] eqn:Ea.
  2: { apply wp_ret. split_and!; try done. exists free, v, R. split; [done|by left]. }
  apply arg_fd_Some in Ea. destruct (fd_lookup _ _ _ _ _ _ Hk Ea) as (x & Hx & Hl & Hty).
  apply wp_bind. unfold set_ofile. apply wp_modify. apply wp_bind, wp_onfile. cbn [ksys set_kproc].
  eapply (wp_fileclose (ksys k)); [apply Hk|apply Hk|apply Hk|exact Hx|done|done|].
  intros s' free' v' R' T' Ef N' P' F' C'. apply wp_ret. split; [|by split_and!]. exists free', v', R'. split; [|done].
  split; cbn; try done.
  - by eapply uproc_ok_same; [apply Hk|..].
  - rewrite Ef. eapply (fds_change _ _ f x (dropped x) fd (Some f) None); [apply Hk|done|done|by right|by left| |].
    + unfold fd_is. rewrite bool_decide_true, bool_decide_false by done. rewrite dropped_ref by done. cbn. lia.
    + intros Hld. unfold live in Hld. rewrite dropped_ref in Hld by done. rewrite dropped_kept by lia. done.
Qed.

(** *** open() and chdir() *)

Context (dev_read : Z -> option (nat -> Z -> M (fsys S) (Z * list Z))).
Context (dev_write : Z -> option (nat -> list Z -> Z -> M (fsys S) Z)).
Context (nodes : list Z) (Hnodes : forall j, G j -> j ∈ nodes) (Hroot : G ROOTINO).

(** The cache has room for every inode of the tree, and for two more. *)
Definition roomy t : Prop := (length nodes + 2 <= length (inodes t))%nat.

Lemma refs_room R : positive R -> (forall j, 0 < refs R j -> G j) -> (size R <= length nodes)%nat.
Proof.
  intros HR HG. rewrite <- size_dom. apply submseteq_length, NoDup_submseteq; [apply NoDup_elements|]. intros j Hj.
  apply elem_of_elements, elem_of_dom in Hj as [r Hr]. apply Hnodes, HG. apply refs_lookup in Hr; [|done]. lia.
Qed.

Lemma wp_namei t v R c jc path (Q : option nat -> fsys S -> Prop) :
  icached t v R None -> tree (sb t) v G -> slot_of t c jc -> (forall j, 0 < refs R j -> G j) -> spare 0 v -> roomy t ->
  Forall (fun a => a <> 0) path ->
  (forall ip t', same t t' -> kept t R t' ->
     match lookup_path (sb t) v jc path with
     | Some j => exists i, ip = Some i /\ slot_of t' i j /\ G j /\ icached t' v (incr j R) None
     | None => ip = None /\ icached t' v R None
     end -> Q ip t') ->
  wp (namei dev_read c path) Q t.
Proof.
  intros IC Ht Hc HG Hsp Hroom Hnz HQ. unfold namei. apply wp_bind. eapply wp_mono.
  - apply (wp_namex dev_read v G c path false _ t R jc); try done.
    + apply HG. by eapply slot_refs.
    + pose proof (refs_room R (ic_pos _ _ _ _ IC) HG). unfold roomy in Hroom. lia.
  - intros [r nm] t' (Hs & Hk & Hr). apply wp_ret. apply HQ; [done|done|]. unfold lookup_path.
    change (start_at jc path) with (if bool_decide (head path = Some SLASH) then ROOTINO else jc).
    destruct (resolve _ _ _ _ _) as [j|]; [|done]. destruct Hr as (i & R1 & R2 & R3 & R4 & _). by exists i.
Qed.

Lemma idle_spare b v : idle b v -> spare 0 v.
Proof. intros Hi. destruct (law_idle _ _ Hi) as (E1 & E2 & _). unfold spare. rewrite E1, E2, dom_empty_L, union_idemp_L, size_empty. lia. Qed.

Lemma wp_open_inode t v R c jc path omode (Q : option nat -> fsys S -> Prop) :
  icached t v R None -> tree (sb t) v G -> slot_of t c jc -> (forall j, 0 < refs R j -> G j) -> spare 0 v -> roomy t ->
  Forall (fun a => a <> 0) path -> Z.land omode O_CREATE = 0 ->
  (forall ip t', same t t' -> kept t R t' ->
     match open_target (sb t) v jc path omode with
     | Some j => exists i, ip = Some i /\ slot_of t' i j /\ G j /\ icached t' v (incr j R) (Some i)
     | None => ip = None /\ icached t' v R None
     end -> Q ip t') ->
  wp (open_inode dev_read dev_write c path omode) Q t.
Proof.
  intros IC Ht Hc HG Hsp Hroom Hnz Hcr HQ. pose proof (ic_pos _ _ _ _ IC) as HR. unfold open_inode. rewrite Hcr. cbn [Z.eqb negb].
  apply wp_bind. eapply wp_namei; [exact IC|done|done|done|done|done|done|]. intros ip t1 S1 K1 Hr.
  unfold open_target in HQ. destruct (lookup_path (sb t) v jc path) as [j|]; cbn [mbind option_bind] in HQ.
  2: { destruct Hr as [-> IC1]. apply wp_ret. by apply HQ. }
  destruct Hr as (i & -> & Hs & HGj & IC1). pose proof S1 as (Esb & _ & _). destruct (tr_node _ _ _ Ht j HGj) as (Hj & Hty & Hnl).
  apply wp_bind. eapply wp_ilock; [exact IC1|done|rewrite Esb; apply Ht|apply Ht|done|rewrite Esb; lia|by rewrite Esb|].
  intros t2 IC2 Hs2 S2 K2%kept_incr. pose proof S2 as (Esb2 & _ & _).
  destruct (locked_copy _ _ _ _ _ IC2 Hs2) as (x & Hx & Hxn & Hxd & Hxc). apply wp_bind. eapply wp_get_inode; [exact Hx|].
  assert (i_type x = i_type (dnode (sb t) v j)) as -> by (rewrite <- Esb, <- Esb2; apply (copied_fields _ _ Hxc)).
  assert (S12 : same t t2) by (by etrans).
  assert (K12 : kept t R t2) by (by eapply kept_trans).
  revert HQ. destruct ((i_type (dnode (sb t) v j) =? T_DIR) && negb (omode =? O_RDONLY)); intros HQ.
  - apply wp_bind. eapply wp_iunlockput; [exact IC2|done|by rewrite Esb2, Esb|]. rewrite decr_incr by done.
    intros t3 IC3 S3 K3. apply wp_ret. apply HQ; [|by eapply kept_trans|by split].
    by etrans.
  - apply wp_ret. apply HQ; [done|done|]. exists i. by split_and!.
Qed.

Definition put_fs t k : kern S := set_ksys (set_fsy t (ksys k)) k.

Lemma wp_onfsys {A} (m : M (fsys S) A) (Q : A -> kern S -> Prop) k :
  wp m (fun a t => Q a (put_fs t k)) (fsy (ksys k)) -> wp (onfsys m) Q k.
Proof. intros Hm. apply wp_onfile, wp_onfs. exact Hm. Qed.

Lemma wp_kbegin k v (Q : unit -> kern S -> Prop) :
  idle (blk (fsy (ksys k))) v -> (forall b, viewed b v -> Q tt (put_fs (set_blk b (fsy (ksys k))) k)) -> wp kbegin_op Q k.
Proof. intros Hi HQ. apply wp_onfile, wp_oncore. eapply law_begin; [exact Hi|exact HQ]. Qed.

(** The end of a call that wrote nothing to the disk. *)
Lemma wp_kend k v R c fl (Q : unit -> kern S -> Prop) :
  icached (fsy (ksys k)) v R None -> tree (sb (fsy (ksys k))) v G -> counted R (fsy (ksys k)) c fl ->
  (forall j, 0 < refs R j -> G j) -> logged v = ∅ -> opens v = 1 ->
  (forall b v', committed v v' -> nodes_ok v' R (set_blk b (fsy (ksys k))) c fl -> Q tt (put_fs (set_blk b (fsy (ksys k))) k)) ->
  wp kend_op Q k.
Proof.
  intros IC Ht Hc HG Hlog Hop HQ. apply wp_onfile, wp_oncore. eapply (law_end _ v); [apply IC|done|apply Ht|by rewrite Hlog|].
  intros b v' Hi Hcm. eapply (HQ b v'); [done|]. by eapply nodes_end.
Qed.

Lemma incr_known R j : (forall i, 0 < refs R i -> G i) -> G j -> forall i, 0 < refs (incr j R) i -> G i.
Proof. intros HG Hj i. rewrite refs_incr. case_decide; [by subst|]. intros. apply HG. lia. Qed.

(** What open() does to the process and the table: [j] is the inode that the
    path leads to. *)
Inductive open_result (v : view) (jc : Z) k (r : Z) k' : Prop :=
  | OpenOk path w j ip f x fd :
      arg_path (kproc k) 0 = Some path -> arg_word (kproc k) 1 = Some w ->
      open_target (sb (fsy (ksys k))) v jc path (s32 w) = Some j ->
      files (ksys k) !! f = Some x -> unused x -> first_fd (u_ofile (kproc k)) = Some fd ->
      r = Z.of_nat fd -> u_ofile (kproc k') = <[fd := Some f]> (u_ofile (kproc k)) ->
      files (ksys k') = <[f := opened ip (s32 w) (set_f_ref 1 x)]> (files (ksys k)) ->
      slot_of (fsy (ksys k')) ip j ->
      open_result v jc k r k'
  | OpenFail :
      r = -1 -> u_ofile (kproc k') = u_ofile (kproc k) -> files (ksys k') = files (ksys k) ->
      (arg_path (kproc k) 0 = None \/ arg_word (kproc k) 1 = None \/
       (exists path w, arg_path (kproc k) 0 = Some path /\ arg_word (kproc k) 1 = Some w /\
          open_target (sb (fsy (ksys k))) v jc path (s32 w) = None) \/
       Forall (fun x => ~ unused x) (files (ksys k)) \/ first_fd (u_ofile (kproc k)) = None) ->
      open_result v jc k r k'.

Lemma wp_open_bad free v R k k1 i j jc path w (Q : Z -> kern S -> Prop) :
  kinv free v R k -> kproc k1 = kproc k -> files (ksys k1) = files (ksys k) -> ptab (ksys k1) = ptab (ksys k) ->
  pages (ksys k1) = pages (ksys k) -> ft_lock (ksys k1) = ft_lock (ksys k) ->
  same (fsy (ksys k)) (fsy (ksys k1)) -> kept (fsy (ksys k)) R (fsy (ksys k1)) ->
  icached (fsy (ksys k1)) v (incr j R) (Some i) -> slot_of (fsy (ksys k1)) i j -> G j ->
  arg_path (kproc k) 0 = Some path -> arg_word (kproc k) 1 = Some w ->
  Forall (fun x => ~ unused x) (files (ksys k)) \/ first_fd (u_ofile (kproc k)) = None ->
  (forall k', (exists v', kinv free v' R k' /\ committed v v') -> steady k k' -> open_result v jc k (-1) k' -> Q (-1) k') ->
  wp (onfsys (iunlockput i) ;;; kend_op ;;; ret (-1)) Q k1.
Proof.
  intros Hk Ep Ef Ept Epg Elk (Esb & _ & Elen) K IC Hs HGj Hpath Hw Hwhy HQ. destruct Hk as [Hu Ht Hfd Hn Hp].
  pose proof (nodes_positive _ _ _ _ _ Hn) as HR. destruct Hn as [Hi Htr Hc Hcnt HG]. destruct (law_idle _ _ Hi) as (Hlog & _ & _ & Hop).
  apply wp_bind, wp_onfsys. eapply wp_iunlockput; [exact IC|done|rewrite Esb; by apply (tr_node _ _ _ Htr)|].
  rewrite decr_incr by done. intros t IC' (Esb' & _ & Elen') K'. apply wp_bind.
  eapply (wp_kend (put_fs t k1) v R (u_cwd (kproc k)) (files (ksys k))); cbn; [done|by rewrite Esb', Esb| |done|done|done|].
  { eapply counted_kept; [|exact K']. by eapply counted_kept. }
  intros b v' Hcm Hn'. apply wp_ret. apply HQ.
  - exists v'. split; [|done]. destruct Ht as (T1 & T2 & T3). split; cbn; rewrite ?Ep, ?Ef, ?Ept, ?Epg; try done.
    split_and!; cbn; [by rewrite Elk|by rewrite Ef|by rewrite Ef].
  - split; [split|]; cbn; congruence.
  - apply OpenFail; cbn; [done|by rewrite Ep|done|]. tauto.
Qed.

Lemma wp_sys_open free v R k jc :
  kinv free v R k -> roomy (fsy (ksys k)) -> slot_of (fsy (ksys k)) (u_cwd (kproc k)) jc ->
  (forall w, arg_word (kproc k) 1 = Some w -> Z.land (s32 w) O_CREATE = 0) ->
  wp (sys_open dev_read dev_write) (fun r k' => (exists v' R', kinv free v' R' k' /\ same_or_committed v v') /\
    steady k k' /\ open_result v jc k r k') k.
Proof.
  intros Hk Hroom Hjc Hcr. pose proof Hk as [Hu Ht Hfd Hn Hp]. pose proof (nodes_positive _ _ _ _ _ Hn) as HR.
  pose proof Hn as [Hi Htr Hc Hcnt HG]. destruct (law_idle _ _ Hi) as (Hlog & _ & _ & Hop).
  unfold sys_open. apply wp_bind, wp_argpath; [done|]. destruct (arg_path (kproc k) 0) as [path|] eqn:Ep.
  2: { apply wp_ret. split; [exists v, R; split; [done|by left]|]. split; [done|]. apply OpenFail; auto. }
  pose proof (arg_path_nonzero _ _ _ Hu Ep) as Hnz. apply wp_bind, wp_argint; [done|]. cbn [cur kern_proc].
  destruct (arg_word (kproc k) 1) as [w|] eqn:Ew; cbn [fmap option_fmap option_map].
  2: { apply wp_ret. split; [exists v, R; split; [done|by left]|]. split; [done|]. apply OpenFail; auto. }
  specialize (Hcr w eq_refl). set (om := s32 w) in *. apply wp_bind. eapply wp_kbegin; [exact Hi|]. intros b Hb.
  set (k1 := put_fs _ k). apply wp_bind. unfold cwd. apply wp_gets. change (u_cwd (kproc k1)) with (u_cwd (kproc k)).
  apply wp_bind, wp_onfsys. eapply (wp_open_inode _ v R _ jc); [by apply Hc|done|done|done|by eapply idle_spare|done|done|done|].
  intros r t S1 K1 Hr. change (sb (fsy (ksys k1))) with (sb (fsy (ksys k))) in Hr. pose proof S1 as (Esb & _ & Elen). cbn in Esb, Elen.
  destruct (open_target (sb (fsy (ksys k))) v jc path om) as [j|] eqn:Etgt.
  2: { destruct Hr as [-> IC]. apply wp_bind.
    eapply (wp_kend (put_fs t k1) v R (u_cwd (kproc k)) (files (ksys k))); cbn; [done|by rewrite Esb| |done|done|done|].
    { by eapply counted_kept. }
    intros b' v' Hcm Hn'. apply wp_ret. split; [exists v', R; split; [by split|by right]|]. split; [by split|]. apply OpenFail; eauto 10. }
  destruct Hr as (ip & -> & Hs & HGj & IC). set (k2 := put_fs t k1). apply wp_bind, wp_onfile, wp_filealloc; [done| |].
  2: { intros Hall. eapply (wp_open_bad free v R k _ ip j jc path w); try done; [by left|].
    intros k' (v' & Hk' & Hcm) F' O'. split; [exists v', R; split; [done|by right]|done]. }
  intros f x Hf Hx _. cbn in Hf. pose proof (lookup_lt_Some _ _ _ Hf) as Hlt.
  assert (Htx : f_type x = FD_NONE) by (by apply (Forall_lookup_1 _ _ _ _ (proj2 (proj2 Ht)) Hf)).
  apply wp_bind, wp_fdalloc; [apply Hfd|]. cbn [kproc k2 k1 put_fs set_ksys]. destruct (first_fd (u_ofile (kproc k))) as [fd|] eqn:Efd.
  2: { apply wp_bind, wp_onfile. eapply (wp_fileclose_new _ f x); [apply Ht|cbn; by apply list_lookup_insert_eq|done|done|].
    eapply (wp_open_bad free v R k _ ip j jc path w); try done; [|by right|].
    - cbn. rewrite list_insert_insert_eq. by apply list_insert_id.
    - intros k' (v' & Hk' & Hcm) F' O'. split; [exists v', R; split; [done|by right]|done]. }
  apply wp_bind, wp_onfsys. eapply wp_iunlock; [exact IC|exact Hs|]. intros t2 IC2 (Esb2 & _ & Elen2) K2. cbn in Esb2, Elen2.
  set (y := opened ip om (set_f_ref 1 x)).
  assert (Hs2 : slot_of t2 ip j) by (apply K2; [done|exact (slot_refs _ _ _ _ _ _ IC Hs)]).
  assert (Hcnt2 : counted (incr j R) t2 (u_cwd (kproc k)) (<[f := y]> (files (ksys k)))).
  { eapply (counted_open R t2 _ _ f x y j); try done; [|congruence]. eapply counted_kept; [by eapply counted_kept|by apply kept_incr in K2]. }
  apply wp_bind. eapply (wp_kend _ v (incr j R) (u_cwd (kproc k)) _); cbn; [exact IC2|by rewrite Esb2, Esb|exact Hcnt2
    |by apply incr_known|done|done|].
  intros b' v' Hcm Hn'. apply wp_bind, wp_onfile. eapply wp_upd_file; [cbn; by apply list_lookup_insert_eq|]. cbn.
  rewrite list_insert_insert_eq. fold y. apply first_fd_Some in Efd as Efd'. apply wp_ret. split; [|split].
  - exists v', (incr j R). split; [|by right]. split; cbn.
    + by eapply uproc_ok_same.
    + by apply (table_upd (ksys k) f x y).
    + eapply (fds_change _ _ f x y fd None (Some f)); [done|done|done|by left|by right| |done].
      unfold fd_is. rewrite bool_decide_false, bool_decide_true by done. unfold unused in Hx. rewrite Hx. done.
    + done.
    + by eapply pipes_same.
  - split; [split|]; cbn; congruence.
  - by eapply (OpenOk _ _ _ _ _ path w j ip f x fd).
Qed.

(** The directory that chdir() changes to. *)
Definition chdir_target (sb : superblock) (v : view) (jc : Z) (u : uproc) : option Z :=
  path ← arg_path u 0;
  j ← lookup_path sb v jc path;
  if i_type (dnode sb v j) =? T_DIR then Some j else None.

Definition chdir_result (v : view) (jc : Z) k (r : Z) k' : Prop :=
  match chdir_target (sb (fsy (ksys k))) v jc (kproc k) with
  | Some j => r = 0 /\ slot_of (fsy (ksys k')) (u_cwd (kproc k')) j /\ u_ofile (kproc k') = u_ofile (kproc k)
  | None => r = -1 /\ kproc k' = kproc k
  end.

(** An end of the call that leaves the process as it was. *)
Lemma wp_chdir_bad free v R k t jc :
  kinv free v R k -> same (fsy (ksys k)) t -> kept (fsy (ksys k)) R t -> icached t v R None ->
  chdir_target (sb (fsy (ksys k))) v jc (kproc k) = None ->
  wp (kend_op ;;; ret (-1)) (fun r k' => (exists v' R', kinv free v' R' k' /\ same_or_committed v v') /\
    steady k k' /\ chdir_result v jc k r k') (put_fs t k).
Proof.
  intros Hk (Esb & _ & Elen) K IC Hnone. destruct Hk as [Hu Ht Hfd [Hi Htr Hc Hcnt HG] Hp].
  destruct (law_idle _ _ Hi) as (Hlog & _ & _ & Hop). apply wp_bind.
  eapply (wp_kend _ v R (u_cwd (kproc k)) (files (ksys k))); cbn; [done|by rewrite Esb|by eapply counted_kept|done|done|done|].
  intros b v' Hcm Hn'. apply wp_ret. split; [exists v', R; split; [by split|by right]|]. split; [by split|].
  unfold chdir_result. by rewrite Hnone.
Qed.

(** The end of chdir() in a directory. *)
Lemma wp_chdir_good free v R k t i j jc :
  kinv free v R k -> same (fsy (ksys k)) t -> kept (fsy (ksys k)) R t -> icached t v (incr j R) (Some i) -> slot_of t i j -> G j ->
  slot_of (fsy (ksys k)) (u_cwd (kproc k)) jc -> chdir_target (sb (fsy (ksys k))) v jc (kproc k) = Some j ->
  wp (onfsys (iunlock i) ;;; onfsys (iput (u_cwd (kproc k))) ;;; kend_op ;;;
      modify (fun k => set_kproc (set_u_cwd i (kproc k)) k) ;;; ret 0)
    (fun r k' => (exists v' R', kinv free v' R' k' /\ same_or_committed v v') /\
      steady k k' /\ chdir_result v jc k r k') (put_fs t k).
Proof.
  intros Hk (Esb & _ & Elen) K IC Hs HGj Hjc Hsome. destruct Hk as [Hu Ht Hfd Hn Hp].
  pose proof (nodes_positive _ _ _ _ _ Hn) as HR. destruct Hn as [Hi Htr Hc Hcnt HG].
  destruct (law_idle _ _ Hi) as (Hlog & _ & _ & Hop). apply wp_bind, wp_onfsys. eapply wp_iunlock; [exact IC|exact Hs|].
  cbn [fsy ksys put_fs set_ksys set_fsy]. intros t2 IC2 (Esb2 & _ & Elen2) K2.
  assert (Hcnt2 : counted R t2 (u_cwd (kproc k)) (files (ksys k))) by (eapply counted_kept; [by eapply counted_kept|by apply kept_incr in K2]).
  assert (Hs2 : slot_of t2 i j) by (apply K2; [done|exact (slot_refs _ _ _ _ _ _ IC Hs)]).
  assert (Hjc0 : 0 < refs R jc) by (exact (counted_cwd _ _ _ _ _ Hcnt Hjc)).
  assert (Hjc2 : slot_of t2 (u_cwd (kproc k)) jc).
  { apply (kept_incr _ R j) in K2. apply K2; [by apply K|done]. }
  apply wp_bind, wp_onfsys. cbn [fsy ksys put_fs set_ksys set_fsy]. eapply (wp_iput _ v _ _ jc); [exact IC2|exact Hjc2| |].
  { rewrite Esb2, Esb. by apply (tr_node _ _ _ Htr), HG. }
  intros t3 IC3 (Esb3 & _ & Elen3) K3. set (R3 := decr jc (incr j R)) in *.
  assert (Hcnt3 : counted R3 t3 i (files (ksys k))) by (eapply counted_kept; [by eapply counted_chdir|done]).
  assert (Hs3 : slot_of t3 i j).
  { apply K3; [done|]. unfold R3. pose proof (refs_nonneg R j HR).
    rewrite refs_decr; [|by apply positive_incr|rewrite refs_incr; case_decide; lia]. rewrite refs_incr, decide_True by done.
    case_decide; [subst; lia|lia]. }
  apply wp_bind. eapply (wp_kend _ v R3 i (files (ksys k))); cbn; [done|by rewrite Esb3, Esb2, Esb|done| |done|done|].
  { intros a. unfold R3. rewrite refs_decr; [|by apply positive_incr|rewrite refs_incr; case_decide; lia].
    intros Ha. apply (incr_known R j HG HGj). case_decide; lia. }
  intros b v' Hcm Hn'. split; [|split].
  - exists v', R3. split; [|by right]. split; cbn; try done. by eapply uproc_ok_same.
  - split; [split|]; cbn; congruence.
  - unfold chdir_result. rewrite Hsome. by split_and!.
Qed.

Lemma wp_sys_chdir free v R k jc :
  kinv free v R k -> roomy (fsy (ksys k)) -> slot_of (fsy (ksys k)) (u_cwd (kproc k)) jc ->
  wp (sys_chdir dev_read) (fun r k' => (exists v' R', kinv free v' R' k' /\ same_or_committed v v') /\
    steady k k' /\ chdir_result v jc k r k') k.
Proof.
  intros Hk Hroom Hjc. pose proof Hk as [Hu Ht Hfd Hn Hp]. pose proof (nodes_positive _ _ _ _ _ Hn) as HR.
  pose proof Hn as [Hi Htr Hc Hcnt HG]. pose proof (idle_spare _ _ Hi) as Hsp.
  unfold sys_chdir. apply wp_bind. eapply wp_kbegin; [exact Hi|]. intros b Hb. set (k1 := put_fs _ k).
  apply wp_bind, wp_argpath; [done|]. change (kproc k1) with (kproc k).
  destruct (arg_path (kproc k) 0) as [path|] eqn:Ep.
  2: { eapply (wp_chdir_bad free v R k); try done; [by intros ? ?|by apply Hc|]. unfold chdir_target. by rewrite Ep. }
  pose proof (arg_path_nonzero _ _ _ Hu Ep) as Hnz. apply wp_bind. unfold cwd. apply wp_gets. apply wp_bind, wp_onfsys.
  eapply (wp_namei _ v R _ jc); [by apply Hc|done|done|done|done|done|done|]. cbn [sb set_blk fsy ksys k1 put_fs set_ksys set_fsy].
  intros r t S1 K1 Hr. destruct (lookup_path (sb (fsy (ksys k))) v jc path) as [j|] eqn:El.
  2: { destruct Hr as [-> IC]. eapply (wp_chdir_bad free v R k t jc); try done. unfold chdir_target. rewrite Ep. cbn. by rewrite El. }
  destruct Hr as (i & -> & Hs & HGj & IC). pose proof S1 as (Esb & _ & _). cbn in Esb. destruct (tr_node _ _ _ Htr j HGj) as (Hj & Hty & Hnl).
  apply wp_bind, wp_onfsys. eapply wp_ilock; [exact IC|exact Hs|cbn; rewrite Esb; apply Htr|apply Htr|done|cbn; rewrite Esb; lia|cbn; by rewrite Esb|].
  cbn [sb set_blk fsy ksys k1 put_fs set_ksys set_fsy]. intros t2 IC2 Hs2 S2 K2%kept_incr. pose proof S2 as (Esb2 & _ & _). cbn in Esb2.
  destruct (locked_copy _ _ _ _ _ IC2 Hs2) as (x & Hx & Hxn & Hxd & Hxc). apply wp_bind, wp_onfsys. eapply wp_get_inode; [exact Hx|].
  assert (i_type x = i_type (dnode (sb (fsy (ksys k))) v j)) as -> by (rewrite <- Esb, <- Esb2; apply (copied_fields _ _ Hxc)).
  assert (S12 : same (fsy (ksys k)) t2) by (etrans; [exact S1|exact S2]).
  assert (K12 : kept (fsy (ksys k)) R t2) by (eapply kept_trans; [exact K1|exact K2]).
  destruct (i_type (dnode (sb (fsy (ksys k))) v j) =? T_DIR) eqn:Ed; cbn [negb].
  - eapply (wp_chdir_good free v R k t2 i j jc); try done. unfold chdir_target. rewrite Ep. cbn [mbind option_bind]. rewrite El.
    cbn [mbind option_bind]. by rewrite Ed.
  - apply wp_bind, wp_onfsys. eapply wp_iunlockput; [exact IC2|exact Hs2|cbn; by rewrite Esb2, Esb|]. rewrite decr_incr by done.
    intros t3 IC3 S3 K3. eapply (wp_chdir_bad free v R k t3 jc); try done.
    + etrans; [exact S12|exact S3].
    + eapply kept_trans; [exact K12|exact K3].
    + unfold chdir_target. rewrite Ep. cbn [mbind option_bind]. rewrite El. cbn [mbind option_bind]. by rewrite Ed.
Qed.

(** *** pipe() *)

Lemma same_or_committed_trans v1 v2 v3 : same_or_committed v1 v2 -> same_or_committed v2 v3 -> same_or_committed v1 v3.
Proof.
  intros [->|H1'] [->|H2']; [by left|by right|by right|right]. destruct H1' as [A1 A2 A3 A4], H2' as [B1 B2 B3 B4]. split.
  - intros n. by rewrite B1.
  - by rewrite B2.
  - intros n Hn. rewrite B3 by (by apply A1). by apply A3.
  - intros n Hn. rewrite B4 by (by apply A1). by apply A3.
Qed.

Lemma fds_noop fl l f x y :
  fds_ok fl l -> fl !! f = Some x -> f_ref y = f_ref x -> (live y -> f_type y <> FD_NONE) -> fds_ok (<[f := y]> fl) l.
Proof.
  intros [L F D T] Hf Er Hty. split; [done| | |].
  - intros i g Hi. rewrite length_insert. by eapply F.
  - intros g z [[-> ->]|[_ Hg]]%(lookup_upd_file fl f x y g z Hf); [rewrite Er|]; by apply D.
  - intros g z [[-> ->]|[_ Hg]]%(lookup_upd_file fl f x y g z Hf); [done|by eapply T].
Qed.

Definition new_end (w : bool) (p : Z) (x : file) : file := set_f_pipe (negb w) w p (set_f_ref 1 x).

Lemma pipes_new p free pt pg pg' fl f0 f1 x0 x1 pi :
  pipes_ok (p :: free) pt pg fl -> fl !! f0 = Some x0 -> unused x0 -> fl !! f1 = Some x1 -> unused x1 -> f0 <> f1 ->
  kmem_at free pg' -> pi_lock pi = false -> readopen pi = true -> writeopen pi = true ->
  pipes_ok free (<[p := pi]> pt) pg' (<[f1 := new_end true p x1]> (<[f0 := new_end false p x0]> fl)).
Proof.
  intros [Pm Pe Po] Hf0 Hu0 Hf1 Hu1 Hne Hk Hpl Hro Hwo. set (y0 := new_end false p x0). set (y1 := new_end true p x1).
  pose proof (ka_frames _ _ Pm) as [Hp _]%Forall_cons. pose proof (ka_nodup _ _ Pm) as [Hpn _]%NoDup_cons.
  assert (Hf1' : <[f0 := y0]> fl !! f1 = Some x1) by (by rewrite list_lookup_insert_ne).
  assert (Hcase : forall g z, <[f1 := y1]> (<[f0 := y0]> fl) !! g = Some z -> live z -> f_type z = FD_PIPE ->
    (f_pipe z = p /\ (if f_writable z then g = f1 else g = f0)) \/ (fl !! g = Some z /\ f_pipe z <> p)).
  { intros g z [[-> ->]|[Hg1 Hg]]%(lookup_upd_file _ f1 x1 y1 g z Hf1') Hl Hty; [by left|].
    apply (lookup_upd_file fl f0 x0 y0 g z Hf0) in Hg as [[-> ->]|[Hg0 Hg]]; [by left|right]. split; [done|].
    destruct (Pe g z Hg Hl Hty) as (_ & _ & _ & _ & _ & Hnin). apply not_elem_of_cons in Hnin as [? _]. done. }
  split; [done| |].
  - intros g z Hg Hl Hty. destruct (Hcase g z Hg Hl Hty) as [[-> Hw]|[Hg' Hpz]].
    + exists pi. rewrite lookup_insert_eq. split_and!; try done. by destruct (f_writable z).
    + destruct (Pe g z Hg' Hl Hty) as (pz & E1 & E2 & E3 & E4 & E5). exists pz. rewrite lookup_insert_ne by done.
      apply not_elem_of_cons in E5 as [_ E5]. by split_and!.
  - intros g h z w Hg Hlz Htz Hh Hlw Htw Ep Ew.
    destruct (Hcase g z Hg Hlz Htz) as [[Ez Hz]|[Hg' Hpz]], (Hcase h w Hh Hlw Htw) as [[Ew' Hw]|[Hh' Hpw]]; try congruence.
    + rewrite Ew in Hz. destruct (f_writable w); congruence.
    + by apply (Po g h z w).
Qed.

Lemma wp_store_bytes k a d (Q : unit -> kern S -> Prop) :
  uproc_ok (kproc k) -> 0 <= a -> a + Z.of_nat (length d) <= u_sz (kproc k) ->
  Q tt (set_kproc (set_u_mem (splice (Z.to_nat a) d (u_mem (kproc k))) (kproc k)) k) -> wp (store_bytes a d) Q k.
Proof.
  intros Hu Ha Hn HQ. unfold store_bytes. apply wp_bind, wp_gets. cbn [cur set_cur kern_proc]. rewrite (uo_len _ Hu).
  assert (((0 <=? a) && (a + Z.of_nat (length d) <=? u_sz (kproc k))) = true) as -> by lia. by apply wp_modify.
Qed.

Lemma uproc_ok_store u a d :
  uproc_ok u -> bytes_ok d -> 0 <= a -> a + Z.of_nat (length d) <= u_sz u -> uproc_ok (set_u_mem (splice (Z.to_nat a) d (u_mem u)) u).
Proof.
  intros [Hl Hs Hb] Hd Ha Hn. split; cbn; [|done|by apply splice_bytes_ok]. rewrite length_splice by lia. done.
Qed.

(** Both ends are closed again. *)
Lemma wp_pipe_bad free v R k fl f0 f1 x0 x1 y0 y1 :
  table_ok (ksys k) -> nodes_ok v R (fsy (ksys k)) (u_cwd (kproc k)) (files (ksys k)) ->
  pipes_ok free (ptab (ksys k)) (pages (ksys k)) (files (ksys k)) -> uproc_ok (kproc k) -> fds_ok fl (u_ofile (kproc k)) ->
  files (ksys k) = <[f1 := y1]> (<[f0 := y0]> fl) -> f0 <> f1 -> fl !! f0 = Some x0 -> fl !! f1 = Some x1 ->
  unused x0 -> unused x1 -> f_ref y0 = 1 -> f_ref y1 = 1 -> f_type y0 = FD_PIPE -> f_type y1 = FD_PIPE ->
  wp (onfile (fileclose f0) ;;; onfile (fileclose f1) ;;; ret (-1)) (fun r k' => r = -1 /\
    (exists free' v' R', kinv free' v' R' k' /\ same_or_committed v v') /\ kept_fs (ksys k) (ksys k') /\ kproc k' = kproc k) k.
Proof.
  intros Ht Hn Hp Hu Hfd Ef Hne Hx0 Hx1 Hu0 Hu1 Hr0 Hr1 Ht0 Ht1. unfold unused in *.
  pose proof (lookup_lt_Some _ _ _ Hx0). pose proof (lookup_lt_Some _ _ _ Hx1).
  assert (Hl0 : files (ksys k) !! f0 = Some y0) by (rewrite Ef, list_lookup_insert_ne by done; by apply list_lookup_insert_eq).
  assert (Hl1 : files (ksys k) !! f1 = Some y1) by (rewrite Ef; apply list_lookup_insert_eq; by rewrite length_insert).
  apply wp_bind, wp_onfile. eapply wp_fileclose; [done|done|done|exact Hl0|unfold live; lia|by rewrite Ht0|].
  intros s1 free1 v1 R1 T1 E1 N1 P1 [F1 F1'] C1. apply wp_bind, wp_onfile. cbn [ksys set_ksys].
  eapply (wp_fileclose s1); [done|exact N1|done|rewrite E1, list_lookup_insert_ne by done; exact Hl1|unfold live; lia|by rewrite Ht1|].
  intros s2 free2 v2 R2 T2 E2 N2 P2 [F2 F2'] C2. apply wp_ret. split_and!; [done| |split; cbn; congruence|done].
  exists free2, v2, R2. split; [|by eapply same_or_committed_trans]. split; cbn; try done.
  assert (Efin : files s2 = <[f1 := dropped y1]> (<[f0 := dropped y0]> fl)).
  { rewrite E2, E1, Ef. rewrite (list_insert_insert_ne _ f0 f1) by done. by rewrite !list_insert_insert_eq. }
  assert (Hz : forall y, f_ref y = 1 -> f_ref (dropped y) = 0) by (intros y Hy; by rewrite dropped_last).
  rewrite Efin. eapply (fds_noop _ _ f1 x1); [|by rewrite list_lookup_insert_ne|rewrite Hz by done; lia|unfold live; rewrite Hz by done; lia].
  eapply (fds_noop _ _ f0 x0); [done|done|rewrite Hz by done; lia|unfold live; rewrite Hz by done; lia].
Qed.

(** What pipe() does to the process. *)
Inductive pipe_result k (r : Z) k' : Prop :=
  | PipeOk a p fd0 fd1 f0 f1 y0 y1 :
      arg_block (kproc k) 0 8 = Some a -> r = 0 -> first_fd (u_ofile (kproc k)) = Some fd0 -> fd0 <> fd1 -> f0 <> f1 ->
      u_ofile (kproc k') = <[fd1 := Some f1]> (<[fd0 := Some f0]> (u_ofile (kproc k))) ->
      files (ksys k') !! f0 = Some y0 -> files (ksys k') !! f1 = Some y1 -> f_pipe y0 = p -> f_pipe y1 = p ->
      f_readable y0 = true -> f_writable y0 = false -> f_readable y1 = false -> f_writable y1 = true ->
      get_u32 (Z.to_nat a) (u_mem (kproc k')) = Z.of_nat fd0 -> get_u32 (Z.to_nat (a + 4)) (u_mem (kproc k')) = Z.of_nat fd1 ->
      pipe_result k r k'
  | PipeFail : r = -1 -> kproc k' = kproc k -> pipe_result k r k'.

Lemma get_u32_splice a (z : Z) d :
  0 <= z < 2 ^ 32 -> (a + 4 <= length d)%nat -> get_u32 a (splice a (le_of 4 z) d) = z.
Proof.
  intros Hz Ha. unfold get_le. pose proof (slice_splice_same a (le_of 4 z) d) as E. rewrite length_le_of in E.
  rewrite E by done. rewrite of_le_le_of. apply Z.mod_small. done.
Qed.

Lemma get_u32_other a b (d new : list Z) :
  (b + length new <= length d)%nat -> (a + 4 <= b \/ b + length new <= a)%nat -> get_u32 a (splice b new d) = get_u32 a d.
Proof. intros Hb Hab. unfold get_le. by rewrite slice_splice_other. Qed.

(** The two descriptors are stored. *)
Lemma wp_pipe_good free v R k k1 a f0 f1 x0 x1 y0 y1 fd0 fd1 :
  kinv free v R k1 -> uproc_ok (kproc k) -> kept_fs (ksys k) (ksys k1) -> arg_block (kproc k) 0 8 = Some a -> u_sz (kproc k1) = u_sz (kproc k) ->
  first_fd (u_ofile (kproc k)) = Some fd0 -> fd0 <> fd1 -> f0 <> f1 -> (fd0 < NOFILE)%nat -> (fd1 < NOFILE)%nat ->
  u_ofile (kproc k1) = <[fd1 := Some f1]> (<[fd0 := Some f0]> (u_ofile (kproc k))) ->
  files (ksys k1) !! f0 = Some y0 -> files (ksys k1) !! f1 = Some y1 ->
  y0 = new_end false (f_pipe y0) x0 -> y1 = new_end true (f_pipe y0) x1 ->
  wp (store_bytes a (le_of 4 (Z.of_nat fd0)) ;;; store_bytes (a + 4) (le_of 4 (Z.of_nat fd1)) ;;; ret 0)
    (fun r k' => (exists free' v' R', kinv free' v' R' k' /\ same_or_committed v v') /\ steady k k' /\ pipe_result k r k') k1.
Proof.
  intros Hk Hku HF Ha Esz Efd0 Hfne Hne Hb0 Hb1 Eof Hy0 Hy1 Ey0 Ey1. pose proof (ki_proc _ _ _ _ Hk) as Hu. unfold NOFILE in Hb0, Hb1.
  assert (Har : 0 <= a /\ a + 8 <= u_sz (kproc k1)).
  { rewrite Esz. unfold arg_block in Ha. destruct (arg_word (kproc k) 0) as [w|] eqn:Ew; cbn [mbind option_bind] in Ha; [|done].
    destruct (_ && _ && _) eqn:E; [|done]. injection Ha as <-.
    pose proof (arg_word_range _ _ _ Hku Ew). lia. }
  destruct Har as [Ha0 Ha8]. pose proof (uo_len _ Hu) as Hlen.
  apply wp_bind, wp_store_bytes; [done|done|rewrite length_le_of; lia|].
  set (u1 := set_u_mem _ (kproc k1)). assert (Hu1 : uproc_ok u1) by (apply uproc_ok_store; [done|apply le_of_bytes_ok|done|rewrite length_le_of; lia]).
  pose proof (uo_len _ Hu1) as Hlen1. cbn [u_sz u1 set_u_mem] in Hlen1.
  apply wp_bind, wp_store_bytes; [done|lia|rewrite length_le_of; cbn; lia|]. apply wp_ret. cbn [kproc set_kproc].
  assert (Hu2 : uproc_ok (set_u_mem (splice (Z.to_nat (a + 4)) (le_of 4 (Z.of_nat fd1)) (u_mem u1)) u1))
    by (apply uproc_ok_store; [done|apply le_of_bytes_ok|lia|rewrite length_le_of; cbn; lia]).
  split; [|split; [done|]].
  - exists free, v, R. split; [|by left]. destruct Hk. by split.
  - eapply (PipeOk k 0 _ a (f_pipe y0) fd0 fd1 f0 f1 y0 y1); try done; try (by rewrite Ey0); try (by rewrite Ey1);
      cbn [kproc set_kproc u_mem set_u_mem].
    + rewrite get_u32_other by (rewrite length_le_of; lia). cbn [u1 u_mem set_u_mem]. apply get_u32_splice; lia.
    + apply get_u32_splice; lia.
Qed.

Lemma nodes_two_pipes v R t t' c fl f0 f1 x0 x1 y0 y1 :
  nodes_ok v R t c fl -> t' = t -> fl !! f0 = Some x0 -> fl !! f1 = Some x1 -> f0 <> f1 ->
  f_type x0 <> FD_INODE -> f_type x1 <> FD_INODE -> f_type y0 <> FD_INODE -> f_type y1 <> FD_INODE ->
  nodes_ok v R t' c (<[f1 := y1]> (<[f0 := y0]> fl)).
Proof.
  intros Hn -> H0' H1' Hne X0 X1 Y0 Y1. split; try apply Hn. eapply (counted_same _ _ _ _ f1 x1).
  - eapply (counted_same _ _ _ _ f0 x0); [apply Hn|done| |done]. intros j. by rewrite !opens_not by (by right).
  - by rewrite list_lookup_insert_ne.
  - intros j. by rewrite !opens_not by (by right).
  - done.
Qed.

Lemma wp_sys_pipe free v R k :
  kinv free v R k ->
  wp sys_pipe (fun r k' => (exists free' v' R', kinv free' v' R' k' /\ same_or_committed v v') /\
    steady k k' /\ pipe_result k r k') k.
Proof.
  intros Hk. pose proof Hk as [Hu Ht Hfd Hn Hp]. pose proof (fd_len _ _ Hfd) as Hlen. unfold sys_pipe.
  apply wp_bind, wp_argptr; [done|lia|]. cbn [cur kern_proc]. destruct (arg_block (kproc k) 0 8) as [a|] eqn:Ea.
  2: { apply wp_ret. split; [exists free, v, R; split; [done|by left]|]. split; [done|by apply PipeFail]. }
  apply wp_bind, wp_onfile. eapply wp_mono; [eapply wp_pipealloc; [done|apply Hp]|].
  intros [[f0 f1]|] s (Ts & Efs & _ & Hr).
  2: { destruct Hr as (E1 & E2 & E3 & _). apply wp_ret. split; [|split; [split; [split|]; cbn; by rewrite ?Efs|by apply PipeFail]].
    exists free, v, R. split; [|by left]. split; cbn; rewrite ?E1, ?E2, ?Efs; try done. destruct Hp. by split. }
  destruct Hr as (p & x0 & x1 & pi & Ehd & Hkm & Hne & Hx0 & Hu0 & Hx1 & Hu1 & Efl & Ept & _ & Hro & Hwo & Hpl).
  destruct free as [|p' free]; [done|]. injection Ehd as ->. cbn [tail] in Hkm.
  change (set_f_pipe true false p (set_f_ref 1 x0)) with (new_end false p x0) in Efl.
  change (set_f_pipe false true p (set_f_ref 1 x1)) with (new_end true p x1) in Efl.
  pose proof (lookup_lt_Some _ _ _ Hx0). pose proof (lookup_lt_Some _ _ _ Hx1).
  assert (Hnone : forall f x, files (ksys k) !! f = Some x -> unused x -> f_type x <> FD_INODE).
  { intros f x Hf Hux. by rewrite (proj2 (Forall_lookup_1 _ _ _ _ (proj2 (proj2 Ht)) Hf) Hux). }
  assert (Hn1 : nodes_ok v R (fsy s) (u_cwd (kproc k)) (files s)).
  { rewrite Efl. eapply nodes_two_pipes; try done; [by eapply Hnone|by eapply Hnone]. }
  assert (Hp1 : pipes_ok free (ptab s) (pages s) (files s)) by (rewrite Efl, Ept; by eapply (pipes_new p free (ptab (ksys k)) (pages (ksys k)))).
  apply wp_bind, wp_fdalloc; [done|]. cbn [kproc set_ksys]. destruct (first_fd (u_ofile (kproc k))) as [fd0|] eqn:E0.
  2: { eapply wp_mono; [eapply (wp_pipe_bad free v R (set_ksys s k) (files (ksys k)) f0 f1); done|].
    intros r k' (-> & HK & [F1 F2] & Ek). cbn in F1, F2, Ek. rewrite Efs in F1, F2. split; [done|]. split; [by split; [split|rewrite Ek]|by apply PipeFail]. }
  apply wp_bind, wp_fdalloc; [cbn; by rewrite length_insert|]. cbn [kproc u_ofile set_ksys put_fd set_kproc set_u_ofile].
  apply first_fd_Some in E0 as E0'. pose proof (lookup_lt_Some _ _ _ E0') as Hb0.
  destruct (first_fd (<[fd0 := Some f0]> (u_ofile (kproc k)))) as [fd1|] eqn:E1.
  2: { apply wp_bind. unfold set_ofile. apply wp_modify.
    eapply wp_mono; [eapply (wp_pipe_bad free v R _ (files (ksys k)) f0 f1); try done; cbn|].
    - by eapply uproc_ok_same.
    - rewrite list_insert_insert_eq, list_insert_id by done. done.
    - intros r k' (-> & HK & [F1 F2] & Ek). cbn in F1, F2, Ek. rewrite Efs in F1, F2. split; [done|]. split; [by split; [split|rewrite Ek]|apply PipeFail; [done|]].
      rewrite Ek, list_insert_insert_eq, list_insert_id by done. by destruct (kproc k). }
  apply first_fd_Some in E1. pose proof (lookup_lt_Some _ _ _ E1) as Hb1. rewrite length_insert in Hb1.
  assert (Hfne : fd0 <> fd1) by (intros <-; by rewrite list_lookup_insert_eq in E1).
  eapply (wp_pipe_good free v R k _ a f0 f1 x0 x1 (new_end false p x0) (new_end true p x1) fd0 fd1); cbn; try done; try lia.
  - split; cbn; try done; [by eapply uproc_ok_same|]. rewrite Efl.
    eapply (fds_change _ _ f1 x1 _ fd1 None (Some f1)); [|by rewrite list_lookup_insert_ne|done|by left|by right| |done].
    + eapply (fds_change _ _ f0 x0 _ fd0 None (Some f0)); [done|done|done|by left|by right| |done].
      unfold fd_is, unused in *. rewrite bool_decide_false, bool_decide_true by done. cbn. lia.
    + unfold fd_is, unused in *. rewrite bool_decide_false, bool_decide_true by done. cbn. lia.
  - split; cbn; by rewrite Efs.
  - rewrite Efl, list_lookup_insert_ne by done. by apply list_lookup_insert_eq.
  - rewrite Efl. apply list_lookup_insert_eq. by rewrite length_insert.
Qed.

(** *** Any sequence of calls *)

Inductive fcall := Dup | Close | Open | Chdir | MkPipe.

Definition do_call (c : fcall) : M (kern S) Z :=
  match c with
  | Dup => sys_dup
  | Close => sys_close
  | Open => sys_open dev_read dev_write
  | Chdir => sys_chdir dev_read
  | MkPipe => sys_pipe
  end.

(** Between its calls the process does what it likes with its memory and its
    stack pointer. *)
Record ucall := mkucall { uc_call : fcall; uc_esp : Z; uc_mem : list Z }.

Definition enter (c : ucall) (u : uproc) : uproc :=
  mkuproc (u_sz u) (uc_esp c) (u_eax u) (uc_mem c) (u_ofile u) (u_cwd u) (u_pid u) (u_killed u) (u_alarmticks u) (u_alarmhandler u).

Fixpoint do_calls (l : list ucall) : M (kern S) (list Z) :=
  match l with
  | [] => ret []
  | c :: l =>
      modify (fun k => set_kproc (enter c (kproc k)) k) ;;;
      let* r := do_call (uc_call c) in
      let* rs := do_calls l in
      ret (r :: rs)
  end.

(** The memory has the size of the process, and open() is not asked to
    create a file. *)
Record ucall_ok (u : uproc) (c : ucall) : Prop := {
  uc_len : Z.of_nat (length (uc_mem c)) = u_sz u;
  uc_bytes : bytes_ok (uc_mem c);
  uc_open : uc_call c = Open -> forall w, arg_word (enter c u) 1 = Some w -> Z.land (s32 w) O_CREATE = 0;
}.

Lemma wp_do_call free v R k c :
  kinv free v R k -> roomy (fsy (ksys k)) ->
  (c = Open -> forall w, arg_word (kproc k) 1 = Some w -> Z.land (s32 w) O_CREATE = 0) ->
  wp (do_call c) (fun _ k' => (exists free' v' R', kinv free' v' R' k') /\ steady k k') k.
Proof.
  intros Hk Hroom Hopen. destruct (co_cwd _ _ _ _ (no_count _ _ _ _ _ (ki_nodes _ _ _ _ Hk))) as [jc Hjc]. destruct c; cbn [do_call].
  - eapply wp_mono; [by eapply wp_sys_dup|]. intros r k' (HK & F & _). eauto 10.
  - eapply wp_mono; [by eapply wp_sys_close|]. intros r k' ((? & ? & ? & HK & _) & F & _). eauto 10.
  - eapply wp_mono; [by eapply wp_sys_open; auto|]. intros r k' ((? & ? & HK & _) & F & _). eauto 10.
  - eapply wp_mono; [by eapply wp_sys_chdir|]. intros r k' ((? & ? & HK & _) & F & _). eauto 10.
  - eapply wp_mono; [by eapply wp_sys_pipe|]. intros r k' ((? & ? & ? & HK & _) & F & _). eauto 10.
Qed.

Lemma ucall_ok_sz u u' c : u_sz u' = u_sz u -> ucall_ok u c -> ucall_ok u' c.
Proof. intros E [L B O]. split; [by rewrite E|done|]. unfold arg_word in *. cbn in *. by rewrite E. Qed.



End accounts.
