(* ===== verification/SysfileExample.v ===== *)
(** The theorems of SysfileSpec.v at the file system of FsExample.v: a process
    in the root directory, with the file "hello" as descriptor 0. *)

From S2P Require Import Prelude Params Bytes CString Buf Memide Bio BioSpec Log LogSpec Tx Crash Ops Fs FsBlocks FsFile FsDir FsPath FsExample FsPathExample Kalloc Pipe File FileSpec FileExample Syscall Sysfile SysfileSpec.
#[local] Existing Instances Memide.memide_dev Memide.memide_laws.
#[local] Opaque dnode booted v0.

(** The stack is at 0, with the words [a] and [b] as arguments, and "/d//f" at
    32. *)
Definition umem (a b : Z) : list Z :=
  le_of 4 0 ++ le_of 4 a ++ le_of 4 b ++ replicate 20 0 ++ path0 ++ replicate 27 0.

Definition proc0 : uproc := mkuproc 64 0 0 (umem 32 2) (Some 0%nat :: replicate 15 None) 1 1 false 0 0.

Definition inodes0 : list inode := [y1; cwd0; no_inode; no_inode; no_inode; no_inode].

Definition kern0 : kern (logsys Memide.memide) :=
  mkkern (mkfilesys false (open_hello :: replicate 99 no_file) (mkfsys false inodes0 sb0 1 booted) ∅ ∅ one_page 1) proc0.

Definition R2 : gmap Z Z := {[1 := 1; 2 := 1]}.

Lemma refs_R2 j : refs R2 j = if decide (j = 1 \/ j = 2) then 1 else 0.
Proof.
  unfold refs, R2. destruct (decide (j = 1)) as [->|H1]; [done|]. destruct (decide (j = 2)) as [->|H2]; [done|].
  rewrite decide_False by lia. by rewrite lookup_insert_ne, lookup_singleton_ne by done.
Qed.

Lemma inodes0_slot i x :
  inodes0 !! i = Some x -> (i = 0%nat /\ x = y1) \/ (i = 1%nat /\ x = cwd0) \/ x = no_inode.
Proof. intros Hi. do 6 (destruct i as [|i]; [injection Hi as <-; auto|]). done. Qed.

Lemma kern0_cached b : viewed b v0 -> icached (set_blk b (fsy (ksys kern0))) v0 R2 None.
Proof.
  intros Hb. split; cbn [ic_lock blk inodes sb set_blk fsy ksys kern0 mypid]; [done|exact Hb| | | | | |done].
  - unfold R2. apply map_Forall_insert_2; [done|]. by apply map_Forall_singleton.
  - intros i x [[-> ->]|[[-> ->]| ->]]%inodes0_slot; rewrite decide_False by done; by split.
  - intros i x [[-> ->]|[[-> ->]| ->]]%inodes0_slot Hr; [| |done]; (split; [reflexivity|split; [by rewrite refs_R2|intros _; symmetry]]).
    + apply (dnode0 2). right. by left.
    + apply (dnode0 1). by left.
  - intros j. rewrite refs_R2. case_decide as Hj; [|done]. intros _. destruct Hj as [->| ->]; [exists 1%nat, cwd0|exists 0%nat, y1]; by split_and!.
  - intros i i' x x' [[-> ->]|[[-> ->]| ->]]%inodes0_slot [[-> ->]|[[-> ->]| ->]]%inodes0_slot Hr Hr'; done.
Qed.

Lemma files0 f x : files (ksys kern0) !! f = Some x -> (f = 0%nat /\ x = open_hello) \/ ((0 < f)%nat /\ x = no_file).
Proof.
  destruct f as [|f]; [intros [= <-]; by left|]. intros Hf. right. change (replicate 99 no_file !! f = Some x) in Hf.
  apply lookup_replicate in Hf as [-> _]. split; [lia|done].
Qed.

Lemma countb_replicate {A} (p : A -> bool) n x : p x = false -> countb p (replicate n x) = 0.
Proof. intros Hp. induction n as [|n IH]; cbn; [done|]. by rewrite Hp, IH. Qed.

Lemma kern0_inv : kinv G0 (fun _ => 0) (fun _ => 0) [0x80200000] v0 R2 kern0.
Proof.
  assert (Hmem : bytes_ok (umem 32 2)) by (unfold umem, bytes_ok; repeat apply Forall_app_2; try apply le_of_bytes_ok; repeat constructor; unfold byte_ok; lia).
  split.
  - split; [done|unfold KERNBASE; cbn; lia|exact Hmem].
  - exact fs1_table.
  - split; [done| | |].
    + intros i f Hi. destruct i as [|i]; [injection Hi as <-; cbn; lia|].
      change (replicate 15 None !! i = Some (Some f)) in Hi. apply lookup_replicate in Hi as [? _]. done.
    + intros f x Hf. cbn [kproc proc0 u_ofile kern0 countb]. rewrite countb_replicate by done.
      destruct (files0 f x Hf) as [[-> ->]|[Hf0 ->]]; [done|]. unfold fd_is. rewrite bool_decide_false by (intros [= <-]; lia). done.
    + intros f x [[-> ->]|[_ ->]]%files0; done.
  - split; [apply booted_idle|apply tree0|apply kern0_cached| |].
    + split.
      * intros j. rewrite refs_R2. cbn [files ksys kern0 countb]. rewrite countb_replicate by (by rewrite opens_not by (by right)).
        unfold opens_on. cbn. destruct (decide (j = 1)) as [->|H1]; [done|]. destruct (decide (j = 2)) as [->|H2]; [done|].
        rewrite decide_False by lia. rewrite (bool_decide_false (Some 1 = Some j)), (bool_decide_false (Some 2 = Some j)) by congruence. done.
      * exists 1, cwd0. by split_and!.
      * intros f x [[-> ->]|[_ ->]]%files0 _ Ht; [|done]. exists 2, y1. by split_and!.
    + intros j. rewrite refs_R2. case_decide as Hj; [|done]. intros _. unfold G0. lia.
  - split; [apply one_page_free| |].
    + intros f x [[-> ->]|[_ ->]]%files0 _ Ht; done.
    + intros f g x y [[-> ->]|[_ ->]]%files0 _ Ht; done.
Qed.

Lemma kern0_roomy : roomy [1; 2; 3] (fsy (ksys kern0)).
Proof. unfold roomy. cbn. lia. Qed.

Lemma G0_nodes j : G0 j -> j ∈ [1; 2; 3].
Proof. unfold G0. intros Hj. rewrite !elem_of_cons. lia. Qed.

Lemma umem_ok a b : Z.of_nat (length (umem a b)) = u_sz proc0 /\ bytes_ok (umem a b).
Proof.
  split; [done|]. unfold umem, bytes_ok. repeat apply Forall_app_2; try apply le_of_bytes_ok; repeat constructor; unfold byte_ok; lia.
Qed.

(** open("/d//f", O_RDWR), dup(1), pipe(40), chdir("/d//f"), close(0) twice *)
Definition calls0 : list ucall :=
  [mkucall Open 0 (umem 32 2); mkucall Dup 0 (umem 1 0); mkucall MkPipe 0 (umem 40 0); mkucall Chdir 0 (umem 32 0);
   mkucall Close 0 (umem 0 0); mkucall Close 0 (umem 0 0)].


