(* ===== verification/Spinlock.v ===== *)
(** spinlock.c: spin locks on a multiprocessor.

    Each CPU runs acquire() and release() one memory access at a time, and the
    accesses of different CPUs interleave in any order.  Between two calls a
    CPU may do anything, except that it leaves the lock words alone.
    getcallerpcs() and the pcs of a lock (debugging information) are left
    out. *)

From S2P Require Import Prelude Params.

(** ** proc.h: the part of struct cpu that the locks use; [fl_if] is FL_IF of
    the CPU's eflags. *)
Record cpu := mkcpu {
  ncli : Z;            (* depth of pushcli nesting *)
  intena : bool;       (* were interrupts enabled before pushcli? *)
  fl_if : bool;
}.

Record spinlock := mkspinlock {
  locked : Z;          (* is the lock held? *)
  lk_cpu : option nat; (* the cpu holding the lock *)
}.

Definition initlock : spinlock := mkspinlock 0 None.

Definition pushcli (c : cpu) : cpu :=
  mkcpu (ncli c + 1) (if ncli c =? 0 then fl_if c else intena c) false.

(** None is a panic: "popcli - interruptible" or "popcli". *)
Definition popcli (c : cpu) : option cpu :=
  if fl_if c then None
  else if ncli c - 1 <? 0 then None
  else Some (mkcpu (ncli c - 1) (intena c) (bool_decide (ncli c - 1 = 0) && intena c)).

(** Where a CPU is: outside, or before the access that the name says. *)
Inductive pc :=
  | Outside
  | AcqLocked (lk : nat)                 (* holding(): read lk->locked *)
  | AcqCpu (lk : nat) (l : Z)            (* holding(): read lk->cpu *)
  | Spin (lk : nat)                      (* xchg(&lk->locked, 1) *)
  | SetCpu (lk : nat)                    (* lk->cpu = mycpu() *)
  | RelLocked (lk : nat)
  | RelCpu (lk : nat) (l : Z)
  | ClearCpu (lk : nat)                  (* lk->cpu = 0 *)
  | Unlock (lk : nat)                    (* movl $0, lk->locked *)
  | Pop                                  (* popcli() at the end of release() *)
  | PanicAcquire                         (* panic("acquire") *)
  | PanicRelease.                        (* panic("release") *)

(** [held] lists the locks that the CPU has acquired and not released. *)
Record cpustate := mkcs {
  cs_cpu : cpu;
  cs_pc : pc;
  held : list nat;
}.

Record machine := mkmachine {
  cpus : nat -> cpustate;
  locks : nat -> spinlock;
}.

Definition upd {A} (f : nat -> A) (i : nat) (x : A) : nat -> A := fun j => if decide (i = j) then x else f j.

Definition set_cpu (m : machine) (c : nat) (x : cpustate) : machine := mkmachine (upd (cpus m) c x) (locks m).
Definition set_lock (m : machine) (lk : nat) (x : spinlock) : machine := mkmachine (cpus m) (upd (locks m) lk x).

(** holding(): lock->locked && lock->cpu == mycpu() *)
Definition holds_test (l : Z) (o : option nat) (c : nat) : bool := negb (l =? 0) && bool_decide (o = Some c).

(** Interrupts of a CPU that is outside, with no lock and no pushcli. *)
Inductive step : machine -> machine -> Prop :=
  | st_intr m c x b :
      cpus m c = x -> cs_pc x = Outside -> ncli (cs_cpu x) = 0 ->
      step m (set_cpu m c (mkcs (mkcpu (ncli (cs_cpu x)) (intena (cs_cpu x)) b) Outside (held x)))
  | st_acquire m c x lk :
      cpus m c = x -> cs_pc x = Outside ->
      step m (set_cpu m c (mkcs (pushcli (pushcli (cs_cpu x))) (AcqLocked lk) (held x)))
  | st_acq_locked m c x lk :
      cpus m c = x -> cs_pc x = AcqLocked lk ->
      step m (set_cpu m c (mkcs (cs_cpu x) (AcqCpu lk (locked (locks m lk))) (held x)))
  | st_acq_cpu m c x lk l k :
      cpus m c = x -> cs_pc x = AcqCpu lk l -> popcli (cs_cpu x) = Some k ->
      step m (set_cpu m c (mkcs k
        (if holds_test l (lk_cpu (locks m lk)) c then PanicAcquire else Spin lk) (held x)))
  | st_spin_busy m c x lk :
      cpus m c = x -> cs_pc x = Spin lk -> locked (locks m lk) <> 0 ->
      step m (set_lock m lk (mkspinlock 1 (lk_cpu (locks m lk))))
  | st_spin_free m c x lk :
      cpus m c = x -> cs_pc x = Spin lk -> locked (locks m lk) = 0 ->
      step m (set_lock (set_cpu m c (mkcs (cs_cpu x) (SetCpu lk) (held x))) lk
        (mkspinlock 1 (lk_cpu (locks m lk))))
  | st_set_cpu m c x lk :
      cpus m c = x -> cs_pc x = SetCpu lk ->
      step m (set_lock (set_cpu m c (mkcs (cs_cpu x) Outside (lk :: held x))) lk
        (mkspinlock (locked (locks m lk)) (Some c)))
  | st_release m c x lk :
      cpus m c = x -> cs_pc x = Outside ->
      step m (set_cpu m c (mkcs (pushcli (cs_cpu x)) (RelLocked lk) (held x)))
  | st_rel_locked m c x lk :
      cpus m c = x -> cs_pc x = RelLocked lk ->
      step m (set_cpu m c (mkcs (cs_cpu x) (RelCpu lk (locked (locks m lk))) (held x)))
  | st_rel_cpu m c x lk l k :
      cpus m c = x -> cs_pc x = RelCpu lk l -> popcli (cs_cpu x) = Some k ->
      step m (set_cpu m c (mkcs k
        (if holds_test l (lk_cpu (locks m lk)) c then ClearCpu lk else PanicRelease) (held x)))
  | st_clear_cpu m c x lk :
      cpus m c = x -> cs_pc x = ClearCpu lk ->
      step m (set_lock (set_cpu m c (mkcs (cs_cpu x) (Unlock lk) (held x))) lk
        (mkspinlock (locked (locks m lk)) None))
  | st_unlock m c x lk :
      cpus m c = x -> cs_pc x = Unlock lk ->
      step m (set_lock (set_cpu m c (mkcs (cs_cpu x) Pop (remove Nat.eq_dec lk (held x)))) lk
        (mkspinlock 0 (lk_cpu (locks m lk))))
  | st_pop m c x k :
      cpus m c = x -> cs_pc x = Pop -> popcli (cs_cpu x) = Some k ->
      step m (set_cpu m c (mkcs k Outside (held x))).

(** At boot: no lock is held and interrupts are off. *)
Definition boot (m : machine) : Prop :=
  (forall c, cpus m c = mkcs (mkcpu 0 false false) Outside []) /\ (forall lk, locks m lk = initlock).

Inductive reach : machine -> Prop :=
  | reach_boot m : boot m -> reach m
  | reach_step m m' : reach m -> step m m' -> reach m'.

(** The CPU is in its critical section for [lk]: acquire() has returned and
    release() has not yet stored 0. *)
Definition inside (m : machine) (c lk : nat) : Prop := lk ∈ held (cpus m c).

(** The lock word belongs to CPU [c]. *)
Definition owns (m : machine) (c lk : nat) : Prop := inside m c lk \/ cs_pc (cpus m c) = SetCpu lk.

(** pushcli() calls that the program counter stands for. *)
Definition pushes (p : pc) : Z :=
  match p with
  | Outside => 0
  | AcqLocked _ | AcqCpu _ _ => 2
  | Spin _ | SetCpu _ => 1
  | RelLocked _ | RelCpu _ _ => 1
  | ClearCpu _ | Unlock _ => 0
  | Pop => 1
  | PanicAcquire => 1
  | PanicRelease => 0
  end.

(** ** Invariant *)

(** lk->cpu names the owner while it is inside and has not cleared it. *)
Definition published (m : machine) (c lk : nat) : Prop := inside m c lk /\ cs_pc (cpus m c) <> Unlock lk.

Definition lock_inv (m : machine) (lk : nat) : Prop :=
  (locked (locks m lk) = 0 /\ lk_cpu (locks m lk) = None /\ forall c, ~ owns m c lk) \/
  (exists c, locked (locks m lk) = 1 /\ owns m c lk /\ (forall c', owns m c' lk -> c' = c) /\
     ((published m c lk /\ lk_cpu (locks m lk) = Some c) \/
      (~ published m c lk /\ lk_cpu (locks m lk) = None))).

Definition pc_inv (p : pc) (hd : list nat) : Prop :=
  match p with
  | AcqCpu lk l | RelCpu lk l => lk ∈ hd -> l <> 0
  | Spin lk | SetCpu lk => lk ∉ hd
  | ClearCpu lk | Unlock lk => lk ∈ hd
  | _ => True
  end.

Record cpu_inv (x : cpustate) : Prop := {
  ci_ncli : ncli (cs_cpu x) = Z.of_nat (length (held x)) + pushes (cs_pc x);
  ci_if : 0 < ncli (cs_cpu x) -> fl_if (cs_cpu x) = false;
  ci_nodup : NoDup (held x);
  ci_pc : pc_inv (cs_pc x) (held x);
}.

Definition inv (m : machine) : Prop := (forall c, cpu_inv (cpus m c)) /\ (forall lk, lock_inv m lk).

Lemma upd_at {A} (f : nat -> A) i x : upd f i x i = x.
Proof. unfold upd. by rewrite decide_True. Qed.

Lemma upd_ne {A} (f : nat -> A) i j x : i <> j -> upd f i x j = f j.
Proof. intros. unfold upd. by rewrite decide_False. Qed.

(** A lock is not affected by a step that neither touches its words nor moves
    a CPU into or out of it. *)
Lemma lock_inv_frame m m' lk :
  locks m' lk = locks m lk -> (forall c, owns m' c lk <-> owns m c lk) ->
  (forall c, published m' c lk <-> published m c lk) -> lock_inv m lk -> lock_inv m' lk.
Proof.
  intros Hl Ho Hp [(H1&H2&H3)|(c&H1&H2&H3&H4)]; unfold lock_inv; rewrite Hl; [left|right].
  - split; [done|]. split; [done|]. intros c Hc. by eapply H3, Ho.
  - exists c. split; [done|]. split; [by apply Ho|]. split; [intros c' Hc'; by apply H3, Ho|].
    rewrite Hp. done.
Qed.

Lemma owns_other m c x lk c' : c <> c' -> owns (set_cpu m c x) c' lk <-> owns m c' lk.
Proof. intros Hne. unfold owns, inside, set_cpu. cbn. by rewrite upd_ne. Qed.

Lemma published_other m c x lk c' : c <> c' -> published (set_cpu m c x) c' lk <-> published m c' lk.
Proof. intros Hne. unfold published, inside, set_cpu. cbn. by rewrite upd_ne. Qed.

Definition local_pc (p : pc) : Prop := match p with SetCpu _ | Unlock _ => False | _ => True end.

Lemma lock_inv_local m c k p :
  local_pc (cs_pc (cpus m c)) -> local_pc p ->
  (forall lk, lock_inv m lk) -> forall lk, lock_inv (set_cpu m c (mkcs k p (held (cpus m c)))) lk.
Proof.
  intros H1 H2 Hi lk. apply (lock_inv_frame m); [done| | |apply Hi]; intros c'; destruct (decide (c = c')) as [<-|Hne].
  - unfold owns, inside, set_cpu. cbn. rewrite upd_at. cbn.
    split; intros [?|E]; [by left|by rewrite E in H2|by left|by rewrite E in H1].
  - by apply owns_other.
  - unfold published, inside, set_cpu. cbn. rewrite upd_at. cbn.
    split; intros [? _]; (split; [done|]); intros E; [by rewrite E in H1|by rewrite E in H2].
  - by apply published_other.
Qed.

Lemma cpu_inv_set m c x : (forall c, cpu_inv (cpus m c)) -> cpu_inv x -> forall c', cpu_inv (cpus (set_cpu m c x) c').
Proof. intros Ha Hx c'. unfold set_cpu. cbn. unfold upd. case_decide; auto. Qed.

Lemma popcli_some c k :
  popcli c = Some k -> fl_if c = false /\ 1 <= ncli c /\ ncli k = ncli c - 1 /\ (0 < ncli k -> fl_if k = false).
Proof.
  unfold popcli. destruct (fl_if c) eqn:Hf; [done|]. destruct (Z.ltb_spec (ncli c - 1) 0); [done|].
  intros [= <-]. cbn. split; [done|]. split; [lia|]. split; [done|]. intros Hk.
  rewrite bool_decide_false by lia. done.
Qed.

Lemma locked_owned m c lk : inv m -> owns m c lk -> locked (locks m lk) <> 0.
Proof.
  intros [_ Hl] Ho. destruct (Hl lk) as [(_&_&H3)|(c'&H1&_)]; [by apply H3 in Ho|]. rewrite H1. done.
Qed.

(** holding() is right, although it reads the two words one after the other
    without the lock. *)
Lemma holds_test_spec m c lk l :
  inv m -> (lk ∈ held (cpus m c) -> l <> 0) -> cs_pc (cpus m c) <> Unlock lk -> cs_pc (cpus m c) <> SetCpu lk ->
  holds_test l (lk_cpu (locks m lk)) c = true <-> inside m c lk.
Proof.
  intros [Hc Hl] Hnz Hpc Hps. unfold holds_test. rewrite andb_true_iff, negb_true_iff, Z.eqb_neq, bool_decide_eq_true.
  split.
  - intros [_ Hcpu]. destruct (Hl lk) as [(_&E&_)|(c'&_&_&_&[[[Hin _] E]|[_ E]])]; congruence.
  - intros Hin. split; [by apply Hnz|].
    assert (owns m c lk) as Ho by (by left).
    destruct (Hl lk) as [(_&_&H3)|(c'&_&_&H3&H4)]; [by apply H3 in Ho|]. rewrite <- (H3 c Ho) in H4.
    destruct H4 as [[_ E]|[Hn _]]; [done|]. exfalso. by apply Hn.
Qed.

Lemma elem_of_remove lk (l : list nat) x : x ∈ remove Nat.eq_dec lk l <-> x ∈ l /\ x <> lk.
Proof.
  induction l as [|y l IH]; cbn; [set_solver|]. destruct (Nat.eq_dec lk y) as [->|Hne]; rewrite ?elem_of_cons, IH; naive_solver.
Qed.

Lemma remove_nodup lk (l : list nat) :
  NoDup l -> lk ∈ l -> NoDup (remove Nat.eq_dec lk l) /\ length (remove Nat.eq_dec lk l) = (length l - 1)%nat.
Proof.
  intros Hnd. induction Hnd as [|y l Hy Hnd IH]; [by intros ?%elem_of_nil|].
  cbn. destruct (Nat.eq_dec lk y) as [->|Hne].
  - intros _. rewrite notin_remove by (by rewrite <- list_elem_of_In). split; [done|lia].
  - intros [?|Hin]%elem_of_cons; [congruence|]. destruct (IH Hin) as [H1 H2]. split.
    + constructor; [|done]. rewrite elem_of_remove. tauto.
    + cbn. rewrite H2. destruct l; [by apply elem_of_nil in Hin|cbn; lia].
Qed.

(** Steps that touch the words of [lk]: the other locks are as before. *)
Lemma lock_inv_other m c x lk w lk' :
  lk <> lk' -> (lk' ∈ held x <-> lk' ∈ held (cpus m c)) ->
  (cs_pc x = SetCpu lk' <-> cs_pc (cpus m c) = SetCpu lk') ->
  (cs_pc x = Unlock lk' <-> cs_pc (cpus m c) = Unlock lk') ->
  lock_inv m lk' -> lock_inv (set_lock (set_cpu m c x) lk w) lk'.
Proof.
  intros Hne Hh Hs Hu. apply lock_inv_frame.
  - unfold set_lock, set_cpu. cbn. by rewrite upd_ne.
  - intros c'. destruct (decide (c = c')) as [<-|Hc].
    + unfold owns, inside. cbn. rewrite upd_at. tauto.
    + unfold owns, inside. cbn. by rewrite upd_ne.
  - intros c'. destruct (decide (c = c')) as [<-|Hc].
    + unfold published, inside. cbn. rewrite upd_at. tauto.
    + unfold published, inside. cbn. by rewrite upd_ne.
Qed.

Lemma owner_unique m c lk :
  lock_inv m lk -> owns m c lk ->
  locked (locks m lk) = 1 /\ (forall c', owns m c' lk -> c' = c) /\
  ((published m c lk /\ lk_cpu (locks m lk) = Some c) \/ (~ published m c lk /\ lk_cpu (locks m lk) = None)).
Proof.
  intros [(_&_&H3)|(c'&H1&H2&H3&H4)] Ho; [by apply H3 in Ho|]. pose proof (H3 c Ho) as <-. done.
Qed.

(** The lock itself, when its owner [c] changes it. *)
Lemma lock_inv_owner m c x lk w :
  lock_inv m lk -> (forall c', owns m c' lk -> c' = c) ->
  locked w = 1 -> (lk ∈ held x \/ cs_pc x = SetCpu lk) ->
  ((lk ∈ held x /\ cs_pc x <> Unlock lk) /\ lk_cpu w = Some c \/
   (~ (lk ∈ held x /\ cs_pc x <> Unlock lk)) /\ lk_cpu w = None) ->
  lock_inv (set_lock (set_cpu m c x) lk w) lk.
Proof.
  intros Hi Hu Hw Ho Hp. right. exists c. unfold owns, published, inside, set_lock, set_cpu. cbn.
  rewrite !upd_at. split; [done|]. split; [done|]. split; [|done].
  intros c' Hc'. destruct (decide (c = c')) as [|Hne]; [done|]. rewrite upd_ne in Hc' by done. by apply Hu.
Qed.

Lemma step_lock_free m c x lk w :
  (forall c', owns m c' lk -> c' = c) -> lk ∉ held x -> cs_pc x <> SetCpu lk ->
  locked w = 0 -> lk_cpu w = None -> lock_inv (set_lock (set_cpu m c x) lk w) lk.
Proof.
  intros Hu Hh Hp H1 H2. left. unfold owns, inside, set_lock, set_cpu. cbn. rewrite upd_at.
  split; [done|]. split; [done|]. intros c'. destruct (decide (c = c')) as [<-|Hne].
  - rewrite upd_at. tauto.
  - rewrite upd_ne by done. intros Ho. apply Hne. symmetry. by apply Hu.
Qed.

Lemma lock_step_inv m m' : inv m -> step m m' -> inv m'.
Proof.
  intros Hinv Hs. pose proof Hinv as [Hc Hl].
  destruct Hs as [m c x b Hx Hp Hn|m c x lk Hx Hp|m c x lk Hx Hp|m c x lk l k Hx Hp Hpop|m c x lk Hx Hp Hb
    |m c x lk Hx Hp Hb|m c x lk Hx Hp|m c x lk Hx Hp|m c x lk Hx Hp|m c x lk l k Hx Hp Hpop|m c x lk Hx Hp
    |m c x lk Hx Hp|m c x k Hx Hp Hpop]; subst x; pose proof (Hc c) as [HN HI HD HP]; rewrite Hp in HN, HP; cbn in HN, HP.
  - split; [|apply lock_inv_local; [by rewrite Hp|done|done]]. apply cpu_inv_set; [done|].
    constructor; cbn; [done|lia|done|done].
  - split; [|apply lock_inv_local; [by rewrite Hp|done|done]]. apply cpu_inv_set; [done|].
    constructor; cbn; [lia|done|done|done].
  - split; [|apply lock_inv_local; [by rewrite Hp|done|done]]. apply cpu_inv_set; [done|].
    constructor; cbn; [done|done|done|]. intros Hin. eapply (locked_owned m c); [done|by left].
  - apply popcli_some in Hpop as (P1&P2&P3&P4).
    assert (holds_test l (lk_cpu (locks m lk)) c = true <-> inside m c lk) as Ht
      by (apply holds_test_spec; [done|done|by rewrite Hp|by rewrite Hp]).
    split; [|apply lock_inv_local; [by rewrite Hp|by destruct (holds_test _ _ _)|done]]. apply cpu_inv_set; [done|].
    constructor; cbn; [|done|done|]; destruct (holds_test _ _ _) eqn:E; cbn; try lia; try done.
    intros Hin. by assert (false = true) by (by apply Ht).
  - split; [exact Hc|]. intros lk'. destruct (decide (lk = lk')) as [<-|Hne].
    + apply (lock_inv_frame m); [|done|done|done]. unfold set_lock. cbn. rewrite upd_at.
      destruct (Hl lk) as [(E&_)|(c'&E&_)]; [done|]. rewrite <- E. by destruct (locks m lk).
    + apply (lock_inv_frame m); [|done|done|done]. unfold set_lock. cbn. by rewrite upd_ne.
  - split; [apply cpu_inv_set; [done|]; constructor; cbn; [lia|done|done|done]|].
    intros lk'. destruct (decide (lk = lk')) as [<-|Hne].
    + destruct (Hl lk) as [(E1&E2&E3)|(c'&E1&_)]; [|congruence].
      apply lock_inv_owner; [done|intros c' Ho; by apply E3 in Ho|done|by right|]. right. cbn. tauto.
    + apply lock_inv_other; [done|done|rewrite Hp; cbn; split; congruence|by rewrite Hp|done].
  - destruct (owner_unique m c lk (Hl lk) ltac:(by right)) as (E1&E2&_).
    split; [apply cpu_inv_set; [done|]; constructor; cbn; [lia|done|by constructor|done]|].
    intros lk'. destruct (decide (lk = lk')) as [<-|Hne].
    + apply lock_inv_owner; [done|done|done|left; by left|]. left. cbn. split; [split; [by left|done]|done].
    + apply lock_inv_other; [done|cbn; rewrite elem_of_cons; naive_solver|rewrite Hp; cbn; split; congruence|by rewrite Hp|done].
  - split; [|apply lock_inv_local; [by rewrite Hp|done|done]]. apply cpu_inv_set; [done|].
    constructor; cbn; [lia|done|done|done].
  - split; [|apply lock_inv_local; [by rewrite Hp|done|done]]. apply cpu_inv_set; [done|].
    constructor; cbn; [done|done|done|]. intros Hin. eapply (locked_owned m c); [done|by left].
  - apply popcli_some in Hpop as (P1&P2&P3&P4).
    assert (holds_test l (lk_cpu (locks m lk)) c = true <-> inside m c lk) as Ht
      by (apply holds_test_spec; [done|done|by rewrite Hp|by rewrite Hp]).
    split; [|apply lock_inv_local; [by rewrite Hp|by destruct (holds_test _ _ _)|done]]. apply cpu_inv_set; [done|].
    constructor; cbn; [|done|done|]; destruct (holds_test _ _ _) eqn:E; cbn; try lia; try done.
    by apply Ht.
  - destruct (owner_unique m c lk (Hl lk) ltac:(by left)) as (E1&E2&_).
    split; [apply cpu_inv_set; [done|]; by constructor|].
    intros lk'. destruct (decide (lk = lk')) as [<-|Hne].
    + apply lock_inv_owner; [done|done|done|by left|]. right. cbn. split; [|done]. by intros [_ ?].
    + apply lock_inv_other; [done|done|by rewrite Hp|rewrite Hp; cbn; split; congruence|done].
  - destruct (owner_unique m c lk (Hl lk) ltac:(by left)) as (E1&E2&[[[_ E3] _]|[_ E3]]); [by rewrite Hp in E3|].
    destruct (remove_nodup lk _ HD HP) as [R1 R2].
    split; [apply cpu_inv_set; [done|]; constructor; cbn; [|done|done|done]|].
    { rewrite R2. destruct (held (cpus m c)); [by apply elem_of_nil in HP|cbn in *; lia]. }
    intros lk'. destruct (decide (lk = lk')) as [<-|Hne].
    + apply step_lock_free; [done| |done|done|done]. cbn. rewrite elem_of_remove. tauto.
    + apply lock_inv_other; [done|cbn; rewrite elem_of_remove; naive_solver|by rewrite Hp|rewrite Hp; cbn; split; congruence|done].
  - apply popcli_some in Hpop as (P1&P2&P3&P4).
    split; [|apply lock_inv_local; [by rewrite Hp|done|done]]. apply cpu_inv_set; [done|].
    constructor; cbn; [lia|done|done|done].
Qed.

Lemma reach_inv m : reach m -> inv m.
Proof.
  induction 1 as [m [Hb1 Hb2]|m m' Hr IH Hs]; [|by eapply lock_step_inv]. split.
  - intros c. rewrite Hb1. constructor; cbn; [done|done|constructor|done].
  - intros lk. left. rewrite Hb2. cbn. split; [done|]. split; [done|]. intros c. unfold owns, inside.
    rewrite Hb1. cbn. intros [?%elem_of_nil|?]; done.
Qed.

(** C18: mutual exclusion: whatever way the memory accesses of the CPUs
    interleave, two CPUs are never inside the critical section of one lock,
    and a CPU that is inside some lock runs with interrupts off. *)
Theorem mutual_exclusion m c c' lk :
  reach m -> inside m c lk -> inside m c' lk -> c = c' /\ fl_if (cs_cpu (cpus m c)) = false.
Proof.
  intros Hr Hc Hc'. destruct (reach_inv m Hr) as [Hci Hl]. split.
  - destruct (owner_unique m c' lk (Hl lk) ltac:(by left)) as (_&Hu&_). apply Hu. by left.
  - destruct (Hci c) as [HN HI _ _]. apply HI. rewrite HN. unfold inside in Hc.
    destruct (held (cpus m c)); [by apply elem_of_nil in Hc|]. destruct (cs_pc (cpus m c)); cbn; lia.
Qed.

(** acquire() panics exactly when its CPU holds the lock already and
    release() exactly when it does not, although holding() reads the lock
    without holding it; and the popcli() calls never panic. *)
Theorem holding_exact m c lk l :
  reach m ->
  (cs_pc (cpus m c) = AcqCpu lk l \/ cs_pc (cpus m c) = RelCpu lk l ->
     (holds_test l (lk_cpu (locks m lk)) c = true <-> inside m c lk)) /\
  (cs_pc (cpus m c) = AcqCpu lk l \/ cs_pc (cpus m c) = RelCpu lk l \/ cs_pc (cpus m c) = Pop ->
     is_Some (popcli (cs_cpu (cpus m c)))).
Proof.
  intros Hr. pose proof (reach_inv m Hr) as Hinv. pose proof Hinv as [Hci _]. destruct (Hci c) as [HN HI _ HP]. split.
  - intros Hp. apply holds_test_spec; [done|..]; destruct Hp as [Hp|Hp]; rewrite Hp in *; done.
  - intros Hp. assert (1 <= ncli (cs_cpu (cpus m c))) as Hge.
    { rewrite HN. destruct Hp as [Hp|[Hp|Hp]]; rewrite Hp; cbn; lia. }
    unfold popcli. rewrite HI by lia. rewrite (proj2 (Z.ltb_ge _ _)) by lia. by eexists.
Qed.

(** pushcli() and popcli() are matched: after the outermost popcli()
    interrupts are what they were before the first pushcli(). *)
Fixpoint pushes_pops (n : nat) (c : cpu) : option cpu :=
  match n with O => Some c | S n => c' ← pushes_pops n (pushcli c); popcli c' end.

Lemma pushes_pops_inside n : forall c, 0 < ncli c -> fl_if c = false -> pushes_pops n c = Some c.
Proof.
  induction n as [|n IH]; intros c Hn Hf; cbn; [done|]. rewrite IH by (cbn; lia || done). cbn. unfold popcli. cbn.
  rewrite (proj2 (Z.ltb_ge _ _)) by lia. rewrite bool_decide_false by lia. rewrite (proj2 (Z.eqb_neq _ _)) by lia.
  rewrite Z.add_simpl_r. destruct c. cbn in *. by subst.
Qed.

(** n matched pairs of pushcli() and popcli(), started outside any lock,
    give back the nesting depth and the interrupt flag they found. *)
Theorem pushcli_popcli n c :
  ncli c = 0 ->
  exists c', pushes_pops n c = Some c' /\ ncli c' = 0 /\ fl_if c' = fl_if c.
Proof.
  intros Hn. destruct n as [|n]; cbn; [by exists c|].
  rewrite pushes_pops_inside by (cbn; lia || done). cbn. unfold popcli. cbn. rewrite Hn. cbn.
  eexists. split; [done|]. done.
Qed.

Module Example.

Definition m0 : machine := mkmachine (fun _ => mkcs (mkcpu 0 false false) Outside []) (fun _ => initlock).
Definition cpu1 : cpu := mkcpu 1 false false.
Definition m1 : machine := set_cpu m0 0 (mkcs (pushcli (pushcli (mkcpu 0 false false))) (AcqLocked 0) []).
Definition m2 : machine := set_cpu m1 0 (mkcs (pushcli (pushcli (mkcpu 0 false false))) (AcqCpu 0 0) []).
Definition m3 : machine := set_cpu m2 0 (mkcs cpu1 (Spin 0) []).
Definition m4 : machine := set_lock (set_cpu m3 0 (mkcs cpu1 (SetCpu 0) [])) 0 (mkspinlock 1 None).
Definition m5 : machine := set_lock (set_cpu m4 0 (mkcs cpu1 Outside [0%nat])) 0 (mkspinlock 1 (Some 0%nat)).

Lemma m2_reach : reach m2.
Proof.
  apply (reach_step m1 m2); [|exact (st_acq_locked m1 0 _ 0 eq_refl eq_refl)].
  apply (reach_step m0 m1); [|exact (st_acquire m0 0 _ 0 eq_refl eq_refl)].
  by apply reach_boot.
Qed.

Lemma m5_reach : reach m5.
Proof.
  apply (reach_step m4 m5); [|exact (st_set_cpu m4 0 _ 0 eq_refl eq_refl)].
  apply (reach_step m3 m4); [|exact (st_spin_free m3 0 _ 0 eq_refl eq_refl eq_refl)].
  apply (reach_step m2 m3); [exact m2_reach|exact (st_acq_cpu m2 0 _ 0 0 cpu1 eq_refl eq_refl eq_refl)].
Qed.

Lemma mutual_exclusion_witness :
  inside m5 0 0 /\ 0%nat = 0%nat /\ fl_if (cs_cpu (cpus m5 0%nat)) = false.
Proof.
  assert (inside m5 0 0) as Hin by (unfold inside; cbn; left).
  split; [exact Hin|]. exact (mutual_exclusion m5 0 0 0 m5_reach Hin Hin).
Defined.

Lemma holding_exact_witness :
  (cs_pc (cpus m2 0%nat) = AcqCpu 0 0 \/ cs_pc (cpus m2 0%nat) = RelCpu 0 0 ->
     (holds_test 0 (lk_cpu (locks m2 0%nat)) 0 = true <-> inside m2 0 0)) /\
  (cs_pc (cpus m2 0%nat) = AcqCpu 0 0 \/ cs_pc (cpus m2 0%nat) = RelCpu 0 0 \/ cs_pc (cpus m2 0%nat) = Pop ->
     is_Some (popcli (cs_cpu (cpus m2 0%nat)))).
Proof. exact (holding_exact m2 0 0 0 m2_reach). Defined.

Lemma pushcli_popcli_witness :
  exists c', pushes_pops 3 (mkcpu 0 false true) = Some c' /\ ncli c' = 0 /\ fl_if c' = true.
Proof. exact (pushcli_popcli 3 (mkcpu 0 false true) eq_refl). Defined.

End Example.
