(* ===== verification/Proc.v ===== *)
(** proc.c: the process table, process creation, exit, wait and the scheduler
    (and switchuvm(), switchkvm() of vm.c).

    A process is its index in ptable.proc.  The state is what one CPU works
    on: the table, the CPU itself, memory, and the open files and inodes of
    the layer below ([ProcFiles]).  swtch() has no counterpart as a function:
    an operation that calls sched() is cut there, into the part that runs up
    to the switch and the part that runs when the process is switched to
    again.  The trap frame and the context of a process are the bytes of its
    kernel stack.  procdump() and cpuid() are left out. *)

From S2P Require Import Prelude Params Bytes CString Kalloc Vm Spinlock.

Inductive procstate := UNUSED | EMBRYO | SLEEPING | RUNNABLE | RUNNING | ZOMBIE.

#[export] Instance procstate_eq_dec : EqDecision procstate.
Proof. solve_decision. Defined.

#[export] Instance chan_eq_dec : EqDecision chan.
Proof. solve_decision. Defined.

(** A sleep channel is an address: of a process, or of another object. *)
Inductive wchan := CProc (i : nat) | CObj (c : chan).

#[export] Instance wchan_eq_dec : EqDecision wchan.
Proof. solve_decision. Defined.

(** ** struct proc, and ptable with nextpid and initproc *)
Record proc := mkproc {
  p_sz : Z;
  p_pgdir : Z;
  p_kstack : Z;
  p_state : procstate;
  p_pid : Z;
  p_parent : option nat;
  p_tf : Z;
  p_context : Z;
  p_chan : option wchan;
  p_killed : bool;
  p_ofile : list (option nat);
  p_cwd : option nat;
  p_name : list Z;
  p_alarmticks : Z;
  p_alarmhandler : Z;
  p_tick_counts : Z;
}.

Definition set_p_sz (v : Z) (p : proc) : proc := mkproc v (p_pgdir p) (p_kstack p) (p_state p) (p_pid p) (p_parent p) (p_tf p) (p_context p) (p_chan p) (p_killed p) (p_ofile p) (p_cwd p) (p_name p) (p_alarmticks p) (p_alarmhandler p) (p_tick_counts p).
Definition set_p_pgdir (v : Z) (p : proc) : proc := mkproc (p_sz p) v (p_kstack p) (p_state p) (p_pid p) (p_parent p) (p_tf p) (p_context p) (p_chan p) (p_killed p) (p_ofile p) (p_cwd p) (p_name p) (p_alarmticks p) (p_alarmhandler p) (p_tick_counts p).
Definition set_p_kstack (v : Z) (p : proc) : proc := mkproc (p_sz p) (p_pgdir p) v (p_state p) (p_pid p) (p_parent p) (p_tf p) (p_context p) (p_chan p) (p_killed p) (p_ofile p) (p_cwd p) (p_name p) (p_alarmticks p) (p_alarmhandler p) (p_tick_counts p).
Definition set_p_state (v : procstate) (p : proc) : proc := mkproc (p_sz p) (p_pgdir p) (p_kstack p) v (p_pid p) (p_parent p) (p_tf p) (p_context p) (p_chan p) (p_killed p) (p_ofile p) (p_cwd p) (p_name p) (p_alarmticks p) (p_alarmhandler p) (p_tick_counts p).
Definition set_p_pid (v : Z) (p : proc) : proc := mkproc (p_sz p) (p_pgdir p) (p_kstack p) (p_state p) v (p_parent p) (p_tf p) (p_context p) (p_chan p) (p_killed p) (p_ofile p) (p_cwd p) (p_name p) (p_alarmticks p) (p_alarmhandler p) (p_tick_counts p).
Definition set_p_parent (v : option nat) (p : proc) : proc := mkproc (p_sz p) (p_pgdir p) (p_kstack p) (p_state p) (p_pid p) v (p_tf p) (p_context p) (p_chan p) (p_killed p) (p_ofile p) (p_cwd p) (p_name p) (p_alarmticks p) (p_alarmhandler p) (p_tick_counts p).
Definition set_p_tf (v : Z) (p : proc) : proc := mkproc (p_sz p) (p_pgdir p) (p_kstack p) (p_state p) (p_pid p) (p_parent p) v (p_context p) (p_chan p) (p_killed p) (p_ofile p) (p_cwd p) (p_name p) (p_alarmticks p) (p_alarmhandler p) (p_tick_counts p).
Definition set_p_context (v : Z) (p : proc) : proc := mkproc (p_sz p) (p_pgdir p) (p_kstack p) (p_state p) (p_pid p) (p_parent p) (p_tf p) v (p_chan p) (p_killed p) (p_ofile p) (p_cwd p) (p_name p) (p_alarmticks p) (p_alarmhandler p) (p_tick_counts p).
Definition set_p_chan (v : option wchan) (p : proc) : proc := mkproc (p_sz p) (p_pgdir p) (p_kstack p) (p_state p) (p_pid p) (p_parent p) (p_tf p) (p_context p) v (p_killed p) (p_ofile p) (p_cwd p) (p_name p) (p_alarmticks p) (p_alarmhandler p) (p_tick_counts p).
Definition set_p_killed (v : bool) (p : proc) : proc := mkproc (p_sz p) (p_pgdir p) (p_kstack p) (p_state p) (p_pid p) (p_parent p) (p_tf p) (p_context p) (p_chan p) v (p_ofile p) (p_cwd p) (p_name p) (p_alarmticks p) (p_alarmhandler p) (p_tick_counts p).
Definition set_p_ofile (v : list (option nat)) (p : proc) : proc := mkproc (p_sz p) (p_pgdir p) (p_kstack p) (p_state p) (p_pid p) (p_parent p) (p_tf p) (p_context p) (p_chan p) (p_killed p) v (p_cwd p) (p_name p) (p_alarmticks p) (p_alarmhandler p) (p_tick_counts p).
Definition set_p_cwd (v : option nat) (p : proc) : proc := mkproc (p_sz p) (p_pgdir p) (p_kstack p) (p_state p) (p_pid p) (p_parent p) (p_tf p) (p_context p) (p_chan p) (p_killed p) (p_ofile p) v (p_name p) (p_alarmticks p) (p_alarmhandler p) (p_tick_counts p).
Definition set_p_name (v : list Z) (p : proc) : proc := mkproc (p_sz p) (p_pgdir p) (p_kstack p) (p_state p) (p_pid p) (p_parent p) (p_tf p) (p_context p) (p_chan p) (p_killed p) (p_ofile p) (p_cwd p) v (p_alarmticks p) (p_alarmhandler p) (p_tick_counts p).
Definition set_p_alarmticks (v : Z) (p : proc) : proc := mkproc (p_sz p) (p_pgdir p) (p_kstack p) (p_state p) (p_pid p) (p_parent p) (p_tf p) (p_context p) (p_chan p) (p_killed p) (p_ofile p) (p_cwd p) (p_name p) v (p_alarmhandler p) (p_tick_counts p).
Definition set_p_alarmhandler (v : Z) (p : proc) : proc := mkproc (p_sz p) (p_pgdir p) (p_kstack p) (p_state p) (p_pid p) (p_parent p) (p_tf p) (p_context p) (p_chan p) (p_killed p) (p_ofile p) (p_cwd p) (p_name p) (p_alarmticks p) v (p_tick_counts p).
Definition set_p_tick_counts (v : Z) (p : proc) : proc := mkproc (p_sz p) (p_pgdir p) (p_kstack p) (p_state p) (p_pid p) (p_parent p) (p_tf p) (p_context p) (p_chan p) (p_killed p) (p_ofile p) (p_cwd p) (p_name p) (p_alarmticks p) (p_alarmhandler p) v.

Record ptab := mkptab {
  pt_lock : bool;
  procs : list proc;
  nextpid : Z;
  initproc : option nat;
}.

Definition set_pt_lock (v : bool) (s : ptab) : ptab := mkptab v (procs s) (nextpid s) (initproc s).
Definition set_procs (v : list proc) (s : ptab) : ptab := mkptab (pt_lock s) v (nextpid s) (initproc s).
Definition set_nextpid (v : Z) (s : ptab) : ptab := mkptab (pt_lock s) (procs s) v (initproc s).
Definition set_initproc (v : option nat) (s : ptab) : ptab := mkptab (pt_lock s) (procs s) (nextpid s) v.

(** The files and inodes that processes refer to.  [fl_close] reports the
    channels that it wakes up (pipeclose() does). *)
Class ProcFiles (F : Type) : Type := {
  fl_dup : nat -> M F nat;             (* filedup *)
  fl_close : nat -> M F (list wchan);  (* fileclose *)
  fl_idup : nat -> M F nat;            (* idup *)
  fl_iput : nat -> M F unit;           (* begin_op(); iput(); end_op() *)
  fl_root : M F nat;                   (* namei("/") *)
  fl_init : M F unit;                  (* iinit(ROOTDEV); initlog(ROOTDEV) *)
}.

Record kstate (F : Type) := mkks {
  pt : ptab;
  cur : option nat;   (* mycpu()->proc *)
  kcpu : cpu;
  cr3 : Z;
  esp0 : Z;           (* mycpu()->ts.esp0 *)
  first : bool;       (* the static variable of forkret() *)
  mm : mem;
  fl : F;
}.
Arguments mkks {F} _ _ _ _ _ _ _ _.
Arguments pt {F} _.
Arguments cur {F} _.
Arguments kcpu {F} _.
Arguments cr3 {F} _.
Arguments esp0 {F} _.
Arguments first {F} _.
Arguments mm {F} _.
Arguments fl {F} _.

Definition set_pt {F} (v : ptab) (s : kstate F) : kstate F := mkks v (cur s) (kcpu s) (cr3 s) (esp0 s) (first s) (mm s) (fl s).
Definition set_cur {F} (v : option nat) (s : kstate F) : kstate F := mkks (pt s) v (kcpu s) (cr3 s) (esp0 s) (first s) (mm s) (fl s).
Definition set_kcpu {F} (v : cpu) (s : kstate F) : kstate F := mkks (pt s) (cur s) v (cr3 s) (esp0 s) (first s) (mm s) (fl s).
Definition set_cr3 {F} (v : Z) (s : kstate F) : kstate F := mkks (pt s) (cur s) (kcpu s) v (esp0 s) (first s) (mm s) (fl s).
Definition set_esp0 {F} (v : Z) (s : kstate F) : kstate F := mkks (pt s) (cur s) (kcpu s) (cr3 s) v (first s) (mm s) (fl s).
Definition set_first {F} (v : bool) (s : kstate F) : kstate F := mkks (pt s) (cur s) (kcpu s) (cr3 s) (esp0 s) v (mm s) (fl s).
Definition set_mm {F} (v : mem) (s : kstate F) : kstate F := mkks (pt s) (cur s) (kcpu s) (cr3 s) (esp0 s) (first s) v (fl s).
Definition set_fl {F} (v : F) (s : kstate F) : kstate F := mkks (pt s) (cur s) (kcpu s) (cr3 s) (esp0 s) (first s) (mm s) v.

(** ** Trap frames (x86.h) and contexts (proc.h): offsets of fields *)
Definition sizeof_trapframe : Z := 76.
Definition TF_EAX : Z := 28.
Definition TF_ES : Z := 40.
Definition TF_DS : Z := 44.
Definition TF_EIP : Z := 56.
Definition TF_CS : Z := 60.
Definition TF_EFLAGS : Z := 64.
Definition TF_ESP : Z := 68.
Definition TF_SS : Z := 72.
Definition sizeof_context : Z := 20.
Definition CTX_EIP : Z := 16.

(** mmu.h *)
Definition SEG_UCODE : Z := 3.
Definition SEG_UDATA : Z := 4.
Definition DPL_USER : Z := 3.
Definition FL_IF : Z := 0x200.

(** [n] bytes at [a], within one page *)
Definition load_bytes (a n : Z) : M mem (list Z) :=
  let* d := get_page (PGROUNDDOWN a) in
  ret (slice (Z.to_nat (a mod PGSIZE)) (Z.to_nat n) d).

Definition store16 (a x : Z) : M mem unit := store_bytes a (le_of 2 x).

(** ** Scans of the table *)

(** for(p = &ptable.proc[k]; ...) if(p->state == st) ... *)
Fixpoint find_state (st : procstate) (l : list proc) (i : nat) : option nat :=
  match l with
  | [] => None
  | p :: l => if bool_decide (p_state p = st) then Some i else find_state st l (1 + i)
  end.

(** wakeup1(chan); None is the null pointer. *)
Definition wakeup1 (c : option wchan) (l : list proc) : list proc :=
  (fun p => if bool_decide (p_state p = SLEEPING) && bool_decide (p_chan p = c)
            then set_p_state RUNNABLE p else p) <$> l.

(** One iteration of the loop of exit() that passes children to init. *)
Definition reparent1 (c : nat) (init : option nat) (l : list proc) (i : nat) : list proc :=
  match l !! i with
  | Some p =>
      if bool_decide (p_parent p = Some c) then
        let l := <[i := set_p_parent init p]> l in
        if bool_decide (p_state p = ZOMBIE) then wakeup1 (CProc <$> init) l else l
      else l
  | None => l
  end.

Definition reparent (c : nat) (init : option nat) (l : list proc) : list proc :=
  foldl (reparent1 c init) l (seq 0 (length l)).

Section proc.
Context {F : Type} `{ProcFiles F} `{KernelImage}.

(** The addresses of trapret and forkret, kpgdir, and the bytes of initcode. *)
Context (trapret forkret_addr kpgdir : Z) (initcode : list Z).

Definition onmem {A} (m : M mem A) : M (kstate F) A := zoom mm set_mm m.
Definition onfiles {A} (m : M F A) : M (kstate F) A := zoom fl set_fl m.
Definition get_proc (i : nat) : M (kstate F) proc := fun s => from_some (procs (pt s) !! i) s.
Definition upd_procs (f : list proc -> list proc) : M (kstate F) unit :=
  modify (fun s => set_pt (set_procs (f (procs (pt s))) (pt s)) s).
Definition upd_proc (i : nat) (f : proc -> proc) : M (kstate F) unit :=
  let* p := get_proc i in
  upd_procs (insert i (f p)).

(** acquire(&ptable.lock) and release(&ptable.lock) *)
Definition pt_acquire : M (kstate F) unit :=
  modify (fun s => set_kcpu (pushcli (kcpu s)) s) ;;;
  acquire (fun s => pt_lock (pt s)) (fun v s => set_pt (set_pt_lock v (pt s)) s).
Definition pt_release : M (kstate F) unit :=
  release (fun s => pt_lock (pt s)) (fun v s => set_pt (set_pt_lock v (pt s)) s) ;;;
  let* c := gets kcpu in
  match popcli c with
  | Some c => modify (set_kcpu c)
  | None => panic "popcli"
  end.

(** myproc(), where it is dereferenced *)
Definition myproc : M (kstate F) nat :=
  let* c := gets cur in
  from_some c.

Definition pinit : M (kstate F) unit :=
  modify (fun s => set_pt (set_pt_lock false (pt s)) s).

(** ** Address space of the CPU (vm.c) *)

Definition switchkvm : M (kstate F) unit := modify (set_cr3 (V2P kpgdir)).

Definition switchuvm (i : nat) : M (kstate F) unit :=
  let* p := get_proc i in
  panic_if (p_kstack p =? 0) "switchuvm: no kstack" ;;;
  panic_if (p_pgdir p =? 0) "switchuvm: no pgdir" ;;;
  modify (set_esp0 (u32 (p_kstack p + KSTACKSIZE))) ;;;
  modify (set_cr3 (V2P (p_pgdir p))).

(** ** Creation *)

(** Until ptable.lock is released: an UNUSED slot becomes EMBRYO.  An
    increment of nextpid past the largest int is undefined. *)
Definition alloc_slot : M (kstate F) (option nat) :=
  pt_acquire ;;;
  let* l := gets (fun s => procs (pt s)) in
  match find_state UNUSED l 0 with
  | None => pt_release ;;; ret None
  | Some i =>
      upd_proc i (set_p_state EMBRYO) ;;;
      let* n := gets (fun s => nextpid (pt s)) in
      upd_proc i (set_p_pid n) ;;;
      (if n <? 2 ^ 31 - 1 then modify (fun s => set_pt (set_nextpid (n + 1) (pt s)) s)
       else fault "signed overflow") ;;;
      pt_release ;;;
      ret (Some i)
  end.

Definition allocproc : M (kstate F) (option nat) :=
  let* r := alloc_slot in
  match r with
  | None => ret None
  | Some i =>
      let* k := onmem kalloc in
      upd_proc i (set_p_kstack k) ;;;
      if k =? 0 then
        upd_proc i (set_p_state UNUSED) ;;;
        ret None
      else
        let sp := k + KSTACKSIZE - sizeof_trapframe in
        upd_proc i (set_p_tf sp) ;;;
        let sp := sp - 4 in
        onmem (store32 sp trapret) ;;;
        let sp := sp - sizeof_context in
        upd_proc i (set_p_context sp) ;;;
        onmem (store_bytes sp (replicate (Z.to_nat sizeof_context) 0)) ;;;
        onmem (store32 (sp + CTX_EIP) forkret_addr) ;;;
        ret (Some i)
  end.

Definition set_runnable (i : nat) : M (kstate F) unit :=
  pt_acquire ;;;
  upd_proc i (set_p_state RUNNABLE) ;;;
  pt_release.

(** safestrcpy(p->name, t, sizeof(p->name)) *)
Definition set_name (t : list Z) (p : proc) : proc :=
  set_p_name (splice 0 (safestrcpy (ptr_to t) 16) (p_name p)) p.

Definition userinit (name : list Z) : M (kstate F) unit :=
  let* r := allocproc in
  modify (fun s => set_pt (set_initproc r (pt s)) s) ;;;
  let* i := from_some r in
  let* d := onmem setupkvm in
  upd_proc i (set_p_pgdir d) ;;;
  panic_if (d =? 0) "userinit: out of memory?" ;;;
  onmem (inituvm d initcode (Z.of_nat (length initcode))) ;;;
  upd_proc i (set_p_sz PGSIZE) ;;;
  let* p := get_proc i in
  let tf := p_tf p in
  onmem (store_bytes tf (replicate (Z.to_nat sizeof_trapframe) 0)) ;;;
  onmem (store16 (tf + TF_CS) (Z.lor (Z.shiftl SEG_UCODE 3) DPL_USER)) ;;;
  onmem (store16 (tf + TF_DS) (Z.lor (Z.shiftl SEG_UDATA 3) DPL_USER)) ;;;
  let* ds := onmem (load_bytes (tf + TF_DS) 2) in
  onmem (store_bytes (tf + TF_ES) ds) ;;;
  onmem (store_bytes (tf + TF_SS) ds) ;;;
  onmem (store32 (tf + TF_EFLAGS) FL_IF) ;;;
  onmem (store32 (tf + TF_ESP) PGSIZE) ;;;
  onmem (store32 (tf + TF_EIP) 0) ;;;
  upd_proc i (set_name name) ;;;
  let* c := onfiles fl_root in
  upd_proc i (set_p_cwd (Some c)) ;;;
  set_runnable i.

(** [n] is an int. *)
Definition growproc (n : Z) : M (kstate F) Z :=
  let* c := myproc in
  let* p := get_proc c in
  let sz := p_sz p in
  let* r :=
    (if 0 <? n then
       let* sz := onmem (allocuvm (p_pgdir p) sz (u32 (sz + n))) in
       ret (if sz =? 0 then None else Some sz)
     else if n <? 0 then
       let* sz := onmem (deallocuvm (p_pgdir p) sz (u32 (sz + n))) in
       ret (if sz =? 0 then None else Some sz)
     else ret (Some sz)) in
  match r with
  | None => ret (-1)
  | Some sz =>
      upd_proc c (set_p_sz sz) ;;;
      switchuvm c ;;;
      ret 0
  end.

(** Entry [k] of ofile *)
Definition ofile (p : proc) (k : nat) : M (kstate F) (option nat) := from_some (p_ofile p !! k).

Definition fork : M (kstate F) Z :=
  let* c := myproc in
  let* r := allocproc in
  match r with
  | None => ret (-1)
  | Some np =>
      let* p := get_proc c in
      let* d := onmem (copyuvm (p_pgdir p) (p_sz p)) in
      upd_proc np (set_p_pgdir d) ;;;
      if d =? 0 then
        let* q := get_proc np in
        onmem (kfree (p_kstack q)) ;;;
        upd_proc np (set_p_kstack 0) ;;;
        upd_proc np (set_p_state UNUSED) ;;;
        ret (-1)
      else
        upd_proc np (set_p_sz (p_sz p)) ;;;
        upd_proc np (set_p_parent (Some c)) ;;;
        let* q := get_proc np in
        let* tf := onmem (load_bytes (p_tf p) sizeof_trapframe) in
        onmem (store_bytes (p_tf q) tf) ;;;
        onmem (store32 (p_tf q + TF_EAX) 0) ;;;
        for_each (seq 0 NOFILE) (fun k =>
          let* f := ofile p k in
          match f with
          | Some f =>
              let* f := onfiles (fl_dup f) in
              upd_proc np (fun q => set_p_ofile (<[k := Some f]> (p_ofile q)) q)
          | None => ret tt
          end) ;;;
        let* d := from_some (p_cwd p) in
        let* d := onfiles (fl_idup d) in
        upd_proc np (set_p_cwd (Some d)) ;;;
        upd_proc np (set_name (p_name p)) ;;;
        let* q := get_proc np in
        set_runnable np ;;;
        ret (p_pid q)
  end.

(** ** The scheduler, sleep and wakeup *)

(** sched() up to swtch() *)
Definition sched : M (kstate F) unit :=
  let* c := myproc in
  let* p := get_proc c in
  let* s := gets id in
  panic_if (negb (pt_lock (pt s))) "sched ptable.lock" ;;;
  panic_if (negb (ncli (kcpu s) =? 1)) "sched locks" ;;;
  panic_if (bool_decide (p_state p = RUNNING)) "sched running" ;;;
  panic_if (fl_if (kcpu s)) "sched interruptible".

(** sched() from swtch() on; [intena] was saved on the stack of the process. *)
Definition sched_back (ena : bool) : M (kstate F) unit :=
  modify (fun s => set_kcpu (mkcpu (ncli (kcpu s)) ena (fl_if (kcpu s))) s).

(** scheduler(): the top of its outer loop *)
Definition scheduler_top : M (kstate F) unit :=
  modify (fun s => set_kcpu (mkcpu (ncli (kcpu s)) (intena (kcpu s)) true) s) ;;;
  pt_acquire.

(** The inner loop from slot [k] on: either switches to a process, which is
    the result, or ends. *)
Definition scheduler_from (k : nat) : M (kstate F) (option nat) :=
  let* l := gets (fun s => procs (pt s)) in
  match find_state RUNNABLE (drop k l) k with
  | Some i =>
      modify (set_cur (Some i)) ;;;
      switchuvm i ;;;
      upd_proc i (set_p_state RUNNING) ;;;
      ret (Some i)
  | None => pt_release ;;; ret None
  end.

(** Back from the process. *)
Definition scheduler_back : M (kstate F) unit :=
  switchkvm ;;;
  modify (set_cur None).

Definition yield : M (kstate F) unit :=
  pt_acquire ;;;
  let* c := myproc in
  upd_proc c (set_p_state RUNNABLE) ;;;
  sched.

Definition yield_back (ena : bool) : M (kstate F) unit :=
  sched_back ena ;;;
  pt_release.

Definition forkret : M (kstate F) unit :=
  pt_release ;;;
  let* f := gets first in
  if f then
    modify (set_first false) ;;;
    onfiles fl_init
  else ret tt.

(** sleep(chan, lk): [lk] is None for &ptable.lock, otherwise the operations
    that acquire and release the lock. *)
Definition sleep (c : wchan) (lk : option (M (kstate F) unit * M (kstate F) unit)) : M (kstate F) unit :=
  let* me := gets cur in
  panic_if (bool_decide (me = None)) "sleep" ;;;
  (match lk with
   | Some (_, rel) => pt_acquire ;;; rel
   | None => ret tt
   end) ;;;
  let* i := myproc in
  upd_proc i (set_p_chan (Some c)) ;;;
  upd_proc i (set_p_state SLEEPING) ;;;
  sched.

Definition sleep_back (lk : option (M (kstate F) unit * M (kstate F) unit)) (ena : bool) : M (kstate F) unit :=
  sched_back ena ;;;
  let* i := myproc in
  upd_proc i (set_p_chan None) ;;;
  match lk with
  | Some (acq, _) => pt_release ;;; acq
  | None => ret tt
  end.

Definition wakeup (c : wchan) : M (kstate F) unit :=
  pt_acquire ;;;
  upd_procs (wakeup1 (Some c)) ;;;
  pt_release.

Definition kill (pid : Z) : M (kstate F) Z :=
  pt_acquire ;;;
  let* r := for_find (seq 0 NPROC) (fun i =>
    let* p := get_proc i in
    if p_pid p =? pid then
      upd_proc i (set_p_killed true) ;;;
      (if bool_decide (p_state p = SLEEPING) then upd_proc i (set_p_state RUNNABLE) else ret tt) ;;;
      pt_release ;;;
      ret (Some 0)
    else ret None) in
  match r with
  | Some r => ret r
  | None => pt_release ;;; ret (-1)
  end.

(** ** Exit and wait *)

(** The loop of exit() that closes the files *)
Definition close_files (c : nat) : M (kstate F) unit :=
  for_each (seq 0 NOFILE) (fun k =>
    let* p := get_proc c in
    let* f := ofile p k in
    match f with
    | Some f =>
        let* ws := onfiles (fl_close f) in
        for_each ws wakeup ;;;
        upd_proc c (fun p => set_p_ofile (<[k := None]> (p_ofile p)) p)
    | None => ret tt
    end).

(** The part of exit() that runs with ptable.lock, up to sched(). *)
Definition exit_locked (c : nat) : M (kstate F) unit :=
  let* p := get_proc c in
  upd_procs (wakeup1 (CProc <$> p_parent p)) ;;;
  let* init := gets (fun s => initproc (pt s)) in
  upd_procs (reparent c init) ;;;
  upd_proc c (set_p_state ZOMBIE).

Definition exit : M (kstate F) unit :=
  let* c := myproc in
  let* init := gets (fun s => initproc (pt s)) in
  panic_if (bool_decide (init = Some c)) "init exiting" ;;;
  close_files c ;;;
  let* p := get_proc c in
  let* d := from_some (p_cwd p) in
  onfiles (fl_iput d) ;;;
  upd_proc c (set_p_cwd None) ;;;
  pt_acquire ;;;
  exit_locked c ;;;
  sched.

(** What wait() leaves of a zombie. *)
Definition reaped (p : proc) : proc :=
  set_p_state UNUSED (set_p_killed false (set_p_name (<[0%nat := 0]> (p_name p))
    (set_p_parent None (set_p_pid 0 (set_p_kstack 0 p))))).

(** One iteration of the scan of wait(): the pid of a zombie child. *)
Definition wait_visit (c i : nat) : M (kstate F) (option Z) :=
  let* p := get_proc i in
  if bool_decide (p_parent p = Some c) && bool_decide (p_state p = ZOMBIE) then
    onmem (kfree (p_kstack p)) ;;;
    onmem (freevm (p_pgdir p)) ;;;
    upd_proc i reaped ;;;
    pt_release ;;;
    ret (Some (p_pid p))
  else ret None.

(** One round of the loop of wait(): the result, or None when the process has
    gone to sleep. *)
Definition wait_round (c : nat) : M (kstate F) (option Z) :=
  let* r := for_find (seq 0 NPROC) (wait_visit c) in
  match r with
  | Some pid => ret (Some pid)
  | None =>
      let* l := gets (fun s => procs (pt s)) in
      let havekids := existsb (fun p => bool_decide (p_parent p = Some c)) l in
      let* p := get_proc c in
      if negb havekids || p_killed p then pt_release ;;; ret (Some (-1))
      else sleep (CProc c) None ;;; ret None
  end.

Definition wait : M (kstate F) (option Z) :=
  let* c := myproc in
  pt_acquire ;;;
  wait_round c.

(** wait() when it is switched to again after its sleep() *)
Definition wait_back (ena : bool) : M (kstate F) (option Z) :=
  sleep_back None ena ;;;
  let* c := myproc in
  wait_round c.

End proc.
