(* ===== verification/ProcSpec.v ===== *)
(** The process table as a transition system.

    A step is what one CPU does to the table while it holds ptable.lock, or
    to a slot that only it works on; the steps of the CPUs interleave in any
    order.  The invariant of the reachable states gives the properties of
    process identifiers, of the process tree, of the processes on the CPUs
    and of exit() and wait().  That the code of Proc.v takes these steps is
    proved in ProcRefine.v. *)

From stdpp Require Import relations.
From S2P Require Import Prelude Params Kalloc Vm Spinlock Proc.

(** [on] has the process that runs on each CPU, [forking] the slot that a
    process inside fork() is filling in. *)
Record world := mkworld {
  tab : list proc;
  npid : Z;
  init : option nat;
  on : nat -> option nat;
  forking : nat -> option nat;
}.

Definition alive (p : proc) : Prop := p_state p = SLEEPING \/ p_state p = RUNNABLE \/ p_state p = RUNNING.

(** Nothing that the table is searched for has changed. *)
Definition same_id (p p' : proc) : Prop :=
  p_state p' = p_state p /\ p_pid p' = p_pid p /\ p_killed p' = p_killed p.

(** What exit() does to the table. *)
Definition exit_table (c : nat) (init : option nat) (l : list proc) : list proc :=
  match l !! c with
  | Some p => alter (set_p_state ZOMBIE) c (reparent c init (wakeup1 (CProc <$> p_parent p) l))
  | None => l
  end.

(** What kill() does to the process it finds. *)
Definition killed_proc (p : proc) : proc :=
  let q := set_p_killed true p in
  if bool_decide (p_state p = SLEEPING) then set_p_state RUNNABLE q else q.

Definition asleep (c : wchan) (p : proc) : proc := set_p_state SLEEPING (set_p_chan (Some c) p).

Definition set_tab (l : list proc) (w : world) : world := mkworld l (npid w) (init w) (on w) (forking w).

Inductive step (w : world) : world -> Prop :=
  | st_alloc k i j p :                (* allocproc(), up to release() *)
      on w k = Some i -> forking w i = None ->
      find_state UNUSED (tab w) 0 = Some j -> tab w !! j = Some p ->
      step w (mkworld (<[j := set_p_pid (npid w) (set_p_state EMBRYO p)]> (tab w)) (npid w + 1)
        (init w) (on w) (upd (forking w) i (Some j)))
  | st_build k i j p p' :             (* allocproc() and fork() on the new slot *)
      on w k = Some i -> forking w i = Some j -> tab w !! j = Some p -> same_id p p' -> p_chan p' = p_chan p ->
      p_parent p' = p_parent p \/ p_parent p' = Some i ->
      step w (set_tab (<[j := p']> (tab w)) w)
  | st_fork_fail k i j p p' :         (* no kernel stack, or no copy of memory *)
      on w k = Some i -> forking w i = Some j -> tab w !! j = Some p -> same_id p p' ->
      p_parent p' = None ->
      step w (mkworld (<[j := set_p_state UNUSED p']> (tab w)) (npid w) (init w) (on w) (upd (forking w) i None))
  | st_fork_done k i j p :
      on w k = Some i -> forking w i = Some j -> tab w !! j = Some p -> p_parent p = Some i ->
      step w (mkworld (<[j := set_p_state RUNNABLE p]> (tab w)) (npid w) (init w) (on w) (upd (forking w) i None))
  | st_own k i p p' :                 (* a process works on its own fields *)
      on w k = Some i -> tab w !! i = Some p -> same_id p p' -> p_parent p' = p_parent p ->
      p_chan p' = p_chan p \/ p_chan p' = None ->
      step w (set_tab (<[i := p']> (tab w)) w)
  | st_exit k i :
      on w k = Some i -> init w <> Some i -> forking w i = None ->
      step w (mkworld (exit_table i (init w) (tab w)) (npid w) (init w) (upd (on w) k None) (forking w))
  | st_reap k i j p :                 (* wait() finds a zombie *)
      on w k = Some i -> tab w !! j = Some p -> p_parent p = Some i -> p_state p = ZOMBIE ->
      step w (set_tab (<[j := reaped p]> (tab w)) w)
  | st_wait k i p :                   (* wait() finds none and sleeps *)
      on w k = Some i -> tab w !! i = Some p ->
      (forall j q, tab w !! j = Some q -> p_parent q = Some i -> p_state q <> ZOMBIE) ->
      step w (mkworld (<[i := asleep (CProc i) p]> (tab w)) (npid w) (init w) (upd (on w) k None) (forking w))
  | st_sleep k i c p :                (* sleep() anywhere else *)
      on w k = Some i -> tab w !! i = Some p ->
      step w (mkworld (<[i := asleep (CObj c) p]> (tab w)) (npid w) (init w) (upd (on w) k None) (forking w))
  | st_yield k i p :
      on w k = Some i -> tab w !! i = Some p ->
      step w (mkworld (<[i := set_p_state RUNNABLE p]> (tab w)) (npid w) (init w) (upd (on w) k None) (forking w))
  | st_wakeup c :
      step w (set_tab (wakeup1 (Some (CObj c)) (tab w)) w)
  | st_kill i p :
      tab w !! i = Some p -> step w (set_tab (<[i := killed_proc p]> (tab w)) w)
  | st_sched k i p :                  (* scheduler() switches to a process *)
      on w k = None -> tab w !! i = Some p -> p_state p = RUNNABLE ->
      step w (mkworld (<[i := set_p_state RUNNING p]> (tab w)) (npid w) (init w) (upd (on w) k (Some i)) (forking w)).

(** After userinit(): the first process is runnable, the others unused. *)
Record booted (w : world) : Prop := {
  bo_len : length (tab w) = NPROC;
  bo_init i : init w = Some i -> exists p, tab w !! i = Some p /\ p_state p = RUNNABLE /\
    p_parent p = None /\ p_pid p = 1;
  bo_some : is_Some (init w);
  bo_rest i p : tab w !! i = Some p -> init w <> Some i -> p_state p = UNUSED /\ p_parent p = None /\ p_pid p = 0;
  bo_npid : npid w = 2;
  bo_on k : on w k = None;
  bo_forking i : forking w i = None;
}.

Definition reachable (w : world) : Prop := exists w0, booted w0 /\ rtc step w0 w.

(** ** Pointwise changes of the table *)

Definition pw (R : nat -> proc -> proc -> Prop) (l l' : list proc) : Prop :=
  forall i, option_Forall2 (R i) (l !! i) (l' !! i).

Lemma pw_fwd R l l' i p : pw R l l' -> l !! i = Some p -> exists p', l' !! i = Some p' /\ R i p p'.
Proof. intros Hp Hi. specialize (Hp i). rewrite Hi in Hp. inversion Hp; subst. eauto. Qed.

Lemma pw_bwd R l l' i p' : pw R l l' -> l' !! i = Some p' -> exists p, l !! i = Some p /\ R i p p'.
Proof. intros Hp Hi. specialize (Hp i). rewrite Hi in Hp. inversion Hp; subst. eauto. Qed.

Lemma pw_mono (R R' : nat -> proc -> proc -> Prop) l l' :
  (forall i p p', R i p p' -> R' i p p') -> pw R l l' -> pw R' l l'.
Proof. intros Hm Hp i. destruct (Hp i); constructor. eauto. Qed.

Lemma pw_trans (R1 R2 R : nat -> proc -> proc -> Prop) l1 l2 l3 :
  (forall i p q r, R1 i p q -> R2 i q r -> R i p r) -> pw R1 l1 l2 -> pw R2 l2 l3 -> pw R l1 l3.
Proof.
  intros Ht H1 H2 i. specialize (H1 i). specialize (H2 i).
  destruct (l1 !! i), (l2 !! i), (l3 !! i); inversion H1; inversion H2; subst; constructor; eauto.
Qed.

Lemma pw_length R l l' : pw R l l' -> length l' = length l.
Proof.
  intros Hp. apply Nat.le_antisymm; apply lookup_ge_None.
  - specialize (Hp (length l)). rewrite (lookup_ge_None_2 l) in Hp by lia. by inversion Hp.
  - specialize (Hp (length l')). rewrite (lookup_ge_None_2 l') in Hp by lia. by inversion Hp.
Qed.

(** One slot. *)
Definition at_slot (j : nat) (p p' : proc) : nat -> proc -> proc -> Prop :=
  fun i x x' => (i = j /\ x = p /\ x' = p') \/ (i <> j /\ x' = x).

Lemma pw_insert l j p p' : l !! j = Some p -> pw (at_slot j p p') l (<[j := p']> l).
Proof.
  intros Hj i. destruct (decide (i = j)) as [->|Hne].
  - rewrite list_lookup_insert_eq by (by eapply lookup_lt_Some). rewrite Hj. constructor. by left.
  - rewrite list_lookup_insert_ne by done. destruct (l !! i); constructor. by right.
Qed.

(** Waking up. *)
Definition woken (c : option wchan) (p p' : proc) : Prop :=
  p' = if bool_decide (p_state p = SLEEPING) && bool_decide (p_chan p = c) then set_p_state RUNNABLE p else p.

Lemma pw_wakeup1 c l : pw (fun _ => woken c) l (wakeup1 c l).
Proof. intros i. unfold wakeup1. rewrite list_lookup_fmap. destruct (l !! i); constructor. done. Qed.

(** The children of [c] in the slots [P] go to [init], and processes that
    sleep on [init] may be woken up. *)
Record moved (c : nat) (init : option nat) (P : nat -> Prop) (i : nat) (p p' : proc) : Prop := {
  mv_in : P i -> p_parent p' = if decide (p_parent p = Some c) then init else p_parent p;
  mv_out : ~ P i -> p_parent p' = p_parent p;
  mv_pid : p_pid p' = p_pid p;
  mv_killed : p_killed p' = p_killed p;
  mv_chan : p_chan p' = p_chan p;
  mv_state : p_state p' = p_state p \/
    p_state p = SLEEPING /\ p_state p' = RUNNABLE /\ p_chan p = CProc <$> init;
}.

Lemma woken_up c l i p : wakeup1 c l !! i = Some p -> ~ (p_state p = SLEEPING /\ p_chan p = c).
Proof.
  unfold wakeup1. rewrite list_lookup_fmap. intros (q&_&->)%fmap_Some.
  do 2 case_bool_decide; cbn; naive_solver.
Qed.

Lemma reparent1_spec c init l n :
  pw (moved c init (eq n)) l (reparent1 c init l n) /\
  forall q, l !! n = Some q -> p_parent q = Some c -> p_state q = ZOMBIE ->
    forall i p, reparent1 c init l n !! i = Some p -> ~ (p_state p = SLEEPING /\ p_chan p = CProc <$> init).
Proof.
  unfold reparent1. destruct (l !! n) as [q|] eqn:Hn.
  2: { split; [|done]. intros i. destruct (l !! i) eqn:Hi; constructor. split; auto. congruence. }
  case_bool_decide as Hp.
  2: { split; [|naive_solver]. intros i. destruct (l !! i) eqn:Hi; constructor. split; auto. intros <-.
       assert (p = q) as -> by congruence. by rewrite decide_False. }
  pose proof (pw_insert l n q (set_p_parent init q) Hn) as Hi.
  assert (pw (moved c init (eq n)) l (<[n:=set_p_parent init q]> l)) as Hm.
  { eapply pw_mono; [|exact Hi]. intros i p p' [(->&->&->)|[Hne ->]]; split; cbn; try by auto; try congruence.
    by rewrite decide_True. }
  case_bool_decide as Hz; [|split; [done|naive_solver]].
  split; [|intros q' _ _ _; apply woken_up].
  eapply pw_trans; [|exact Hm|apply pw_wakeup1]. unfold woken. intros i x y z [H1 H2 H3 H4 H5 H6] ->.
  do 2 case_bool_decide; cbn; try by split. split; cbn; auto. right. destruct H6 as [E|(E&E'&_)]; split; congruence || (split; congruence).
Qed.

(** After the iterations of the loop of exit() for the first [n] slots. *)
Lemma reparent_spec c init l n :
  let l' := foldl (reparent1 c init) l (seq 0 n) in
  pw (moved c init (fun i => i < n)%nat) l l' /\
  forall j q, (j < n)%nat -> l !! j = Some q -> p_parent q = Some c -> p_state q = ZOMBIE ->
    forall i p', l' !! i = Some p' -> ~ (p_state p' = SLEEPING /\ p_chan p' = CProc <$> init).
Proof.
  induction n as [|n [IH IHw]]; cbn zeta in *.
  - split; [|lia]. intros i. cbn. destruct (l !! i); constructor. split; auto. lia.
  - rewrite seq_S, foldl_app. cbn [foldl Nat.add]. set (l1 := foldl _ l (seq 0 n)) in *.
    destruct (reparent1_spec c init l1 n) as [Hm Hw]. split.
    + eapply pw_trans; [|exact IH|exact Hm]. intros i p q r [A1 A2 A3 A4 A5 A6] [B1 B2 B3 B4 B5 B6].
      split; [| |congruence..|].
      * intros Hi. destruct (decide (i = n)) as [->|]; [rewrite B1, A2; [done|lia|done]|].
        rewrite B2, A1; [done|lia|congruence].
      * intros Hi. rewrite B2, A2; [done|lia|lia].
      * destruct B6 as [->|(E1&E2&E3)]; [done|]. right. destruct A6 as [E|(?&?&?)]; [|congruence].
        split; [congruence|]. split; [done|congruence].
    + intros j q Hj Hq Hp Hz i p' Hi [Hs Hc].
      destruct (pw_bwd _ _ _ _ _ Hm Hi) as (p1&Hp1&[B1 B2 B3 B4 B5 B6]).
      destruct (decide (j = n)) as [->|Hne].
      * destruct (pw_fwd _ _ _ _ _ IH Hq) as (q1&Hq1&[A1 A2 A3 A4 A5 A6]).
        eapply (Hw q1); [done|rewrite A2; [done|lia]| |done|done]. destruct A6 as [->|(E&_)]; congruence.
      * eapply (IHw j q); [lia|done..|]. destruct B6 as [E|(_&E&_)]; [|congruence]. split; congruence.
Qed.

Record exited (c : nat) (init : option nat) (i : nat) (p p' : proc) : Prop := {
  xt_parent : p_parent p' = if decide (p_parent p = Some c) then init else p_parent p;
  xt_pid : p_pid p' = p_pid p;
  xt_killed : p_killed p' = p_killed p;
  xt_chan : p_chan p' = p_chan p;
  xt_self : i = c -> p_state p' = ZOMBIE;
  xt_state : i <> c -> p_state p' = p_state p \/ p_state p = SLEEPING /\ p_state p' = RUNNABLE;
}.

Lemma exit_table_spec c init l pc :
  l !! c = Some pc ->
  pw (exited c init) l (exit_table c init l) /\
  (forall i p', exit_table c init l !! i = Some p' -> p_state p' = SLEEPING ->
     p_chan p' <> CProc <$> p_parent pc) /\
  (forall j q, l !! j = Some q -> p_parent q = Some c -> p_state q = ZOMBIE ->
     forall i p', exit_table c init l !! i = Some p' -> p_state p' = SLEEPING -> p_chan p' <> CProc <$> init).
Proof.
  intros Hc. unfold exit_table. rewrite Hc. set (l1 := wakeup1 _ l). unfold reparent.
  pose proof (pw_wakeup1 (CProc <$> p_parent pc) l : pw _ l l1) as H1.
  destruct (reparent_spec c init l1 (length l1)) as [H2 Hw]. set (l2 := foldl _ _ _) in *.
  assert (pw (fun i p p' => p' = if decide (i = c) then set_p_state ZOMBIE p else p) l2
    (alter (set_p_state ZOMBIE) c l2)) as H3.
  { intros i. case_decide as E; [subst; rewrite list_lookup_alter_eq|rewrite list_lookup_alter_ne by done];
      destruct (l2 !! _); constructor; done. }
  split; [|split].
  - intros i. destruct (l !! i) as [p|] eqn:Hi.
    2: { destruct (alter _ c l2 !! i) as [p'|] eqn:Hi'; [|constructor].
         destruct (pw_bwd _ _ _ _ _ H3 Hi') as (q&Hq&_). destruct (pw_bwd _ _ _ _ _ H2 Hq) as (q1&Hq1&_).
         destruct (pw_bwd _ _ _ _ _ H1 Hq1) as (?&?&_). congruence. }
    destruct (pw_fwd _ _ _ _ _ H1 Hi) as (p1&Hp1&W). destruct (pw_fwd _ _ _ _ _ H2 Hp1) as (p2&Hp2&[A1 _ A3 A4 A5 A6]).
    destruct (pw_fwd _ _ _ _ _ H3 Hp2) as (p3&->&E). constructor. apply lookup_lt_Some in Hp1.
    specialize (A1 Hp1). unfold woken in W. clear -W A1 A3 A4 A5 A6 E.
    subst p3 p1. split; repeat (case_decide || case_bool_decide); cbn in *; intros; intuition congruence.
  - intros i p' Hi Hs Hch. destruct (pw_bwd _ _ _ _ _ H3 Hi) as (q&Hq&E). case_decide; subst p'; [done|].
    destruct (pw_bwd _ _ _ _ _ H2 Hq) as (q1&Hq1&[_ _ _ _ A5 A6]). apply woken_up in Hq1.
    destruct A6 as [E|(_&E&_)]; [|congruence]. apply Hq1. split; congruence.
  - intros j q Hj Hp Hz i p' Hi Hs Hch. destruct (pw_bwd _ _ _ _ _ H3 Hi) as (q1&Hq1&E). case_decide; subst p'; [done|].
    destruct (pw_fwd _ _ _ _ _ H1 Hj) as (q2&Hq2&W). unfold woken in W. rewrite Hz in W. rewrite bool_decide_false in W by done.
    cbn in W. subst q2. by eapply (Hw j q); [by eapply lookup_lt_Some|..].
Qed.

(** ** The invariant *)

Record pids_ok (l : list proc) (n : Z) : Prop := {
  pd_range i p : l !! i = Some p -> 0 <= p_pid p < n;
  pd_used i p : l !! i = Some p -> p_state p <> UNUSED -> p_pid p <> 0;
  pd_inj i j p q : l !! i = Some p -> l !! j = Some q -> p_pid p = p_pid q -> p_pid p <> 0 -> i = j;
}.

Record cpus_ok (l : list proc) (on : nat -> option nat) : Prop := {
  cp_on k i : on k = Some i -> exists p, l !! i = Some p /\ p_state p = RUNNING;
  cp_one k k' i : on k = Some i -> on k' = Some i -> k = k';
  cp_run i p : l !! i = Some p -> p_state p = RUNNING -> exists k, on k = Some i;
}.

Record forks_ok (l : list proc) (fk : nat -> option nat) : Prop := {
  fk_at i j : fk i = Some j -> exists p q, l !! i = Some p /\ alive p /\
    l !! j = Some q /\ p_state q = EMBRYO /\ (p_parent q = None \/ p_parent q = Some i) /\ p_pid p < p_pid q;
  fk_one i i' j : fk i = Some j -> fk i' = Some j -> i = i';
  fk_embryo j q : l !! j = Some q -> p_state q = EMBRYO -> exists i, fk i = Some j;
}.

Record tree_ok (l : list proc) (init : option nat) : Prop := {
  tr_unused i p : l !! i = Some p -> p_state p = UNUSED -> p_parent p = None;
  tr_parent i p q : l !! i = Some p -> p_parent p = Some q ->
    exists r, l !! q = Some r /\ alive r /\ p_pid r < p_pid p;
  tr_orphan i p : l !! i = Some p -> alive p \/ p_state p = ZOMBIE -> init <> Some i -> is_Some (p_parent p);
  tr_init : exists i p, init = Some i /\ l !! i = Some p /\ alive p /\
    forall j q, l !! j = Some q -> j <> i -> p_pid q <> 0 -> p_pid p < p_pid q;
}.

Definition sleep_ok (l : list proc) : Prop :=
  forall i p q, l !! i = Some p -> p_state p = SLEEPING -> p_chan p = Some (CProc q) ->
    q = i /\ forall j r, l !! j = Some r -> p_parent r = Some i -> p_state r <> ZOMBIE.

Record inv (w : world) : Prop := {
  iv_pids : pids_ok (tab w) (npid w);
  iv_cpus : cpus_ok (tab w) (on w);
  iv_forks : forks_ok (tab w) (forking w);
  iv_tree : tree_ok (tab w) (init w);
  iv_sleep : sleep_ok (tab w);
}.

(** ** Preservation *)

(** Most steps move a process between SLEEPING, RUNNABLE and RUNNING only. *)
Definition phase (st : procstate) : nat :=
  match st with UNUSED => 0 | EMBRYO => 1 | SLEEPING | RUNNABLE | RUNNING => 2 | ZOMBIE => 3 end.

Lemma alive_phase p : alive p <-> phase (p_state p) = 2%nat.
Proof. unfold alive. destruct (p_state p); cbn; naive_solver. Qed.

Lemma phase_eq st : (st = UNUSED <-> phase st = 0%nat) /\ (st = EMBRYO <-> phase st = 1%nat) /\ (st = ZOMBIE <-> phase st = 3%nat).
Proof. destruct st; cbn; naive_solver. Qed.

Definition mild (p p' : proc) : Prop :=
  p_pid p' = p_pid p /\ p_parent p' = p_parent p /\ phase (p_state p') = phase (p_state p).

Lemma mild_alive p p' : mild p p' -> alive p' <-> alive p.
Proof. intros (_&_&E). by rewrite !alive_phase, E. Qed.

Lemma mild_phase p p' : mild p p' ->
  (p_state p' = UNUSED <-> p_state p = UNUSED) /\ (p_state p' = EMBRYO <-> p_state p = EMBRYO) /\
  (p_state p' = ZOMBIE <-> p_state p = ZOMBIE).
Proof.
  intros (_&_&E). destruct (phase_eq (p_state p)) as (A1&A2&A3), (phase_eq (p_state p')) as (B1&B2&B3).
  rewrite A1, A2, A3, B1, B2, B3, E. done.
Qed.

Lemma pids_mild l l' n : pw (fun _ => mild) l l' -> pids_ok l n -> pids_ok l' n.
Proof.
  intros Hw [H1 H2 H3]. split.
  - intros i p' Hi. destruct (pw_bwd _ _ _ _ _ Hw Hi) as (p&Hp&->&_). eauto.
  - intros i p' Hi Hs. destruct (pw_bwd _ _ _ _ _ Hw Hi) as (p&Hp&M). pose proof (mild_phase _ _ M) as (E&_).
    destruct M as (->&_). eapply H2; [done|]. by rewrite <- E.
  - intros i j p' q' Hi Hj. destruct (pw_bwd _ _ _ _ _ Hw Hi) as (p&Hp&->&_), (pw_bwd _ _ _ _ _ Hw Hj) as (q&Hq&->&_). eauto.
Qed.

Lemma forks_mild l l' fk : pw (fun _ => mild) l l' -> forks_ok l fk -> forks_ok l' fk.
Proof.
  intros Hw [H1 H2 H3]. split; [|done|].
  - intros i j Hij. destruct (H1 i j Hij) as (p&q&Hp&Ha&Hq&He&Hpar&Hlt).
    destruct (pw_fwd _ _ _ _ _ Hw Hp) as (p'&Hp'&Mp), (pw_fwd _ _ _ _ _ Hw Hq) as (q'&Hq'&Mq).
    exists p', q'. split; [done|]. split; [by eapply mild_alive|]. split; [done|].
    split; [by apply (mild_phase _ _ Mq)|]. destruct Mq as (->&->&_), Mp as (->&_). done.
  - intros j q' Hj He. destruct (pw_bwd _ _ _ _ _ Hw Hj) as (q&Hq&M). eapply H3; [done|]. by apply (mild_phase _ _ M).
Qed.

Lemma tree_mild l l' init : pw (fun _ => mild) l l' -> tree_ok l init -> tree_ok l' init.
Proof.
  intros Hw [H1 H2 H3 H4]. split.
  - intros i p' Hi Hs. destruct (pw_bwd _ _ _ _ _ Hw Hi) as (p&Hp&M). pose proof M as (_&->&_).
    eapply H1; [done|]. by apply (mild_phase _ _ M).
  - intros i p' q Hi Hpar. destruct (pw_bwd _ _ _ _ _ Hw Hi) as (p&Hp&M). pose proof M as (E1&E2&_). rewrite E2 in Hpar.
    destruct (H2 i p q Hp Hpar) as (r&Hr&Ha&Hlt). destruct (pw_fwd _ _ _ _ _ Hw Hr) as (r'&Hr'&Mr).
    exists r'. split; [done|]. split; [by eapply mild_alive|]. destruct Mr as (->&_). lia.
  - intros i p' Hi Hs Hne. destruct (pw_bwd _ _ _ _ _ Hw Hi) as (p&Hp&M). pose proof M as (_&->&_).
    eapply H3; [done| |done]. rewrite <- (mild_alive p p'), <- (proj2 (proj2 (mild_phase _ _ M))) by done. done.
  - destruct H4 as (i&p&Hin&Hp&Ha&Hmin). destruct (pw_fwd _ _ _ _ _ Hw Hp) as (p'&Hp'&M). exists i, p'.
    split; [done|]. split; [done|]. split; [by eapply mild_alive|]. intros j q' Hj.
    destruct (pw_bwd _ _ _ _ _ Hw Hj) as (q&Hq&->&_). destruct M as (->&_). eauto.
Qed.

(** A process that is not put to sleep in wait() by the step. *)
Lemma sleep_mild l l' :
  pw (fun _ p p' => mild p p' /\
    (forall q, p_state p' = SLEEPING -> p_chan p' = Some (CProc q) ->
       p_state p = SLEEPING /\ p_chan p = Some (CProc q))) l l' ->
  sleep_ok l -> sleep_ok l'.
Proof.
  intros Hw Hs i p' q Hi Hsl Hch. destruct (pw_bwd _ _ _ _ _ Hw Hi) as (p&Hp&_&Hpc).
  destruct (Hpc q Hsl Hch) as [Hsl' Hch']. destruct (Hs i p q Hp Hsl' Hch') as [-> Hno]. split; [done|].
  intros j r' Hj Hpar Hz. destruct (pw_bwd _ _ _ _ _ Hw Hj) as (r&Hr&M&_). pose proof M as (_&E&_).
  eapply Hno; [done|congruence|]. by apply (mild_phase _ _ M).
Qed.

Lemma cpus_frame l l' on :
  pw (fun _ p p' => p_state p' = RUNNING <-> p_state p = RUNNING) l l' -> cpus_ok l on -> cpus_ok l' on.
Proof.
  intros Hw [H1 H2 H3]. split; [|done|].
  - intros k i Hk. destruct (H1 k i Hk) as (p&Hp&Hs). destruct (pw_fwd _ _ _ _ _ Hw Hp) as (p'&Hp'&E). naive_solver.
  - intros i p' Hi Hs. destruct (pw_bwd _ _ _ _ _ Hw Hi) as (p&Hp&E). naive_solver.
Qed.

(** The process of CPU [k] leaves it, and the others keep running. *)
Lemma cpus_leave l l' on k i :
  pw (fun j p p' => if decide (j = i) then p_state p' <> RUNNING else p_state p' = RUNNING <-> p_state p = RUNNING) l l' ->
  on k = Some i -> cpus_ok l on -> cpus_ok l' (upd on k None).
Proof.
  intros Hw Hk [H1 H2 H3]. split.
  - intros k' j. unfold upd. case_decide as E; [done|]. intros Hj. destruct (H1 k' j Hj) as (p&Hp&Hs).
    destruct (pw_fwd _ _ _ _ _ Hw Hp) as (p'&Hp'&Hr). case_decide; [|naive_solver]. subst. by destruct (E (H2 _ _ _ Hk Hj)).
  - intros k1 k2 j. unfold upd. repeat case_decide; [done..|]. eauto.
  - intros j p' Hj Hs. destruct (pw_bwd _ _ _ _ _ Hw Hj) as (p&Hp&Hr). case_decide; [done|].
    destruct (H3 j p Hp) as [k' Hk']; [naive_solver|]. exists k'. unfold upd. case_decide; [|done]. subst. congruence.
Qed.

Lemma cpus_enter l on k i p p' :
  l !! i = Some p -> p_state p <> RUNNING -> p_state p' = RUNNING -> on k = None ->
  cpus_ok l on -> cpus_ok (<[i := p']> l) (upd on k (Some i)).
Proof.
  intros Hi Hs Hs' Hk [H1 H2 H3]. pose proof (pw_insert l i p p' Hi) as Hw. split.
  - intros k' j. unfold upd. case_decide.
    + intros [= <-]. exists p'. split; [|done]. apply list_lookup_insert_eq. by eapply lookup_lt_Some.
    + intros Hj. destruct (H1 k' j Hj) as (q&Hq&Hqs). exists q. rewrite list_lookup_insert_ne; [done|]. congruence.
  - assert (forall k' , on k' <> Some i) as Hno. { intros k' Hk'. destruct (H1 _ _ Hk') as (?&?&?). congruence. }
    intros k1 k2 j. unfold upd. repeat case_decide; [congruence|intros [= <-] ?; by destruct (Hno k2)|
      intros ? [= <-]; by destruct (Hno k1)|eauto].
  - intros j q Hj Hq. destruct (pw_bwd _ _ _ _ _ Hw Hj) as (q0&Hq0&[(->&->&->)|(Hne&->)]).
    + exists k. unfold upd. by rewrite decide_True.
    + destruct (H3 j q0 Hq0 Hq) as [k' Hk']. exists k'. unfold upd. rewrite decide_False; [done|]. congruence.
Qed.

(** A step that changes no pid, no parent and no phase. *)
Lemma inv_mild w l' on' :
  inv w ->
  pw (fun _ p p' => mild p p' /\
    (forall q, p_state p' = SLEEPING -> p_chan p' = Some (CProc q) ->
       p_state p = SLEEPING /\ p_chan p = Some (CProc q))) (tab w) l' ->
  cpus_ok l' on' -> inv (mkworld l' (npid w) (init w) on' (forking w)).
Proof.
  intros [] Hw Hc. assert (pw (fun _ => mild) (tab w) l') as Hm by (eapply pw_mono; [|exact Hw]; naive_solver).
  split; cbn; [by eapply pids_mild|done|by eapply forks_mild|by eapply tree_mild|by eapply sleep_mild].
Qed.

Lemma insert_mild l i p p' :
  l !! i = Some p -> mild p p' ->
  (forall q, p_state p' = SLEEPING -> p_chan p' = Some (CProc q) -> p_state p = SLEEPING /\ p_chan p = Some (CProc q)) ->
  pw (fun _ p p' => mild p p' /\
    (forall q, p_state p' = SLEEPING -> p_chan p' = Some (CProc q) ->
       p_state p = SLEEPING /\ p_chan p = Some (CProc q))) l (<[i := p']> l).
Proof.
  intros Hi Hm Hs. eapply pw_mono; [|by apply (pw_insert l i p)].
  intros j x x' [(->&->&->)|(_&->)]; [done|]. split; [done|auto].
Qed.

Lemma insert_cpus l i p p' on :
  l !! i = Some p -> (p_state p' = RUNNING <-> p_state p = RUNNING) -> cpus_ok l on -> cpus_ok (<[i := p']> l) on.
Proof.
  intros Hi Hs. apply cpus_frame. eapply pw_mono; [|by apply (pw_insert l i p)].
  intros j x x' [(->&->&->)|(_&->)]; done.
Qed.

Lemma insert_leave l i p p' on k :
  l !! i = Some p -> p_state p' <> RUNNING -> on k = Some i -> cpus_ok l on -> cpus_ok (<[i := p']> l) (upd on k None).
Proof.
  intros Hi Hs Hk. apply (cpus_leave l _ on k i); [|done]. eapply pw_mono; [|by apply (pw_insert l i p)].
  intros j x x' [(->&->&->)|(?&->)]; [by rewrite decide_True|by rewrite decide_False].
Qed.

Lemma find_state_spec st l k j :
  find_state st l k = Some j -> exists p, (k <= j)%nat /\ l !! (j - k)%nat = Some p /\ p_state p = st.
Proof.
  revert k. induction l as [|x l IH]; intros k; cbn; [done|]. case_bool_decide as E.
  - intros [= <-]. exists x. rewrite Nat.sub_diag. done.
  - intros (p&Hk&Hp&Hs)%IH. exists p. split; [lia|]. split; [|done].
    replace (j - k)%nat with (S (j - S k)) by lia. done.
Qed.

Lemma find_state_none st l k : find_state st l k = None -> forall m p, l !! m = Some p -> p_state p <> st.
Proof.
  revert k. induction l as [|x l IH]; intros k; cbn; [done|]. case_bool_decide as E; [done|].
  intros Hf [|m] p; cbn; [congruence|]. by eapply IH.
Qed.

(** Updates of one slot, as a case analysis on lookups. *)
Lemma lookup_slot (l : list proc) j p p' i x :
  l !! j = Some p -> <[j := p']> l !! i = Some x -> (i = j /\ x = p') \/ (i <> j /\ l !! i = Some x).
Proof.
  intros Hj Hi. apply list_lookup_insert_Some in Hi as [(->&->&_)|(Hne&Hi)]; [by left|right]. auto.
Qed.

Lemma lookup_slot_self (l : list proc) j p p' : l !! j = Some p -> <[j := p']> l !! j = Some p'.
Proof. intros Hj. apply list_lookup_insert_eq. by eapply lookup_lt_Some. Qed.

(** A slot without a live process, before and after the step. *)
Section slot.
Context (l : list proc) (j : nat) (p p' : proc) (Hj : l !! j = Some p).

Lemma pids_slot n n' :
  pids_ok l n -> 0 <= p_pid p' < n' -> n <= n' -> (p_state p' <> UNUSED -> p_pid p' <> 0) ->
  (p_pid p' <> 0 -> forall i q, l !! i = Some q -> i <> j -> p_pid q <> p_pid p') -> pids_ok (<[j := p']> l) n'.
Proof.
  intros [H1 H2 H3] Hr Hn Hu Hnew. split.
  - intros i x Hi. destruct (lookup_slot _ _ _ _ _ _ Hj Hi) as [(->&->)|(Hne&Hx)]; [done|]. specialize (H1 i x Hx). lia.
  - intros i x Hi. destruct (lookup_slot _ _ _ _ _ _ Hj Hi) as [(->&->)|(Hne&Hx)]; eauto.
  - intros i i' x y Hi Hi' E Hnz.
    destruct (lookup_slot _ _ _ _ _ _ Hj Hi) as [(->&->)|(Hne&Hx)], (lookup_slot _ _ _ _ _ _ Hj Hi') as [(->&->)|(Hne'&Hy)].
    + done.
    + by destruct (Hnew Hnz i' y Hy Hne').
    + rewrite E in Hnz. by destruct (Hnew Hnz i x Hx Hne).
    + eauto.
Qed.

Lemma tree_slot init :
  tree_ok l init -> ~ alive p -> (p_state p' = UNUSED -> p_parent p' = None) ->
  (forall q, p_parent p' = Some q -> exists r, l !! q = Some r /\ alive r /\ p_pid r < p_pid p') ->
  (alive p' \/ p_state p' = ZOMBIE -> is_Some (p_parent p')) ->
  (p_pid p' <> 0 -> forall i r, init = Some i -> l !! i = Some r -> p_pid r < p_pid p') ->
  tree_ok (<[j := p']> l) init.
Proof.
  intros [H1 H2 H3 (i0&p0&Hin&Hp0&Ha0&Hmin)] Hna Hun Hpar Horph Hpid.
  assert (forall q r, l !! q = Some r -> alive r -> <[j := p']> l !! q = Some r) as Hkeep.
  { intros q r Hq Hr. rewrite list_lookup_insert_ne; [done|]. intros <-. apply Hna. congruence. }
  split.
  - intros i x Hi. destruct (lookup_slot _ _ _ _ _ _ Hj Hi) as [(->&->)|(Hne&Hx)]; eauto.
  - intros i x q Hi Hq. destruct (lookup_slot _ _ _ _ _ _ Hj Hi) as [(->&->)|(Hne&Hx)].
    + destruct (Hpar q Hq) as (r&Hr&Har&Hlt). eauto.
    + destruct (H2 i x q Hx Hq) as (r&Hr&Har&Hlt). eauto.
  - intros i x Hi. destruct (lookup_slot _ _ _ _ _ _ Hj Hi) as [(->&->)|(Hne&Hx)]; eauto.
  - exists i0, p0. split; [done|]. split; [by apply Hkeep|]. split; [done|]. intros i x Hi Hne Hnz.
    destruct (lookup_slot _ _ _ _ _ _ Hj Hi) as [(->&->)|(Hne'&Hx)]; eauto.
Qed.

Lemma sleep_slot :
  sleep_ok l -> p_state p' <> SLEEPING -> p_state p' <> ZOMBIE -> sleep_ok (<[j := p']> l).
Proof.
  intros Hs H1 H2 i x q Hi Hsl Hch. destruct (lookup_slot _ _ _ _ _ _ Hj Hi) as [(->&->)|(Hne&Hx)]; [done|].
  destruct (Hs i x q Hx Hsl Hch) as [-> Hno]. split; [done|]. intros i' r Hi' Hpar.
  destruct (lookup_slot _ _ _ _ _ _ Hj Hi') as [(->&->)|(_&Hr)]; eauto.
Qed.

(** The slot that process [i] fills in, or has just given up or published. *)
Lemma forks_slot fk i :
  forks_ok l fk -> ~ alive p -> (forall i', fk i' = Some j -> i' = i) ->
  (forall q, p_state p' = EMBRYO -> l !! i = Some q -> alive q /\ (p_parent p' = None \/ p_parent p' = Some i) /\ p_pid q < p_pid p') ->
  (p_state p' = EMBRYO -> is_Some (l !! i)) ->
  (forall k, fk i = Some k -> k = j) ->
  forks_ok (<[j := p']> l) (upd fk i (if decide (p_state p' = EMBRYO) then Some j else None)).
Proof.
  intros [H1 H2 H3] Hna Hown He Hsome Hi.
  assert (forall q r, l !! q = Some r -> alive r -> <[j := p']> l !! q = Some r) as Hkeep.
  { intros q r Hq Hr. rewrite list_lookup_insert_ne; [done|]. intros <-. apply Hna. congruence. }
  split.
  - intros i' k. unfold upd. case_decide as E.
    + subst i'. case_decide as Hem; [|done]. intros [= <-]. destruct (Hsome Hem) as [q Hq].
      destruct (He q Hem Hq) as (Ha&Hp&Hlt). exists q, p'. split; [auto|]. split; [done|].
      split; [by eapply lookup_slot_self|]. done.
    + intros Hk. destruct (H1 i' k Hk) as (x&y&Hx&Hax&Hy&Hey&Hpar&Hlt). exists x, y. split; [auto|]. split; [done|].
      rewrite list_lookup_insert_ne; [done|]. intros <-. apply E. symmetry. by apply Hown.
  - intros i1 i2 k. unfold upd. repeat case_decide; subst; try done; [|  |eauto].
    + intros [= <-] Hk. symmetry. by apply Hown.
    + intros Hk [= <-]. by apply Hown.
  - intros k y Hk Hy. destruct (lookup_slot _ _ _ _ _ _ Hj Hk) as [(->&->)|(Hne&Hx)].
    + exists i. unfold upd. rewrite !decide_True by done. done.
    + destruct (H3 k y Hx Hy) as [i' Hi']. exists i'. unfold upd. rewrite decide_False; [done|].
      intros <-. by apply Hi in Hi'.
Qed.
End slot.

(** Processes are slept on only by themselves, and parents are other
    processes. *)
Lemma parent_other l init i p : tree_ok l init -> l !! i = Some p -> p_parent p <> Some i.
Proof. intros Ht Hi Hp. destruct (tr_parent _ _ Ht i p i Hi Hp) as (r&Hr&_&Hlt). assert (r = p) by congruence. subst. lia. Qed.

Lemma init_root l n init i p : pids_ok l n -> tree_ok l init -> init = Some i -> l !! i = Some p -> p_parent p = None.
Proof.
  intros Hd Ht Hin Hi. destruct (p_parent p) as [q|] eqn:Hq; [|done]. exfalso.
  destruct (tr_parent _ _ Ht i p q Hi Hq) as (r&Hr&Ha&Hlt). destruct (tr_init _ _ Ht) as (i0&p0&Hin0&Hp0&_&Hmin).
  assert (i0 = i) by congruence. subst i0. assert (p0 = p) by congruence. subst p0.
  destruct (decide (q = i)) as [->|Hne]; [assert (r = p) by congruence; subst; lia|].
  assert (p_pid r <> 0). { eapply (pd_used _ _ Hd); [done|]. intros E. rewrite alive_phase, E in Ha. done. }
  specialize (Hmin q r Hr Hne ltac:(done)). lia.
Qed.

(** exit() *)
Section exits.
Context (l : list proc) (n : Z) (init : option nat) (c : nat) (pc : proc).
Context (Hd : pids_ok l n) (Ht : tree_ok l init) (Hc : l !! c = Some pc) (Hal : alive pc) (Hni : init <> Some c).

Let l' := exit_table c init l.
Let Hw : pw (exited c init) l l' := proj1 (exit_table_spec c init l pc Hc).

Lemma exit_alive i p p' : exited c init i p p' -> i <> c -> (alive p' <-> alive p) /\
  (p_state p' = UNUSED <-> p_state p = UNUSED) /\ (p_state p' = EMBRYO <-> p_state p = EMBRYO) /\
  (p_state p' = ZOMBIE <-> p_state p = ZOMBIE) /\ (p_state p' = RUNNING <-> p_state p = RUNNING).
Proof using.
  intros [_ _ _ _ _ Hs] Hne. unfold alive. destruct (Hs Hne) as [->|(-> & ->)]; [done|]. split_and!; split; try done; tauto.
Qed.

Lemma pids_exit : pids_ok l' n.
Proof using All.
  destruct Hd as [H1 H2 H3]. split.
  - intros i x' Hi. destruct (pw_bwd _ _ _ _ _ Hw Hi) as (x&Hx&[_ -> _ _ _ _]). eauto.
  - intros i x' Hi Hs. destruct (pw_bwd _ _ _ _ _ Hw Hi) as (x&Hx&E). rewrite (xt_pid _ _ _ _ _ E).
    eapply H2; [done|]. destruct (decide (i = c)) as [->|Hne].
    + assert (x = pc) as -> by congruence. intros E'. rewrite alive_phase, E' in Hal. done.
    + intros E'. apply Hs. by eapply exit_alive.
  - intros i j x' y' Hi Hj. destruct (pw_bwd _ _ _ _ _ Hw Hi) as (x&Hx&[_ -> _ _ _ _]), (pw_bwd _ _ _ _ _ Hw Hj) as (y&Hy&[_ -> _ _ _ _]). eauto.
Qed.

Lemma tree_exit : tree_ok l' init.
Proof using All.
  pose proof Ht as [H1 H2 H3 (i0&p0&Hin&Hp0&Ha0&Hmin)].
  assert (i0 <> c) as Hi0 by congruence.
  destruct (pw_fwd _ _ _ _ _ Hw Hp0) as (p0'&Hp0'&E0). pose proof (exit_alive _ _ _ E0 Hi0) as (A0&_).
  assert (forall i x' x, l !! i = Some x -> exited c init i x x' -> p_state x' = UNUSED -> p_state x = UNUSED) as Hun.
  { intros i x' x Hx E Hs. destruct (decide (i = c)) as [->|Hne]; [by rewrite (xt_self _ _ _ _ _ E) in Hs|]. by apply (exit_alive _ _ _ E Hne). }
  split.
  - intros i x' Hi Hs. destruct (pw_bwd _ _ _ _ _ Hw Hi) as (x&Hx&E).
    rewrite (xt_parent _ _ _ _ _ E), (H1 i x Hx) by eauto. by rewrite decide_False.
  - intros i x' q Hi Hq. destruct (pw_bwd _ _ _ _ _ Hw Hi) as (x&Hx&E). rewrite (xt_parent _ _ _ _ _ E) in Hq.
    rewrite (xt_pid _ _ _ _ _ E). case_decide as Hpc.
    + assert (q = i0) by congruence. subst q. exists p0'. split; [done|]. split; [tauto|].
      rewrite (xt_pid _ _ _ _ _ E0). apply (Hmin i); [done| |].
      * intros ->. pose proof (init_root _ _ _ _ _ Hd Ht Hin Hx). congruence.
      * eapply (pd_used _ _ Hd); [done|]. intros Hu. rewrite (H1 i x Hx Hu) in Hpc. done.
    + destruct (H2 i x q Hx Hq) as (r&Hr&Har&Hlt). destruct (pw_fwd _ _ _ _ _ Hw Hr) as (r'&Hr'&Er).
      exists r'. split; [done|]. rewrite (xt_pid _ _ _ _ _ Er). split; [|done]. apply (exit_alive _ _ _ Er); [congruence|done].
  - intros i x' Hi Hs Hne. destruct (pw_bwd _ _ _ _ _ Hw Hi) as (x&Hx&E). rewrite (xt_parent _ _ _ _ _ E).
    case_decide; [by eexists|]. eapply H3; [done| |done]. destruct (decide (i = c)) as [->|Hic].
    + left. by assert (x = pc) as -> by congruence.
    + pose proof (exit_alive _ _ _ E Hic). tauto.
  - exists i0, p0'. split; [done|]. split; [done|]. split; [tauto|]. intros j x' Hj Hne Hnz.
    destruct (pw_bwd _ _ _ _ _ Hw Hj) as (x&Hx&E). rewrite (xt_pid _ _ _ _ _ E) in *. rewrite (xt_pid _ _ _ _ _ E0). eauto.
Qed.

Lemma sleep_exit : sleep_ok l -> sleep_ok l'.
Proof using All.
  intros Hs i x' q Hi Hsl Hch. pose proof (exit_table_spec c init l pc Hc) as (_&Hwp&Hwi).
  destruct (pw_bwd _ _ _ _ _ Hw Hi) as (x&Hx&E). pose proof E as [_ _ _ Ec E1 E2]. rewrite Ec in Hch.
  assert (i <> c) as Hic by (intros ->; rewrite E1 in Hsl by done; done).
  destruct (E2 Hic) as [Est|(_&Est)]; [|congruence]. rewrite Est in Hsl.
  destruct (Hs i x q Hx Hsl Hch) as [-> Hno]. split; [done|]. intros j r' Hj Hpar Hz.
  destruct (pw_bwd _ _ _ _ _ Hw Hj) as (r&Hr&F). rewrite (xt_parent _ _ _ _ _ F) in Hpar.
  destruct (decide (j = c)) as [->|Hjc].
  - assert (r = pc) as -> by congruence. rewrite decide_False in Hpar by (by eapply parent_other).
    apply (Hwp i x' Hi); [congruence|]. rewrite Ec, Hch, Hpar. done.
  - pose proof (exit_alive _ _ _ F Hjc) as (_&_&_&Hzz&_). case_decide as Hpc; [|by eapply (Hno j); [done..|tauto]].
    eapply (Hwi j r); [done|done|tauto|exact Hi|congruence|]. rewrite Ec, Hch, Hpar. done.
Qed.

Lemma forks_exit fk : forks_ok l fk -> fk c = None -> forks_ok l' fk.
Proof using All.
  intros [H1 H2 H3] Hf. split; [|done|].
  - intros i j Hij. destruct (H1 i j Hij) as (p&q&Hp&Ha&Hq&He&Hpar&Hlt).
    destruct (pw_fwd _ _ _ _ _ Hw Hp) as (p'&Hp'&Ep), (pw_fwd _ _ _ _ _ Hw Hq) as (q'&Hq'&Eq).
    assert (i <> c) by congruence.
    assert (j <> c). { intros ->. assert (q = pc) by congruence. subst. rewrite alive_phase, He in Hal. done. }
    exists p', q'. rewrite (xt_pid _ _ _ _ _ Ep), (xt_pid _ _ _ _ _ Eq), (xt_parent _ _ _ _ _ Eq).
    pose proof (exit_alive _ _ _ Ep ltac:(done)). pose proof (exit_alive _ _ _ Eq ltac:(done)).
    rewrite decide_False by (destruct Hpar; congruence). tauto.
  - intros j q' Hj He. destruct (pw_bwd _ _ _ _ _ Hw Hj) as (q&Hq&E). eapply H3; [done|].
    destruct (decide (j = c)) as [->|Hne]; [by rewrite (xt_self _ _ _ _ _ E) in He|]. by apply (exit_alive _ _ _ E Hne).
Qed.
End exits.

Lemma cpus_exit l c init pc on k :
  l !! c = Some pc -> on k = Some c -> cpus_ok l on -> cpus_ok (exit_table c init l) (upd on k None).
Proof.
  intros Hc Hk. apply (cpus_leave l _ on k c); [|done].
  eapply pw_mono; [|apply (exit_table_spec c init l pc Hc)]. intros i p p' E. case_decide as Hi.
  - by rewrite (xt_self _ _ _ _ _ E).
  - by apply (exit_alive _ _ _ _ _ E).
Qed.

Lemma inv_exit w k i :
  inv w -> on w k = Some i -> init w <> Some i -> forking w i = None ->
  inv (mkworld (exit_table i (init w) (tab w)) (npid w) (init w) (upd (on w) k None) (forking w)).
Proof.
  intros [Hd Hc Hf Ht Hs] Hk Hni Hfi. destruct (cp_on _ _ Hc k i Hk) as (p&Hp&Hr).
  assert (alive p) as Ha by (unfold alive; tauto).
  split; cbn; [by eapply pids_exit|by eapply cpus_exit|by eapply forks_exit|by eapply tree_exit|by eapply sleep_exit].
Qed.

(** A slot that is not live before the step is replaced. *)
Lemma inv_slot w j p p' i n' :
  inv w -> tab w !! j = Some p -> ~ alive p -> npid w <= n' -> 0 <= p_pid p' < n' ->
  (p_pid p' <> 0 -> forall i q, tab w !! i = Some q -> i <> j -> p_pid q < p_pid p' \/ p_pid p' = p_pid p) ->
  (p_state p' <> UNUSED -> p_pid p' <> 0) ->
  (p_state p' = UNUSED /\ p_parent p' = None \/ p_state p' = EMBRYO /\ (p_parent p' = None \/ p_parent p' = Some i) \/
   p_state p' = RUNNABLE /\ p_parent p' = Some i) ->
  (p_state p' <> UNUSED -> exists q, tab w !! i = Some q /\ alive q /\ p_pid q < p_pid p') ->
  (forall i', forking w i' = Some j -> i' = i) -> (forall k, forking w i = Some k -> k = j) ->
  inv (mkworld (<[j := p']> (tab w)) n' (init w) (on w)
    (upd (forking w) i (if decide (p_state p' = EMBRYO) then Some j else None))).
Proof.
  intros [Hd Hc Hf Ht Hs] Hj Hna Hn Hr Hnew Hu Hst Hi Hown Hfi.
  assert (p_state p' <> SLEEPING /\ p_state p' <> ZOMBIE /\ p_state p' <> RUNNING) as (Hn1&Hn2&Hn3)
    by (by destruct Hst as [(->&_)|[(->&_)|(->&_)]]).
  assert (p_state p <> RUNNING) as Hn4 by (unfold alive in Hna; tauto).
  split; cbn.
  - eapply pids_slot; [done..|]. intros Hnz x q Hx Hne E. destruct (Hnew Hnz x q Hx Hne) as [Hlt|Heq]; [lia|].
    apply Hne. eapply (pd_inj _ _ Hd); [done|exact Hj|congruence|congruence].
  - by eapply insert_cpus; [done|tauto|].
  - eapply forks_slot; [done|done|done|done| | |done].
    + intros q He Hq. destruct (Hi ltac:(congruence)) as (q'&Hq'&Ha&Hlt). assert (q' = q) as -> by congruence.
      split; [done|]. split; [|done]. destruct Hst as [(?&_)|[(_&?)|(?&_)]]; [congruence|done|congruence].
    + intros He. destruct (Hi ltac:(congruence)) as (q'&->&_). by eexists.
  - eapply tree_slot; [done|done|done| | | |].
    + intros E. destruct Hst as [(_&?)|[(?&_)|(?&_)]]; congruence.
    + intros q Hq. assert (p_state p' <> UNUSED /\ q = i) as [? ->]; [|by apply Hi].
      destruct Hst as [(_&?)|[(->&[?|?])|(->&?)]]; split; congruence.
    + unfold alive. intros Hx. destruct Hst as [(E&_)|[(E&_)|(_&->)]]; [..|by eexists];
        rewrite E in Hx; by destruct Hx as [[|[]]|].
    + intros Hnz x r Hx Hr'. destruct (tr_init _ _ Ht) as (i0&p0&Hi0&Hp0&Ha0&Hmin). assert (x = i0) as -> by congruence.
      assert (r = p0) as -> by congruence. assert (i0 <> j) as Hij by (intros ->; apply Hna; congruence).
      destruct (Hnew Hnz i0 p0 Hp0 Hij) as [?|E]; [done|]. rewrite E.
      eapply Hmin; [exact Hj|done|congruence].
  - by eapply sleep_slot.
Qed.

Lemma upd_same {A} (f : nat -> A) i x : f i = x -> forall k, upd f i x k = f k.
Proof. intros <- k. unfold upd. by case_decide; subst. Qed.

Lemma forks_ext l fk fk' : (forall i, fk' i = fk i) -> forks_ok l fk -> forks_ok l fk'.
Proof. intros E [H1 H2 H3]. split; setoid_rewrite E; done. Qed.

Lemma inv_forking_ext w fk' :
  (forall i, fk' i = forking w i) -> inv w -> inv (mkworld (tab w) (npid w) (init w) (on w) fk').
Proof. intros E [Hd Hc Hf Ht Hs]. split; [done|done|by eapply forks_ext|done|done]. Qed.

Lemma not_alive p st : p_state p = st -> phase st <> 2%nat -> ~ alive p.
Proof. intros <-. by rewrite alive_phase. Qed.

Lemma inv_alloc w k i j p :
  inv w -> on w k = Some i -> forking w i = None ->
  find_state UNUSED (tab w) 0 = Some j -> tab w !! j = Some p ->
  inv (mkworld (<[j := set_p_pid (npid w) (set_p_state EMBRYO p)]> (tab w)) (npid w + 1)
        (init w) (on w) (upd (forking w) i (Some j))).
Proof.
  intros Hi Hk Hf Hfind Hj. pose proof Hi as [Hd Hc Hfk Ht Hs].
  apply find_state_spec in Hfind as (p0&_&Hp0&Hst). rewrite Nat.sub_0_r in Hp0. assert (p0 = p) as -> by congruence.
  pose proof (tr_unused _ _ Ht j p Hj Hst) as Hpar. destruct (cp_on _ _ Hc k i Hk) as (pi&Hpi&Hrun).
  assert (forall x q, tab w !! x = Some q -> 0 <= p_pid q < npid w) as Hr by apply Hd. pose proof (Hr i pi Hpi).
  apply (inv_slot w j p (set_p_pid (npid w) (set_p_state EMBRYO p)) i); cbn; try done; try lia.
  - by eapply not_alive.
  - intros _ x q Hx _. left. apply Hr in Hx. lia.
  - right. left. split; [done|]. by left.
  - intros _. exists pi. split; [done|]. split; [unfold alive; tauto|]. apply Hr in Hpi. lia.
  - intros i' Hi'. destruct (fk_at _ _ Hfk _ _ Hi') as (?&q&_&_&Hq&He&_). congruence.
  - congruence.
Qed.

(** The three steps of fork() on its new slot *)
Lemma inv_embryo w k i j p p' :
  inv w -> on w k = Some i -> forking w i = Some j -> tab w !! j = Some p -> p_pid p' = p_pid p ->
  (p_state p' = UNUSED /\ p_parent p' = None \/ p_state p' = EMBRYO /\ (p_parent p' = None \/ p_parent p' = Some i) \/
   p_state p' = RUNNABLE /\ p_parent p' = Some i) ->
  inv (mkworld (<[j := p']> (tab w)) (npid w) (init w) (on w)
    (upd (forking w) i (if decide (p_state p' = EMBRYO) then Some j else None))).
Proof.
  intros Hi Hk Hf Hj Hpid Hst. pose proof Hi as [Hd Hc Hfk Ht Hs].
  destruct (fk_at _ _ Hfk i j Hf) as (q&p0&Hq&Ha&Hp0&He&Hpar&Hlt). assert (p0 = p) as -> by congruence.
  pose proof (pd_range _ _ Hd j p Hj). pose proof (pd_range _ _ Hd i q Hq).
  apply (inv_slot w j p p' i); rewrite ?Hpid; try done; try lia.
  - by eapply not_alive.
  - intros _. exists q. done.
  - intros i' Hi'. by eapply (fk_one _ _ Hfk).
  - congruence.
Qed.

Lemma inv_reap w k i j p :
  inv w -> on w k = Some i -> tab w !! j = Some p -> p_parent p = Some i -> p_state p = ZOMBIE ->
  inv (set_tab (<[j := reaped p]> (tab w)) w).
Proof.
  intros Hi Hk Hj Hpar Hz. pose proof Hi as [Hd Hc Hfk Ht Hs].
  assert (forall i', forking w i' <> Some j) as Hnf.
  { intros i' Hi'. destruct (fk_at _ _ Hfk _ _ Hi') as (?&q&_&_&Hq&He&_). congruence. }
  pose proof (pd_range _ _ Hd j p Hj).
  pose proof (inv_slot w j p (reaped p) j (npid w) Hi Hj) as Hinv. cbn in Hinv. 
  destruct (forking w j) as [j'|] eqn:Hfj.
  { destruct (fk_at _ _ Hfk _ _ Hfj) as (q&_&Hq&Ha&_). assert (q = p) as -> by congruence. by rewrite alive_phase, Hz in Ha. }
  apply (inv_forking_ext (mkworld (<[j := reaped p]> (tab w)) (npid w) (init w) (on w) (upd (forking w) j None))).
  { intros x. cbn. by rewrite upd_same. }
  apply Hinv; try done; try lia; try tauto.
  - by eapply not_alive.
  - intros i' Hi'. by destruct (Hnf i').
Qed.

(** wait() goes to sleep only when none of its children is a zombie. *)
Lemma inv_wait w k i p :
  inv w -> on w k = Some i -> tab w !! i = Some p ->
  (forall j q, tab w !! j = Some q -> p_parent q = Some i -> p_state q <> ZOMBIE) ->
  inv (mkworld (<[i := asleep (CProc i) p]> (tab w)) (npid w) (init w) (upd (on w) k None) (forking w)).
Proof.
  intros [Hd Hc Hf Ht Hs] Hk Hi Hno. destruct (cp_on _ _ Hc k i Hk) as (p0&Hp0&Hr). assert (p0 = p) as -> by congruence.
  assert (pw (fun _ => mild) (tab w) (<[i := asleep (CProc i) p]> (tab w))) as Hm.
  { eapply pw_mono; [|by apply (pw_insert _ i p)]. intros j x x' [(->&->&->)|(_&->)]; [|done].
    unfold mild. cbn. by rewrite Hr. }
  split; cbn; [by eapply pids_mild|by eapply insert_leave|by eapply forks_mild|by eapply tree_mild|].
  intros j x q Hj Hsl Hch. assert (q = j /\ forall j' r, tab w !! j' = Some r -> p_parent r = Some j -> p_state r <> ZOMBIE)
    as [-> Hz]. { destruct (lookup_slot _ _ _ _ _ _ Hi Hj) as [(->&->)|(_&Hx)]; [by injection Hch as <-|eauto]. }
  split; [done|]. intros j' r' Hj' Hpar Hzz. destruct (pw_bwd _ _ _ _ _ Hm Hj') as (r&Hr'&M). pose proof M as (_&E&_).
  eapply Hz; [done|congruence|by apply (mild_phase _ _ M)].
Qed.

(** What a process or its CPU does to the slot of a live process. *)
Lemma inv_live w i p p' on' :
  inv w -> tab w !! i = Some p -> mild p p' ->
  (forall q, p_state p' = SLEEPING -> p_chan p' = Some (CProc q) -> p_state p = SLEEPING /\ p_chan p = Some (CProc q)) ->
  cpus_ok (<[i := p']> (tab w)) on' ->
  inv (mkworld (<[i := p']> (tab w)) (npid w) (init w) on' (forking w)).
Proof. intros. eapply inv_mild; [done|by eapply insert_mild|done]. Qed.

Lemma proc_step_inv w w' : inv w -> step w w' -> inv w'.
Proof.
  intros Hi Hs. pose proof Hi as [Hd Hc Hf Ht Hsl].
  assert (forall k i p, on w k = Some i -> tab w !! i = Some p -> p_state p = RUNNING) as Hrun.
  { intros k i p Hk Hp. destruct (cp_on _ _ Hc k i Hk) as (p0&Hp0&Hr). congruence. }
  assert (forall i j p, forking w i = Some j -> tab w !! j = Some p ->
    p_state p = EMBRYO /\ (p_parent p = None \/ p_parent p = Some i)) as Hemb.
  { intros i j p Hij Hp. destruct (fk_at _ _ Hf i j Hij) as (_&q&_&_&Hq&He&Hpar&_). assert (q = p) as -> by congruence. done. }
  destruct Hs as [k i j p Hk Hfi Hfind Hj|k i j p p' Hk Hfi Hj (E1&E2&E3) Hch Hpar|k i j p p' Hk Hfi Hj (E1&E2&E3) Hpar
    |k i j p Hk Hfi Hj Hpar|k i p p' Hk Hp (E1&E2&E3) Hpar Hch|k i Hk Hni Hfi|k i j p Hk Hj Hpar Hz|k i p Hk Hp Hno
    |k i c p Hk Hp|k i p Hk Hp|c|i p Hp|k i p Hk Hp Hr].
  - by eapply inv_alloc.
  - destruct (Hemb i j p Hfi Hj) as [He Hp0].
    eapply (inv_forking_ext (mkworld _ _ _ _ (upd (forking w) i (if decide (p_state p' = EMBRYO) then Some j else None)))).
    { intros x. cbn. rewrite decide_True by congruence. by rewrite upd_same. }
    eapply inv_embryo; [done|done|done|done|done|]. right. left. split; [congruence|]. destruct Hpar as [->|]; tauto.
  - apply (inv_embryo w k i j p (set_p_state UNUSED p')); [done|done|done|done|done|]. left. done.
  - apply (inv_embryo w k i j p (set_p_state RUNNABLE p)); [done|done|done|done|done|]. right. right. done.
  - eapply inv_live; [done|done|by unfold mild; rewrite E1| |by eapply insert_cpus; [done|by rewrite E1|]].
    rewrite E1, (Hrun k i p Hk Hp). done.
  - by eapply inv_exit.
  - by eapply inv_reap.
  - by eapply inv_wait.
  - eapply inv_live; [done|done| |done|by eapply insert_leave]. unfold mild. cbn. by rewrite (Hrun k i p Hk Hp).
  - eapply inv_live; [done|done| |done|by eapply insert_leave]. unfold mild. cbn. by rewrite (Hrun k i p Hk Hp).
  - assert (pw (fun _ p p' => mild p p' /\ (forall q, p_state p' = SLEEPING -> p_chan p' = Some (CProc q) ->
       p_state p = SLEEPING /\ p_chan p = Some (CProc q)) /\ (p_state p' = RUNNING <-> p_state p = RUNNING))
       (tab w) (wakeup1 (Some (CObj c)) (tab w))) as Hw.
    { eapply pw_mono; [|apply pw_wakeup1]. unfold woken, mild. intros _ p p' ->.
      do 2 case_bool_decide; cbn; try (split; [done|]; split; [auto|done]). by rewrite H. }
    apply inv_mild; [done|eapply pw_mono; [|exact Hw]; by intros _ p p' (H1&H2&_)|].
    eapply cpus_frame; [|done]. eapply pw_mono; [|exact Hw]. by intros _ p p' (_&_&H1).
  - eapply inv_live; [done|done| | |eapply insert_cpus; [done| |done]]; unfold mild, killed_proc;
      case_bool_decide as E; cbn; rewrite ?E; done.
  - eapply inv_live; [done|done| |done|eapply cpus_enter; [done| |done|done|done]]; unfold mild; cbn; by rewrite Hr.
Qed.

Lemma booted_inv w : booted w -> inv w.
Proof.
  intros [Hlen Hinit [i0 Hi0] Hrest Hn Hon Hfk]. destruct (Hinit i0 Hi0) as (p0&Hp0&Hst&Hpar&Hpid).
  assert (forall i p, tab w !! i = Some p -> i = i0 /\ p = p0 \/ i <> i0 /\ p_state p = UNUSED /\ p_parent p = None /\ p_pid p = 0)
    as Hcase.
  { intros i p Hi. destruct (decide (i = i0)) as [->|Hne]; [left; split; congruence|right]. split; [done|].
    eapply Hrest; [done|congruence]. }
  split.
  - split; rewrite ?Hn.
    + intros i p Hi. destruct (Hcase i p Hi) as [(->&->)|(_&_&_&->)]; lia.
    + intros i p Hi. destruct (Hcase i p Hi) as [(->&->)|(_&?&_&_)]; [lia|done].
    + intros i j p q Hi Hj. destruct (Hcase i p Hi) as [(->&->)|(_&_&_&E)]; [|by rewrite E].
      destruct (Hcase j q Hj) as [(->&->)|(_&_&_&E)]; [done|]. rewrite E. lia.
  - split; setoid_rewrite Hon; [done|done|]. intros i p Hi Hr. destruct (Hcase i p Hi) as [(->&->)|(_&?&_)]; congruence.
  - split; setoid_rewrite Hfk; [done|done|]. intros i p Hi Hr. destruct (Hcase i p Hi) as [(->&->)|(_&?&_)]; congruence.
  - split.
    + intros i p Hi Hu. destruct (Hcase i p Hi) as [(->&->)|(_&_&?&_)]; done.
    + intros i p q Hi. destruct (Hcase i p Hi) as [(->&->)|(_&_&->&_)]; congruence.
    + intros i p Hi Hs Hne. destruct (Hcase i p Hi) as [(->&->)|(_&E&_)]; [congruence|].
      unfold alive in Hs. rewrite E in Hs. by destruct Hs as [[|[]]|].
    + exists i0, p0. split; [done|]. split; [done|]. split; [unfold alive; tauto|]. intros j q Hj Hne.
      destruct (Hcase j q Hj) as [(->&->)|(_&_&_&->)]; done.
  - intros i p q Hi Hs. destruct (Hcase i p Hi) as [(->&->)|(_&?&_)]; congruence.
Qed.

Lemma reachable_inv w : reachable w -> inv w.
Proof.
  intros (w0&Hb&Hr). apply booted_inv in Hb. induction Hr; [done|]. eauto using proc_step_inv.
Qed.

(** ** Properties *)

(** process identifiers: however fork(), exit(), wait(), kill() and the
    schedulers of the CPUs interleave, two slots in use never have the same
    pid, and none has pid 0, so that kill() finds at most one process. *)
Theorem pid_unique w i j p q :
  reachable w -> tab w !! i = Some p -> tab w !! j = Some q -> p_state p <> UNUSED -> p_pid p = p_pid q ->
  i = j /\ 0 < p_pid p < npid w.
Proof.
  intros Hr Hi Hj Hs E. destruct (reachable_inv w Hr) as [[H1 H2 H3] _ _ _ _].
  pose proof (H1 i p Hi). pose proof (H2 i p Hi Hs). split; [eauto|lia].
Qed.

(** a process is on a CPU exactly when its state is RUNNING, and on one
    CPU only. *)
Theorem running_on_one_cpu w i p :
  reachable w -> tab w !! i = Some p ->
  (p_state p = RUNNING <-> exists k, on w k = Some i) /\
  (forall k k', on w k = Some i -> on w k' = Some i -> k = k').
Proof.
  intros Hr Hi. destruct (reachable_inv w Hr) as [_ [H1 H2 H3] _ _ _]. split; [|eauto]. split; [eauto|].
  intros [k Hk]. destruct (H1 k i Hk) as (p0&Hp0&Hs). congruence.
Qed.

Definition parent_of (w : world) (i q : nat) : Prop := exists p, tab w !! i = Some p /\ p_parent p = Some q.

(** C17: the process tree: from every process that has been started and not
    reaped, a zombie too, the parents lead to the first process, through
    processes that can still call wait(): exit() leaves no orphans. *)
Theorem process_tree w i p :
  reachable w -> tab w !! i = Some p -> alive p \/ p_state p = ZOMBIE ->
  exists r, init w = Some r /\ rtc (parent_of w) i r /\
    forall q, tc (parent_of w) i q -> exists pq, tab w !! q = Some pq /\ alive pq.
Proof.
  intros Hr Hi Hs. destruct (reachable_inv w Hr) as [Hd _ _ [H1 H2 H3 (r&pr&Hin&Hpr&Hal&Hmin)] _].
  exists r. split; [done|]. split.
  - remember (Z.to_nat (p_pid p)) as n eqn:Hn. revert i p Hi Hs Hn. induction (lt_wf n) as [n _ IH]. intros i p Hi Hs ->.
    destruct (decide (i = r)) as [->|Hne]; [done|].
    destruct (H3 i p Hi Hs ltac:(congruence)) as [q Hq]. destruct (H2 i p q Hi Hq) as (pq&Hpq&Ha&Hlt).
    pose proof (pd_range _ _ Hd q pq Hpq). eapply rtc_l; [by exists p|].
    eapply (IH (Z.to_nat (p_pid pq))); [lia|done|by left|done].
  - intros q Htc. clear Hi Hs. induction Htc as [i' q (p'&Hp'&Hq)|i' j' q _ _ IH]; [|done].
    destruct (H2 i' p' q Hp' Hq) as (pq&Hpq&Ha&_). eauto.
Qed.

(** C27: no exit is missed: while a process sleeps in wait(), none of its
    children is a zombie, whatever the order of exit(), wait() and of the
    adoption of orphans. *)
Theorem wait_no_lost_exit w i p j q :
  reachable w -> tab w !! i = Some p -> p_state p = SLEEPING -> p_chan p = Some (CProc i) ->
  tab w !! j = Some q -> p_parent q = Some i -> p_state q <> ZOMBIE.
Proof.
  intros Hr Hi Hs Hc Hj Hp. destruct (reachable_inv w Hr) as [_ _ _ _ Hsl]. destruct (Hsl i p i Hi Hs Hc) as [_ Hno]. eauto.
Qed.

(** An execution: the first process forks a child and waits for it. *)
Module Example.

Definition slot0 : proc :=
  mkproc 0 0 0 UNUSED 0 None 0 0 None false (replicate NOFILE None) None (replicate 16 0) 0 0 0.
Definition init0 : proc := set_p_pid 1 (set_p_state RUNNABLE slot0).
Definition none : nat -> option nat := fun _ => None.

Definition w0 : world := mkworld (init0 :: replicate 63 slot0) 2 (Some 0%nat) none none.
Definition w1 : world := mkworld (<[0%nat := set_p_state RUNNING init0]> (tab w0)) 2 (Some 0%nat) (upd none 0 (Some 0%nat)) none.
Definition child1 : proc := set_p_pid 2 (set_p_state EMBRYO slot0).
Definition w2 : world := mkworld (<[1%nat := child1]> (tab w1)) 3 (Some 0%nat) (on w1) (upd none 0 (Some 1%nat)).
Definition child2 : proc := set_p_parent (Some 0%nat) child1.
Definition w3 : world := set_tab (<[1%nat := child2]> (tab w2)) w2.
Definition w4 : world :=
  mkworld (<[1%nat := set_p_state RUNNABLE child2]> (tab w3)) 3 (Some 0%nat) (on w1) (upd (forking w3) 0 None).
Definition w5 : world :=
  mkworld (<[0%nat := asleep (CProc 0) (set_p_state RUNNING init0)]> (tab w4)) 3 (Some 0%nat) (upd (on w1) 0 None) (forking w4).

Lemma w0_booted : booted w0.
Proof.
  split; cbn [tab npid init on forking w0]; try done.
  - intros i [= <-]. exists init0. done.
  - intros [|i] p Hi Hne; [done|]. change (replicate 63 slot0 !! i = Some p) in Hi.
    apply lookup_replicate in Hi as [-> _]. done.
Qed.

Lemma w4_no_zombie j q : tab w4 !! j = Some q -> p_state q <> ZOMBIE.
Proof.
  intros Hj. assert (Forall (fun q => p_state q <> ZOMBIE) (tab w4)) as Hf.
  { vm_compute. repeat constructor; discriminate. }
  by eapply Forall_lookup_1 in Hf.
Qed.

Lemma w5_reachable : reachable w5.
Proof.
  exists w0. split; [exact w0_booted|].
  eapply rtc_l; [exact (st_sched w0 0 0 init0 eq_refl eq_refl eq_refl)|].
  eapply rtc_l; [exact (st_alloc w1 0 0 1 slot0 eq_refl eq_refl eq_refl eq_refl)|].
  eapply rtc_l; [by apply (st_build w2 0 0 1 child1 child2); [..|by right]|].
  eapply rtc_l; [exact (st_fork_done w3 0 0 1 child2 eq_refl eq_refl eq_refl eq_refl)|].
  eapply rtc_l; [|apply rtc_refl].
  apply (st_wait w4 0 0 (set_p_state RUNNING init0) eq_refl eq_refl). intros j q Hj _. by eapply w4_no_zombie.
Qed.

Lemma pid_unique_witness : 1%nat = 1%nat /\ 0 < p_pid (set_p_state RUNNABLE child2) < npid w5.
Proof. by apply (pid_unique w5 1 1 _ _ w5_reachable eq_refl eq_refl). Defined.

Lemma running_on_one_cpu_witness :
  (p_state (set_p_state RUNNABLE child2) = RUNNING <-> exists k, on w5 k = Some 1%nat) /\
  (forall k k', on w5 k = Some 1%nat -> on w5 k' = Some 1%nat -> k = k').
Proof. exact (running_on_one_cpu w5 1 _ w5_reachable eq_refl). Defined.

Lemma process_tree_witness :
  exists r, init w5 = Some r /\ rtc (parent_of w5) 1%nat r /\
    forall q, tc (parent_of w5) 1%nat q -> exists pq, tab w5 !! q = Some pq /\ alive pq.
Proof. apply (process_tree w5 1 (set_p_state RUNNABLE child2) w5_reachable eq_refl). left. right. left. done. Defined.

Lemma wait_no_lost_exit_witness : p_state (set_p_state RUNNABLE child2) <> ZOMBIE.
Proof. exact (wait_no_lost_exit w5 0 _ 1 _ w5_reachable eq_refl eq_refl eq_refl eq_refl eq_refl). Defined.

End Example.
