(* ===== verification/ProcRefine.v ===== *)
(** The code of Proc.v takes the steps of ProcSpec.v: every section of code
    that runs with ptable.lock, up to the switch to the scheduler, returns
    without a panic and takes the table from one state of the transition
    system to the next. *)

From stdpp Require Import relations.
From S2P Require Import Prelude Params Bytes CString Kalloc Vm Spinlock Proc ProcSpec.

Section refine.
Context {F : Type} `{ProcFiles F} `{KernelImage}.
Context (kpgdir : Z).
Implicit Types (s : kstate F) (w : world).

(** CPU [k] sees the state [w]. *)
Record shows (k : nat) s w : Prop := {
  sh_tab : procs (pt s) = tab w;
  sh_len : length (tab w) = NPROC;
  sh_npid : nextpid (pt s) = npid w;
  sh_init : initproc (pt s) = init w;
  sh_on : cur s = on w k;
}.

(** The CPU holds [n] spin locks, none of them ptable.lock. *)
Definition quiet (n : Z) s : Prop :=
  pt_lock (pt s) = false /\ ncli (kcpu s) = n /\ (0 < n -> fl_if (kcpu s) = false).

(** It holds ptable.lock and no other lock. *)
Definition locked1 s : Prop :=
  pt_lock (pt s) = true /\ ncli (kcpu s) = 1 /\ fl_if (kcpu s) = false.

Definition held_state s : kstate F :=
  set_pt (set_pt_lock true (pt s)) (set_kcpu (pushcli (kcpu s)) s).

Lemma wp_pt_acquire n Q s :
  quiet n s -> Q tt (held_state s) -> wp pt_acquire Q s.
Proof. intros (Hl&_) HQ. unfold pt_acquire. wp_steps; [done|]. exact HQ. Qed.

Lemma wp_pt_release Q s :
  locked1 s -> (forall c, ncli c = 0 -> Q tt (set_kcpu c (set_pt (set_pt_lock false (pt s)) s))) -> wp pt_release Q s.
Proof.
  intros (Hl&Hn&Hf) HQ. unfold pt_release. wp_steps; [done|]. unfold popcli. rewrite Hf, Hn. cbn. apply wp_modify, HQ. done.
Qed.

Lemma held_locked s : quiet 0 s -> locked1 (held_state s).
Proof. intros (Hl&Hn&_). unfold locked1, held_state. cbn. rewrite Hn. done. Qed.

Lemma wp_get_proc i p (Q : proc -> kstate F -> Prop) s :
  procs (pt s) !! i = Some p -> Q p s -> wp (get_proc i) Q s.
Proof. intros Hi HQ. unfold wp, get_proc. by rewrite Hi. Qed.

Definition set_slot (i : nat) (p : proc) s : kstate F := set_pt (set_procs (<[i := p]> (procs (pt s))) (pt s)) s.

Lemma wp_upd_proc i p f (Q : unit -> kstate F -> Prop) s :
  procs (pt s) !! i = Some p -> Q tt (set_slot i (f p) s) -> wp (upd_proc i f) Q s.
Proof. intros Hi HQ. unfold upd_proc. apply wp_bind. by eapply wp_get_proc. Qed.

Lemma slot_self i p s p' : procs (pt s) !! i = Some p -> procs (pt (set_slot i p' s)) !! i = Some p'.
Proof. intros Hi. cbn. apply list_lookup_insert_eq. by eapply lookup_lt_Some. Qed.

Lemma wp_myproc i (Q : nat -> kstate F -> Prop) s : cur s = Some i -> Q i s -> wp myproc Q s.
Proof. intros Hi HQ. unfold myproc. wp_steps. by rewrite Hi. Qed.

(** sched() finds what it asks for. *)
Lemma wp_sched i p (Q : unit -> kstate F -> Prop) s :
  cur s = Some i -> procs (pt s) !! i = Some p -> p_state p <> RUNNING -> locked1 s -> Q tt s -> wp sched Q s.
Proof.
  intros Hi Hp Hs (Hl&Hn&Hf) HQ. unfold sched. apply wp_bind. eapply (wp_myproc i); [done|].
  apply wp_bind. eapply wp_get_proc; [done|]. wp_steps; unfold id; rewrite ?Hl, ?Hn, ?Hf; try done.
  by rewrite bool_decide_false.
Qed.

(** ** The sections *)

Inductive section : Type :=
  | SAlloc                             (* allocproc(), up to release() *)
  | SPublish (j : nat)                 (* the end of fork() *)
  | SYield
  | SSleep (c : chan) (rel : M F unit) (* sleep() with a lock other than ptable.lock *)
  | SWakeup (c : chan)
  | SKill (pid : Z)
  | SExit.                             (* exit(), from acquire() on *)

(** The part of release(lk) that this CPU sees. *)
Definition spin_release (rel : M F unit) : M (kstate F) unit :=
  onfiles rel ;;;
  let* c := gets kcpu in
  match popcli c with
  | Some c => modify (set_kcpu c)
  | None => panic "popcli"
  end.

Definition code (x : section) : M (kstate F) unit :=
  match x with
  | SAlloc => alloc_slot ;;; ret tt
  | SPublish j => set_runnable j
  | SYield => yield ;;; scheduler_back kpgdir
  | SSleep c rel => sleep (CObj c) (Some (ret tt, spin_release rel)) ;;; scheduler_back kpgdir
  | SWakeup c => wakeup (CObj c)
  | SKill pid => kill pid ;;; ret tt
  | SExit => (let* c := myproc in pt_acquire ;;; exit_locked c ;;; sched) ;;; scheduler_back kpgdir
  end.

(** What the callers of a section see to: [i] is the process that runs it. *)
Definition ready (x : section) (i : nat) s w : Prop :=
  match x with
  | SAlloc => quiet 0 s /\ forking w i = None /\ npid w < 2 ^ 31 - 1
  | SPublish j => quiet 0 s /\ forking w i = Some j /\ exists p, tab w !! j = Some p /\ p_parent p = Some i
  | SSleep _ rel => quiet 1 s /\ forall f, wp rel (fun _ _ => True) f
  | SExit => quiet 0 s /\ init w <> Some i /\ forking w i = None
  | _ => quiet 0 s
  end.

(** The sections that end in the scheduler still hold ptable.lock. *)
Definition switches (x : section) : bool :=
  match x with SYield | SSleep _ _ | SExit => true | _ => false end.

Definition refines k (x : section) s w : Prop :=
  wp (code x) (fun _ s' => (if switches x then locked1 s' else quiet 0 s') /\
    exists w', rtc step w w' /\ shows k s' w') s.

Lemma shows_slot k s w j p :
  shows k s w -> shows k (set_slot j p s) (set_tab (<[j := p]> (tab w)) w).
Proof. intros []. split; cbn; [congruence|by rewrite length_insert|done..]. Qed.

Lemma refine_alloc k i s w :
  shows k s w -> on w k = Some i -> ready SAlloc i s w -> refines k SAlloc s w.
Proof.
  intros Hsh Hi (Hq&Hf&Hn). pose proof Hsh as [Ht Hlen Hnp Hin Hon]. unfold refines. cbn [code switches].
  apply wp_bind. unfold alloc_slot. apply wp_bind. eapply wp_pt_acquire; [done|].
  pose proof (held_locked s Hq) as Hl. apply wp_bind, wp_gets. cbn [pt held_state set_pt procs set_pt_lock].
  rewrite Ht. destruct (find_state UNUSED (tab w) 0) as [j|] eqn:E.
  - pose proof (find_state_spec _ _ _ _ E) as (p&_&Hp&_). rewrite Nat.sub_0_r in Hp.
    apply wp_bind. eapply wp_upd_proc; [cbn; by rewrite Ht|]. apply wp_bind, wp_gets. cbn [pt set_slot set_pt nextpid set_procs held_state set_pt_lock].
    apply wp_bind. eapply wp_upd_proc; [eapply slot_self; cbn; by rewrite Ht|].
    rewrite Hnp. destruct (Z.ltb_spec (npid w) (2 ^ 31 - 1)); [|lia]. apply wp_bind, wp_modify.
    apply wp_bind. eapply wp_pt_release; [exact Hl|]. intros c Hc. do 2 apply wp_ret.
    split; [unfold quiet; cbn; split; [done|]; split; [done|lia]|].
    eexists. split; [apply rtc_once; by eapply (st_alloc w k i j p)|].
    split; cbn; rewrite ?list_insert_insert_eq, ?length_insert, ?Ht; done.
  - apply wp_bind. eapply wp_pt_release; [exact Hl|]. intros c Hc. do 2 apply wp_ret.
    split; [unfold quiet; cbn; split; [done|]; split; [done|lia]|]. exists w. split; [done|]. by split.
Qed.

Lemma refine_publish k i j s w :
  shows k s w -> on w k = Some i -> ready (SPublish j) i s w -> refines k (SPublish j) s w.
Proof.
  intros Hsh Hi (Hq&Hf&p&Hp&Hpar). pose proof Hsh as [Ht Hlen Hnp Hin Hon]. unfold refines. cbn [code switches].
  unfold set_runnable. apply wp_bind. eapply wp_pt_acquire; [done|]. pose proof (held_locked s Hq) as Hl.
  apply wp_bind. eapply wp_upd_proc; [cbn; by rewrite Ht|].
  eapply wp_pt_release; [exact Hl|]. intros c Hc. split; [unfold quiet; cbn; split; [done|]; split; [done|lia]|].
  eexists. split; [apply rtc_once; by eapply (st_fork_done w k i j p)|].
  split; cbn; rewrite ?length_insert, ?Ht; done.
Qed.

(** The process has changed its own slot to [p'] and calls sched(). *)
Lemma wp_leave k i p' s w w' :
  cur s = Some i -> procs (pt s) !! i = Some p' -> p_state p' <> RUNNING -> locked1 s ->
  step w w' -> on w' k = None ->
  tab w' = procs (pt s) -> length (tab w') = NPROC -> npid w' = nextpid (pt s) -> init w' = initproc (pt s) ->
  wp sched (fun _ s' => wp (scheduler_back kpgdir) (fun _ s' => locked1 s' /\ exists w', rtc step w w' /\ shows k s' w') s') s.
Proof.
  intros Hi Hp Hs Hl Hst Hon Ht Hlen Hn Hin. eapply wp_sched; [done..|]. unfold scheduler_back, switchkvm.
  apply wp_bind, wp_modify, wp_modify. split; [exact Hl|]. exists w'. split; [by apply rtc_once|]. by split; cbn.
Qed.

Lemma refine_yield k i p s w :
  shows k s w -> on w k = Some i -> tab w !! i = Some p -> ready SYield i s w -> refines k SYield s w.
Proof.
  intros Hsh Hi Hp Hq. pose proof Hsh as [Ht Hlen Hnp Hin Hon]. unfold refines. cbn [code switches].
  apply wp_bind. unfold yield. apply wp_bind. eapply wp_pt_acquire; [done|]. pose proof (held_locked s Hq) as Hl.
  apply wp_bind. eapply (wp_myproc i); [cbn; congruence|]. apply wp_bind. eapply wp_upd_proc; [cbn; by rewrite Ht|].
  eapply (wp_leave k i); [cbn; congruence|eapply slot_self; cbn; by rewrite Ht|done|exact Hl|by eapply (st_yield w k i p)|..];
    cbn; rewrite ?upd_at, ?length_insert, ?Ht; done.
Qed.

Lemma refine_sleep k i p c rel s w :
  shows k s w -> on w k = Some i -> tab w !! i = Some p -> ready (SSleep c rel) i s w -> refines k (SSleep c rel) s w.
Proof.
  intros Hsh Hi Hp (Hq&Hrel). pose proof Hsh as [Ht Hlen Hnp Hin Hon]. unfold refines. cbn [code switches].
  apply wp_bind. unfold sleep. apply wp_bind, wp_gets. apply wp_bind, wp_panic_if; [by rewrite Hon, Hi, bool_decide_false|].
  apply wp_bind. apply wp_bind. eapply wp_pt_acquire; [done|]. destruct Hq as (Hl&Hn&Hf).
  unfold spin_release. apply wp_bind, wp_zoom. eapply wp_mono; [apply Hrel|]. intros [] f _.
  apply wp_bind, wp_gets. cbn [kcpu set_fl held_state set_pt set_kcpu].
  unfold popcli, pushcli. cbn [fl_if ncli intena]. rewrite Hn. cbn [Z.add Z.sub]. change (1 + 1 - 1 <? 0) with false. cbv iota.
  apply wp_modify. apply wp_bind. eapply (wp_myproc i); [cbn; congruence|].
  apply wp_bind. eapply wp_upd_proc; [cbn; by rewrite Ht|].
  apply wp_bind. eapply wp_upd_proc; [eapply slot_self; cbn; by rewrite Ht|].
  eapply (wp_leave k i); [cbn; congruence|eapply slot_self, slot_self; cbn; by rewrite Ht|done|done|by eapply (st_sleep w k i c p)|..];
    cbn; rewrite ?upd_at, ?list_insert_insert_eq, ?length_insert, ?Ht; done.
Qed.

Lemma refine_wakeup k c i s w : shows k s w -> ready (SWakeup c) i s w -> refines k (SWakeup c) s w.
Proof.
  intros Hsh Hq. pose proof Hsh as [Ht Hlen Hnp Hin Hon]. unfold refines. cbn [code switches].
  unfold wakeup. apply wp_bind. eapply wp_pt_acquire; [done|]. pose proof (held_locked s Hq) as Hl.
  apply wp_bind, wp_modify. eapply wp_pt_release; [exact Hl|]. intros x Hx.
  split; [unfold quiet; cbn; split; [done|]; split; [done|lia]|].
  eexists. split; [apply rtc_once, (st_wakeup w c)|]. split; cbn; rewrite ?Ht; try done. unfold wakeup1. by rewrite length_fmap.
Qed.

(** kill() changes the first slot with the pid, if there is one. *)
Lemma refine_kill k i pid s w : shows k s w -> ready (SKill pid) i s w -> refines k (SKill pid) s w.
Proof.
  intros Hsh Hq. pose proof Hsh as [Ht Hlen Hnp Hin Hon]. unfold refines. cbn [code switches].
  apply wp_bind. unfold kill. apply wp_bind. eapply wp_pt_acquire; [done|]. pose proof (held_locked s Hq) as Hl.
  apply wp_bind. apply (wp_for_find _ _ (fun _ s' => s' = held_state s)); [done| |].
  - intros l1 j l2 ? Hseq ->. assert (j < NPROC)%nat as Hj.
    { assert (seq 0 NPROC !! length l1 = Some j) as Hx by (rewrite Hseq; by apply list_lookup_middle).
      apply lookup_seq in Hx. lia. }
    destruct (lookup_lt_is_Some_2 (tab w) j) as [p Hp]; [lia|].
    apply wp_bind. eapply wp_get_proc; [cbn; by rewrite Ht|]. destruct (Z.eqb_spec (p_pid p) pid); [|by apply wp_ret].
    assert (forall s', s' = set_slot j (killed_proc p) (held_state s) ->
      wp (pt_release ;;; ret (Some 0)) (fun r s'' => match r with Some b => wp (ret b) (fun _ s' => wp (ret tt)
        (fun _ s' => quiet 0 s' /\ exists w', rtc step w w' /\ shows k s' w') s') s'' | None => s'' = held_state s end) s') as Hfin.
    { intros ? ->. apply wp_bind. eapply wp_pt_release; [exact Hl|]. intros c Hc. do 3 apply wp_ret.
      split; [unfold quiet; cbn; split; [done|]; split; [done|lia]|].
      eexists. split; [apply rtc_once; by eapply (st_kill w j p)|]. split; cbn; rewrite ?length_insert, ?Ht; done. }
    apply wp_bind. eapply wp_upd_proc; [cbn; by rewrite Ht|]. apply wp_bind. unfold killed_proc in Hfin. case_bool_decide.
    + eapply wp_upd_proc; [eapply slot_self; cbn; by rewrite Ht|]. apply Hfin. unfold set_slot. cbn.
      by rewrite list_insert_insert_eq.
    + apply wp_ret. by apply Hfin.
  - intros ? ->. apply wp_bind. eapply wp_pt_release; [exact Hl|]. intros c Hc. do 2 apply wp_ret.
    split; [unfold quiet; cbn; split; [done|]; split; [done|lia]|]. exists w. split; [done|]. by split.
Qed.

Lemma refine_exit k i p s w :
  shows k s w -> on w k = Some i -> tab w !! i = Some p -> ready SExit i s w -> refines k SExit s w.
Proof.
  intros Hsh Hi Hp (Hq&Hni&Hf). pose proof Hsh as [Ht Hlen Hnp Hin Hon]. unfold refines. cbn [code switches].
  apply wp_bind, wp_bind. eapply (wp_myproc i); [congruence|]. apply wp_bind. eapply wp_pt_acquire; [done|].
  pose proof (held_locked s Hq) as Hl. apply wp_bind. unfold exit_locked.
  apply wp_bind. eapply wp_get_proc; [cbn; by rewrite Ht|]. apply wp_bind, wp_modify. apply wp_bind, wp_gets.
  apply wp_bind, wp_modify. cbn [pt set_pt held_state set_procs procs set_pt_lock initproc]. rewrite Hin, Ht.
  destruct (exit_table_spec i (init w) (tab w) p Hp) as (Hw&_). unfold exit_table in Hw. rewrite Hp in Hw.
  set (l := reparent i (init w) (wakeup1 (CProc <$> p_parent p) (tab w))) in *.
  destruct (pw_fwd _ _ _ _ _ Hw Hp) as (p'&Hp'&_). rewrite list_lookup_alter_eq in Hp'.
  destruct (l !! i) as [q|] eqn:Hq'; [|done].
  eapply wp_upd_proc; [exact Hq'|].
  assert (alter (set_p_state ZOMBIE) i l = <[i := set_p_state ZOMBIE q]> l) as Halt.
  { apply list_eq. intros x. destruct (decide (x = i)) as [->|Hne].
    - rewrite list_lookup_alter_eq, Hq', list_lookup_insert_eq by (by eapply lookup_lt_Some). done.
    - by rewrite list_lookup_alter_ne, list_lookup_insert_ne. }
  eapply (wp_leave k i); [cbn; congruence|eapply slot_self; exact Hq'|done|exact Hl|by eapply (st_exit w k i)|..];
    cbn; rewrite ?upd_at; unfold exit_table; rewrite ?Hp; fold l; try done.
  rewrite (pw_length _ _ _ Hw). done.
Qed.


(** The table after wait() has freed a zombie, and the rest. *)
Definition childless (l : list proc) (i : nat) : Prop := forall j q, l !! j = Some q -> p_parent q <> Some i.

Lemma existsb_childless l i : existsb (fun p => bool_decide (p_parent p = Some i)) l = false <-> childless l i.
Proof.
  unfold childless. rewrite <- not_true_iff_false, existsb_exists. split.
  - intros Hno j q Hj Hq. apply Hno. exists q. rewrite bool_decide_eq_true. split; [|done].
    by eapply list_elem_of_In, list_elem_of_lookup_2.
  - intros Hno (q&Hq&E). apply bool_decide_eq_true in E. apply list_elem_of_In, list_elem_of_lookup in Hq as [j Hj].
    by eapply Hno.
Qed.

(** wait(): it returns the pid of a child that has exited, whose slot it
    frees, or -1 when there is no child or the process has been killed;
    otherwise it goes to sleep, which it does only when no child is a
    zombie.  In every case it takes a step of the transition system. *)
Theorem wait_refines k i p s w :
  shows k s w -> on w k = Some i -> tab w !! i = Some p -> quiet 0 s ->
  (forall j q, tab w !! j = Some q -> p_parent q = Some i -> p_state q = ZOMBIE ->
     wp (kfree (p_kstack q) ;;; freevm (p_pgdir q)) (fun _ _ => True) (mm s)) ->
  wp wait (fun r s' =>
    match r with
    | None => wp (scheduler_back kpgdir) (fun _ s' => locked1 s' /\ exists w', step w w' /\ shows k s' w') s'
    | Some pid => quiet 0 s' /\
        ((pid = -1 /\ (childless (tab w) i \/ p_killed p = true) /\ shows k s' w) \/
         (exists j q, tab w !! j = Some q /\ p_parent q = Some i /\ p_state q = ZOMBIE /\ pid = p_pid q /\
            let w' := set_tab (<[j := reaped q]> (tab w)) w in step w w' /\ shows k s' w'))
    end) s.
Proof.
  intros Hsh Hi Hp Hq Hmem. pose proof Hsh as [Ht Hlen Hnp Hin Hon]. unfold wait.
  apply wp_bind. eapply (wp_myproc i); [congruence|]. apply wp_bind. eapply wp_pt_acquire; [done|].
  pose proof (held_locked s Hq) as Hl. unfold wait_round. apply wp_bind.
  apply (wp_for_find _ _ (fun d s' => s' = held_state s /\ forall j q, j ∈ d -> tab w !! j = Some q ->
    p_parent q = Some i -> p_state q <> ZOMBIE)).
  { split; [done|]. intros j q Hj. by apply elem_of_nil in Hj. }
  - intros l1 j l2 ? Hseq [-> Hd]. assert (j < NPROC)%nat as Hj.
    { assert (seq 0 NPROC !! length l1 = Some j) as Hx by (rewrite Hseq; by apply list_lookup_middle).
      apply lookup_seq in Hx. lia. }
    destruct (lookup_lt_is_Some_2 (tab w) j) as [q Hjq]; [lia|].
    unfold wait_visit. apply wp_bind. eapply wp_get_proc; [cbn; by rewrite Ht|].
    destruct (bool_decide (p_parent q = Some i) && bool_decide (p_state q = ZOMBIE)) eqn:Eq.
    + apply andb_prop in Eq as [Epar%bool_decide_eq_true Ez%bool_decide_eq_true].
      specialize (Hmem j q Hjq Epar Ez). apply wp_elim in Hmem as (?&m'&Hm&_).
      apply wp_bind_assoc. apply wp_bind, wp_zoom. change (mm (held_state s)) with (mm s).
      unfold bind in Hm. destruct (kfree (p_kstack q) (mm s)) as [[] m1| | | |] eqn:Hk; try done.
      eapply wp_intro; [exact Hk|]. apply wp_zoom. cbn [mm set_mm]. eapply wp_intro; [exact Hm|].
      apply wp_bind. eapply wp_upd_proc; [cbn; by rewrite Ht|].
      apply wp_bind. eapply wp_pt_release; [exact Hl|]. intros c Hc. do 2 apply wp_ret.
      split; [unfold quiet; cbn; split; [done|]; split; [done|lia]|]. right. exists j, q. do 4 (split; [done|]).
      split; [by eapply (st_reap w k i j q)|]. split; cbn; rewrite ?length_insert, ?Ht; done.
    + apply wp_ret. split; [done|]. intros j' q' [Hj'| ->%list_elem_of_singleton]%elem_of_app; [by eauto|].
      intros Hq' Hpar Hz. assert (q' = q) as -> by congruence. by rewrite Hpar, Hz, !bool_decide_true in Eq.
  - intros ? [-> Hd]. apply wp_bind, wp_gets. apply wp_bind. eapply wp_get_proc; [cbn; by rewrite Ht|].
    cbn [pt held_state set_pt procs set_pt_lock]. rewrite Ht.
    assert (forall j q, tab w !! j = Some q -> p_parent q = Some i -> p_state q <> ZOMBIE) as Hnz.
    { intros j q Hjq. apply (Hd j q); [|done]. apply elem_of_seq. apply lookup_lt_Some in Hjq. lia. }
    destruct (negb (existsb _ (tab w)) || p_killed p) eqn:Ek.
    + apply wp_bind. eapply wp_pt_release; [exact Hl|]. intros c Hc. apply wp_ret.
      split; [unfold quiet; cbn; split; [done|]; split; [done|lia]|]. left. split; [done|]. split; [|by split].
      apply orb_prop in Ek as [Ek|Ek]; [left|by right]. by apply existsb_childless, negb_true_iff.
    + apply wp_bind. unfold sleep. apply wp_bind, wp_gets.
      apply wp_bind, wp_panic_if; [cbn; by rewrite Hon, Hi, bool_decide_false|]. apply wp_bind, wp_ret.
      apply wp_bind. eapply (wp_myproc i); [cbn; congruence|].
      apply wp_bind. eapply wp_upd_proc; [cbn; by rewrite Ht|].
      apply wp_bind. eapply wp_upd_proc; [eapply slot_self; cbn; by rewrite Ht|].
      eapply wp_sched; [cbn; by rewrite Hon, Hi|eapply slot_self, slot_self; cbn; by rewrite Ht|done|exact Hl|].
      apply wp_ret. unfold scheduler_back, switchkvm. apply wp_bind, wp_modify, wp_modify. split; [exact Hl|].
      eexists. split; [by eapply (st_wait w k i p)|].
      split; cbn; rewrite ?upd_at, ?list_insert_insert_eq, ?length_insert, ?Ht; done.
Qed.


End refine.

(** The states of the execution of ProcSpec.v, with no files and no memory. *)
Module Example.
Import Kalloc.Machine ProcSpec.Example.

Definition no_files : ProcFiles unit :=
  {| fl_dup i := ret i; fl_close _ := ret []; fl_idup i := ret i; fl_iput _ := ret tt; fl_root := ret 0%nat; fl_init := ret tt |}.
#[local] Existing Instance no_files.

Definition kst (w : world) (c : option nat) (lk : bool) (n : Z) : kstate unit :=
  mkks (mkptab lk (tab w) (npid w) (init w)) c (mkcpu n true false) 0 0 false (mkmem false true 0 ∅) tt.

Lemma shows_kst w lk n : length (tab w) = NPROC -> shows 0 (kst w (on w 0%nat) lk n) w.
Proof. intros Hl. by split. Qed.


Lemma wait_refines_witness :
  wp wait (fun r s' =>
    match r with
    | None => wp (scheduler_back 0x80400000) (fun _ s' => locked1 s' /\ exists w', step w4 w' /\ shows 0 s' w') s'
    | Some pid => quiet 0 s' /\
        ((pid = -1 /\ (childless (tab w4) 0 \/ p_killed (set_p_state RUNNING init0) = true) /\ shows 0 s' w4) \/
         (exists j q, tab w4 !! j = Some q /\ p_parent q = Some 0%nat /\ p_state q = ZOMBIE /\ pid = p_pid q /\
            let w' := set_tab (<[j := reaped q]> (tab w4)) w4 in step w4 w' /\ shows 0 s' w'))
    end) (kst w4 (Some 0%nat) false 0).
Proof.
  apply (wait_refines 0x80400000 0 0); [by apply (shows_kst w4)|done|done|by split|].
  intros j q Hj _ Hz. by destruct (w4_no_zombie j q Hj).
Defined.

Definition startable : proc := set_p_kstack 0x80500000 (set_p_pgdir 0x80501000 init0).
Definition w6 : world := mkworld (startable :: replicate 63 slot0) 2 (Some 0%nat) none none.


End Example.
