(* ===== verification/ProcFork.v ===== *)
(** fork(): the child is a copy of its parent that returns 0.

    The proof goes through allocproc(), copyuvm() and the trap frame on the
    new kernel stack, and is done against an interface of reference counts
    for the files and inodes. *)

From stdpp Require Import functions.
From S2P Require Import Prelude Params Bytes CString Kalloc Vm VmSpec VmFork VmThms Spinlock Proc ProcSpec ProcRefine.

(** What the file layer promises to processes: [f_at s fr ir] when file [i]
    has [fr i] references and the in-memory inode [i] has [ir i]. *)
Class ProcFilesLaws (F : Type) `{ProcFiles F} : Type := {
  f_at : F -> (nat -> Z) -> (nat -> Z) -> Prop;
  law_dup s fr ir i Q :
    f_at s fr ir -> 1 <= fr i -> (forall s', f_at s' (<[i := fr i + 1]> fr) ir -> Q i s') -> wp (fl_dup i) Q s;
  law_idup s fr ir i Q :
    f_at s fr ir -> 1 <= ir i -> (forall s', f_at s' fr (<[i := ir i + 1]> ir) -> Q i s') -> wp (fl_idup i) Q s;
}.

(** ** A page that belongs to one process *)

Section page.
Context `{KernelImage}.

Record own_page (k : Z) (d : list Z) (free : list Z) (s : mem) : Prop := {
  op_frame : frame k;
  op_free : k ∉ free;
  op_kmem : kmem_at free s;
  op_page : ram s !! k = Some d;
}.

Lemma own_len k d free s : own_page k d free s -> length d = Z.to_nat PGSIZE /\ bytes_ok d.
Proof. intros [Hf _ Hk Hd]. destruct (ka_ram _ _ Hk k Hf) as (d'&Hd'&?&?). by assert (d' = d) as -> by congruence. Qed.

Lemma page_word k o : frame k -> 0 <= o < PGSIZE -> PGROUNDDOWN (k + o) = k /\ (k + o) mod PGSIZE = o.
Proof.
  intros Hk Ho. destruct Hk as [Hm Hr] eqn:E. clear E. pose proof (frame_pos k Hk) as Hp.
  assert ((k + o) mod PGSIZE = o) as Hmod by (by apply mod_page_add).
  split; [|done]. rewrite PGROUNDDOWN_eq; [lia|]. unfold frame in Hk. unfold is_u32, KERNLINK, KERNBASE, EXTMEM, PHYSTOP, PGSIZE, W32 in *. lia.
Qed.

Lemma own_store k d d' free s :
  own_page k d free s -> length d' = Z.to_nat PGSIZE -> bytes_ok d' ->
  own_page k d' free (set_ram (<[k := d']> (ram s)) s).
Proof.
  intros [Hf Hn Hk Hd] Hl Hb. split; [done|done| |cbn; apply lookup_insert_eq]. by apply kmem_at_store.
Qed.

Lemma wp_own_store32 k o x d free Q s :
  own_page k d free s -> 0 <= o <= PGSIZE - 4 ->
  (own_page k (put_u32 (Z.to_nat o) x d) free (set_ram (<[k := put_u32 (Z.to_nat o) x d]> (ram s)) s) ->
   Q tt (set_ram (<[k := put_u32 (Z.to_nat o) x d]> (ram s)) s)) ->
  wp (store32 (k + o) x) Q s.
Proof.
  intros Ho Hr HQ. destruct (own_len _ _ _ _ Ho) as [Hl Hb]. destruct (page_word k o) as [E1 E2]; [apply Ho|lia|].
  unfold store32. rewrite E1, E2. apply wp_bind. eapply wp_get_page; [apply Ho|]. eapply wp_put_page; [apply Ho|].
  apply HQ. eapply own_store; [done| |by apply put_le_bytes_ok]. rewrite length_put_le; [done|]. unfold PGSIZE in *. lia.
Qed.

Lemma wp_own_store_bytes k o b d free Q s :
  own_page k d free s -> 0 <= o < PGSIZE -> o + Z.of_nat (length b) <= PGSIZE -> bytes_ok b ->
  (own_page k (splice (Z.to_nat o) b d) free (set_ram (<[k := splice (Z.to_nat o) b d]> (ram s)) s) ->
   Q tt (set_ram (<[k := splice (Z.to_nat o) b d]> (ram s)) s)) ->
  wp (store_bytes (k + o) b) Q s.
Proof.
  intros Ho Hr Hlb Hbb HQ. destruct (own_len _ _ _ _ Ho) as [Hl Hb]. destruct (page_word k o) as [E1 E2]; [apply Ho|lia|].
  unfold store_bytes. rewrite E1, E2. apply wp_bind. eapply wp_get_page; [apply Ho|]. eapply wp_put_page; [apply Ho|].
  apply HQ. eapply own_store; [done| |by apply splice_bytes_ok]. rewrite length_splice; [done|]. unfold PGSIZE in *. lia.
Qed.

Lemma wp_load_bytes k o n d Q (s : mem) :
  frame k -> 0 <= o < PGSIZE -> ram s !! k = Some d -> Q (slice (Z.to_nat o) (Z.to_nat n) d) s -> wp (load_bytes (k + o) n) Q s.
Proof.
  intros Hk Ho Hd HQ. destruct (page_word k o) as [E1 E2]; [done..|].
  unfold load_bytes. rewrite E1, E2. apply wp_bind. by eapply wp_get_page.
Qed.

End page.

(** ** The states that fork() goes through *)

Section fork.
Context {F : Type} `{ProcFilesLaws F} `{KernelImage}.
Context (trapret forkret_addr : Z).
Implicit Types (s : kstate F).

Section run.
Context (s : kstate F) (j : nat) (Hj : (j < length (procs (pt s)))%nat) (cc : cpu).

(** The new process is [q] in slot [j]; the rest of the table is as in [s]. *)
Definition sk (q : proc) (m : mem) (f : F) : kstate F :=
  mkks (mkptab false (<[j := q]> (procs (pt s))) (nextpid (pt s) + 1) (initproc (pt s)))
    (cur s) cc (cr3 s) (esp0 s) (first s) m f.

Lemma wp_sk_upd g q m f (Q : unit -> kstate F -> Prop) : Q tt (sk (g q) m f) -> wp (upd_proc j g) Q (sk q m f).
Proof using Hj.
  intros HQ. eapply wp_upd_proc; [cbn; by apply list_lookup_insert_eq|].
  unfold set_slot, sk, set_pt, set_procs in *. cbn. by rewrite list_insert_insert_eq.
Qed.

Lemma wp_sk_get q m f (Q : proc -> kstate F -> Prop) : Q q (sk q m f) -> wp (get_proc j) Q (sk q m f).
Proof using Hj. intros HQ. eapply wp_get_proc; [cbn; by apply list_lookup_insert_eq|done]. Qed.

Lemma wp_sk_other i p q m f (Q : proc -> kstate F -> Prop) :
  i <> j -> procs (pt s) !! i = Some p -> Q p (sk q m f) -> wp (get_proc i) Q (sk q m f).
Proof. intros Hne Hp HQ. eapply wp_get_proc; [cbn; by rewrite list_lookup_insert_ne|done]. Qed.

Lemma wp_sk_mem {A} (x : M mem A) q m f (Q : A -> kstate F -> Prop) :
  wp x (fun a m' => Q a (sk q m' f)) m -> wp (onmem x) Q (sk q m f).
Proof. intros Hx. by apply wp_zoom. Qed.

Lemma wp_sk_files {A} (x : M F A) q m f (Q : A -> kstate F -> Prop) :
  wp x (fun a f' => Q a (sk q m f')) f -> wp (onfiles x) Q (sk q m f).
Proof. intros Hx. by apply wp_zoom. Qed.

End run.

(** The new kernel stack: room for the trap frame, then the return address
    trapret, then a context that starts at forkret. *)
Definition stack_top (d : list Z) : list Z :=
  put_u32 (Z.to_nat 4012) forkret_addr
    (splice (Z.to_nat 3996) (replicate 20 0) (put_u32 (Z.to_nat 4016) trapret d)).

Definition embryo (n k : Z) (p : proc) : proc :=
  set_p_context (k + 3996) (set_p_tf (k + 4020) (set_p_kstack k (set_p_pid n (set_p_state EMBRYO p)))).

Lemma wp_stack k d free Q (m : mem) :
  own_page k d free m ->
  (own_page k (stack_top d) free (set_ram (<[k := stack_top d]> (ram m)) m) ->
   Q tt (set_ram (<[k := stack_top d]> (ram m)) m)) ->
  wp (store32 (k + 4016) trapret ;;; store_bytes (k + 3996) (replicate 20 0) ;;; store32 (k + 4012) forkret_addr) Q m.
Proof.
  intros Hk HQ. apply wp_bind. eapply wp_own_store32; [done|unfold PGSIZE; lia|]. intros Hk1.
  apply wp_bind. eapply wp_own_store_bytes; [done|unfold PGSIZE; lia|rewrite length_replicate; unfold PGSIZE; lia| |].
  { apply Forall_replicate. unfold byte_ok. lia. }
  intros Hk2. eapply wp_own_store32; [done|unfold PGSIZE; lia|]. intros Hk3.
  cbn [ram set_ram] in *. unfold stack_top in HQ. rewrite !insert_insert_eq in *.
  apply HQ. exact Hk3.
Qed.

(** allocproc(), when slot [j] is the first that is unused. *)
Lemma wp_allocproc s j pj free Q :
  quiet 0 s -> find_state UNUSED (procs (pt s)) 0 = Some j -> procs (pt s) !! j = Some pj ->
  nextpid (pt s) < 2 ^ 31 - 1 -> kmem_at free (mm s) ->
  (free = [] -> forall cc m, ncli cc = 0 -> kmem_at [] m -> ram m = ram (mm s) ->
     Q None (sk s j cc (set_p_state UNUSED (set_p_kstack 0 (set_p_pid (nextpid (pt s)) (set_p_state EMBRYO pj)))) m (fl s))) ->
  (forall k free' d cc m, free = k :: free' -> ncli cc = 0 -> own_page k (stack_top d) free' m ->
     length d = Z.to_nat PGSIZE ->
     (forall w, w <> k -> ram m !! w = ram (mm s) !! w) ->
     Q (Some j) (sk s j cc (embryo (nextpid (pt s)) k pj) m (fl s))) ->
  wp (allocproc trapret forkret_addr) Q s.
Proof.
  intros Hq Hfind Hpj Hn Hk Hnone Hsome. pose proof (lookup_lt_Some _ _ _ Hpj) as Hj. unfold allocproc.
  apply wp_bind. unfold alloc_slot. apply wp_bind. eapply wp_pt_acquire; [done|].
  pose proof (held_locked s Hq) as Hl. apply wp_bind, wp_gets. cbn [pt held_state set_pt procs set_pt_lock]. rewrite Hfind.
  apply wp_bind. eapply wp_upd_proc; [done|]. apply wp_bind, wp_gets.
  cbn [pt set_slot set_pt nextpid set_procs held_state set_pt_lock].
  apply wp_bind. eapply wp_upd_proc; [by eapply slot_self|].
  destruct (Z.ltb_spec (nextpid (pt s)) (2 ^ 31 - 1)); [|lia]. apply wp_bind, wp_modify.
  apply wp_bind. eapply wp_pt_release; [exact Hl|]. intros cc Hcc. apply wp_ret.
  set (q := set_p_pid (nextpid (pt s)) (set_p_state EMBRYO pj)).
  match goal with |- wp _ _ ?x => assert (x = sk s j cc q (mm s) (fl s)) as -> end.
  { unfold sk, set_slot, held_state, set_pt, set_kcpu, set_procs, set_nextpid, set_pt_lock. cbn. by rewrite list_insert_insert_eq. }
  apply wp_bind, wp_sk_mem. eapply wp_kalloc; [done|]. intros m Hkm Hram _.
  destruct free as [|k free']; cbn [tail] in *.
  - change (default 0 (head [])) with 0. apply wp_bind, wp_sk_upd; [done|]. change (0 =? 0) with true. cbv iota.
    apply wp_bind, wp_sk_upd; [done|]. apply wp_ret. by apply Hnone.
  - change (default 0 (head (k :: free'))) with k. apply wp_bind, wp_sk_upd; [done|].
    pose proof (ka_frames _ _ Hk) as [Hfr _]%Forall_cons. pose proof (ka_nodup _ _ Hk) as [Hnin _]%NoDup_cons.
    pose proof (frame_pos k Hfr) as Hpos. rewrite (proj2 (Z.eqb_neq k 0)) by (unfold KERNLINK, KERNBASE, EXTMEM in Hpos; lia).
    destruct (ka_ram _ _ Hkm k Hfr) as (d&Hd&Hlen&_).
    assert (own_page k d free' m) as Hown by done.
    unfold KSTACKSIZE, sizeof_trapframe, sizeof_context, CTX_EIP.
    replace (k + 4096 - 76) with (k + 4020) by lia. replace (k + 4020 - 4) with (k + 4016) by lia.
    replace (k + 4016 - 20) with (k + 3996) by lia. replace (k + 3996 + 16) with (k + 4012) by lia.
    apply wp_bind, wp_sk_upd; [done|].
    pose proof (wp_stack k d free' (fun _ m' => own_page k (stack_top d) free' m' /\
      forall w, w <> k -> ram m' !! w = ram (mm s) !! w) m Hown) as Hst.
    assert (wp (store32 (k + 4016) trapret ;;; store_bytes (k + 3996) (replicate 20 0) ;;; store32 (k + 4012) forkret_addr)
      (fun _ m' => own_page k (stack_top d) free' m' /\ forall w, w <> k -> ram m' !! w = ram (mm s) !! w) m) as Hst'.
    { apply Hst. intros Ho. split; [done|]. intros w Hw. cbn. rewrite lookup_insert_ne by done. by rewrite Hram. }
    clear Hst. unfold wp, bind in Hst'. destruct (store32 (k + 4016) trapret m) as [[] m1| | | |] eqn:E1; try done.
    apply wp_bind, wp_sk_mem. eapply wp_intro; [exact E1|]. apply wp_bind, wp_sk_upd; [done|].
    destruct (store_bytes (k + 3996) _ m1) as [[] m2| | | |] eqn:E2; try done.
    apply wp_bind, wp_sk_mem. eapply wp_intro; [exact E2|].
    destruct (store32 (k + 4012) forkret_addr m2) as [[] m3| | | |] eqn:E3; try done.
    apply wp_bind, wp_sk_mem. eapply wp_intro; [exact E3|]. apply wp_ret. destruct Hst' as [Ho Hw].
    by eapply (Hsome k free' d).
Qed.

Lemma user_byte_ext (up : gmap Z Z) m m' va :
  (forall a w, up !! a = Some w -> m' !! w = m !! w) -> user_byte up m' va = user_byte up m va.
Proof. intros Hm. unfold user_byte. destruct (up !! pg va) as [p|] eqn:Hp; [|done]. cbn. unfold page_at. by erewrite Hm. Qed.

Lemma is_copy_frame t up sz t' up' (s0 s s' s1 : mem) :
  is_copy t up s sz t' up' s' ->
  (forall w, vm_pages t up w -> ram s0 !! w = ram s !! w) ->
  (forall w, vm_pages t' up' w -> ram s1 !! w = ram s' !! w) ->
  (forall a w, up !! a = Some w -> ram s1 !! w = ram s' !! w) ->
  is_copy t up s0 sz t' up' s1.
Proof.
  intros (C1&C2&C3&C4&C5&C6) Hold Hnew Hpar.
  assert (forall va, user_byte up (ram s0) va = user_byte up (ram s) va) as U0.
  { intros va. apply user_byte_ext. intros a w Ha. apply Hold. right. eauto. }
  assert (forall va, pte_of t (ram s0) va = pte_of t (ram s) va) as P0.
  { intros va. apply pte_of_frame. intros w Hw. apply Hold. by left. }
  assert (forall va, pte_of t' (ram s1) va = pte_of t' (ram s') va) as P1.
  { intros va. apply pte_of_frame. intros w Hw. apply Hnew. by left. }
  split; [|split; [|split; [|split; [|split]]]].
  - intros va. rewrite U0, <- C1. by apply user_byte_ext.
  - intros va Hva. rewrite U0, <- C2 by done. apply user_byte_ext. intros a w Ha. apply Hnew. right. eauto.
  - intros va Hva. rewrite P0, P1. by apply C3.
  - done.
  - intros va Hva Hge. rewrite P1. by apply C5.
  - done.
Qed.

(** Duplicating the open files: one more reference for each of them. *)
Definition dup1 (fr : nat -> Z) (o : option nat) : nat -> Z :=
  match o with Some i => <[i := fr i + 1]> fr | None => fr end.
Definition dups (fr : nat -> Z) (l : list (option nat)) : nat -> Z := foldl dup1 fr l.

Lemma dups_count l : forall fr i,
  dups fr l i = fr i + Z.of_nat (length (filter (fun o => o = Some i) l)).
Proof.
  unfold dups. induction l as [|o l IH]; intros fr i; [cbn; lia|]. cbn [foldl]. rewrite IH, filter_cons.
  destruct o as [x|]; cbn [dup1].
  - destruct (decide (x = i)) as [->|Hne].
    + rewrite fn_lookup_insert, decide_True by done. cbn [length]. lia.
    + rewrite fn_lookup_insert_ne, decide_False by congruence. done.
  - by rewrite decide_False.
Qed.

Lemma dups_le l fr i : fr i <= dups fr l i.
Proof. rewrite dups_count. lia. Qed.

(** ofile of the child after [k] iterations of the loop of fork() *)
Definition some_dups (l : list (option nat)) (k : nat) : list (option nat) := take k l ++ replicate (NOFILE - k) None.

Lemma some_dups_next l k o :
  length l = NOFILE -> l !! k = Some o ->
  some_dups l (S k) = match o with Some f => <[k := Some f]> (some_dups l k) | None => some_dups l k end.
Proof.
  intros Hl Hk. pose proof (lookup_lt_Some _ _ _ Hk) as Hlt. unfold some_dups.
  rewrite (take_S_r _ _ _ Hk). replace (NOFILE - k)%nat with (S (NOFILE - S k)) by lia. cbn [replicate].
  rewrite <- app_assoc. cbn [app]. destruct o as [f|]; [|done].
  rewrite insert_app_r_alt by (rewrite length_take; lia). rewrite length_take. replace (k - k `min` length l)%nat with 0%nat by lia. done.
Qed.

Lemma wp_dup_files s j cc q m f fr ir l (Q : unit -> kstate F -> Prop) :
  (j < length (procs (pt s)))%nat -> length l = NOFILE -> p_ofile q = replicate NOFILE None ->
  f_at f fr ir -> (forall i, Some i ∈ l -> 1 <= fr i) ->
  (forall f', f_at f' (dups fr l) ir -> Q tt (sk s j cc (set_p_ofile l q) m f')) ->
  wp (for_each (seq 0 NOFILE) (fun k =>
        let* o := from_some (l !! k) in
        match o with
        | Some x =>
            let* x := onfiles (fl_dup x) in
            upd_proc j (fun q => set_p_ofile (<[k := Some x]> (p_ofile q)) q)
        | None => ret tt
        end)) Q (sk s j cc q m f).
Proof.
  intros Hj Hl Ho Hf Href HQ.
  apply (wp_for_seq _ _ (fun k s' => exists f', f_at f' (dups fr (take k l)) ir /\ s' = sk s j cc (set_p_ofile (some_dups l k) q) m f')).
  - exists f. split; [done|]. unfold some_dups. cbn [take app]. rewrite Nat.sub_0_r, <- Ho. f_equal. by destruct q.
  - intros k ? Hk (f'&Hf'&->). destruct (lookup_lt_is_Some_2 l k) as [o Hko]; [lia|].
    assert (dups fr (take (1 + k) l) = dup1 (dups fr (take k l)) o) as E1.
    { unfold dups. cbn [Nat.add]. by rewrite (take_S_r _ _ _ Hko), foldl_app. }
    pose proof (some_dups_next l k o Hl Hko) as E2. change (S k) with (1 + k)%nat in E2.
    apply wp_bind. rewrite Hko. apply wp_ret. destruct o as [x|]; cbn [dup1] in *.
    + apply wp_bind, wp_sk_files. eapply law_dup; [done| |].
      { pose proof (dups_le (take k l) fr x). specialize (Href x ltac:(by eapply list_elem_of_lookup_2)). lia. }
      intros f2 Hf2. apply wp_sk_upd; [done|]. exists f2. by rewrite E1, E2.
    + apply wp_ret. exists f'. by rewrite E1, E2.
  - intros ? (f'&Hf'&->). rewrite take_ge in Hf' by lia. unfold some_dups. rewrite take_ge, Nat.sub_diag by lia.
    cbn [replicate]. rewrite app_nil_r. by apply HQ.
Qed.

(** ** The new kernel stack after fork() *)

Definition TF : nat := Z.to_nat 4020.

Lemma slice_splice_inner off n i new (bs : list Z) :
  (off + n <= length bs)%nat -> (i + length new <= n)%nat ->
  slice off n (splice (off + i) new bs) = splice i new (slice off n bs).
Proof.
  intros Hl Hn. assert (length (slice off n bs) = n) as Hs by (by apply length_slice).
  apply list_eq. intros x. rewrite lookup_slice. destruct (decide (i <= x < i + length new)%nat) as [Hin|Hout].
  - rewrite decide_True, !lookup_splice_in by lia. f_equal. lia.
  - rewrite (lookup_splice_out i) by lia. rewrite lookup_slice. case_decide; [|done]. apply lookup_splice_out; lia.
Qed.

Definition child_stack (tf d : list Z) : list Z :=
  put_u32 (Z.to_nat 4048) 0 (splice TF tf (stack_top d)).

Lemma child_stack_spec tf d :
  length d = Z.to_nat PGSIZE -> length tf = 76%nat -> is_u32 trapret -> is_u32 forkret_addr ->
  slice TF 76 (child_stack tf d) = put_u32 28 0 tf /\
  get_u32 (Z.to_nat 4016) (child_stack tf d) = trapret /\ get_u32 (Z.to_nat 4012) (child_stack tf d) = forkret_addr.
Proof using.
  intros Hd Htf Ht Hf. unfold PGSIZE in Hd.
  assert (length (put_u32 (Z.to_nat 4016) trapret d) = length d) as L1 by (apply length_put_le; lia).
  assert (length (splice (Z.to_nat 3996) (replicate 20 0) (put_u32 (Z.to_nat 4016) trapret d)) = length d) as L2
    by (rewrite length_splice by (rewrite length_replicate; lia); done).
  assert (length (stack_top d) = length d) as L3 by (unfold stack_top; rewrite length_put_le by lia; done).
  assert (length (splice TF tf (stack_top d)) = length d) as L4 by (unfold TF; rewrite length_splice by lia; done).
  assert (forall o, (o + 4 <= TF)%nat -> get_u32 o (child_stack tf d) = get_u32 o (stack_top d)) as Hget.
  { intros o Ho. unfold child_stack, TF in *. rewrite get_put_le_other by lia. unfold get_le. f_equal.
    apply slice_splice_other; lia. }
  split; [|split].
  - unfold child_stack, put_le. replace (Z.to_nat 4048) with (TF + 28)%nat by (unfold TF; lia).
    rewrite slice_splice_inner by (rewrite ?L4, ?length_le_of; unfold TF; lia). f_equal.
    rewrite <- Htf. apply slice_splice_same. unfold TF. lia.
  - rewrite Hget by (unfold TF; lia). unfold stack_top. rewrite get_put_le_other by lia. unfold get_le.
    rewrite slice_splice_other by (rewrite ?length_replicate; lia). fold (get_le 4 (Z.to_nat 4016) (put_u32 (Z.to_nat 4016) trapret d)).
    rewrite get_put_le by lia. by apply Z.mod_small.
  - rewrite Hget by (unfold TF; lia). unfold stack_top. rewrite get_put_le by lia. by apply Z.mod_small.
Qed.

(** ** What the parent has, and what the child gets *)

(** [c] is the running process [p]: its user memory is the address space [t]
    with the pages [up], and its trap frame the bytes [tf]. *)
Record parent_ok s (c : nat) (p : proc) t up free (tf : list Z) fr ir : Prop := {
  po_quiet : quiet 0 s;
  po_cur : cur s = Some c;
  po_slot : procs (pt s) !! c = Some p;
  po_run : p_state p = RUNNING;
  po_npid : nextpid (pt s) < 2 ^ 31 - 1;
  po_pgdir : p_pgdir p = root t;
  po_uvm : uvm_at t up free (mm s);
  po_sz : 0 <= p_sz p <= KERNBASE;
  po_pages k : k mod PGSIZE = 0 -> 0 <= k < p_sz p -> is_Some (up !! k);
  po_tf : exists kp dp, frame kp /\ (kp ∉ free) /\ ram (mm s) !! kp = Some dp /\ p_tf p = kp + 4020 /\ tf = slice TF 76 dp;
  po_ofile : length (p_ofile p) = NOFILE;
  po_files : f_at (fl s) fr ir;
  po_refs i : Some i ∈ p_ofile p -> 1 <= fr i;
  po_cwd : exists d, p_cwd p = Some d /\ 1 <= ir d;
}.

Record child_ok s (c : nat) (p : proc) t up (tf : list Z) fr ir (q : proc) s' : Prop := {
  co_state : p_state q = RUNNABLE;
  co_pid : p_pid q = nextpid (pt s);
  co_parent : p_parent q = Some c;
  co_sz : p_sz q = p_sz p;
  co_ofile : p_ofile q = p_ofile p;
  co_cwd : p_cwd q = p_cwd p;
  co_vm : exists t' up' free', p_pgdir q = root t' /\ uvm_at t' up' free' (mm s') /\ uvm_at t up free' (mm s') /\
    is_copy t up (mm s) (p_sz p) t' up' (mm s');
  co_stack : exists D, ram (mm s') !! p_kstack q = Some D /\
    p_tf q = p_kstack q + 4020 /\ slice TF 76 D = put_u32 28 0 tf /\
    p_context q = p_kstack q + 3996 /\ get_u32 (Z.to_nat 4012) D = forkret_addr /\ get_u32 (Z.to_nat 4016) D = trapret;
  co_files : f_at (fl s') (dups fr (p_ofile p)) (match p_cwd p with Some d => <[d := ir d + 1]> ir | None => ir end);
}.

(** The end of fork(), once the new process [q] has its memory. *)
Lemma wp_fork_tail s c p t up free tf fr ir j cc q k d free2 m (Q : Z -> kstate F -> Prop) :
  parent_ok s c p t up free tf fr ir -> is_u32 trapret -> is_u32 forkret_addr -> c <> j ->
  (j < length (procs (pt s)))%nat -> ncli cc = 0 -> p_ofile q = replicate NOFILE None ->
  p_kstack q = k -> p_tf q = k + 4020 -> own_page k (stack_top d) free2 m ->
  length d = Z.to_nat PGSIZE ->
  (forall kp, frame kp -> kp ∉ free -> ram m !! kp = ram (mm s) !! kp) ->
  (forall cc' m' f' q', ncli cc' = 0 -> own_page k (child_stack tf d) free2 m' ->
     (forall w, w <> k -> ram m' !! w = ram m !! w) ->
     f_at f' (dups fr (p_ofile p)) (match p_cwd p with Some d => <[d := ir d + 1]> ir | None => ir end) ->
     p_state q' = RUNNABLE -> p_pid q' = p_pid q -> p_parent q' = Some c -> p_sz q' = p_sz p ->
     p_ofile q' = p_ofile p -> p_cwd q' = p_cwd p -> p_pgdir q' = p_pgdir q -> p_kstack q' = k ->
     p_tf q' = k + 4020 -> p_context q' = p_context q -> Q (p_pid q) (sk s j cc' q' m' f')) ->
  wp (upd_proc j (set_p_sz (p_sz p)) ;;;
      upd_proc j (set_p_parent (Some c)) ;;;
      let* q := get_proc j in
      let* b := onmem (load_bytes (p_tf p) sizeof_trapframe) in
      onmem (store_bytes (p_tf q) b) ;;;
      onmem (store32 (p_tf q + TF_EAX) 0) ;;;
      for_each (seq 0 NOFILE) (fun k =>
        let* f := ofile p k in
        match f with
        | Some f =>
            let* f := onfiles (fl_dup f) in
            upd_proc j (fun q => set_p_ofile (<[k := Some f]> (p_ofile q)) q)
        | None => ret tt
        end) ;;;
      let* d := from_some (p_cwd p) in
      let* d := onfiles (fl_idup d) in
      upd_proc j (set_p_cwd (Some d)) ;;;
      upd_proc j (set_name (p_name p)) ;;;
      let* q := get_proc j in
      set_runnable j ;;;
      ret (p_pid q)) Q (sk s j cc q m (fl s)).
Proof.
  intros Hpo Ht Hf Hcj Hj Hcc Hof Hks Htf Hown Hd Hram HQ. destruct (po_tf _ _ _ _ _ _ _ _ _ Hpo) as (kp&dp&Hkf&Hkn&Hdp&Hptf&Etf).
  destruct (po_cwd _ _ _ _ _ _ _ _ _ Hpo) as (dd&Hcwd&Hird). pose proof (po_files _ _ _ _ _ _ _ _ _ Hpo) as Hfl.
  assert (length dp = Z.to_nat PGSIZE /\ bytes_ok dp) as [Ldp Bdp].
  { destruct (ka_ram _ _ (va_kmem _ _ _ (uv_vm _ _ _ _ (po_uvm _ _ _ _ _ _ _ _ _ Hpo))) kp Hkf) as (d'&Hd'&?&?).
    by assert (d' = dp) as -> by congruence. }
  assert (length tf = 76%nat) as Ltf by (subst tf; apply length_slice; unfold TF, PGSIZE in *; lia).
  do 2 (apply wp_bind, wp_sk_upd; [done|]). apply wp_bind, wp_sk_get; [done|].
  cbn [p_tf set_p_parent set_p_sz]. rewrite Htf.
  apply wp_bind, wp_sk_mem. rewrite Hptf. eapply (wp_load_bytes kp 4020); [done|unfold PGSIZE; lia|by rewrite Hram|].
  change (slice (Z.to_nat 4020) (Z.to_nat sizeof_trapframe) dp) with (slice TF 76 dp). rewrite <- Etf.
  apply wp_bind, wp_sk_mem. eapply wp_own_store_bytes; [done|unfold PGSIZE; lia|rewrite Ltf; unfold PGSIZE; lia| |].
  { subst tf. by apply slice_bytes_ok. }
  intros Ho1. apply wp_bind, wp_sk_mem. unfold TF_EAX. replace (k + 4020 + 28) with (k + 4048) by lia.
  eapply wp_own_store32; [done|unfold PGSIZE; lia|]. cbn [ram set_ram]. rewrite insert_insert_eq.
  change (put_u32 (Z.to_nat 4048) 0 (splice (Z.to_nat 4020) tf (stack_top d))) with (child_stack tf d).
  intros Ho2. apply wp_bind. unfold ofile. eapply wp_dup_files; [done|apply Hpo|done|done|apply Hpo|].
  intros f1 Hf1. apply wp_bind. rewrite Hcwd in *. apply wp_ret. apply wp_bind, wp_sk_files. eapply law_idup; [done|done|].
  intros f2 Hf2. do 2 (apply wp_bind, wp_sk_upd; [done|]). apply wp_bind, wp_sk_get; [done|].
  apply wp_bind. unfold set_runnable. apply wp_bind. eapply wp_pt_acquire; [split; [done|]; split; [done|lia]|].
  match goal with |- wp _ _ (held_state ?x) => set (sx := x) end.
  assert (quiet 0 sx) as Hqx by (split; [done|]; split; [done|lia]).
  apply wp_bind. eapply wp_upd_proc; [cbn; by apply list_lookup_insert_eq|].
  eapply wp_pt_release; [exact (held_locked sx Hqx)|]. intros cc' Hcc'. apply wp_ret.
  match goal with |- Q _ ?x => assert (x = sk s j cc' (set_p_state RUNNABLE (set_name (p_name p) (set_p_cwd (Some dd)
    (set_p_ofile (p_ofile p) (set_p_parent (Some c) (set_p_sz (p_sz p) q)))))) (set_ram (<[k:=child_stack tf d]> (ram m)) m) f2) as -> end.
  { unfold sx, sk, set_slot, held_state, set_pt, set_kcpu, set_procs, set_pt_lock. cbn. by rewrite list_insert_insert_eq. }
  eapply HQ; try done.
  intros w Hw. cbn. by rewrite lookup_insert_ne.
Qed.

(** The child, from what copyuvm() and the end of fork() leave. *)
Lemma child_made s c p t up k free' tf fr ir j d m t' up' free2 m2 cc' m' f' q' :
  parent_ok s c p t up (k :: free') tf fr ir -> is_u32 trapret -> is_u32 forkret_addr -> length d = Z.to_nat PGSIZE ->
  (forall w, w <> k -> ram m !! w = ram (mm s) !! w) ->
  is_copy t up m (p_sz p) t' up' m2 -> uvm_at t' up' free2 m2 -> uvm_at t up free2 m2 -> ~ vm_pages t' up' k ->
  own_page k (child_stack tf d) free2 m' -> (forall w, w <> k -> ram m' !! w = ram m2 !! w) ->
  f_at f' (dups fr (p_ofile p)) (match p_cwd p with Some d => <[d := ir d + 1]> ir | None => ir end) ->
  p_state q' = RUNNABLE -> p_pid q' = nextpid (pt s) -> p_parent q' = Some c -> p_sz q' = p_sz p ->
  p_ofile q' = p_ofile p -> p_cwd q' = p_cwd p -> p_pgdir q' = root t' -> p_kstack q' = k ->
  p_tf q' = k + 4020 -> p_context q' = k + 3996 -> child_ok s c p t up tf fr ir q' (sk s j cc' q' m' f').
Proof.
  intros Hpo Ht Hf Hlen Hram Hcopy Hu' Hu2 Hk3 Hown' Hram' Hf' E1 E2 E3 E4 E5 E6 E7 E8 E9 E10.
  pose proof (po_uvm _ _ _ _ _ _ _ _ _ Hpo) as Hu. destruct (head_fresh _ _ _ _ _ Hu) as (Hkf&Hkn&Hkt&Hku).
  assert (forall x ux, uvm_at x ux free2 m2 -> ~ vm_pages x ux k -> uvm_at x ux free2 m') as Hkeep.
  { intros x ux Hx Hkx. eapply uvm_frame; [done|apply Hown'| |].
    - intros w Hw. apply Hram'. intros ->. apply Hkx. by left.
    - intros v Hv. split; [intros Hin; by eapply (va_disj _ _ _ (uv_vm _ _ _ _ Hx))|].
      intros a Ha. by apply (uv_dom _ _ _ _ Hx) in Ha as (_&_&_&_&?). }
  destruct (child_stack_spec tf d) as (S1&S2&S3); [done| |done|done|].
  { destruct (po_tf _ _ _ _ _ _ _ _ _ Hpo) as (kp&dp&Hkpf&_&Hdp&_&->). apply length_slice.
    destruct (ka_ram _ _ (va_kmem _ _ _ (uv_vm _ _ _ _ Hu)) kp Hkpf) as (d'&Hd'&Hld&_).
    assert (d' = dp) as -> by congruence. unfold TF, PGSIZE in *. lia. }
  split; try done.
  - exists t', up', free2. cbn [mm sk]. split; [by rewrite E7|]. split; [by apply Hkeep|]. split.
    { apply Hkeep; [done|]. intros [Hin|[a Ha]]; [done|by apply (Hku a)]. }
    eapply is_copy_frame; [exact Hcopy| | |].
    + intros w Hw. symmetry. apply Hram. intros ->. destruct Hw as [Hin|[a Ha]]; [done|by apply (Hku a)].
    + intros w Hw. apply Hram'. by intros ->.
    + intros a w Ha. apply Hram'. intros ->. by apply (Hku a).
  - exists (child_stack tf d). rewrite E8, E9, E10. cbn [mm sk]. split; [apply Hown'|]. done.
Qed.

(** The page that kalloc() took goes back. *)
Lemma uvm_give_back t up k free (s0 : mem) free2 m2 m3 :
  uvm_at t up (k :: free) s0 -> uvm_at t up free2 m2 -> kmem_at (k :: free2) m3 ->
  (forall w, w <> k -> ram m3 !! w = ram m2 !! w) -> uvm_at t up (k :: free2) m3.
Proof.
  intros Hu Hu2 Hk3 Hram3. destruct (head_fresh _ _ _ _ _ Hu) as (_&_&Hkt&Hku). eapply uvm_frame; [done|done| |].
  - intros w Hw. apply Hram3. congruence.
  - intros v [->|Hv]%elem_of_cons; [done|]. split; [intros Hin; by eapply (va_disj _ _ _ (uv_vm _ _ _ _ Hu2))|].
    intros a Ha. by apply (uv_dom _ _ _ _ Hu2) in Ha as (_&_&_&_&?).
Qed.

(** C7: fork(): the child has a new pid, the parent's size, open files (each
    with one more reference), directory and trap frame with %eax = 0, its own
    copy of every byte of the parent's memory, and a kernel stack on which
    its first switch goes to forkret and from there to trapret; the parent
    and the other processes are unchanged.  Or fork() returns -1, with the
    slot unused and every page back on the free list. *)
Theorem fork_correct s c p t up free tf fr ir j pj :
  is_u32 trapret -> is_u32 forkret_addr -> parent_ok s c p t up free tf fr ir ->
  find_state UNUSED (procs (pt s)) 0 = Some j -> procs (pt s) !! j = Some pj -> p_ofile pj = replicate NOFILE None ->
  wp (fork trapret forkret_addr) (fun r s' =>
    quiet 0 s' /\ (forall i, i <> j -> procs (pt s') !! i = procs (pt s) !! i) /\
    exists q, procs (pt s') !! j = Some q /\
      ((r = nextpid (pt s) /\ child_ok s c p t up tf fr ir q s') \/
       (r = -1 /\ p_state q = UNUSED /\ fl s' = fl s /\ exists free', uvm_at t up free' (mm s') /\ free' ≡ₚ free /\
          forall va, user_byte up (ram (mm s')) va = user_byte up (ram (mm s)) va))) s.
Proof.
  intros Ht Hf Hpo Hfind Hpj Hof. pose proof (lookup_lt_Some _ _ _ Hpj) as Hj.
  pose proof Hpo as [Hq Hcur Hp Hrun Hnp Hpg Hu Hsz Hpages _ _ _ _ _].
  assert (c <> j) as Hcj.
  { intros ->. pose proof (find_state_spec _ _ _ _ Hfind) as (x&_&Hx&Hs). rewrite Nat.sub_0_r in Hx. congruence. }
  match goal with |- wp _ ?P _ => set (post := P) end.
  assert (forall r cc q m f, ncli cc = 0 ->
    (r = nextpid (pt s) /\ child_ok s c p t up tf fr ir q (sk s j cc q m f)) \/
    (r = -1 /\ p_state q = UNUSED /\ f = fl s /\ exists free', uvm_at t up free' m /\ free' ≡ₚ free /\
       forall va, user_byte up (ram m) va = user_byte up (ram (mm s)) va) -> post r (sk s j cc q m f)) as Hfin.
  { intros r cc q m f Hcc Hr. split; [split; [done|]; split; [done|lia]|]. cbn. split.
    - intros i Hi. by rewrite list_lookup_insert_ne.
    - exists q. split; [by apply list_lookup_insert_eq|done]. }
  unfold fork. apply wp_bind. eapply (wp_myproc c); [done|]. apply wp_bind.
  eapply (wp_allocproc s j pj free); [done|done|done|done|apply Hu| |].
  - intros -> cc m Hcc Hk Hram. apply wp_ret, Hfin; [done|]. right. split; [done|]. split; [done|]. split; [done|].
    exists []. split; [|split; [done|]].
    + eapply uvm_frame; [done|done|by intros; rewrite Hram|]. intros v Hv. by apply elem_of_nil in Hv.
    + intros va. by rewrite Hram.
  - intros k free' d cc m -> Hcc Hown Hlen Hram. apply wp_bind. eapply wp_sk_other; [done|done|].
    destruct (head_fresh _ _ _ _ _ Hu) as (Hkf&Hkn&Hkt&Hku).
    assert (uvm_at t up free' m) as Hum.
    { eapply uvm_frame; [done|apply Hown| |].
      - intros w Hw. apply Hram. congruence.
      - intros v Hv. split; [intros Hin; eapply (va_disj _ _ _ (uv_vm _ _ _ _ Hu)); [done|by right]|].
        intros a Ha. apply (uv_dom _ _ _ _ Hu) in Ha as (_&_&_&_&Hn). apply Hn. by right. }
    assert (forall va, user_byte up (ram m) va = user_byte up (ram (mm s)) va) as Hub.
    { intros va. apply user_byte_ext. intros a w Ha. apply Hram. intros ->. by apply (Hku a). }
    apply wp_bind, wp_sk_mem. rewrite Hpg. eapply wp_copyuvm; [done|done|done| |].
    + intros t' up' free2 m2 Hu' Hu2 Hcopy Hram2 Hown2 Hnz.
      apply wp_bind, wp_sk_upd; [done|]. rewrite (proj2 (Z.eqb_neq _ 0)) by done.
      assert (k ∉ free2) as Hk2 by (intros Hin; apply Hkn, Hown2; by left).
      assert (~ vm_pages t' up' k) as Hk3 by (intros Hin; apply Hkn, Hown2; by right).
      eapply (wp_fork_tail s c p t up (k :: free') tf fr ir j cc (set_p_pgdir (root t') (embryo (nextpid (pt s)) k pj)) k d free2);
        [done|done|done|done|done|done|done|done|done| |done| |].
      { split; [done|done|apply Hu2|]. rewrite Hram2 by done. apply Hown. }
      { intros kp Hkp Hkpn. rewrite Hram2, Hram; [done|intros ->; apply Hkpn; by left|intros E; apply Hkpn; by right]. }
      intros cc' m' f' q' Hcc' Hown' Hram' Hf' E1 E2 E3 E4 E5 E6 E7 E8 E9 E10.
      apply Hfin; [done|]. left. split; [done|].
      eapply (child_made s c p t up k free' tf fr ir j d m t' up' free2 m2); try done.
    + intros free2 m2 Hu2 Hiff Hram2. apply wp_bind, wp_sk_upd; [done|]. change (0 =? 0) with true. cbv iota.
      apply wp_bind, wp_sk_get; [done|]. apply wp_bind, wp_sk_mem. cbn [p_kstack set_p_pgdir embryo set_p_context set_p_tf set_p_kstack].
      assert (k ∉ free2) as Hk2 by (by rewrite Hiff). eapply (wp_kfree k free2); [apply Hu2|done|done|].
      intros m3 Hk3 Hram3 _. do 2 (apply wp_bind, wp_sk_upd; [done|]). apply wp_ret, Hfin; [done|].
      right. split; [done|]. split; [done|]. split; [done|]. exists (k :: free2). split; [|split].
      * by eapply uvm_give_back.
      * constructor. eapply same_frames; [apply Hum|apply Hu2|done].
      * intros va. rewrite <- Hub. transitivity (user_byte up (ram m2) va).
        -- apply user_byte_ext. intros a w Ha. apply Hram3. intros ->. by apply (Hku a).
        -- apply user_byte_ext. intros a w Ha. apply Hram2. by apply (uv_dom _ _ _ _ Hum) in Ha as (_&_&_&_&?).
Qed.

End fork.

(** A process with one page and one open file, over reference counts. *)
Module Example.
Import Kalloc.Machine VmThms.Example ProcSpec.Example.

Definition counts : Type := (nat -> Z) * (nat -> Z).

#[local] Instance counted : ProcFiles counts := {|
  fl_dup i := fun c => Ok i (<[i := c.1 i + 1]> c.1, c.2);
  fl_close i := fun c => Ok [] (<[i := c.1 i - 1]> c.1, c.2);
  fl_idup i := fun c => Ok i (c.1, <[i := c.2 i + 1]> c.2);
  fl_iput i := fun c => Ok tt (c.1, <[i := c.2 i - 1]> c.2);
  fl_root := ret 0%nat;
  fl_init := ret tt;
|}.

#[local] Program Instance counted_laws : ProcFilesLaws counts := {| f_at c fr ir := c = (fr, ir) |}.
Next Obligation. intros ? fr ir i Q -> _ HQ. by apply HQ. Qed.
Next Obligation. intros ? fr ir i Q -> _ HQ. by apply HQ. Qed.

Definition one : nat -> Z := fun _ => 1.
Definition KP : Z := 0x80420000.
Definition caller : proc :=
  mkproc 4096 B1 KP RUNNING 1 None (KP + 4020) 0 None false (Some 3%nat :: replicate 15 None) (Some 0%nat) (replicate 16 0) 0 0 0.
Definition ks : kstate counts :=
  mkks (mkptab false (caller :: replicate 63 slot0) 2 (Some 0%nat)) (Some 0%nat) (mkcpu 0 false false) 0 0 false s1 (one, one).

Lemma kp_page : ram s1 !! KP = Some zeros.
Proof. cbn [ram s1]. unfold ram1. rewrite !lookup_insert_ne by done. apply ram0_lookup. by vm_compute. Qed.

Lemma caller_ok : parent_ok ks 0 caller (VmThms.Example.pt B1) (us B1) [F1] (slice TF 76 zeros) one one.
Proof.
  split; try done.
  - apply space1.
  - apply us_below.
  - exists KP, zeros. split; [by vm_compute|]. split; [by intros ?%list_elem_of_singleton|]. split; [exact kp_page|]. done.
  - exists 0%nat. done.
Qed.

Lemma fork_correct_witness :
  wp (fork 0x80105000 0x80103000) (fun r s' =>
    quiet 0 s' /\ (forall i, i <> 1%nat -> procs (Proc.pt s') !! i = procs (Proc.pt ks) !! i) /\
    exists q, procs (Proc.pt s') !! 1%nat = Some q /\
      ((r = nextpid (Proc.pt ks) /\ child_ok 0x80105000 0x80103000 ks 0 caller (VmThms.Example.pt B1) (us B1) (slice TF 76 zeros) one one q s') \/
       (r = -1 /\ p_state q = UNUSED /\ fl s' = fl ks /\
        exists free', uvm_at (VmThms.Example.pt B1) (us B1) free' (mm s') /\ free' ≡ₚ [F1] /\
          forall va, user_byte (us B1) (ram (mm s')) va = user_byte (us B1) (ram (mm ks)) va))) ks.
Proof.
  apply (fork_correct 0x80105000 0x80103000 ks 0 caller (VmThms.Example.pt B1) (us B1) [F1] (slice TF 76 zeros) one one 1 slot0);
    [done|done|exact caller_ok|done|done|done].
Defined.

End Example.
