(* ===== verification/ProcMem.v ===== *)
(** growproc(), the sbrk() system call: the size of a process and its pages
    agree, except after a shrink to size 0. *)

From S2P Require Import Prelude Params Bytes CString Kalloc Vm VmSpec VmFork VmThms Spinlock Proc ProcSpec ProcRefine ProcFork.

Section grow.
Context {F : Type} `{ProcFiles F} `{KernelImage}.
Implicit Types (s : kstate F).

(** The user pages are exactly those below the size. *)
Definition user_image (up : gmap Z Z) (sz : Z) : Prop :=
  forall k, is_Some (up !! k) <-> k mod PGSIZE = 0 /\ 0 <= k < sz.

Record user_proc s (c : nat) (p : proc) t up free : Prop := {
  up_cur : cur s = Some c;
  up_slot : procs (pt s) !! c = Some p;
  up_kstack : p_kstack p <> 0;
  up_pgdir : p_pgdir p = root t;
  up_uvm : uvm_at t up free (mm s);
  up_image : user_image up (p_sz p);
  up_sz : 0 <= p_sz p < KERNBASE;
}.

Lemma image_above up sz k : user_image up sz -> sz <= k -> up !! k = None.
Proof. intros Hi Hk. destruct (up !! k) eqn:E; [|done]. destruct (proj1 (Hi k)) as [_ ?]; [by eexists|lia]. Qed.

Lemma aligned_roundup k sz :
  0 <= sz <= KERNBASE -> k mod PGSIZE = 0 -> sz <= k <-> PGROUNDUP sz <= k.
Proof.
  intros Hs Hk. destruct (roundup_range sz) as [Hm Hr]; [lia|lia|].
  apply Z.mod_divide in Hm as [a Ha]; [|done]. apply Z.mod_divide in Hk as [b Hb]; [|done]. mlia.
Qed.

Lemma root_nonzero t up free (m : mem) : uvm_at t up free m -> root t <> 0.
Proof. intros Hu. pose proof (pa_root _ _ (va_pt _ _ _ (uv_vm _ _ _ _ Hu))) as Hf%frame_pos. mlia. Qed.

Lemma image_alloced img t up free m sz n t' up' free' m' :
  user_image up sz -> 0 <= sz -> 0 <= n -> sz + n < KERNBASE -> uvm_at t up free m ->
  alloced img [] t up free m (PGROUNDUP sz) (PGROUNDUP (sz + n)) t' up' free' m' -> user_image up' (sz + n).
Proof.
  intros Hi Hs Hn Hk Hu Hal k. split.
  - intros [x Hx]. destruct (uv_dom _ _ _ _ (al_uvm _ _ _ _ _ _ _ _ _ _ _ _ Hal) _ _ Hx) as (Hm&Hr&_). split; [done|].
    destruct (decide (PGROUNDUP sz <= k < PGROUNDUP (sz + n))) as [Hin|Hout].
    + pose proof (aligned_roundup k (sz + n) ltac:(lia) Hm). lia.
    + rewrite (al_up _ _ _ _ _ _ _ _ _ _ _ _ Hal) in Hx by done. destruct (proj1 (Hi k)) as [_ ?]; [by eexists|lia].
  - intros [Hm Hr]. destruct (decide (k < sz)).
    + pose proof (aligned_roundup k sz ltac:(lia) Hm). rewrite (al_up _ _ _ _ _ _ _ _ _ _ _ _ Hal) by lia. apply Hi. split; [done|lia].
    + pose proof (aligned_roundup k sz ltac:(lia) Hm). pose proof (aligned_roundup k (sz + n) ltac:(lia) Hm).
      destruct (al_new _ _ _ _ _ _ _ _ _ _ _ _ Hal k) as (x&Hx&_); [lia|done|]. by eexists.
Qed.

Lemma image_shrunk t up free m sz nsz up' free' m' :
  user_image up sz -> 0 <= nsz <= sz -> sz < KERNBASE ->
  shrunk t (PGROUNDUP nsz) sz up free m up' free' m' -> user_image up' nsz.
Proof.
  intros Hi Hn Hk Hsh k. rewrite (sh_up _ _ _ _ _ _ _ _ _ Hsh). case_decide as Hd.
  - split; [by intros [? ?]|]. intros [Hm Hr]. pose proof (aligned_roundup k nsz ltac:(lia) Hm). lia.
  - unfold user_image in Hi. rewrite Hi. split; [|intros [? ?]; split; [done|lia]]. intros [Hm Hr]. split; [done|].
    pose proof (aligned_roundup k nsz ltac:(lia) Hm). lia.
Qed.

Lemma shrunk_conserved t a z up free (m : mem) up' free' m' :
  shrunk t a z up free m up' free' m' -> conserved t up free t up' free'.
Proof.
  intros Hsh v. destruct (sh_free _ _ _ _ _ _ _ _ _ Hsh) as (freed&->&Hfr). rewrite elem_of_app, Hfr. unfold vm_pages. split.
  - intros [?|[?|[k Hk]]]; [tauto..|]. destruct (decide (a <= k < z)); [left; left; eauto|].
    right. right. exists k. rewrite (sh_up _ _ _ _ _ _ _ _ _ Hsh). by rewrite decide_False.
  - intros [[(k&_&Hk)|?]|[?|[k Hk]]]; [right; right; eauto|tauto..|].
    rewrite (sh_up _ _ _ _ _ _ _ _ _ Hsh) in Hk. case_decide; [done|]. right. right. eauto.
Qed.

Lemma shrunk_bytes t a z up free (m : mem) up' free' m' va :
  uvm_at t up free m -> shrunk t a z up free m up' free' m' -> ~ (a <= pg va < z) ->
  user_byte up' (ram m') va = user_byte up (ram m) va.
Proof.
  intros Hu Hsh Hout. unfold user_byte. rewrite (sh_up _ _ _ _ _ _ _ _ _ Hsh), decide_False by done.
  destruct (up !! pg va) as [x|] eqn:Hx; [|done]. cbn. unfold page_at. rewrite (sh_ram _ _ _ _ _ _ _ _ _ Hsh); [done|..].
  - by apply (uv_dom _ _ _ _ Hu) in Hx as (_&_&_&?&_).
  - intros k Hk Hkx. apply Hout. by rewrite (uv_inj _ _ _ _ Hu _ _ _ Hx Hkx).
Qed.

(** After the memory has changed: the new size is recorded and the page
    table loaded. *)
Lemma wp_set_size s c p t up free m sz (Q : Z -> kstate F -> Prop) :
  user_proc s c p t up free ->
  Q 0 (set_cr3 (V2P (root t)) (set_esp0 (u32 (p_kstack p + KSTACKSIZE)) (set_slot c (set_p_sz sz p) (set_mm m s)))) ->
  wp (upd_proc c (set_p_sz sz) ;;; switchuvm c ;;; ret 0) Q (set_mm m s).
Proof.
  intros [Hcur Hp Hks Hpg Hu _ _] HQ. pose proof (root_nonzero _ _ _ _ Hu).
  apply wp_bind. eapply wp_upd_proc; [done|]. apply wp_bind. unfold switchuvm.
  apply wp_bind. eapply wp_get_proc; [by eapply slot_self|].
  apply wp_bind, wp_panic_if; [by apply Z.eqb_neq|]. apply wp_bind, wp_panic_if; [apply Z.eqb_neq; cbn; congruence|].
  apply wp_bind, wp_modify, wp_modify, wp_ret. cbn [p_kstack p_pgdir set_p_sz]. rewrite Hpg. exact HQ.
Qed.

(** growproc(n), to a size that is not 0: it returns 0 with the size
    changed by n, the pages of the process exactly those below the new size,
    the new ones full of zeros and the old bytes kept, and the page table
    reloaded; or, when it grows and memory runs out, -1 with the process as
    it was.  No page is lost. *)
Theorem growproc_correct s c p t up free n :
  user_proc s c p t up free -> - p_sz p < n -> p_sz p + n < KERNBASE ->
  wp (growproc n) (fun r s' => exists t' up' free' q, root t' = root t /\
    procs (pt s') !! c = Some q /\ q = set_p_sz (p_sz q) p /\
    uvm_at t' up' free' (mm s') /\ user_image up' (p_sz q) /\ conserved t up free t' up' free' /\
    (forall va, 0 <= va -> pg va < p_sz p -> pg va < p_sz q ->
       user_byte up' (ram (mm s')) va = user_byte up (ram (mm s)) va) /\
    ((r = 0 /\ p_sz q = p_sz p + n /\ cr3 s' = V2P (root t) /\
      forall va, PGROUNDUP (p_sz p) <= pg va < PGROUNDUP (p_sz p + n) -> user_byte up' (ram (mm s')) va = Some 0) \/
     (r = -1 /\ 0 < n /\ p_sz q = p_sz p))) s.
Proof.
  intros Hup Hlo Hhi. pose proof Hup as [Hcur Hp Hks Hpg Hu Him Hsz]. pose proof (lookup_lt_Some _ _ _ Hp) as Hlt.
  unfold growproc. apply wp_bind. eapply (wp_myproc c); [done|]. apply wp_bind. eapply wp_get_proc; [done|].
  rewrite Hpg, (u32_small (p_sz p + n)) by mlia. apply wp_bind.
  assert (forall va, 0 <= va -> pg va < p_sz p -> ~ (PGROUNDUP (p_sz p) <= pg va)) as Hold.
  { intros va Hva Hlt'. pose proof (aligned_roundup (pg va) (p_sz p) ltac:(lia) (pg_mod va)). lia. }
  destruct (Z.ltb_spec 0 n) as [Hpos|Hneg].
  - apply wp_bind, wp_zoom. eapply wp_allocuvm; [done|lia|lia| | |].
    { intros k Hk. eapply image_above; [done|]. destruct (roundup_range (p_sz p)); lia. }
    + intros t' up' free' m' Hal. rewrite (proj2 (Z.eqb_neq _ 0)) by lia. apply wp_ret.
      eapply wp_set_size; [done|]. exists t', up', free', (set_p_sz (p_sz p + n) p).
      split; [apply Hal|]. split; [by eapply slot_self|]. split; [done|]. split; [apply Hal|].
      split; [by cbn [p_sz set_p_sz]; eapply image_alloced; [..|exact Hal]; (lia || done)|].
      split. { eapply alloced_conserved; [done|]. intros k Hk. eapply image_above; [done|]. destruct (roundup_range (p_sz p)); lia. }
      split. { intros va Hva Hl _. eapply alloced_bytes; [done|exact Hal|]. specialize (Hold va Hva Hl). lia. }
      left. split; [done|]. split; [done|]. split; [done|]. intros va Hr.
      destruct (al_new _ _ _ _ _ _ _ _ _ _ _ _ Hal (pg va) Hr (pg_mod va)) as (x&Hx&Hz&_).
      unfold user_byte. rewrite Hx. cbn [mbind option_bind]. cbn [mm set_cr3 set_esp0 set_slot set_pt set_mm]. rewrite Hz.
      pose proof (Z.mod_pos_bound va PGSIZE ltac:(done)). apply lookup_replicate_2. lia.
    + intros t' free' m' Hal _. change (0 =? 0) with true. cbv iota. do 2 apply wp_ret.
      exists t', up, free', p. split; [apply Hal|]. split; [done|]. split; [by destruct p|]. split; [apply Hal|].
      split; [done|]. split; [eapply alloced_conserved; [done|]; lia|].
      split; [|right; done]. intros va Hva Hl _. eapply alloced_bytes; [done|exact Hal|]. lia.
  - destruct (Z.ltb_spec n 0) as [Hn|Hn0].
    + apply wp_bind, wp_zoom. eapply wp_deallocuvm; [done|lia|lia|]. intros up' free' m' Hsh.
      rewrite (proj2 (Z.eqb_neq _ 0)) by lia. apply wp_ret.
      eapply wp_set_size; [done|]. exists t, up', free', (set_p_sz (p_sz p + n) p).
      split; [done|]. split; [by eapply slot_self|]. split; [done|]. split; [apply Hsh|].
      split; [by cbn [p_sz set_p_sz]; eapply image_shrunk; [..|exact Hsh]; (lia || done)|].
      split; [by eapply shrunk_conserved|].
      split; [|left; split; [done|]; split; [done|]; split; [done|]].
      * intros va Hva _ Hl. cbn [p_sz set_p_sz] in Hl. eapply shrunk_bytes; [done|exact Hsh|].
        pose proof (aligned_roundup (pg va) (p_sz p + n) ltac:(lia) (pg_mod va)). lia.
      * intros va Hr. pose proof (aligned_roundup (pg va) (p_sz p + n) ltac:(lia) (pg_mod va)).
        destruct (roundup_range (p_sz p)); lia.
    + assert (n = 0) as -> by lia. apply wp_ret.
      pose proof (wp_set_size s c p t up free (mm s) (p_sz p)) as Hset.
      replace (set_mm (mm s) s) with s in Hset by (by destruct s). apply Hset; [done|].
      exists t, up, free, (set_p_sz (p_sz p) p). split; [done|]. split; [by eapply slot_self|]. split; [done|].
      split; [done|]. split; [done|]. split; [done|]. split; [done|]. left. split; [done|].
      split; [cbn; lia|]. split; [done|]. intros va Hr. rewrite Z.add_0_r in Hr. lia.
Qed.

(** A shrink to size 0 gives up every page, but growproc() takes the 0 that
    deallocuvm() returns for a failure: it returns -1 and leaves the size. *)
Lemma growproc_to_zero s c p t up free :
  user_proc s c p t up free -> 0 < p_sz p ->
  wp (growproc (- p_sz p)) (fun r s' => r = -1 /\ procs (pt s') = procs (pt s) /\
    exists up' free', uvm_at t up' free' (mm s') /\ user_image up' 0) s.
Proof.
  intros Hup Hpos. pose proof Hup as [Hcur Hp Hks Hpg Hu Him Hsz].
  unfold growproc. apply wp_bind. eapply (wp_myproc c); [done|]. apply wp_bind. eapply wp_get_proc; [done|].
  rewrite Hpg, (u32_small (p_sz p + - p_sz p)) by mlia. replace (p_sz p + - p_sz p) with 0 by lia. apply wp_bind.
  rewrite (proj2 (Z.ltb_ge _ _)), (proj2 (Z.ltb_lt _ _)) by lia.
  apply wp_bind, wp_zoom. eapply wp_deallocuvm; [done|lia|lia|]. intros up' free' m' Hsh.
  change (0 =? 0) with true. cbv iota. do 2 apply wp_ret. split; [done|]. split; [done|]. exists up', free'.
  split; [apply Hsh|]. eapply image_shrunk; [done| |lia|exact Hsh]. lia.
Qed.

End grow.

Module Example.
Import Kalloc.Machine VmThms.Example ProcFork.Example.
#[local] Existing Instance counted.

Lemma caller_user : user_proc ks 0 caller (VmThms.Example.pt B1) (us B1) [F1].
Proof.
  split; try done; [exact space1|]. intros k. split; [|intros [Hm Hk]; by apply us_below].
  unfold us. intros [x [<- _]%lookup_singleton_Some]. done.
Qed.

Lemma growproc_correct_witness :
  wp (growproc 4096) (fun r s' => exists t' up' free' q, root t' = root (VmThms.Example.pt B1) /\
    procs (Proc.pt s') !! 0%nat = Some q /\ q = set_p_sz (p_sz q) caller /\
    uvm_at t' up' free' (mm s') /\ user_image up' (p_sz q) /\ conserved (VmThms.Example.pt B1) (us B1) [F1] t' up' free' /\
    (forall va, 0 <= va -> pg va < p_sz caller -> pg va < p_sz q ->
       user_byte up' (ram (mm s')) va = user_byte (us B1) (ram (mm ks)) va) /\
    ((r = 0 /\ p_sz q = p_sz caller + 4096 /\ cr3 s' = V2P (root (VmThms.Example.pt B1)) /\
      forall va, PGROUNDUP (p_sz caller) <= pg va < PGROUNDUP (p_sz caller + 4096) -> user_byte up' (ram (mm s')) va = Some 0) \/
     (r = -1 /\ 0 < 4096 /\ p_sz q = p_sz caller))) ks.
Proof. apply (growproc_correct ks 0 caller (VmThms.Example.pt B1) (us B1) [F1] 4096 caller_user); done. Defined.

(** A killed slot: fork() that fails after allocproc() leaves its pid in the
    unused slot, kill() of that pid succeeds, and the next process in the slot
    starts killed. *)
Definition leftover (m : mem) (f : counts) : kstate counts :=
  mkks (mkptab false (caller :: set_p_pid 2 ProcSpec.Example.slot0 :: replicate 62 ProcSpec.Example.slot0) 3 (Some 0%nat))
    (Some 0%nat) (mkcpu 0 false false) 0 0 false m f.

Theorem kill_unused_slot m f :
  exists s1 s2 q, kill 2 (leftover m f) = Ok 0 s1 /\ alloc_slot s1 = Ok (Some 1%nat) s2 /\
    procs (Proc.pt s2) !! 1%nat = Some q /\ p_pid q = 3 /\ p_killed q = true.
Proof.
  exists (final (kill 2) (leftover m f)), (final alloc_slot (final (kill 2) (leftover m f))),
    (set_p_killed true (set_p_pid 3 (set_p_state EMBRYO ProcSpec.Example.slot0))).
  split_and!; by vm_compute.
Qed.

End Example.
