(* ===== verification/Trap.v ===== *)
(** trap.c: the interrupt descriptor table, and trap(), which every system
    call, interrupt and exception enters.

    The state adds to that of one CPU (Proc.v) what trap.c and lapic.c own:
    tickslock, ticks, idt, the register that lidt() loads, and the number of
    interrupts acknowledged to the local APIC.  A trap frame is an address in
    the kernel stack, and its fields are words of memory.  syscall() and the
    handlers of the devices are parameters, and the messages of cprintf() are
    left out.  As in Proc.v the functions are cut where the process gives up
    the CPU. *)

From S2P Require Import Prelude Params Bytes CString Kalloc Vm Spinlock Proc.

(** ** traps.h, mmu.h, and the offsets in struct trapframe (x86.h) *)
Definition T_SYSCALL : Z := 64.
Definition T_IRQ0 : Z := 32.
Definition IRQ_TIMER : Z := 0.
Definition IRQ_KBD : Z := 1.
Definition IRQ_COM1 : Z := 4.
Definition IRQ_IDE : Z := 14.
Definition IRQ_SPURIOUS : Z := 31.
Definition TF_TRAPNO : Z := 48.
Definition SEG_KCODE : Z := 1.
Definition STS_IG32 : Z := 0xE.
Definition STS_TG32 : Z := 0xF.

(** struct gatedesc; the fields that are always 0 (args, rsv1, s) included. *)
Record gatedesc := mkgate {
  off_15_0 : Z;
  g_cs : Z;
  g_args : Z;
  g_rsv1 : Z;
  g_type : Z;
  g_s : Z;
  g_dpl : Z;
  g_p : Z;
  off_31_16 : Z;
}.

Definition SETGATE (istrap : bool) (sel off d : Z) : gatedesc :=
  mkgate (Z.land off 0xffff) sel 0 0 (if istrap then STS_TG32 else STS_IG32) 0 d 1 (Z.shiftr off 16).

(** ** The state *)
Record tsys (F : Type) := mkts {
  tk : kstate F;
  tickslock : bool;
  ticks : Z;
  idt : list gatedesc;
  idtr : option (Z * Z);
  eois : nat;
}.
Arguments mkts {F} _ _ _ _ _ _.
Arguments tk {F} _.
Arguments tickslock {F} _.
Arguments ticks {F} _.
Arguments idt {F} _.
Arguments idtr {F} _.
Arguments eois {F} _.

Definition set_tk {F} v (s : tsys F) : tsys F := mkts v (tickslock s) (ticks s) (idt s) (idtr s) (eois s).
Definition set_tickslock {F} v (s : tsys F) : tsys F := mkts (tk s) v (ticks s) (idt s) (idtr s) (eois s).
Definition set_ticks {F} v (s : tsys F) : tsys F := mkts (tk s) (tickslock s) v (idt s) (idtr s) (eois s).
Definition set_idt {F} v (s : tsys F) : tsys F := mkts (tk s) (tickslock s) (ticks s) v (idtr s) (eois s).
Definition set_idtr {F} v (s : tsys F) : tsys F := mkts (tk s) (tickslock s) (ticks s) (idt s) v (eois s).
Definition set_eois {F} v (s : tsys F) : tsys F := mkts (tk s) (tickslock s) (ticks s) (idt s) (idtr s) v.

(** How trap() ends: back to where the trap came from, or at a switch to the
    scheduler in syscall(), in exit(), or in yield(). *)
Inductive tout := TReturn | TInSyscall | TExited | TYielded.

#[export] Instance tout_eq_dec : EqDecision tout.
Proof. solve_decision. Defined.

(** A store of the kernel to the virtual address [va].  A page that is
    missing or read-only (CR0_WP is set, entry.S) gives a page fault in the
    kernel, for which trap() panics. *)
Definition vstore8 `{KernelImage} (pgdir va b : Z) : M mem unit :=
  let* pte := walkpgdir pgdir va false in
  if pte =? 0 then panic "trap" else
  let* e := load32 pte in
  if has e PTE_P && has e PTE_W then store_bytes (P2V (PTE_ADDR e) + va mod PGSIZE) [b]
  else panic "trap".

Fixpoint vstore `{KernelImage} (pgdir va : Z) (buf : list Z) : M mem unit :=
  match buf with
  | [] => ret tt
  | b :: buf => vstore8 pgdir va b ;;; vstore pgdir (u32 (va + 1)) buf
  end.

Section trap.
Context {F : Type} `{ProcFiles F} `{KernelImage}.

(** vectors (vectors.S, generated), the address of idt, and cpuid(). *)
Context (vectors : nat -> Z) (idt_addr : Z) (cpuid : Z).

(** syscall() tells whether it returned; otherwise the process sleeps in it,
    or has left it in exit(). *)
Context (syscall : M (tsys F) bool) (ideintr kbdintr uartintr : M (tsys F) unit).

Definition onk {A} (m : M (kstate F) A) : M (tsys F) A := zoom tk set_tk m.

(** ** The descriptor table *)

Definition tvinit : M (tsys F) unit :=
  for_each (seq 0 256) (fun i =>
    modify (fun s => set_idt (<[i := SETGATE false (Z.shiftl SEG_KCODE 3) (vectors i) 0]> (idt s)) s)) ;;;
  modify (fun s => set_idt (<[Z.to_nat T_SYSCALL :=
    SETGATE true (Z.shiftl SEG_KCODE 3) (vectors (Z.to_nat T_SYSCALL)) DPL_USER]> (idt s)) s) ;;;
  modify (set_tickslock false).

(** lidt() stores the size less one. *)
Definition idtinit : M (tsys F) unit := modify (set_idtr (Some (idt_addr, 256 * 8 - 1))).

(** ** trap() *)

Definition tfget (tf off : Z) : M (tsys F) Z := onk (onmem (load32 (tf + off))).
Definition tfset (tf off x : Z) : M (tsys F) unit := onk (onmem (store32 (tf + off) x)).

(** tf->cs & 3 *)
Definition cpl (tf : Z) : M (tsys F) Z :=
  let* cs := tfget tf TF_CS in
  ret (Z.land cs 3).

(** acquire(&tickslock) and release(&tickslock) *)
Definition tk_acquire : M (tsys F) unit :=
  onk (modify (fun s => set_kcpu (pushcli (kcpu s)) s)) ;;;
  acquire tickslock set_tickslock.
Definition tk_release : M (tsys F) unit :=
  release tickslock set_tickslock ;;;
  onk (let* c := gets kcpu in
       match popcli c with
       | Some c => modify (set_kcpu c)
       | None => panic "popcli"
       end).

Definition ticks_chan : wchan := CObj (Chan "ticks" 0).

Definition lapiceoi : M (tsys F) unit := modify (fun s => set_eois (S (eois s)) s).

(** The time: one CPU counts it. *)
Definition tick : M (tsys F) unit :=
  if cpuid =? 0 then
    tk_acquire ;;;
    modify (fun s => set_ticks (u32 (ticks s + 1)) s) ;;;
    onk (wakeup ticks_chan) ;;;
    tk_release
  else ret tt.

(** The process is made to call its handler: the address where it was
    interrupted is the return address. *)
Definition alarm_call (tf : Z) (c : nat) : M (tsys F) unit :=
  let* esp := tfget tf TF_ESP in
  tfset tf TF_ESP (u32 (esp - 4)) ;;;
  let* esp := tfget tf TF_ESP in
  let* eip := tfget tf TF_EIP in
  let* d := gets (fun s => cr3 (tk s)) in
  onk (onmem (vstore (P2V d) esp (le_of 4 eip))) ;;;
  let* p := onk (get_proc c) in
  tfset tf TF_EIP (p_alarmhandler p) ;;;
  onk (upd_proc c (set_p_tick_counts 0)).

(** tick_counts is an int. *)
Definition alarm_tick (tf : Z) : M (tsys F) unit :=
  let* me := gets (fun s => cur (tk s)) in
  match me with
  | None => ret tt
  | Some c =>
      let* l := cpl tf in
      if l =? 3 then
        let* p := onk (get_proc c) in
        (if p_tick_counts p <? 2 ^ 31 - 1 then onk (upd_proc c (set_p_tick_counts (p_tick_counts p + 1)))
         else fault "signed overflow") ;;;
        let* p := onk (get_proc c) in
        if p_tick_counts p =? p_alarmticks p then alarm_call tf c else ret tt
      else ret tt
  end.

(** The default case: an exception. *)
Definition unexpected (tf : Z) : M (tsys F) unit :=
  let* me := gets (fun s => cur (tk s)) in
  match me with
  | None => panic "trap"
  | Some c =>
      let* l := cpl tf in
      if l =? 0 then panic "trap" else onk (upd_proc c (set_p_killed true))
  end.

(** The switch on tf->trapno *)
Definition dispatch (tf no : Z) : M (tsys F) unit :=
  if no =? T_IRQ0 + IRQ_TIMER then tick ;;; lapiceoi ;;; alarm_tick tf
  else if no =? T_IRQ0 + IRQ_IDE then ideintr ;;; lapiceoi
  else if no =? T_IRQ0 + IRQ_IDE + 1 then ret tt
  else if no =? T_IRQ0 + IRQ_KBD then kbdintr ;;; lapiceoi
  else if no =? T_IRQ0 + IRQ_COM1 then uartintr ;;; lapiceoi
  else if (no =? T_IRQ0 + 7) || (no =? T_IRQ0 + IRQ_SPURIOUS) then lapiceoi
  else unexpected tf.

(** myproc() && myproc()->killed && (tf->cs&3) == DPL_USER *)
Definition must_exit (tf : Z) : M (tsys F) bool :=
  let* me := gets (fun s => cur (tk s)) in
  match me with
  | None => ret false
  | Some c =>
      let* p := onk (get_proc c) in
      if p_killed p then let* l := cpl tf in ret (l =? DPL_USER) else ret false
  end.

(** The last test of trap(); also where a process continues that had been
    switched away from in yield(). *)
Definition trap_end (tf : Z) : M (tsys F) tout :=
  let* dead := must_exit tf in
  if dead then onk exit ;;; ret TExited else ret TReturn.

Definition trap_resumed (tf : Z) (ena : bool) : M (tsys F) tout :=
  onk (yield_back ena) ;;;
  trap_end tf.

(** myproc() && myproc()->state == RUNNING && tf->trapno == T_IRQ0+IRQ_TIMER *)
Definition must_yield (tf : Z) : M (tsys F) bool :=
  let* me := gets (fun s => cur (tk s)) in
  match me with
  | None => ret false
  | Some c =>
      let* p := onk (get_proc c) in
      if bool_decide (p_state p = RUNNING) then
        let* no := tfget tf TF_TRAPNO in
        ret (no =? T_IRQ0 + IRQ_TIMER)
      else ret false
  end.

(** if(myproc()->killed) exit(); *)
Definition killed_exit (k : M (tsys F) tout) : M (tsys F) tout :=
  let* c := onk myproc in
  let* p := onk (get_proc c) in
  if p_killed p then onk exit ;;; ret TExited else k.

(** From the return of syscall() on. *)
Definition syscall_end : M (tsys F) tout := killed_exit (ret TReturn).

Definition trap (tf : Z) : M (tsys F) tout :=
  let* no := tfget tf TF_TRAPNO in
  if no =? T_SYSCALL then
    killed_exit (
      let* c := onk myproc in
      onk (upd_proc c (set_p_tf tf)) ;;;
      let* r := syscall in
      if r then syscall_end else ret TInSyscall)
  else
    dispatch tf no ;;;
    let* dead := must_exit tf in
    if dead then onk exit ;;; ret TExited
    else
      let* y := must_yield tf in
      if y then onk yield ;;; ret TYielded
      else trap_end tf.
End trap.
