(* ===== verification/TrapSpec.v ===== *)
(** trap.c: the gates that user code may use, what exceptions do, that a
    killed process does not come back to user mode, and the alarm: what one
    timer interrupt does, and how many calls of the handler a number of
    interrupts make. *)

From S2P Require Import Prelude Params Bytes CString Kalloc Vm VmSpec VmFork VmThms Spinlock Proc ProcSpec ProcRefine Trap.

Lemma bind_ok {S A B} (m : M S A) (k : A -> M S B) s b s' :
  bind m k s = Ok b s' -> exists a s1, m s = Ok a s1 /\ k a s1 = Ok b s'.
Proof. unfold bind. destruct (m s); naive_solver. Qed.

(** ** Stores of the kernel to user addresses *)

Section store.
Context `{KernelImage}.

Definition writable (t : ptable) (up : gmap Z Z) (m : gmap Z (list Z)) (va : Z) : Prop :=
  is_Some (up !! pg va) /\ has (pte_of t m va) PTE_W = true.

Lemma wp_vstore8 t up free s va b (Q : unit -> mem -> Prop) :
  uvm_at t up free s -> 0 <= va < KERNBASE -> byte_ok b -> writable t up (ram s) va ->
  (forall s', copied t up free s va [b] s' -> Q tt s') -> wp (vstore8 (root t) va b) Q s.
Proof.
  intros Hu Hva Hb [[p Hp] Hw] HQ. destruct (uv_dom _ _ _ _ Hu _ _ Hp) as (_&_&Hpf&_).
  destruct (user_tab _ _ _ _ _ _ Hu Hp) as (q&Hq&Hqf&He&HP&Hadr). assert (is_u32 va) as Hvu by mlia.
  pose proof (pg_range va). pose proof (pg_pos va). assert (is_u32 (pg va)) as Hpu by mlia.
  destruct (pg_indices (pg va) va Hpu Hvu (pg_id _ (pg_mod va))) as [Ei Et]. rewrite Ei in Hq. rewrite Et in He.
  assert (pte_of t (ram s) (pg va) = pte_of t (ram s) va) as Ep by (apply pte_of_page; [done|done|apply pg_id, pg_mod]).
  rewrite Ep in *. unfold vstore8. apply wp_bind, wp_walk; [apply Hu|apply Hu|done|]. rewrite Hq.
  destruct (frame_word q (PTX va) Hqf (PTX_range va)) as (_&_&Hnz). rewrite (proj2 (Z.eqb_neq _ 0)) by done.
  apply wp_bind, wp_load_entry; [apply Hu|done|apply PTX_range|]. rewrite He, HP, Hw, Hadr, frame_P2V by done. cbn [andb].
  pose proof (Z.mod_pos_bound va PGSIZE ltac:(done)) as Hvm. destruct (frame_byte p (va mod PGSIZE) Hpf Hvm) as [E1 E2].
  unfold store_bytes. rewrite E1, E2. apply wp_bind. eapply wp_get_page; [apply ram_page; [apply Hu|done]|].
  eapply wp_put_page; [apply ram_page; [apply Hu|done]|]. apply HQ, copied_page; [done|lia|done|by constructor|cbn; lia].
Qed.

Lemma wp_vstore t up free buf : forall s va (Q : unit -> mem -> Prop),
  uvm_at t up free s -> 0 <= va -> va + Z.of_nat (length buf) <= KERNBASE -> bytes_ok buf ->
  (forall a, va <= a < va + Z.of_nat (length buf) -> writable t up (ram s) a) ->
  (forall s', copied t up free s va buf s' -> Q tt s') -> wp (vstore (root t) va buf) Q s.
Proof.
  induction buf as [|b buf IH]; intros s va Q Hu Hva Hend Hb Hw HQ; cbn [vstore].
  { apply wp_ret, HQ. by apply copied_nil. }
  cbn [length] in *. inversion Hb; subst. apply wp_bind. eapply wp_vstore8; [done|lia|done|apply Hw; lia|]. intros s1 Hc.
  rewrite u32_small by mlia. apply IH; [apply Hc|lia|lia|done| |].
  - intros a Ha. destruct (Hw a) as [Hw1 Hw2]; [lia|]. split; [done|]. by rewrite (cp_pte _ _ _ _ _ _ _ Hc).
  - intros s2 Hc2. apply HQ. by apply (copied_app t up free s va [b] s1 buf s2).
Qed.

(** A word of a frame that belongs to no address space. *)
Lemma uvm_store_entry t up free s k i x :
  uvm_at t up free s -> frame k -> k ∉ free -> ~ vm_pages t up k -> 0 <= i < NPT ->
  let s' := set_ram (<[k := put_entry i x (page_at (ram s) k)]> (ram s)) s in
  uvm_at t up free s' /\ (forall a, user_byte up (ram s') a = user_byte up (ram s) a) /\
  (forall a, pte_of t (ram s') a = pte_of t (ram s) a).
Proof.
  intros Hu Hk Hf Hv Hi s'. assert (forall w, vm_pages t up w -> ram s' !! w = ram s !! w) as Hr.
  { intros w Hw. unfold s'. cbn. rewrite lookup_insert_ne; [done|]. by intros ->. }
  split_and!.
  - eapply uvm_frame; [done|by apply kmem_at_entry; [apply Hu|..]|intros w Hw; apply Hr; by left|].
    intros v Hvf. split; [intros Hin; by eapply (va_disj _ _ _ (uv_vm _ _ _ _ Hu))|].
    intros a Ha. by apply (uv_dom _ _ _ _ Hu) in Ha as (_&_&_&_&?).
  - intros a. unfold user_byte. destruct (up !! pg a) as [p|] eqn:Hp; [|done]. cbn. unfold page_at. rewrite Hr; [done|]. right. by exists (pg a).
  - intros a. apply pte_of_frame. intros w Hw. apply Hr. by left.
Qed.
End store.

Section spec.
Context {F : Type} `{ProcFiles F} `{KernelImage}.
Context (vectors : nat -> Z) (idt_addr cpuid : Z).
Context (syscall : M (tsys F) bool) (ideintr kbdintr uartintr : M (tsys F) unit).
Implicit Types (s : tsys F).

#[local] Notation trap := (Trap.trap cpuid syscall ideintr kbdintr uartintr).

(** ** The gates *)

(** The address that a gate leads to. *)
Definition gate_offset (g : gatedesc) : Z := Z.lor (Z.shiftl (off_31_16 g) 16) (off_15_0 g).

Lemma SETGATE_offset i sel off d : is_u32 off -> gate_offset (SETGATE i sel off d) = off.
Proof.
  intros Hoff. unfold gate_offset, SETGATE. cbn. change 0xffff with (Z.ones 16). rewrite Z.land_ones by done.
  apply Z.bits_inj'. intros n Hn. rewrite Z.lor_spec, Z.shiftl_spec by done.
  destruct (decide (n < 16)).
  - rewrite Z.testbit_neg_r by lia. by rewrite Z.mod_pow2_bits_low by lia.
  - rewrite Z.mod_pow2_bits_high, Z.shiftr_spec, orb_false_r by lia. f_equal. lia.
Qed.

(** C38: tvinit(): every vector leads to its entry in vectors.S, in the kernel's
    code segment; int from user code is allowed for the system call only, and
    that is the only entry that leaves interrupts enabled. *)
Theorem tvinit_gates s :
  length (idt s) = 256%nat -> (forall i, is_u32 (vectors i)) ->
  wp (tvinit vectors) (fun _ s' => length (idt s') = 256%nat /\ tickslock s' = false /\
    forall i g, idt s' !! i = Some g ->
      gate_offset g = vectors i /\ g_cs g = 8 /\ g_p g = 1 /\
      (DPL_USER <= g_dpl g <-> i = 64%nat) /\ (g_type g = STS_IG32 <-> i <> 64%nat)) s.
Proof.
  intros Hlen Hv. unfold tvinit. apply wp_bind.
  set (gate := fun i => SETGATE false (Z.shiftl SEG_KCODE 3) (vectors i) 0).
  apply (wp_for_seq 256 _ (fun k s' => length (idt s') = 256%nat /\ forall i, (i < k)%nat -> idt s' !! i = Some (gate i))).
  - split; [done|]. lia.
  - intros k s1 Hk [Hl Hg]. apply wp_modify. cbn [idt set_idt]. split; [by rewrite length_insert|]. intros i Hi.
    destruct (decide (i = k)) as [->|Hn]; [apply list_lookup_insert_eq; lia|]. rewrite list_lookup_insert_ne by done. apply Hg. lia.
  - intros s1 [Hl Hg]. apply wp_bind, wp_modify, wp_modify. cbn [idt set_idt set_tickslock tickslock]. split; [by rewrite length_insert|].
    split; [done|]. intros i g Hi. change (Z.to_nat T_SYSCALL) with 64%nat in Hi. destruct (decide (i = 64%nat)) as [->|Hn].
    + rewrite list_lookup_insert_eq in Hi by lia. injection Hi as <-. rewrite SETGATE_offset by done. by cbn.
    + rewrite list_lookup_insert_ne in Hi by done. assert (i < 256)%nat by (apply lookup_lt_Some in Hi; lia).
      rewrite Hg in Hi by done. injection Hi as <-. unfold gate. rewrite SETGATE_offset by done. cbn. unfold DPL_USER. split_and!; try done; lia.
Qed.

(** ** Killed processes and exceptions *)

Lemma onk_ok {A} (m : M (kstate F) A) s a s' :
  onk m s = Ok a s' -> exists k, m (tk s) = Ok a k /\ s' = set_tk k s.
Proof. unfold onk, zoom. destruct (m (tk s)); naive_solver. Qed.

Lemma set_tk_id s : set_tk (tk s) s = s.
Proof. by destruct s. Qed.

Lemma set_mm_id (k : kstate F) : set_mm (mm k) k = k.
Proof. by destruct k. Qed.

Lemma tfget_ok tf off s x s' : tfget tf off s = Ok x s' -> s' = s.
Proof.
  intros (k&Hk&->)%onk_ok. unfold onmem, zoom in Hk. destruct (load32 (tf + off) (mm (tk s))) as [y m| | | |] eqn:E; try done.
  injection Hk as -> <-. unfold load32 in E. apply bind_ok in E as (d&m1&E1&E2). unfold get_page in E1.
  destruct (ram (mm (tk s)) !! _); [|done]. injection E1 as -> <-. injection E2 as _ <-. by rewrite set_mm_id, set_tk_id.
Qed.

(** The trap came from user mode. *)
Definition user_mode (tf : Z) s : Prop := cpl tf s = Ok DPL_USER s.

Definition running (c : nat) (p : proc) s : Prop := cur (tk s) = Some c /\ procs (pt (tk s)) !! c = Some p.

Lemma get_proc_onk c p s : procs (pt (tk s)) !! c = Some p -> onk (get_proc c) s = Ok p s.
Proof. intros Hp. unfold onk, zoom, get_proc. rewrite Hp. cbn. by rewrite set_tk_id. Qed.

Lemma must_exit_run c p tf s :
  running c p s -> user_mode tf s -> must_exit tf s = Ok (p_killed p) s.
Proof.
  intros [Hc Hp] Hu. unfold must_exit. unfold bind at 1. cbn. rewrite Hc. unfold bind at 1. rewrite (get_proc_onk c p) by done.
  destruct (p_killed p); [|done]. unfold bind. by rewrite Hu.
Qed.

Lemma must_exit_ok tf s b s' : must_exit tf s = Ok b s' -> s' = s.
Proof.
  unfold must_exit. intros (me&s1&E1&E2)%bind_ok. injection E1 as <- <-. destruct (cur (tk s)) as [c|]; [|by injection E2].
  apply bind_ok in E2 as (p&s2&(k&Hg&->)%onk_ok&E2). unfold get_proc in Hg. destruct (procs (pt (tk s)) !! c); [|done].
  injection Hg as -> <-. rewrite set_tk_id in E2. destruct (p_killed p); [|by injection E2].
  apply bind_ok in E2 as (l&s3&E3&E4). unfold cpl in E3. apply bind_ok in E3 as (x&s4&E5%tfget_ok&E6). injection E6 as _ <-.
  injection E4 as _ <-. done.
Qed.

Lemma trap_end_alive tf s s' c p :
  trap_end tf s = Ok TReturn s' -> running c p s' -> user_mode tf s' -> p_killed p = false.
Proof.
  unfold trap_end. intros (b&s1&E1&E2)%bind_ok Hr Hu. pose proof (must_exit_ok _ _ _ _ E1) as ->.
  destruct b; [apply bind_ok in E2 as (?&?&_&E2); done|]. injection E2 as <-. rewrite (must_exit_run c p) in E1 by done. by injection E1.
Qed.

Lemma syscall_end_alive s s' c p : syscall_end s = Ok TReturn s' -> running c p s' -> p_killed p = false.
Proof.
  unfold syscall_end, killed_exit. intros (c'&s1&(k&Hm&->)%onk_ok&E)%bind_ok [Hc Hp].
  unfold myproc in Hm. apply bind_ok in Hm as (o&k1&E1&E2). injection E1 as <- <-. destruct (cur (tk s)) as [c0|] eqn:Ec; [|done].
  injection E2 as -> <-. rewrite set_tk_id in E. apply bind_ok in E as (q&s2&(k&Hg&->)%onk_ok&E).
  unfold get_proc in Hg. destruct (procs (pt (tk s)) !! c') as [x|] eqn:Hx; [|done]. injection Hg as -> <-. rewrite set_tk_id in E.
  destruct (p_killed q) eqn:Hk; [apply bind_ok in E as (?&?&_&E); done|]. injection E as <-. congruence.
Qed.

(** C20: trap(), or the rest of it after a switch, never returns to user mode in a
    process that has been killed. *)
Theorem killed_never_returns tf s s' c p :
  trap tf s = Ok TReturn s' \/ (exists ena, trap_resumed tf ena s = Ok TReturn s') \/ syscall_end s = Ok TReturn s' ->
  running c p s' -> user_mode tf s' -> p_killed p = false.
Proof.
  intros [E|[[ena E]|E]] Hr Hu; [|unfold trap_resumed in E; apply bind_ok in E as (?&s1&_&E); by eapply trap_end_alive|by eapply syscall_end_alive].
  unfold Trap.trap in E. apply bind_ok in E as (no&s1&_&E). destruct (no =? T_SYSCALL).
  - unfold killed_exit in E. apply bind_ok in E as (c1&s2&_&E). apply bind_ok in E as (q&s3&_&E).
    destruct (p_killed q); [apply bind_ok in E as (?&?&_&E); done|]. apply bind_ok in E as (c2&s4&_&E). apply bind_ok in E as (?&s5&_&E).
    apply bind_ok in E as (r&s6&_&E). destruct r; [by eapply syscall_end_alive|done].
  - apply bind_ok in E as (?&s2&_&E). apply bind_ok in E as (d&s3&_&E). destruct d; [apply bind_ok in E as (?&?&_&E); done|].
    apply bind_ok in E as (y&s4&_&E). destruct y; [apply bind_ok in E as (?&?&_&E); done|]. by eapply trap_end_alive.
Qed.

(** The vectors that trap() knows. *)
Definition known : list Z :=
  [T_SYSCALL; T_IRQ0 + IRQ_TIMER; T_IRQ0 + IRQ_IDE; T_IRQ0 + IRQ_IDE + 1; T_IRQ0 + IRQ_KBD; T_IRQ0 + IRQ_COM1; T_IRQ0 + 7; T_IRQ0 + IRQ_SPURIOUS].

Lemma trap_unknown tf no s :
  tfget tf TF_TRAPNO s = Ok no s -> no ∉ known ->
  trap tf s = (unexpected tf ;;;
    let* dead := must_exit tf in
    if dead then onk exit ;;; ret TExited
    else let* y := must_yield tf in if y then onk yield ;;; ret TYielded else trap_end tf) s.
Proof.
  intros Hno Hk. unfold known in Hk. rewrite !not_elem_of_cons in Hk. destruct Hk as (N1&N2&N3&N4&N5&N6&N7&N8&_).
  unfold Trap.trap. unfold bind at 1. rewrite Hno, (proj2 (Z.eqb_neq _ _) N1). unfold dispatch.
  rewrite (proj2 (Z.eqb_neq _ _) N2), (proj2 (Z.eqb_neq _ _) N3), (proj2 (Z.eqb_neq _ _) N4), (proj2 (Z.eqb_neq _ _) N5).
  by rewrite (proj2 (Z.eqb_neq _ _) N6), (proj2 (Z.eqb_neq _ _) N7), (proj2 (Z.eqb_neq _ _) N8).
Qed.

(** C37: An exception in user mode is the end of the process: it is marked as
    killed and leaves through exit().  One in the kernel is a panic. *)
Theorem exceptions tf no s c p :
  tfget tf TF_TRAPNO s = Ok no s -> no ∉ known -> running c p s ->
  (user_mode tf s -> trap tf s = (onk exit ;;; ret TExited) (set_tk (set_slot c (set_p_killed true p) (tk s)) s)) /\
  (cpl tf s = Ok 0 s -> trap tf s = Panic "trap").
Proof.
  intros Hno Hk [Hc Hp]. split; intros Hu; rewrite (trap_unknown tf no) by done; unfold unexpected; unfold bind at 1.
  - unfold bind at 1. cbn [gets]. rewrite Hc. unfold bind at 1. rewrite Hu. change (DPL_USER =? 0) with false. cbv iota.
    set (s1 := set_tk (set_slot c (set_p_killed true p) (tk s)) s).
    assert (onk (upd_proc c (set_p_killed true)) s = Ok tt s1) as ->.
    { unfold onk, zoom, upd_proc, bind, get_proc. by rewrite Hp. }
    unfold bind at 1. rewrite (must_exit_run c (set_p_killed true p)); [done| |].
    + split; [done|]. by eapply slot_self.
    + unfold user_mode, cpl in *. apply bind_ok in Hu as (x&s2&E&E2). pose proof (tfget_ok _ _ _ _ _ E) as ->. injection E2 as Ex.
      unfold bind, tfget, onk, onmem, zoom in *. cbn. destruct (load32 (tf + TF_CS) (mm (tk s))) as [y m| | | |]; try done.
      injection E as -> E. assert (m = mm (tk s)) as -> by (by rewrite <- E). cbn. rewrite Ex. by destruct s as [[]].
  - unfold bind at 1. cbn [gets]. rewrite Hc. unfold bind at 1. by rewrite Hu.
Qed.

(** ** The timer interrupt *)

(** Word [i] of the kernel stack in frame [k]. *)
Definition kword (k i : Z) s : Z := entry (page_at (ram (mm (tk s))) k) i.

(** Process [c] runs in user mode on this CPU, and is interrupted by the
    timer; its trap frame is at word [j] of the frame [k].  The gate has
    disabled interrupts. *)
Record interrupted (tf k j : Z) (c : nat) (p : proc) (t : ptable) (up : gmap Z Z) (free : list Z) s : Prop := {
  in_run : running c p s;
  in_state : p_state p = RUNNING;
  in_alive : p_killed p = false;
  in_count : 0 <= p_tick_counts p < 2 ^ 31 - 1;
  in_handler : is_u32 (p_alarmhandler p);
  in_locks : tickslock s = false /\ pt_lock (pt (tk s)) = false;
  in_cpu : ncli (kcpu (tk s)) = 0 /\ fl_if (kcpu (tk s)) = false;
  in_cr3 : cr3 (tk s) = V2P (root t);
  in_uvm : uvm_at t up free (mm (tk s));
  in_frame : frame k /\ k ∉ free /\ ~ vm_pages t up k;
  in_tf : tf = k + 4 * j /\ 0 <= j /\ j + 19 <= NPT;
  in_no : kword k (j + 12) s = T_IRQ0 + IRQ_TIMER;
  in_cs : Z.land (kword k (j + 15) s) 3 = DPL_USER;
}.

(** The stack has room for the return address. *)
Definition stack_room (t : ptable) (up : gmap Z Z) (esp : Z) s : Prop :=
  4 <= esp <= KERNBASE /\ forall a, esp - 4 <= a < esp -> writable t up (ram (mm (tk s))) a.

Definition due (p : proc) : bool := p_tick_counts p + 1 =? p_alarmticks p.

(** The process is about to call its handler, which will return to where the
    process was interrupted. *)
Definition calls (k j : Z) (up : gmap Z Z) (h : Z) s s' : Prop :=
  let esp := kword k (j + 17) s in
  (forall i, 0 <= i < NPT -> kword k i s' = if decide (i = j + 17) then esp - 4 else if decide (i = j + 14) then h else kword k i s) /\
  (forall a, 0 <= a -> user_byte up (ram (mm (tk s'))) a =
     if decide (esp - 4 <= a < esp) then le_of 4 (kword k (j + 14) s) !! Z.to_nat (a - (esp - 4)) else user_byte up (ram (mm (tk s))) a).

(** It is not. *)
Definition keeps (k : Z) (up : gmap Z Z) s s' : Prop :=
  (forall i, 0 <= i < NPT -> kword k i s' = kword k i s) /\
  (forall a, 0 <= a -> user_byte up (ram (mm (tk s'))) a = user_byte up (ram (mm (tk s))) a).

Lemma wp_kword k i (Q : Z -> tsys F -> Prop) s :
  ram_ok (ram (mm (tk s))) -> frame k -> 0 <= i < NPT -> Q (kword k i s) s -> wp (onk (onmem (load32 (k + 4 * i)))) Q s.
Proof. intros Hr Hk Hi HQ. apply wp_zoom, wp_zoom. apply wp_load_entry; [done..|]. by rewrite set_mm_id, set_tk_id. Qed.

Definition put_mm (m : mem) s : tsys F := set_tk (set_mm m (tk s)) s.
Definition put_proc (c : nat) (p : proc) s : tsys F := set_tk (set_slot c p (tk s)) s.

(** One byte order of the offsets in the trap frame. *)
Lemma tf_word k j off : off mod 4 = 0 -> k + 4 * j + off = k + 4 * (j + off / 4).
Proof. intros Hm. pose proof (Z.div_mod off 4). lia. Qed.

(** A store to the kernel stack. *)
Lemma wp_put_kword k i x (Q : unit -> tsys F -> Prop) s :
  ram_ok (ram (mm (tk s))) -> frame k -> 0 <= i < NPT ->
  Q tt (put_mm (set_ram (<[k := put_entry i x (page_at (ram (mm (tk s))) k)]> (ram (mm (tk s)))) (mm (tk s))) s) ->
  wp (onk (onmem (store32 (k + 4 * i) x))) Q s.
Proof. intros Hr Hk Hi HQ. apply wp_zoom, wp_zoom. by apply wp_store_entry. Qed.

(** What the alarm makes of memory. *)
Record alarmed (k j : Z) (t : ptable) (up : gmap Z Z) (free : list Z) (h : Z) (m m' : mem) : Prop := {
  ad_uvm : uvm_at t up free m';
  ad_words i : 0 <= i < NPT -> entry (page_at (ram m') k) i =
    if decide (i = j + 17) then entry (page_at (ram m) k) (j + 17) - 4
    else if decide (i = j + 14) then h else entry (page_at (ram m) k) i;
  ad_user a : 0 <= a -> let esp := entry (page_at (ram m) k) (j + 17) in user_byte up (ram m') a =
    if decide (esp - 4 <= a < esp) then le_of 4 (entry (page_at (ram m) k) (j + 14)) !! Z.to_nat (a - (esp - 4))
    else user_byte up (ram m) a;
  ad_ram w : w <> k -> (forall a, up !! a <> Some w) -> ram m' !! w = ram m !! w;
}.

Section frame.
Context (k j : Z) (t : ptable) (up : gmap Z Z) (free : list Z).
Context (Hk : frame k) (Hfree : k ∉ free) (Hvm : ~ vm_pages t up k) (Hj : 0 <= j /\ j + 19 <= NPT).

(** The three stores: the stack pointer, the return address, the handler. *)
Lemma alarmed_stores h (m m2 : mem) :
  uvm_at t up free m -> is_u32 h ->
  let esp := entry (page_at (ram m) k) (j + 17) in
  let m1 := set_ram (<[k := put_entry (j + 17) (esp - 4) (page_at (ram m) k)]> (ram m)) m in
  4 <= esp <= KERNBASE -> copied t up free m1 (esp - 4) (le_of 4 (entry (page_at (ram m) k) (j + 14))) m2 ->
  alarmed k j t up free h m (set_ram (<[k := put_entry (j + 14) h (page_at (ram m2) k)]> (ram m2)) m2).
Proof.
  intros Hu Hh esp m1 Hesp Hc. pose proof (ka_ram _ _ (va_kmem _ _ _ (uv_vm _ _ _ _ Hu))) as Hr. pose proof (page_len _ _ Hr Hk) as Hl.
  destruct (uvm_store_entry t up free m k (j + 17) (esp - 4) Hu Hk Hfree Hvm ltac:(lia)) as (Hu1&Hb1&_). fold m1 in Hu1, Hb1.
  assert (E2 : page_at (ram m2) k = put_entry (j + 17) (esp - 4) (page_at (ram m) k)).
  { rewrite <- (page_at_insert (ram m) k). unfold page_at at 1. rewrite (cp_ram _ _ _ _ _ _ _ Hc); [done|]. intros a Ha. apply Hvm. right. by exists a. }
  pose proof (cp_uvm _ _ _ _ _ _ _ Hc) as Hu2. destruct (uvm_store_entry t up free m2 k (j + 14) h Hu2 Hk Hfree Hvm ltac:(lia)) as (Hu3&Hb3&_).
  constructor; [done|..].
  - intros i Hi. cbn [ram set_ram]. rewrite page_at_insert, E2. rewrite entry_put by (try apply length_put_entry; done || lia).
    destruct (decide (j + 14 = i)) as [<-|Hn]; [by rewrite decide_False, decide_True by lia|].
    rewrite entry_put by (done || mlia). destruct (decide (j + 17 = i)) as [<-|]; [by rewrite decide_True|]. by rewrite !decide_False by lia.
  - intros a Ha. cbv zeta. fold esp. rewrite Hb3, (cp_byte _ _ _ _ _ _ _ Hc) by done. rewrite length_le_of, Hb1.
    by replace (esp - 4 + Z.of_nat 4) with esp by lia.
  - intros w Hn Hw. cbn [ram set_ram]. rewrite lookup_insert_ne by done. rewrite (cp_ram _ _ _ _ _ _ _ Hc) by done. by apply lookup_insert_ne.
Qed.

Lemma wp_alarm_call c p s (Q : unit -> tsys F -> Prop) :
  procs (pt (tk s)) !! c = Some p -> is_u32 (p_alarmhandler p) -> cr3 (tk s) = V2P (root t) ->
  uvm_at t up free (mm (tk s)) -> stack_room t up (kword k (j + 17) s) s ->
  (forall m', alarmed k j t up free (p_alarmhandler p) (mm (tk s)) m' -> Q tt (put_proc c (set_p_tick_counts 0 p) (put_mm m' s))) ->
  wp (alarm_call (k + 4 * j) c) Q s.
Proof.
  intros Hp Hh Hcr Hu [Hesp Hw] HQ. pose proof (ka_ram _ _ (va_kmem _ _ _ (uv_vm _ _ _ _ Hu))) as Hr. pose proof (page_len _ _ Hr Hk) as Hl.
  assert (frame (root t)) as Hrt by apply (pa_root _ _ (va_pt _ _ _ (uv_vm _ _ _ _ Hu))).
  unfold alarm_call, tfget, tfset, TF_ESP, TF_EIP. rewrite !(tf_word k j) by done.
  change (68 / 4) with 17. change (56 / 4) with 14.
  apply wp_bind, wp_kword; [done|done|lia|]. set (esp := kword k (j + 17) s) in *. rewrite u32_small by mlia.
  apply wp_bind, wp_put_kword; [done|done|lia|].
  destruct (uvm_store_entry t up free (mm (tk s)) k (j + 17) (esp - 4) Hu Hk Hfree Hvm ltac:(lia)) as (Hu1&_&Hp1).
  set (m1 := set_ram _ _) in *. assert (ram_ok (ram m1)) as Hr1 by apply Hu1.
  assert (forall i, 0 <= i < NPT -> kword k i (put_mm m1 s) = if decide (j + 17 = i) then esp - 4 else kword k i s) as E1.
  { intros i Hi. unfold kword. cbn [ram mm tk put_mm set_tk set_mm m1 set_ram]. rewrite page_at_insert. apply entry_put; [done|lia|done|mlia]. }
  apply wp_bind, wp_kword; [done|done|lia|]. rewrite E1, decide_True by lia.
  apply wp_bind, wp_kword; [done|done|lia|]. rewrite E1, decide_False by lia.
  apply wp_bind, wp_gets. cbn [tk put_mm set_tk cr3 set_mm]. rewrite Hcr, frame_P2V by done.
  apply wp_bind, wp_zoom, wp_zoom. cbn [tk put_mm set_tk mm set_mm].
  eapply (wp_vstore t up free); [done|lia|rewrite length_le_of; lia|apply le_of_bytes_ok| |].
  { intros a Ha. rewrite length_le_of in Ha. destruct (Hw a ltac:(lia)). split; [done|]. by rewrite Hp1. }
  intros m2 Hc. apply wp_bind, wp_zoom. eapply wp_get_proc; [done|]. apply wp_bind, wp_put_kword; [apply Hc|done|lia|].
  apply wp_zoom. eapply wp_upd_proc; [exact Hp|]. by apply (HQ _ (alarmed_stores (p_alarmhandler p) _ m2 Hu Hh Hesp Hc)).
Qed.
End frame.

(** The processes after the clock has ticked on this CPU. *)
Definition woken s : list proc := if cpuid =? 0 then wakeup1 (Some ticks_chan) (procs (pt (tk s))) else procs (pt (tk s)).
Definition time_after s : Z := if cpuid =? 0 then u32 (ticks s + 1) else ticks s.

Definition ticked (x : cpu) s : tsys F :=
  mkts (set_kcpu x (set_pt (set_procs (woken s) (pt (tk s))) (tk s))) (tickslock s) (time_after s) (idt s) (idtr s) (eois s).

Lemma wp_tick (Q : unit -> tsys F -> Prop) s :
  tickslock s = false -> pt_lock (pt (tk s)) = false -> ncli (kcpu (tk s)) = 0 -> fl_if (kcpu (tk s)) = false ->
  (forall x, ncli x = 0 -> fl_if x = false -> Q tt (ticked x s)) -> wp (tick cpuid) Q s.
Proof.
  intros Ht Hl Hn Hf HQ. unfold tick, ticked, woken, time_after in *.
  destruct s as [[[pl l np ip] cu [n e f] cr es fi m fs] tl ti id ir eo]. cbn in Ht, Hl, Hn, Hf, HQ. subst.
  destruct (cpuid =? 0).
  - cbv -[wakeup1 u32 ticks_chan]. apply (HQ (mkcpu 0 false false)); done.
  - apply wp_ret. apply (HQ (mkcpu 0 e false)); done.
Qed.

Lemma wakeup_running c p l ch : l !! c = Some p -> p_state p = RUNNING -> wakeup1 ch l !! c = Some p.
Proof. intros Hp Hs. unfold wakeup1. rewrite list_lookup_fmap, Hp. cbn. by rewrite Hs, bool_decide_false. Qed.

Lemma woken_running c p s : running c p s -> p_state p = RUNNING -> woken s !! c = Some p.
Proof. intros [_ Hp] Hs. unfold woken. destruct (cpuid =? 0); [by apply wakeup_running|done]. Qed.

(** The memory and the count after the alarm has been looked at. *)
Definition counted (c : nat) (p : proc) (m : mem) s : tsys F :=
  put_proc c (set_p_tick_counts (if due p then 0 else p_tick_counts p + 1) p) (put_mm m s).

Lemma put_proc_twice c p p' s : put_proc c p' (put_proc c p s) = put_proc c p' s.
Proof. unfold put_proc, set_slot. cbn. by rewrite list_insert_insert_eq. Qed.

Lemma wp_alarm_tick tf k j c p t up free s (Q : unit -> tsys F -> Prop) :
  interrupted tf k j c p t up free s -> (due p = true -> stack_room t up (kword k (j + 17) s) s) ->
  (forall m', (if due p then alarmed k j t up free (p_alarmhandler p) (mm (tk s)) m' else m' = mm (tk s)) -> Q tt (counted c p m' s)) ->
  wp (alarm_tick tf) Q s.
Proof.
  intros [[Hc Hp] _ _ Hcnt Hh _ _ Hcr Hu (Hk&Hf&Hv) (->&Hj) _ Hcs] Hroom HQ. unfold counted in HQ.
  pose proof (ka_ram _ _ (va_kmem _ _ _ (uv_vm _ _ _ _ Hu))) as Hr.
  unfold alarm_tick. apply wp_bind, wp_gets. rewrite Hc. apply wp_bind. unfold cpl, tfget, TF_CS. rewrite (tf_word k j) by done. change (60 / 4) with 15.
  apply wp_bind, wp_kword; [done|done|lia|]. apply wp_ret. rewrite Hcs. change (DPL_USER =? 3) with true. cbv iota.
  apply wp_bind, wp_zoom. eapply wp_get_proc; [done|]. rewrite set_tk_id. rewrite (proj2 (Z.ltb_lt _ _)) by lia.
  apply wp_bind, wp_zoom. eapply wp_upd_proc; [done|]. set (p1 := set_p_tick_counts (p_tick_counts p + 1) p).
  fold (put_proc c p1 s). apply wp_bind, wp_zoom. eapply (wp_get_proc c p1); [by eapply slot_self|]. rewrite set_tk_id.
  change (p_tick_counts p1 =? p_alarmticks p1) with (due p). destruct (due p) eqn:Ed.
  - eapply (wp_alarm_call k j t up free Hk Hf Hv ltac:(lia) c p1); [by eapply slot_self|done|done|done|by apply Hroom|].
    intros m' Hm. specialize (HQ m' Hm). unfold put_mm, put_proc, set_slot in *. cbn in *. by rewrite list_insert_insert_eq.
  - apply wp_ret. specialize (HQ _ eq_refl). unfold put_mm in HQ. by rewrite set_mm_id, set_tk_id in HQ.
Qed.

(** The tests after the switch, in a process that runs and is not killed. *)
Lemma wp_must_exit tf c p (Q : bool -> tsys F -> Prop) s :
  running c p s -> p_killed p = false -> Q false s -> wp (must_exit tf) Q s.
Proof.
  intros [Hc Hp] Hk HQ. unfold must_exit. apply wp_bind, wp_gets. rewrite Hc. apply wp_bind, wp_zoom. eapply wp_get_proc; [done|].
  rewrite set_tk_id, Hk. by apply wp_ret.
Qed.

Lemma wp_must_yield k j c p (Q : bool -> tsys F -> Prop) s :
  running c p s -> p_state p = RUNNING -> ram_ok (ram (mm (tk s))) -> frame k -> 0 <= j /\ j + 19 <= NPT ->
  kword k (j + 12) s = T_IRQ0 + IRQ_TIMER -> Q true s -> wp (must_yield (k + 4 * j)) Q s.
Proof.
  intros [Hc Hp] Hs Hr Hk Hj Hw HQ. unfold must_yield. apply wp_bind, wp_gets. rewrite Hc. apply wp_bind, wp_zoom. eapply wp_get_proc; [done|].
  rewrite set_tk_id, Hs, bool_decide_true by done. unfold tfget, TF_TRAPNO. rewrite (tf_word k j) by done.
  apply wp_bind, wp_kword; [done|done|change (48 / 4) with 12; lia|]. change (48 / 4) with 12. rewrite Hw. by apply wp_ret.
Qed.

Lemma wp_yield c p (Q : unit -> tsys F -> Prop) s :
  running c p s -> quiet 0 (tk s) ->
  (forall k', cur k' = Some c -> procs (pt k') = <[c := set_p_state RUNNABLE p]> (procs (pt (tk s))) -> locked1 k' ->
     mm k' = mm (tk s) -> cr3 k' = cr3 (tk s) -> Q tt (set_tk k' s)) -> wp (onk yield) Q s.
Proof.
  intros [Hc Hp] Hq HQ. apply wp_zoom. unfold yield. apply wp_bind. eapply wp_pt_acquire; [done|]. pose proof (held_locked _ Hq) as Hl.
  apply wp_bind. eapply (wp_myproc c); [done|]. apply wp_bind. eapply wp_upd_proc; [exact Hp|].
  eapply (wp_sched c); [done|by eapply slot_self|done|exact Hl|]. by apply HQ.
Qed.

(** What a timer interrupt in user mode leaves when it switches to the scheduler. *)
Definition timer_post (k j : Z) (c : nat) (p : proc) (t : ptable) (up : gmap Z Z) (free : list Z) s s' : Prop :=
  cur (tk s') = Some c /\ locked1 (tk s') /\ tickslock s' = false /\ ticks s' = time_after s /\ eois s' = S (eois s) /\
  procs (pt (tk s')) = <[c := set_p_state RUNNABLE (set_p_tick_counts (if due p then 0 else p_tick_counts p + 1) p)]> (woken s) /\
  uvm_at t up free (mm (tk s')) /\ (if due p then calls k j up (p_alarmhandler p) s s' else keeps k up s s') /\
  forall w, w <> k -> (forall a, up !! a <> Some w) -> ram (mm (tk s')) !! w = ram (mm (tk s)) !! w.

Lemma timer_mem k j p t up free s s' :
  let m' := mm (tk s') in
  uvm_at t up free (mm (tk s)) ->
  (if due p then alarmed k j t up free (p_alarmhandler p) (mm (tk s)) m' else m' = mm (tk s)) ->
  uvm_at t up free m' /\ (if due p then calls k j up (p_alarmhandler p) s s' else keeps k up s s') /\
  forall w, w <> k -> (forall a, up !! a <> Some w) -> ram m' !! w = ram (mm (tk s)) !! w.
Proof.
  intros m' Hu. unfold calls, keeps, kword. fold m'. destruct (due p).
  - intros [Hu' Hw Hb Hr]. by split_and!.
  - intros E. rewrite E. by split_and!.
Qed.

Lemma wp_timer tf k j c p t up free s :
  interrupted tf k j c p t up free s -> (due p = true -> stack_room t up (kword k (j + 17) s) s) ->
  wp (trap tf) (fun r s' => r = TYielded /\ timer_post k j c p t up free s s') s.
Proof.
  intros Hin Hroom. pose proof Hin as [[Hc Hp] Hst Ha Hcnt Hh [Htl Hpl] [Hn Hf] Hcr Hu (Hk&Hfr&Hv) (->&Hj) Hno Hcs].
  pose proof (ka_ram _ _ (va_kmem _ _ _ (uv_vm _ _ _ _ Hu))) as Hr. unfold Trap.trap, dispatch.
  unfold tfget at 1, TF_TRAPNO. rewrite (tf_word k j 48) by done. change (48 / 4) with 12. apply wp_bind, wp_kword; [done|done|lia|].
  rewrite Hno. change (T_IRQ0 + IRQ_TIMER =? T_SYSCALL) with false. rewrite Z.eqb_refl. cbv iota.
  apply wp_bind, wp_bind. apply wp_tick; [done..|]. intros x Hx1 Hx2. apply wp_bind, wp_modify.
  set (s1 := set_eois _ _). pose proof (woken_running c p s (conj Hc Hp) Hst) as Hwk.
  assert (interrupted (k + 4 * j) k j c p t up free s1) as Hin1 by (by destruct Hin; split).
  eapply (wp_alarm_tick _ k j c p t up free); [done|exact Hroom|]. intros m' Hm.
  set (s2 := counted c p m' s1). set (p2 := set_p_tick_counts (if due p then 0 else p_tick_counts p + 1) p).
  assert (running c p2 s2) as Hrun by (split; [done|by eapply slot_self]).
  destruct (timer_mem k j p t up free s s2 Hu Hm) as (Hu2&Hcall&Hram).
  apply wp_bind. eapply wp_must_exit; [done|done|]. cbv iota.
  apply wp_bind. eapply (wp_must_yield k j c p2); [done|done|apply Hu2|done|done| |].
  { rewrite <- Hno. destruct (due p); [|by apply Hcall; lia]. destruct Hcall as [Hcall _]. rewrite Hcall, !decide_False by lia. done. }
  cbv iota. apply wp_bind. eapply (wp_yield c p2); [done|split; [done|split; [done|intros _; exact Hx2]]|].
  intros k' Hk1 Hk2 Hk3 Hk4 Hk5. apply wp_ret. split; [done|]. unfold timer_post. cbn [tk set_tk tickslock ticks eois]. rewrite Hk2.
  split_and!; try done; [cbn; by rewrite list_insert_insert_eq|by rewrite Hk4| |by rewrite Hk4].
  unfold calls, keeps, kword in *. cbn [tk set_tk]. by rewrite Hk4.
Qed.


(** ** The alarm over time *)

Definition alarm_of (c : nat) s : option (Z * Z * Z) :=
  (fun p => (p_alarmticks p, p_alarmhandler p, p_tick_counts p)) <$> procs (pt (tk s)) !! c.

Section run.
Context (c : nat) (s0 : tsys F).

(** From [s0] on, process [c] has been interrupted [m] times in user mode and
    has been made to call its handler [d] times.  Whatever else runs leaves
    the alarm of the process alone. *)
Inductive run : nat -> nat -> tsys F -> Prop :=
  | run_start : run 0 0 s0
  | run_other m d s s' : run m d s -> alarm_of c s' = alarm_of c s -> run m d s'
  | run_call m d s s' tf k j p t up free :
      run m d s -> interrupted tf k j c p t up free s -> (due p = true -> stack_room t up (kword k (j + 17) s) s) ->
      trap tf s = Ok TYielded s' -> calls k j up (p_alarmhandler p) s s' -> run (S m) (S d) s'
  | run_quiet m d s s' tf k j p t up free :
      run m d s -> interrupted tf k j c p t up free s -> (due p = true -> stack_room t up (kword k (j + 17) s) s) ->
      trap tf s = Ok TYielded s' -> keeps k up s s' -> run (S m) d s'.

(** The calls and the count after [m] interrupts, from the count [c0]. *)
Definition calls_after (n c0 : Z) (m : nat) : Z := if c0 <? n then (c0 + Z.of_nat m) / n else 0.
Definition count_after (n c0 : Z) (m : nat) : Z := if c0 <? n then (c0 + Z.of_nat m) mod n else c0 + Z.of_nat m.

Lemma next_after n c0 m :
  0 <= c0 ->
  let x := count_after n c0 m in
  count_after n c0 (S m) = (if x + 1 =? n then 0 else x + 1) /\
  calls_after n c0 (S m) = calls_after n c0 m + (if x + 1 =? n then 1 else 0).
Proof.
  intros H0'. unfold count_after, calls_after. cbv zeta. replace (c0 + Z.of_nat (S m)) with (c0 + Z.of_nat m + 1) by lia.
  destruct (Z.ltb_spec c0 n) as [Hlt|Hge].
  - set (x := c0 + Z.of_nat m). pose proof (Z.mod_pos_bound x n ltac:(lia)). pose proof (Z.div_mod x n ltac:(lia)) as E.
    destruct (Z.eqb_spec (x mod n + 1) n) as [E1|E1].
    + assert (x + 1 = n * (x / n + 1) + 0) as Ex by lia. split; symmetry; [by eapply Z.mod_unique_pos; [|exact Ex]; lia|by eapply Z.div_unique_pos; [|exact Ex]; lia].
    + assert (x + 1 = n * (x / n) + (x mod n + 1)) as Ex by lia. rewrite Z.add_0_r.
      split; symmetry; [by eapply Z.mod_unique_pos; [|exact Ex]; lia|by eapply Z.div_unique_pos; [|exact Ex]; lia].
  - rewrite (proj2 (Z.eqb_neq _ _)) by lia. lia.
Qed.

Lemma timer_alarm tf k j p t up free s s' n h x :
  alarm_of c s = Some (n, h, x) -> interrupted tf k j c p t up free s -> (due p = true -> stack_room t up (kword k (j + 17) s) s) ->
  trap tf s = Ok TYielded s' ->
  alarm_of c s' = Some (n, h, if x + 1 =? n then 0 else x + 1) /\
  if x + 1 =? n then calls k j up h s s' /\ ~ keeps k up s s' else keeps k up s s' /\ ~ calls k j up h s s'.
Proof.
  intros Hal Hin Hroom E. pose proof (wp_timer _ _ _ _ _ _ _ _ _ Hin Hroom) as Hw. unfold wp in Hw. rewrite E in Hw.
  destruct Hw as (_&_&_&_&_&_&Hpr&_&Hcall&_). pose proof (in_run _ _ _ _ _ _ _ _ _ Hin) as [_ Hp].
  pose proof (in_tf _ _ _ _ _ _ _ _ _ Hin) as (_&Hj).
  unfold alarm_of in Hal. rewrite Hp in Hal. injection Hal as <- <- <-. fold (due p).
  assert (calls k j up (p_alarmhandler p) s s' -> keeps k up s s' -> False) as Hex.
  { intros [Hc _] [Hk _]. specialize (Hc (j + 17) ltac:(lia)). rewrite decide_True, Hk in Hc by lia. lia. }
  split; [|destruct (due p); split; try done; intros ?; by apply Hex].
  unfold alarm_of. rewrite Hpr, list_lookup_insert_eq; [done|].
  eapply lookup_lt_Some, woken_running; [by apply (in_run _ _ _ _ _ _ _ _ _ Hin)|apply (in_state _ _ _ _ _ _ _ _ _ Hin)].
Qed.

Lemma run_after n h c0 m d s :
  alarm_of c s0 = Some (n, h, c0) -> 0 <= c0 -> run m d s ->
  alarm_of c s = Some (n, h, count_after n c0 m) /\ Z.of_nat d = calls_after n c0 m.
Proof.
  intros Hal Hc0. induction 1 as [|m d s s' _ [IH1 IH2] E|m d s s' tf k j p t up free _ [IH1 IH2] Hin Hroom E Hcall
    |m d s s' tf k j p t up free _ [IH1 IH2] Hin Hroom E Hkeep].
  - unfold count_after, calls_after. rewrite Z.add_0_r. destruct (Z.ltb_spec c0 n); [|done]. by rewrite Z.mod_small, Z.div_small by lia.
  - by rewrite E.
  - assert (p_alarmhandler p = h) as Eh.
    { pose proof (in_run _ _ _ _ _ _ _ _ _ Hin) as [_ Hp]. unfold alarm_of in IH1. rewrite Hp in IH1. by injection IH1. }
    rewrite Eh in Hcall. destruct (timer_alarm _ _ _ _ _ _ _ _ _ _ _ _ IH1 Hin Hroom E) as [Ea Eb]. destruct (next_after n c0 m Hc0) as [E1 E2].
    cbv zeta in E1, E2. rewrite E1, E2, Ea. split; [done|]. destruct (_ =? n); [lia|]. by destruct Eb as [_ []].
  - destruct (timer_alarm _ _ _ _ _ _ _ _ _ _ _ _ IH1 Hin Hroom E) as [Ea Eb]. destruct (next_after n c0 m Hc0) as [E1 E2].
    cbv zeta in E1, E2. rewrite E1, E2, Ea. split; [done|]. destruct (_ =? n); [by destruct Eb as [_ []]|lia].
Qed.

End run.
End spec.
