(* ===== verification/TrapExample.v ===== *)
(** trap(): the theorems of TrapSpec.v at a process with one page of memory
    (VmThms.v, ProcFork.v), interrupted at address 100 with its stack at the
    top of the page, and an alarm at every tick. *)

From S2P Require Import Prelude Params Bytes CString Kalloc Vm VmSpec VmFork VmThms Spinlock Proc ProcSpec ProcRefine ProcFork Trap TrapSpec.
Import Kalloc.Machine VmThms.Example ProcFork.Example.
#[local] Existing Instance counted.

Definition J : Z := 1005.

(** A kernel stack with the frame of trap [no] at its top. *)
Definition stack_page (no : Z) : list Z :=
  put_entry (J + 12) no (put_entry (J + 14) 100 (put_entry (J + 15) 0x1b (put_entry (J + 17) 4096 zeros))).

Lemma stack_page_ok no : length (stack_page no) = Z.to_nat PGSIZE /\ bytes_ok (stack_page no).
Proof.
  unfold stack_page. split; [|do 4 apply put_le_bytes_ok; apply zeros_ok].
  do 4 (rewrite length_put_entry; [done| |by vm_compute]). apply zeros_ok.
Qed.

Definition sleeper : proc := set_p_alarmhandler 16 (set_p_alarmticks 1 caller).

Definition machine (m : mem) : tsys counts :=
  mkts (mkks (mkptab false (sleeper :: replicate 63 ProcSpec.Example.slot0) 2 (Some 1%nat)) (Some 0%nat) (mkcpu 0 false false)
    (V2P B1) (KP + 4096) false m (one, one)) false 41 [] None 0.

Definition no_call : M (tsys counts) bool := ret true.
Definition no_intr : M (tsys counts) unit := ret tt.

(** ** The small machine: only the kernel stack *)

Definition stack_only (no : Z) : mem := mkmem false true 0 {[KP := stack_page no]}.

Lemma tvinit_gates_witness :
  wp (tvinit (fun _ => 0x80106000)) (fun _ s' => length (idt s') = 256%nat /\ tickslock s' = false /\
    forall i g, idt s' !! i = Some g ->
      gate_offset g = 0x80106000 /\ g_cs g = 8 /\ g_p g = 1 /\
      (DPL_USER <= g_dpl g <-> i = 64%nat) /\ (g_type g = STS_IG32 <-> i <> 64%nat))
    (set_idt (replicate 256 (mkgate 0 0 0 0 0 0 0 0 0)) (machine (stack_only 32))).
Proof. by apply (tvinit_gates (fun _ => 0x80106000) (set_idt _ _)). Defined.

(** A spurious interrupt returns to user mode. *)
Lemma killed_never_returns_witness :
  let s := machine (stack_only 39) in
  trap 0 no_call no_intr no_intr no_intr (KP + 4 * J) s = Ok TReturn (set_eois 1 s) /\ p_killed sleeper = false.
Proof.
  intros s. assert (E : trap 0 no_call no_intr no_intr no_intr (KP + 4 * J) s = Ok TReturn (set_eois 1 s)) by (vm_compute; reflexivity).
  split; [exact E|].
  apply (killed_never_returns 0 no_call no_intr no_intr no_intr (KP + 4 * J) s (set_eois 1 s) 0 sleeper); [by left|by split|].
  unfold user_mode. vm_compute. reflexivity.
Defined.

(** A page fault. *)
Lemma exceptions_witness :
  let s := machine (stack_only 14) in
  trap 0 no_call no_intr no_intr no_intr (KP + 4 * J) s =
    (onk exit ;;; ret TExited) (set_tk (set_slot 0 (set_p_killed true sleeper) (tk s)) s).
Proof.
  intros s. apply (exceptions 0 no_call no_intr no_intr no_intr (KP + 4 * J) 14 s 0 sleeper).
  - vm_compute. reflexivity.
  - unfold known. rewrite !not_elem_of_cons. split_and!; try discriminate. apply not_elem_of_nil.
  - by split.
  - unfold user_mode. vm_compute. reflexivity.
Defined.

(** ** The timer *)

Definition m1 : mem := set_ram (<[KP := stack_page 32]> (ram s1)) s1.

Lemma kp_outside : KP ∉ [F1] /\ ~ vm_pages (VmThms.Example.pt B1) (us B1) KP.
Proof.
  split; [by intros ?%list_elem_of_singleton|]. intros [Hin|[a Ha]]; [|unfold us in Ha; by apply lookup_singleton_Some in Ha as [_ ?]].
  unfold pages_of in Hin. cbn in Hin. by rewrite map_img_singleton_L, elem_of_union, !elem_of_singleton in Hin; destruct Hin.
Qed.

Lemma space_m1 : uvm_at (VmThms.Example.pt B1) (us B1) [F1] m1.
Proof.
  destruct kp_outside as [N1 N2]. assert (frame KP) as Hk by (by vm_compute). eapply uvm_frame; [exact space1| | |].
  - apply kmem_at_store; [exact kmem1|done|apply stack_page_ok..].
  - intros w Hw. apply lookup_insert_ne. intros E. subst w. apply N2. left. exact Hw.
  - intros v ->%list_elem_of_singleton. split.
    + intros Hin. eapply (va_disj _ _ _ (uv_vm _ _ _ _ space1)); [exact Hin|]. apply list_elem_of_here.
    + intros a Ha. by apply (uv_dom _ _ _ _ space1) in Ha as (_&_&_&_&[]%not_elem_of_cons).
Qed.

Lemma kword_m1 i : kword KP i (machine m1) = entry (stack_page 32) i.
Proof. unfold kword. cbn [ram mm tk machine m1 set_ram]. by rewrite page_at_insert. Qed.

Lemma interrupted1 : interrupted (KP + 4 * J) KP J 0 sleeper (VmThms.Example.pt B1) (us B1) [F1] (machine m1).
Proof.
  split.
  - by split.
  - done.
  - done.
  - done.
  - done.
  - done.
  - done.
  - done.
  - exact space_m1.
  - split; [by vm_compute|apply kp_outside].
  - done.
  - rewrite kword_m1. by vm_compute.
  - rewrite kword_m1. by vm_compute.
Qed.

Lemma stack_room1 : stack_room (VmThms.Example.pt B1) (us B1) (kword KP (J + 17) (machine m1)) (machine m1).
Proof.
  rewrite kword_m1. assert (entry (stack_page 32) (J + 17) = 4096) as -> by (by vm_compute). split; [done|]. intros a Ha.
  destruct (user_ok1 a ltac:(lia)) as [Hm _]. split; [done|]. assert (pg a = 0) as Hpg by (apply pg_eq; [done|mlia]).
  rewrite (pte_of_page _ _ a 0) by (mlia || done). cbn [ram mm tk machine m1 set_ram]. unfold pte_of, VmThms.Example.pt. cbn [tabs ram s1].
  change (PDX 0) with 0. rewrite lookup_singleton_eq. unfold page_at. rewrite lookup_insert_ne by done. unfold ram1.
  rewrite (lookup_insert_ne _ B1 (B1 + 4096)), lookup_insert_eq by done. cbn [default from_option id].
  unfold tab. rewrite entry_one by done. done.
Qed.


