(* ===== verification/Exec.v ===== *)
(** exec.c, and loaduvm() of vm.c: replacing the memory of a process by a
    program from the file system.

    The state is that of Proc.v with the file system below it.  A program is
    read with readi(); its pages and the stack are those of a page table that
    vm.c builds.  The argument strings are the bytes before their NUL.  The
    message that exec() prints is left out. *)

From S2P Require Import Prelude Params Bytes CString Buf Log Fs Kalloc Vm Spinlock Proc.

(** ** elf.h *)

Definition ELF_MAGIC : Z := 0x464C457F.
Definition ELF_PROG_LOAD : Z := 1.
Definition sizeof_elfhdr : Z := 52.
Definition sizeof_proghdr : Z := 32.

Record elfhdr := mkelf {
  e_magic : Z;
  e_entry : Z;
  e_phoff : Z;
  e_phnum : Z;
}.

Definition get_elfhdr (d : list Z) : elfhdr :=
  mkelf (get_u32 0 d) (get_u32 24 d) (get_u32 28 d) (get_le 2 44 d).

Record proghdr := mkph {
  ph_type : Z;
  ph_off : Z;
  ph_vaddr : Z;
  ph_filesz : Z;
  ph_memsz : Z;
}.

Definition get_proghdr (d : list Z) : proghdr :=
  mkph (get_u32 0 d) (get_u32 4 d) (get_u32 8 d) (get_u32 16 d) (get_u32 20 d).

(** The part of the path after the last slash. *)
Fixpoint last_elem (l s : list Z) : list Z :=
  match s with
  | [] => l
  | c :: s => last_elem (if c =? SLASH then s else l) s
  end.

(** ustack[], as the bytes that exec() copies out. *)
Definition ustack (argc sp : Z) (ptrs : list Z) : list Z :=
  concat (le_of 4 <$> [0xffffffff; argc; u32 (sp - (argc + 1) * 4)] ++ ptrs ++ [0]).

Section exec.
Context {S : Type} `{TxLayer S} `{OpLayer S} `{KernelImage}.
Context (dev_read : Z -> option (nat -> Z -> M (fsys S) (Z * list Z))).

Definition xonfs {A} (m : M (fsys S) A) : M (kstate (fsys S)) A := zoom fl set_fl m.
Definition xbegin_op : M (kstate (fsys S)) unit := xonfs (onblk bl_begin_op).
Definition xend_op : M (kstate (fsys S)) unit := xonfs (onblk bl_end_op).
Definition xread (ip : nat) (off n : Z) : M (kstate (fsys S)) (Z * list Z) := xonfs (readi dev_read ip (u32 off) n).

Fixpoint loaduvm_loop (fuel : nat) (pgdir addr : Z) (ip : nat) (offset sz i : Z) : M (kstate (fsys S)) Z :=
  if i <? sz then
    match fuel with
    | O => nofuel
    | Datatypes.S fuel =>
        let* pte := onmem (walkpgdir pgdir (u32 (addr + i)) false) in
        panic_if (pte =? 0) "loaduvm: address should exist" ;;;
        let* e := onmem (load32 pte) in
        let pa := PTE_ADDR e in
        let n := if u32 (sz - i) <? PGSIZE then u32 (sz - i) else PGSIZE in
        let* '(r, got) := xread ip (offset + i) n in
        onmem (store_bytes (P2V pa) got) ;;;
        if negb (u32 r =? n) then ret (-1)
        else loaduvm_loop fuel pgdir addr ip offset sz (u32 (i + PGSIZE))
    end
  else ret 0.

Definition loaduvm (pgdir addr : Z) (ip : nat) (offset sz : Z) : M (kstate (fsys S)) Z :=
  panic_if (negb (addr mod PGSIZE =? 0)) "loaduvm: addr must be page aligned" ;;;
  loaduvm_loop (Z.to_nat (sz / PGSIZE + 1)) pgdir addr ip offset sz 0.

(** The loop over the program headers; None is a jump to bad. *)
Fixpoint load_segments (n : nat) (pgdir : Z) (ip : nat) (off sz : Z) : M (kstate (fsys S)) (option Z) :=
  match n with
  | O => ret (Some sz)
  | Datatypes.S n =>
      let* '(r, d) := xread ip off sizeof_proghdr in
      if negb (u32 r =? sizeof_proghdr) then ret None
      else
        let ph := get_proghdr d in
        if negb (ph_type ph =? ELF_PROG_LOAD) then load_segments n pgdir ip (off + sizeof_proghdr) sz
        else if ph_memsz ph <? ph_filesz ph then ret None
        else if u32 (ph_vaddr ph + ph_memsz ph) <? ph_vaddr ph then ret None
        else
          let* sz := onmem (allocuvm pgdir sz (u32 (ph_vaddr ph + ph_memsz ph))) in
          if sz =? 0 then ret None
          else if negb (ph_vaddr ph mod PGSIZE =? 0) then ret None
          else
            let* r := loaduvm pgdir (ph_vaddr ph) ip (ph_off ph) (ph_filesz ph) in
            if r <? 0 then ret None
            else load_segments n pgdir ip (off + sizeof_proghdr) sz
  end.

(** The loop that pushes the argument strings: the stack pointer and the
    addresses of the strings, or None for bad. *)
Fixpoint push_args (pgdir sp : Z) (argv : list (list Z)) (ptrs : list Z) : M (kstate (fsys S)) (option (Z * list Z)) :=
  match argv with
  | [] => ret (Some (sp, ptrs))
  | a :: argv =>
      if (MAXARG <=? length ptrs)%nat then ret None
      else
        let len := Z.of_nat (length a) + 1 in
        let sp := Z.land (u32 (sp - len)) (u32 (Z.lnot 3)) in
        let* r := onmem (copyout pgdir sp (a ++ [0]) len) in
        if r <? 0 then ret None
        else push_args pgdir sp argv (ptrs ++ [sp])
  end.

(** The arguments and the frame of main: the final stack pointer. *)
Definition push_stack (pgdir sz : Z) (argv : list (list Z)) : M (kstate (fsys S)) (option Z) :=
  let* o := push_args pgdir sz argv [] in
  match o with
  | None => ret None
  | Some (sp, ptrs) =>
      let argc := Z.of_nat (length ptrs) in
      let sp' := u32 (sp - (3 + argc + 1) * 4) in
      let* r := onmem (copyout pgdir sp' (ustack argc sp ptrs) ((3 + argc + 1) * 4)) in
      ret (if r <? 0 then None else Some sp')
  end.

Definition bad (pgdir : Z) (ip : option nat) : M (kstate (fsys S)) Z :=
  (if pgdir =? 0 then ret tt else onmem (freevm pgdir)) ;;;
  (match ip with
   | Some ip => xonfs (iunlockput ip) ;;; xend_op
   | None => ret tt
   end) ;;;
  ret (-1).

(** From the point where the file is read: the stack, and the switch to the
    new image. *)
Definition exec_image (c : nat) (path : list Z) (argv : list (list Z)) (elf : elfhdr) (pgdir sz : Z) : M (kstate (fsys S)) Z :=
  let sz := PGROUNDUP sz in
  let* sz := onmem (allocuvm pgdir sz (u32 (sz + 2 * PGSIZE))) in
  if sz =? 0 then bad pgdir None
  else
    onmem (clearpteu pgdir (u32 (sz - 2 * PGSIZE))) ;;;
    let* o := push_stack pgdir sz argv in
    match o with
    | None => bad pgdir None
    | Some sp =>
        upd_proc c (set_name (last_elem path path)) ;;;
        let* p := get_proc c in
        let oldpgdir := p_pgdir p in
        upd_proc c (set_p_pgdir pgdir) ;;;
        upd_proc c (set_p_sz sz) ;;;
        onmem (store32 (p_tf p + TF_EIP) (e_entry elf)) ;;;
        onmem (store32 (p_tf p + TF_ESP) sp) ;;;
        switchuvm c ;;;
        onmem (freevm oldpgdir) ;;;
        ret 0
    end.

(** With the file locked. *)
Definition exec_file (c : nat) (path : list Z) (argv : list (list Z)) (ip : nat) : M (kstate (fsys S)) Z :=
  let* '(r, d) := xread ip 0 sizeof_elfhdr in
  if negb (u32 r =? sizeof_elfhdr) then bad 0 (Some ip)
  else
    let elf := get_elfhdr d in
    if negb (e_magic elf =? ELF_MAGIC) then bad 0 (Some ip)
    else
      let* pgdir := onmem setupkvm in
      if pgdir =? 0 then bad 0 (Some ip)
      else
        let* o := load_segments (Z.to_nat (e_phnum elf)) pgdir ip (e_phoff elf) 0 in
        match o with
        | None => bad pgdir (Some ip)
        | Some sz =>
            xonfs (iunlockput ip) ;;;
            xend_op ;;;
            exec_image c path argv elf pgdir sz
        end.

Definition exec (path : list Z) (argv : list (list Z)) : M (kstate (fsys S)) Z :=
  let* c := myproc in
  xbegin_op ;;;
  let* p := get_proc c in
  let* cwd := from_some (p_cwd p) in
  let* o := xonfs (namei dev_read cwd path) in
  match o with
  | None => xend_op ;;; ret (-1)
  | Some ip =>
      xonfs (ilock ip) ;;;
      exec_file c path argv ip
  end.

End exec.
