(* ===== verification/ExecMem.v ===== *)
(** exec(): the new address space as a list of bytes.  The memory of the
    process that runs, and every frame that was not free, stay as they are
    until the new image is complete. *)

From S2P Require Import Prelude Params Bytes CString Buf Log Fs Kalloc Vm VmSpec VmFork VmThms Spinlock Proc Exec.

(** ** What exec() puts on the stack

    The stack is the last page of an image of [sz] bytes; the strings go below
    each other, aligned to words, and below them the frame of main. *)

Fixpoint push_ref (base sp : Z) (argv : list (list Z)) (ptrs im : list Z) : option (Z * list Z * list Z) :=
  match argv with
  | [] => Some (sp, ptrs, im)
  | a :: argv =>
      let x := sp - (Z.of_nat (length a) + 1) in
      let sp := x - x mod 4 in
      if (MAXARG <=? length ptrs)%nat || (sp <? base) then None
      else push_ref base sp argv (ptrs ++ [sp]) (splice (Z.to_nat sp) (a ++ [0]) im)
  end.

Definition stack_ref (sz : Z) (argv : list (list Z)) (im : list Z) : option (Z * list Z) :=
  match push_ref (sz - PGSIZE) sz argv [] im with
  | None => None
  | Some (sp, ptrs, im) =>
      let argc := Z.of_nat (length ptrs) in
      let sp' := sp - (3 + argc + 1) * 4 in
      if sp' <? sz - PGSIZE then None else Some (sp', splice (Z.to_nat sp') (ustack argc sp ptrs) im)
  end.

Section mem.
Context `{KernelImage}.

(** ** copyout() into a page that is not accessible *)

Definition user_entry (e : Z) : bool := has e PTE_P && has e PTE_U.

Lemma wp_uva2ka_no t up free s va p (Q : Z -> mem -> Prop) :
  uvm_at t up free s -> is_u32 va -> tabs t !! PDX va = Some p -> user_entry (pte_of t (ram s) va) = false ->
  Q 0 s -> wp (uva2ka (root t) va) Q s.
Proof.
  intros Hu Hv Hp He HQ. pose proof (pa_tabs _ _ (va_pt _ _ _ (uv_vm _ _ _ _ Hu)) _ _ Hp) as [Hf _].
  unfold uva2ka. apply wp_bind, wp_walk; [apply Hu|apply Hu|done|]. rewrite Hp.
  apply wp_bind, wp_load_entry; [apply Hu|done|apply PTX_range|]. unfold pte_of in He. rewrite Hp in He. unfold user_entry in He.
  destruct (has _ PTE_P); cbn [negb]; [|by apply wp_ret]. cbn in He. rewrite He. by apply wp_ret.
Qed.

(** The copy stops at [e], after the bytes below it. *)
Lemma wp_copyout_stop fuel : forall t up free s va buf e p (Q : Z -> mem -> Prop),
  uvm_at t up free s -> 0 <= va <= e -> e < va + Z.of_nat (length buf) -> is_u32 e -> e = va \/ e mod PGSIZE = 0 -> bytes_ok buf ->
  (length buf <= fuel)%nat -> (forall a, va <= a < e -> user_ok t up (ram s) a) ->
  tabs t !! PDX e = Some p -> user_entry (pte_of t (ram s) e) = false ->
  (forall s', copied t up free s va (take (Z.to_nat (e - va)) buf) s' -> Q (-1) s') ->
  wp (copyout_loop fuel (root t) va buf (Z.of_nat (length buf))) Q s.
Proof.
  induction fuel as [|fuel IH]; intros t up free s va buf e p Q Hu Hva He Heu Hal Hb Hf Hok Hp Hn HQ; cbn [copyout_loop]; [lia|].
  rewrite (proj2 (Z.ltb_lt 0 _)) by lia. pose proof (Z.mod_pos_bound va PGSIZE ltac:(done)) as Hvm.
  assert (is_u32 va) as Hvau by mlia. rewrite PGROUNDDOWN_eq by done. fold (pg va). pose proof (pg_range va) as Hpr. pose proof (pg_pos va).
  assert (is_u32 (pg va)) as Hpu by mlia. assert (Hpp : pg (pg va) = pg va) by (apply pg_id, pg_mod).
  apply wp_bind. destruct (decide (e = va)) as [->|Hne].
  { destruct (pg_indices (pg va) va Hpu Hvau Hpp) as [Ei Et]. eapply (wp_uva2ka_no _ _ _ _ _ p); [done|done|by rewrite Ei| |].
    - by rewrite (pte_of_page t (ram s) (pg va) va).
    - apply wp_ret, HQ. rewrite Z.sub_diag. by apply copied_nil. }
  destruct Hal as [?|Hal]; [done|]. assert (Hnext : pg va + PGSIZE <= e).
  { pose proof (pg_mod va) as [x Hx]%Z.mod_divide; [|done]. apply Z.mod_divide in Hal as [y Hy]; [|done]. mlia. }
  destruct (Hok va) as [[q Hq] HU]; [lia|]. destruct (uv_dom _ _ _ _ Hu _ _ Hq) as (_&Hr&Hpf&_).
  eapply wp_uva2ka; [done|apply pg_mod|done| |].
  { by rewrite (pte_of_page t (ram s) (pg va) va). }
  rewrite (proj2 (Z.eqb_neq q 0)) by (pose proof (frame_pos q Hpf); mlia).
  assert (va - pg va = va mod PGSIZE) as Hoff by (unfold pg; lia). rewrite Hoff.
  assert (Z.min (PGSIZE - va mod PGSIZE) (Z.of_nat (length buf)) = PGSIZE - va mod PGSIZE) as -> by lia.
  set (n := PGSIZE - va mod PGSIZE). assert (Hn1 : pg va + PGSIZE = va + n) by lia.
  destruct (frame_byte q (va mod PGSIZE) Hpf Hvm) as [Hd1 Hd2].
  apply wp_bind. unfold store_bytes. rewrite Hd1, Hd2. apply wp_bind.
  eapply wp_get_page; [apply ram_page; [apply Hu|done]|]. eapply wp_put_page; [apply ram_page; [apply Hu|done]|].
  assert (Z.of_nat (length (take (Z.to_nat n) buf)) = n) as Hln by (rewrite length_take; lia).
  pose proof (copied_page t up free s va q (take (Z.to_nat n) buf) Hu ltac:(lia) Hq ltac:(by apply Forall_take) ltac:(lia)) as Hc.
  set (s1 := set_ram _ s) in *. clearbody s1.
  replace (Z.of_nat (length buf) - n) with (Z.of_nat (length (drop (Z.to_nat n) buf))) by (rewrite length_drop; lia).
  rewrite u32_small, Hn1 by mlia.
  eapply (IH t up free s1 (va + n) _ e p); [apply Hc|lia|rewrite length_drop; lia|done|by right|by apply Forall_drop|rewrite length_drop; lia| |done| |].
  - intros a Ha. destruct (Hok a) as [Ho1 Ho2]; [lia|]. split; [done|]. by rewrite (cp_pte _ _ _ _ _ _ _ Hc).
  - by rewrite (cp_pte _ _ _ _ _ _ _ Hc).
  - intros s2 Hc2. apply HQ. replace (take (Z.to_nat (e - va)) buf) with (take (Z.to_nat n) buf ++ take (Z.to_nat (e - (va + n))) (drop (Z.to_nat n) buf)).
    + eapply copied_app; [exact Hc|]. by rewrite Hln.
    + rewrite take_take_drop. f_equal. lia.
Qed.

(** ** The image *)

Section image.
(** The free list and the memory when exec() starts to build. *)
Context (all : list Z) (s0 : mem).
Context (Hall : NoDup all).

(** An address space made of free pages, whose user bytes are [im] and whose
    page at [g] is not accessible to the user. *)
Record space (t : ptable) (up : gmap Z Z) (free : list Z) (m : mem) (g : Z) (im : list Z) : Prop := {
  sp_uvm : uvm_at t up free m;
  sp_own : forall v, v ∈ all <-> v ∈ free \/ vm_pages t up v;
  sp_ram : forall w, w ∉ all -> ram m !! w = ram s0 !! w;
  sp_kern : forall va, is_u32 va -> KERNBASE <= va -> pte_of t (ram m) va = kmap_pte kmap va;
  sp_len : Z.of_nat (length im) mod PGSIZE = 0 /\ Z.of_nat (length im) <= KERNBASE;
  sp_byte : forall a, 0 <= a -> user_byte up (ram m) a = im !! Z.to_nat a;
  sp_user : forall a, 0 <= a < Z.of_nat (length im) -> has (pte_of t (ram m) a) PTE_U = negb (bool_decide (g <= a < g + PGSIZE));
}.

Lemma space_mapped t up free m g im a :
  space t up free m g im -> 0 <= a -> is_Some (up !! pg a) <-> a < Z.of_nat (length im).
Proof.
  intros Hs Ha. pose proof (sp_byte _ _ _ _ _ _ Hs a Ha) as Hb. unfold user_byte in Hb. split.
  - intros [p Hp]. rewrite Hp in Hb. cbn in Hb. destruct (uv_dom _ _ _ _ (sp_uvm _ _ _ _ _ _ Hs) _ _ Hp) as (_&_&Hf&_).
    pose proof (page_len _ _ (ka_ram _ _ (va_kmem _ _ _ (uv_vm _ _ _ _ (sp_uvm _ _ _ _ _ _ Hs)))) Hf) as Hl.
    pose proof (Z.mod_pos_bound a PGSIZE ltac:(done)). destruct (lookup_lt_is_Some_2 (page_at (ram m) p) (Z.to_nat (a mod PGSIZE))) as [x Hx]; [lia|].
    rewrite Hx in Hb. symmetry in Hb. apply lookup_lt_Some in Hb. lia.
  - intros Hlt. destruct (lookup_lt_is_Some_2 im (Z.to_nat a)) as [x Hx]; [lia|]. rewrite Hx in Hb.
    destruct (up !! pg a); [by eexists|done].
Qed.

Lemma user_space_ok t up free m g im a :
  space t up free m g im -> 0 <= a < Z.of_nat (length im) -> ~ (g <= a < g + PGSIZE) -> user_ok t up (ram m) a.
Proof.
  intros Hs Ha Hg. split; [by apply (space_mapped _ _ _ _ _ _ _ Hs); [lia|lia]|].
  by rewrite (sp_user _ _ _ _ _ _ Hs), bool_decide_false.
Qed.

Lemma space_above t up free m g im k : space t up free m g im -> Z.of_nat (length im) <= k -> up !! k = None.
Proof.
  intros Hs Hk. destruct (up !! k) as [p|] eqn:Hp; [|done]. exfalso.
  destruct (uv_dom _ _ _ _ (sp_uvm _ _ _ _ _ _ Hs) _ _ Hp) as (Hm&Hr&_).
  assert (k < Z.of_nat (length im)); [|lia]. apply (space_mapped _ _ _ _ _ _ _ Hs); [lia|]. rewrite pg_id by done. by eexists.
Qed.

(** The page directory of setupkvm(). *)
Lemma space_empty t free m : built all s0 (kmap_pte kmap) t free m -> space t ∅ free m KERNBASE [].
Proof.
  intros Hb. split.
  - eapply built_uvm; [done|]. intros va Hva Hlt. by eapply kmap_pte_user; [rewrite app_nil_r|..].
  - intros v. rewrite (bt_own _ _ _ _ _ _ Hb). unfold vm_pages. split; [intros [?|?]; tauto|].
    intros [?|[?|[k Hk]]]; [tauto..|]. by rewrite lookup_empty in Hk.
  - apply Hb.
  - intros va Hva _. by apply (bt_pte _ _ _ _ _ _ Hb).
  - done.
  - intros a _. unfold user_byte. by rewrite !lookup_empty.
  - cbn. lia.
Qed.

(** A store to the user pages. *)
Lemma space_copied t up free m g im va buf m' :
  space t up free m g im -> copied t up free m va buf m' -> 0 <= va -> va + Z.of_nat (length buf) <= Z.of_nat (length im) ->
  space t up free m' g (splice (Z.to_nat va) buf im).
Proof.
  intros [S1 S2 S3 S4 S5 S6 S7] [C1 C2 C3 C4] Hva Hfit. assert (length (splice (Z.to_nat va) buf im) = length im) as El by (apply length_splice; lia).
  split; rewrite ?El; try done.
  - intros w Hw. rewrite C4; [by apply S3|]. intros k Hk. apply Hw, S2. right. right. by exists k.
  - intros v Hv Hk. rewrite C3. by apply S4.
  - intros a Ha. rewrite (C2 a Ha). case_decide as Hin.
    + rewrite lookup_splice_in by lia. f_equal. lia.
    + rewrite lookup_splice_out by lia. by apply S6.
  - intros a Ha. rewrite C3. by apply S7.
Qed.

Definition grow (im : list Z) (n : Z) : list Z := im ++ replicate (Z.to_nat n - length im) 0.

Lemma length_grow im n : Z.of_nat (length im) <= n -> Z.of_nat (length (grow im n)) = n.
Proof. intros Hn. unfold grow. rewrite length_app, length_replicate. lia. Qed.

Lemma space_alloced t up free m g im z t' up' free' m' :
  space t up free m g im -> alloced img_zero [] t up free m (Z.of_nat (length im)) z t' up' free' m' ->
  z mod PGSIZE = 0 -> Z.of_nat (length im) <= z <= KERNBASE -> z <= g -> space t' up' free' m' g (grow im z).
Proof.
  intros Hs Hal Hz Hr Hg. pose proof Hs as [S1 S2 S3 S4 [S5 S5'] S6 S7]. pose proof (length_grow im z ltac:(lia)) as El.
  assert (Hpg : forall a, 0 <= a -> a < Z.of_nat (length im) \/ (Z.of_nat (length im) <= pg a < z) \/ z <= pg a).
  { intros a Ha. destruct (decide (a < Z.of_nat (length im))); [by left|right]. assert (Z.of_nat (length im) <= pg a); [|lia].
    pose proof (pg_range a). pose proof (pg_mod a) as [x Hx]%Z.mod_divide; [|done]. apply Z.mod_divide in S5 as [y Hy]; [|done]. mlia. }
  assert (Hold : forall a, 0 <= a < Z.of_nat (length im) -> ~ (Z.of_nat (length im) <= pg a < z)) by (intros a Ha; pose proof (pg_range a); lia).
  assert (Hnew : forall a, Z.of_nat (length im) <= pg a < z -> exists p, up' !! pg a = Some p /\ page_at (ram m') p = zero_page /\
    PTE_FLAGS (pte_of t' (ram m') (pg a)) = 7).
  { intros a Ha. destruct (al_new _ _ _ _ _ _ _ _ _ _ _ _ Hal (pg a) Ha (pg_mod a)) as (p&Hp&E1&E2). by exists p. }
  split; try apply Hal.
  - intros v. rewrite (S2 v). apply (alloced_conserved _ _ _ _ _ _ _ _ _ _ _ Hal). intros k Hk. eapply space_above; [exact Hs|lia].
  - intros w Hw. rewrite (al_ram _ _ _ _ _ _ _ _ _ _ _ _ Hal); [by apply S3|..]; intros Hin; apply Hw, S2; [by left|by right; left].
  - intros va Hva Hk. rewrite (al_pte _ _ _ _ _ _ _ _ _ _ _ _ Hal); [by apply S4|done| |by left].
    pose proof (pg_user va). lia.
  - rewrite El. split; [done|lia].
  - intros a Ha. unfold grow. destruct (Hpg a Ha) as [Hlt|[Hin|Hge]].
    + rewrite (alloced_bytes _ _ _ _ _ _ _ _ _ _ _ _ _ S1 Hal) by (apply Hold; lia). rewrite lookup_app_l by lia. by apply S6.
    + destruct (Hnew a Hin) as (p&Hp&E1&_). unfold user_byte. rewrite Hp. cbn. rewrite E1. pose proof (pg_range a).
      pose proof (Z.mod_pos_bound a PGSIZE ltac:(done)). rewrite lookup_app_r by lia. unfold zero_page.
      assert (a < z). { pose proof (pg_mod a) as [x Hx]%Z.mod_divide; [|done]. apply Z.mod_divide in Hz as [y Hy]; [|done]. mlia. }
      rewrite !lookup_replicate_2 by lia. done.
    + rewrite (alloced_bytes _ _ _ _ _ _ _ _ _ _ _ _ _ S1 Hal) by lia. pose proof (pg_range a). rewrite (S6 a Ha), !lookup_ge_None_2; [done|..].
      * rewrite length_app, length_replicate. lia.
      * lia.
  - rewrite El. intros a Ha. assert (is_u32 a) as Hau by mlia. assert (is_u32 (pg a)) as Hpu by (pose proof (pg_range a); pose proof (pg_pos a); mlia).
    destruct (Hpg a ltac:(lia)) as [Hlt|[Hin|Hge]]; [| |pose proof (pg_range a); lia].
    + rewrite (al_pte _ _ _ _ _ _ _ _ _ _ _ _ Hal); [apply S7; lia|done|apply Hold; lia|]. right. by apply (space_mapped _ _ _ _ _ _ a Hs); [lia|lia].
    + rewrite bool_decide_false by lia. destruct (Hnew a Hin) as (p&Hp&_&Hf). rewrite <- (pte_of_page t' (ram m') (pg a) a); [|done|done|apply pg_id, pg_mod].
      rewrite has_flags by mlia. rewrite <- PTE_FLAGS_eq, Hf. done.
Qed.

(** Fewer pages than two page directories with all their tables, and [n]
    bytes. *)
Definition scarce (n : Z) : Prop := PGSIZE * (Z.of_nat (length all) - 2050) <= n.

Lemma space_scarce t up free m g im n :
  space t up free m g im -> short free n -> scarce (Z.of_nat (length im) + n).
Proof.
  intros Hs Hsh. pose proof Hs as [S1 S2 _ _ [S5 _] _ _]. destruct (proj1 (Z.mod_divide _ PGSIZE ltac:(done)) S5) as [y Hy].
  assert (Hsub : all ⊆+ free ++ table_list t ++ user_list up 0 (Z.to_nat y)).
  { apply NoDup_submseteq; [done|]. intros v [Hv|[Hv|[k Hk]]]%S2; rewrite !elem_of_app; [by left|right; left|right; right].
    - eapply elem_of_table_list; [apply S1|done].
    - destruct (uv_dom _ _ _ _ S1 _ _ Hk) as (Hm&Hr&_). apply (elem_of_user_list _ _ _ k); [done|done| |done].
      assert (~ Z.of_nat (length im) <= k); [|mlia]. intros Hge. pose proof (space_above _ _ _ _ _ _ k Hs Hge). congruence. }
  apply submseteq_length in Hsub. rewrite !length_app in Hsub. unfold table_list, user_list in Hsub. cbn [length] in Hsub.
  pose proof (length_omap (fun i => tabs t !! Z.of_nat i) (seq 0 NPDENTRIES)) as H1. rewrite length_seq in H1.
  pose proof (length_omap (fun i => up !! (0 + PGSIZE * Z.of_nat i)) (seq 0 (Z.to_nat y))) as H2. rewrite length_seq in H2.
  unfold NPDENTRIES in *. unfold scarce, short in *. mlia.
Qed.

Lemma grow_same im : grow im (Z.of_nat (length im)) = im.
Proof. unfold grow. rewrite Nat2Z.id, Nat.sub_diag. apply app_nil_r. Qed.

Lemma roundup_mono a b : 0 <= a <= b -> b <= KERNBASE -> PGROUNDUP a <= PGROUNDUP b.
Proof.
  intros Ha Hb. destruct (roundup_range a) as [H1 H2]; [lia|lia|]. destruct (roundup_range b) as [H3 H4]; [lia|lia|].
  apply Z.mod_divide in H1 as [x Hx]; [|done]. apply Z.mod_divide in H3 as [y Hy]; [|done]. mlia.
Qed.

Lemma roundup_below b : 0 <= b < KERNBASE -> PGROUNDUP b <= KERNBASE.
Proof.
  intros Hb. destruct (roundup_range b) as [H1 H2]; [lia|lia|]. apply Z.mod_divide in H1 as [x Hx]; [|done]. mlia.
Qed.

Lemma wp_space_alloc t up free m im sz newsz (Q : Z -> mem -> Prop) :
  space t up free m KERNBASE im -> 0 <= sz < KERNBASE -> PGROUNDUP sz = Z.of_nat (length im) -> 0 <= newsz ->
  (newsz < KERNBASE -> forall t' up' free' m', root t' = root t ->
     space t' up' free' m' KERNBASE (grow im (PGROUNDUP (Z.max sz newsz))) -> Q (Z.max sz newsz) m') ->
  (forall t' free' m', root t' = root t -> space t' up free' m' KERNBASE im ->
     KERNBASE <= newsz \/ scarce (PGROUNDUP newsz) -> Q 0 m') ->
  wp (allocuvm (root t) sz newsz) Q m.
Proof.
  intros Hs Hsz Eim Hn Hok Hbad. destruct (decide (KERNBASE <= newsz)) as [Hk|Hk].
  { unfold allocuvm. rewrite (proj2 (Z.leb_le _ _)) by done. apply wp_ret. eapply Hbad; [done|done|by left]. }
  destruct (decide (newsz < sz)) as [Hlt|Hge].
  { unfold allocuvm. rewrite (proj2 (Z.leb_gt _ _)), (proj2 (Z.ltb_lt _ _)) by lia. apply wp_ret. rewrite Z.max_l in Hok by lia.
    eapply Hok; [lia|done|]. rewrite Eim, grow_same. done. }
  rewrite Z.max_r in Hok by lia. destruct (roundup_range newsz) as [Hzm Hzr]; [lia|lia|].
  pose proof (roundup_mono sz newsz ltac:(lia) ltac:(lia)). pose proof (roundup_below newsz ltac:(lia)).
  eapply wp_allocuvm; [apply Hs|lia|lia| | |].
  - intros k Hkk. eapply space_above; [exact Hs|lia].
  - intros t' up' free' m' Hal. rewrite Eim in Hal. apply (Hok ltac:(lia) t' up' free' m'); [apply Hal|].
    eapply space_alloced; [exact Hs|exact Hal|done|lia|lia].
  - intros t' free' m' Hal Hsh. rewrite Eim in Hal, Hsh. apply (Hbad t' free' m'); [apply Hal| |right].
    + rewrite <- (grow_same im). eapply space_alloced; [exact Hs|exact Hal|apply Hs|lia|lia].
    + pose proof (space_scarce _ _ _ _ _ _ _ Hs Hsh) as Hsc. unfold scarce in *. lia.
Qed.

(** The entry of an accessible page. *)
Lemma space_entry t up free m g im va :
  space t up free m g im -> 0 <= va < Z.of_nat (length im) -> exists p q, up !! pg va = Some p /\ frame p /\
    tabs t !! PDX va = Some q /\ frame q /\ has (pte_of t (ram m) va) PTE_P = true /\ PTE_ADDR (pte_of t (ram m) va) = V2P p.
Proof.
  intros Hs Hva. destruct (proj2 (space_mapped _ _ _ _ _ _ va Hs ltac:(lia)) ltac:(lia)) as [p Hp]. pose proof Hs as [S1 _ _ _ [_ S5] _ _].
  destruct (uv_dom _ _ _ _ S1 _ _ Hp) as (_&_&Hf&_). destruct (user_tab _ _ _ _ _ _ S1 Hp) as (q&Hq&Hqf&_&HP&Ha).
  assert (is_u32 va) as Hvu by mlia. assert (is_u32 (pg va)) as Hpu by (pose proof (pg_range va); pose proof (pg_pos va); mlia).
  assert (Hpp : pg (pg va) = pg va) by (apply pg_id, pg_mod). destruct (pg_indices (pg va) va Hpu Hvu Hpp) as [Ei _].
  rewrite Ei in Hq. rewrite (pte_of_page t (ram m) (pg va) va) in HP, Ha by done. by exists p, q.
Qed.

(** clearpteu() *)
Lemma wp_space_clear t up free m im g (Q : unit -> mem -> Prop) :
  space t up free m KERNBASE im -> g mod PGSIZE = 0 -> 0 <= g < Z.of_nat (length im) ->
  (forall m', space t up free m' g im -> Q tt m') -> wp (clearpteu (root t) g) Q m.
Proof.
  intros Hs Hg Hr HQ. pose proof Hs as [S1 S2 S3 S4 [S5 S5'] S6 S7].
  destruct (space_entry _ _ _ _ _ _ _ Hs Hr) as (p&q&Hp&Hpf&Hq&Hqf&HP&Ha). assert (is_u32 g) as Hgu by mlia.
  unfold clearpteu. apply wp_bind, wp_walk; [apply S1|apply S1|done|]. rewrite Hq. pose proof (PTX_range g).
  apply wp_bind, wp_panic_if; [apply Z.eqb_neq; pose proof (frame_pos q Hqf); mlia|].
  apply wp_bind, wp_load_entry; [apply S1|done|done|]. apply wp_store_entry; [apply S1|done|done|].
  set (e := entry (page_at (ram m) q) (PTX g)). assert (Ee : pte_of t (ram m) g = e) by (unfold pte_of; by rewrite Hq).
  rewrite Ee in HP, Ha. set (x := Z.land e (u32 (Z.lnot PTE_U))).
  assert (Hxa : PTE_ADDR x = PTE_ADDR e) by (unfold x, PTE_ADDR; by rewrite <- Z.land_assoc).
  assert (Hxp : has x PTE_P = has e PTE_P) by (unfold x, has; by rewrite <- Z.land_assoc).
  assert (Hxu : has x PTE_U = false) by (unfold x, has; rewrite <- Z.land_assoc; change (Z.land (u32 (Z.lnot PTE_U)) PTE_U) with 0; by rewrite Z.land_0_r).
  assert (Hx32 : is_u32 x).
  { assert (Z.land x (Z.ones 32) = x) as Ex by (unfold x; by rewrite <- Z.land_assoc). rewrite Z.land_ones in Ex by lia.
    rewrite <- Ex. by apply Z.mod_pos_bound. }
  destruct (set_pte_ok t free g q x m (uv_vm _ _ _ _ S1) Hgu Hq Hx32) as [[G1 _ _ G4 _] Hpte]. set (m' := set_ram _ m) in *. clearbody m'.
  assert (Hne : forall w, w ∉ pages_of t -> ram m' !! w = ram m !! w) by done. rewrite (pg_id g) in Hpte by done. apply HQ. split; try done.
  - destruct S1 as [U1 U2 U3 U4]. split; try done. intros va Hva Hlt. cbv zeta. rewrite (Hpte va Hva). specialize (U2 va Hva Hlt). cbv zeta in U2.
    case_decide as Hd; [|done]. rewrite Hd. rewrite pg_id in Hp by done. rewrite Hp. by rewrite Hxp, Hxa.
  - intros w Hw. rewrite Hne; [by apply S3|]. intros Hin. apply Hw, S2. right. by left.
  - intros va Hva Hk. rewrite (Hpte va Hva), decide_False; [by apply S4|]. pose proof (pg_user va). lia.
  - intros a Ha'. rewrite <- (S6 a Ha'). unfold user_byte. destruct (up !! pg a) as [w|] eqn:Hw; [|done]. cbn. unfold page_at.
    rewrite Hne; [done|]. by apply (uv_dom _ _ _ _ S1) in Hw as (_&_&_&?&_).
  - intros a Ha'. rewrite (Hpte a) by mlia. specialize (S7 a Ha'). rewrite bool_decide_false in S7 by lia.
    pose proof (pg_eq g a Hg) as Hpg. case_decide as Hd; [rewrite bool_decide_true by (by apply Hpg); done|].
    rewrite bool_decide_false by (by rewrite <- Hpg). done.
Qed.

(** A part of one page, as loaduvm() reads it. *)
Lemma wp_space_page t up free m g im va buf (Q : unit -> mem -> Prop) :
  space t up free m g im -> va mod PGSIZE = 0 -> 0 <= va -> va + Z.of_nat (length buf) <= Z.of_nat (length im) ->
  0 <= va < Z.of_nat (length im) -> Z.of_nat (length buf) <= PGSIZE -> bytes_ok buf ->
  (forall m', space t up free m' g (splice (Z.to_nat va) buf im) -> Q tt m') ->
  wp (store_bytes (P2V (PTE_ADDR (pte_of t (ram m) va))) buf) Q m.
Proof.
  intros Hs Hm Hva Hfit Hin Hlen Hb HQ. destruct (space_entry _ _ _ _ _ _ _ Hs Hin) as (p&q&Hp&Hpf&_&_&_&Ha). pose proof (sp_uvm _ _ _ _ _ _ Hs) as Hu.
  rewrite Ha, frame_P2V by done. unfold store_bytes. destruct (frame_byte p 0 Hpf ltac:(done)) as [E1 E2]. rewrite Z.add_0_r in E1, E2.
  rewrite E1, E2. apply wp_bind. eapply wp_get_page; [apply ram_page; [apply Hu|done]|]. eapply wp_put_page; [apply ram_page; [apply Hu|done]|].
  apply HQ. eapply space_copied; [exact Hs| |done|done]. pose proof (copied_page t up free m va p buf Hu Hva Hp Hb) as Hc. rewrite Hm in Hc.
  apply Hc. lia.
Qed.

(** freevm() of the new image gives everything back. *)
Lemma wp_space_free t up free m g im (Q : unit -> mem -> Prop) :
  space t up free m g im ->
  (forall free' m', kmem_at free' m' -> (forall v, v ∈ free' <-> v ∈ all) -> (forall w, w ∉ all -> ram m' !! w = ram s0 !! w) -> Q tt m') ->
  wp (freevm (root t)) Q m.
Proof.
  intros [S1 S2 S3 _ _ _ _] HQ. eapply wp_freevm; [exact S1|]. intros free' m' [K1 K2 K3]. apply (HQ free'); [done| |].
  - intros v. rewrite K2, S2. done.
  - intros w Hw. rewrite K3; [by apply S3|]. intros Hv. apply Hw, S2. by right.
Qed.

(** ** The stack *)

Lemma kmap_dev va : is_u32 va -> DEVSPACE <= va -> has (kmap_pte kmap va) PTE_P = true /\ has (kmap_pte kmap va) PTE_U = false.
Proof.
  intros Hva Hd. unfold kmap_pte, kmap. cbn [foldl kmap_entry]. change (u32 (0 - DEVSPACE)) with 0x2000000. destruct kdata_facts as (d&Hd'&H1&H2).
  pose proof (V2P_kdata d Hd' H1 H2) as Hv. rewrite (decide_True (P := DEVSPACE <= va < _)) by mlia.
  assert (E : forall a, a mod PGSIZE = 0 -> 0 <= a -> a < W32 -> has (Z.lor a (Z.lor PTE_W PTE_P)) PTE_P = true /\ has (Z.lor a (Z.lor PTE_W PTE_P)) PTE_U = false).
  { intros a Ha H0 Hw. destruct (entry_decode a 3) as (_&_&Hf); [done|done|done|mlia|]. rewrite PTE_FLAGS_eq in Hf.
    change (Z.lor PTE_W PTE_P) with 3. rewrite !(has_flags (Z.lor a 3)) by mlia. by rewrite Hf. }
  apply E; [|pose proof (pg_range va); pose proof (pg_mod va) as [x Hx]%Z.mod_divide; [mlia|done]..].
  pose proof (pg_mod va) as [x Hx]%Z.mod_divide; [|done]. rewrite Hx. replace (DEVSPACE + (x * PGSIZE - DEVSPACE)) with (x * PGSIZE) by lia.
  by rewrite Z.mod_mul.
Qed.

Lemma space_dev t up free m g im va :
  space t up free m g im -> is_u32 va -> DEVSPACE <= va -> exists q, tabs t !! PDX va = Some q /\ user_entry (pte_of t (ram m) va) = false.
Proof.
  intros Hs Hva Hd. destruct (kmap_dev va Hva Hd) as [E1 E2]. pose proof (sp_kern _ _ _ _ _ _ Hs va Hva ltac:(mlia)) as Ek.
  rewrite <- Ek in E1, E2. unfold user_entry. rewrite E1, E2. unfold pte_of in E1. destruct (tabs t !! PDX va) as [q|]; [by exists q|done].
Qed.

Lemma space_copied_nil t up free m g im va m' : space t up free m g im -> copied t up free m va [] m' -> space t up free m' g im.
Proof.
  intros [S1 S2 S3 S4 S5 S6 S7] [C1 C2 C3 C4]. split; try done.
  - intros w Hw. rewrite C4; [by apply S3|]. intros k Hk. apply Hw, S2. right. right. by exists k.
  - intros v Hv Hk. rewrite C3. by apply S4.
  - intros a Ha. rewrite (C2 a Ha), decide_False by (cbn; lia). by apply S6.
  - intros a Ha. rewrite C3. by apply S7.
Qed.

Lemma space_guard t up free m g im va :
  space t up free m g im -> 0 <= va < Z.of_nat (length im) -> g <= va < g + PGSIZE ->
  exists q, tabs t !! PDX va = Some q /\ user_entry (pte_of t (ram m) va) = false.
Proof.
  intros Hs Hva Hg. destruct (space_entry _ _ _ _ _ _ _ Hs Hva) as (_&q&_&_&Hq&_). exists q. split; [done|]. unfold user_entry.
  by rewrite (sp_user _ _ _ _ _ _ Hs), bool_decide_true, andb_false_r.
Qed.

(** copyout() to the stack, which is the page above the guard page, or below
    it: the bytes are there, or it fails. *)
Lemma wp_space_push t up free m g im va buf (Q : Z -> mem -> Prop) :
  space t up free m g im -> g mod PGSIZE = 0 -> 0 <= g -> Z.of_nat (length im) = g + 2 * PGSIZE -> (0 < length buf)%nat -> bytes_ok buf ->
  is_u32 va -> (va < g + PGSIZE -> g + PGSIZE - 4 <= va + Z.of_nat (length buf)) -> (va < g + PGSIZE \/ DEVSPACE <= va \/ va + Z.of_nat (length buf) <= Z.of_nat (length im)) ->
  (g + PGSIZE <= va -> va + Z.of_nat (length buf) <= Z.of_nat (length im) -> forall m', space t up free m' g (splice (Z.to_nat va) buf im) -> Q 0 m') ->
  (forall im' m', va < g + PGSIZE \/ DEVSPACE <= va -> length im' = length im -> space t up free m' g im' -> Q (-1) m') ->
  wp (copyout (root t) va buf (Z.of_nat (length buf))) Q m.
Proof.
  intros Hs Hgm Hg Hlen Hpos Hb Hva Hnear Hwhere Hok Hbad. pose proof (proj2 (sp_len _ _ _ _ _ _ Hs)) as Hk. unfold copyout. rewrite Nat2Z.id.
  pose proof (sp_uvm _ _ _ _ _ _ Hs) as Hu. destruct (decide (va < g + PGSIZE)) as [Hlow|Hhigh].
  - specialize (Hnear Hlow). set (e := Z.max va g). assert (He : 0 <= e < Z.of_nat (length im) /\ g <= e < g + PGSIZE) by mlia.
    destruct (space_guard _ _ _ _ _ _ e Hs) as (q&Hq&Hn); [lia|lia|]. eapply (wp_copyout_stop _ t up free m va buf e q);
      [done|unfold is_u32 in *; lia| |mlia| |done|done| |done|done|].
    + destruct (Z.max_spec va g); mlia.
    + destruct (Z.max_spec va g) as [[_ Em]|[_ Em]]; [right|left]; unfold e; rewrite Em; done.
    + intros a Ha. eapply user_space_ok; [exact Hs|mlia|lia].
    + intros m' Hc. apply (Hbad (splice (Z.to_nat va) (take (Z.to_nat (e - va)) buf) im) m'); [by left| |].
      * apply length_splice. rewrite length_take. mlia.
      * eapply space_copied; [exact Hs|exact Hc|mlia|]. rewrite length_take. mlia.
  - destruct (decide (DEVSPACE <= va)) as [Hdev|Hdev].
    + destruct (space_dev _ _ _ _ _ _ _ Hs Hva Hdev) as (q&Hq&Hn). eapply (wp_copyout_stop _ t up free m va buf va q);
        [done|mlia|lia|done|by left|done|done|lia|done|done|]. rewrite Z.sub_diag. intros m' Hc.
      apply (Hbad im m'); [by right|done|]. by eapply space_copied_nil.
    + destruct Hwhere as [?|[?|Hw]]; [lia..|]. eapply (wp_copyout_loop _ t up free m va buf); [done|mlia|lia|done|done| |].
      * intros a Ha. eapply user_space_ok; [exact Hs|mlia|mlia].
      * intros m' Hc. apply Hok; [lia|lia|]. eapply space_copied; [exact Hs|exact Hc|mlia|lia].
Qed.

(** The push loop against the reference. *)
Context {S : Type}.
Implicit Types (s : kstate (fsys S)).

Definition arg_ok (a : list Z) : Prop := bytes_ok a /\ Z.of_nat (length a) < 0x2000000.

Lemma align4 x : x - 3 <= x - x mod 4 <= x.
Proof. pose proof (Z.mod_pos_bound x 4 ltac:(lia)). lia. Qed.

Lemma land_align x : is_u32 x -> Z.land x (u32 (Z.lnot 3)) = x - x mod 4.
Proof.
  intros Hx. change (u32 (Z.lnot 3)) with (Z.ldiff (Z.ones 32) (Z.ones 2)). rewrite <- (Z.mod_small x (2 ^ 32)) at 1 by done.
  rewrite <- Z.land_ones by lia. rewrite <- Z.land_assoc. change (Z.land (Z.ones 32) (Z.ldiff (Z.ones 32) (Z.ones 2))) with (Z.ldiff (Z.ones 32) (Z.ones 2)).
  assert (Z.land x (Z.ldiff (Z.ones 32) (Z.ones 2)) = Z.ldiff x (Z.ones 2)) as ->.
  - rewrite <- (Z.mod_small x (2 ^ 32)) at 2 by done. rewrite <- Z.land_ones by lia. apply Z.bits_inj'. intros n Hn.
    rewrite Z.land_spec, !Z.ldiff_spec, Z.land_spec. by destruct (Z.testbit x n), (Z.testbit (Z.ones 32) n), (Z.testbit (Z.ones 2) n).
  - rewrite Z.ldiff_ones_r, Z.shiftl_mul_pow2, Z.shiftr_div_pow2 by lia. change (2 ^ 2) with 4. pose proof (Z.div_mod x 4 ltac:(lia)). lia.
Qed.

Lemma wp_push_args t up free g argv : forall s im sp ptrs (Q : option (Z * list Z) -> kstate (fsys S) -> Prop),
  space t up free (mm s) g im -> g mod PGSIZE = 0 -> 0 <= g -> Z.of_nat (length im) = g + 2 * PGSIZE ->
  g + PGSIZE <= sp <= g + 2 * PGSIZE -> Forall arg_ok argv ->
  (forall m' im' sp' ptrs', push_ref (g + PGSIZE) sp argv ptrs im = Some (sp', ptrs', im') -> space t up free m' g im' ->
     length im' = length im -> g + PGSIZE <= sp' <= g + 2 * PGSIZE -> (length ptrs <= MAXARG)%nat -> (length ptrs' <= MAXARG)%nat -> Q (Some (sp', ptrs')) (set_mm m' s)) ->
  (forall m' im', push_ref (g + PGSIZE) sp argv ptrs im = None -> space t up free m' g im' -> length im' = length im -> Q None (set_mm m' s)) ->
  (length ptrs <= MAXARG)%nat ->
  wp (push_args (root t) sp argv ptrs) Q s.
Proof.
  induction argv as [|a argv IH]; intros s im sp ptrs Q Hs Hgm Hg Hlen Hsp Hargs Hok Hbad Hp; cbn [push_args push_ref] in *.
  { apply wp_ret. replace s with (set_mm (mm s) s) by (by destruct s). by eapply Hok. }
  apply Forall_cons in Hargs as [[Hab Hal] Hargs']. destruct (Nat.leb_spec MAXARG (length ptrs)) as [Hm|Hm].
  { apply wp_ret. replace s with (set_mm (mm s) s) by (by destruct s). by eapply Hbad. }
  cbn [orb] in *. pose proof (proj2 (sp_len _ _ _ _ _ _ Hs)) as Hk.
  set (x := sp - (Z.of_nat (length a) + 1)) in *. pose proof (align4 x) as Hx. set (sp1 := x - x mod 4) in *.
  assert (Hbuf : Z.of_nat (length a) + 1 = Z.of_nat (length (a ++ [0]))) by (rewrite length_app; cbn; lia). rewrite Hbuf.
  assert (Hbok : bytes_ok (a ++ [0])) by (apply Forall_app_2; [done|by repeat constructor]).
  assert (Hva : exists y, Z.land (u32 x) (u32 (Z.lnot 3)) = y /\ is_u32 y /\ (0 <= sp1 /\ y = sp1 \/ sp1 < 0 /\ DEVSPACE <= y)).
  { rewrite land_align by apply u32_range. destruct (decide (0 <= x)).
    - rewrite u32_small by mlia. exists sp1. split; [done|]. assert (0 <= sp1); [|mlia]. unfold sp1. pose proof (Z.mul_div_le x 4 ltac:(lia)).
      pose proof (Z.div_mod x 4 ltac:(lia)). pose proof (Z.div_pos x 4). lia.
    - assert (Ex : u32 x = x + 4 * 1073741824). { unfold u32. change W32 with (4 * 1073741824). rewrite <- (Z.mod_small (x + 4 * 1073741824) (4 * 1073741824)) by mlia.
        rewrite Z.add_mod, Z.mod_same, Z.add_0_r, Z.mod_mod by lia. done. }
      rewrite Ex. rewrite Z.mul_comm, Z.mod_add by lia. exists (x + 1073741824 * 4 - x mod 4). split; [done|].
      assert (0 <= x mod 4 <= 3) by (pose proof (Z.mod_pos_bound x 4); lia). split; [mlia|]. right. split; [lia|].
      change DEVSPACE with (4 * 1065353216). pose proof (Z.div_mod x 4 ltac:(lia)). mlia. }
  destruct Hva as (y & -> & Hyu & Hy). apply wp_bind, wp_zoom. eapply (wp_space_push t up free (mm s) g im y (a ++ [0])); [done|done|done|done|rewrite length_app; cbn; lia|done|done| | | |].
  - intros. mlia.
  - mlia.
  - intros Hge Hfit m' Hs'. change (0 <? 0) with false. cbv iota.
    assert (y = sp1) as -> by mlia. revert Hok Hbad. rewrite (proj2 (Z.ltb_ge sp1 _)) by lia. intros Hok Hbad.
    assert (El : length (splice (Z.to_nat sp1) (a ++ [0]) im) = length im) by (apply length_splice; lia).
    eapply (IH (set_mm m' s) (splice (Z.to_nat sp1) (a ++ [0]) im) sp1 (ptrs ++ [sp1])); [done|done|done|by rewrite El|lia|done| | |rewrite length_app; cbn; lia].
    + intros m2 im2 sp2 p2 E Hs2 El2 Hr2 _ Hl2. eapply (Hok m2 im2 sp2 p2); [done|done|congruence|lia|lia|done].
    + intros m2 im2 E Hs2 El2. eapply (Hbad m2 im2); [done|done|congruence].
  - intros im' m' Hwhy El Hs'. change (-1 <? 0) with true. cbv iota. apply wp_ret. revert Hbad.
    rewrite (proj2 (Z.ltb_lt sp1 _)) by mlia. intros Hbad. by eapply (Hbad m' im').
Qed.

Lemma ustack_bytes argc sp ptrs : length (ustack argc sp ptrs) = (4 * (4 + length ptrs))%nat /\ bytes_ok (ustack argc sp ptrs).
Proof.
  unfold ustack. split; [rewrite length_words, !length_app; cbn; lia|]. apply Forall_concat, Forall_fmap, Forall_true. intros x. apply le_of_bytes_ok.
Qed.

Lemma wp_push_stack t up free g argv s im (Q : option Z -> kstate (fsys S) -> Prop) :
  space t up free (mm s) g im -> g mod PGSIZE = 0 -> 0 <= g -> Z.of_nat (length im) = g + 2 * PGSIZE -> Forall arg_ok argv ->
  (forall m' im' sp, stack_ref (g + 2 * PGSIZE) argv im = Some (sp, im') -> space t up free m' g im' -> length im' = length im ->
     g + PGSIZE <= sp < g + 2 * PGSIZE -> Q (Some sp) (set_mm m' s)) ->
  (forall m' im', stack_ref (g + 2 * PGSIZE) argv im = None -> space t up free m' g im' -> length im' = length im -> Q None (set_mm m' s)) ->
  wp (push_stack (root t) (g + 2 * PGSIZE) argv) Q s.
Proof.
  intros Hs Hgm Hg Hlen Hargs Hok Hbad. unfold push_stack, stack_ref in *. replace (g + 2 * PGSIZE - PGSIZE) with (g + PGSIZE) in * by lia.
  pose proof (proj2 (sp_len _ _ _ _ _ _ Hs)) as Hk. apply wp_bind.
  eapply (wp_push_args t up free g argv s im (g + 2 * PGSIZE) []); [done|done|done|done|mlia|done| | |cbn; lia].
  2: { intros m' im' E Hs' El. rewrite E in Hbad. apply wp_ret. by eapply Hbad. }
  intros m1 im1 sp1 ptrs E Hs1 El Hr _ Hp. rewrite E in Hok, Hbad. set (argc := Z.of_nat (length ptrs)) in *.
  destruct (ustack_bytes argc sp1 ptrs) as [Hul Hub]. assert (Hargc : 0 <= argc <= 32) by (unfold MAXARG in Hp; lia).
  set (sp' := sp1 - (3 + argc + 1) * 4) in *. rewrite (u32_small sp') by mlia. apply wp_bind, wp_zoom.
  replace ((3 + argc + 1) * 4) with (Z.of_nat (length (ustack argc sp1 ptrs))) by lia.
  eapply (wp_space_push t up free m1 g im1 sp'); [done|done|done|lia|lia|done|mlia|lia| | |].
  - destruct (decide (sp' < g + PGSIZE)); [by left|]. right. right. lia.
  - intros Hge Hfit m' Hs'. change (0 <? 0) with false. cbv iota. apply wp_ret. rewrite (proj2 (Z.ltb_ge sp' _)) in Hok by lia.
    cbn [mm set_mm]. eapply (Hok m'); [done|done|rewrite length_splice by lia; done|lia].
  - intros im' m' Hwhy El' Hs'. change (-1 <? 0) with true. cbv iota. apply wp_ret. rewrite (proj2 (Z.ltb_lt sp' _)) in Hbad by mlia.
    eapply (Hbad m' im'); [done|done|congruence].
Qed.

End image.
End mem.
