(* ===== verification/ExecSpec.v ===== *)
(** exec.c: what exec() makes of a process.

    [program] says what the memory of the process is to be, from the bytes of
    the file and the arguments, as a list of bytes; exec() gives the process
    exactly that memory, or fails and leaves it and every count as they were. *)

From S2P Require Import Prelude Params Bytes CString Buf Log Tx Ops Fs FsBlocks FsFile FsDir FsPath Kalloc Vm VmSpec VmFork VmThms Spinlock Proc ProcSpec ProcRefine ProcFork ProcMem File FileSpec Syscall Sysfile SysfileSpec Exec ExecMem.

(** ** The reference *)

(** [n] bytes of the file at [off], when it has them. *)
Definition pread (f : list Z) (off n : Z) : option (list Z) :=
  if off + n <=? Z.of_nat (length f) then Some (slice (Z.to_nat off) (Z.to_nat n) f) else None.

(** A segment that fits below the kernel, starts at a page and is in the file. *)
Definition seg_ok (f : list Z) (sz : Z) (ph : proghdr) : bool :=
  (ph_filesz ph <=? ph_memsz ph) && (ph_vaddr ph + ph_memsz ph <? KERNBASE) && (0 <? Z.max sz (ph_vaddr ph + ph_memsz ph)) &&
  (ph_vaddr ph mod PGSIZE =? 0) && ((ph_filesz ph =? 0) || (ph_off ph + ph_filesz ph <=? Z.of_nat (length f))).

Lemma seg_ok_spec f sz ph :
  seg_ok f sz ph = true <-> ph_filesz ph <= ph_memsz ph /\ ph_vaddr ph + ph_memsz ph < KERNBASE /\ 0 < Z.max sz (ph_vaddr ph + ph_memsz ph) /\
    ph_vaddr ph mod PGSIZE = 0 /\ (ph_filesz ph = 0 \/ ph_off ph + ph_filesz ph <= Z.of_nat (length f)).
Proof. unfold seg_ok. rewrite !andb_true_iff, orb_true_iff, !Z.eqb_eq, !Z.leb_le, !Z.ltb_lt. tauto. Qed.

Fixpoint load_ref (f : list Z) (n : nat) (off sz : Z) (im : list Z) : option (Z * list Z) :=
  match n with
  | O => Some (sz, im)
  | Datatypes.S n =>
      match pread f (u32 off) sizeof_proghdr with
      | None => None
      | Some d =>
          let ph := get_proghdr d in
          if negb (ph_type ph =? ELF_PROG_LOAD) then load_ref f n (off + sizeof_proghdr) sz im
          else if seg_ok f sz ph then
            let sz := Z.max sz (ph_vaddr ph + ph_memsz ph) in
            load_ref f n (off + sizeof_proghdr) sz
              (splice (Z.to_nat (ph_vaddr ph)) (slice (Z.to_nat (ph_off ph)) (Z.to_nat (ph_filesz ph)) f) (grow im (PGROUNDUP sz)))
          else None
      end
  end.

Lemma load_ref_mono f n : forall off sz im sz' im',
  load_ref f n off sz im = Some (sz', im') -> 0 <= sz < KERNBASE -> sz <= sz' < KERNBASE.
Proof.
  induction n as [|n IH]; intros off sz im sz' im' E Hsz; cbn [load_ref] in E; [injection E as <- _; lia|].
  destruct (pread f (u32 off) sizeof_proghdr) as [d|]; [|done]. destruct (negb (ph_type (get_proghdr d) =? ELF_PROG_LOAD)); [by eapply IH|].
  destruct (seg_ok f sz (get_proghdr d)) eqn:Eok; [|done]. apply seg_ok_spec in Eok as (_ & ? & ? & _). apply IH in E; lia.
Qed.

(** The segments: the entry point, the size in whole pages and the bytes. *)
Definition segments (f : list Z) : option (Z * Z * list Z) :=
  match pread f 0 sizeof_elfhdr with
  | None => None
  | Some d =>
      let elf := get_elfhdr d in
      if negb (e_magic elf =? ELF_MAGIC) then None
      else match load_ref f (Z.to_nat (e_phnum elf)) (e_phoff elf) 0 [] with
           | None => None
           | Some (sz, im) => Some (e_entry elf, PGROUNDUP sz, im)
           end
  end.

Record loaded := mkloaded {
  ld_entry : Z;
  ld_size : Z;
  ld_sp : Z;
  ld_image : list Z;
}.

(** The whole image: above the segments a page that is not accessible, and the stack. *)
Definition program (f : list Z) (argv : list (list Z)) : option loaded :=
  match segments f with
  | None => None
  | Some (entry, top, im) =>
      let sz := top + 2 * PGSIZE in
      if KERNBASE <=? sz then None
      else match stack_ref sz argv (grow im sz) with
           | None => None
           | Some (sp, im) => Some (mkloaded entry sz sp im)
           end
  end.

Lemma splice_twice off a b bs :
  (off + length a + length b <= length bs)%nat -> splice (off + length a) b (splice off a bs) = splice off (a ++ b) bs.
Proof.
  intros Hl. apply list_eq. intros i. assert (E : length (splice off a bs) = length bs) by (apply length_splice; lia).
  destruct (decide (off <= i < off + length a)%nat); [|destruct (decide (off + length a <= i < off + length a + length b)%nat)].
  - rewrite lookup_splice_out by lia. rewrite !lookup_splice_in by (rewrite ?length_app; lia). by rewrite lookup_app_l by lia.
  - rewrite !lookup_splice_in by (rewrite ?length_app; lia). rewrite lookup_app_r by lia. f_equal. lia.
  - rewrite !lookup_splice_out by (rewrite ?length_app; lia). done.
Qed.

(** What main is called with: a return address, argc and argv, an array of
    pointers to the strings that ends with 0. *)
Record main_args (im : list Z) (sp : Z) (argv : list (list Z)) : Prop := {
  ma_ret : get_u32 (Z.to_nat sp) im = 0xffffffff;
  ma_argc : get_u32 (Z.to_nat (sp + 4)) im = Z.of_nat (length argv);
  ma_argv : get_u32 (Z.to_nat (sp + 8)) im = sp + 12;
  ma_arg : forall i a, argv !! i = Some a -> exists q, get_u32 (Z.to_nat (sp + 12 + 4 * Z.of_nat i)) im = q /\
    0 <= q /\ slice (Z.to_nat q) (length a + 1) im = a ++ [0];
  ma_end : get_u32 (Z.to_nat (sp + 12 + 4 * Z.of_nat (length argv))) im = 0;
}.

Lemma push_ref_reads base argv : forall sp ptrs im sp' ptrs' im',
  push_ref base sp argv ptrs im = Some (sp', ptrs', im') -> 0 <= base <= sp -> sp <= Z.of_nat (length im) ->
  base <= sp' <= sp /\ length im' = length im /\ (forall i, (Z.to_nat sp <= i)%nat -> im' !! i = im !! i) /\
  exists new, ptrs' = ptrs ++ new /\ Forall2 (fun q a => sp' <= q < sp /\ slice (Z.to_nat q) (length a + 1) im' = a ++ [0]) new argv.
Proof.
  induction argv as [|a argv IH]; intros sp ptrs im sp' ptrs' im' E Hb Hl; cbn [push_ref] in E.
  { injection E as <- <- <-. split_and!; [lia|lia|done|done|]. exists []. by rewrite app_nil_r. }
  set (y := sp - (Z.of_nat (length a) + 1)) in *. pose proof (align4 y) as Hy. set (sp1 := y - y mod 4) in *.
  destruct ((MAXARG <=? length ptrs)%nat || (sp1 <? base)) eqn:Eb; [done|]. apply orb_false_iff in Eb as [_ Eb%Z.ltb_ge].
  assert (Hal : length (a ++ [0]) = (length a + 1)%nat) by (by rewrite length_app).
  assert (El : length (splice (Z.to_nat sp1) (a ++ [0]) im) = length im) by (apply length_splice; lia).
  destruct (IH _ _ _ _ _ _ E) as (H1 & H2 & H3 & new & H4 & H5); [lia|lia|]. split_and!; [lia|lia|congruence| |].
  - intros i Hi. rewrite H3 by lia. apply lookup_splice_out; lia.
  - exists (sp1 :: new). split; [by rewrite H4, <- app_assoc|]. constructor.
    + split; [lia|]. rewrite <- Hal. etrans; [|apply (slice_splice_same (Z.to_nat sp1) (a ++ [0]) im); lia].
      apply list_eq. intros i. rewrite !lookup_slice. case_decide; [|done]. apply H3. lia.
    + eapply Forall2_impl; [exact H5|]. cbn. intros q b [? ?]. split; [lia|done].
Qed.

Lemma get_u32_splice_at off l im i w :
  l !! i = Some w -> is_u32 w -> (off + 4 * length l <= length im)%nat ->
  get_u32 (off + 4 * i) (splice off (concat (le_of 4 <$> l)) im) = w.
Proof.
  intros Hw Hu Hl. pose proof (lookup_lt_Some _ _ _ Hw). unfold get_le. rewrite slice_splice_within by (rewrite length_words; lia).
  rewrite (slice_words l i w Hw). rewrite of_le_le_of. by apply Z.mod_small.
Qed.

Lemma stack_ref_args sz argv im sp im' :
  stack_ref sz argv im = Some (sp, im') -> PGSIZE <= sz < KERNBASE -> Z.of_nat (length im) = sz -> main_args im' sp argv.
Proof.
  unfold stack_ref. destruct (push_ref (sz - PGSIZE) sz argv [] im) as [[[sp1 ptrs] im1]|] eqn:E; [|done].
  destruct (_ <? _) eqn:Eb; [done|]. apply Z.ltb_ge in Eb. intros [= <- <-] Hsz Hl.
  destruct (push_ref_reads _ _ _ _ _ _ _ _ E) as (H1 & H2 & _ & new & H4 & H5); [mlia|mlia|]. rewrite app_nil_l in H4. subst new.
  pose proof (Forall2_length _ _ _ H5) as Hlen. rewrite Hlen in *. set (argc := Z.of_nat (length argv)) in *. set (sp := sp1 - (3 + argc + 1) * 4) in *.
  set (l := [0xffffffff; argc; u32 (sp1 - (argc + 1) * 4)] ++ ptrs ++ [0]). assert (Hll : length l = (4 + length argv)%nat) by (unfold l; rewrite !length_app, Hlen; cbn; lia).
  assert (Hw : forall i w, l !! i = Some w -> is_u32 w -> get_u32 (Z.to_nat (sp + 4 * Z.of_nat i)) (splice (Z.to_nat sp) (ustack argc sp1 ptrs) im1) = w).
  { intros i w Hi Hu. replace (Z.to_nat (sp + 4 * Z.of_nat i)) with (Z.to_nat sp + 4 * i)%nat by mlia. apply get_u32_splice_at; [done|done|]. fold l. mlia. }
  assert (Hp : forall i q, ptrs !! i = Some q -> l !! (3 + i)%nat = Some q) by (intros i q Hq; change (l !! (3 + i)%nat) with ((ptrs ++ [0]) !! i); rewrite lookup_app_l; [done|by eapply lookup_lt_Some]).
  split.
  - replace (Z.to_nat sp) with (Z.to_nat (sp + 4 * Z.of_nat 0)) at 1 by lia. by apply Hw.
  - replace (sp + 4) with (sp + 4 * Z.of_nat 1) by lia. apply Hw; [done|]. mlia.
  - replace (sp + 8) with (sp + 4 * Z.of_nat 2) by lia. rewrite (Hw 2%nat (u32 (sp1 - (argc + 1) * 4))); [rewrite u32_small by mlia; lia|done|apply u32_range].
  - intros i a Ha. destruct (Forall2_lookup_r _ _ _ _ _ H5 Ha) as (q & Hq & Hr & Hs). exists q.
    replace (sp + 12 + 4 * Z.of_nat i) with (sp + 4 * Z.of_nat (3 + i)) by lia. split_and!; [apply Hw; [by apply Hp|mlia]|mlia|].
    rewrite <- Hs. apply slice_splice_other; destruct (ustack_bytes argc sp1 ptrs) as [Hul _]; rewrite Hul; mlia.
  - replace (sp + 12 + 4 * Z.of_nat (length argv)) with (sp + 4 * Z.of_nat (3 + length argv)) by lia. apply Hw; [|done].
    change (l !! (3 + length argv)%nat) with ((ptrs ++ [0]) !! length argv). by apply list_lookup_middle.
Qed.

(** The bytes of a file. *)
Definition file_of (v : view) (x : inode) : list Z := file_bytes x v 0 (Z.to_nat (i_size x)).

Lemma file_of_copied v x y : FsPath.copied x = FsPath.copied y -> file_of v x = file_of v y.
Proof.
  intros [= _ _ _ _ Es Ea]. unfold file_of, file_bytes, file_byte, file_block, addr_of, ind_of. by rewrite Es, Ea.
Qed.

Section spec.
Context {S : Type} `{OpLaws S} `{KernelImage}.
Context (dev_read : Z -> option (nat -> Z -> M (fsys S) (Z * list Z))).
Implicit Types (s : kstate (fsys S)) (m : mem).

(** [s] with other buffers and another memory. *)
Definition put s (bk : S) m : kstate (fsys S) := set_mm m (set_fl (set_blk bk (fl s)) s).

Section load.
(** The open file, and the state in which reading starts. *)
Context (s1 : kstate (fsys S)) (v : view) (ip : nat) (x : inode).
Context (Hx : inodes (fl s1) !! ip = Some x) (Hat : fs_at (sb (fl s1)) v x) (Hnh : no_holes x v) (Hsp : spare 0 v) (Hreg : regular x).
Context (Hbytes : bytes_ok (file_of v x)).

Lemma length_file : 0 <= i_size x -> Z.of_nat (length (file_of v x)) = i_size x.
Proof. intros Hs. unfold file_of, file_bytes. rewrite length_fmap, length_seq. lia. Qed.

Lemma file_slice off n : 0 <= off -> 0 <= n -> off + n <= i_size x -> file_bytes x v off (Z.to_nat n) = slice (Z.to_nat off) (Z.to_nat n) (file_of v x).
Proof.
  intros Ho Hn Hs. apply list_eq. intros i. rewrite lookup_slice. unfold file_of, file_bytes. rewrite !list_lookup_fmap. case_decide as Hi.
  - rewrite !lookup_seq_lt by lia. cbn. do 2 f_equal. lia.
  - by rewrite lookup_seq_ge by lia.
Qed.

Lemma size_range : 0 <= i_size x <= 71680.
Proof. destruct Hreg as [_ Hr]. assert (MAXFILE * BSIZE = 71680) by done. lia. Qed.

Lemma wp_read_bytes bk m off n (Q : Z * list Z -> kstate (fsys S) -> Prop) :
  viewed bk v -> 0 <= n <= PGSIZE ->
  (forall bk' r got, viewed bk' v -> bytes_ok got -> Z.of_nat (length got) <= n ->
     match pread (file_of v x) (u32 off) n with Some d => u32 r = n /\ got = d | None => u32 r <> n end -> Q (r, got) (put s1 bk' m)) ->
  wp (xread dev_read ip off n) Q (put s1 bk m).
Proof.
  intros Hbk Hn HQ. pose proof size_range as Hsz. pose proof (length_file ltac:(lia)) as Hlen. pose proof (u32_range off) as Ho. unfold is_u32 in Ho.
  unfold xread. apply wp_zoom. change (fl (put s1 bk m)) with (set_blk bk (fl s1)). unfold pread in HQ. rewrite Hlen in HQ.
  destruct (decide (u32 off <= i_size x)) as [Hle|Hgt].
  - eapply (wp_readi dev_read _ v ip x); [done|done|exact Hx|done|done|done|mlia|lia|mlia|]. intros bk' Hbk'. unfold read_len.
    assert (Hb : forall k, 0 <= k -> u32 off + k <= i_size x -> bytes_ok (file_bytes x v (u32 off) (Z.to_nat k)) /\
      length (file_bytes x v (u32 off) (Z.to_nat k)) = Z.to_nat k).
    { intros k Hk0 Hk. split; [rewrite file_slice by lia; by apply slice_bytes_ok|]. unfold file_bytes. by rewrite length_fmap, length_seq. }
    destruct (Z.leb_spec (u32 off + n) (i_size x)) as [Hfit|Hno].
    + rewrite Z.min_l by lia. destruct (Hb n) as [Hb1 Hb2]; [lia|lia|]. apply (HQ bk'); [done|done|lia|].
      split; [apply u32_small; mlia|]. rewrite file_slice by lia. done.
    + rewrite Z.min_r by lia. destruct (Hb (i_size x - u32 off)) as [Hb1 Hb2]; [lia|lia|]. apply (HQ bk'); [done|done|lia|].
      rewrite u32_small by mlia. lia.
  - unfold readi. apply wp_bind. eapply wp_get_inode; [exact Hx|]. destruct Hreg as [Hty _].
    destruct (Z.eqb_spec (i_type x) T_DEV); [done|]. rewrite (proj2 (Z.ltb_lt (i_size x) _)) by lia. cbn [orb]. apply wp_ret.
    apply (HQ bk); [done|constructor|cbn; lia|]. rewrite (proj2 (Z.leb_gt (u32 off + n) _)) by lia. change (u32 (-1)) with 4294967295. mlia.
Qed.

(** *** The segments *)

Context (all : list Z) (m0 : mem) (Hall : NoDup all).
#[local] Abbreviation file := (file_of v x).

Definition loads (t : ptable) (bk : S) m (im : list Z) : Prop :=
  viewed bk v /\ exists up free, space all m0 t up free m KERNBASE im.

Lemma wp_loaduvm_loop fuel : forall t bk m im addr off sz i (Q : Z -> kstate (fsys S) -> Prop),
  loads t bk m im -> addr mod PGSIZE = 0 -> 0 <= addr -> is_u32 off -> 0 <= sz -> addr + sz <= Z.of_nat (length im) ->
  i mod PGSIZE = 0 -> 0 <= i -> i = 0 \/ off + i <= Z.of_nat (length file) -> sz - i <= PGSIZE * Z.of_nat fuel ->
  (sz <= i \/ off + sz <= Z.of_nat (length file) -> forall bk' m',
     loads t bk' m' (splice (Z.to_nat (addr + i)) (slice (Z.to_nat (off + i)) (Z.to_nat (sz - i)) file) im) -> Q 0 (put s1 bk' m')) ->
  (i < sz -> Z.of_nat (length file) < off + sz -> forall bk' m' im', loads t bk' m' im' -> length im' = length im -> Q (-1) (put s1 bk' m')) ->
  wp (loaduvm_loop dev_read fuel (root t) addr ip off sz i) Q (put s1 bk m).
Proof.
  induction fuel as [|fuel IH]; intros t bk m im addr off sz i Q [Hbk (up & free & Hs)] Ha Ha0 Hoff Hsz Hfit Hi Hi0 Hpre Hf Hok Hbad;
    cbn [loaduvm_loop]; destruct (Z.ltb_spec i sz) as [Hlt|Hge]; try lia.
  1, 3: apply wp_ret; apply Hok; [by left|]; replace (Z.to_nat (sz - i)) with 0%nat by lia; unfold slice; rewrite take_0; unfold splice; cbn [length app];
    rewrite Nat.add_0_r, take_drop; split; [done|by exists up, free].
  pose proof size_range as Hfs. pose proof (length_file ltac:(lia)) as Hlen. pose proof (proj2 (sp_len _ _ _ _ _ _ _ _ Hs)) as Hk.
  rewrite (u32_small (addr + i)) by mlia. assert (Hin : 0 <= addr + i < Z.of_nat (length im)) by lia.
  destruct (space_entry _ _ _ _ _ _ _ _ _ Hs Hin) as (p & q & Hp & Hpf & Hq & Hqf & _). pose proof (sp_uvm _ _ _ _ _ _ _ _ Hs) as Hu.
  apply wp_bind, wp_zoom. change (mm (put s1 bk m)) with m. apply wp_walk; [apply Hu|apply Hu|mlia|]. rewrite Hq.
  pose proof (PTX_range (addr + i)). apply wp_bind, wp_panic_if; [apply Z.eqb_neq; pose proof (frame_pos q Hqf); mlia|].
  apply wp_bind, wp_zoom. apply wp_load_entry; [apply Hu|done|done|]. cbn [mm put set_mm].
  replace (entry (page_at (ram m) q) (PTX (addr + i))) with (pte_of t (ram m) (addr + i)) by (unfold pte_of; by rewrite Hq).
  rewrite (u32_small (sz - i)) by mlia. set (n := if sz - i <? PGSIZE then sz - i else PGSIZE).
  assert (Hn : n = Z.min (sz - i) PGSIZE) by (unfold n; destruct (Z.ltb_spec (sz - i) PGSIZE); lia). clearbody n.
  change (set_mm m (set_mm m (put s1 bk m))) with (put s1 bk m). apply wp_bind.
  apply wp_read_bytes; [done|mlia|]. intros bk' r got Hbk' Hgb Hgl Hr.
  assert (Hoi : u32 (off + i) = off + i) by (apply u32_small; mlia). rewrite Hoi in Hr. unfold pread in Hr.
  assert (Ham : (addr + i) mod PGSIZE = 0) by (by rewrite Z.add_mod, Ha, Hi).
  apply wp_bind, wp_zoom. cbn [mm put set_mm].
  eapply (wp_space_page _ _ t up free m KERNBASE im (addr + i) got); [exact Hs|done|lia|lia|done|lia|done|]. intros m' Hs'.
  change (set_mm m' (put s1 bk' m)) with (put s1 bk' m').
  assert (El : length (splice (Z.to_nat (addr + i)) got im) = length im) by (apply length_splice; lia).
  destruct (Z.leb_spec (off + i + n) (Z.of_nat (length file))) as [Hfull|Hno].
  - destruct Hr as [-> ->]. rewrite Z.eqb_refl. cbn [negb].
    set (d := slice (Z.to_nat (off + i)) (Z.to_nat n) file) in *. assert (Hd : length d = Z.to_nat n) by (apply length_slice; mlia).
    assert (Hi' : (i + PGSIZE) mod PGSIZE = 0) by (by apply next_page). rewrite (u32_small (i + PGSIZE)) by mlia.
    destruct (decide (sz <= i + PGSIZE)) as [Hlast|Hmore].
    + destruct fuel; cbn [loaduvm_loop]; rewrite (proj2 (Z.ltb_ge (i + PGSIZE) sz)) by lia; apply wp_ret; (apply Hok; [right; lia|]);
        replace (sz - i) with n by lia; split; [done|by exists up, free|done|by exists up, free].
    + eapply (IH t bk' m' (splice (Z.to_nat (addr + i)) d im) addr off sz (i + PGSIZE)); [split; [done|by exists up, free]|done|done|done|done|lia|done|lia|lia|lia| |].
      * intros [?|Hall'] bk2 m2 Hl2; [lia|]. apply Hok; [by right|]. assert (Hn' : n = PGSIZE) by lia.
        replace (splice (Z.to_nat (addr + i)) (slice (Z.to_nat (off + i)) (Z.to_nat (sz - i)) file) im)
          with (splice (Z.to_nat (addr + (i + PGSIZE))) (slice (Z.to_nat (off + (i + PGSIZE))) (Z.to_nat (sz - (i + PGSIZE))) file) (splice (Z.to_nat (addr + i)) d im));
          [done|].
        assert (E : slice (Z.to_nat (off + i)) (Z.to_nat (sz - i)) file = d ++
          slice (Z.to_nat (off + (i + PGSIZE))) (Z.to_nat (sz - (i + PGSIZE))) file).
        { unfold d, slice. replace (Z.to_nat (off + (i + PGSIZE))) with (Z.to_nat (off + i) + Z.to_nat n)%nat by mlia.
          rewrite <- drop_drop, take_take_drop. f_equal. mlia. }
        rewrite E. replace (Z.to_nat (addr + (i + PGSIZE))) with (Z.to_nat (addr + i) + length d)%nat by mlia.
        apply splice_twice. rewrite length_slice by mlia. rewrite Hd. mlia.
      * intros _ Hno bk2 m2 im2 Hl2 El2. apply (Hbad ltac:(lia) Hno bk2 m2 im2); [done|congruence].
  - rewrite (proj2 (Z.eqb_neq _ _) Hr). cbn [negb]. apply wp_ret.
    apply (Hbad ltac:(lia) ltac:(lia) bk' m' (splice (Z.to_nat (addr + i)) got im)); [|done]. split; [done|by exists up, free].
Qed.

Lemma wp_loaduvm t bk m im addr off sz (Q : Z -> kstate (fsys S) -> Prop) :
  loads t bk m im -> addr mod PGSIZE = 0 -> 0 <= addr -> is_u32 off -> 0 <= sz -> addr + sz <= Z.of_nat (length im) ->
  (sz = 0 \/ off + sz <= Z.of_nat (length file) -> forall bk' m',
     loads t bk' m' (splice (Z.to_nat addr) (slice (Z.to_nat off) (Z.to_nat sz) file) im) -> Q 0 (put s1 bk' m')) ->
  (0 < sz -> Z.of_nat (length file) < off + sz -> forall bk' m' im', loads t bk' m' im' -> length im' = length im -> Q (-1) (put s1 bk' m')) ->
  wp (loaduvm dev_read (root t) addr ip off sz) Q (put s1 bk m).
Proof.
  intros Hl Ha Ha0 Ho Hs Hfit Hok Hbad. unfold loaduvm. apply wp_bind, wp_panic_if; [by rewrite Ha|].
  eapply wp_loaduvm_loop; [exact Hl|done|done|done|done|done|done|done|by left| | |done].
  - pose proof (Z.div_mod sz PGSIZE ltac:(done)). pose proof (Z.mod_pos_bound sz PGSIZE ltac:(done)). pose proof (Z.div_pos sz PGSIZE). mlia.
  - rewrite !Z.add_0_r, Z.sub_0_r. intros Hw. apply Hok. destruct Hw; [left; lia|by right].
Qed.

(** Why the loop over the headers stops. *)
Definition no_load (n : nat) (off sz : Z) (im : list Z) : Prop :=
  load_ref file n off sz im = None \/ exists sz' im', load_ref file n off sz im = Some (sz', im') /\ scarce all (PGROUNDUP sz').

Lemma proghdr_u32 d : bytes_ok d -> length d = 32%nat -> let ph := get_proghdr d in is_u32 (ph_off ph) /\ is_u32 (ph_vaddr ph) /\ is_u32 (ph_filesz ph) /\ is_u32 (ph_memsz ph).
Proof. intros Hb Hl. cbn. split_and!; (unfold is_u32; change W32 with (256 ^ Z.of_nat 4); apply get_le_range; done). Qed.

Lemma wp_load_segments n : forall t bk m im off sz (Q : option Z -> kstate (fsys S) -> Prop),
  loads t bk m im -> 0 <= sz < KERNBASE -> PGROUNDUP sz = Z.of_nat (length im) ->
  (forall t' bk' m' sz' im', root t' = root t -> load_ref file n off sz im = Some (sz', im') -> loads t' bk' m' im' ->
     0 <= sz' < KERNBASE -> PGROUNDUP sz' = Z.of_nat (length im') -> Q (Some sz') (put s1 bk' m')) ->
  (forall t' bk' m' im', root t' = root t -> no_load n off sz im -> loads t' bk' m' im' -> Q None (put s1 bk' m')) ->
  wp (load_segments dev_read n (root t) ip off sz) Q (put s1 bk m).
Proof.
  induction n as [|n IH]; intros t bk m im off sz Q Hl Hsz Him Hok Hbad; cbn [load_segments].
  { apply wp_ret. by eapply Hok. }
  unfold no_load in Hbad. cbn [load_ref] in Hok, Hbad. pose proof Hl as [Hbk (up & free & Hs)].
  apply wp_bind, wp_read_bytes; [done|by vm_compute|]. intros bk1 r d Hbk1 Hdb _ Hr. assert (Hl1 : loads t bk1 m im) by (split; [done|by exists up, free]).
  destruct (pread file (u32 off) sizeof_proghdr) as [d'|] eqn:Ed.
  2: { rewrite (proj2 (Z.eqb_neq _ _) Hr). cbn [negb]. apply wp_ret. eapply Hbad; [done|by left|done]. }
  destruct Hr as [-> ->]. rewrite Z.eqb_refl. cbn [negb]. assert (Hdl : length d' = 32%nat).
  { unfold pread in Ed. destruct (Z.leb_spec (u32 off + sizeof_proghdr) (Z.of_nat (length file))); [|done]. injection Ed as <-.
    pose proof (u32_range off). apply length_slice. unfold sizeof_proghdr in *. mlia. }
  destruct (proghdr_u32 d' Hdb Hdl) as (Ho & Hv & Hf & Hm). set (ph := get_proghdr d') in *.
  destruct (negb (ph_type ph =? ELF_PROG_LOAD)); [by eapply IH|].
  assert (Hno : seg_ok file sz ph = false -> forall t' bk' m' im', root t' = root t -> loads t' bk' m' im' -> Q None (put s1 bk' m')).
  { intros E t' bk' m' im' Hroot Hl'. rewrite E in Hbad. eapply Hbad; [done|by left|done]. }
  unfold is_u32, W32 in *. destruct (Z.ltb_spec (ph_memsz ph) (ph_filesz ph)) as [Hmf|Hmf].
  { apply wp_ret. apply (Hno ltac:(apply not_true_iff_false; intros E%seg_ok_spec; lia) t bk1 m im); done. }
  destruct (decide (ph_vaddr ph + ph_memsz ph < 2 ^ 32)) as [Hov|Hov].
  2: { assert (u32 (ph_vaddr ph + ph_memsz ph) = ph_vaddr ph + ph_memsz ph - 2 ^ 32) as ->.
    { unfold u32, W32. rewrite <- (Z.mod_small (ph_vaddr ph + ph_memsz ph - 2 ^ 32) (2 ^ 32)) by lia.
      by rewrite Zminus_mod, Z.mod_same, Z.sub_0_r, Z.mod_mod by lia. }
    rewrite (proj2 (Z.ltb_lt _ (ph_vaddr ph))) by lia. apply wp_ret.
    apply (Hno ltac:(apply not_true_iff_false; intros E%seg_ok_spec; mlia) t bk1 m im); done. }
  rewrite u32_small by (unfold is_u32, W32; lia). rewrite (proj2 (Z.ltb_ge _ (ph_vaddr ph))) by lia. set (nsz := ph_vaddr ph + ph_memsz ph) in *.
  apply wp_bind, wp_zoom. cbn [mm put set_mm].
  eapply (wp_space_alloc all m0 Hall t up free m im sz nsz); [done|done|done|lia| |].
  2: { intros t' free' m' Hroot Hs' Hwhy. apply wp_ret. cbn. destruct (seg_ok file sz ph) eqn:Eok.
    - apply seg_ok_spec in Eok as (_ & Hnk & _). destruct Hwhy as [?|Hsc]; [lia|].
      eapply (Hbad t' bk1 m' im); [done| |by split; [|exists up, free']].
      set (lr := load_ref file n _ _ _). destruct lr as [[sz' im']|] eqn:Elr; [right|by left]. exists sz', im'. split; [done|].
      subst lr. apply load_ref_mono in Elr as Hmono; [|lia]. unfold scarce in *. pose proof (roundup_mono nsz sz' ltac:(lia) ltac:(lia)). lia.
    - apply (Hno eq_refl t' bk1 m' im); [done|]. split; [done|by exists up, free']. }
  intros Hnk t' up' free' m' Hroot Hs'. change (set_mm m' (put s1 bk1 m)) with (put s1 bk1 m'). set (sz2 := Z.max sz nsz) in *.
  assert (Hl2 : loads t' bk1 m' (grow im (PGROUNDUP sz2))) by (split; [done|by exists up', free']).
  destruct (Z.eqb_spec sz2 0) as [Hz|Hz].
  { apply wp_ret. eapply Hno; [|exact Hroot|exact Hl2]. apply not_true_iff_false. intros E%seg_ok_spec. lia. }
  destruct (Z.eqb_spec (ph_vaddr ph mod PGSIZE) 0) as [Hal|Hal]; cbn [negb].
  2: { apply wp_ret. eapply Hno; [|exact Hroot|exact Hl2]. apply not_true_iff_false. intros E%seg_ok_spec. lia. }
  pose proof (roundup_mono sz sz2 ltac:(lia) ltac:(lia)) as Hmono. destruct (roundup_range sz2) as [_ Hru]; [lia|lia|].
  pose proof (length_grow im (PGROUNDUP sz2) ltac:(lia)) as Hgl. rewrite <- Hroot.
  apply wp_bind. eapply (wp_loaduvm t' bk1 m' (grow im (PGROUNDUP sz2))); [exact Hl2|done|lia|done|lia|lia| |].
  - intros Hin bk2 m2 Hl3. change (0 <? 0) with false. cbv iota. assert (Eok : seg_ok file sz ph = true) by (apply seg_ok_spec; lia).
    rewrite Eok in Hok, Hbad. set (im2 := splice _ _ _) in *. assert (Hl2' : length im2 = length (grow im (PGROUNDUP sz2))).
    { apply length_splice. unfold slice. rewrite length_take. lia. }
    eapply (IH t' bk2 m2 im2); [exact Hl3|lia|lia| |].
    + intros t3 bk3 m3 sz3 im3 E3. apply Hok. congruence.
    + intros t3 bk3 m3 im3 E3. apply Hbad. congruence.
  - intros Hpos Hlong bk2 m2 im2 Hl3 El. change (-1 <? 0) with true. cbv iota. apply wp_ret. eapply Hno; [|exact Hroot|exact Hl3].
    apply not_true_iff_false. intros E%seg_ok_spec. lia.
Qed.

End load.
(** ** The switch to the new image *)

Section switch.
(** The memory when exec() starts: the free list and the address space of the
    process; its trap frame is at offset [o] of frame [k]. *)
Context (t : ptable) (up : gmap Z Z) (all : list Z) (m0 : mem).
Context (Hold : uvm_at t up all m0).
Context (k o : Z) (Hkf : frame k) (Ho : 0 <= o /\ o + sizeof_trapframe <= PGSIZE).
Context (Hka : k ∉ all) (Hkv : ~ vm_pages t up k).

Record replaced (entry sp g : Z) (im : list Z) (t' : ptable) (up' : gmap Z Z) (free' : list Z) (m' : mem) : Prop := {
  rp_uvm : uvm_at t' up' free' m';
  rp_own : forall w, w ∈ free' \/ vm_pages t' up' w <-> w ∈ all \/ vm_pages t up w;
  rp_byte : forall a, 0 <= a -> user_byte up' (ram m') a = im !! Z.to_nat a;
  rp_user : forall a, 0 <= a < Z.of_nat (length im) -> has (pte_of t' (ram m') a) PTE_U = negb (bool_decide (g <= a < g + PGSIZE));
  rp_tf : page_at (ram m') k = put_u32 (Z.to_nat (o + TF_ESP)) sp (put_u32 (Z.to_nat (o + TF_EIP)) entry (page_at (ram m0) k));
  rp_ram : forall w, w ∉ all -> ~ vm_pages t up w -> w <> k -> ram m' !! w = ram m0 !! w;
}.

Lemma old_not_free w : vm_pages t up w -> w ∉ all.
Proof.
  intros [Hw|[a Ha]]; [by apply (va_disj _ _ _ (uv_vm _ _ _ _ Hold))|]. by apply (uv_dom _ _ _ _ Hold) in Ha as (_&_&_&_&?).
Qed.

Lemma wp_store_tf m off x (Q : unit -> mem -> Prop) :
  ram_ok (ram m) -> 0 <= off <= 72 -> Q tt (set_ram (<[k := put_u32 (Z.to_nat (o + off)) x (page_at (ram m) k)]> (ram m)) m) ->
  wp (store32 (k + o + off) x) Q m.
Proof.
  intros Hr Hoff HQ. unfold sizeof_trapframe in Ho. destruct (frame_byte k (o + off) Hkf ltac:(lia)) as [E1 E2]. rewrite <- Z.add_assoc. unfold store32.
  rewrite E1, E2. apply wp_bind. eapply wp_get_page; [by apply ram_page|]. eapply wp_put_page; [by apply ram_page|]. done.
Qed.

(** A store to the frame of the trap frame. *)
Lemma kmem_tf free m off x :
  kmem_at free m -> k ∉ free -> 0 <= off <= 72 -> kmem_at free (set_ram (<[k := put_u32 (Z.to_nat (o + off)) x (page_at (ram m) k)]> (ram m)) m).
Proof.
  intros Hk Hn Hoff. pose proof (ka_ram _ _ Hk) as Hr. pose proof (page_len _ _ Hr Hkf). unfold sizeof_trapframe in Ho.
  apply kmem_at_store; [done..| |].
  - rewrite length_put_le; [done|]. mlia.
  - apply put_le_bytes_ok. by apply page_bytes.
Qed.

(** Both stores and freevm() of the old directory. *)
Lemma wp_replace t' up' free m g im entry sp (Q : unit -> mem -> Prop) :
  space all m0 t' up' free m g im ->
  (forall free' m', replaced entry sp g im t' up' free' m' -> Q tt m') ->
  wp (store32 (k + o + TF_EIP) entry ;;; store32 (k + o + TF_ESP) sp ;;; freevm (root t)) Q m.
Proof.
  intros Hs HQ. pose proof Hs as [S1 S2 S3 S4 S5 S6 S7]. pose proof (va_kmem _ _ _ (uv_vm _ _ _ _ S1)) as Hk. pose proof (ka_ram _ _ Hk) as Hr.
  assert (Hkfree : k ∉ free) by (intros Hin; apply Hka, S2; by left).
  pose proof (kmem_tf free m TF_EIP entry Hk Hkfree ltac:(by vm_compute)) as Hk1. apply wp_bind, wp_store_tf; [done|by vm_compute|].
  set (m1 := set_ram _ m) in *. pose proof (kmem_tf free m1 TF_ESP sp Hk1 Hkfree ltac:(by vm_compute)) as Hk2.
  apply wp_bind, wp_store_tf; [apply (ka_ram _ _ Hk1)|by vm_compute|]. set (m2 := set_ram _ m1) in *.
  assert (E2 : forall w, w <> k -> ram m2 !! w = ram m !! w).
  { intros w Hw. cbn. rewrite !lookup_insert_ne by done. done. }
  assert (Ek : page_at (ram m2) k = put_u32 (Z.to_nat (o + TF_ESP)) sp (put_u32 (Z.to_nat (o + TF_EIP)) entry (page_at (ram m) k))).
  { cbn. by rewrite !page_at_insert. }
  clearbody m2. assert (Hsub : forall w, w ∈ free -> w ∈ all) by (intros w Hw; apply S2; by left).
  assert (Hu2 : uvm_at t up free m2).
  { eapply uvm_frame; [exact Hold|exact Hk2| |].
    - intros w Hw. assert (w <> k) by (intros ->; by apply Hkv; left). rewrite E2, S3 by (done || (apply old_not_free; by left)). done.
    - intros w Hw%Hsub. split; [intros Hin|intros a Ha]; (eapply old_not_free; [|exact Hw]); [by left|right; by exists a]. }
  eapply wp_freevm; [exact Hu2|]. intros free' m' [K1 K2 K3]. apply (HQ free').
  assert (Hnew : forall w, vm_pages t' up' w -> w <> k /\ ~ vm_pages t up w).
  { intros w Hw. assert (w ∈ all) by (apply S2; by right). split; [by intros ->|]. intros Hin. by eapply old_not_free. }
  assert (Em : forall w, vm_pages t' up' w -> ram m' !! w = ram m !! w) by (intros w Hw; destruct (Hnew w Hw); by rewrite K3, E2).
  split.
  - eapply uvm_frame; [exact S1|done|intros w Hw; apply Em; by left|]. intros w [Hw|Hw]%K2.
    + split; [intros Hin; by eapply (va_disj _ _ _ (uv_vm _ _ _ _ S1))|]. intros a Ha. by apply (uv_dom _ _ _ _ S1) in Ha as (_&_&_&_&?).
    + split; [intros Hin; by apply (Hnew w (or_introl Hin))|]. intros a Ha. by apply (Hnew w (or_intror (ex_intro _ a Ha))).
  - intros w. rewrite K2, S2. tauto.
  - intros a Ha. rewrite <- (S6 a Ha). unfold user_byte. destruct (up' !! pg a) as [q|] eqn:Hq; [|done]. cbn. unfold page_at.
    rewrite Em; [done|]. right. by exists (pg a).
  - intros a Ha. rewrite <- (S7 a Ha). f_equal. apply pte_of_frame. intros w Hw. apply Em. by left.
  - unfold page_at at 1. rewrite K3 by done. fold (page_at (ram m2) k). rewrite Ek. unfold page_at. by rewrite S3.
  - intros w Hw1 Hw2 Hw3. rewrite K3, E2, S3 by done. done.
Qed.

(** *** exec_image() *)

Definition image_proc (path : list Z) (pgdir sz : Z) (p : proc) : proc := set_p_sz sz (set_p_pgdir pgdir (set_name (last_elem path path) p)).

Definition image_state s (c : nat) (p : proc) (path : list Z) (pgdir sz : Z) m : kstate (fsys S) :=
  set_mm m (set_cr3 (V2P pgdir) (set_esp0 (u32 (p_kstack p + KSTACKSIZE)) (set_slot c (image_proc path pgdir sz p) s))).

Lemma wp_bind_inv {T A B} (m : M T A) (f : A -> M T B) Q (st : T) : wp (let* a := m in f a) Q st -> wp m (fun a st => wp (f a) Q st) st.
Proof. unfold wp, bind. by destruct (m st). Qed.

Lemma wp_switch_image s c p path elf t' up' free g im sp (Q : Z -> kstate (fsys S) -> Prop) :
  procs (pt s) !! c = Some p -> p_kstack p <> 0 -> p_pgdir p = root t -> p_tf p = k + o ->
  space all m0 t' up' free (mm s) g im ->
  (forall free' m', replaced (e_entry elf) sp g im t' up' free' m' -> Q 0 (image_state s c p path (root t') (g + 2 * PGSIZE) m')) ->
  wp (upd_proc c (set_name (last_elem path path)) ;;;
      let* p := get_proc c in
      let oldpgdir := p_pgdir p in
      upd_proc c (set_p_pgdir (root t')) ;;;
      upd_proc c (set_p_sz (g + 2 * PGSIZE)) ;;;
      onmem (store32 (p_tf p + TF_EIP) (e_entry elf)) ;;;
      onmem (store32 (p_tf p + TF_ESP) sp) ;;;
      switchuvm c ;;;
      onmem (freevm oldpgdir) ;;;
      ret 0) Q s.
Proof.
  intros Hp Hks Hpg Htf Hs HQ. pose proof (root_nonzero _ _ _ _ (sp_uvm _ _ _ _ _ _ _ _ Hs)) as Hnz.
  apply wp_bind. eapply wp_upd_proc; [exact Hp|]. apply wp_bind. eapply wp_get_proc; [by eapply slot_self|]. cbn [p_pgdir p_tf set_name set_p_name].
  rewrite Hpg, Htf. apply wp_bind. eapply wp_upd_proc; [by eapply slot_self|]. apply wp_bind. eapply wp_upd_proc; [eapply slot_self; by eapply slot_self|].
  set (s2 := set_slot c (set_p_sz _ _) _). assert (E2 : s2 = set_slot c (image_proc path (root t') (g + 2 * PGSIZE) p) s).
  { unfold s2, set_slot, set_pt, set_procs. cbn. by rewrite !list_insert_insert_eq. }
  rewrite E2. clear s2 E2. set (s2 := set_slot c _ s). assert (Hp2 : procs (pt s2) !! c = Some (image_proc path (root t') (g + 2 * PGSIZE) p)) by (by eapply slot_self).
  pose proof (wp_replace t' up' free (mm s) g im (e_entry elf) sp
    (fun _ m' => Q 0 (image_state s c p path (root t') (g + 2 * PGSIZE) m')) Hs HQ) as Hrep.
  apply wp_bind_inv in Hrep. apply wp_bind, wp_zoom. eapply wp_mono; [exact Hrep|]. intros [] m1 Hrep1. apply wp_bind_inv in Hrep1.
  apply wp_bind, wp_zoom. eapply wp_mono; [exact Hrep1|]. intros [] m2 Hrep2. apply wp_bind. unfold switchuvm.
  apply wp_bind. eapply wp_get_proc; [exact Hp2|]. cbn [p_kstack p_pgdir image_proc set_p_sz set_p_pgdir set_name set_p_name].
  apply wp_bind, wp_panic_if; [by apply Z.eqb_neq|]. apply wp_bind, wp_panic_if; [by apply Z.eqb_neq|]. apply wp_bind, wp_modify, wp_modify.
  apply wp_bind, wp_zoom. eapply wp_mono; [exact Hrep2|]. intros [] m3 Hfin. by apply wp_ret.
Qed.

(** Everything the failed attempt took is free again. *)
Definition undone m : Prop := exists free', kmem_at free' m /\ (forall w, w ∈ free' <-> w ∈ all) /\ forall w, w ∉ all -> ram m !! w = ram m0 !! w.

Lemma wp_bad_mem s t' up' free g im (Q : Z -> kstate (fsys S) -> Prop) :
  space all m0 t' up' free (mm s) g im -> (forall m', undone m' -> Q (-1) (set_mm m' s)) -> wp (bad (root t') None) Q s.
Proof.
  intros Hs HQ. pose proof (root_nonzero _ _ _ _ (sp_uvm _ _ _ _ _ _ _ _ Hs)) as Hnz. unfold bad. rewrite (proj2 (Z.eqb_neq _ _) Hnz).
  apply wp_bind, wp_zoom. eapply wp_space_free; [exact Hs|]. intros free' m' K1 K2 K3. apply wp_bind, wp_ret, wp_ret. apply HQ. by exists free'.
Qed.

(** From the segments on. *)
Definition finish (elf : elfhdr) (sz : Z) (im : list Z) (argv : list (list Z)) : option loaded :=
  if KERNBASE <=? PGROUNDUP sz + 2 * PGSIZE then None
  else match stack_ref (PGROUNDUP sz + 2 * PGSIZE) argv (grow im (PGROUNDUP sz + 2 * PGSIZE)) with
       | None => None
       | Some (sp, im) => Some (mkloaded (e_entry elf) (PGROUNDUP sz + 2 * PGSIZE) sp im)
       end.

Lemma wp_exec_image s c p path argv elf t' up' free sz im (Hall : NoDup all) (Q : Z -> kstate (fsys S) -> Prop) :
  procs (pt s) !! c = Some p -> p_kstack p <> 0 -> p_pgdir p = root t -> p_tf p = k + o ->
  space all m0 t' up' free (mm s) KERNBASE im -> 0 <= sz < KERNBASE -> PGROUNDUP sz = Z.of_nat (length im) -> Forall arg_ok argv ->
  (forall ld t2 up2 free2 m2, finish elf sz im argv = Some ld ->
     replaced (ld_entry ld) (ld_sp ld) (ld_size ld - 2 * PGSIZE) (ld_image ld) t2 up2 free2 m2 ->
     Q 0 (image_state s c p path (root t2) (ld_size ld) m2)) ->
  (forall m2, finish elf sz im argv = None \/ scarce all (PGROUNDUP sz + 2 * PGSIZE) -> undone m2 -> Q (-1) (set_mm m2 s)) ->
  wp (exec_image c path argv elf (root t') sz) Q s.
Proof.
  intros Hp Hks Hpg Htf Hs Hsz Him Hargs Hok Hbad. unfold exec_image. destruct (roundup_range sz) as [Hzm Hzr]; [lia|lia|].
  pose proof (roundup_below sz ltac:(lia)) as Hzk. unfold finish in Hok, Hbad. set (top := PGROUNDUP sz) in *. rewrite (u32_small (top + 2 * PGSIZE)) by mlia.
  apply wp_bind, wp_zoom. destruct (Z.leb_spec KERNBASE (top + 2 * PGSIZE)) as [Hbig|Hfit].
  { unfold allocuvm. rewrite (proj2 (Z.leb_le KERNBASE _)) by done. apply wp_ret. replace (set_mm (mm s) s) with s by (by destruct s).
    change (0 =? 0) with true. cbv iota. eapply wp_bad_mem; [exact Hs|]. intros m2 Hun. apply Hbad; [by left|done]. }
  assert (Htt : forall z, z mod PGSIZE = 0 -> 0 <= z <= KERNBASE -> PGROUNDUP z = z).
  { intros z Hz Hr. destruct (roundup_range z) as [H5 H6]; [lia|lia|]. apply Z.mod_divide in H5 as [a Ha]; [|done]. apply Z.mod_divide in Hz as [b Hb]; [|done]. mlia. }
  assert (Hfm : (top + 2 * PGSIZE) mod PGSIZE = 0) by (by rewrite Z.mod_add).
  eapply (wp_space_alloc all m0 Hall t' up' free (mm s) im top (top + 2 * PGSIZE)); [exact Hs|mlia|rewrite Htt by (done || lia); done|mlia| |];
    rewrite ?Z.max_r, Htt by (done || mlia).
  2: { intros t2 free2 m2 Hroot Hs2 Hwhy. change (0 =? 0) with true. cbv iota. rewrite <- Hroot. eapply wp_bad_mem; [exact Hs2|]. intros m3 Hun.
    change (set_mm m3 (set_mm m2 s)) with (set_mm m3 s). apply Hbad; [|done]. destruct Hwhy; [lia|by right]. }
  intros _ t2 up2 free2 m2 Hroot Hs2. rewrite (proj2 (Z.eqb_neq _ 0)) by mlia. rewrite <- Hroot.
  replace (u32 (top + 2 * PGSIZE - 2 * PGSIZE)) with top by (rewrite u32_small by mlia; lia).
  pose proof (length_grow im (top + 2 * PGSIZE) ltac:(mlia)) as Hgl. apply wp_bind, wp_zoom. cbn [mm set_mm].
  eapply (wp_space_clear _ _ t2 up2 free2 m2 (grow im (top + 2 * PGSIZE)) top); [exact Hs2|done|mlia|]. intros m3 Hs3.
  change (set_mm m3 (set_mm m2 s)) with (set_mm m3 s). apply wp_bind.
  eapply (wp_push_stack all m0 t2 up2 free2 top argv (set_mm m3 s)); [exact Hs3|done|lia|done|done| |].
  - intros m4 im4 sp Est Hs4 El Hr. rewrite Est in Hok. change (set_mm m4 (set_mm m3 s)) with (set_mm m4 s).
    eapply (wp_switch_image (set_mm m4 s) c p path elf t2 up2 free2 top im4 sp); [exact Hp|done|done|done|exact Hs4|].
    intros free5 m5 Hrep. apply (Hok _ t2 up2 free5 m5 eq_refl). cbn [ld_entry ld_sp ld_size ld_image].
    replace (top + 2 * PGSIZE - 2 * PGSIZE) with top by lia. done.
  - intros m4 im4 Est Hs4 El. rewrite Est in Hbad. eapply wp_bad_mem; [exact Hs4|]. intros m5 Hun.
    change (set_mm m5 (set_mm m4 (set_mm m3 s))) with (set_mm m5 s). apply Hbad; [by left|done].
Qed.

End switch.
(** ** exec() *)

Section whole.
(** The inodes of the tree. *)
Context (G : Z -> Prop) (nodes : list Z) (Hnodes : forall j, G j -> j ∈ nodes) (Hroot : G ROOTINO).
Implicit Types (f : fsys S) (R : gmap Z Z).

(** Between system calls: [R] counts the references to each inode. *)
Record settled v R f : Prop := {
  se_idle : idle (blk f) v;
  se_tree : tree (sb f) v G;
  se_cache : forall b, viewed b v -> icached (set_blk b f) v R None;
  se_known : forall j, 0 < refs R j -> G j;
}.

(** The file system is as before: no inode is lost or held. *)
Definition files_kept v R f f' : Prop := exists v', committed v v' /\ settled v' R f' /\ sb f' = sb f /\ kept f R f'.

Lemma wp_fs_end v R f f0 (Q : unit -> fsys S -> Prop) :
  icached f v R None -> tree (sb f) v G -> (forall j, 0 < refs R j -> G j) -> logged v = ∅ -> opens v = 1 -> sb f = sb f0 -> kept f0 R f ->
  (forall b, files_kept v R f0 (set_blk b f) -> Q tt (set_blk b f)) -> wp (onblk bl_end_op) Q f.
Proof.
  intros IC Ht HG Hlog Hop Hsb Hk HQ. unfold onblk. apply wp_zoom. eapply (law_end _ v); [apply IC|done|apply Ht|by rewrite Hlog|]. intros b v' Hi Hcm.
  apply HQ. exists v'. split_and!; [done| |done|done]. destruct (law_idle _ _ Hi) as (_ & Hh & Htou & _). split; [done|by apply (tree_committed _ v)| |done].
  intros b' Hb'. destruct IC as [I1 I2 I3 I4 I5 I6 I7 I8]. split; try done.
  intros i x Hx Hr. destruct (I5 i x Hx Hr) as (Hd & Hn & Hv). split_and!; [done|done|]. intros Hval. rewrite (Hv Hval). cbn.
  symmetry. f_equal. apply (dnode_committed (sb f) v v' G); [done|done|]. apply HG. lia.
Qed.

(** iunlockput() of the program and end_op(). *)
Lemma wp_close_program v R f f0 ip j (Q : unit -> fsys S -> Prop) :
  icached f v (incr j R) (Some ip) -> slot_of f ip j -> G j -> tree (sb f) v G -> positive R -> (forall j, 0 < refs R j -> G j) ->
  logged v = ∅ -> opens v = 1 -> sb f = sb f0 -> kept f0 R f ->
  (forall f', files_kept v R f0 f' -> Q tt f') -> wp (iunlockput ip ;;; onblk bl_end_op) Q f.
Proof.
  intros IC Hs HGj Ht HR HG Hlog Hop Hsb Hk HQ. apply wp_bind. eapply wp_iunlockput; [exact IC|done|by apply (tr_node _ _ _ Ht)|].
  rewrite decr_incr by done. intros f1 IC1 (E1 & _) K1. eapply (wp_fs_end v R f1 f0); [done|by rewrite E1|done|done|done|congruence|by eapply kept_trans|].
  intros b Hb. by apply HQ.
Qed.

Definition exec_fails (free : list Z) (data : list Z) (argv : list (list Z)) : Prop :=
  program data argv = None \/ exists ld, program data argv = Some ld /\ scarce free (ld_size ld).

(** How exec() ends. *)
Definition exec_post s (c : nat) (p : proc) path argv t up free k o v R (target : option Z) (r : Z) s' : Prop :=
  files_kept v R (fl s) (fl s') /\
  ((r = 0 /\ exists j ld t' up' free', target = Some j /\ program (file_of v (dnode (sb (fl s)) v j)) argv = Some ld /\
      replaced t up free (mm s) k o (ld_entry ld) (ld_sp ld) (ld_size ld - 2 * PGSIZE) (ld_image ld) t' up' free' (mm s') /\
      procs (pt s') = <[c := image_proc path (root t') (ld_size ld) p]> (procs (pt s)) /\ cr3 s' = V2P (root t')) \/
   (r = -1 /\ pt s' = pt s /\ cr3 s' = cr3 s /\ undone free (mm s) (mm s') /\
      match target with Some j => exec_fails free (file_of v (dnode (sb (fl s)) v j)) argv | None => True end)).

Lemma undone_refl free m t up : uvm_at t up free m -> undone free m m.
Proof. intros Hu. exists free. split; [apply Hu|done]. Qed.

Lemma segments_size data entry top im : segments data = Some (entry, top, im) -> 0 <= top <= KERNBASE.
Proof.
  unfold segments. destruct (pread data 0 sizeof_elfhdr) as [d|]; [|done]. destruct (negb _); [done|].
  destruct (load_ref _ _ _ _ _) as [[sz im']|] eqn:E; [|done]. intros [= _ <- _]. apply load_ref_mono in E; [|mlia].
  destruct (roundup_range sz) as [_ ?]; [lia|lia|]. pose proof (roundup_below sz). lia.
Qed.

Lemma program_size data argv ld :
  program data argv = Some ld -> exists entry top im, segments data = Some (entry, top, im) /\ ld_size ld = top + 2 * PGSIZE /\ 0 <= top.
Proof.
  unfold program. destruct (segments data) as [[[entry top] im]|] eqn:E; [|done]. apply segments_size in E as Hr.
  destruct (KERNBASE <=? top + 2 * PGSIZE); [done|]. destruct (stack_ref _ _ _) as [[sp im']|]; [|done]. intros [= <-]. exists entry, top, im. split_and!; [done|done|lia].
Qed.

Lemma load_ref_length data n : forall off sz im sz' im',
  load_ref data n off sz im = Some (sz', im') -> 0 <= sz < KERNBASE -> PGROUNDUP sz = Z.of_nat (length im) -> bytes_ok data ->
  PGROUNDUP sz' = Z.of_nat (length im').
Proof.
  induction n as [|n IH]; intros off sz im sz' im' E Hsz Hl Hb; cbn [load_ref] in E; [by injection E as <- <-|].
  destruct (pread data (u32 off) sizeof_proghdr) as [d|] eqn:Ed; [|done]. destruct (negb (ph_type (get_proghdr d) =? ELF_PROG_LOAD)); [by eapply IH|].
  assert (Hd : bytes_ok d /\ length d = 32%nat).
  { unfold pread in Ed. destruct (Z.leb_spec (u32 off + sizeof_proghdr) (Z.of_nat (length data))); [|done]. injection Ed as <-.
    pose proof (u32_range off). split; [by apply slice_bytes_ok|]. apply length_slice. unfold sizeof_proghdr in *. mlia. }
  destruct Hd as [Hdb Hdl]. destruct (proghdr_u32 d Hdb Hdl) as (Ho & Hv & Hf & Hm). set (ph := get_proghdr d) in *. unfold is_u32 in *.
  destruct (seg_ok data sz ph) eqn:Eok; [|done]. apply seg_ok_spec in Eok as (H5 & H6 & H7 & _ & H8). set (sz2 := Z.max sz _) in *.
  pose proof (roundup_mono sz sz2 ltac:(lia) ltac:(lia)). destruct (roundup_range sz2) as [_ ?]; [lia|lia|].
  pose proof (length_grow im (PGROUNDUP sz2) ltac:(lia)) as Hgl. eapply IH; [exact E|lia| |done].
  rewrite length_splice; [lia|]. unfold slice. rewrite length_take. lia.
Qed.

Lemma program_args data argv ld : program data argv = Some ld -> bytes_ok data -> main_args (ld_image ld) (ld_sp ld) argv.
Proof.
  unfold program. destruct (segments data) as [[[entry top] im]|] eqn:E; [|done]. intros Hp Hb. pose proof (segments_size _ _ _ _ E) as Hr.
  unfold segments in E. destruct (pread data 0 sizeof_elfhdr) as [d|]; [|done]. destruct (negb _); [done|].
  destruct (load_ref _ _ _ _ _) as [[sz im']|] eqn:El; [|done]. injection E as _ <- <-. apply load_ref_length in El as Hl; [|mlia|done|done].
  destruct (Z.leb_spec KERNBASE (PGROUNDUP sz + 2 * PGSIZE)); [done|]. destruct (stack_ref _ _ _) as [[sp im2]|] eqn:Es; [|done]. injection Hp as <-. cbn.
  eapply stack_ref_args; [exact Es|mlia|]. apply length_grow. mlia.
Qed.

Lemma fails_scarce free data argv n : scarce free n -> (forall ld, program data argv = Some ld -> n <= ld_size ld) -> exec_fails free data argv.
Proof.
  intros Hsc Hle. unfold exec_fails. destruct (program data argv) as [ld|] eqn:E; [right|by left]. exists ld. split; [done|].
  specialize (Hle ld eq_refl). unfold scarce in *. lia.
Qed.

(** What exec() starts from: a process whose trap frame is at offset [o] of
    frame [k], a file system between system calls, and a path that leads
    nowhere or to a file. *)
Record exec_ready s (c : nat) (p : proc) t up free (k o : Z) (cwd : nat) (jc : Z) v R path argv : Prop := {
  er_user : user_proc s c p t up free;
  er_frame : frame k;
  er_tf : p_tf p = k + o;
  er_off : 0 <= o /\ o + sizeof_trapframe <= PGSIZE;
  er_used : k ∉ free;
  er_sep : ~ vm_pages t up k;
  er_cwd : p_cwd p = Some cwd;
  er_slot : slot_of (fl s) cwd jc;
  er_fs : settled v R (fl s);
  er_room : roomy nodes (fl s);
  er_path : Forall (fun a => a <> 0) path;
  er_args : Forall arg_ok argv;
  er_file : forall j, lookup_path (sb (fl s)) v jc path = Some j ->
    let x := dnode (sb (fl s)) v j in fs_at (sb (fl s)) v x /\ no_holes x v /\ regular x /\ bytes_ok (file_of v x);
}.

(** bad, with the program still open. *)
Lemma wp_bad_file s1 f0 bk m v R ip j pgdir all m0 (Q : Z -> kstate (fsys S) -> Prop) :
  icached (fl s1) v (incr j R) (Some ip) -> viewed bk v -> slot_of (fl s1) ip j -> G j -> tree (sb (fl s1)) v G -> positive R ->
  (forall j, 0 < refs R j -> G j) -> logged v = ∅ -> opens v = 1 -> sb (fl s1) = sb f0 -> kept f0 R (fl s1) ->
  (pgdir = 0 /\ undone all m0 m \/ exists t' im, pgdir = root t' /\ loads v all m0 t' bk m im) ->
  (forall s', pt s' = pt s1 -> cr3 s' = cr3 s1 -> files_kept v R f0 (fl s') -> undone all m0 (mm s') -> Q (-1) s') ->
  wp (bad pgdir (Some ip)) Q (put s1 bk m).
Proof.
  intros IC Hbk Hs HGj Ht HR HG Hlog Hop Hsb Hk Hwhat HQ. unfold bad. apply wp_bind.
  assert (Hrest : forall m', undone all m0 m' -> wp (match Some ip with Some ip => xonfs (iunlockput ip) ;;; xend_op | None => ret tt end ;;; ret (-1)) Q (put s1 bk m')).
  { intros m' Hun. pose proof (wp_close_program v R (set_blk bk (fl s1)) f0 ip j (fun _ f' => Q (-1) (set_fl f' (put s1 bk m')))) as Hclose.
    assert (Hc : wp (iunlockput ip ;;; onblk bl_end_op) (fun _ f' => Q (-1) (set_fl f' (put s1 bk m'))) (set_blk bk (fl s1))).
    { apply Hclose; try done; [by apply icached_blk|]. intros f' Hf'. by apply HQ. }
    apply wp_bind_inv in Hc. apply wp_bind. apply wp_bind, wp_zoom. eapply wp_mono; [exact Hc|]. intros [] f1 Hc1. cbn beta in Hc1.
    unfold xend_op. apply wp_zoom. eapply wp_mono; [exact Hc1|]. intros [] f2 Hc2. by apply wp_ret. }
  destruct Hwhat as [[-> Hun]|(t' & im & -> & [_ (up' & free' & Hsp)])].
  - change (0 =? 0) with true. cbv iota. apply wp_ret. by apply Hrest.
  - pose proof (root_nonzero _ _ _ _ (sp_uvm _ _ _ _ _ _ _ _ Hsp)) as Hnz. rewrite (proj2 (Z.eqb_neq _ _) Hnz). apply wp_zoom.
    eapply wp_space_free; [exact Hsp|]. intros free2 m' K1 K2 K3. apply (Hrest m'). by exists free2.
Qed.

Lemma wp_exec_file s c p t up free k o cwd jc v R path argv f1 ip j :
  exec_ready s c p t up free k o cwd jc v R path argv -> lookup_path (sb (fl s)) v jc path = Some j ->
  icached f1 v (incr j R) (Some ip) -> slot_of f1 ip j -> G j -> sb f1 = sb (fl s) -> kept (fl s) R f1 -> positive R ->
  wp (exec_file dev_read c path argv ip) (exec_post s c p path argv t up free k o v R (Some j)) (set_fl f1 s).
Proof.
  intros [[Hcur Hp Hks Hpg Hu Him Hsz] Hkf Htf Ho Hkfree Hkv _ _ [Hi Ht _ HG] _ _ Hargs Hfile] Hj IC Hs HGj Hsb Hk HR.
  destruct (law_idle _ _ Hi) as (Hlog & _ & _ & Hop). destruct (Hfile j Hj) as (Hat & Hnh & Hreg & Hby). set (xd := dnode (sb (fl s)) v j) in *.
  destruct (locked_copy _ _ _ _ _ IC Hs) as (x & Hx & Hxn & Hxd & Hxc). rewrite Hsb in Hxc. fold xd in Hxc. symmetry in Hxc.
  assert (Hat' : fs_at (sb (fl (set_fl f1 s))) v x) by (cbn; rewrite Hsb; by apply (fs_at_copied _ _ xd)).
  pose proof (no_holes_copied v xd x Hxc Hnh) as Hnh'. pose proof (file_of_copied v xd x Hxc) as Ef. symmetry in Ef.
  assert (Hreg' : regular x) by (destruct (copied_fields _ _ Hxc) as (E1 & _ & E3 & _); destruct Hreg; split; by rewrite <- ?E1, <- ?E3).
  assert (Hby' : bytes_ok (file_of v x)) by (by rewrite Ef). pose proof (idle_spare _ _ Hi) as Hspare.
  set (s1 := set_fl f1 s) in *. assert (Hbk : viewed (blk f1) v) by apply IC.
  assert (Hbad : forall bk m pgdir, viewed bk v -> (pgdir = 0 /\ undone free (mm s) m \/ exists t' im, pgdir = root t' /\ loads v free (mm s) t' bk m im) ->
    exec_fails free (file_of v xd) argv -> wp (bad pgdir (Some ip)) (exec_post s c p path argv t up free k o v R (Some j)) (put s1 bk m)).
  { intros bk m pgdir Hb Hw Hwhy. eapply (wp_bad_file s1 (fl s) bk m v R ip j); try done; [cbn; by rewrite Hsb|].
    intros s' E1 E2 Hfk Hun. split; [done|]. right. done. }
  replace s1 with (put s1 (blk f1) (mm s)) by (by destruct s, f1). unfold exec_file.
  apply wp_bind. eapply (wp_read_bytes s1 v ip x); [exact Hx|done..|by vm_compute|].
  intros bk r d Hb Hdb _ Hr. change (u32 0) with 0 in Hr. rewrite Ef in Hr. destruct (pread (file_of v xd) 0 sizeof_elfhdr) as [d'|] eqn:Ed.
  2: { rewrite (proj2 (Z.eqb_neq _ _) Hr). cbn [negb]. apply Hbad; [done|left; split; [done|by eapply undone_refl]|]. left. unfold program, segments. by rewrite Ed. }
  destruct Hr as [-> ->]. rewrite Z.eqb_refl. cbn [negb]. set (elf := get_elfhdr d') in *.
  destruct (negb (e_magic elf =? ELF_MAGIC)) eqn:Em.
  { apply Hbad; [done|left; split; [done|by eapply undone_refl]|]. left. unfold program, segments. rewrite Ed. fold elf. by rewrite Em. }
  assert (Hnd : NoDup free) by apply (ka_nodup _ _ (va_kmem _ _ _ (uv_vm _ _ _ _ Hu))).
  assert (Eseg : segments (file_of v xd) = match load_ref (file_of v xd) (Z.to_nat (e_phnum elf)) (e_phoff elf) 0 [] with
    | None => None | Some (sz, im) => Some (e_entry elf, PGROUNDUP sz, im) end) by (unfold segments; rewrite Ed; fold elf; by rewrite Em).
  apply wp_bind, wp_zoom. change (mm (put s1 bk (mm s))) with (mm s). eapply wp_setupkvm; [apply Hu| |].
  2: { intros free' m' Hk' Hiff Hram Hsh. change (0 =? 0) with true. cbv iota. change (set_mm m' (put s1 bk (mm s))) with (put s1 bk m').
    apply Hbad; [done|left; split; [done|by exists free']|]. apply (fails_scarce _ _ _ 0); [unfold scarce, short in *; mlia|]. intros ld Hld. apply program_size in Hld as (e & top & im & _ & -> & ?). mlia. }
  intros t0 free0 m1 Hbuilt. pose proof (space_empty free (mm s) t0 free0 m1 Hbuilt) as Hspace.
  rewrite (proj2 (Z.eqb_neq _ _) (root_nonzero _ _ _ _ (sp_uvm _ _ _ _ _ _ _ _ Hspace))).
  apply wp_bind. change (set_mm m1 (put s1 bk (mm s))) with (put s1 bk m1).
  eapply (wp_load_segments s1 v ip x Hx Hat' Hnh' Hspare Hreg' Hby' free (mm s) Hnd _ t0 bk m1 [] _ 0); rewrite ?Ef.
  { split; [done|]. by exists ∅, free0. } { mlia. } { done. }
  2: { intros t' bk' m' im' Hrt Hno Hl. rewrite <- Hrt. apply Hbad; [apply Hl|right; by exists t', im'|].
    destruct Hno as [E|(sz' & im2 & E & Hsc)]; rewrite Ef, E in *; [left; unfold program; by rewrite Eseg|].
    apply (fails_scarce _ _ _ _ Hsc). intros ld Hld. apply program_size in Hld as (e & top & im3 & E3 & -> & _). rewrite Eseg in E3. injection E3 as _ <- _. mlia. }
  intros t' bk' m' sz' im' Hrt E [Hb' (up' & free' & Hs')] Hsz' Him'. rewrite <- Hrt. rewrite E in Eseg.
  assert (Hc : wp (iunlockput ip ;;; onblk bl_end_op) (fun _ f' => wp (exec_image c path argv elf (root t') sz')
    (exec_post s c p path argv t up free k o v R (Some j)) (set_fl f' (put s1 bk' m'))) (set_blk bk' f1)).
  { eapply (wp_close_program v R _ (fl s) ip j); try done; [by apply icached_blk|cbn; by rewrite Hsb|]. intros f' Hfk.
    eapply (wp_exec_image t up free (mm s) Hu k o Hkf Ho Hkfree Hkv _ c p path argv elf t' up' free' sz' im' Hnd); try done.
    - intros ld t2 up2 free2 m2 Hfin Hrep. split; [done|]. left. split; [done|]. exists j, ld, t2, up2, free2. split_and!; try done.
      unfold program. fold xd. rewrite Eseg. exact Hfin.
    - intros m2 Hwhy Hun. split; [done|]. right. split_and!; try done. fold xd. destruct Hwhy as [Hn|Hsc]; [left; unfold program; by rewrite Eseg|].
      apply (fails_scarce _ _ _ _ Hsc). intros ld Hld. apply program_size in Hld as (e & top & im3 & E3 & -> & _). rewrite Eseg in E3. injection E3 as _ <- _. lia. }
  apply wp_bind_inv in Hc. apply wp_bind, wp_zoom. eapply wp_mono; [exact Hc|]. intros [] f2 Hc1. cbn beta in Hc1.
  apply wp_bind. unfold xend_op. apply wp_zoom. eapply wp_mono; [exact Hc1|]. intros [] f3 Hc2. exact Hc2.
Qed.

(** C6: exec() of a path, whatever bytes the file has: it returns 0 with the
    memory of the process replaced by the image of the program (its segments,
    a page that is not accessible and the stack), where main finds its
    arguments, the trap frame at the entry point and the old memory freed; or
    -1 with the process and its memory as they were.  It fails only when the
    path leads nowhere, the file is not a program that fits or pages run out;
    the counts of the inodes are as before, no transaction is left open and no
    page is lost. *)
Theorem exec_correct s c p t up free k o cwd jc v R path argv :
  exec_ready s c p t up free k o cwd jc v R path argv ->
  wp (exec dev_read path argv) (fun r s' =>
    files_kept v R (fl s) (fl s') /\
    ((r = 0 /\ exists j ld t' up' free', lookup_path (sb (fl s)) v jc path = Some j /\
        program (file_of v (dnode (sb (fl s)) v j)) argv = Some ld /\ main_args (ld_image ld) (ld_sp ld) argv /\
        replaced t up free (mm s) k o (ld_entry ld) (ld_sp ld) (ld_size ld - 2 * PGSIZE) (ld_image ld) t' up' free' (mm s') /\
        procs (pt s') = <[c := image_proc path (root t') (ld_size ld) p]> (procs (pt s)) /\ cr3 s' = V2P (root t')) \/
     (r = -1 /\ pt s' = pt s /\ cr3 s' = cr3 s /\
        (exists free', free' ≡ₚ free /\ uvm_at t up free' (mm s')) /\
        (forall va, user_byte up (ram (mm s')) va = user_byte up (ram (mm s)) va) /\
        forall j, lookup_path (sb (fl s)) v jc path = Some j -> exec_fails free (file_of v (dnode (sb (fl s)) v j)) argv))) s.
Proof.
  intros Hr. pose proof Hr as [[Hcur Hp Hks Hpg Hu Him Hsz] _ _ _ _ _ Hcwd Hslot [Hi Ht Hc HG] Hroom Hnz _ _].
  destruct (law_idle _ _ Hi) as (Hlog & _ & _ & Hop). pose proof (idle_spare _ _ Hi) as Hsp.
  unfold exec. apply wp_bind. eapply (wp_myproc c); [done|]. apply wp_bind. unfold xbegin_op. apply wp_zoom. unfold onblk. apply wp_zoom.
  eapply law_begin; [exact Hi|]. intros b Hb. set (s0 := set_fl (set_blk b (fl s)) s). apply wp_bind. eapply wp_get_proc; [exact Hp|].
  apply wp_bind. eapply wp_from_some; [exact Hcwd|]. apply wp_bind, wp_zoom. change (fl s0) with (set_blk b (fl s)).
  eapply (wp_namei G dev_read nodes Hnodes Hroot _ v R cwd jc path); [by apply Hc|done|exact Hslot|done|done|done|done|].
  intros ip f1 S1 K1 Hres. change (sb (set_blk b (fl s))) with (sb (fl s)) in Hres. pose proof S1 as (Esb & _). cbn in Esb.
  assert (HR : positive R) by apply (ic_pos _ _ _ _ (Hc b Hb)). destruct (lookup_path (sb (fl s)) v jc path) as [j|] eqn:Ej.
  2: { destruct Hres as [-> IC]. apply wp_bind. unfold xend_op. apply wp_zoom.
    eapply (wp_fs_end v R f1 (fl s)); [exact IC|by rewrite Esb|done|done|done|done|exact K1|]. intros b' Hfk. apply wp_ret. split; [exact Hfk|].
    right. split_and!; try done. by exists free. }
  destruct Hres as (i & -> & Hs & HGj & IC). destruct (tr_node _ _ _ Ht j HGj) as (Hj & Hty & Hnl).
  apply wp_bind, wp_zoom. change (fl (set_fl f1 s0)) with f1.
  eapply wp_ilock; [exact IC|done|rewrite Esb; apply Ht|apply Ht|done|rewrite Esb; lia|by rewrite Esb|].
  intros f2 IC2 Hs2 (Esb2 & _) K2%kept_incr. change (set_fl f2 (set_fl f1 s0)) with (set_fl f2 s).
  eapply wp_mono; [eapply (wp_exec_file s c p t up free k o cwd jc v R path argv f2 i j); [done|done|done|done|done|congruence|by eapply kept_trans|done]|].
  intros r s' [Hfk [[-> (j' & ld & t' & up' & free' & [= <-] & Hpr & Hrep & Hpt & Hcr)]|(-> & Hpt & Hcr & (free' & Hk' & Hiff & Hram) & Hwhy)]]; (split; [done|]).
  - left. split; [done|]. exists j, ld, t', up', free'. split_and!; try done. eapply program_args; [exact Hpr|].
    by destruct (er_file _ _ _ _ _ _ _ _ _ _ _ _ _ _ Hr j Ej) as (_ & _ & _ & ?).
  - right. split_and!; try done.
    + exists free'. split; [by eapply same_frames; [apply Hu|..]|]. eapply parent_kept; [exact Hu|done| |done]. intros w. by rewrite Hiff.
    + intros va. by eapply (user_byte_frame t up free).
    + intros j' [= <-]. done.
Qed.

End whole.
End spec.
