(* ===== verification/ExecExample.v ===== *)
(** exec(): a small program, and the theorem at the file system of FsExample.v
    with the process of ProcFork.v. *)

From S2P Require Import Prelude Params Bytes CString Buf Memide Bio BioSpec Log LogSpec Tx Crash Ops Fs FsBlocks FsFile FsDir FsPath FsExample FsPathExample Kalloc Vm VmSpec VmFork VmThms Spinlock Proc ProcSpec ProcRefine ProcFork ProcMem Pipe File FileSpec FileExample Syscall Sysfile SysfileSpec SysfileExample Exec ExecMem ExecSpec.
Import Kalloc.Machine VmThms.Example ProcFork.Example.
#[local] Existing Instances Memide.memide_dev Memide.memide_laws.

(** An ELF file with one segment of two bytes, which takes 5000 bytes at
    address 0: jmp to itself. *)
Definition jmp_elf : list Z :=
  put_u32 0 ELF_MAGIC (put_u32 28 52 (put_le 2 44 1 (replicate 52 0))) ++
  concat (le_of 4 <$> [ELF_PROG_LOAD; 84; 0; 0; 2; 5000; 5; 4096]) ++ [235; 254].

(** Two pages of it, the page that is not accessible, and the stack with the
    string "hi" below its top and the frame of main below that. *)
Example program_jmp :
  match program jmp_elf [[104; 105]] with
  | Some ld => (ld_entry ld, ld_size ld, ld_sp ld, slice 0 4 (ld_image ld), slice 16360 24 (ld_image ld)) =
      (0, 16384, 16360, [235; 254; 0; 0], concat (le_of 4 <$> [0xffffffff; 1; 16372; 16380; 0]) ++ [104; 105; 0; 0])
  | None => False
  end.
Proof. vm_compute. reflexivity. Qed.

(** A file that ends within its segment is not a program. *)
Example program_short : program (take 85 jmp_elf) [[104; 105]] = None.
Proof. vm_compute. reflexivity. Qed.

(** ** The witness *)

#[local] Opaque dnode booted v0.

Definition runner : proc := set_p_cwd (Some 1%nat) caller.
Definition ks1 : kstate (fsys (logsys Memide.memide)) :=
  mkks (mkptab false (runner :: replicate 63 ProcSpec.Example.slot0) 2 (Some 0%nat)) (Some 0%nat) (mkcpu 0 false false) 0 0 false VmThms.Example.s1 (fsy (ksys kern0)).

Lemma hello_file : file_of v0 (dnode sb0 v0 2) = hello.
Proof.
  rewrite (file_of_copied v0 _ (inode_of 2)) by (apply dnode0; right; by left). change (inode_of 2) with y0.
  apply list_eq. intros i. unfold file_of, file_bytes. rewrite list_lookup_fmap. change (Z.to_nat (i_size y0)) with 5%nat.
  destruct (decide (i < 5)%nat) as [Hi|Hi]; [|rewrite lookup_seq_ge by lia; symmetry; apply lookup_ge_None_2; cbn; lia].
  rewrite lookup_seq_lt by done. cbn [fmap option_fmap option_map]. unfold file_byte, file_block, addr_of, BSIZE.
  rewrite Z.div_small, Z.mod_small by lia. change (0 <? NDIRECT) with true. cbn iota. change (default 0 (i_addrs y0 !! Z.to_nat 0)) with 34.
  change (34 =? 0) with false. cbn iota. rewrite content0 by (unfold in_log; lia).
  do 5 (destruct i as [|i]; [vm_compute; reflexivity|]). lia.
Qed.

Lemma ks1_ready : exec_ready G0 [1; 2; 3] ks1 0 runner (VmThms.Example.pt B1) (us B1) [F1] KP 4020 1 1 v0 R2 path0 [hello].
Proof.
  split.
  - split; try done; [exact space1|]. intros k. split; [|intros [Hm Hk]; by apply us_below].
    unfold us. intros [x [<- _]%lookup_singleton_Some]. done.
  - by vm_compute.
  - done.
  - by vm_compute.
  - by intros ?%list_elem_of_singleton.
  - intros [Hin|[a Ha]]; [|unfold us in Ha; by apply lookup_singleton_Some in Ha as [_ ?]].
    unfold pages_of in Hin. cbn in Hin. by rewrite map_img_singleton_L, elem_of_union, !elem_of_singleton in Hin; destruct Hin.
  - done.
  - exists cwd0. by split_and!.
  - split; [apply booted_idle|apply tree0|apply kern0_cached|]. intros j. rewrite refs_R2. case_decide as Hj; [|done]. intros _. unfold G0. lia.
  - exact kern0_roomy.
  - unfold path0. repeat constructor; lia.
  - constructor; [|constructor]. split; [|done]. repeat constructor; unfold byte_ok; lia.
  - intros j Hj. assert (E : resolve sb0 v0 false 1 [[100]; [102]] = Some j) by exact Hj.
    rewrite resolve0 in E. injection E as <-. destruct (copied_fields _ _ (dnode0 2 ltac:(right; by left))) as (E1 & _ & E5 & E6).
    cbv zeta. change (sb (fl ks1)) with sb0. split_and!.
    + apply (one_at _ 34); [done|by rewrite E6|lia].
    + apply (one_holes _ 34); [by rewrite E6|lia|rewrite E5; by vm_compute].
    + split; [rewrite E1; discriminate|]. rewrite E5, MAXFILE_val. change (i_size (inode_of 2)) with 5. unfold BSIZE. lia.
    + cbn. rewrite hello_file. repeat constructor; unfold byte_ok; lia.
Qed.

(** "hello" is not a program. *)
Lemma exec_correct_witness :
  program hello [hello] = None /\
  wp (exec no_read path0 [hello]) (fun r s' => files_kept G0 v0 R2 (fl ks1) (fl s')) ks1.
Proof.
  split; [by vm_compute|].
  eapply wp_mono; [apply (exec_correct no_read G0 [1; 2; 3] G0_nodes ltac:(by left) ks1 0 runner (VmThms.Example.pt B1) (us B1) [F1] KP 4020 1 1 v0 R2 path0 [hello] ks1_ready)|].
  intros r s' [Hk _]. exact Hk.
Defined.
