(* ===== verification/Grep.v ===== *)
(** grep.c: the regular-expression matcher, and the loop over the lines of a
    file.  A string is the list of its bytes without the terminating zero. *)

From S2P Require Import Prelude.

Definition CARET : Z := 94.
Definition DOT : Z := 46.
Definition STAR : Z := 42.
Definition DOLLAR : Z := 36.
Definition NEWLINE : Z := 10.

(** matchstar(c, re, text), with [mh] for matchhere(re, -) *)
Fixpoint matchstar (mh : list Z -> bool) (c : Z) (text : list Z) : bool :=
  if mh text then true
  else match text with
       | [] => false
       | t :: text => if (t =? c) || (c =? DOT) then matchstar mh c text else false
       end.

Fixpoint matchhere (re text : list Z) : bool :=
  match re with
  | [] => true
  | c :: re1 =>
      match re1 with
      | s :: re2 =>
          if s =? STAR then matchstar (matchhere re2) c text
          else match text with
               | t :: text => if (c =? DOT) || (c =? t) then matchhere re1 text else false
               | [] => false
               end
      | [] =>
          if c =? DOLLAR then match text with [] => true | _ :: _ => false end
          else match text with
               | t :: text => if (c =? DOT) || (c =? t) then matchhere re1 text else false
               | [] => false
               end
      end
  end.

(** The loop of match(): every suffix of the text, the empty one too. *)
Fixpoint match_any (re text : list Z) : bool :=
  if matchhere re text then true
  else match text with
       | [] => false
       | _ :: text => match_any re text
       end.

Definition match_ (re text : list Z) : bool :=
  match re with
  | c :: re1 => if c =? CARET then matchhere re1 text else match_any re text
  | [] => match_any re text
  end.

(** ** grep()

    The bytes of buf[0..m) after a read(); strchr(p, '\n') stops at a zero
    byte. *)
Fixpoint find_line (p : list Z) : option (list Z * list Z) :=
  match p with
  | [] => None
  | c :: p =>
      if c =? 0 then None
      else if c =? NEWLINE then Some ([], p)
      else match find_line p with
           | Some (line, rest) => Some (c :: line, rest)
           | None => None
           end
  end.

(** The inner loop: what it writes, and the bytes from the final p on. *)
Fixpoint grep_lines (fuel : nat) (pattern p : list Z) : list Z * list Z :=
  match fuel with
  | O => ([], p)
  | S fuel =>
      match find_line p with
      | None => ([], p)
      | Some (line, rest) =>
          let '(out, p) := grep_lines fuel pattern rest in
          ((if match_ pattern line then line ++ [NEWLINE] else []) ++ out, p)
      end
  end.

(** One iteration of the outer loop, after a read() of [chunk] behind the
    bytes [m] that were kept: what is written, and what is kept. *)
Definition grep_chunk (pattern m chunk : list Z) : list Z * list Z :=
  let buf := m ++ chunk in
  let '(out, p) := grep_lines (length buf) pattern buf in
  (out, if bool_decide (length p = length buf) then [] else p).

(** The results of read() up to the first one that is not positive. *)
Fixpoint grep (pattern m : list Z) (reads : list (list Z)) : list Z :=
  match reads with
  | [] => []
  | [] :: _ => []
  | chunk :: reads =>
      let '(out, m) := grep_chunk pattern m chunk in
      out ++ grep pattern m reads
  end.

(** ** What a pattern means *)

Inductive elem := One (a : Z) | Star (a : Z).

(** The elements, and whether there is a $ at the end. *)
Fixpoint parse (re : list Z) : list elem * bool :=
  match re with
  | [] => ([], false)
  | c :: re1 =>
      match re1 with
      | s :: re2 =>
          if s =? STAR then let '(l, d) := parse re2 in (Star c :: l, d)
          else let '(l, d) := parse re1 in (One c :: l, d)
      | [] => if c =? DOLLAR then ([], true) else ([One c], false)
      end
  end.

Definition accepts (a t : Z) : Prop := a = DOT \/ a = t.

Definition elem_lang (e : elem) (u : list Z) : Prop :=
  match e with
  | One a => exists t, u = [t] /\ accepts a t
  | Star a => Forall (accepts a) u
  end.

Fixpoint lang (l : list elem) (u : list Z) : Prop :=
  match l with
  | [] => u = []
  | e :: l => exists u1 u2, u = u1 ++ u2 /\ elem_lang e u1 /\ lang l u2
  end.

(** The expression matches at the beginning of the text. *)
Definition matches_here (re text : list Z) : Prop :=
  let '(l, d) := parse re in
  exists u v, text = u ++ v /\ lang l u /\ (d = true -> v = []).

Lemma accepts_spec a t : (a =? DOT) || (a =? t) = true <-> accepts a t.
Proof. unfold accepts. rewrite orb_true_iff, !Z.eqb_eq. done. Qed.

(** c* followed by the rest of the expression *)
Lemma matchstar_spec mh c text :
  matchstar mh c text = true <-> exists u v, text = u ++ v /\ Forall (accepts c) u /\ mh v = true.
Proof.
  induction text as [|t text IH]; cbn.
  - destruct (mh []) eqn:E; split; try done.
    + intros _. by exists [], [].
    + intros (u&v&Huv&_&Hv). symmetry in Huv. apply app_nil in Huv as [-> ->]. congruence.
  - destruct (mh (t :: text)) eqn:E.
    { split; [|done]. intros _. by exists [], (t :: text). }
    assert ((t =? c) || (c =? DOT) = (c =? DOT) || (c =? t)) as -> by (rewrite orb_comm; f_equal; apply Z.eqb_sym).
    destruct ((c =? DOT) || (c =? t)) eqn:Ea.
    + apply accepts_spec in Ea. rewrite IH. split.
      * intros (u&v&->&Hu&Hv). exists (t :: u), v. split; [done|]. split; [by constructor|done].
      * intros ([|x u]&v&Huv&Hu&Hv); [cbn in Huv; congruence|]. injection Huv as <- ->.
        apply Forall_cons in Hu as [_ Hu]. by exists u, v.
    + split; [done|]. intros ([|x u]&v&Huv&Hu&Hv); [cbn in Huv; congruence|]. injection Huv as <- ->.
      apply Forall_cons in Hu as [Hu%accepts_spec _]. congruence.
Qed.

Lemma lang_one c l text (P : list Z -> Prop) :
  (exists u v, text = u ++ v /\ lang (One c :: l) u /\ P v) <->
  exists t text', text = t :: text' /\ accepts c t /\ exists u v, text' = u ++ v /\ lang l u /\ P v.
Proof.
  split.
  - intros (u&v&->&(u1&u2&->&(t&->&Ha)&Hl)&HP). exists t, (u2 ++ v). split; [done|]. split; [done|]. by exists u2, v.
  - intros (t&?&->&Ha&u&v&->&Hl&HP). exists (t :: u), v. split; [done|]. split; [|done]. exists [t], u. split; [done|]. split; [by exists t|done].
Qed.

Lemma one_step c (b : bool) text (P : list Z -> bool) (Q : list Z -> Prop) :
  (forall text', P text' = true <-> Q text') ->
  match text with t :: text' => if (c =? DOT) || (c =? t) then P text' else false | [] => false end = true <->
  exists t text', text = t :: text' /\ accepts c t /\ Q text'.
Proof.
  intros HP. destruct text as [|t text].
  - split; [done|]. by intros (?&?&?&_).
  - destruct ((c =? DOT) || (c =? t)) eqn:E.
    + rewrite HP. apply accepts_spec in E. split; [eauto|]. by intros (?&?&[= <- <-]&_&?).
    + split; [done|]. intros (?&?&[= <- <-]&Ha%accepts_spec&_). congruence.
Qed.

Lemma parse_cons c s re2 :
  parse (c :: s :: re2) =
    if s =? STAR then let '(l, d) := parse re2 in (Star c :: l, d)
    else let '(l, d) := parse (s :: re2) in (One c :: l, d).
Proof. done. Qed.

Lemma matchhere_cons c s re2 text :
  matchhere (c :: s :: re2) text =
    if s =? STAR then matchstar (matchhere re2) c text
    else match text with
         | t :: text => if (c =? DOT) || (c =? t) then matchhere (s :: re2) text else false
         | [] => false
         end.
Proof. done. Qed.

Lemma matchhere_spec re : forall text, matchhere re text = true <-> matches_here re text.
Proof.
  induction re as [re IH] using (well_founded_induction (well_founded_ltof _ (@length Z))). intros text. unfold matches_here.
  destruct re as [|c [|s re2]]; [cbn [matchhere parse]..|rewrite parse_cons, matchhere_cons].
  - split; [|done]. intros _. exists [], text. done.
  - destruct (c =? DOLLAR).
    + destruct text as [|t text]; (split; [|]); try done.
      * intros _. by exists [], [].
      * intros (u&v&Huv&->&Hv). rewrite Hv in Huv by done. done.
    + rewrite (lang_one c [] text (fun v => false = true -> v = [])). eapply (one_step c true). intros text'. split; [|done].
      intros _. exists [], text'. done.
  - destruct (s =? STAR) eqn:Es.
    + rewrite matchstar_spec. destruct (parse re2) as [l d] eqn:Ep.
      assert (forall v, matchhere re2 v = true <-> exists u w, v = u ++ w /\ lang l u /\ (d = true -> w = [])) as IH2.
      { intros v. rewrite IH by (unfold ltof; cbn; lia). unfold matches_here. by rewrite Ep. }
      split.
      * intros (u&v&->&Hu&(u2&w&->&Hl&Hd)%IH2). exists (u ++ u2), w. rewrite app_assoc. split; [done|]. split; [|done]. by exists u, u2.
      * intros (u&w&->&(u1&u2&->&Hs&Hl)&Hd). exists u1, (u2 ++ w). rewrite app_assoc. split; [done|]. split; [done|].
        apply IH2. by exists u2, w.
    + destruct (parse (s :: re2)) as [l d] eqn:Ep.
      etransitivity; [|symmetry; exact (lang_one c l text (fun v => d = true -> v = []))].
      refine (one_step c true text (matchhere (s :: re2)) (fun text' => exists u v, text' = u ++ v /\ lang l u /\ (d = true -> v = [])) _).
      intros text'. rewrite IH by (unfold ltof; cbn; lia). unfold matches_here. by rewrite Ep.
Qed.

(** The whole expression: ^ ties it to the beginning of the text. *)
Definition matches (re text : list Z) : Prop :=
  match re with
  | c :: re1 => if c =? CARET then matches_here re1 text
                else exists pre rest, text = pre ++ rest /\ matches_here re rest
  | [] => True
  end.

Lemma match_any_spec re text :
  match_any re text = true <-> exists pre rest, text = pre ++ rest /\ matches_here re rest.
Proof.
  induction text as [|t text IH]; cbn [match_any]; destruct (matchhere re _) eqn:E.
  1, 3: split; [|done]; intros _; apply matchhere_spec in E; eexists []; eauto.
  - split; [done|]. intros (pre&rest&Hpr&Hm). symmetry in Hpr. apply app_nil in Hpr as [-> ->].
    apply matchhere_spec in Hm. congruence.
  - rewrite IH. split.
    + intros (pre&rest&->&Hm). by exists (t :: pre), rest.
    + intros ([|x pre]&rest&Hpr&Hm); [cbn in Hpr; subst rest; apply matchhere_spec in Hm; congruence|].
      injection Hpr as <- ->. eauto.
Qed.

(** C31: the recursive matcher decides the language of the expression: match()
    returns 1 exactly when the text has a part, at its beginning with ^ and at
    its end with $, that is a word of the concatenation of the elements, each
    a character, any character, or any number of one of them. *)
Theorem match_correct re text : match_ re text = true <-> matches re text.
Proof.
  unfold match_, matches. destruct re as [|c re].
  - split; [done|]. intros _. apply match_any_spec. exists [], text. split; [done|]. by exists [], text.
  - destruct (c =? CARET); [apply matchhere_spec|apply match_any_spec].
Qed.

(** ** Lines *)

(** The complete lines of a text, and what follows the last newline. *)
Fixpoint split_lines (s : list Z) : list (list Z) * list Z :=
  match s with
  | [] => ([], [])
  | c :: s =>
      let '(ls, t) := split_lines s in
      if c =? NEWLINE then ([] :: ls, t)
      else match ls with
           | [] => ([], c :: t)
           | l :: ls => ((c :: l) :: ls, t)
           end
  end.

Definition unlines (ls : list (list Z)) : list Z := concat ((fun l => l ++ [NEWLINE]) <$> ls).

Definition selected (pattern s : list Z) : list Z := unlines (List.filter (match_ pattern) (split_lines s).1).

Lemma find_line_spec s : Forall (fun c => c <> 0) s ->
  split_lines s = match find_line s with
                  | Some (line, rest) => (line :: (split_lines rest).1, (split_lines rest).2)
                  | None => ([], s)
                  end.
Proof.
  induction 1 as [|c s Hc Hs IH]; cbn [split_lines find_line]; [done|].
  rewrite (proj2 (Z.eqb_neq c 0)), IH by done. destruct (c =? NEWLINE) eqn:E.
  - rewrite <- IH. by destruct (split_lines s).
  - destruct (find_line s) as [[line rest]|]; done.
Qed.

Lemma find_line_len s line rest : find_line s = Some (line, rest) ->
  s = line ++ NEWLINE :: rest /\ (length rest < length s)%nat.
Proof.
  revert line. induction s as [|c s IH]; intros line; cbn; [done|]. destruct (c =? 0); [done|].
  destruct (Z.eqb_spec c NEWLINE) as [->|Hc]; [intros [= <- <-]; cbn; split; [done|lia]|].
  destruct (find_line s) as [[l r]|]; [|done]. intros [= <- <-]. destruct (IH l eq_refl) as [-> Hl]. split; [done|lia].
Qed.

Lemma grep_lines_spec pattern fuel : forall s,
  Forall (fun c => c <> 0) s -> (length s <= fuel)%nat ->
  grep_lines fuel pattern s = (selected pattern s, (split_lines s).2).
Proof.
  unfold selected. induction fuel as [|fuel IH]; intros s Hs Hf; cbn [grep_lines].
  - destruct s; [done|cbn in Hf; lia].
  - rewrite (find_line_spec s Hs). destruct (find_line s) as [[line rest]|] eqn:E; [|done].
    apply find_line_len in E as [-> Hlt]. rewrite IH; [|by apply Forall_app in Hs as [_ [_ ?]%Forall_cons]|lia].
    cbn. by destruct (match_ pattern line).
Qed.

Lemma split_lines_app s t :
  split_lines (s ++ t) = ((split_lines s).1 ++ (split_lines ((split_lines s).2 ++ t)).1, (split_lines ((split_lines s).2 ++ t)).2).
Proof.
  induction s as [|c s IH]; cbn [split_lines app]; [cbn; by destruct (split_lines t)|].
  rewrite IH. destruct (split_lines s) as [ls r]; cbn [fst snd]. destruct (c =? NEWLINE) eqn:E; [done|].
  destruct ls as [|l ls]; [|done]. cbn [fst snd app split_lines]. destruct (split_lines (r ++ t)) as [ls' r']; cbn [fst snd].
  rewrite E. by destruct ls'.
Qed.

Lemma split_lines_no_newline s : NEWLINE ∉ s -> split_lines s = ([], s).
Proof.
  induction s as [|c s IH]; [done|]. intros [Hc Hs]%not_elem_of_cons. cbn. rewrite IH by done.
  by rewrite (proj2 (Z.eqb_neq _ _)).
Qed.

Lemma split_lines_tail s : (NEWLINE ∉ (split_lines s).2) /\ (NEWLINE ∈ s -> (length (split_lines s).2 < length s)%nat).
Proof.
  induction s as [|c s [IH1 IH2]]; cbn; [split; [apply not_elem_of_nil|intros ?%elem_of_nil; done]|].
  destruct (split_lines s) as [ls t] eqn:E; cbn in *.
  assert (length t <= length s)%nat as Hle.
  { destruct (decide (NEWLINE ∈ s)) as [Hin|Hn]; [specialize (IH2 Hin); lia|].
    rewrite split_lines_no_newline in E by done. by injection E as _ <-. }
  destruct (Z.eqb_spec c NEWLINE) as [->|Hc]; [split; [done|cbn; lia]|].
  destruct ls as [|l ls]; cbn; (split; [|intros [E0|Hin]%elem_of_cons; [congruence|specialize (IH2 Hin); lia]]).
  - by apply not_elem_of_cons.
  - done.
Qed.

(** grep() writes exactly the lines of its input that match, in order,
    whatever the sizes of the pieces that read() returns, as long as each
    piece has a newline. *)
Theorem grep_selects pattern reads :
  Forall (fun chunk => NEWLINE ∈ chunk /\ Forall (fun c => c <> 0) chunk) reads ->
  grep pattern [] reads = selected pattern (concat reads).
Proof.
  cut (forall m, NEWLINE ∉ m -> Forall (fun c => c <> 0) m ->
    Forall (fun chunk => NEWLINE ∈ chunk /\ Forall (fun c => c <> 0) chunk) reads ->
    grep pattern m reads = selected pattern (m ++ concat reads)).
  { intros Hcut Hr. apply Hcut; [apply not_elem_of_nil|constructor|done]. }
  induction reads as [|chunk reads IH]; intros m Hm Hz Hr; cbn [grep concat].
  - unfold selected. by rewrite app_nil_r, split_lines_no_newline.
  - apply Forall_cons in Hr as [[Hnl Hcz] Hr]. destruct chunk as [|c0 chunk0]; [by apply elem_of_nil in Hnl|].
    set (chunk := c0 :: chunk0) in *. unfold grep_chunk.
    assert (Forall (fun c => c <> 0) (m ++ chunk)) as Hall by (by apply Forall_app).
    rewrite grep_lines_spec by done. destruct (split_lines_tail (m ++ chunk)) as [Ht1 Ht2].
    specialize (Ht2 ltac:(apply elem_of_app; by right)). rewrite bool_decide_false by lia.
    rewrite IH; [|done| |done].
    + unfold selected. rewrite app_assoc, (split_lines_app (m ++ chunk)). cbn [fst]. unfold unlines.
      by rewrite List.filter_app, fmap_app, concat_app.
    + clear -Hall. induction (m ++ chunk) as [|c s IH]; [done|]. apply Forall_cons in Hall as [Hc Hs]. specialize (IH Hs).
      cbn. destruct (split_lines s) as [ls t]; cbn in *. destruct (c =? NEWLINE); [done|]. destruct ls; cbn; [by constructor|done].
Qed.

Module Example.

(** "ab\n" "xa\nb\n" searched for "a" *)
Lemma grep_selects_witness :
  grep [97] [] [[97; 98; 10]; [120; 97; 10; 98; 10]] = selected [97] (concat [[97; 98; 10]; [120; 97; 10; 98; 10]]).
Proof.
  apply (grep_selects [97] [[97; 98; 10]; [120; 97; 10; 98; 10]]).
  repeat constructor; try discriminate; apply list_elem_of_In; cbn; tauto.
Defined.

(** A line that read() delivers in two pieces is lost: "ab" then "c\n". *)
Theorem grep_loses_split_line : grep [97] [] [[97; 98]; [99; 10]] = [] /\ selected [97] [97; 98; 99; 10] = [97; 98; 99; 10].
Proof. done. Qed.

End Example.
