(* ===== verification/Ulib.v ===== *)
(** ulib.c: the C library of user programs.

    A string is the list of its bytes (0 to 255) without the terminating
    zero; memory is a function from addresses to bytes as in CString.v.
    stat() only makes system calls and is left out. *)

From Stdlib Require Import ZifyBool.
From S2P Require Import Prelude Params Bytes CString.

(** strcpy(s, t): the bytes it stores from [s] on. *)
Definition strcpy (t : list Z) : list Z := t ++ [0].

(** The pointers advance while the bytes are equal and not zero. *)
Fixpoint strcmp (p q : list Z) : Z :=
  match p, q with
  | c :: p', d :: q' => if c =? d then strcmp p' q' else u8 c - u8 d
  | c :: _, [] => u8 c
  | [], d :: _ => 0 - u8 d
  | [], [] => 0
  end.

Fixpoint strlen (s : list Z) : Z :=
  match s with
  | [] => 0
  | _ :: s => 1 + strlen s
  end.

Definition memset (dst c : Z) (n : nat) (m : memory) : memory := stosb dst c n m.

(** The part of the string that the result points to; None is 0. *)
Fixpoint strchr (s : list Z) (c : Z) : option (list Z) :=
  match s with
  | [] => None
  | x :: s' => if x =? c then Some s else strchr s' c
  end.

(** gets(buf, max): [input] has the results of read(0, &c, 1), None when it
    returns less than 1.  The result is the bytes of buf before its final
    zero, and the input that is left. *)
Fixpoint gets_loop (i : nat) (max : Z) (input : list (option Z)) : list Z * list (option Z) :=
  match input with
  | [] => ([], [])
  | r :: input' =>
      if Z.of_nat i + 1 <? max then
        match r with
        | None => ([], input')
        | Some c =>
            if (c =? 10) || (c =? 13) then ([c], input')
            else let '(l, rest) := gets_loop (S i) max input' in (c :: l, rest)
        end
      else ([], input)
  end.

Definition ugets (max : Z) (input : list (option Z)) : list Z * list (option Z) := gets_loop 0 max input.

(** An int wraps around. *)
Fixpoint atoi_loop (n : Z) (s : list Z) : Z :=
  match s with
  | [] => n
  | c :: s => if (48 <=? c) && (c <=? 57) then atoi_loop (s32 (n * 10 + c - 48)) s else n
  end.

Definition atoi (s : list Z) : Z := atoi_loop 0 s.

(** One byte at a time, from the lowest address on. *)
Fixpoint memmove (dst src : Z) (n : nat) (m : memory) : memory :=
  match n with
  | O => m
  | S n => memmove (dst + 1) (src + 1) n (store dst (m src) m)
  end.

(** ** Properties *)

(** The bytes compared as unsigned characters, the end of a string as 0. *)
Inductive str_lt : list Z -> list Z -> Prop :=
  | lt_end d q : str_lt [] (d :: q)
  | lt_here c d p q : c < d -> str_lt (c :: p) (d :: q)
  | lt_next c p q : str_lt p q -> str_lt (c :: p) (c :: q).

Definition cstring (s : list Z) : Prop := Forall (fun c => 0 < c < 256) s.

Lemma u8_id c : 0 < c < 256 -> u8 c = c.
Proof. intros. unfold u8. apply Z.mod_small. lia. Qed.

(** the sign of strcmp() is the lexicographic order of the strings as
    unsigned bytes, and it is 0 only for equal strings. *)
Theorem strcmp_correct p q :
  cstring p -> cstring q ->
  (strcmp p q = 0 <-> p = q) /\ (strcmp p q < 0 <-> str_lt p q) /\ (0 < strcmp p q <-> str_lt q p).
Proof.
  intros Hp. revert q. induction Hp as [|c p Hc Hp IH]; intros q Hq; destruct Hq as [|d q Hd Hq]; cbn.
  - split; [done|]. split; split; try lia; intros Hx; inversion Hx.
  - rewrite u8_id by done. split; [split; [lia|done]|]. split; split; intros Hx; try lia; [constructor|inversion Hx].
  - rewrite u8_id by done. split; [split; [lia|done]|]. split; split; intros Hx; try lia; [inversion Hx|constructor].
  - destruct (Z.eqb_spec c d) as [->|Hne].
    + destruct (IH q Hq) as (E1&E2&E3). rewrite E1, E2, E3. split; [split; [by intros ->|by intros [= ->]]|].
      split; split; intros Hx; try (by constructor); inversion Hx; subst; (lia || done).
    + rewrite !u8_id by done. split; [split; [lia|congruence]|].
      split; split; intros Hx; try (constructor; lia); inversion Hx; subst; lia.
Qed.

(** gets() keeps to its buffer: it stores at most max - 1 bytes and the
    terminating zero, and a shorter result ends with the end of the line or
    of the input. *)
Theorem gets_bounded max input :
  1 <= max ->
  let '(l, rest) := ugets max input in
  Z.of_nat (length l) + 1 <= max /\
  exists used, input = used ++ rest /\ (length l <= length used)%nat /\
    (Z.of_nat (length l) + 1 < max -> rest <> [] ->
       (exists l', l = l' ++ [10] \/ l = l' ++ [13]) \/ exists u, used = u ++ [None]).
Proof.
  intros Hmax. unfold ugets.
  cut (forall i, Z.of_nat i + 1 <= max -> let '(l, rest) := gets_loop i max input in
    Z.of_nat i + Z.of_nat (length l) + 1 <= max /\
    exists used, input = used ++ rest /\ (length l <= length used)%nat /\
      (Z.of_nat i + Z.of_nat (length l) + 1 < max -> rest <> [] ->
         (exists l', l = l' ++ [10] \/ l = l' ++ [13]) \/ exists u, used = u ++ [None])).
  { intros Hcut. specialize (Hcut 0%nat ltac:(lia)). destruct (gets_loop 0 max input). exact Hcut. }
  induction input as [|r input IH]; intros i Hi; cbn [gets_loop].
  - split; [cbn; lia|]. exists []. done.
  - destruct (Z.ltb_spec (Z.of_nat i + 1) max) as [Hlt|Hge].
    2: { split; [cbn; lia|]. exists []. split; [done|]. split; [done|]. cbn. lia. }
    destruct r as [c|].
    2: { split; [cbn; lia|]. exists [None]. split; [done|]. split; [cbn; lia|]. intros _ _. right. by exists []. }
    destruct ((c =? 10) || (c =? 13)) eqn:Ec.
    { split; [cbn; lia|]. exists [Some c]. split; [done|]. split; [done|]. intros _ _. left. exists [].
      apply orb_prop in Ec as [->%Z.eqb_eq| ->%Z.eqb_eq]; tauto. }
    specialize (IH (S i) ltac:(lia)). destruct (gets_loop (S i) max input) as [l rest]. destruct IH as (IH1&used&->&IH2&IH3).
    split; [cbn [length]; lia|]. exists (Some c :: used). split; [done|]. split; [cbn; lia|]. cbn [length]. intros Hl Hr.
    destruct IH3 as [(l'&[->| ->])|(u&->)]; [lia|done|left; exists (c :: l')..|right; exists (Some c :: u)]; cbn; tauto.
Qed.

(** memmove() is right unless the source overlaps the destination from
    below. *)
Lemma umemmove_spec n : forall dst src m a,
  dst <= src \/ src + Z.of_nat n <= dst ->
  memmove dst src n m a = if (dst <=? a) && (a <? dst + Z.of_nat n) then m (src + (a - dst)) else m a.
Proof.
  induction n as [|n IH]; intros dst src m a Hd; cbn [memmove].
  - destruct ((dst <=? a) && (a <? dst + Z.of_nat 0)) eqn:E; [|done]. lia.
  - rewrite IH by lia. unfold store.
    destruct ((dst + 1 <=? a) && (a <? dst + 1 + Z.of_nat n)) eqn:E1, ((dst <=? a) && (a <? dst + Z.of_nat (S n))) eqn:E2;
      try lia; case_decide; try lia; f_equal; lia.
Qed.

Module Example.

Lemma strcmp_correct_witness :
  (strcmp [97; 200] [97; 98] = 0 <-> [97; 200] = [97; 98]) /\ (strcmp [97; 200] [97; 98] < 0 <-> str_lt [97; 200] [97; 98]) /\
  (0 < strcmp [97; 200] [97; 98] <-> str_lt [97; 98] [97; 200]).
Proof. apply (strcmp_correct [97; 200] [97; 98]); repeat constructor. Defined.

Lemma gets_bounded_witness :
  let '(l, rest) := ugets 4 [Some 97; Some 98; Some 99; Some 100] in
  Z.of_nat (length l) + 1 <= 4 /\
  exists used, [Some 97; Some 98; Some 99; Some 100] = used ++ rest /\ (length l <= length used)%nat /\
    (Z.of_nat (length l) + 1 < 4 -> rest <> [] ->
       (exists l', l = l' ++ [10] \/ l = l' ++ [13]) \/ exists u, used = u ++ [None]).
Proof. apply (gets_bounded 4 [Some 97; Some 98; Some 99; Some 100]). discriminate. Defined.

(** Moving three bytes up by one: the first byte is copied three times. *)
Theorem umemmove_overlap : let m := fun a => a in
  (memmove 1 0 3 m 1, memmove 1 0 3 m 2, memmove 1 0 3 m 3) = (0, 0, 0) /\
  (CString.memmove 1 0 3 m 1, CString.memmove 1 0 3 m 2, CString.memmove 1 0 3 m 3) = (0, 1, 2).
Proof. done. Qed.

End Example.
