(* ===== verification/Wc.v ===== *)
(** wc.c and cat.c: wc() and cat() on one file.

    The results of the calls of read(fd, buf, sizeof(buf)) are a list: None is
    -1 and Some l the bytes that read() stores, 0 of them at the end of the
    file, where every further call of read() returns 0 too. *)

From S2P Require Import Prelude Params Bytes CString Ulib.

(** ** wc() *)

(** l, w, c and inword; the three counters are ints. *)
Record counters := mkcnt {
  cl : Z;
  cw : Z;
  cc : Z;
  inword : bool;
}.

(** The string that strchr() is given: space, \r, \t, \n, \v *)
Definition spaces : list Z := [32; 13; 9; 10; 11].

Definition incr (n : Z) : M unit Z := if n <? 2 ^ 31 - 1 then ret (n + 1) else fault "signed overflow".

(** One iteration of the inner loop *)
Definition wc_char (b : Z) (s : counters) : M unit counters :=
  let* c := incr (cc s) in
  let* l := (if b =? 10 then incr (cl s) else ret (cl s)) in
  match strchr spaces b with
  | Some _ => ret (mkcnt l (cw s) c false)
  | None =>
      if inword s then ret (mkcnt l (cw s) c true)
      else
        let* w := incr (cw s) in
        ret (mkcnt l w c true)
  end.

Fixpoint wc_buf (buf : list Z) (s : counters) : M unit counters :=
  match buf with
  | [] => ret s
  | b :: buf =>
      let* s := wc_char b s in
      wc_buf buf s
  end.

(** The outer loop: the counters, and whether the last n is negative *)
Fixpoint wc_loop (reads : list (option (list Z))) (s : counters) : M unit (counters * bool) :=
  match reads with
  | [] | Some [] :: _ => ret (s, false)
  | None :: _ => ret (s, true)
  | Some buf :: reads =>
      let* s := wc_buf buf s in
      wc_loop reads s
  end.

(** The three numbers that are printed, or None for "wc: read error" *)
Definition wc (reads : list (option (list Z))) : M unit (option (Z * Z * Z)) :=
  let* '(s, error) := wc_loop reads (mkcnt 0 0 0 false) in
  ret (if error : bool then None else Some (cl s, cw s, cc s)).

(** ** The numbers *)

Definition space (b : Z) : bool := match strchr spaces b with Some _ => true | None => false end.
Definition lines_of (l : list Z) : Z := Z.of_nat (length (filter (fun b => b = 10) l)).

(** The words: what is left between the spaces. *)
Fixpoint split_spaces (l : list Z) : list (list Z) :=
  match l with
  | [] => [[]]
  | b :: l =>
      if space b then [] :: split_spaces l
      else match split_spaces l with
           | w :: ws => (b :: w) :: ws
           | [] => [[b]]
           end
  end.
Definition words_of (l : list Z) : list (list Z) := filter (fun w => w <> []) (split_spaces l).

(** The words that the text [l] adds after a text that ends in a word or not. *)
Definition new_words (inw : bool) (l : list Z) : Z :=
  match split_spaces l with
  | w :: ws => Z.of_nat (length (filter (fun w => w <> []) (if inw then ws else w :: ws)))
  | [] => 0
  end.

Lemma split_nonempty l : split_spaces l <> [].
Proof. destruct l as [|b l]; cbn; [done|]. destruct (space b); [done|]. by destruct (split_spaces l). Qed.

Lemma new_words_step inw b l :
  new_words inw (b :: l) = if space b then new_words false l else new_words true l + (if inw then 0 else 1).
Proof.
  unfold new_words. cbn [split_spaces]. pose proof (split_nonempty l) as Hne. destruct (space b).
  - destruct (split_spaces l) as [|w ws]; [done|]. destruct inw; [done|]. by rewrite (filter_cons_False _ []) by (by intros []).
  - destruct (split_spaces l) as [|w ws]; [done|]. destruct inw; [lia|]. rewrite filter_cons_True by done. cbn [length]. lia.
Qed.

Lemma new_words_false l : new_words false l = Z.of_nat (length (words_of l)).
Proof. unfold new_words, words_of. pose proof (split_nonempty l). by destruct (split_spaces l). Qed.

Lemma new_words_nil inw : new_words inw [] = 0.
Proof. by destruct inw. Qed.

Lemma new_words_nonneg inw l : 0 <= new_words inw l.
Proof. unfold new_words. destruct (split_spaces l); [done|]. lia. Qed.

Lemma new_words_le inw l : new_words inw l <= Z.of_nat (length l).
Proof.
  revert inw. induction l as [|b l IH]; intros inw; [by destruct inw|]. rewrite new_words_step. cbn [length].
  pose proof (IH true). pose proof (IH false). destruct (space b), inw; lia.
Qed.

Lemma lines_le l : lines_of l <= Z.of_nat (length l).
Proof. unfold lines_of. pose proof (length_filter (fun b => b = 10) l). lia. Qed.

Definition in_word (s : counters) (l : list Z) : bool := match last l with Some b => negb (space b) | None => inword s end.

Definition advance (s : counters) (l : list Z) : counters :=
  mkcnt (cl s + lines_of l) (cw s + new_words (inword s) l) (cc s + Z.of_nat (length l)) (in_word s l).

(** No counter exceeds the number of characters. *)
Definition sane (s : counters) (n : Z) : Prop := 0 <= cl s <= cc s /\ 0 <= cw s <= cc s /\ cc s + n < 2 ^ 31.

Lemma wp_incr n (Q : Z -> unit -> Prop) : n < 2 ^ 31 - 1 -> Q (n + 1) tt -> wp (incr n) Q tt.
Proof. intros Hn HQ. unfold incr. rewrite (proj2 (Z.ltb_lt _ _)) by lia. by apply wp_ret. Qed.

Lemma wp_wc_char b s n (Q : counters -> unit -> Prop) :
  sane s (1 + n) -> 0 <= n -> (sane (advance s [b]) n -> Q (advance s [b]) tt) -> wp (wc_char b s) Q tt.
Proof.
  intros (S1&S2&S3) Hn HQ. unfold wc_char. apply wp_bind, wp_incr; [lia|].
  assert (El : lines_of [b] = if b =? 10 then 1 else 0).
  { unfold lines_of. destruct (Z.eqb_spec b 10); [by rewrite filter_cons_True by done|by rewrite filter_cons_False by done]. }
  assert (Ew : new_words (inword s) [b] = if space b then 0 else if inword s then 0 else 1).
  { rewrite new_words_step. destruct (space b), (inword s); done. }
  assert (HQ' : Q (mkcnt (cl s + (if b =? 10 then 1 else 0)) (cw s + (if space b then 0 else if inword s then 0 else 1)) (cc s + 1) (negb (space b))) tt).
  { rewrite <- El, <- Ew. apply HQ. unfold sane, advance. cbn [cl cw cc length]. rewrite El, Ew.
    destruct (b =? 10), (space b), (inword s); lia. }
  apply wp_bind. assert (Hl : forall R : Z -> unit -> Prop, R (cl s + (if b =? 10 then 1 else 0)) tt -> wp (if b =? 10 then incr (cl s) else ret (cl s)) R tt).
  { intros R HR. destruct (b =? 10); [apply wp_incr; [lia|done]|apply wp_ret; by rewrite Z.add_0_r in HR]. }
  apply Hl. unfold space in HQ'. destruct (strchr spaces b); [apply wp_ret; by rewrite Z.add_0_r in HQ'|].
  destruct (inword s); [apply wp_ret; by rewrite Z.add_0_r in HQ'|]. apply wp_bind, wp_incr; [lia|]. by apply wp_ret.
Qed.

Lemma advance_app s l1 l2 : advance (advance s l1) l2 = advance s (l1 ++ l2).
Proof.
  unfold advance. cbn [cl cw cc inword]. f_equal.
  - unfold lines_of. rewrite filter_app, length_app. lia.
  - revert s. induction l1 as [|b l1 IH]; intros s; [unfold in_word; cbn [app last]; rewrite new_words_nil; lia|].
    cbn [app]. rewrite !(new_words_step (inword s)).
    specialize (IH (mkcnt 0 (cw s) 0 (negb (space b)))). cbn [cw inword] in IH.
    assert (Ei : in_word (mkcnt 0 (cw s) 0 (negb (space b))) l1 = in_word s (b :: l1)).
    { unfold in_word. cbn [inword]. rewrite last_cons. by destruct (last l1). }
    rewrite Ei in IH. destruct (space b); cbn [negb] in IH; lia.
  - rewrite length_app. lia.
  - unfold in_word. cbn [inword]. rewrite last_app. by destruct (last l2).
Qed.

Lemma advance_nil s : advance s [] = s.
Proof. destruct s as [l w c i]. unfold advance, in_word. cbn [cl cw cc inword last]. rewrite new_words_nil. cbn. by rewrite !Z.add_0_r. Qed.

Lemma wp_wc_buf buf : forall s n (Q : counters -> unit -> Prop),
  sane s (Z.of_nat (length buf) + n) -> 0 <= n -> (sane (advance s buf) n -> Q (advance s buf) tt) -> wp (wc_buf buf s) Q tt.
Proof.
  induction buf as [|b buf IH]; intros s n Q Hs Hn HQ; cbn [wc_buf length] in *.
  - apply wp_ret. rewrite advance_nil in HQ. by apply HQ.
  - apply wp_bind. eapply (wp_wc_char b s (Z.of_nat (length buf) + n)); [unfold sane in *; lia|lia|]. intros Hs1.
    apply (IH _ n); [done|done|]. rewrite advance_app. exact HQ.
Qed.

Lemma wp_wc_loop chunks (failed : bool) : forall s (Q : counters * bool -> unit -> Prop),
  Forall (fun c => c <> []) chunks -> sane s (Z.of_nat (length (concat chunks))) ->
  Q (advance s (concat chunks), failed) tt ->
  wp (wc_loop (map Some chunks ++ (if failed then [None] else [])) s) Q tt.
Proof.
  induction chunks as [|buf chunks IH]; intros s Q Hne Hs HQ; cbn [concat map app] in *.
  - rewrite advance_nil in HQ. destruct failed; by apply wp_ret.
  - apply Forall_cons in Hne as [Hb Hne]. destruct buf as [|b buf]; [done|]. cbn [wc_loop].
    rewrite length_app, Nat2Z.inj_add in Hs. apply wp_bind. eapply wp_wc_buf; [exact Hs|lia|].
    intros Hs1. apply IH; [done|done|]. by rewrite advance_app.
Qed.

(** wc(): however read() cuts the file into chunks, the numbers are those of
    the whole file: its newlines, its words and its bytes; and nothing is
    printed of a file whose end cannot be read. *)
Theorem wc_correct chunks (failed : bool) :
  Forall (fun c => c <> []) chunks ->
  Z.of_nat (length (concat chunks)) < 2 ^ 31 ->
  wc (map Some chunks ++ (if failed then [None] else [])) tt =
    Ok (if failed then None
        else let text := concat chunks in
             Some (lines_of text, Z.of_nat (length (words_of text)), Z.of_nat (length text))) tt.
Proof.
  intros Hne Hlen. pose proof (wp_wc_loop chunks failed (mkcnt 0 0 0 false)
    (fun r _ => r = (advance (mkcnt 0 0 0 false) (concat chunks), failed)) Hne) as Hw.
  apply wp_elim in Hw as (r&[]&E&->); [|unfold sane; cbn; lia|done]. unfold wc, bind.
  rewrite E. cbn. destruct failed; [done|]. cbn. by rewrite new_words_false.
Qed.

(** ** cat() *)

(** What is handed to write(1, ...), given what write() returns for every
    chunk, and whether cat() returns; it exits after an error. *)
Fixpoint cat (reads : list (option (list Z))) (wrote : list Z -> Z) : list (list Z) * bool :=
  match reads with
  | [] | Some [] :: _ => ([], true)
  | None :: _ => ([], false)
  | Some buf :: reads =>
      if negb (wrote buf =? Z.of_nat (length buf)) then ([buf], false)
      else let '(out, ok) := cat reads wrote in (buf :: out, ok)
  end.

Lemma cat_copies chunks wrote :
  Forall (fun c => c <> []) chunks ->
  (forall buf, wrote buf = Z.of_nat (length buf)) -> cat (map Some chunks) wrote = (chunks, true).
Proof.
  intros Hne Hw. induction Hne as [|buf chunks Hb Hne IH]; cbn; [done|]. destruct buf as [|b buf]; [done|].
  by rewrite Hw, Z.eqb_refl, IH.
Qed.

(** "two words", cut in the middle of a word *)
Lemma wc_correct_witness :
  wc (map Some [[116; 119]; [111; 32; 119; 111]; [114; 100; 115; 10]] ++ []) tt = Ok (Some (1, 2, 10)) tt /\
  wc (map Some [[116; 119]; [111; 32; 119; 111]; [114; 100; 115; 10]] ++ []) tt =
    Ok (let text := concat [[116; 119]; [111; 32; 119; 111]; [114; 100; 115; 10]] in
        Some (lines_of text, Z.of_nat (length (words_of text)), Z.of_nat (length text))) tt.
Proof.
  split; [vm_compute; reflexivity|]. apply (wc_correct [[116; 119]; [111; 32; 119; 111]; [114; 100; 115; 10]] false).
  - repeat constructor; done.
  - cbn. lia.
Defined.
