(* ===== verification/Printf.v ===== *)
(** printf.c: formatted output of user programs.

    The result of a function is the list of the bytes that putc() writes, in
    order.  The arguments are the words of the stack above the format string,
    [ap], and None is the result when the format
    asks for more; the string at a user address is given by [str_at]. *)

From S2P Require Import Prelude Params Bytes Ulib.

(** digits[d], "0123456789ABCDEF" *)
Definition digit (d : Z) : Z := if d <? 10 then 48 + d else 55 + d.

(** The do-while loop: what it stores in buf from index [i] on; None when it
    would store outside of buf[16]. *)
Fixpoint print_digits (fuel : nat) (i : nat) (x base : Z) : option (list Z) :=
  match fuel with
  | O => None
  | S fuel =>
      if (i <? 16)%nat then
        let d := digit (x mod base) in
        let x := x / base in
        if x =? 0 then Some [d]
        else rest ← print_digits fuel (S i) x base; Some (d :: rest)
      else None
  end.

Definition printint (xx base : Z) (sgn : bool) : option (list Z) :=
  let neg := sgn && (xx <? 0) in
  let x := if neg then u32 (- xx) else u32 xx in
  buf ← print_digits 17 0 x base;
  let i := length buf in
  if neg then
    if (i <? 16)%nat then Some (rev (buf ++ [45])) else None
  else Some (rev buf).

Definition null_string : list Z := [40; 110; 117; 108; 108; 41].

(** The main loop; [state] is true after a '%'. *)
Fixpoint printf_loop (str_at : Z -> list Z) (fmt : list Z) (state : bool) (ap : list Z) : option (list Z) :=
  match fmt with
  | [] => Some []
  | c :: fmt =>
      if negb state then
        if c =? 37 then printf_loop str_at fmt true ap
        else rest ← printf_loop str_at fmt false ap; Some (c :: rest)
      else
        if c =? 100 then
          a ← head ap;
          out ← printint (s32 a) 10 true;
          rest ← printf_loop str_at fmt false (tail ap); Some (out ++ rest)
        else if (c =? 120) || (c =? 112) then
          a ← head ap;
          out ← printint (s32 a) 16 false;
          rest ← printf_loop str_at fmt false (tail ap); Some (out ++ rest)
        else if c =? 115 then
          a ← head ap;
          let s := if a =? 0 then null_string else str_at a in
          rest ← printf_loop str_at fmt false (tail ap); Some (s ++ rest)
        else if c =? 99 then
          a ← head ap;
          rest ← printf_loop str_at fmt false (tail ap); Some (u8 a :: rest)
        else if c =? 37 then
          rest ← printf_loop str_at fmt false ap; Some (c :: rest)
        else
          rest ← printf_loop str_at fmt false ap; Some (37 :: c :: rest)
  end.

Definition printf (str_at : Z -> list Z) (fmt ap : list Z) : option (list Z) := printf_loop str_at fmt false ap.

(** ** The digits *)

(** The value of digits, the least significant first. *)
Definition digit_value (c : Z) : Z := if c <? 58 then c - 48 else c - 55.
Fixpoint value (base : Z) (ds : list Z) : Z :=
  match ds with
  | [] => 0
  | d :: ds => digit_value d + base * value base ds
  end.

Lemma digit_value_digit d : 0 <= d < 16 -> digit_value (digit d) = d.
Proof.
  intros Hd. unfold digit, digit_value. destruct (Z.ltb_spec d 10).
  - rewrite (proj2 (Z.ltb_lt _ _)) by lia. lia.
  - rewrite (proj2 (Z.ltb_ge _ _)) by lia. lia.
Qed.

Lemma div_pow x base k : 2 <= base -> 0 <= x < base ^ (Z.of_nat (S k)) -> x / base < base ^ Z.of_nat k.
Proof.
  intros Hb Hx. apply Z.div_lt_upper_bound; [lia|]. rewrite Nat2Z.inj_succ, Z.pow_succ_r in Hx by lia. lia.
Qed.

Lemma print_digits_spec base k : 2 <= base <= 16 -> forall fuel i x,
  0 <= x < base ^ (Z.of_nat (S k)) -> (i + S k <= 16)%nat -> (k < fuel)%nat ->
  exists ds, print_digits fuel i x base = Some ds /\ (1 <= length ds <= S k)%nat /\ value base ds = x /\
    Forall (fun c => exists d, 0 <= d < base /\ c = digit d) ds.
Proof.
  intros Hb. induction k as [|k IH]; intros fuel i x Hx Hi Hf; (destruct fuel as [|fuel]; [lia|]); cbn [print_digits];
    rewrite (proj2 (Nat.ltb_lt _ _)) by lia; pose proof (Z.mod_pos_bound x base ltac:(lia)) as Hm;
    pose proof (Z.div_mod x base ltac:(lia)) as Hdm.
  - assert (x / base = 0) as E by (apply Z.div_small; change (base ^ Z.of_nat 1) with (base * 1) in Hx; lia).
    rewrite E, Z.eqb_refl. eexists. split; [done|]. split; [cbn; lia|]. split; [|repeat constructor; eauto].
    cbn. rewrite digit_value_digit by lia. lia.
  - destruct (Z.eqb_spec (x / base) 0) as [E|E].
    + eexists. split; [done|]. split; [cbn; lia|]. split; [|repeat constructor; eauto].
      cbn. rewrite digit_value_digit by lia. lia.
    + destruct (IH fuel (S i) (x / base)) as (ds&->&Hl&Hv&Hd); [|lia|lia|].
      { split; [apply Z.div_pos; lia|]. by apply div_pow; [lia|]. }
      eexists. split; [done|]. split; [cbn; lia|]. split; [|constructor; eauto].
      cbn [value]. rewrite digit_value_digit, Hv by lia. lia.
Qed.

(** The two ways the program prints numbers. *)
Lemma print_u32 base x : base = 10 \/ base = 16 -> is_u32 x ->
  exists ds, print_digits 17 0 x base = Some ds /\ (1 <= length ds <= 10)%nat /\ value base ds = x /\
    Forall (fun c => exists d, 0 <= d < base /\ c = digit d) ds.
Proof.
  intros Hb Hx. apply (print_digits_spec base 9); [lia| |lia|lia].
  destruct Hb as [->| ->]; unfold is_u32, W32 in Hx; [change (10 ^ Z.of_nat 10) with 10000000000|
    change (16 ^ Z.of_nat 10) with 1099511627776]; lia.
Qed.


Lemma s32_step n c : s32 (s32 n * 10 + c - 48) = s32 (n * 10 + c - 48).
Proof.
  unfold s32. pose proof (Z.div_mod (n + 2 ^ 31) (2 ^ 32) ltac:(lia)) as E. f_equal.
  replace (((n + 2 ^ 31) mod 2 ^ 32 - 2 ^ 31) * 10 + c - 48 + 2 ^ 31)
    with (n * 10 + c - 48 + 2 ^ 31 + (- 10 * ((n + 2 ^ 31) / 2 ^ 32)) * 2 ^ 32) by lia.
  by rewrite Z.mod_add.
Qed.

(** atoi() of a list of digits, the most significant first *)
Lemma atoi_digits l : Forall (fun c => exists d, 0 <= d < 10 /\ c = digit d) l -> forall n,
  atoi_loop (s32 n) l = s32 (foldl (fun a c => a * 10 + digit_value c) n l).
Proof.
  induction 1 as [|c l (d&Hd&->) Hl IH]; intros n; cbn [atoi_loop foldl]; [done|].
  assert (digit d = 48 + d) as E by (unfold digit; rewrite (proj2 (Z.ltb_lt _ _)) by lia; done).
  rewrite E at 1 2. rewrite (proj2 (Z.leb_le _ _)), (proj2 (Z.leb_le _ _)) by lia. cbn [andb].
  rewrite s32_step, IH, digit_value_digit, E by lia. f_equal. f_equal. lia.
Qed.

Lemma foldl_value base ds : foldl (fun a c => a * base + digit_value c) 0 (rev ds) = value base ds.
Proof. induction ds as [|d ds IH]; [done|]. cbn [rev value]. rewrite foldl_app, IH. cbn. lia. Qed.

(** what printf("%d") prints, atoi() reads back. *)
Theorem printf_atoi str_at n :
  0 <= n < 2 ^ 31 -> exists out, printf str_at [37; 100] [n] = Some out /\ atoi out = n.
Proof.
  intros Hn. unfold printf. cbn [printf_loop negb]. change (37 =? 37) with true. change (100 =? 100) with true. cbv iota.
  cbn [head mbind option_bind tail]. rewrite s32_small by lia. unfold printint. rewrite (proj2 (Z.ltb_ge _ _)) by lia. cbn [andb].
  destruct (print_u32 10 (u32 n) ltac:(tauto) (u32_range _)) as (ds&->&Hl&Hv&Hd). cbn [mbind option_bind].
  eexists. split; [done|]. rewrite app_nil_r. unfold atoi. change 0 with (s32 0) at 1. rewrite atoi_digits by (by apply List.Forall_rev).
  rewrite (foldl_value 10), Hv, u32_small by (unfold is_u32, W32; lia). apply s32_small. lia.
Qed.

Module Example.


Lemma printf_atoi_witness : exists out, printf (fun _ => []) [37; 100] [1234567890] = Some out /\ atoi out = 1234567890.
Proof. apply (printf_atoi (fun _ => []) 1234567890). lia. Defined.

End Example.
