(* ===== verification/Kbd.v ===== *)
(** kbd.c and kbd.h: the PC keyboard driver.

    [kbdgetc] translates one scan code; its static variable [shift] is passed
    and returned.  The specification describes the keys: [event]s are presses
    and releases of keys, [mods] the modifier keys that are held and the locks
    that are on, and [typed] the character a press gives. *)

From Stdlib Require Import ZifyBool.
From S2P Require Import Prelude Params Bytes.

Definition KBS_DIB : Z := 0x01.
Definition NO : Z := 0.
Definition SHIFT : Z := Z.shiftl 1 0.
Definition CTL : Z := Z.shiftl 1 1.
Definition ALT : Z := Z.shiftl 1 2.
Definition CAPSLOCK : Z := Z.shiftl 1 3.
Definition NUMLOCK : Z := Z.shiftl 1 4.
Definition SCROLLLOCK : Z := Z.shiftl 1 5.
Definition E0ESC : Z := Z.shiftl 1 6.
Definition KEY_HOME : Z := 0xE0.
Definition KEY_END : Z := 0xE1.
Definition KEY_UP : Z := 0xE2.
Definition KEY_DN : Z := 0xE3.
Definition KEY_LF : Z := 0xE4.
Definition KEY_RT : Z := 0xE5.
Definition KEY_PGUP : Z := 0xE6.
Definition KEY_PGDN : Z := 0xE7.
Definition KEY_INS : Z := 0xE8.
Definition KEY_DEL : Z := 0xE9.

(** A C initialiser of a uchar[256]: the values in order, then the designated
    ones; all others are zero. *)
Definition uchar_table (vals : list Z) (desig : list (Z * Z)) : list Z :=
  foldl (fun t d => <[Z.to_nat d.1 := d.2]> t) (vals ++ replicate (256 - length vals) 0) desig.

Definition shiftcode : list Z := uchar_table [] [
   (0x1D, CTL); (0x2A, SHIFT); (0x36, SHIFT); (0x38, ALT); (0x9D, CTL); (0xB8, ALT)].

Definition togglecode : list Z := uchar_table [] [
   (0x3A, CAPSLOCK); (0x45, NUMLOCK); (0x46, SCROLLLOCK)].

Definition normalmap : list Z := uchar_table [
   0; 27; 49; 50; 51; 52; 53; 54;
   55; 56; 57; 48; 45; 61; 8; 9;
   113; 119; 101; 114; 116; 121; 117; 105;
   111; 112; 91; 93; 10; 0; 97; 115;
   100; 102; 103; 104; 106; 107; 108; 59;
   39; 96; 0; 92; 122; 120; 99; 118;
   98; 110; 109; 44; 46; 47; 0; 42;
   0; 32; 0; 0; 0; 0; 0; 0;
   0; 0; 0; 0; 0; 0; 0; 55;
   56; 57; 45; 52; 53; 54; 43; 49;
   50; 51; 48; 46; 0; 0; 0; 0] [
   (0x9C, 10); (0xB5, 47); (0xC8, KEY_UP); (0xD0, KEY_DN);
   (0xC9, KEY_PGUP); (0xD1, KEY_PGDN); (0xCB, KEY_LF); (0xCD, KEY_RT);
   (0x97, KEY_HOME); (0xCF, KEY_END); (0xD2, KEY_INS); (0xD3, KEY_DEL)].

Definition shiftmap : list Z := uchar_table [
   0; 27; 33; 64; 35; 36; 37; 94;
   38; 42; 40; 41; 95; 43; 8; 9;
   81; 87; 69; 82; 84; 89; 85; 73;
   79; 80; 123; 125; 10; 0; 65; 83;
   68; 70; 71; 72; 74; 75; 76; 58;
   34; 126; 0; 124; 90; 88; 67; 86;
   66; 78; 77; 60; 62; 63; 0; 42;
   0; 32; 0; 0; 0; 0; 0; 0;
   0; 0; 0; 0; 0; 0; 0; 55;
   56; 57; 45; 52; 53; 54; 43; 49;
   50; 51; 48; 46; 0; 0; 0; 0] [
   (0x9C, 10); (0xB5, 47); (0xC8, KEY_UP); (0xD0, KEY_DN);
   (0xC9, KEY_PGUP); (0xD1, KEY_PGDN); (0xCB, KEY_LF); (0xCD, KEY_RT);
   (0x97, KEY_HOME); (0xCF, KEY_END); (0xD2, KEY_INS); (0xD3, KEY_DEL)].

Definition ctlmap : list Z := uchar_table [
   0; 0; 0; 0; 0; 0; 0; 0;
   0; 0; 0; 0; 0; 0; 0; 0;
   17; 23; 5; 18; 20; 25; 21; 9;
   15; 16; 0; 0; 13; 0; 1; 19;
   4; 6; 7; 8; 10; 11; 12; 0;
   0; 0; 0; 28; 26; 24; 3; 22;
   2; 14; 13; 0; 0; 239; 0; 0] [
   (0x9C, 13); (0xB5, 239); (0xC8, KEY_UP); (0xD0, KEY_DN);
   (0xC9, KEY_PGUP); (0xD1, KEY_PGDN); (0xCB, KEY_LF); (0xCD, KEY_RT);
   (0x97, KEY_HOME); (0xCF, KEY_END); (0xD2, KEY_INS); (0xD3, KEY_DEL)].

(** table[i] for a subscript below 256. *)
Definition uchar_at (t : list Z) (i : Z) : Z := default 0 (t !! Z.to_nat i).

Definition charcode : list (list Z) := [normalmap; shiftmap; ctlmap; ctlmap].

(** [st] and [data] are what inb() gives for the two ports; the result is the
    return value and the new [shift]. *)
Definition kbdgetc (st data shift : Z) : Z * Z :=
  if Z.land st KBS_DIB =? 0 then (-1, shift)
  else if data =? 0xE0 then (0, Z.lor shift E0ESC)
  else if negb (Z.land data 0x80 =? 0) then
    let data := if negb (Z.land shift E0ESC =? 0) then data else Z.land data 0x7F in
    (0, Z.ldiff shift (Z.lor (uchar_at shiftcode data) E0ESC))
  else
    let '(data, shift) :=
      if negb (Z.land shift E0ESC =? 0) then (Z.lor data 0x80, Z.ldiff shift E0ESC) else (data, shift) in
    let shift := Z.lor shift (uchar_at shiftcode data) in
    let shift := Z.lxor shift (uchar_at togglecode data) in
    let c := uchar_at (default [] (charcode !! Z.to_nat (Z.land shift (Z.lor CTL SHIFT)))) data in
    let c :=
      if negb (Z.land shift CAPSLOCK =? 0) then
        if (97 <=? c) && (c <=? 122) then c + (65 - 97)
        else if (65 <=? c) && (c <=? 90) then c + (97 - 65)
        else c
      else c in
    (c, shift).

(** The driver on a sequence of scan codes, each one ready. *)
Fixpoint kbd_run (shift : Z) (codes : list Z) : list Z * Z :=
  match codes with
  | [] => ([], shift)
  | d :: codes =>
      let '(c, shift) := kbdgetc KBS_DIB d shift in
      let '(cs, shift) := kbd_run shift codes in
      (c :: cs, shift)
  end.

(** * The keys *)

Record mods := { m_shift : bool; m_ctl : bool; m_alt : bool; m_caps : bool; m_num : bool; m_scroll : bool }.

(** A key is its scan code and whether it is one of the extended keys. *)
Record event := { e_ext : bool; e_code : Z; e_up : bool }.

(** The scan codes the keyboard sends; 0x60 is not a key, since its release
    would be the escape code. *)
Definition scancodes (e : event) : list Z :=
  (if e_ext e then [0xE0] else []) ++ [if e_up e then e_code e + 128 else e_code e].

Definition event_ok (e : event) : Prop := 0 <= e_code e < 128 /\ e_code e <> 0x60.

Definition is_shift (e : event) : bool := negb (e_ext e) && ((e_code e =? 0x2A) || (e_code e =? 0x36)).
Definition is_ctl (e : event) : bool := e_code e =? 0x1D.
Definition is_alt (e : event) : bool := e_code e =? 0x38.
Definition is_lock (code : Z) (e : event) : bool := negb (e_ext e) && (e_code e =? code) && negb (e_up e).

(** A modifier is on from its press to its release; a lock changes at its press. *)
Definition mods_after (m : mods) (e : event) : mods :=
  let held (k b : bool) := if k then negb (e_up e) else b in
  {| m_shift := held (is_shift e) (m_shift m);
     m_ctl := held (is_ctl e) (m_ctl m);
     m_alt := held (is_alt e) (m_alt m);
     m_caps := xorb (m_caps m) (is_lock 0x3A e);
     m_num := xorb (m_num m) (is_lock 0x45 e);
     m_scroll := xorb (m_scroll m) (is_lock 0x46 e) |}.

Definition is_lower (c : Z) : bool := (97 <=? c) && (c <=? 122).

(** A letter key: its control character, or the letter in upper case when
    exactly one of shift and caps lock is on.  The other keys are as in the
    map for the modifiers, whatever caps lock is. *)
Definition typed (m : mods) (e : event) : Z :=
  let k := e_code e + (if e_ext e then 128 else 0) in
  let c := uchar_at normalmap k in
  if e_up e then 0
  else if is_lower c then
    if m_ctl m then c - 96 else if xorb (m_shift m) (m_caps m) then c - 32 else c
  else uchar_at (if m_ctl m then ctlmap else if m_shift m then shiftmap else normalmap) k.

(** What the driver returns for an event: 0 for an escape code, then the
    character. *)
Definition event_chars (m : mods) (e : event) : list Z :=
  (if e_ext e then [0] else []) ++ [typed (mods_after m e) e].

Fixpoint events_chars (m : mods) (es : list event) : list Z * mods :=
  match es with
  | [] => ([], m)
  | e :: es => let '(cs, m') := events_chars (mods_after m e) es in (event_chars m e ++ cs, m')
  end.

(** The modifiers as the bits of [shift]. *)
Definition shift_of (m : mods) : Z :=
  Z.b2z (m_shift m) * SHIFT + Z.b2z (m_ctl m) * CTL + Z.b2z (m_alt m) * ALT +
  Z.b2z (m_caps m) * CAPSLOCK + Z.b2z (m_num m) * NUMLOCK + Z.b2z (m_scroll m) * SCROLLLOCK.

(** * All cases of one event *)

Definition bools : list bool := [true; false].

Definition all_mods : list mods :=
  a ← bools; b ← bools; c ← bools; d ← bools; e ← bools; f ← bools; [Build_mods a b c d e f].

Definition all_events : list event :=
  x ← bools; u ← bools; k ← seqZ 0 128; [Build_event x k u].

Lemma elem_of_bools b : b ∈ bools.
Proof. destruct b; set_solver. Qed.

Lemma elem_of_all_mods m : m ∈ all_mods.
Proof.
  destruct m as [a b c d e f]. unfold all_mods.
  repeat (apply list_elem_of_bind; eexists; split; [|apply elem_of_bools]). by apply list_elem_of_singleton.
Qed.

Lemma elem_of_all_events e : event_ok e -> e ∈ all_events.
Proof.
  destruct e as [x k u]. intros [Hk _]. cbn in Hk. unfold all_events.
  do 2 (apply list_elem_of_bind; eexists; split; [|apply elem_of_bools]).
  apply list_elem_of_bind. exists k. split; [by apply list_elem_of_singleton|]. apply elem_of_seqZ. lia.
Qed.

Definition event_check (m : mods) (e : event) : bool :=
  (e_code e =? 0x60) ||
  bool_decide (kbd_run (shift_of m) (scancodes e) = (event_chars m e, shift_of (mods_after m e))).

Lemma event_check_all : forallb (fun m => forallb (event_check m) all_events) all_mods = true.
Proof. vm_compute. reflexivity. Qed.

Lemma kbd_event m e :
  event_ok e ->
  kbd_run (shift_of m) (scancodes e) = (event_chars m e, shift_of (mods_after m e)).
Proof.
  intros He. pose proof event_check_all as H.
  rewrite forallb_forall in H. specialize (H m (proj1 (list_elem_of_In _ _) (elem_of_all_mods m))).
  rewrite forallb_forall in H. specialize (H e (proj1 (list_elem_of_In _ _) (elem_of_all_events e He))).
  apply orb_true_iff in H as [H|H]; [destruct He; lia|]. by apply bool_decide_eq_true in H.
Qed.

Lemma kbd_run_app shift a b :
  kbd_run shift (a ++ b) =
  let '(cs, s1) := kbd_run shift a in let '(ds, s2) := kbd_run s1 b in (cs ++ ds, s2).
Proof.
  revert shift. induction a as [|d a IH]; intros shift; cbn [app kbd_run].
  - by destruct (kbd_run shift b).
  - destruct (kbdgetc KBS_DIB d shift) as [c s1]. rewrite IH.
    destruct (kbd_run s1 a) as [cs s2]. by destruct (kbd_run s2 b).
Qed.

(** C33: for every sequence of key presses and releases, ordinary and
    extended, the driver run on the scan codes that the keyboard sends for
    them returns, key by key, the character of the key under the modifiers
    that are held and the locks that are on, and its state is those
    modifiers and locks. *)
Theorem kbd_refines (m : mods) (es : list event) :
  Forall event_ok es ->
  kbd_run (shift_of m) (concat (scancodes <$> es)) =
  let '(cs, m') := events_chars m es in (cs, shift_of m').
Proof.
  intros H. revert m. induction H as [|e es He _ IH]; intros m; [done|].
  cbn [fmap list_fmap concat events_chars]. rewrite kbd_run_app, (kbd_event _ _ He), IH.
  by destruct (events_chars (mods_after m e) es).
Qed.

Module Example.

Definition m0 : mods := Build_mods false false false false false false.
Definition press k := Build_event false k false.
Definition release k := Build_event false k true.

(** Shift, a, release of shift, caps lock, a, extended up arrow. *)
Definition keys : list event :=
  [press 0x2A; press 0x1E; release 0x2A; press 0x3A; press 0x1E; Build_event true 0x48 false].

Lemma kbd_refines_witness :
  Forall event_ok keys /\
  kbd_run 0 [0x2A; 0x1E; 0xAA; 0x3A; 0x1E; 0xE0; 0x48] = ([0; 65; 0; 0; 65; 0; KEY_UP], CAPSLOCK).
Proof.
  assert (H : Forall event_ok keys) by (repeat constructor; unfold event_ok; cbn; lia).
  split; [exact H|]. exact (kbd_refines m0 keys H).
Defined.

(** The extended Home key (scan codes 0xE0 0x47) gives no character: the maps
    have KEY_HOME at 0x97, where the escaped code is 0xC7. *)
Theorem home_key_lost shift :
  0 <= shift < 64 -> (kbd_run shift [0xE0; 0x47]).1 = [0; 0].
Proof.
  intros H.
  assert (forallb (fun s => bool_decide ((kbd_run s [0xE0; 0x47]).1 = [0; 0])) (seqZ 0 64) = true) as Ha
    by (vm_compute; reflexivity).
  rewrite forallb_forall in Ha. eapply bool_decide_eq_true, Ha, list_elem_of_In, elem_of_seqZ. lia.
Qed.

End Example.
