(* ===== verification/Cmos.v ===== *)
(** cmostime() of lapic.c: the date from the CMOS clock, which date() reports.

    The clock changes while it is read.  The state of the reader is the number
    of registers it has read, which stands for the time; the registers are a
    function of it. *)

From S2P Require Import Prelude Params.

Definition CMOS_STATA : Z := 0x0a.
Definition CMOS_STATB : Z := 0x0b.
Definition CMOS_UIP : Z := Z.shiftl 1 7.
Definition SECS : Z := 0x00.
Definition MINS : Z := 0x02.
Definition HOURS : Z := 0x04.
Definition DAY : Z := 0x07.
Definition MONTH : Z := 0x08.
Definition YEAR : Z := 0x09.

Record rtcdate := mkdate {
  second : Z;
  minute : Z;
  hour : Z;
  day : Z;
  month : Z;
  year : Z;
}.

#[export] Instance rtcdate_eq_dec : EqDecision rtcdate.
Proof. solve_decision. Defined.

(** CONV *)
Definition conv (x : Z) : Z := u32 (Z.shiftr x 4 * 10 + Z.land x 0xf).

Section cmos.
Context (regs : nat -> Z -> Z).

(** A read of a register is a byte. *)
Definition cmos_read (reg : Z) : M nat Z := fun t => Ok (u8 (regs t reg)) (S t).

Definition fill_rtcdate : M nat rtcdate :=
  let* s := cmos_read SECS in
  let* mi := cmos_read MINS in
  let* h := cmos_read HOURS in
  let* d := cmos_read DAY in
  let* mo := cmos_read MONTH in
  let* y := cmos_read YEAR in
  ret (mkdate s mi h d mo y).

(** The loop until two reads agree. *)
Fixpoint cmos_loop (fuel : nat) : M nat rtcdate :=
  match fuel with
  | O => nofuel
  | S fuel =>
      let* t1 := fill_rtcdate in
      let* a := cmos_read CMOS_STATA in
      if negb (Z.land a CMOS_UIP =? 0) then cmos_loop fuel
      else
        let* t2 := fill_rtcdate in
        if bool_decide (t1 = t2) then ret t1 else cmos_loop fuel
  end.

Definition cmostime (fuel : nat) : M nat rtcdate :=
  let* sb := cmos_read CMOS_STATB in
  let bcd := Z.land sb (Z.shiftl 1 2) =? 0 in
  let* t1 := cmos_loop fuel in
  let t1 := if bcd then mkdate (conv (second t1)) (conv (minute t1)) (conv (hour t1)) (conv (day t1)) (conv (month t1)) (conv (year t1))
            else t1 in
  ret (mkdate (second t1) (minute t1) (hour t1) (day t1) (month t1) (u32 (year t1 + 2000))).

(** ** The clock *)

(** The number as a register holds it: two decimal digits, or binary. *)
Definition encode (bcd : bool) (n : Z) : Z := if bcd then 16 * (n / 10) + n mod 10 else n.

Definition two_digits (n : Z) : Prop := 0 <= n < 100.

(** [now t] is the date at time [t], with the year of the century.  A tick of
    the clock changes the seconds, and there is at most one tick in the time
    of one round of the loop. *)
Record clock (bcd : bool) (now : nat -> rtcdate) : Prop := {
  ck_mode t : (Z.land (u8 (regs t CMOS_STATB)) 4 =? 0) = bcd;
  ck_regs t : regs t SECS = encode bcd (second (now t)) /\ regs t MINS = encode bcd (minute (now t)) /\
    regs t HOURS = encode bcd (hour (now t)) /\ regs t DAY = encode bcd (day (now t)) /\
    regs t MONTH = encode bcd (month (now t)) /\ regs t YEAR = encode bcd (year (now t));
  ck_range t : two_digits (second (now t)) /\ two_digits (minute (now t)) /\ two_digits (hour (now t)) /\
    two_digits (day (now t)) /\ two_digits (month (now t)) /\ two_digits (year (now t));
  ck_second t t' : (t <= t' <= t + 13)%nat -> now t <> now t' -> second (now t) <> second (now t');
  ck_one t u t' : (t <= u <= t')%nat -> (t' <= t + 13)%nat -> now u = now t \/ now u = now t';
}.

Lemma encode_byte b n : two_digits n -> u8 (encode b n) = encode b n.
Proof. unfold two_digits, encode, u8. intros. destruct b; Z.div_mod_to_equations; lia. Qed.

Lemma encode_inj b n n' : two_digits n -> two_digits n' -> encode b n = encode b n' -> n = n'.
Proof. unfold two_digits, encode. intros. destruct b; Z.div_mod_to_equations; lia. Qed.

Lemma conv_encode n : two_digits n -> conv (encode true n) = n.
Proof.
  unfold two_digits, conv, encode. intros Hn. rewrite Z.shiftr_div_pow2 by done. change 0xf with (Z.ones 4). rewrite Z.land_ones by done.
  rewrite u32_small; [|unfold is_u32, W32]; Z.div_mod_to_equations; lia.
Qed.

(** What fill_rtcdate() reads, starting at time [t]. *)
Definition snap (b : bool) (now : nat -> rtcdate) (t : nat) : rtcdate :=
  mkdate (encode b (second (now t))) (encode b (minute (now (1 + t)%nat))) (encode b (hour (now (2 + t)%nat)))
    (encode b (day (now (3 + t)%nat))) (encode b (month (now (4 + t)%nat))) (encode b (year (now (5 + t)%nat))).

Definition enc_date (b : bool) (d : rtcdate) : rtcdate :=
  mkdate (encode b (second d)) (encode b (minute d)) (encode b (hour d)) (encode b (day d)) (encode b (month d)) (encode b (year d)).

Context (b : bool) (now : nat -> rtcdate) (Hck : clock b now).

Lemma fill_run t : fill_rtcdate t = Ok (snap b now t) (6 + t)%nat.
Proof.
  unfold fill_rtcdate, bind, cmos_read, ret, snap.
  destruct (ck_regs _ _ Hck t) as (->&_). destruct (ck_regs _ _ Hck (S t)) as (_&->&_). destruct (ck_regs _ _ Hck (S (S t))) as (_&_&->&_).
  destruct (ck_regs _ _ Hck (S (S (S t)))) as (_&_&_&->&_). destruct (ck_regs _ _ Hck (S (S (S (S t))))) as (_&_&_&_&->&_).
  destruct (ck_regs _ _ Hck (S (S (S (S (S t)))))) as (_&_&_&_&_&->). rewrite !encode_byte by apply Hck. done.
Qed.

Lemma snap_const d t : (forall k, (k <= 5)%nat -> now (k + t)%nat = d) -> snap b now t = enc_date b d.
Proof.
  intros H. unfold snap, enc_date.
  rewrite (H 1%nat), (H 2%nat), (H 3%nat), (H 4%nat), (H 5%nat) by lia. by rewrite (H 0%nat ltac:(lia) : now t = d).
Qed.

(** Two reads that agree have both read the date of the time between them. *)
Lemma double_read t : snap b now t = snap b now (7 + t) -> snap b now t = enc_date b (now (6 + t)%nat).
Proof.
  intros E. assert (Es : now t = now (7 + t)%nat).
  { destruct (decide (now t = now (7 + t)%nat)) as [|Hn]; [done|]. apply (ck_second _ _ Hck) in Hn; [|lia]. exfalso. apply Hn.
    injection E as E _. apply encode_inj in E; [done|apply Hck..]. }
  assert (Hall : forall u, (t <= u <= 7 + t)%nat -> now u = now t).
  { intros u Hu. destruct (ck_one _ _ Hck t u (7 + t)%nat) as [|Hr]; [lia|lia|done|]. by rewrite Hr. }
  rewrite (Hall (6 + t)%nat) by lia. apply snap_const. intros k Hk. apply Hall. lia.
Qed.

(** A time without a tick or an update. *)
Definition still (n : nat) : Prop :=
  forall t, (n <= t <= n + 26)%nat -> now t = now n /\ Z.land (u8 (regs t CMOS_STATA)) CMOS_UIP = 0.

Lemma cmos_loop_run n : still n -> forall fuel t, (t <= n + 13)%nat -> (n < fuel + t)%nat -> (0 < fuel)%nat ->
  exists u t', (t <= u < t')%nat /\ cmos_loop fuel t = Ok (enc_date b (now u)) t'.
Proof.
  intros Hst. induction fuel as [|fuel IH]; intros t Ht Hf Hpos; [lia|]. cbn [cmos_loop]. unfold bind at 1. rewrite fill_run.
  unfold bind at 1. unfold cmos_read at 1.
  destruct (Z.eqb_spec (Z.land (u8 (regs (6 + t)%nat CMOS_STATA)) CMOS_UIP) 0) as [E|E]; cbn [negb].
  - unfold bind at 1. change (S (6 + t)) with (7 + t)%nat. rewrite fill_run. case_bool_decide as Eq.
    + exists (6 + t)%nat, (13 + t)%nat. split; [lia|]. cbn. by rewrite double_read.
    + assert (t < n)%nat.
      { destruct (decide (n <= t)%nat); [|lia]. exfalso. apply Eq.
        rewrite !(snap_const (now n)); [done|intros k Hk; apply Hst; lia..]. }
      destruct (IH (6 + (7 + t))%nat) as (u&t'&Hu&E2); [lia|lia|lia|]. exists u, t'. split; [lia|done].
  - assert (t < n)%nat.
    { destruct (decide (n <= t)%nat); [|lia]. exfalso. apply E. apply (Hst (6 + t)%nat). lia. }
    destruct (IH (7 + t)%nat) as (u&t'&Hu&E2); [lia|lia|lia|]. exists u, t'. split; [lia|done].
Qed.

End cmos.

(** A clock that ticks from 10:59:59 to 11:00:00 while it is read. *)
Module Example.
Definition ticking (t : nat) : rtcdate := if (t <? 3)%nat then mkdate 59 59 10 15 11 26 else mkdate 0 0 11 15 11 26.
Definition registers (t : nat) (r : Z) : Z :=
  let d := ticking t in
  if r =? SECS then encode true (second d) else if r =? MINS then encode true (minute d) else if r =? HOURS then encode true (hour d)
  else if r =? DAY then encode true (day d) else if r =? MONTH then encode true (month d) else if r =? YEAR then encode true (year d) else 0.

Lemma ticking_clock : clock registers true ticking.
Proof.
  split.
  - done.
  - intros t. done.
  - intros t. unfold ticking, two_digits. destruct (t <? 3)%nat; cbn; lia.
  - intros t t' _. unfold ticking. destruct (t <? 3)%nat, (t' <? 3)%nat; done.
  - intros t u t' Htu _. unfold ticking. destruct (Nat.ltb_spec t 3), (Nat.ltb_spec u 3), (Nat.ltb_spec t' 3); auto; lia.
Qed.

End Example.
