(* ===== verification/Uthread.v ===== *)
(** uthread.c and uthread_switch.S: user-level threads.

    The memory is the 32-bit words at the addresses that are multiples of
    four; the C code and the assembly code work on the same memory, so that
    the stacks that thread_create() prepares are the ones thread_switch()
    loads.  The fields of a struct thread at [t] are sp at [t], the stack
    from [t + 4] on and state at [t + 8196]. *)

From stdpp Require Import base functions.
From S2P Require Import Prelude Params Bytes.

Definition FREE : Z := 0.
Definition RUNNING : Z := 1.
Definition RUNNABLE : Z := 2.
Definition STACK_SIZE : Z := 8192.
Definition MAX_THREAD : Z := 4.
Definition sizeof_thread : Z := 4 + STACK_SIZE + 4.

Record regs := {
  r_eax : Z; r_ecx : Z; r_edx : Z; r_ebx : Z; r_esp : Z; r_ebp : Z; r_esi : Z; r_edi : Z
}.

Record ustate := {
  umem : Z -> Z;
  current_thread : Z;
  next_thread : Z;
  ureg : regs
}.

Definition set_mem (f : (Z -> Z) -> (Z -> Z)) (s : ustate) : ustate :=
  {| umem := f (umem s); current_thread := current_thread s; next_thread := next_thread s; ureg := ureg s |}.
Definition set_current (t : Z) (s : ustate) : ustate :=
  {| umem := umem s; current_thread := t; next_thread := next_thread s; ureg := ureg s |}.
Definition set_next (t : Z) (s : ustate) : ustate :=
  {| umem := umem s; current_thread := current_thread s; next_thread := t; ureg := ureg s |}.
Definition set_reg (f : regs -> regs) (s : ustate) : ustate :=
  {| umem := umem s; current_thread := current_thread s; next_thread := next_thread s; ureg := f (ureg s) |}.

Definition store (a v : Z) (s : ustate) : ustate := set_mem <[a := v]> s.

Definition with_eax (v : Z) (r : regs) : regs :=
  {| r_eax := v; r_ecx := r_ecx r; r_edx := r_edx r; r_ebx := r_ebx r; r_esp := r_esp r;
     r_ebp := r_ebp r; r_esi := r_esi r; r_edi := r_edi r |}.
Definition with_esp (v : Z) (r : regs) : regs :=
  {| r_eax := r_eax r; r_ecx := r_ecx r; r_edx := r_edx r; r_ebx := r_ebx r; r_esp := v;
     r_ebp := r_ebp r; r_esi := r_esi r; r_edi := r_edi r |}.

Definition push (v : Z) (s : ustate) : ustate :=
  let a := r_esp (ureg s) - 4 in store a v (set_reg (with_esp a) s).

(** pushal pushes the stack pointer as it was before the instruction. *)
Definition pushal (s : ustate) : ustate :=
  let r := ureg s in let a := r_esp r in
  set_reg (with_esp (a - 32)) (set_mem (fun m =>
    <[a - 32 := r_edi r]> (<[a - 28 := r_esi r]> (<[a - 24 := r_ebp r]> (<[a - 20 := r_esp r]>
    (<[a - 16 := r_ebx r]> (<[a - 12 := r_edx r]> (<[a - 8 := r_ecx r]> (<[a - 4 := r_eax r]> m)))))))) s).

(** popal pops the registers and skips the saved stack pointer. *)
Definition popal (s : ustate) : ustate :=
  let m := umem s in let a := r_esp (ureg s) in
  set_reg (fun _ =>
    {| r_edi := m a; r_esi := m (a + 4); r_ebp := m (a + 8); r_ebx := m (a + 16); r_edx := m (a + 20);
       r_ecx := m (a + 24); r_eax := m (a + 28); r_esp := a + 32 |}) s.

(** The result is the address that ret jumps to. *)
Definition thread_switch (s : ustate) : Z * ustate :=
  let s := pushal s in
  let s := set_reg (with_eax (current_thread s)) s in
  let s := store (r_eax (ureg s)) (r_esp (ureg s)) s in
  let s := set_reg (with_eax (next_thread s)) s in
  let s := set_reg (with_esp (umem s (r_eax (ureg s)))) s in
  let s := popal s in
  let s := set_reg (with_eax (next_thread s)) s in
  let s := set_current (r_eax (ureg s)) s in
  let s := set_reg (with_eax 0) s in
  let s := set_next (r_eax (ureg s)) s in
  (umem s (r_esp (ureg s)), set_reg (with_esp (r_esp (ureg s) + 4)) s).

Section Threads.

(** Where the linker puts the array. *)
Context (all_thread : Z).

Definition thr (i : Z) : Z := all_thread + i * sizeof_thread.
Definition state_at (t : Z) : Z := t + 4 + STACK_SIZE.
Definition tstate (s : ustate) (t : Z) : Z := umem s (state_at t).
Definition set_state (t v : Z) (s : ustate) : ustate := store (state_at t) v s.

Definition threads : list Z := thr <$> seqZ 0 MAX_THREAD.

Definition thread_init (s : ustate) : ustate :=
  let s := set_current (thr 0) s in set_state (current_thread s) RUNNING s.

(** [ra] is the return address that the call of thread_switch() pushes; None
    is the exit() of the process. *)
Definition thread_schedule (ra : Z) (s : ustate) : option (Z * ustate) :=
  let s := set_next 0 s in
  let found := List.find (fun t => (tstate s t =? RUNNABLE) && negb (t =? current_thread s)) threads in
  let s :=
    match found with
    | Some t => set_next t s
    | None =>
        if tstate s (current_thread s) =? RUNNABLE then set_next (current_thread s) s else s
    end in
  if next_thread s =? 0 then None
  else if negb (current_thread s =? next_thread s) then
    Some (thread_switch (push ra (set_state (next_thread s) RUNNING s)))
  else Some (ra, set_next 0 s).

(** The loop leaves [t] after the array when no thread is free. *)
Definition free_slot (s : ustate) : Z :=
  default (thr MAX_THREAD) (List.find (fun t => tstate s t =? FREE) threads).

Definition thread_create (func : Z) (s : ustate) : ustate :=
  let t := free_slot s in
  let s := store t (t + 4 + STACK_SIZE) s in
  let s := store t (umem s t - 4) s in
  let s := store (umem s t) func s in
  let s := store t (umem s t - 32) s in
  set_state t RUNNABLE s.

Definition thread_yield (ra : Z) (s : ustate) : option (Z * ustate) :=
  thread_schedule ra (set_state (current_thread s) RUNNABLE s).

(** * Switching *)

(** The stack pointer is in the stack of [t], with [n] bytes of room. *)
Definition on_stack (t n esp : Z) : Prop := t + 4 + n <= esp /\ esp <= t + STACK_SIZE.

(** Two slots of the array. *)
Definition slots (a b : Z) : Prop :=
  exists i j, a = thr i /\ b = thr j /\ 0 <= i < MAX_THREAD /\ 0 <= j < MAX_THREAD /\ i <> j.

(** The words of a thread that is not running: its saved stack pointer and
    what thread_switch() pushed. *)
Definition saved_word (t esp a : Z) : Prop := a = t \/ esp - 32 <= a <= esp.

End Threads.

Lemma word_eq (m : Z -> Z) a b v : a = b -> <[a := v]> m b = v.
Proof. intros ->. apply fn_lookup_insert. Qed.
Lemma word_ne (m : Z -> Z) a b v : a <> b -> <[a := v]> m b = m b.
Proof. apply fn_lookup_insert_ne. Qed.

(** Reads of an updated memory. *)
Ltac words := repeat first [rewrite word_eq by lia | rewrite word_ne by lia].

(** pushal leaves the eight words below the stack pointer that popal reads. *)
Lemma pushal_spec s :
  let esp := r_esp (ureg s) in let r := ureg s in let m := umem (pushal s) in
  (ureg (pushal s) = with_esp (esp - 32) r /\
   current_thread (pushal s) = current_thread s /\ next_thread (pushal s) = next_thread s) /\
  (m (esp - 4) = r_eax r /\ m (esp - 8) = r_ecx r /\ m (esp - 12) = r_edx r /\ m (esp - 16) = r_ebx r /\
   m (esp - 24) = r_ebp r /\ m (esp - 28) = r_esi r /\ m (esp - 32) = r_edi r) /\
  (forall a, a < esp - 32 \/ esp <= a -> m a = umem s a).
Proof.
  intros esp r m. subst esp r m. unfold pushal, set_mem, set_reg. cbn [umem ureg current_thread next_thread].
  split; [done|]. split; [split_and!; words; done | intros a Ha; words; done].
Qed.

(** One switch: the registers and the return address come from the stack
    that the next thread's sp points to, after the stores of the current
    thread's context. *)
Lemma thread_switch_spec s :
  let r := ureg s in let s' := (thread_switch s).2 in
  let m := <[current_thread s := r_esp r - 32]> (umem (pushal s)) in
  let p := m (next_thread s) in
  umem s' = m /\ current_thread s' = next_thread s /\ next_thread s' = 0 /\
  (thread_switch s).1 = m (p + 32) /\
  ureg s' =
  {| r_eax := 0; r_ecx := m (p + 24); r_edx := m (p + 20); r_ebx := m (p + 16); r_esp := p + 36;
     r_ebp := m (p + 8); r_esi := m (p + 4); r_edi := m p |}.
Proof.
  destruct (pushal_spec s) as ((R & C & N) & _). intros r s' m p. subst s' m p.
  unfold thread_switch. destruct (pushal s) as [pm pc pn pr]. cbn in R, C, N. subst pc pn pr.
  cbv beta iota zeta delta [store set_mem set_reg set_current set_next with_eax with_esp popal fst snd
    umem ureg current_thread next_thread r_eax r_ecx r_edx r_ebx r_esp r_ebp r_esi r_edi].
  split_and!; try reflexivity. f_equal. subst r. rewrite <- Z.add_assoc. reflexivity.
Qed.

#[local] Opaque thread_switch pushal.

Section Theorems.

Context (all_thread : Z).

Lemma slots_apart a b : slots all_thread a b -> a + sizeof_thread <= b \/ b + sizeof_thread <= a.
Proof. intros (i & j & -> & -> & Hi & Hj & Hij). unfold thr, MAX_THREAD, sizeof_thread, STACK_SIZE. lia. Qed.

(** thread_switch() saves and restores a thread.  If thread [a] switches
    to [b] and later [b], running on its own stack, switches back to [a]
    while the saved words of [a] are unchanged, then the second switch
    returns to where [a] called the first one, with [a]'s stack and the
    registers [a] had, eax being zero, and [a] is the current thread. *)
Theorem thread_switch_resumes (a b : Z) (s1 s3 : ustate) :
  let s2 := (thread_switch s1).2 in
  let s4 := (thread_switch s3).2 in
  let esp := r_esp (ureg s1) in
  slots all_thread a b ->
  current_thread s1 = a -> next_thread s1 = b -> on_stack a 32 esp ->
  current_thread s3 = b -> next_thread s3 = a -> on_stack b 32 (r_esp (ureg s3)) ->
  (forall w, saved_word a esp w -> umem s3 w = umem s2 w) ->
  (thread_switch s3).1 = umem s1 esp /\
  ureg s4 = with_eax 0 (with_esp (esp + 4) (ureg s1)) /\
  current_thread s4 = a /\ next_thread s4 = 0.
Proof.
  intros s2 s4 esp Hab C1 N1 O1 C3 N3 O3 Hkeep. apply slots_apart in Hab.
  pose proof (thread_switch_spec s1) as X1. cbv zeta in X1. fold s2 in X1. fold esp in X1.
  pose proof (thread_switch_spec s3) as X3. cbv zeta in X3. fold s4 in X3.
  pose proof (pushal_spec s1) as Y1. cbv zeta in Y1. fold esp in Y1.
  pose proof (pushal_spec s3) as Y3. cbv zeta in Y3.
  clearbody s2 s4 esp. rewrite C1 in X1. rewrite C3, N3 in X3.
  destruct X1 as (M2 & _), X3 as (_ & C4 & N4 & A4 & R4), Y3 as (_ & _ & Q8).
  destruct Y1 as (_ & (P1 & P2 & P3 & P4 & P5 & P6 & P7) & P8).
  unfold on_stack, STACK_SIZE, sizeof_thread, saved_word, STACK_SIZE in *.
  set (m := <[b := _]> (umem (pushal s3))) in *.
  assert (K : forall w, w = a \/ esp - 32 <= w <= esp -> m w = umem s2 w).
  { intros w Hw. subst m. rewrite word_ne by lia. rewrite Q8 by lia. by apply Hkeep. }
  clearbody m. rewrite A4, R4, C4, N4.
  assert (E : m a = esp - 32) by (rewrite K, M2 by lia; words; done).
  rewrite E, !K, M2 by lia. words.
  replace (esp - 32 + 32) with esp by lia. replace (esp - 32 + 24) with (esp - 8) by lia.
  replace (esp - 32 + 20) with (esp - 12) by lia. replace (esp - 32 + 16) with (esp - 16) by lia.
  replace (esp - 32 + 8) with (esp - 24) by lia. replace (esp - 32 + 4) with (esp - 28) by lia.
  rewrite P8, P2, P3, P4, P5, P6, P7 by lia. unfold with_eax, with_esp. cbn. split_and!; try done. f_equal; lia.
Qed.

(** Addresses in the array. *)
Ltac slot_lia := unfold on_stack, state_at, thr, sizeof_thread, STACK_SIZE, MAX_THREAD in *; lia.

(** ** New threads *)

(** The context of a switch is saved outside of the memory from [t] to [t + n]. *)
Definition saves_outside (t n : Z) (s : ustate) : Prop :=
  (current_thread s < t \/ t + n <= current_thread s) /\
  (r_esp (ureg s) <= t \/ t + n <= r_esp (ureg s) - 32).

Lemma switch_mem_out t n s a :
  saves_outside t n s -> t <= a < t + n -> umem (thread_switch s).2 a = umem s a.
Proof.
  intros [Hc He] Ha. pose proof (thread_switch_spec s) as X. pose proof (pushal_spec s) as Y.
  cbv zeta in X, Y. destruct X as (-> & _), Y as (_ & _ & Y). rewrite word_ne by lia. apply Y. lia.
Qed.

Lemma free_slot_first i s :
  0 <= i < MAX_THREAD -> tstate s (thr all_thread i) = FREE ->
  (forall j, 0 <= j < i -> tstate s (thr all_thread j) <> FREE) ->
  free_slot all_thread s = thr all_thread i.
Proof.
  intros Hi Hf Hj. unfold free_slot.
  change (threads all_thread) with (thr all_thread <$> [0; 1; 2; 3]). cbn [fmap list_fmap List.find].
  assert (i = 0 \/ i = 1 \/ i = 2 \/ i = 3) as Hc by (unfold MAX_THREAD in Hi; lia).
  destruct Hc as [->|[->|[->| ->]]]; rewrite ?Hf;
    repeat (rewrite (proj2 (Z.eqb_neq _ _)) by (apply Hj; lia)); by rewrite ?Z.eqb_refl.
Qed.

(** a thread that thread_create(func) makes starts in func: the first
    free slot becomes RUNNABLE, no memory outside of it changes, and the
    first switch to it, from any thread whose context is saved outside of
    it, returns to func with an empty stack of 8192 bytes. *)
Theorem thread_create_starts (func i : Z) (s : ustate) :
  let t := thr all_thread i in
  let s' := thread_create all_thread func s in
  0 <= i < MAX_THREAD -> tstate s t = FREE ->
  (forall j, 0 <= j < i -> tstate s (thr all_thread j) <> FREE) ->
  tstate s' t = RUNNABLE /\
  (forall a, a < t \/ t + sizeof_thread <= a -> umem s' a = umem s a) /\
  forall q, next_thread q = t -> saves_outside t sizeof_thread q ->
    (forall a, t <= a < t + sizeof_thread -> umem q a = umem s' a) ->
    (thread_switch q).1 = func /\ r_esp (ureg (thread_switch q).2) = t + 4 + STACK_SIZE /\
    current_thread (thread_switch q).2 = t.
Proof.
  intros t s' Hi Hf Hj. pose proof (free_slot_first i s Hi Hf Hj) as Hs. fold t in Hs.
  assert (E : umem s' = <[t + 8196 := RUNNABLE]> (<[t := t + 8160]> (<[t + 8192 := func]>
                (<[t := t + 8192]> (<[t := t + 8196]> (umem s)))))).
  { subst s'. unfold thread_create. rewrite Hs.
    unfold set_state, store, set_mem, state_at, STACK_SIZE. cbn [umem].
    rewrite (word_eq (umem s) t t) by done. rewrite (word_eq _ t t (t + 4 + 8192 - 4)) by done. words.
    replace (t + 4 + 8192 - 4 - 32) with (t + 8160) by lia. replace (t + 4 + 8192 - 4) with (t + 8192) by lia.
    by replace (t + 4 + 8192) with (t + 8196) by lia. }
  clearbody s' t. unfold tstate, state_at, STACK_SIZE, sizeof_thread, STACK_SIZE in *. rewrite !E. split; [words; done|].
  split; [intros a Ha; words; done|]. intros q Hn Ho Hq.
  pose proof (switch_mem_out t (4 + 8192 + 4) q) as K.
  pose proof (thread_switch_spec q) as X. cbv zeta in X. destruct X as (Xm & Xc & _ & Xa & Xr).
  rewrite Xa, Xr, Xc, <- Xm. cbn [r_esp]. rewrite Hn.
  assert (P : umem (thread_switch q).2 t = t + 8160) by (rewrite K, Hq by (done || lia); words; done).
  rewrite P, K, Hq by (done || lia). words. split_and!; [done|lia|done].
Qed.

(** ** Yielding *)

(** The current thread runs, on its own stack and without changing the
    states of threads, and then calls thread_yield(). *)
Definition yield_step (s s' : ustate) : Prop :=
  exists s1 ra rb,
    current_thread s1 = current_thread s /\
    (forall i, 0 <= i < MAX_THREAD -> tstate s1 (thr all_thread i) = tstate s (thr all_thread i)) /\
    on_stack (current_thread s1) 36 (r_esp (ureg s1)) /\
    thread_yield all_thread ra s1 = Some (rb, s').

(** Main does not run again, one of the threads 1 and 2 is current and the
    other is runnable. *)
Definition two_first (s : ustate) : Prop :=
  tstate s (thr all_thread 0) <> RUNNABLE /\
  exists i, (i = 1 \/ i = 2) /\
  current_thread s = thr all_thread i /\ tstate s (thr all_thread (3 - i)) = RUNNABLE.

Lemma yield_two_first s s' : 0 < all_thread -> two_first s -> yield_step s s' -> two_first s'.
Proof.
  intros Hb [H0 (i & Hi & Hc & Ho)] (s1 & ra & rb & C1 & S1 & O1 & Hy).
  rewrite Hc in C1. set (t := thr all_thread i) in *. set (u := thr all_thread (3 - i)) in *.
  assert (T0 : tstate s1 (thr all_thread 0) = tstate s (thr all_thread 0)) by (apply S1; done).
  assert (Tu : tstate s1 u = RUNNABLE) by (rewrite <- Ho; apply S1; unfold MAX_THREAD; lia).
  set (s2 := set_state t RUNNABLE s1) in *.
  assert (M2 : forall a, a <> state_at t -> umem s2 a = umem s1 a)
    by (intros a Ha; by apply word_ne).
  assert (Hf : List.find (fun t' => (tstate s2 t' =? RUNNABLE) && negb (t' =? t)) (threads all_thread) = Some u).
  { change (threads all_thread) with (thr all_thread <$> [0; 1; 2; 3]). cbn [fmap list_fmap List.find].
    unfold tstate in *. subst t u.
    rewrite (M2 (state_at (thr all_thread 0))), T0, (proj2 (Z.eqb_neq _ _) H0) by slot_lia.
    destruct Hi as [->| ->]; [change (3 - 1) with 2 in *|change (3 - 2) with 1 in *]; cbn [andb].
    - rewrite Z.eqb_refl, andb_false_r, M2, Tu, Z.eqb_refl, (proj2 (Z.eqb_neq _ _)) by slot_lia. done.
    - rewrite M2, Tu, Z.eqb_refl, (proj2 (Z.eqb_neq _ _)) by slot_lia. done. }
  unfold thread_yield, thread_schedule in Hy. rewrite C1 in Hy. fold s2 in Hy.
  change (tstate (set_next 0 s2)) with (tstate s2) in Hy. change (current_thread (set_next 0 s2)) with (current_thread s1) in Hy.
  rewrite C1, Hf in Hy. cbn [next_thread set_next current_thread] in Hy.
  change (current_thread s2) with (current_thread s1) in Hy.
  rewrite C1, (proj2 (Z.eqb_neq u 0)), (proj2 (Z.eqb_neq t u)) in Hy by (subst t u; slot_lia). cbn [negb] in Hy.
  set (q := push _ _) in Hy.
  assert (Hq : forall a, a <> r_esp (ureg s1) - 4 -> a <> state_at u -> umem q a = umem s2 a)
    by (intros a Ha Ha'; subst q; unfold push, set_state, store, set_mem; cbn [umem ureg set_reg set_next];
        change (ureg s2) with (ureg s1); rewrite 2!word_ne by congruence; done).
  assert (current_thread q = t /\ next_thread q = u /\ r_esp (ureg q) = r_esp (ureg s1) - 4) as (Cq & Nq & Eq) by done.
  clearbody q. pose proof (thread_switch_spec q) as X. pose proof (pushal_spec q) as Y. cbv zeta in X, Y.
  destruct X as (Xm & Xc & _), Y as (_ & _ & Y). rewrite C1 in O1. apply (inj Some) in Hy. rewrite Hy in Xm, Xc. cbn [snd] in Xm, Xc.
  assert (K : forall j, 0 <= j < MAX_THREAD -> thr all_thread j <> u ->
              tstate s' (thr all_thread j) = tstate s2 (thr all_thread j)).
  { intros j Hj Hju. unfold tstate. rewrite Xm, Cq, word_ne, Y, Hq; rewrite ?Eq; subst t u; slot_lia. }
  assert (Et : tstate s2 t = RUNNABLE) by (by apply word_eq).
  split; [rewrite K by (subst u; slot_lia); unfold tstate; rewrite M2 by (subst t; slot_lia); by rewrite <- T0 in H0|].
  exists (3 - i). split; [lia|]. rewrite Xc, Nq. split; [done|].
  replace (3 - (3 - i)) with i by lia. by rewrite K by (subst u; slot_lia).
Qed.

(** Three threads that yield: the third one never runs, since the scan for a
    runnable thread starts at the first slot every time. *)
Theorem third_thread_starves s s' :
  0 < all_thread -> two_first s -> rtc yield_step s s' -> current_thread s' <> thr all_thread 3.
Proof.
  intros Hb Hs Hr. assert (two_first s') as (_ & i & Hi & -> & _)
    by (induction Hr as [|x y z Hxy _ IH]; [done|by apply IH, (yield_two_first x)]). slot_lia.
Qed.

End Theorems.

Module Example.

Definition base : Z := 0x1000.
Definition t1 : Z := thr base 1.
Definition t2 : Z := thr base 2.

(** Threads 1 and 2 after main has made them, with thread 1 running. *)
Definition regs1 : regs := Build_regs 1 2 3 4 (t1 + 8000) 5 6 7.
Definition s0 : ustate := Build_ustate (fun _ => 0) 0 0 regs1.
Definition made : ustate :=
  set_next t2 (set_current t1 (set_state t1 RUNNING (thread_create base 0x200 (thread_create base 0x100 (thread_init base s0))))).
(** The code of thread 2 runs and calls thread_switch(). *)
Definition back : ustate :=
  set_next t1 (set_reg (fun _ => Build_regs 9 9 9 9 (t2 + 8100) 9 9 9) (thread_switch made).2).

Lemma slots12 : slots base t1 t2.
Proof. exists 1, 2. unfold MAX_THREAD. split_and!; lia || done. Qed.

Lemma umem_set_next_reg t f s : umem (set_next t (set_reg f s)) = umem s.
Proof. reflexivity. Qed.

Lemma thread_switch_resumes_witness :
  current_thread made = t1 /\ current_thread back = t2 /\
  ureg (thread_switch back).2 = with_eax 0 (with_esp (r_esp (ureg made) + 4) (ureg made)).
Proof.
  assert (C : current_thread made = t1) by (vm_compute; reflexivity).
  assert (D : current_thread back = t2) by (vm_compute; reflexivity).
  split; [exact C|]. split; [exact D|].
  refine (proj1 (proj2 (thread_switch_resumes base t1 t2 made back slots12 C _ _ D _ _ _))).
  - vm_compute. reflexivity.
  - vm_compute. split; discriminate.
  - vm_compute. reflexivity.
  - vm_compute. split; discriminate.
  - intros w _. unfold back. rewrite (umem_set_next_reg t1 (fun _ => Build_regs 9 9 9 9 (t2 + 8100) 9 9 9)). reflexivity.
Defined.

Lemma thread_create_starts_witness :
  tstate made t2 = RUNNABLE /\ (thread_switch made).1 = 0x200.
Proof.
  destruct (thread_create_starts base 0x200 2 (thread_create base 0x100 (thread_init base s0))) as (_ & _ & H).
  - vm_compute. split; [discriminate|reflexivity].
  - vm_compute. reflexivity.
  - intros j Hj. assert (j = 0 \/ j = 1) as [->| ->] by lia; vm_compute; discriminate.
  - split; [vm_compute; reflexivity|]. apply (H made).
    + vm_compute. reflexivity.
    + vm_compute. split; left; [reflexivity|discriminate].
    + intros a Ha. unfold made, set_next, set_current, set_state, store, set_mem. cbn [umem].
      apply word_ne. unfold state_at, t1, thr, sizeof_thread, STACK_SIZE in *. lia.
Defined.

(** With the main thread and three others there is no free slot: the fourth
    call of thread_create() stores after the end of the array. *)
Definition full : ustate :=
  thread_create base 0x300 (thread_create base 0x200 (thread_create base 0x100 (thread_init base s0))).

Theorem thread_create_overrun :
  umem full (thr base MAX_THREAD) = 0 /\
  umem (thread_create base 0x400 full) (thr base MAX_THREAD) = thr base MAX_THREAD + 8160.
Proof. vm_compute. done. Qed.

End Example.
