(* ===== verification/Sh.v ===== *)
(** sh.c: the parser of the shell.

    A char* into the command line is the part of the line that starts there;
    the pointer [es] is the empty rest, where the terminating zero is.  The
    state of the parser is *ps.  A command tree holds, for every word, the
    pointers to its start and to its end; nulterminate() writes a zero at
    every end.  runcmd() and main() are in ShRun.v. *)

From S2P Require Import Prelude Params Bytes CString Ulib.

Definition MAXARGS : nat := 10.

(** The structs execcmd, redircmd, pipecmd, listcmd and backcmd, with the
    words as [W]. *)
Inductive cmd (W : Type) : Type :=
  | EXEC (argv : list W)
  | REDIR (c : cmd W) (file : W) (mode fd : Z)
  | PIPE (left right : cmd W)
  | LIST (left right : cmd W)
  | BACK (c : cmd W).
Arguments EXEC {W} argv.
Arguments REDIR {W} c file mode fd.
Arguments PIPE {W} left right.
Arguments LIST {W} left right.
Arguments BACK {W} c.

(** argv[i] and eargv[i], or file and efile. *)
Definition word : Type := (list Z * list Z)%type.

(** The characters: < > | & ; ( ) *)
Definition LT : Z := 60.
Definition GT : Z := 62.
Definition BAR : Z := 124.
Definition AMP : Z := 38.
Definition SEMI : Z := 59.
Definition LPAR : Z := 40.
Definition RPAR : Z := 41.

Definition whitespace : list Z := [32; 9; 13; 10; 11].
Definition symbols : list Z := [LT; BAR; GT; AMP; SEMI; LPAR; RPAR].

Definition is_in (set : list Z) (c : Z) : bool :=
  match strchr set c with Some _ => true | None => false end.

(** while(s < es && strchr(whitespace, *s)) s++; *)
Fixpoint skip_space (s : list Z) : list Z :=
  match s with
  | c :: s' => if is_in whitespace c then skip_space s' else s
  | [] => []
  end.

Definition word_char (c : Z) : bool := negb (is_in whitespace c) && negb (is_in symbols c).

(** while(s < es && !strchr(whitespace, *s) && !strchr(symbols, *s)) s++; *)
Fixpoint skip_word (s : list Z) : list Z :=
  match s with
  | c :: s' => if word_char c then skip_word s' else s
  | [] => []
  end.

(** The switch of gettoken(): the token and where it ends.  97 is 'a', 43 is '+'. *)
Definition token_at (s : list Z) : Z * list Z :=
  match s with
  | [] => (0, [])
  | c :: s' =>
      if is_in [BAR; LPAR; RPAR; SEMI; AMP; LT] c then (c, s')
      else if c =? GT then
        match s' with
        | d :: s'' => if d =? GT then (43, s'') else (c, s')
        | [] => (c, s')
        end
      else (97, skip_word s)
  end.

Definition gettoken : M (list Z) (Z * word) :=
  fun s =>
    let q := skip_space s in
    let '(tok, eq) := token_at q in
    Ok (tok, (q, eq)) (skip_space eq).

Definition peek (toks : list Z) : M (list Z) bool :=
  fun s =>
    let s := skip_space s in
    Ok (match s with [] => false | c :: _ => is_in toks c end) s.

Fixpoint parseredirs (fuel : nat) (c : cmd word) : M (list Z) (cmd word) :=
  match fuel with
  | O => nofuel
  | S fuel =>
      let* b := peek [LT; GT] in
      if b then
        let* t := gettoken in
        let* w := gettoken in
        if negb (w.1 =? 97) then panic "missing file for redirection"
        else if t.1 =? LT then parseredirs fuel (REDIR c w.2 O_RDONLY 0)
        else if t.1 =? GT then parseredirs fuel (REDIR c w.2 (Z.lor O_WRONLY O_CREATE) 1)
        else if t.1 =? 43 then parseredirs fuel (REDIR c w.2 (Z.lor O_WRONLY O_CREATE) 1)
        else parseredirs fuel c
      else ret c
  end.

(** cmd->argv[argc] = w, where cmd is the execcmd that parseexec() made, under
    the redirections that have been put around it. *)
Fixpoint add_arg (c : cmd word) (w : word) : cmd word :=
  match c with
  | EXEC argv => EXEC (argv ++ [w])
  | REDIR c f mode fd => REDIR (add_arg c w) f mode fd
  | c => c
  end.

(** The loop of parseexec(). *)
Fixpoint parseargs (fuel : nat) (argc : nat) (c : cmd word) : M (list Z) (cmd word) :=
  match fuel with
  | O => nofuel
  | S fuel =>
      let* b := peek [BAR; RPAR; AMP; SEMI] in
      if b then ret c
      else
        let* t := gettoken in
        if t.1 =? 0 then ret c
        else if negb (t.1 =? 97) then panic "syntax"
        else
          let c := add_arg c t.2 in
          if bool_decide (MAXARGS <= S argc)%nat then panic "too many args"
          else
            let* c := parseredirs fuel c in
            parseargs fuel (S argc) c
  end.

(** The loop of parseline(). *)
Fixpoint parsebacks (fuel : nat) (c : cmd word) : M (list Z) (cmd word) :=
  match fuel with
  | O => nofuel
  | S fuel =>
      let* b := peek [AMP] in
      if b then gettoken ;;; parsebacks fuel (BACK c) else ret c
  end.

Fixpoint parseline (fuel : nat) : M (list Z) (cmd word) :=
  match fuel with
  | O => nofuel
  | S fuel =>
      let* c := parsepipe fuel in
      let* c := parsebacks fuel c in
      let* b := peek [SEMI] in
      if b then
        gettoken ;;;
        let* r := parseline fuel in
        ret (LIST c r)
      else ret c
  end
with parsepipe (fuel : nat) : M (list Z) (cmd word) :=
  match fuel with
  | O => nofuel
  | S fuel =>
      let* c := parseexec fuel in
      let* b := peek [BAR] in
      if b then
        gettoken ;;;
        let* r := parsepipe fuel in
        ret (PIPE c r)
      else ret c
  end
with parseexec (fuel : nat) : M (list Z) (cmd word) :=
  match fuel with
  | O => nofuel
  | S fuel =>
      let* b := peek [LPAR] in
      if b then parseblock fuel
      else
        let* c := parseredirs fuel (EXEC []) in
        parseargs fuel 0 c
  end
with parseblock (fuel : nat) : M (list Z) (cmd word) :=
  match fuel with
  | O => nofuel
  | S fuel =>
      let* b := peek [LPAR] in
      if negb b then panic "parseblock"
      else
        gettoken ;;;
        let* c := parseline fuel in
        let* b := peek [RPAR] in
        if negb b then panic "syntax - missing )"
        else gettoken ;;; parseredirs fuel c
  end.

(** Every call of a parsing function consumes input before it calls itself
    again, through at most four others. *)
Definition parse_fuel (s : list Z) : nat := (4 * length s + 4)%nat.

(** The buffer is the line with its terminating zero; [n] is the length of
    the line. *)
Definition put_nul (n : nat) (p : list Z) (buf : list Z) : list Z := <[(n - length p)%nat := 0]> buf.

Fixpoint nulterminate (n : nat) (c : cmd word) (buf : list Z) : list Z :=
  match c with
  | EXEC argv => foldl (fun buf w => put_nul n w.2 buf) buf argv
  | REDIR c file _ _ => put_nul n file.2 (nulterminate n c buf)
  | PIPE l r => nulterminate n r (nulterminate n l buf)
  | LIST l r => nulterminate n r (nulterminate n l buf)
  | BACK c => nulterminate n c buf
  end.

(** The result is the tree and the buffer that its pointers point into. *)
Definition parsecmd (s : list Z) : outcome (list Z) (cmd word * list Z) :=
  (let* c := parseline (parse_fuel s) in
   let* _ := peek [] in
   let* rest := gets (fun s => s) in
   if bool_decide (rest <> []) then panic "syntax"
   else ret (c, nulterminate (length s) c (s ++ [0]))) s.

(** * The words of a parsed command *)

Fixpoint all_words {W} (P : W -> Prop) (c : cmd W) : Prop :=
  match c with
  | EXEC argv => Forall P argv /\ (length argv < MAXARGS)%nat
  | REDIR c f _ _ => all_words P c /\ P f
  | PIPE l r | LIST l r => all_words P l /\ all_words P r
  | BACK c => all_words P c
  end.

Fixpoint cmd_map {V W} (f : V -> W) (c : cmd V) : cmd W :=
  match c with
  | EXEC argv => EXEC (f <$> argv)
  | REDIR c x mode fd => REDIR (cmd_map f c) (f x) mode fd
  | PIPE l r => PIPE (cmd_map f l) (cmd_map f r)
  | LIST l r => LIST (cmd_map f l) (cmd_map f r)
  | BACK c => BACK (cmd_map f c)
  end.

(** What was typed between the two pointers. *)
Definition text (w : word) : list Z := take (length w.1 - length w.2) w.1.

(** The C string at [p] in the buffer: the bytes before the first zero. *)
Fixpoint until_nul (l : list Z) : list Z :=
  match l with
  | c :: l => if c =? 0 then [] else c :: until_nul l
  | [] => []
  end.
Definition string_at (n : nat) (buf : list Z) (w : word) : list Z := until_nul (drop (n - length w.1) buf).

Definition ends_word (s : list Z) : Prop := match s with [] => True | c :: _ => word_char c = false end.

(** A maximal word of the line. *)
Definition good_word (line : list Z) (w : word) : Prop :=
  exists x, w.1 = x ++ w.2 /\ x <> [] /\ Forall (fun c => word_char c = true) x /\ ends_word w.2 /\
    w.1 `suffix_of` line.

(** [m] returns with [Q] or panics: it does not run out of fuel. *)
Definition returns {S A} (m : M S A) (Q : A -> S -> Prop) (s : S) : Prop :=
  match m s with
  | Ok a s' => Q a s'
  | Panic _ => True
  | _ => False
  end.

Lemma returns_bind {S A B} (m : M S A) (k : A -> M S B) Q s :
  returns m (fun a => returns (k a) Q) s -> returns (bind m k) Q s.
Proof. unfold returns, bind. by destruct (m s). Qed.

Lemma returns_mono {S A} (m : M S A) (P Q : A -> S -> Prop) s :
  returns m P s -> (forall a s', P a s' -> Q a s') -> returns m Q s.
Proof. unfold returns. destruct (m s); auto. Qed.

Lemma skip_space_suffix s : skip_space s `suffix_of` s.
Proof.
  induction s as [|c s IH]; [done|]. cbn. destruct (is_in whitespace c); [|done].
  by apply suffix_cons_r.
Qed.

Lemma skip_word_spec s :
  exists x, s = x ++ skip_word s /\ Forall (fun c => word_char c = true) x /\ ends_word (skip_word s).
Proof.
  induction s as [|c s (x & Hs & Hx & He)]; [by exists []|]. cbn. destruct (word_char c) eqn:Hc.
  - exists (c :: x). split_and!; [by rewrite Hs at 1|by constructor|done].
  - exists []. split_and!; [done|constructor|done].
Qed.

Lemma skip_space_head s c s' : skip_space s = c :: s' -> is_in whitespace c = false.
Proof.
  induction s as [|d s IH]; [done|]. cbn. destruct (is_in whitespace d) eqn:Hd; [done|].
  intros [= -> ->]. done.
Qed.

Lemma is_in_spec set c : Forall (fun x => x <> 0) set -> is_in set c = bool_decide (c ∈ set).
Proof.
  unfold is_in. induction 1 as [|x set _ _ IH]; [done|]. cbn.
  destruct (x =? c) eqn:E; [apply Z.eqb_eq in E as ->; by rewrite bool_decide_true by set_solver|].
  rewrite IH. apply bool_decide_ext. apply Z.eqb_neq in E. set_solver.
Qed.

Lemma symbols_split c :
  is_in [BAR; LPAR; RPAR; SEMI; AMP; LT] c = false -> c <> GT -> is_in symbols c = false.
Proof.
  rewrite !is_in_spec by (repeat constructor; done). rewrite !bool_decide_eq_false. unfold symbols. set_solver.
Qed.

Lemma token_at_spec q tok eq :
  (forall c q', q = c :: q' -> is_in whitespace c = false) ->
  token_at q = (tok, eq) ->
  eq `suffix_of` q /\ (q <> [] -> (length eq < length q)%nat) /\ (q = [] -> tok = 0) /\
  (tok = 97 -> exists x, q = x ++ eq /\ x <> [] /\ Forall (fun c => word_char c = true) x /\ ends_word eq).
Proof.
  intros Hw. destruct q as [|c q]; [cbn; intros [= <- <-]; done|]. specialize (Hw c q eq_refl). unfold token_at.
  destruct (is_in [BAR; LPAR; RPAR; SEMI; AMP; LT] c) eqn:Hc.
  { intros [= <- <-]. split_and!; [by apply suffix_cons_r|cbn; lia|done|]. intros ->. discriminate Hc. }
  destruct (c =? GT) eqn:Hg; [apply Z.eqb_eq in Hg as ->|apply Z.eqb_neq in Hg].
  - destruct q as [|d q]; [|destruct (d =? GT)]; intros [= <- <-];
      (split_and!; [repeat (reflexivity || apply suffix_cons_r)|cbn; lia|done|done]).
  - assert (Hcc : word_char c = true) by (unfold word_char; by rewrite Hw, symbols_split).
    cbn [skip_word]. rewrite Hcc. intros [= <- <-]. destruct (skip_word_spec q) as (x & Hs & Hx & He).
    assert (E : c :: q = (c :: x) ++ skip_word q) by (cbn; by rewrite Hs at 1).
    split_and!; [by exists (c :: x)| |done|].
    + intros _. apply (f_equal length) in E. rewrite length_app in E. cbn in *. lia.
    + intros _. exists (c :: x). split_and!; [done|done|by constructor|done].
Qed.

(** What gettoken() does with the input [s], a rest of the line. *)
Lemma gettoken_returns line s (Q : Z * word -> list Z -> Prop) :
  s `suffix_of` line ->
  (forall tok w s', s' `suffix_of` line -> (length s' <= length s)%nat ->
     (skip_space s <> [] -> (length s' < length s)%nat) ->
     (skip_space s = [] -> tok = 0) -> (tok = 97 -> good_word line w) -> Q (tok, w) s') ->
  returns gettoken Q s.
Proof.
  intros Hl HQ. unfold returns, gettoken. destruct (token_at (skip_space s)) as [tok eq] eqn:E.
  apply token_at_spec in E as (E1 & E2 & E3 & E4); [|apply skip_space_head].
  pose proof (skip_space_suffix s) as Hs. pose proof (skip_space_suffix eq) as He.
  pose proof (suffix_length _ _ Hs). pose proof (suffix_length _ _ He). pose proof (suffix_length _ _ E1).
  apply HQ; [by rewrite He, E1, Hs|lia|intros Hn; specialize (E2 Hn); lia|done|].
  intros Ht. destruct (E4 Ht) as (x & ? & ? & ? & ?). exists x. split_and!; [done..|]. cbn. by rewrite Hs.
Qed.

Lemma skip_space_twice s : skip_space (skip_space s) = skip_space s.
Proof. induction s as [|c s IH]; [done|]. cbn. destruct (is_in whitespace c) eqn:Hc; [done|]. cbn. by rewrite Hc. Qed.

Lemma peek_returns line toks s (Q : bool -> list Z -> Prop) :
  s `suffix_of` line ->
  (forall b s', s' `suffix_of` line -> (length s' <= length s)%nat -> skip_space s' = s' ->
     (b = true -> s' <> []) -> Q b s') ->
  returns (peek toks) Q s.
Proof.
  intros Hl HQ. unfold returns, peek. pose proof (skip_space_suffix s) as Hs.
  apply HQ; [by rewrite Hs|by apply suffix_length|apply skip_space_twice|by destruct (skip_space s)].
Qed.

(** ** Every parsing function returns, with the words of the line *)

(** The number of arguments of the execcmd under the redirections. *)
Fixpoint argc_of (t : cmd word) : option nat :=
  match t with
  | EXEC argv => Some (length argv)
  | REDIR c _ _ _ => argc_of c
  | _ => None
  end.

Section Returns.

Context (line : list Z).

Let ok : cmd word -> Prop := all_words (good_word line).

Lemma parseredirs_returns fuel s c (Q : cmd word -> list Z -> Prop) :
  s `suffix_of` line -> (length s < fuel)%nat -> ok c ->
  (forall t s', s' `suffix_of` line -> (length s' <= length s)%nat -> ok t -> argc_of t = argc_of c -> Q t s') ->
  returns (parseredirs fuel c) Q s.
Proof.
  revert s c. induction fuel as [|fuel IH]; intros s c Hs Hf Hc HQ; [lia|]. cbn [parseredirs].
  apply returns_bind, (peek_returns line); [done|]. intros b s1 Hs1 Hl1 Hk1 Hb.
  destruct b; [|by apply HQ].
  apply returns_bind, (gettoken_returns line); [done|]. intros tok w s2 Hs2 Hl2 Hl2' _ _.
  rewrite Hk1 in Hl2'. specialize (Hl2' (Hb eq_refl)).
  apply returns_bind, (gettoken_returns line); [done|]. intros tok' w' s3 Hs3 Hl3 _ _ Hw'. cbn [fst snd].
  destruct (tok' =? 97) eqn:E; [|done]. apply Z.eqb_eq in E. specialize (Hw' E). cbn [negb].
  repeat case_match; (apply IH; [done|lia|done|intros; apply HQ; auto; lia]).
Qed.

Lemma add_arg_ok c w n :
  ok c -> argc_of c = Some n -> (S n < MAXARGS)%nat -> good_word line w ->
  ok (add_arg c w) /\ argc_of (add_arg c w) = Some (S n).
Proof.
  induction c as [argv|c IH f mode fd| | |]; cbn; try done.
  - intros [Ha _] [= <-] Hn Hw. rewrite length_app. cbn. split; [|f_equal; lia].
    split; [by apply Forall_app_2, Forall_singleton|lia].
  - intros [Hc Hf] Hn Hlt Hw. destruct (IH Hc Hn Hlt Hw). done.
Qed.

Lemma parseargs_returns fuel s n c (Q : cmd word -> list Z -> Prop) :
  s `suffix_of` line -> (length s < fuel)%nat -> ok c -> argc_of c = Some n ->
  (forall t s', s' `suffix_of` line -> (length s' <= length s)%nat -> ok t -> Q t s') ->
  returns (parseargs fuel n c) Q s.
Proof.
  revert s n c. induction fuel as [|fuel IH]; intros s n c Hs Hf Hc Hn HQ; [lia|]. cbn [parseargs].
  apply returns_bind, (peek_returns line); [done|]. intros b s1 Hs1 Hl1 Hk1 _.
  destruct b; [by apply HQ|].
  apply returns_bind, (gettoken_returns line); [done|]. intros tok w s2 Hs2 Hl2 Hl2' H0 Hw. cbn [fst snd].
  destruct (tok =? 0) eqn:E0; [apply HQ; auto; lia|]. destruct (tok =? 97) eqn:E; [|done]. apply Z.eqb_eq in E. cbn [negb].
  destruct (bool_decide (MAXARGS <= S n)%nat) eqn:Em; [done|]. apply bool_decide_eq_false in Em.
  destruct (add_arg_ok c w n Hc Hn) as [Hc' Hn']; [lia|by apply Hw|].
  rewrite Hk1 in Hl2'. assert (s1 <> []) as Hne.
  { intros Hn1. rewrite Hk1 in H0. specialize (H0 Hn1). subst tok. done. }
  specialize (Hl2' Hne).
  apply returns_bind, parseredirs_returns; [done|lia|done|]. intros t s3 Hs3 Hl3 Ht Hnt.
  apply IH; [done|lia|done|by rewrite Hnt|]. intros; apply HQ; auto; lia.
Qed.

Definition keeps (s : list Z) (t : cmd word) (s' : list Z) : Prop :=
  s' `suffix_of` line /\ (length s' <= length s)%nat /\ ok t.

Lemma parsebacks_returns fuel s c :
  s `suffix_of` line -> (length s < fuel)%nat -> ok c -> returns (parsebacks fuel c) (keeps s) s.
Proof.
  revert s c. induction fuel as [|fuel IH]; intros s c Hs Hf Hc; [lia|]. cbn [parsebacks].
  apply returns_bind, (peek_returns line); [done|]. intros b s1 Hs1 Hl1 Hk1 Hb. destruct b; [|done].
  apply returns_bind, (gettoken_returns line); [done|]. intros tok w s2 Hs2 Hl2 Hl2' _ _.
  rewrite Hk1 in Hl2'. specialize (Hl2' (Hb eq_refl)).
  eapply returns_mono; [apply IH; [done|lia|done]|]. intros t s3 (? & ? & ?). split_and!; [done|lia|done].
Qed.

(** peek() for a separator that is there, then gettoken(): less input is left. *)
Lemma separator_returns {A} toks (no yes : M (list Z) A) (Q : A -> list Z -> Prop) s :
  s `suffix_of` line ->
  (forall s1, s1 `suffix_of` line -> (length s1 <= length s)%nat -> returns no Q s1) ->
  (forall s1, s1 `suffix_of` line -> (length s1 < length s)%nat -> returns yes Q s1) ->
  returns (let* b := peek toks in if b then gettoken ;;; yes else no) Q s.
Proof.
  intros Hs Hn Hy. apply returns_bind, (peek_returns line); [done|]. intros b s1 Hs1 Hl1 Hk1 Hb.
  destruct b; [|by apply Hn].
  apply returns_bind, (gettoken_returns line); [done|]. intros tok w s2 Hs2 Hl2 Hl2' _ _.
  rewrite Hk1 in Hl2'. specialize (Hl2' (Hb eq_refl)). apply Hy; [done|lia].
Qed.

Lemma parse_returns fuel s :
  s `suffix_of` line ->
  ((4 * length s + 4 <= fuel)%nat -> returns (parseline fuel) (keeps s) s) /\
  ((4 * length s + 3 <= fuel)%nat -> returns (parsepipe fuel) (keeps s) s) /\
  ((4 * length s + 2 <= fuel)%nat -> returns (parseexec fuel) (keeps s) s) /\
  ((4 * length s + 1 <= fuel)%nat -> returns (parseblock fuel) (keeps s) s).
Proof.
  revert s. induction fuel as [|fuel IH]; intros s Hs; [lia|]. split_and!; intros Hf; cbn.
  - apply returns_bind. eapply returns_mono; [apply (IH s Hs); lia|]. intros t s1 (Hs1 & Hl1 & Ht).
    apply returns_bind. eapply returns_mono; [apply parsebacks_returns; [done|lia|done]|]. intros t2 s2 (Hs2 & Hl2 & Ht2).
    apply separator_returns; [done|intros; split_and!; [done|lia|done]|]. intros s3 Hs3 Hl3.
    apply returns_bind. eapply returns_mono; [apply (IH s3 Hs3); lia|]. intros r s4 (Hs4 & Hl4 & Hr).
    split_and!; [done|lia|done].
  - apply returns_bind. eapply returns_mono; [apply (IH s Hs); lia|]. intros t s1 (Hs1 & Hl1 & Ht).
    apply separator_returns; [done|intros; split_and!; [done|lia|done]|]. intros s3 Hs3 Hl3.
    apply returns_bind. eapply returns_mono; [apply (IH s3 Hs3); lia|]. intros r s4 (Hs4 & Hl4 & Hr).
    split_and!; [done|lia|done].
  - apply returns_bind, (peek_returns line); [done|]. intros b s1 Hs1 Hl1 Hk1 Hb. destruct b.
    + eapply returns_mono; [apply (IH s1 Hs1); lia|]. intros t s2 (? & ? & ?). split_and!; [done|lia|done].
    + apply returns_bind, parseredirs_returns; [done|lia|split; [constructor|unfold MAXARGS; cbn; lia]|].
      intros t s2 Hs2 Hl2 Ht Hn. apply parseargs_returns; [done|lia|done|done|]. intros; split_and!; [done|lia|done].
  - apply returns_bind, (peek_returns line); [done|]. intros b s1 Hs1 Hl1 Hk1 Hb. destruct b; [|done].
    apply returns_bind, (gettoken_returns line); [done|]. intros tok w s2 Hs2 Hl2 Hl2' _ _. cbn.
    rewrite Hk1 in Hl2'. specialize (Hl2' (Hb eq_refl)).
    apply returns_bind. eapply returns_mono; [apply (IH s2 Hs2); lia|]. intros t s3 (Hs3 & Hl3 & Ht).
    apply returns_bind, (peek_returns line); [done|]. intros b s4 Hs4 Hl4 Hk4 Hb4. destruct b; [|done].
    apply returns_bind, (gettoken_returns line); [done|]. intros tok' w' s5 Hs5 Hl5 _ _ _. cbn.
    apply parseredirs_returns; [done|lia|done|]. intros; split_and!; [done|lia|done].
Qed.

End Returns.

(** ** nulterminate() ends every word and changes no other *)

Fixpoint words {W} (c : cmd W) : list W :=
  match c with
  | EXEC argv => argv
  | REDIR c f _ _ => words c ++ [f]
  | PIPE l r | LIST l r => words l ++ words r
  | BACK c => words c
  end.

Lemma all_words_Forall {W} (P : W -> Prop) c : all_words P c -> Forall P (words c).
Proof. induction c; cbn; rewrite ?Forall_app, ?Forall_singleton; naive_solver. Qed.

Lemma cmd_map_ext {V W} (f g : V -> W) c : Forall (fun w => f w = g w) (words c) -> cmd_map f c = cmd_map g c.
Proof.
  induction c; cbn; rewrite ?Forall_app, ?Forall_singleton; intros H; f_equal; try naive_solver.
  apply list_fmap_ext. intros i x Hx. by eapply Forall_lookup in H.
Qed.

Lemma nulterminate_words n c buf :
  nulterminate n c buf = foldl (fun buf w => put_nul n w.2 buf) buf (words c).
Proof.
  revert buf. induction c as [argv|c IH f mode fd|l IHl r IHr|l IHl r IHr|c IH]; intros buf; cbn;
    rewrite ?foldl_app, ?IHr, ?IHl, ?IH; done.
Qed.

(** Each position of the buffer has a zero, or what it had. *)
Lemma put_nuls_lookup n ws buf i :
  (i < length buf)%nat ->
  foldl (fun buf w => put_nul n w.2 buf) buf ws !! i =
  if bool_decide (Exists (fun w : word => (n - length w.2)%nat = i) ws) then Some 0 else buf !! i.
Proof.
  revert buf. induction ws as [|w ws IH]; intros buf Hi; [done|]. cbn [foldl].
  rewrite IH by (unfold put_nul; by rewrite length_insert). unfold put_nul.
  destruct (decide (Exists (fun w : word => (n - length w.2)%nat = i) ws)).
  { rewrite !bool_decide_true by auto. done. }
  rewrite bool_decide_false by done. destruct (decide ((n - length w.2)%nat = i)) as [<-|Hne].
  - rewrite bool_decide_true by (by left). by apply list_lookup_insert_eq.
  - rewrite list_lookup_insert_ne by done. rewrite bool_decide_false; [done|]. by inversion 1.
Qed.

Lemma until_nul_app x r : Forall (fun c => c <> 0) x -> until_nul (x ++ 0 :: r) = x.
Proof. induction 1 as [|c x Hc _ IH]; [done|]. cbn. rewrite (proj2 (Z.eqb_neq c 0) Hc). by rewrite IH. Qed.

(** The end of a word is at no character of a word. *)
Lemma word_end_apart line w x k c :
  good_word line w -> x ++ c :: k = line -> word_char c = true -> (length line - length w.2 <> length x)%nat.
Proof.
  intros (y & Hw & _ & _ & He & (pre & Hp)) Hl Hc Hn. rewrite Hw in Hp.
  assert (E : x = pre ++ y /\ c :: k = w.2).
  { apply app_inj_1; [|rewrite Hl, Hp; by rewrite app_assoc].
    apply (f_equal length) in Hp. rewrite !length_app in *. lia. }
  destruct E as [_ E]. rewrite <- E in He. cbn in He. congruence.
Qed.

Lemma string_at_text line ws w :
  Forall (fun c => c <> 0) line -> Forall (good_word line) ws -> w ∈ ws ->
  string_at (length line) (foldl (fun buf w => put_nul (length line) w.2 buf) (line ++ [0]) ws) w = text w.
Proof.
  intros Hz Hws Hin. pose proof Hws as Hw. rewrite Forall_forall in Hw. specialize (Hw w Hin).
  destruct Hw as (x & Hx & _ & Hc & _ & (pre & Hp)). set (buf := foldl _ _ _). unfold string_at, text.
  assert (Ht : take (length w.1 - length w.2) w.1 = x).
  { rewrite Hx. rewrite length_app. replace (length x + length w.2 - length w.2)%nat with (length x) by lia. apply take_app_length. }
  rewrite Ht. rewrite Hx in Hp.
  assert (Hn : (length line - length w.1 = length pre)%nat) by (rewrite Hx, Hp, !length_app; lia).
  assert (He : (length line - length w.2 = length (pre ++ x))%nat) by (rewrite Hp, !length_app; lia).
  rewrite Hn. assert (Hb : drop (length pre) buf = x ++ 0 :: drop (S (length (pre ++ x))) buf); [|rewrite Hb; apply until_nul_app].
  - assert (Hlen : forall j, (j <= length line)%nat -> (j < length (line ++ [0%Z]))%nat)
      by (intros; rewrite length_app; cbn; lia).
    apply list_eq. intros i. rewrite lookup_drop. destruct (decide (i < length x)%nat) as [Hi|Hi].
    + rewrite lookup_app_l by done. destruct (lookup_lt_is_Some_2 x i Hi) as [c Hic]. rewrite Hic.
      subst buf. rewrite put_nuls_lookup by (apply Hlen; rewrite Hp, !length_app; lia).
      rewrite bool_decide_false; [rewrite lookup_app_l by (rewrite Hp, !length_app; lia)|].
      { rewrite Hp, lookup_app_r by lia. replace (length pre + i - length pre)%nat with i by lia. by rewrite lookup_app_l. }
      intros (w' & Hw' & E)%Exists_exists. rewrite Forall_forall in Hws.
      apply (word_end_apart line w' (pre ++ take i x) (drop (S i) x ++ w.2) c (Hws _ Hw')).
      * rewrite Hp. rewrite <- (take_drop_middle x i c Hic) at 3. by simplify_list_eq.
      * by eapply Forall_lookup in Hc.
      * rewrite E, length_app, length_take. lia.
    + destruct (decide (i = length x)) as [->|Hne].
      * rewrite list_lookup_middle by done. subst buf. rewrite put_nuls_lookup by (apply Hlen; rewrite Hp, !length_app; lia).
        rewrite bool_decide_true; [done|]. apply Exists_exists. exists w. split; [done|]. rewrite He, length_app. lia.
      * rewrite lookup_app_r, lookup_cons_ne_0, lookup_drop by lia. f_equal. rewrite length_app. lia.
  - rewrite Hp in Hz. rewrite !Forall_app in Hz. apply Hz.
Qed.

Lemma nulterminate_strings line t :
  Forall (fun c => c <> 0) line -> all_words (good_word line) t ->
  cmd_map (string_at (length line) (nulterminate (length line) t (line ++ [0]))) t = cmd_map text t.
Proof.
  intros Hz Ht. apply all_words_Forall in Ht. rewrite nulterminate_words.
  apply cmd_map_ext, Forall_forall. intros w Hw. by apply string_at_text.
Qed.

(** C34: the parser returns for every command line, with a panic or with a
    tree.  The words of a tree are maximal runs of word characters of the
    line, fewer than MAXARGS for each command, and after nulterminate() the C
    string at each argv[i] and file is that word: no end of a word is
    written over another. *)
Theorem parsecmd_words (s : list Z) :
  Forall (fun c => c <> 0) s ->
  match parsecmd s with
  | Ok (t, buf) rest =>
      rest = [] /\ all_words (good_word s) t /\
      cmd_map (string_at (length s) buf) t = cmd_map text t
  | Panic _ => True
  | _ => False
  end.
Proof.
  intros Hz. unfold parsecmd. set (m := bind _ _).
  assert (H : returns m (fun p rest => rest = [] /\ all_words (good_word s) p.1 /\
                cmd_map (string_at (length s) p.2) p.1 = cmd_map text p.1) s).
  { subst m. apply returns_bind. eapply returns_mono; [apply (parse_returns s); [done|unfold parse_fuel; lia]|].
    intros t s1 (Hs1 & _ & Ht). apply returns_bind, (peek_returns s); [done|]. intros _ s2 _ _ _ _.
    apply returns_bind. unfold gets, returns at 1. destruct s2; [|done]. cbn. split_and!; [done|done|].
    by apply nulterminate_strings. }
  unfold returns in H. destruct (m s) as [[t buf] rest| | | |]; try done; contradiction.
Qed.

Module Example.

(** a b;c *)
Definition line : list Z := [97; 32; 98; 59; 99].

Lemma parsecmd_words_witness :
  match parsecmd line with
  | Ok (t, buf) rest => rest = [] /\ cmd_map (string_at 5 buf) t = LIST (EXEC [[97]; [98]]) (EXEC [[99]])
  | _ => False
  end.
Proof.
  assert (H0 : Forall (fun c => c <> 0) line) by (repeat constructor; discriminate).
  generalize (parsecmd_words line H0). vm_compute. intros (_ & _ & H). split; [reflexivity|exact H].
Defined.

End Example.
