(* ===== verification/ShPrint.v ===== *)
(** sh.c: a printer of commands, and that parsecmd() reads its output back.

    A command is printed as tokens, each followed by a space, with the
    parentheses that the grammar of parseline(), parsepipe() and parseexec()
    needs. *)

From S2P Require Import Prelude Params Bytes CString Ulib Sh.

Inductive token := TSym (c : Z) | TWord (w : list Z).

Definition tok_text (t : token) : list Z := match t with TSym c => [c] | TWord w => w end.
Definition unlex (ts : list token) : list Z := concat ((fun t => tok_text t ++ [32]) <$> ts).

Definition paren (b : bool) (ts : list token) : list token :=
  if b then [TSym LPAR] ++ ts ++ [TSym RPAR] else ts.

Definition redir_toks (f : list Z) (fd : Z) : list token := [TSym (if fd =? 0 then LT else GT); TWord f].

(** The level says where the command stands: 0 for parseline(), 1 before an
    ampersand, 2 for parsepipe(), 3 for parseexec(). *)
Fixpoint toks (lvl : nat) (c : cmd (list Z)) : list token :=
  match c with
  | EXEC argv => TWord <$> argv
  | REDIR c f _ fd => toks 3 c ++ redir_toks f fd
  | PIPE l r => paren (2 <? lvl)%nat (toks 3 l ++ [TSym BAR] ++ toks 2 r)
  | BACK c => paren (1 <? lvl)%nat (toks 1 c ++ [TSym AMP])
  | LIST l r => paren (0 <? lvl)%nat (toks 1 l ++ [TSym SEMI] ++ toks 0 r)
  end.

Definition print_cmd (c : cmd (list Z)) : list Z := unlex (toks 0 c).

Definition word_ok (w : list Z) : Prop := w <> [] /\ Forall (fun c => word_char c = true) w.

(** The modes that redirections have. *)
Fixpoint modes_ok {W} (c : cmd W) : Prop :=
  match c with
  | EXEC _ => True
  | REDIR c _ mode fd => modes_ok c /\ ((mode, fd) = (O_RDONLY, 0) \/ (mode, fd) = (Z.lor O_WRONLY O_CREATE, 1))
  | PIPE l r | LIST l r => modes_ok l /\ modes_ok r
  | BACK c => modes_ok c
  end.

Definition cmd_ok (c : cmd (list Z)) : Prop :=
  all_words word_ok c /\ modes_ok c /\ Forall (Forall (fun x => x <> 0)) (words c).

(** * Tokens *)

Definition tok_ok (t : token) : Prop :=
  match t with TSym c => is_in symbols c = true | TWord w => word_ok w end.

Lemma tok_ok_head t ts : tok_ok t -> exists c r, unlex (t :: ts) = c :: r /\ is_in whitespace c = false /\
  (match t with TSym x => c = x | TWord _ => is_in symbols c = false end).
Proof.
  destruct t as [x|w]; cbn.
  - intros Hx. exists x, (32 :: unlex ts). split_and!; [done| |done].
    rewrite is_in_spec in * by (repeat constructor; done). apply bool_decide_eq_true in Hx.
    apply bool_decide_eq_false. unfold symbols, whitespace, LT, GT, BAR, AMP, SEMI, LPAR, RPAR in *. set_solver.
  - intros [Hn Hw]. destruct w as [|c w]; [done|]. exists c, (w ++ [32] ++ unlex ts). cbn. rewrite <- app_assoc.
    apply Forall_cons in Hw as [Hc _]. unfold word_char in Hc. apply andb_true_iff in Hc as [Hc Hs].
    by apply negb_true_iff in Hc, Hs.
Qed.

Lemma skip_space_unlex ts : Forall tok_ok ts -> skip_space (unlex ts) = unlex ts.
Proof.
  destruct ts as [|t ts]; [done|]. intros [Ht _]%Forall_cons.
  destruct (tok_ok_head t ts Ht) as (c & r & E & Hc & _). rewrite E. cbn. by rewrite Hc.
Qed.

Definition is_sym (set : list Z) (ts : list token) : bool :=
  match ts with TSym c :: _ => is_in set c | _ => false end.

Lemma peek_unlex set ts :
  (forall c, is_in set c = true -> is_in symbols c = true) -> Forall tok_ok ts ->
  peek set (unlex ts) = Ok (is_sym set ts) (unlex ts).
Proof.
  intros Hset Hts. unfold peek. rewrite skip_space_unlex by done. f_equal. destruct ts as [|t ts]; [done|].
  apply Forall_cons in Hts as [Ht _]. destruct (tok_ok_head t ts Ht) as (c & r & E & _ & Hs). rewrite E.
  destruct t as [x|w]; [by subst|]. cbn. destruct (is_in set c) eqn:Hc; [|done]. apply Hset in Hc. congruence.
Qed.

Lemma gettoken_sym c ts :
  tok_ok (TSym c) -> Forall tok_ok ts -> exists w, gettoken (unlex (TSym c :: ts)) = Ok (c, w) (unlex ts).
Proof.
  intros Hc Hts. unfold gettoken. rewrite skip_space_unlex by (by constructor).
  change (unlex (TSym c :: ts)) with (c :: 32 :: unlex ts).
  assert (E : token_at (c :: 32 :: unlex ts) = (c, 32 :: unlex ts)).
  { unfold token_at. destruct (is_in [BAR; LPAR; RPAR; SEMI; AMP; LT] c) eqn:E; [done|].
    destruct (c =? GT) eqn:Eg; [done|]. apply Z.eqb_neq in Eg. cbn in Hc. rewrite symbols_split in Hc; done. }
  rewrite E. eexists. cbn [skip_space]. by rewrite skip_space_unlex.
Qed.

Lemma skip_word_app w r : Forall (fun c => word_char c = true) w -> skip_word (w ++ 32 :: r) = 32 :: r.
Proof. induction 1 as [|c w Hc _ IH]; [done|]. cbn. by rewrite Hc. Qed.

Lemma gettoken_word w ts :
  word_ok w -> Forall tok_ok ts ->
  exists x, gettoken (unlex (TWord w :: ts)) = Ok (97, x) (unlex ts) /\ text x = w.
Proof.
  intros Hw Hts. unfold gettoken. rewrite skip_space_unlex by (by constructor).
  replace (unlex (TWord w :: ts)) with (w ++ 32 :: unlex ts) by (cbn; by rewrite <- app_assoc).
  assert (E : token_at (w ++ 32 :: unlex ts) = (97, 32 :: unlex ts)).
  { destruct Hw as [Hn Hw]. destruct w as [|c w]; [done|]. unfold token_at. cbn [app].
    pose proof Hw as [Hc _]%Forall_cons. unfold word_char in Hc. apply andb_true_iff in Hc as [_ Hc].
    apply negb_true_iff in Hc. rewrite is_in_spec in * by (repeat constructor; done).
    apply bool_decide_eq_false in Hc.
    rewrite bool_decide_false by (unfold symbols in Hc; set_solver).
    rewrite (proj2 (Z.eqb_neq c GT)) by (unfold symbols in Hc; set_solver).
    f_equal. by apply (skip_word_app (c :: w)). }
  rewrite E. eexists. cbn [skip_space]. split; [by rewrite skip_space_unlex|].
  unfold text. cbn [fst snd]. rewrite length_app.
  replace (length w + _ - _)%nat with (length w) by lia. apply take_app_length.
Qed.

(** * The parsing functions on printed tokens *)

(** [rest] starts with one of the separators, or is empty. *)
Definition follows (set : list Z) (rest : list token) : Prop :=
  Forall tok_ok rest /\
  match rest with [] => True | TSym c :: _ => is_in set c = true | TWord _ :: _ => False end.

(** [m] on the printed [ts] gives a tree of the command [c] and leaves [rest]. *)
Definition reads (m : M (list Z) (cmd word)) (ts : list token) (c : cmd (list Z)) (rest : list token) : Prop :=
  exists t, m (unlex ts) = Ok t (unlex rest) /\ cmd_map text t = c.

Lemma is_in_sub set set' c :
  Forall (fun x => x <> 0) set -> Forall (fun x => x <> 0) set' -> set ⊆ set' -> is_in set c = true -> is_in set' c = true.
Proof. intros H H' Hs. rewrite !is_in_spec, !bool_decide_eq_true by done. set_solver. Qed.

Ltac sub_symbols :=
  let c := fresh in intros c; apply is_in_sub;
  [repeat constructor; done|repeat constructor; done|unfold symbols; set_solver].

Lemma follows_peek set set' rest :
  follows set rest -> (forall c, is_in set' c = true -> is_in symbols c = true) ->
  peek set' (unlex rest) = Ok (is_sym set' rest) (unlex rest).
Proof. intros [H _] Hs. by apply peek_unlex. Qed.

(** Redirections, the innermost first. *)
Definition redir : Type := (list Z * Z * Z)%type.
Definition wrap (c : cmd (list Z)) (rs : list redir) : cmd (list Z) :=
  foldl (fun c r => REDIR c r.1.1 r.1.2 r.2) c rs.
Definition rtoks (rs : list redir) : list token := concat ((fun r => redir_toks r.1.1 r.2) <$> rs).
Definition redir_ok (r : redir) : Prop :=
  word_ok r.1.1 /\ ((r.1.2, r.2) = (O_RDONLY, 0) \/ (r.1.2, r.2) = (Z.lor O_WRONLY O_CREATE, 1)).

Lemma rtoks_ok rs : Forall redir_ok rs -> Forall tok_ok (rtoks rs).
Proof.
  induction 1 as [|r rs [Hw _] _ IH]; [constructor|]. cbn. constructor; [by destruct (r.2 =? 0)|]. by constructor.
Qed.

Lemma length_rtoks rs : (length rs <= length (rtoks rs))%nat.
Proof.
  induction rs as [|r rs IH]; [done|].
  change (rtoks (r :: rs)) with (redir_toks r.1.1 r.2 ++ rtoks rs). rewrite length_app. cbn in *. lia.
Qed.

Lemma not_sym set set' rest :
  follows set rest -> (forall c, is_in set c = true -> is_in set' c = false) -> is_sym set' rest = false.
Proof. intros [_ H] Hs. destruct rest as [|[c|w] rest]; [done| |done]. by apply Hs. Qed.

Ltac disjoint_symbols :=
  let c := fresh in let H := fresh in intros c H;
  rewrite is_in_spec in * by (repeat constructor; done);
  apply bool_decide_eq_true in H; apply bool_decide_eq_false;
  unfold LT, GT, BAR, AMP, SEMI, LPAR, RPAR in *; set_solver.

Lemma parseredirs_none fuel t ts :
  Forall tok_ok ts -> is_sym [LT; GT] ts = false -> parseredirs (S fuel) t (unlex ts) = Ok t (unlex ts).
Proof.
  intros Hts Hn. cbn [parseredirs]. unfold bind. rewrite peek_unlex by (done || sub_symbols). by rewrite Hn.
Qed.

Lemma reads_redirs fuel t rs rest :
  Forall redir_ok rs -> Forall tok_ok rest -> is_sym [LT; GT] rest = false -> (length rs < fuel)%nat ->
  reads (parseredirs fuel t) (rtoks rs ++ rest) (wrap (cmd_map text t) rs) rest.
Proof.
  intros Hrs Hr Hn. revert t fuel. induction Hrs as [|[[f mode] fd] rs [Hw Hm] Hrs IH]; intros t [|fuel] Hf; try (cbn in Hf; lia).
  - exists t. split; [by apply parseredirs_none|done].
  - cbn [fst snd] in Hw, Hm.
    change (rtoks ((f, mode, fd) :: rs) ++ rest)
      with (TSym (if fd =? 0 then LT else GT) :: TWord f :: rtoks rs ++ rest).
    assert (Hts : Forall tok_ok (rtoks rs ++ rest)) by (apply Forall_app_2; [by apply rtoks_ok|done]).
    set (sy := if fd =? 0 then LT else GT). assert (Hsy : tok_ok (TSym sy)) by (subst sy; by destruct (fd =? 0)).
    unfold reads. cbn [parseredirs]. unfold bind.
    rewrite peek_unlex; [|sub_symbols|constructor; [done|by constructor]].
    assert (is_sym [LT; GT] (TSym sy :: TWord f :: rtoks rs ++ rest) = true) as -> by (subst sy; cbn; by destruct (fd =? 0)).
    destruct (gettoken_sym sy (TWord f :: rtoks rs ++ rest) Hsy) as [w0 ->]; [by constructor|].
    destruct (gettoken_word f (rtoks rs ++ rest) Hw Hts) as (w & -> & <-). cbn [fst snd negb Z.eqb Pos.eqb].
    destruct Hm as [[= -> ->]|[= -> ->]]; apply (IH (REDIR t w _ _)); cbn in Hf; lia.
Qed.

Definition after_exec : list Z := [BAR; RPAR; AMP; SEMI].
Definition after_pipe : list Z := [RPAR; AMP; SEMI].
Definition after_back : list Z := [RPAR; SEMI].
Definition after_line : list Z := [RPAR].

Lemma parseargs_end fuel n t rest :
  follows after_exec rest -> parseargs (S fuel) n t (unlex rest) = Ok t (unlex rest).
Proof.
  intros [Hok Hr]. cbn [parseargs]. unfold bind. rewrite peek_unlex by (done || sub_symbols).
  destruct rest as [|[c|w] rest]; [done| |done]. cbn [is_sym]. unfold after_exec in Hr. by rewrite Hr.
Qed.

Lemma not_redir rest : follows after_exec rest -> is_sym [LT; GT] rest = false.
Proof. intros H. eapply not_sym; [done|]. disjoint_symbols. Qed.

Lemma words_ok ws : Forall word_ok ws -> Forall tok_ok (TWord <$> ws).
Proof. induction 1; constructor; done. Qed.

Lemma reads_args fuel n us w ws rs rest :
  Forall word_ok (w :: ws) -> Forall redir_ok rs -> follows after_exec rest ->
  (n + S (length ws) < MAXARGS)%nat -> (S (length ws) + length rs < fuel)%nat ->
  reads (parseargs fuel n (EXEC us)) ((TWord <$> w :: ws) ++ rtoks rs ++ rest)
    (wrap (EXEC ((text <$> us) ++ w :: ws)) rs) rest.
Proof.
  revert fuel n us w. induction ws as [|w2 ws IH]; intros [|fuel] n us w Hws Hrs Hr Hn Hf; try (cbn in Hf; lia);
    apply Forall_cons in Hws as [Hw Hws].
  - assert (Hts : Forall tok_ok (rtoks rs ++ rest)) by (apply Forall_app_2; [by apply rtoks_ok|apply Hr]).
    unfold reads. cbn [parseargs fmap list_fmap app]. unfold bind.
    rewrite peek_unlex; [|sub_symbols|by constructor]. cbn [is_sym].
    destruct (gettoken_word w (rtoks rs ++ rest) Hw Hts) as (x & -> & Hx). cbn [fst snd negb Z.eqb Pos.eqb add_arg].
    rewrite bool_decide_false by (cbn in Hn; lia).
    destruct (reads_redirs fuel (EXEC (us ++ [x])) rs rest Hrs (proj1 Hr) (not_redir _ Hr)) as (t & -> & Ht); [cbn in Hf; lia|].
    destruct fuel as [|fuel]; [cbn in Hf; lia|]. rewrite parseargs_end by done. exists t. split; [done|].
    rewrite Ht. cbn. by rewrite fmap_app, <- Hx.
  - assert (Hts : Forall tok_ok ((TWord <$> w2 :: ws) ++ rtoks rs ++ rest))
      by (apply Forall_app_2; [by apply words_ok|apply Forall_app_2; [by apply rtoks_ok|apply Hr]]).
    unfold reads. cbn [parseargs fmap list_fmap app] in *. unfold bind.
    rewrite peek_unlex; [|sub_symbols|by constructor]. cbn [is_sym].
    destruct (gettoken_word w _ Hw Hts) as (x & -> & Hx). cbn [fst snd negb Z.eqb Pos.eqb add_arg].
    rewrite bool_decide_false by (cbn in Hn; lia). destruct fuel as [|fuel]; [cbn in Hf; lia|].
    rewrite parseredirs_none by done.
    destruct (IH (S fuel) (S n) (us ++ [x]) w2) as (t & Et & Ht); [done|done|done|cbn in Hn; lia|cbn in Hf; lia|].
    exists t. split; [exact Et|]. rewrite Ht, fmap_app. cbn. by rewrite Hx, <- app_assoc.
Qed.

(** ** The four functions *)

Definition reads_exec (c : cmd (list Z)) : Prop :=
  forall fuel rs rest, Forall redir_ok rs -> follows after_exec rest ->
    (4 * length (toks 3 c ++ rtoks rs ++ rest) + 2 <= fuel)%nat ->
    reads (parseexec fuel) (toks 3 c ++ rtoks rs ++ rest) (wrap c rs) rest.
Definition reads_pipe (c : cmd (list Z)) : Prop :=
  forall fuel rest, follows after_pipe rest ->
    (4 * length (toks 2 c ++ rest) + 3 <= fuel)%nat ->
    reads (parsepipe fuel) (toks 2 c ++ rest) c rest.

Definition backs (k : nat) (c : cmd (list Z)) : cmd (list Z) := Nat.iter k BACK c.

(** The first part of parseline(). *)
Definition parsehead (fuel : nat) : M (list Z) (cmd word) :=
  let* c := parsepipe fuel in parsebacks fuel c.

Definition reads_back (c : cmd (list Z)) : Prop :=
  forall fuel k rest, follows after_back rest ->
    (4 * length (toks 1 c ++ replicate k (TSym AMP) ++ rest) + 3 <= fuel)%nat ->
    reads (parsehead fuel) (toks 1 c ++ replicate k (TSym AMP) ++ rest) (backs k c) rest.
Definition reads_line (c : cmd (list Z)) : Prop :=
  forall fuel rest, follows after_line rest ->
    (4 * length (toks 0 c ++ rest) + 4 <= fuel)%nat ->
    reads (parseline fuel) (toks 0 c ++ rest) c rest.

Lemma reads_exec_EXEC argv : Forall word_ok argv -> (length argv < MAXARGS)%nat -> reads_exec (EXEC argv).
Proof.
  intros Hw Hn [|fuel] rs rest Hrs Hr Hf; [lia|]. cbn [toks] in *.
  assert (Hts : Forall tok_ok ((TWord <$> argv) ++ rtoks rs ++ rest))
    by (apply Forall_app_2; [by apply words_ok|apply Forall_app_2; [by apply rtoks_ok|apply Hr]]).
  unfold reads. cbn [parseexec]. unfold bind. rewrite peek_unlex by (done || sub_symbols).
  rewrite !length_app, length_fmap in Hf.
  pose proof (length_rtoks rs) as Hl.
  destruct argv as [|w argv]; cbn [fmap list_fmap app] in *.
  - assert (is_sym [LPAR] (rtoks rs ++ rest) = false) as ->.
    { destruct rs as [|[[f mode] fd] rs]; [|cbn; by destruct (fd =? 0)]. eapply not_sym; [done|]. disjoint_symbols. }
    destruct (reads_redirs fuel (EXEC []) rs rest Hrs (proj1 Hr) (not_redir _ Hr)) as (t & -> & Ht); [lia|].
    destruct fuel as [|fuel]; [lia|]. rewrite parseargs_end by done. by exists t.
  - cbn [is_sym]. destruct fuel as [|fuel]; [cbn in Hf; lia|]. rewrite parseredirs_none by done.
    apply (reads_args (S fuel) 0 [] w argv rs rest); try done. cbn in Hf. lia.
Qed.

Lemma exec_pipe c : reads_exec c -> toks 2 c = toks 3 c -> reads_pipe c.
Proof.
  intros H E [|fuel] rest Hr Hf; [lia|]. rewrite E in *. unfold reads. cbn [parsepipe]. unfold bind.
  assert (Hr' : follows after_exec rest).
  { destruct Hr as [? Hr]. split; [done|]. destruct rest as [|[x|w] rest]; [done| |done].
    revert Hr. apply is_in_sub; [repeat constructor; done..|]. unfold after_pipe, after_exec. set_solver. }
  destruct (H fuel [] rest) as (t & Et & Ht); [constructor|done|cbn; lia|].
  change (rtoks [] ++ rest) with rest in Et. rewrite Et.
  rewrite (follows_peek after_pipe) by (done || sub_symbols).
  rewrite (not_sym after_pipe) by (done || disjoint_symbols). by exists t.
Qed.

Lemma reads_backs fuel k t rest :
  follows after_back rest -> (k < fuel)%nat ->
  reads (parsebacks fuel t) (replicate k (TSym AMP) ++ rest) (backs k (cmd_map text t)) rest.
Proof.
  intros Hr. revert fuel t. induction k as [|k IH]; intros [|fuel] t Hf; try lia; unfold reads; cbn [parsebacks]; unfold bind.
  - cbn [replicate app]. rewrite (follows_peek after_back) by (done || sub_symbols).
    rewrite (not_sym after_back) by (done || disjoint_symbols). by exists t.
  - assert (Hts : Forall tok_ok (replicate k (TSym AMP) ++ rest))
      by (apply Forall_app_2; [by apply Forall_replicate|apply Hr]).
    cbn [replicate app]. rewrite peek_unlex; [|sub_symbols|by constructor]. cbn [is_sym].
    change (is_in [AMP] AMP) with true. cbv iota.
    destruct (gettoken_sym AMP (replicate k (TSym AMP) ++ rest)) as [w ->]; [done|done|].
    destruct (IH fuel (BACK t)) as (t' & -> & Ht); [lia|]. exists t'. split; [done|]. rewrite Ht. cbn.
    symmetry. apply Nat.iter_succ_r.
Qed.

Lemma pipe_back c : reads_pipe c -> toks 1 c = toks 2 c -> reads_back c.
Proof.
  intros H E fuel k rest Hr Hf. rewrite E in *. unfold reads, parsehead, bind.
  rewrite !length_app, length_replicate in Hf.
  destruct (H fuel (replicate k (TSym AMP) ++ rest)) as (t & -> & Ht).
  - destruct Hr as [Ho Hr]. split; [by apply Forall_app_2; [apply Forall_replicate|]|].
    destruct k; [|done]. cbn. destruct rest as [|[x|w] rest]; [done| |done].
    revert Hr. apply is_in_sub; [repeat constructor; done..|]. unfold after_pipe, after_back. set_solver.
  - rewrite !length_app, length_replicate. lia.
  - rewrite <- Ht. apply reads_backs; [done|lia].
Qed.

Lemma parseline_head fuel s :
  parseline (S fuel) s =
  (let* c := parsehead fuel in
   let* b := peek [SEMI] in
   if b then gettoken ;;; let* r := parseline fuel in ret (LIST c r) else ret c) s.
Proof. cbn [parseline]. unfold parsehead, bind. by destruct (parsepipe fuel s). Qed.

Lemma back_line c : reads_back c -> toks 0 c = toks 1 c -> reads_line c.
Proof.
  intros H E [|fuel] rest Hr Hf; [lia|]. rewrite E in *. unfold reads. rewrite parseline_head. unfold bind.
  assert (Hr' : follows after_back rest).
  { destruct Hr as [? Hr]. split; [done|]. destruct rest as [|[x|w] rest]; [done| |done].
    revert Hr. apply is_in_sub; [repeat constructor; done..|]. unfold after_line, after_back. set_solver. }
  destruct (H fuel 0%nat rest) as (t & Et & Ht); [done|cbn; lia|].
  cbn [replicate app] in Et. rewrite Et. rewrite (follows_peek after_line) by (done || sub_symbols).
  rewrite (not_sym after_line) by (done || disjoint_symbols). by exists t.
Qed.

Lemma line_exec c :
  Forall tok_ok (toks 0 c) -> toks 3 c = [TSym LPAR] ++ toks 0 c ++ [TSym RPAR] -> reads_line c -> reads_exec c.
Proof.
  intros Hc E H [|[|fuel]] rs rest Hrs Hr Hf; [lia|lia|]. rewrite E in *.
  assert (Hts : Forall tok_ok (rtoks rs ++ rest)) by (apply Forall_app_2; [by apply rtoks_ok|apply Hr]).
  assert (Hts' : Forall tok_ok (toks 0 c ++ TSym RPAR :: rtoks rs ++ rest))
    by (apply Forall_app_2; [done|by constructor]).
  replace ((([TSym LPAR] ++ toks 0 c ++ [TSym RPAR]) ++ rtoks rs ++ rest))
    with (TSym LPAR :: toks 0 c ++ TSym RPAR :: rtoks rs ++ rest) in * by (cbn; by rewrite <- app_assoc).
  unfold reads. cbn [parseexec parseblock]. unfold bind.
  rewrite peek_unlex by (sub_symbols || by constructor). cbn [is_sym]. change (is_in [LPAR] LPAR) with true. cbv beta iota.
  rewrite peek_unlex by (sub_symbols || by constructor). cbn [is_sym]. change (is_in [LPAR] LPAR) with true. cbn [negb].
  destruct (gettoken_sym LPAR (toks 0 c ++ TSym RPAR :: rtoks rs ++ rest)) as [w ->]; [done|done|].
  destruct (H fuel (TSym RPAR :: rtoks rs ++ rest)) as (t & -> & Ht).
  { split; [by constructor|done]. }
  { cbn [length] in Hf. lia. }
  rewrite peek_unlex by (sub_symbols || by constructor). cbn [is_sym]. change (is_in [RPAR] RPAR) with true. cbn [negb].
  destruct (gettoken_sym RPAR (rtoks rs ++ rest)) as [w' ->]; [done|done|].
  rewrite <- Ht. apply reads_redirs; [done|apply Hr|by apply not_redir|].
  pose proof (length_rtoks rs). cbn [length] in Hf. rewrite length_app in Hf. cbn [length] in Hf. rewrite length_app in Hf. lia.
Qed.

Definition reads_all (c : cmd (list Z)) : Prop := reads_exec c /\ reads_pipe c /\ reads_back c /\ reads_line c.

Lemma toks_ok lvl c : all_words word_ok c -> Forall tok_ok (toks lvl c).
Proof.
  revert lvl. induction c as [argv|c IH f mode fd|l IHl r IHr|l IHl r IHr|c IH]; intros lvl; cbn [all_words toks].
  - intros [H _]. by apply words_ok.
  - intros [Hc Hf]. apply Forall_app_2; [by apply IH|]. constructor; [by destruct (fd =? 0)|by constructor].
  - intros [Hl Hr]. unfold paren. destruct (2 <? lvl)%nat; repeat (apply Forall_app_2 || constructor); auto.
  - intros [Hl Hr]. unfold paren. destruct (0 <? lvl)%nat; repeat (apply Forall_app_2 || constructor); auto.
  - intros Hc. unfold paren. destruct (1 <? lvl)%nat; repeat (apply Forall_app_2 || constructor); auto.
Qed.

Lemma reads_PIPE l r : Forall tok_ok (toks 2 r) -> reads_exec l -> reads_pipe r -> reads_pipe (PIPE l r).
Proof.
  intros Hok Hl Hr [|fuel] rest Hf Hn; [lia|].
  replace (toks 2 (PIPE l r) ++ rest) with (toks 3 l ++ TSym BAR :: toks 2 r ++ rest) in *
    by (cbn; by rewrite <- app_assoc).
  assert (Hts : Forall tok_ok (toks 2 r ++ rest)) by (apply Forall_app_2; [done|apply Hf]).
  unfold reads. cbn [parsepipe]. unfold bind.
  destruct (Hl fuel [] (TSym BAR :: toks 2 r ++ rest)) as (t & Et & Ht); [constructor|split; [by constructor|done]|cbn; lia|].
  change (rtoks [] ++ TSym BAR :: toks 2 r ++ rest) with (TSym BAR :: toks 2 r ++ rest) in Et. rewrite Et.
  rewrite peek_unlex by (sub_symbols || by constructor). cbn [is_sym]. change (is_in [BAR] BAR) with true. cbv beta iota.
  destruct (gettoken_sym BAR (toks 2 r ++ rest)) as [w ->]; [done|done|].
  rewrite length_app in Hn. cbn [length] in Hn.
  destruct (Hr fuel rest Hf) as (t2 & -> & Ht2); [lia|]. eexists. split; [reflexivity|]. cbn. by rewrite Ht, Ht2.
Qed.

Lemma reads_BACK c : reads_back c -> reads_back (BACK c).
Proof.
  intros H fuel k rest Hr Hf.
  replace (toks 1 (BACK c) ++ replicate k (TSym AMP) ++ rest) with (toks 1 c ++ replicate (S k) (TSym AMP) ++ rest) in *
    by (cbn; by rewrite <- app_assoc).
  unfold backs. rewrite <- Nat.iter_succ_r. by apply H.
Qed.

Lemma reads_LIST l r : Forall tok_ok (toks 0 r) -> reads_back l -> reads_line r -> reads_line (LIST l r).
Proof.
  intros Hok Hl Hr [|fuel] rest Hf Hn; [lia|].
  replace (toks 0 (LIST l r) ++ rest) with (toks 1 l ++ TSym SEMI :: toks 0 r ++ rest) in *
    by (cbn; by rewrite <- app_assoc).
  assert (Hts : Forall tok_ok (toks 0 r ++ rest)) by (apply Forall_app_2; [done|apply Hf]).
  unfold reads. rewrite parseline_head. unfold bind.
  destruct (Hl fuel 0%nat (TSym SEMI :: toks 0 r ++ rest)) as (t & Et & Ht); [split; [by constructor|done]|cbn; lia|].
  cbn [replicate app] in Et. rewrite Et.
  rewrite peek_unlex by (sub_symbols || by constructor). cbn [is_sym]. change (is_in [SEMI] SEMI) with true. cbv beta iota.
  destruct (gettoken_sym SEMI (toks 0 r ++ rest)) as [w ->]; [done|done|].
  rewrite length_app in Hn. cbn [length] in Hn.
  destruct (Hr fuel rest Hf) as (t2 & -> & Ht2); [lia|]. eexists. split; [reflexivity|]. cbn. by rewrite Ht, Ht2.
Qed.

Lemma reads_cmd c : all_words word_ok c -> modes_ok c -> reads_all c.
Proof.
  induction c as [argv|c IH f mode fd|l IHl r IHr|l IHl r IHr|c IH]; cbn [all_words modes_ok]; intros Hw Hm.
  - pose proof (reads_exec_EXEC argv (proj1 Hw) (proj2 Hw)) as He.
    pose proof (exec_pipe _ He eq_refl) as Hp. pose proof (pipe_back _ Hp eq_refl) as Hb.
    split_and!; [done..|]. by apply back_line.
  - destruct Hw as [Hw Hf], Hm as [Hm Hr]. destruct (IH Hw Hm) as (He' & _).
    assert (He : reads_exec (REDIR c f mode fd)).
    { intros fuel rs rest Hrs Hrest Hn.
      replace (toks 3 (REDIR c f mode fd) ++ rtoks rs ++ rest) with (toks 3 c ++ rtoks ((f, mode, fd) :: rs) ++ rest) in *
        by (cbn; by rewrite <- app_assoc).
      apply (He' fuel ((f, mode, fd) :: rs) rest); [by constructor|done|done]. }
    pose proof (exec_pipe _ He eq_refl) as Hp. pose proof (pipe_back _ Hp eq_refl) as Hb.
    split_and!; [done..|]. by apply back_line.
  - destruct Hw as [Hwl Hwr], Hm as [Hml Hmr]. destruct (IHl Hwl Hml) as (He & _), (IHr Hwr Hmr) as (_ & Hp & _).
    pose proof (reads_PIPE l r (toks_ok 2 r Hwr) He Hp) as Hp'. pose proof (pipe_back _ Hp' eq_refl) as Hb.
    pose proof (back_line _ Hb eq_refl) as Hl. split_and!; [|done..].
    apply line_exec; [by apply (toks_ok 0 (PIPE l r))|done|done].
  - destruct Hw as [Hwl Hwr], Hm as [Hml Hmr]. destruct (IHl Hwl Hml) as (_ & _ & Hb & _), (IHr Hwr Hmr) as (_ & _ & _ & Hl).
    pose proof (reads_LIST l r (toks_ok 0 r Hwr) Hb Hl) as Hl'.
    assert (He : reads_exec (LIST l r)) by (apply line_exec; [by apply (toks_ok 0 (LIST l r))|done|done]).
    pose proof (exec_pipe _ He eq_refl) as Hp. pose proof (pipe_back _ Hp eq_refl). done.
  - destruct (IH Hw Hm) as (_ & _ & Hb & _). pose proof (reads_BACK c Hb) as Hb'. pose proof (back_line _ Hb' eq_refl) as Hl.
    assert (He : reads_exec (BACK c)) by (apply line_exec; [by apply (toks_ok 0 (BACK c))|done|done]).
    pose proof (exec_pipe _ He eq_refl). done.
Qed.

Lemma toks_nonzero lvl c : Forall (Forall (fun x => x <> 0)) (words c) -> Forall (fun x => x <> 0) (unlex (toks lvl c)).
Proof.
  assert (U : forall a b, Forall (fun x : Z => x <> 0) (unlex a) -> Forall (fun x => x <> 0) (unlex b) ->
              Forall (fun x => x <> 0) (unlex (a ++ b)))
    by (intros a b Ha Hb; unfold unlex; rewrite fmap_app, concat_app; by apply Forall_app_2).
  assert (V : forall b ts, Forall (fun x : Z => x <> 0) (unlex ts) -> Forall (fun x => x <> 0) (unlex (paren b ts)))
    by (intros [] ts H; [apply (U [_]); [repeat constructor; done|apply U; [done|repeat constructor; done]]|done]).
  assert (S : forall c : Z, c <> 0 -> Forall (fun x => x <> 0) (unlex [TSym c])) by (repeat constructor; done).
  revert lvl. induction c as [argv|c IH f mode fd|l IHl r IHr|l IHl r IHr|c IH]; intros lvl; cbn [words toks];
    rewrite ?Forall_app, ?Forall_singleton.
  - induction 1 as [|w ws Hw _ IH]; [constructor|]. apply (U [TWord w]); [|done]. cbn. rewrite app_nil_r.
    apply Forall_app_2; [done|by constructor].
  - intros [Hc Hf]. apply U; [by apply IH|]. apply (U [_] [_]); [apply S; by destruct (fd =? 0)|]. cbn.
    rewrite app_nil_r. apply Forall_app_2; [done|by constructor].
  - intros [Hl Hr]. apply V, U; [by apply IHl|]. apply (U [_]); [by apply S|by apply IHr].
  - intros [Hl Hr]. apply V, U; [by apply IHl|]. apply (U [_]); [by apply S|by apply IHr].
  - intros Hc. apply V, U; [by apply IH|by apply S].
Qed.

Lemma length_unlex ts : Forall tok_ok ts -> (length ts <= length (unlex ts))%nat.
Proof.
  induction 1 as [|t ts Ht _ IH]; [done|]. change (unlex (t :: ts)) with ((tok_text t ++ [32]) ++ unlex ts).
  rewrite !length_app. cbn. lia.
Qed.

Lemma parse_print (c : cmd (list Z)) :
  cmd_ok c ->
  exists t buf, parsecmd (print_cmd c) = Ok (t, buf) [] /\
    cmd_map (string_at (length (print_cmd c)) buf) t = c.
Proof.
  intros (Hw & Hm & Hz). destruct (reads_cmd c Hw Hm) as (_ & _ & _ & Hl).
  pose proof (toks_ok 0 c Hw) as Hts. pose proof (length_unlex _ Hts) as Hlen.
  destruct (Hl (parse_fuel (print_cmd c)) []) as (t & Et & Ht);
    [split; [constructor|done]|rewrite app_nil_r; unfold parse_fuel, print_cmd; lia|].
  rewrite app_nil_r in Et. change (unlex (toks 0 c)) with (print_cmd c) in Et.
  exists t, (nulterminate (length (print_cmd c)) t (print_cmd c ++ [0])). split.
  - unfold parsecmd, bind. rewrite Et. done.
  - etrans; [|exact Ht]. apply nulterminate_strings; [by apply toks_nonzero|].
    pose proof (parse_returns (print_cmd c) (parse_fuel (print_cmd c)) (print_cmd c) ltac:(done)) as (H & _).
    specialize (H ltac:(unfold parse_fuel; lia)). unfold returns in H. rewrite Et in H. apply H.
Qed.

(** C35: parsecmd() reads printed commands back: for every command, of any
    nesting of pipes, lists, background commands and redirections, with fewer
    than MAXARGS words for each program, the tree that parsecmd() returns for
    the printed command is the command, its words read as C strings in the
    buffer after nulterminate(). *)
Theorem parsecmd_print (c : cmd (list Z)) :
  cmd_ok c ->
  exists t buf, parsecmd (print_cmd c) = Ok (t, buf) [] /\
    cmd_map (string_at (length (print_cmd c)) buf) t = c.
Proof. apply parse_print. Qed.

Module Example.

(** (ls -l | wc > out & ) ; cat < in | sh *)
Definition example : cmd (list Z) :=
  LIST (LIST (BACK (PIPE (EXEC [[108; 115]; [45; 108]]) (REDIR (EXEC [[119; 99]]) [111] (Z.lor O_WRONLY O_CREATE) 1)))
             (EXEC []))
       (PIPE (REDIR (EXEC [[99]]) [105; 110] O_RDONLY 0) (EXEC [[115; 104]])).

Lemma example_ok : cmd_ok example.
Proof.
  unfold cmd_ok, example. cbn. unfold word_ok, MAXARGS. split_and!; try (cbn; lia); auto;
    repeat (constructor || split); try done; lia.
Qed.

Lemma parsecmd_print_witness :
  exists t buf, parsecmd (print_cmd example) = Ok (t, buf) [] /\
    cmd_map (string_at (length (print_cmd example)) buf) t = example.
Proof. exact (parsecmd_print example example_ok). Defined.

(** The parser makes the same command of > and of >>. *)
Lemma append_is_overwrite :
  cmd_map text <$> (fst <$> match parsecmd [97; 62; 62; 98] with Ok p _ => Some p | _ => None end) =
  cmd_map text <$> (fst <$> match parsecmd [97; 62; 98] with Ok p _ => Some p | _ => None end).
Proof. vm_compute. reflexivity. Qed.

End Example.
