(* ===== verification/ShRun.v ===== *)
(** sh.c: runcmd() and main(), as the system calls they make.

    A program is the tree of its calls and of what it does with their
    results; runcmd() never returns.  The semantics runs it on the table of
    open descriptors of a process, as sysfile.c keeps it: a new descriptor is
    the lowest that is free, a child has a copy of the table.  What open() and
    exec() answer is a parameter; fork() succeeds. *)

From S2P Require Import Prelude Params Bytes CString Ulib Sh ShPrint.

Inductive prog : Type :=
  | Exit
  | Exec (argv : list (list Z)) (k : prog)           (* returns when it fails *)
  | Close (fd : Z) (k : prog)
  | Open (file : list Z) (mode : Z) (k : Z -> prog)
  | Pipe (k : option (Z * Z) -> prog)                (* None is -1 *)
  | Dup (fd : Z) (k : prog)
  | Fork (k : Z -> prog)
  | Wait (k : prog)
  | Chdir (path : list Z) (k : Z -> prog)
  | Print (msg : string) (k : prog).

Definition panic (msg : string) : prog := Print msg Exit.

Definition fork1 (k : Z -> prog) : prog :=
  Fork (fun pid => if pid =? -1 then panic "fork" else k pid).

Fixpoint runcmd (c : cmd (list Z)) : prog :=
  match c with
  | EXEC argv =>
      match argv with
      | [] => Exit
      | _ :: _ => Exec argv (Print "exec failed" Exit)
      end
  | REDIR c file mode fd =>
      Close fd (
      Open file mode (fun r =>
      if r <? 0 then Print "open failed" Exit else runcmd c))
  | LIST l r =>
      fork1 (fun pid =>
      if pid =? 0 then runcmd l
      else Wait (runcmd r))
  | PIPE l r =>
      Pipe (fun p =>
      match p with
      | None => panic "pipe"
      | Some (p0, p1) =>
          fork1 (fun pid =>
          if pid =? 0 then Close 1 (Dup p1 (Close p0 (Close p1 (runcmd l))))
          else
            fork1 (fun pid =>
            if pid =? 0 then Close 0 (Dup p0 (Close p0 (Close p1 (runcmd r))))
            else Close p0 (Close p1 (Wait (Wait Exit)))))
      end)
  | BACK c =>
      fork1 (fun pid =>
      if pid =? 0 then runcmd c else Exit)
  end.

(** runcmd(parsecmd(buf)); a syntax error is a panic() of the child. *)
Definition run_line (buf : list Z) : prog :=
  match parsecmd buf with
  | Ok (c, b) _ => runcmd (cmd_map (string_at (length buf) b) c)
  | Panic msg => panic msg
  | _ => Exit
  end.

(** The loop of main(); [lines] are the lines that getcmd() reads until it
    returns -1. *)
Fixpoint main_loop (lines : list (list Z)) : prog :=
  match lines with
  | [] => Exit
  | buf :: lines =>
      if bool_decide (take 3 buf = [99; 100; 32]) then
        Chdir (drop 3 (take (length buf - 1) buf)) (fun r =>
        if r <? 0 then Print "cannot cd" (main_loop lines) else main_loop lines)
      else
        fork1 (fun pid =>
        if pid =? 0 then run_line buf else Wait (main_loop lines))
  end.

(** Three descriptors are open before the loop starts. *)
Fixpoint open_console (fuel : nat) (k : prog) : prog :=
  match fuel with
  | O => k
  | S fuel =>
      Open [99; 111; 110; 115; 111; 108; 101] O_RDWR (fun fd =>
      if fd <? 0 then k
      else if 3 <=? fd then Close fd k
      else open_console fuel k)
  end.

Definition main (lines : list (list Z)) : prog := open_console (S NOFILE) (main_loop lines).

(** ** Descriptors *)

Inductive obj :=
  | OGiven (i : nat)                     (* from the parent of the shell *)
  | OFile (name : list Z) (mode : Z)
  | OPipe (id : nat) (write : bool).

Abbreviation table := (list (option obj)).

Fixpoint lowest (l : table) : option nat :=
  match l with
  | [] => None
  | None :: _ => Some 0%nat
  | Some _ :: l => S <$> lowest l
  end.

(** What a process does that others see: the program it becomes with its
    descriptors, the descriptors it waits with, its end. *)
Inductive event :=
  | EExec (argv : list (list Z)) (fds : table)
  | EWait (fds : table)
  | EExit.

Section sem.
Context (can_open : list Z -> Z -> bool) (can_exec : list (list Z) -> bool) (can_chdir : list Z -> bool).

(** The events of the process and of its children, and the number of pipes
    that have been made. *)
Fixpoint sys (p : prog) (fds : table) (n : nat) : list event * nat :=
  match p with
  | Exit => ([EExit], n)
  | Exec argv k => if can_exec argv then ([EExec argv fds], n) else sys k fds n
  | Close fd k => sys k (<[Z.to_nat fd := None]> fds) n
  | Open file mode k =>
      match (if can_open file mode then lowest fds else None) with
      | Some i => sys (k (Z.of_nat i)) (<[i := Some (OFile file mode)]> fds) n
      | None => sys (k (-1)) fds n
      end
  | Pipe k =>
      match lowest fds with
      | Some i =>
          let fds1 := <[i := Some (OPipe n false)]> fds in
          match lowest fds1 with
          | Some j => sys (k (Some (Z.of_nat i, Z.of_nat j))) (<[j := Some (OPipe n true)]> fds1) (S n)
          | None => sys (k None) fds n
          end
      | None => sys (k None) fds n
      end
  | Dup fd k =>
      match fds !! Z.to_nat fd, lowest fds with
      | Some (Some o), Some i => sys k (<[i := Some o]> fds) n
      | _, _ => sys k fds n
      end
  | Fork k =>
      let '(e1, n) := sys (k 0) fds n in
      let '(e2, n) := sys (k 1) fds n in
      (e1 ++ e2, n)
  | Wait k => let '(e, n) := sys k fds n in (EWait fds :: e, n)
  | Chdir path k => if can_chdir path then sys (k 0) fds n else sys (k (-1)) fds n
  | Print _ k => sys k fds n
  end.

(** ** What a command means *)

(** The programs of a command and their descriptors: a redirection replaces
    one descriptor, a pipe descriptor 1 of one side and 0 of the other. *)
Fixpoint meaning (c : cmd (list Z)) (fds : table) (n : nat) : list event * nat :=
  match c with
  | EXEC argv =>
      (match argv with
       | [] => [EExit]
       | _ :: _ => if can_exec argv then [EExec argv fds] else [EExit]
       end, n)
  | REDIR c file mode fd =>
      if can_open file mode then meaning c (<[Z.to_nat fd := Some (OFile file mode)]> fds) n else ([EExit], n)
  | LIST l r =>
      let '(e1, n) := meaning l fds n in
      let '(e2, n) := meaning r fds n in
      (e1 ++ EWait fds :: e2, n)
  | PIPE l r =>
      let '(e1, n1) := meaning l (<[1%nat := Some (OPipe n true)]> fds) (S n) in
      let '(e2, n2) := meaning r (<[0%nat := Some (OPipe n false)]> fds) n1 in
      (e1 ++ e2 ++ [EWait fds; EWait fds; EExit], n2)
  | BACK c => let '(e, n) := meaning c fds n in (e ++ [EExit], n)
  end.

(** Descriptors 0, 1 and 2 are open and no other. *)
Definition standard (fds : table) : Prop :=
  exists a b c, fds = Some a :: Some b :: Some c :: replicate 13 None.

Lemma standard_insert fds i o : standard fds -> (i < 3)%nat -> standard (<[i := Some o]> fds).
Proof. intros (a&b&c&->) Hi. destruct i as [|[|[|i]]]; [by eexists _, _, _..|lia]. Qed.

Lemma runcmd_meaning c : forall fds n, modes_ok c -> standard fds -> sys (runcmd c) fds n = meaning c fds n.
Proof.
  induction c as [argv|c IH file mode fd|l IHl r IHr|l IHl r IHr|c IH]; intros fds n Hm Hs; cbn [runcmd meaning].
  - destruct argv as [|a argv]; [done|]. cbn [sys]. by destruct (can_exec (a :: argv)).
  - destruct Hm as [Hm Hfd]. cbn [sys]. destruct (can_open file mode); [|done].
    assert (Hi : lowest (<[Z.to_nat fd := None]> fds) = Some (Z.to_nat fd) /\ (Z.to_nat fd < 3)%nat).
    { destruct Hs as (a&b&d&->). destruct Hfd as [[= _ ->]|[= _ ->]]; split; (done || lia). }
    destruct Hi as [-> Hlt]. rewrite (proj2 (Z.ltb_ge (Z.of_nat (Z.to_nat fd)) 0)) by lia. cbv beta iota. rewrite list_insert_insert_eq. apply IH; [done|]. by apply standard_insert.
  - destruct Hm as [Hl Hr]. pose proof Hs as (a&b&d&->).
    specialize (IHl (<[1%nat := Some (OPipe n true)]> (Some a :: Some b :: Some d :: replicate 13 None)) (S n) Hl ltac:(by apply standard_insert; [|lia])).
    cbn in IHl |- *. change (Z.to_nat 1) with 1%nat. change (Z.to_nat 0) with 0%nat. change (Z.to_nat (Z.of_nat 3)) with 3%nat.
    change (Z.to_nat (Z.of_nat 4)) with 4%nat. cbn. rewrite IHl. destruct (meaning l _ (S n)) as [e1 n1].
    specialize (IHr (<[0%nat := Some (OPipe n false)]> (Some a :: Some b :: Some d :: replicate 13 None)) n1 Hr ltac:(by apply standard_insert; [|lia])).
    cbn in IHr |- *. rewrite IHr. destruct (meaning r _ n1) as [e2 n2]. done.
  - destruct Hm as [Hl Hr]. cbn. rewrite IHl by done. destruct (meaning l fds n) as [e1 n1]. rewrite IHr by done. by destruct (meaning r fds n1).
  - cbn. rewrite IH by done. by destruct (meaning c fds n).
Qed.

(** C21: The shell runs the command that was typed: for the text of any command,
    parsecmd() and runcmd() start exactly the programs of the command, each
    with the descriptors its redirections and pipes give it and no others, and
    no process waits while it holds the end of a pipe that is not its own. *)
Theorem run_line_correct c fds n :
  cmd_ok c -> standard fds -> sys (run_line (print_cmd c)) fds n = meaning c fds n.
Proof.
  intros Hc Hs. destruct (parse_print c Hc) as (t&buf&E&Et). unfold run_line. rewrite E, Et. apply runcmd_meaning; [apply Hc|done].
Qed.

(** main() opens the console until three descriptors are there. *)
#[local] Notation name := [99; 111; 110; 115; 111; 108; 101].
#[local] Notation con := (OFile name O_RDWR).

Lemma open_console_step f k fds n i :
  can_open name O_RDWR = true -> lowest fds = Some i ->
  sys (open_console (S f) k) fds n =
    if (3 <=? i)%nat then sys k (<[i := None]> (<[i := Some con]> fds)) n
    else sys (open_console f k) (<[i := Some con]> fds) n.
Proof.
  intros Ho Hi. cbn [open_console sys]. rewrite Ho, Hi. rewrite (proj2 (Z.ltb_ge _ _)) by lia.
  destruct (Nat.leb_spec 3 i); [rewrite (proj2 (Z.leb_le 3 _)) by lia|rewrite (proj2 (Z.leb_gt 3 _)) by lia; done].
  cbn [sys]. by rewrite Nat2Z.id.
Qed.

Lemma open_console_none k n :
  can_open name O_RDWR = true ->
  sys (open_console (S NOFILE) k) (replicate 16 None) n = sys k (Some con :: Some con :: Some con :: replicate 13 None) n.
Proof.
  intros Ho. change NOFILE with 16%nat. rewrite (open_console_step _ _ _ _ 0) by done.
  change (<[0%nat := Some con]> (replicate 16 None)) with (Some con :: replicate 15 None).
  rewrite (open_console_step _ _ _ _ 1) by done. change (<[1%nat := Some con]> (Some con :: replicate 15 None)) with (Some con :: Some con :: replicate 14 None).
  rewrite (open_console_step _ _ _ _ 2) by done.
  change (<[2%nat := Some con]> (Some con :: Some con :: replicate 14 None)) with (Some con :: Some con :: Some con :: replicate 13 None).
  by rewrite (open_console_step _ _ _ _ 3).
Qed.

Lemma open_console_three k fds n : can_open name O_RDWR = true -> standard fds -> sys (open_console (S NOFILE) k) fds n = sys k fds n.
Proof. intros Ho (a&b&c&->). by rewrite (open_console_step _ _ _ _ 3). Qed.
End sem.

Module Example.
Import ShPrint.Example.

Definition inherited : table := Some (OGiven 0) :: Some (OGiven 1) :: Some (OGiven 2) :: replicate 13 None.

(** (ls -l | wc > out & ) ; cat < in | sh *)
Lemma run_line_correct_witness :
  sys (fun _ _ => true) (fun _ => true) (fun _ => true) (run_line (print_cmd example)) inherited 0 =
    meaning (fun _ _ => true) (fun _ => true) example inherited 0 /\
  fst (meaning (fun _ _ => true) (fun _ => true) (PIPE (EXEC [[97]]) (EXEC [[98]])) inherited 0) =
    [EExec [[97]] (Some (OGiven 0) :: Some (OPipe 0 true) :: Some (OGiven 2) :: replicate 13 None);
     EExec [[98]] (Some (OPipe 0 false) :: Some (OGiven 1) :: Some (OGiven 2) :: replicate 13 None);
     EWait inherited; EWait inherited; EExit].
Proof.
  split; [|reflexivity].
  apply (run_line_correct (fun _ _ => true) (fun _ => true) (fun _ => true) example inherited 0 example_ok). by eexists _, _, _.
Defined.
End Example.
