(* ===== verification/Console.v ===== *)
(** console.c and uartputc() of uart.c: console input and output.

    The state is the console's lock and flags, the input buffer, the lock of
    the console's inode, the screen memory and the cursor registers of the
    CRT controller, the bytes sent to the serial port, and the calls of
    wakeup(&input.r).  A call of consoleread() runs under the lock until it
    returns or sleeps; what it resumes with is in its arguments. *)

From stdpp Require Import functions.
From S2P Require Import Prelude Params Bytes.

Definition BACKSPACE : Z := 0x100.
Definition INPUT_BUF : Z := 128.
#[global] Arguments INPUT_BUF : simpl never.

(** Control-x *)
Definition C (x : Z) : Z := x - 64.
Definition C_P : Z := C 80.
Definition C_U : Z := C 85.
Definition C_H : Z := C 72.
Definition C_D : Z := C 68.
Definition NL : Z := 10.

Record input := mkinput {
  in_buf : list Z;
  in_r : Z;   (* Read index *)
  in_w : Z;   (* Write index *)
  in_e : Z;   (* Edit index *)
}.

Record console := mkconsole {
  co_lock : bool;
  co_locking : bool;
  co_panicked : bool;
  co_ip : bool;           (* the lock of the inode is held *)
  co_in : input;
  co_crt : Z -> Z;        (* the cells of the CGA memory *)
  co_hi : Z;              (* CRT controller registers 14 and 15 *)
  co_lo : Z;
  co_uart : bool;         (* is there a uart? *)
  co_serial : list Z;     (* what was sent to it *)
  co_wakeups : nat;       (* the calls wakeup(&input.r) *)
  co_dumps : nat;         (* the calls procdump() *)
}.

Definition set_co_lock v (s : console) := mkconsole v (co_locking s) (co_panicked s) (co_ip s) (co_in s) (co_crt s) (co_hi s) (co_lo s) (co_uart s) (co_serial s) (co_wakeups s) (co_dumps s).
Definition set_co_locking v (s : console) := mkconsole (co_lock s) v (co_panicked s) (co_ip s) (co_in s) (co_crt s) (co_hi s) (co_lo s) (co_uart s) (co_serial s) (co_wakeups s) (co_dumps s).
Definition set_co_ip v (s : console) := mkconsole (co_lock s) (co_locking s) (co_panicked s) v (co_in s) (co_crt s) (co_hi s) (co_lo s) (co_uart s) (co_serial s) (co_wakeups s) (co_dumps s).
Definition set_co_in v (s : console) := mkconsole (co_lock s) (co_locking s) (co_panicked s) (co_ip s) v (co_crt s) (co_hi s) (co_lo s) (co_uart s) (co_serial s) (co_wakeups s) (co_dumps s).
Definition set_co_crt v (s : console) := mkconsole (co_lock s) (co_locking s) (co_panicked s) (co_ip s) (co_in s) v (co_hi s) (co_lo s) (co_uart s) (co_serial s) (co_wakeups s) (co_dumps s).
Definition set_co_cursor hi lo (s : console) := mkconsole (co_lock s) (co_locking s) (co_panicked s) (co_ip s) (co_in s) (co_crt s) hi lo (co_uart s) (co_serial s) (co_wakeups s) (co_dumps s).
Definition set_co_serial v (s : console) := mkconsole (co_lock s) (co_locking s) (co_panicked s) (co_ip s) (co_in s) (co_crt s) (co_hi s) (co_lo s) (co_uart s) v (co_wakeups s) (co_dumps s).
Definition set_co_wakeups v (s : console) := mkconsole (co_lock s) (co_locking s) (co_panicked s) (co_ip s) (co_in s) (co_crt s) (co_hi s) (co_lo s) (co_uart s) (co_serial s) v (co_dumps s).
Definition set_co_dumps v (s : console) := mkconsole (co_lock s) (co_locking s) (co_panicked s) (co_ip s) (co_in s) (co_crt s) (co_hi s) (co_lo s) (co_uart s) (co_serial s) (co_wakeups s) v.

(** * Output *)

(** uartputc(): it waits for the transmitter at most 128 times and then
    writes the low byte to the data port. *)
Definition uartputc (c : Z) : M console unit :=
  modify (fun s => if co_uart s then set_co_serial (co_serial s ++ [c mod 256]) s else s).

(** memmove(crt, crt+80, sizeof(crt[0])*23*80) and
    memset(crt+pos, 0, sizeof(crt[0])*(24*80 - pos)), in cells. *)
Definition crt_scroll (crt : Z -> Z) : Z -> Z := fun i => if (0 <=? i) && (i <? 23 * 80) then crt (i + 80) else crt i.
Definition crt_clear (pos : Z) (crt : Z -> Z) : Z -> Z := fun i => if (pos <=? i) && (i <? 24 * 80) then 0 else crt i.

Definition cgaputc (c : Z) : M console unit :=
  let* s := gets (fun s => s) in
  let pos := Z.lor (Z.shiftl (co_hi s) 8) (co_lo s) in
  let crt := co_crt s in
  let '(pos, crt) :=
    if c =? NL then (pos + (80 - pos mod 80), crt)
    else if c =? BACKSPACE then (if 0 <? pos then pos - 1 else pos, crt)
    else (pos + 1, <[pos := Z.lor (Z.land c 0xff) 0x0700]> crt) in
  modify (set_co_crt crt) ;;;
  panic_if ((pos <? 0) || (25 * 80 <? pos)) "pos under/overflow" ;;;
  let '(pos, crt) :=
    if 24 <=? pos / 80 then (pos - 80, crt_clear (pos - 80) (crt_scroll crt)) else (pos, crt) in
  modify (fun s => set_co_cursor (Z.shiftr pos 8 mod 256) (pos mod 256)
                     (set_co_crt (<[pos := Z.lor 32 0x0700]> crt) s)).

(** When another CPU has panicked this one spins forever. *)
Definition consputc (c : Z) : M console unit :=
  let* p := gets co_panicked in
  if p then nofuel
  else
    (if c =? BACKSPACE then uartputc 8 ;;; uartputc 32 ;;; uartputc 8 else uartputc c) ;;;
    cgaputc c.

Definition consputs (cs : list Z) : M console unit := for_each cs consputc.

(** The digits of printint(), the last one first; the buffer has 16 bytes. *)
Definition kdigit (d : Z) : Z := if d <? 10 then 48 + d else 87 + d.

Fixpoint kdigits (fuel : nat) (x base : Z) : option (list Z) :=
  match fuel with
  | O => None
  | S fuel =>
      let rest := x / base in
      if rest =? 0 then Some [kdigit (x mod base)]
      else ds ← kdigits fuel rest base; Some (kdigit (x mod base) :: ds)
  end.

Definition printint (xx base : Z) (sign : bool) : M console unit :=
  let neg := sign && (s32 xx <? 0) in
  let x := if neg then u32 (- s32 xx) else u32 xx in
  let* buf := from_some (kdigits 16 x base) in
  let buf := buf ++ if neg then [45] else [] in
  if bool_decide (16 < length buf)%nat then fault "printint: buf" else consputs (reverse buf).

Definition knull : list Z := [40; 110; 117; 108; 108; 41].

(** The loop of cprintf(): [str_at] is the C string at an address, [argp] the
    arguments on the stack. *)
Fixpoint cprintf_loop (str_at : Z -> list Z) (fmt argp : list Z) : M console unit :=
  match fmt with
  | [] => ret tt
  | c :: fmt =>
      if negb (c =? 37) then consputc c ;;; cprintf_loop str_at fmt argp
      else
        match fmt with
        | [] => ret tt
        | c :: fmt =>
            if c =? 100 then
              let* a := from_some (head argp) in
              printint a 10 true ;;; cprintf_loop str_at fmt (tail argp)
            else if (c =? 120) || (c =? 112) then
              let* a := from_some (head argp) in
              printint a 16 false ;;; cprintf_loop str_at fmt (tail argp)
            else if c =? 115 then
              let* a := from_some (head argp) in
              consputs (if a =? 0 then knull else str_at a) ;;; cprintf_loop str_at fmt (tail argp)
            else if c =? 37 then consputc 37 ;;; cprintf_loop str_at fmt argp
            else consputc 37 ;;; consputc c ;;; cprintf_loop str_at fmt argp
        end
  end.

(** None is a null format. *)
Definition cprintf (str_at : Z -> list Z) (fmt : option (list Z)) (argp : list Z) : M console unit :=
  let* locking := gets co_locking in
  (if locking then acquire co_lock set_co_lock else ret tt) ;;;
  match fmt with
  | None => panic "null fmt"
  | Some fmt =>
      cprintf_loop str_at fmt argp ;;;
      if locking then release co_lock set_co_lock else ret tt
  end.

(** * Input *)

Definition set_in_r v (i : input) := mkinput (in_buf i) v (in_w i) (in_e i).
Definition set_in_w v (i : input) := mkinput (in_buf i) (in_r i) v (in_e i).
Definition set_in_e v (i : input) := mkinput (in_buf i) (in_r i) (in_w i) v.
Definition set_in_buf v (i : input) := mkinput v (in_r i) (in_w i) (in_e i).

Definition on_input (f : input -> input) : M console unit := modify (fun s => set_co_in (f (co_in s)) s).
Definition in_at (i : input) (k : Z) : option Z := in_buf i !! Z.to_nat (k mod INPUT_BUF).

(** Kill line; the loop ends after at most the whole buffer. *)
Fixpoint kill_line (fuel : nat) : M console unit :=
  let* i := gets co_in in
  if in_e i =? in_w i then ret tt
  else
    let* c := from_some (in_at i (u32 (in_e i - 1))) in
    if c =? NL then ret tt
    else
      match fuel with
      | O => nofuel
      | S fuel =>
          on_input (set_in_e (u32 (in_e i - 1))) ;;;
          consputc BACKSPACE ;;;
          kill_line fuel
      end.

(** One character of consoleintr(); the result is the new doprocdump. *)
Definition console_char (c : Z) (dump : bool) : M console bool :=
  let* i := gets co_in in
  if c =? C_P then ret true
  else if c =? C_U then kill_line (Z.to_nat INPUT_BUF) ;;; ret dump
  else if (c =? C_H) || (c =? 127) then
    (if negb (in_e i =? in_w i) then on_input (set_in_e (u32 (in_e i - 1))) ;;; consputc BACKSPACE else ret tt) ;;;
    ret dump
  else if negb (c =? 0) && (u32 (in_e i - in_r i) <? INPUT_BUF) then
    let c := if c =? 13 then NL else c in
    on_input (fun i => set_in_e (u32 (in_e i + 1)) (set_in_buf (<[Z.to_nat (in_e i mod INPUT_BUF) := u8 c]> (in_buf i)) i)) ;;;
    consputc c ;;;
    let* i := gets co_in in
    (if (c =? NL) || (c =? C_D) || (in_e i =? u32 (in_r i + INPUT_BUF)) then
       on_input (set_in_w (in_e i)) ;;;
       modify (fun s => set_co_wakeups (S (co_wakeups s)) s)
     else ret tt) ;;;
    ret dump
  else ret dump.

(** [cs] is what getc() gives until it is negative. *)
Fixpoint console_chars (cs : list Z) (dump : bool) : M console bool :=
  match cs with
  | [] => ret dump
  | c :: cs => let* dump := console_char c dump in console_chars cs dump
  end.

Definition consoleintr (cs : list Z) : M console unit :=
  acquire co_lock set_co_lock ;;;
  let* dump := console_chars cs false in
  release co_lock set_co_lock ;;;
  if dump then modify (fun s => set_co_dumps (S (co_dumps s)) s) else ret tt.

Definition ip_unlock : M console unit :=
  let* h := gets co_ip in panic_if (negb h) "iunlock" ;;; modify (set_co_ip false).
Definition ip_lock : M console unit := modify (set_co_ip true).

(** How a segment of consoleread() ends: the value returned with the bytes
    stored at dst, or the values of n and of the bytes with which it sleeps. *)
Inductive cout := CReturn (r : Z) (got : list Z) | CSleep (n : Z) (got : list Z).

Fixpoint consoleread_loop (fuel : nat) (killed : bool) (target n : Z) (got : list Z) : M console cout :=
  if 0 <? n then
    let* i := gets co_in in
    if in_r i =? in_w i then
      if killed then
        release co_lock set_co_lock ;;; ip_lock ;;; ret (CReturn (-1) got)
      else release co_lock set_co_lock ;;; ret (CSleep n got)
    else
      match fuel with
      | O => nofuel
      | S fuel =>
          let* c := from_some (in_at i (in_r i)) in
          on_input (set_in_r (u32 (in_r i + 1))) ;;;
          if c =? C_D then
            (if u32 n <? u32 target then on_input (fun i => set_in_r (u32 (in_r i - 1)) i) else ret tt) ;;;
            release co_lock set_co_lock ;;; ip_lock ;;; ret (CReturn (target - n) got)
          else
            let got := got ++ [c] in
            if c =? NL then
              release co_lock set_co_lock ;;; ip_lock ;;; ret (CReturn (target - (n - 1)) got)
            else consoleread_loop fuel killed target (n - 1) got
      end
  else
    release co_lock set_co_lock ;;; ip_lock ;;; ret (CReturn (target - n) got).

(** From the start. *)
Definition consoleread (killed : bool) (n : Z) : M console cout :=
  ip_unlock ;;;
  acquire co_lock set_co_lock ;;;
  consoleread_loop (Z.to_nat n) killed n n [].

(** From the sleep on. *)
Definition consoleread_back (killed : bool) (target n : Z) (got : list Z) : M console cout :=
  acquire co_lock set_co_lock ;;;
  consoleread_loop (Z.to_nat n) killed target n got.

Definition consolewrite (buf : list Z) : M console Z :=
  ip_unlock ;;;
  acquire co_lock set_co_lock ;;;
  for_each buf (fun b => consputc (Z.land b 0xff)) ;;;
  release co_lock set_co_lock ;;;
  ip_lock ;;;
  ret (Z.of_nat (length buf)).
