(* ===== verification/ConsoleSpec.v ===== *)
(** console.c: the screen stays within its 24 lines, and the input buffer
    refines a line editor: a queue of characters that can be read and a line
    that is being edited. *)

From Stdlib Require Import ZifyBool.
From stdpp Require Import functions.
From S2P Require Import Prelude Params Bytes Console.

(** * The screen *)

Definition cursor (s : console) : Z := co_hi s * 256 + co_lo s.

Definition screen_ok (s : console) : Prop :=
  co_panicked s = false /\ 0 <= co_hi s < 256 /\ 0 <= co_lo s < 256 /\ cursor s < 24 * 80.

(** Output changes the cells of the 24 lines, the cursor and the serial
    port only. *)
Definition output_only (s s' : console) : Prop :=
  co_lock s' = co_lock s /\ co_locking s' = co_locking s /\ co_panicked s' = co_panicked s /\
  co_ip s' = co_ip s /\ co_in s' = co_in s /\ co_uart s' = co_uart s /\
  co_wakeups s' = co_wakeups s /\ co_dumps s' = co_dumps s /\
  (forall k, k < 0 \/ 24 * 80 <= k -> co_crt s' k = co_crt s k).

#[global] Instance output_only_refl : Reflexive output_only.
Proof. by intros s. Qed.
#[global] Instance output_only_trans : Transitive output_only.
Proof.
  intros s1 s2 s3 (A1 & A2 & A3 & A4 & A5 & A6 & A7 & A8 & A9) (B1 & B2 & B3 & B4 & B5 & B6 & B7 & B8 & B9).
  split_and!; try congruence. intros k Hk. by rewrite B9, A9.
Qed.

Lemma cursor_read s : screen_ok s -> Z.lor (Z.shiftl (co_hi s) 8) (co_lo s) = cursor s.
Proof. intros (_ & _ & Hl & _). unfold cursor. rewrite lor_add by lia. lia. Qed.

(** Where the character goes, before scrolling. *)
Lemma cga_place c pos (crt : Z -> Z) :
  0 <= pos < 24 * 80 ->
  let '(pos', crt') :=
    if c =? NL then (pos + (80 - pos mod 80), crt)
    else if c =? BACKSPACE then (if 0 <? pos then pos - 1 else pos, crt)
    else (pos + 1, <[pos := Z.lor (Z.land c 0xff) 0x0700]> crt) in
  0 <= pos' <= 24 * 80 /\ forall k, k < 0 \/ 24 * 80 <= k -> crt' k = crt k.
Proof.
  intros Hp. destruct (c =? NL); [|destruct (c =? BACKSPACE)].
  - split; [|done]. pose proof (Z.mod_pos_bound pos 80). pose proof (Z.div_mod pos 80). lia.
  - destruct (0 <? pos) eqn:E; split; done || lia.
  - split; [lia|]. intros k Hk. rewrite fn_lookup_insert_ne; [done|lia].
Qed.

Lemma wp_cgaputc c s :
  screen_ok s -> wp (cgaputc c) (fun _ s' => screen_ok s' /\ output_only s s' /\ co_serial s' = co_serial s) s.
Proof.
  intros Hs. unfold cgaputc. apply wp_bind, wp_gets. cbv zeta. rewrite (cursor_read s Hs).
  destruct Hs as (Hpa & Hh & Hl & Hc). assert (0 <= cursor s) as H0 by (unfold cursor; lia).
  pose proof (cga_place c (cursor s) (co_crt s) (conj H0 Hc)) as Hp.
  destruct (if c =? NL then _ else _) as [pos crt]. destruct Hp as [Hp Hk].
  apply wp_bind, wp_modify. apply wp_bind, wp_panic_if; [lia|].
  assert (Hsc : exists pos' crt', (if 24 <=? pos / 80 then (pos - 80, crt_clear (pos - 80) (crt_scroll crt)) else (pos, crt)) =
            (pos', crt') /\ 0 <= pos' < 24 * 80 /\ forall k, k < 0 \/ 24 * 80 <= k -> crt' k = crt k).
  { destruct (24 <=? pos / 80) eqn:E; eexists _, _; (split; [reflexivity|]).
    - assert (pos = 24 * 80) as -> by (pose proof (Z.div_mod pos 80); pose proof (Z.mod_pos_bound pos 80); lia).
      split; [lia|]. intros k Hk'. unfold crt_clear, crt_scroll.
      repeat case_match; done || lia.
    - split; [|done]. pose proof (Z.div_mod pos 80). pose proof (Z.mod_pos_bound pos 80). lia. }
  destruct Hsc as (pos' & crt' & -> & Hp' & Hk'). apply wp_modify. split; [|split; [|done]].
  - rewrite Z.shiftr_div_pow2 by lia. change (2 ^ 8) with 256.
    assert (0 <= pos' / 256 < 256) by (split; [apply Z.div_pos; lia|apply Z.div_lt_upper_bound; lia]).
    unfold screen_ok, cursor. cbn. rewrite (Z.mod_small (pos' / 256)) by lia.
    pose proof (Z.mod_pos_bound pos' 256). pose proof (Z.div_mod pos' 256). split_and!; done || lia.
  - unfold output_only. cbn. split_and!; try done. intros k Hk''. rewrite fn_lookup_insert_ne by lia. rewrite Hk' by done. by apply Hk.
Qed.

Lemma wp_uartputc c s :
  screen_ok s -> wp (uartputc c) (fun _ s' => screen_ok s' /\ output_only s s') s.
Proof.
  intros Hs. unfold uartputc. apply wp_modify. destruct (co_uart s) eqn:E; [|done]. split; [exact Hs|]. by split_and!.
Qed.

Lemma wp_consputc c s :
  screen_ok s -> wp (consputc c) (fun _ s' => screen_ok s' /\ output_only s s') s.
Proof.
  intros Hs. unfold consputc. apply wp_bind, wp_gets. rewrite (proj1 Hs). apply wp_bind.
  assert (H : wp (if c =? BACKSPACE then uartputc 8 ;;; uartputc 32 ;;; uartputc 8 else uartputc c)
            (fun _ s' => screen_ok s' /\ output_only s s') s).
  { destruct (c =? BACKSPACE); [|by apply wp_uartputc].
    apply wp_bind. eapply wp_mono; [by apply wp_uartputc|]. intros _ s1 [H1 O1].
    apply wp_bind. eapply wp_mono; [by apply wp_uartputc|]. intros _ s2 [H2 O2].
    eapply wp_mono; [by apply wp_uartputc|]. intros _ s3 [H3 O3]. split; [done|]. etrans; [exact O1|]. by etrans. }
  eapply wp_mono; [exact H|]. intros _ s1 [H1 O1]. eapply wp_mono; [by apply wp_cgaputc|].
  intros _ s2 (H2 & O2 & _). split; [done|]. by etrans.
Qed.

(** A byte goes to the serial port, when there is one, and to the screen. *)
Lemma wp_consputc_byte b s :
  screen_ok s -> 0 <= b < 256 ->
  wp (consputc b)
    (fun _ s' => screen_ok s' /\ output_only s s' /\
                 co_serial s' = co_serial s ++ (if co_uart s then [b] else [])) s.
Proof.
  intros Hs Hb. unfold consputc. apply wp_bind, wp_gets. rewrite (proj1 Hs).
  rewrite (proj2 (Z.eqb_neq b BACKSPACE)) by (unfold BACKSPACE; lia). apply wp_bind, wp_modify.
  set (s1 := if co_uart s then _ else s).
  assert (H1 : screen_ok s1 /\ output_only s s1 /\ co_serial s1 = co_serial s ++ (if co_uart s then [b] else [])).
  { subst s1. destruct (co_uart s) eqn:E; [|by rewrite app_nil_r].
    split; [exact Hs|]. rewrite Z.mod_small by done. by split_and!. }
  destruct H1 as (H1 & O1 & E1). eapply wp_mono; [by apply wp_cgaputc|]. intros ? s2 (H2 & O2 & E2).
  split_and!; [done|by etrans|by rewrite E2].
Qed.

(** consolewrite() writes any bytes without a panic and returns their
    number: the cursor stays within the 24 lines, no cell outside of them is
    stored to, the input buffer is untouched, and the serial port, when there
    is one, gets exactly the bytes, in order. *)
Theorem consolewrite_bounded (buf : list Z) (s : console) :
  screen_ok s -> co_lock s = false -> co_ip s = true -> bytes_ok buf ->
  wp (consolewrite buf)
    (fun r s' => r = Z.of_nat (length buf) /\ screen_ok s' /\ output_only s s' /\
                 co_serial s' = co_serial s ++ (if co_uart s then buf else [])) s.
Proof.
  intros Hs Hl Hi Hb. unfold consolewrite, ip_unlock.
  apply wp_bind, wp_bind, wp_gets, wp_bind, wp_panic_if; [by rewrite Hi|]. apply wp_modify, wp_bind, wp_acquire; [done|].
  set (s1 := set_co_lock true _). apply wp_bind.
  apply (wp_for_each _ _ (fun l s' => screen_ok s' /\ output_only s1 s' /\
           co_serial s' = co_serial s1 ++ (if co_uart s1 then l else []))).
  - split_and!; [exact Hs|done|]. destruct (co_uart s1); by rewrite app_nil_r.
  - intros l b rest s2 E (H2 & O2 & E2).
    assert (Hb' : byte_ok b) by (rewrite E in Hb; apply Forall_app in Hb as [_ Hb]; by apply Forall_cons in Hb as [Hb _]).
    change 0xff with (Z.ones 8). rewrite Z.land_ones, Z.mod_small by (done || lia).
    eapply wp_mono; [by apply wp_consputc_byte|]. intros ? s3 (H3 & O3 & E3).
    split_and!; [done|by etrans|]. destruct O2 as (_ & _ & _ & _ & _ & -> & _) in E3. rewrite E3, E2.
    destruct (co_uart s1); [by rewrite app_assoc|by rewrite !app_nil_r].
  - intros s2 (H2 & O2 & E2). apply wp_bind, wp_release; [by destruct O2 as (-> & _)|].
    apply wp_bind, wp_modify, wp_ret. split_and!; [done|exact H2| |done].
    destruct O2 as (O1 & O2' & O3 & O4 & O5 & O6 & O7 & O8 & O9). unfold output_only. by split_and!.
Qed.

(** * The line editor *)

(** The characters that can be read, and the line that is being edited. *)
Record editor := mkeditor { ready : list Z; edit : list Z }.

Definition queued (a : editor) : list Z := ready a ++ edit a.

Definition type_char (a : editor) (c : Z) : editor :=
  if c =? C_P then a
  else if c =? C_U then mkeditor (ready a) []
  else if (c =? C_H) || (c =? 127) then mkeditor (ready a) (take (length (edit a) - 1) (edit a))
  else if negb (c =? 0) && (Z.of_nat (length (queued a)) <? INPUT_BUF) then
    let c := if c =? 13 then NL else c in
    if (c =? NL) || (c =? C_D) || (Z.of_nat (length (queued a)) + 1 =? INPUT_BUF)
    then mkeditor (queued a ++ [c]) []
    else mkeditor (ready a) (edit a ++ [c])
  else a.

(** The input buffer holds [a], at indices that wrap around. *)
Definition holds (i : input) (a : editor) : Prop :=
  length (in_buf i) = Z.to_nat INPUT_BUF /\ is_u32 (in_r i) /\
  in_w i = u32 (in_r i + Z.of_nat (length (ready a))) /\
  in_e i = u32 (in_r i + Z.of_nat (length (queued a))) /\
  Z.of_nat (length (queued a)) <= INPUT_BUF /\
  (forall k c, queued a !! k = Some c -> in_at i (in_r i + Z.of_nat k) = Some c) /\
  NL ∉ edit a.

Lemma u32_mod_buf z : u32 z mod INPUT_BUF = z mod INPUT_BUF.
Proof.
  unfold u32, W32, INPUT_BUF. apply Z.mod_mod_divide. by exists (2 ^ 25).
Qed.

Lemma in_at_u32 i z : in_at i (u32 z) = in_at i z.
Proof. unfold in_at. by rewrite u32_mod_buf. Qed.

Lemma u32_eq_small r m n : 0 <= m <= INPUT_BUF -> 0 <= n <= INPUT_BUF -> u32 (r + m) = u32 (r + n) -> m = n.
Proof.
  unfold INPUT_BUF, u32, W32. intros Hm Hn E.
  pose proof (Z.div_mod (r + m) (2 ^ 32)). pose proof (Z.div_mod (r + n) (2 ^ 32)). nia.
Qed.

Lemma holds_empty i a : holds i a -> (in_e i =? in_w i) = bool_decide (edit a = []).
Proof.
  intros (_ & _ & Hw & He & Hl & _ & _). rewrite Hw, He. unfold queued in *. rewrite length_app in *.
  destruct (decide (edit a = [])) as [E|E].
  - rewrite bool_decide_true by done. rewrite E. cbn. rewrite Nat.add_0_r. apply Z.eqb_refl.
  - rewrite bool_decide_false by done. apply Z.eqb_neq. intros H. apply u32_eq_small in H; [|lia|lia].
    destruct (edit a); [done|]. cbn in *. lia.
Qed.

(** Taking back the last character of the line. *)
Lemma holds_erase i a x c :
  holds i a -> edit a = x ++ [c] -> holds (set_in_e (u32 (in_e i - 1)) i) (mkeditor (ready a) x) /\
  in_at i (u32 (in_e i - 1)) = Some c /\ c <> NL.
Proof.
  intros (Hb & Hr & Hw & He & Hl & Hq & Hn) E. unfold queued in *. rewrite E in *. rewrite !length_app in *. cbn in *.
  assert (Ee : u32 (in_e i - 1) = u32 (in_r i + Z.of_nat (length (ready a) + length x)))
    by (rewrite He, u32_sub_l; f_equal; lia).
  split; [|split].
  - unfold holds, queued. cbn. rewrite length_app. split_and!; try done; [lia| |set_solver].
    intros k d Hk. apply (Hq k). rewrite app_assoc. by apply lookup_app_l_Some.
  - rewrite Ee, in_at_u32. apply Hq. rewrite app_assoc, lookup_app_r by (rewrite length_app; lia).
    by replace (_ - _)%nat with 0%nat by (rewrite length_app; lia).
  - intros ->. set_solver.
Qed.

(** Appending a character to the line. *)
Lemma holds_put i a c :
  holds i a -> Z.of_nat (length (queued a)) < INPUT_BUF -> 0 <= c < 256 ->
  let i' := set_in_e (u32 (in_e i + 1)) (set_in_buf (<[Z.to_nat (in_e i mod INPUT_BUF) := u8 c]> (in_buf i)) i) in
  (c <> NL -> holds i' (mkeditor (ready a) (edit a ++ [c]))) /\
  holds (set_in_w (in_e i') i') (mkeditor (queued a ++ [c]) []) /\
  (in_e i' =? u32 (in_r i + INPUT_BUF)) = (Z.of_nat (length (queued a)) + 1 =? INPUT_BUF).
Proof.
  intros (Hb & Hr & Hw & He & Hl & Hq & Hn) Hlt Hc i'.
  assert (Ee : in_e i' = u32 (in_r i + Z.of_nat (length (queued a ++ [c]))))
    by (cbn; rewrite He, u32_add_l, length_app; cbn; f_equal; lia).
  assert (Hat : forall k d, (queued a ++ [c]) !! k = Some d -> in_at i' (in_r i + Z.of_nat k) = Some d).
  { intros k d Hk. unfold in_at. cbn. rewrite He, u32_mod_buf.
    destruct (decide (k < length (queued a))%nat) as [Hk'|Hk'].
    - rewrite list_lookup_insert_ne; [rewrite lookup_app_l in Hk by done; by apply Hq in Hk|].
      unfold INPUT_BUF in *. intros E. apply Z2Nat.inj in E; try (apply Z.mod_pos_bound; lia).
      pose proof (Z.div_mod (in_r i + Z.of_nat k) 128). pose proof (Z.div_mod (in_r i + Z.of_nat (length (queued a))) 128). nia.
    - apply lookup_lt_Some in Hk as Hk2. rewrite length_app in Hk2. cbn in Hk2.
      assert (k = length (queued a)) as -> by lia. rewrite list_lookup_middle in Hk by done.
      rewrite list_lookup_insert_eq; [unfold u8; by rewrite Z.mod_small|].
      rewrite Hb. unfold INPUT_BUF. pose proof (Z.mod_pos_bound (in_r i + Z.of_nat (length (queued a))) 128). lia. }
  assert (Hbl : length (in_buf i') = Z.to_nat INPUT_BUF) by (cbn; by rewrite length_insert).
  assert (Hlen : Z.of_nat (length (queued a ++ [c])) <= INPUT_BUF) by (rewrite length_app; cbn; lia).
  split_and!.
  - intros Hcn. unfold holds, queued. cbn [ready edit]. rewrite app_assoc. fold (queued a).
    split_and!; try done. set_solver.
  - unfold holds, queued. cbn [ready edit]. rewrite app_nil_r. split_and!; try done. set_solver.
  - rewrite Ee, length_app. cbn. destruct (decide (Z.of_nat (length (queued a)) + 1 = INPUT_BUF)) as [E|E].
    + rewrite E, Z.eqb_refl. apply Z.eqb_eq. f_equal. lia.
    + rewrite (proj2 (Z.eqb_neq _ _) E). apply Z.eqb_neq. intros H. apply u32_eq_small in H; unfold INPUT_BUF in *; lia.
Qed.

(** ** consoleintr() *)

(** From [s] holding [a] to [s'] holding [a']: the locks are as they were,
    and the readers are woken up when there is more to read. *)
Definition typed (s : console) (a : editor) (s' : console) (a' : editor) : Prop :=
  screen_ok s' /\ holds (co_in s') a' /\ co_lock s' = co_lock s /\ co_ip s' = co_ip s /\
  (co_wakeups s <= co_wakeups s')%nat /\ (ready a' <> ready a -> (co_wakeups s < co_wakeups s')%nat).

Lemma typed_refl s a : screen_ok s -> holds (co_in s) a -> typed s a s a.
Proof. intros Hs Hh. unfold typed. by split_and!. Qed.

Lemma typed_trans s1 a1 s2 a2 s3 a3 : typed s1 a1 s2 a2 -> typed s2 a2 s3 a3 -> typed s1 a1 s3 a3.
Proof.
  intros (A1 & A2 & A3 & A4 & A5 & A6) (B1 & B2 & B3 & B4 & B5 & B6). unfold typed. split_and!; try congruence; [lia|].
  intros H. destruct (decide (ready a2 = ready a1)) as [E|E]; [|specialize (A6 E); lia].
  assert (ready a3 <> ready a2) as H' by congruence. specialize (B6 H'). lia.
Qed.

Lemma output_typed s s' a : screen_ok s' -> holds (co_in s) a -> output_only s s' -> typed s a s' a.
Proof.
  intros Hs Hh (O1 & O2 & O3 & O4 & O5 & O6 & O7 & O8 & _). unfold typed. split_and!; try done; [by rewrite O5|lia].
Qed.

(** One step of deletion. *)
Lemma wp_erase s a x c Q :
  screen_ok s -> holds (co_in s) a -> edit a = x ++ [c] ->
  (forall s', typed s a s' (mkeditor (ready a) x) -> Q tt s') ->
  wp (on_input (set_in_e (u32 (in_e (co_in s) - 1))) ;;; consputc BACKSPACE) Q s.
Proof.
  intros Hs Hh E HQ. destruct (holds_erase _ _ _ _ Hh E) as (Hh' & _).
  apply wp_bind. apply wp_modify. cbn beta.
  set (s1 := set_co_in _ s). assert (Hs1 : screen_ok s1) by exact Hs.
  eapply wp_mono; [by apply wp_consputc|]. intros [] s2 [Hs2 O]. apply HQ.
  eapply typed_trans; [|by apply (output_typed s1)]. unfold typed. by split_and!.
Qed.

Lemma wp_kill_line fuel s a :
  screen_ok s -> holds (co_in s) a -> (length (edit a) <= fuel)%nat ->
  wp (kill_line fuel) (fun _ s' => typed s a s' (mkeditor (ready a) [])) s.
Proof.
  revert s a. induction fuel as [|fuel IH]; intros s a Hs Hh Hf; cbn [kill_line];
    apply wp_bind, wp_gets; rewrite (holds_empty _ _ Hh);
    (destruct (bool_decide (edit a = [])) eqn:E; [apply bool_decide_eq_true in E|apply bool_decide_eq_false in E]).
  1, 3: apply wp_ret; destruct a as [rd ed]; cbn in E; subst; by apply typed_refl.
  { destruct (edit a); [done|cbn in Hf; lia]. }
  destruct (exists_last E) as (x & c & Ex).
  destruct (holds_erase _ _ _ _ Hh Ex) as (_ & Hc & Hn).
  apply wp_bind, (wp_from_some _ c); [done|]. rewrite (proj2 (Z.eqb_neq c NL) Hn).
  rewrite Ex, length_app in Hf. cbn in Hf.
  apply wp_bind_assoc. eapply wp_erase; [done|done|done|]. intros s1 T.
  eapply wp_mono; [apply (IH s1 (mkeditor (ready a) x)); [apply T|apply T|cbn; lia]|].
  intros ? s2 T2. by eapply typed_trans.
Qed.

Lemma wp_console_char c d s a :
  screen_ok s -> holds (co_in s) a -> 0 <= c < 256 ->
  wp (console_char c d) (fun _ s' => typed s a s' (type_char a c)) s.
Proof.
  intros Hs Hh Hc. unfold console_char, type_char. apply wp_bind, wp_gets.
  destruct (c =? C_P); [by apply wp_ret, typed_refl|]. destruct (c =? C_U).
  { apply wp_bind. eapply wp_mono; [apply wp_kill_line; [done|done|]|intros; by apply wp_ret].
    destruct Hh as (_ & _ & _ & _ & Hl & _). unfold queued, INPUT_BUF in *. rewrite length_app in Hl. lia. }
  destruct ((c =? C_H) || (c =? 127)).
  { rewrite (holds_empty _ _ Hh). apply wp_bind. destruct (decide (edit a = [])) as [E|E].
    - rewrite bool_decide_true by done. cbn [negb]. apply wp_ret, wp_ret. destruct a as [rd ed]. cbn in *. subst.
      by apply typed_refl.
    - rewrite bool_decide_false by done. cbn [negb]. destruct (exists_last E) as (x & z & Ex).
      eapply wp_erase; [done|done|done|]. intros s1 T. apply wp_ret. rewrite Ex, length_app. cbn.
      replace (length x + 1 - 1)%nat with (length x) by lia. by rewrite take_app_length. }
  assert (El : u32 (in_e (co_in s) - in_r (co_in s)) = Z.of_nat (length (queued a))).
  { destruct Hh as (_ & Hr & _ & He & Hl & _). rewrite He, u32_sub_l.
    replace (_ + _ - _) with (Z.of_nat (length (queued a))) by lia. apply u32_small. unfold is_u32, W32, INPUT_BUF in *. lia. }
  rewrite El. destruct (negb (c =? 0) && _) eqn:Eq; [|by apply wp_ret, typed_refl].
  cbv zeta. set (c' := if c =? 13 then NL else c). assert (Hc' : 0 <= c' < 256) by (subst c'; unfold NL; case_match; lia).
  assert (Hlt : Z.of_nat (length (queued a)) < INPUT_BUF) by lia. clearbody c'.
  destruct (holds_put _ _ c' Hh Hlt Hc') as (Hp1 & Hp2 & Hp3). cbv zeta in Hp1, Hp2, Hp3.
  apply wp_bind. apply wp_modify. set (s1 := set_co_in _ s). assert (Hs1 : screen_ok s1) by exact Hs.
  apply wp_bind. eapply wp_mono; [by apply wp_consputc|]. intros ? s2 [Hs2 O2].
  apply wp_bind, wp_gets. destruct O2 as (O1 & _ & _ & O4 & O5 & _ & O7 & _). rewrite O5.
  change (co_in s1) with (set_in_e (u32 (in_e (co_in s) + 1)) (set_in_buf
    (<[Z.to_nat (in_e (co_in s) mod INPUT_BUF) := u8 c']> (in_buf (co_in s))) (co_in s))) in *.
  change (in_r (set_in_e _ (set_in_buf _ (co_in s)))) with (in_r (co_in s)). rewrite Hp3.
  destruct (_ || _ || _) eqn:Ew.
  - apply wp_bind, wp_bind, wp_modify, wp_modify, wp_ret. unfold typed. cbn. rewrite O5. split_and!; try done; [rewrite O7; cbn; lia|].
    rewrite O7. cbn. lia.
  - apply wp_bind, wp_ret, wp_ret. unfold typed. rewrite O5, O7. split_and!; try done. apply Hp1. intros ->. by rewrite Z.eqb_refl in Ew.
Qed.

Lemma wp_console_chars cs d s a :
  screen_ok s -> holds (co_in s) a -> Forall (fun c => 0 <= c < 256) cs ->
  wp (console_chars cs d) (fun _ s' => typed s a s' (foldl type_char a cs)) s.
Proof.
  intros Hs Hh Hcs. revert d s a Hs Hh. induction Hcs as [|c cs Hc _ IH]; intros d s a Hs Hh; cbn [console_chars foldl].
  - by apply wp_ret, typed_refl.
  - apply wp_bind. eapply wp_mono; [by apply wp_console_char|]. intros d' s1 T.
    eapply wp_mono; [apply (IH d' s1 (type_char a c)); apply T|]. intros ? s2 T2. eapply typed_trans; [exact T|exact T2].
Qed.

Lemma wp_consoleintr cs s a :
  screen_ok s -> holds (co_in s) a -> co_lock s = false -> Forall (fun c => 0 <= c < 256) cs ->
  wp (consoleintr cs) (fun _ s' => typed s a s' (foldl type_char a cs)) s.
Proof.
  intros Hs Hh Hl Hcs. unfold consoleintr. apply wp_bind, wp_acquire; [done|]. apply wp_bind.
  eapply wp_mono; [by apply wp_console_chars|]. intros d s1 (A1 & A2 & A3 & A4 & A5 & A6). cbn in A3, A4, A5, A6.
  apply wp_bind, wp_release; [done|]. destruct d; [apply wp_modify|apply wp_ret]; unfold typed; cbn; by split_and!.
Qed.

(** ** consoleread() *)

(** What a reader gets of the queue: up to [n] bytes, to the end of a line or
    before a control-D, which is left in the queue when there are bytes
    before it. *)
Fixpoint take_line (killed : bool) (target n : Z) (got rd : list Z) : cout * list Z :=
  if 0 <? n then
    match rd with
    | [] => (if killed then CReturn (-1) got else CSleep n got, [])
    | c :: rd' =>
        if c =? C_D then (CReturn (target - n) got, if n <? target then rd else rd')
        else if c =? NL then (CReturn (target - n + 1) (got ++ [c]), rd')
        else take_line killed target (n - 1) (got ++ [c]) rd'
    end
  else (CReturn (target - n) got, rd).

(** Taking the first character. *)
Lemma holds_get i c rd ed :
  holds i (mkeditor (c :: rd) ed) ->
  in_at i (in_r i) = Some c /\ holds (set_in_r (u32 (in_r i + 1)) i) (mkeditor rd ed).
Proof.
  intros (Hb & Hr & Hw & He & Hl & Hq & Hn). unfold queued in *. cbn [ready edit] in *.
  split; [specialize (Hq 0%nat c eq_refl); by rewrite Z.add_0_r in Hq|].
  unfold holds, queued. cbn. cbn in Hl, Hw, He. split_and!; try done.
  - apply u32_range.
  - rewrite Hw, u32_add_l. f_equal. lia.
  - rewrite He, u32_add_l. f_equal. lia.
  - lia.
  - intros k d Hk. specialize (Hq (S k) d Hk). rewrite <- Hq. unfold in_at. cbn.
    do 2 f_equal. unfold u32, W32, INPUT_BUF. Z.div_mod_to_equations. lia.
Qed.

Lemma in_r_empty i a : holds i a -> (in_r i =? in_w i) = bool_decide (ready a = []).
Proof.
  intros (_ & Hr & Hw & _ & Hl & _). rewrite Hw. unfold queued in Hl. rewrite length_app in Hl.
  destruct (decide (ready a = [])) as [E|E].
  - rewrite bool_decide_true by done. rewrite E. cbn. rewrite Z.add_0_r, u32_small by done. apply Z.eqb_refl.
  - rewrite bool_decide_false by done. apply Z.eqb_neq. intros H. rewrite <- (u32_small (in_r i)) in H at 1 by done.
    rewrite <- (Z.add_0_r (in_r i)) in H at 1. apply u32_eq_small in H; [|unfold INPUT_BUF; lia|lia].
    destruct (ready a); [done|]. cbn in *. lia.
Qed.

(** After a segment of a read. *)
Definition read_done (s : console) (o : cout) (s' : console) (a : editor) : Prop :=
  screen_ok s' /\ holds (co_in s') a /\ co_lock s' = false /\
  co_ip s' = (match o with CReturn _ _ => true | CSleep _ _ => false end) /\ co_wakeups s' = co_wakeups s.

Lemma wp_return s r got a Q :
  screen_ok s -> holds (co_in s) a -> co_lock s = true ->
  (forall s', read_done s (CReturn r got) s' a -> Q (CReturn r got) s') ->
  wp (release co_lock set_co_lock ;;; ip_lock ;;; ret (CReturn r got)) Q s.
Proof.
  intros Hs Hh Hl HQ. apply wp_bind, wp_release; [done|]. apply wp_bind, wp_modify, wp_ret, HQ.
  unfold read_done. by split_and!.
Qed.

Lemma wp_consoleread_loop fuel killed target n got rd ed s :
  screen_ok s -> holds (co_in s) (mkeditor rd ed) -> co_lock s = true -> co_ip s = false ->
  (Z.to_nat n <= fuel)%nat -> n <= target < 2 ^ 31 ->
  wp (consoleread_loop fuel killed target n got)
    (fun o s' => o = (take_line killed target n got rd).1 /\
                 read_done s o s' (mkeditor (take_line killed target n got rd).2 ed)) s.
Proof.
  revert n got rd s. induction fuel as [|fuel IH]; intros n got rd s Hs Hh Hl Hi Hf Hn; cbn [consoleread_loop].
  { destruct (0 <? n) eqn:E; [lia|]. apply (wp_return _ _ _ (mkeditor rd ed)); try done.
    intros s' D. destruct rd; cbn; rewrite E; done. }
  destruct (0 <? n) eqn:E.
  2: { apply (wp_return _ _ _ (mkeditor rd ed)); try done. intros s' D. destruct rd; cbn; rewrite E; done. }
  apply wp_bind, wp_gets. rewrite (in_r_empty _ _ Hh). cbn [ready].
  destruct rd as [|c rd]; cbn [take_line]; rewrite E.
  { rewrite bool_decide_true by done. destruct killed.
    - apply (wp_return _ _ _ (mkeditor [] ed)); try done.
    - apply wp_bind, wp_release; [done|]. apply wp_ret. split; [done|]. unfold read_done. by split_and!. }
  rewrite bool_decide_false by done. destruct (holds_get _ _ _ _ Hh) as [Hc Hh'].
  apply wp_bind, (wp_from_some _ c); [done|]. apply wp_bind, wp_modify.
  set (s1 := set_co_in _ s). destruct (c =? C_D).
  { rewrite !u32_small by (unfold is_u32, W32; lia). destruct (n <? target); cbn [fst snd].
    - apply wp_bind, wp_modify. set (s2 := set_co_in _ s1).
      assert (co_in s2 = co_in s) as E2.
      { destruct Hh as (_ & Hr & _). cbn. rewrite u32_sub_l. replace (_ + 1 - 1) with (in_r (co_in s)) by lia.
        rewrite u32_small by done. by destruct (co_in s). }
      apply (wp_return s2 _ _ (mkeditor (c :: rd) ed)); try done. by rewrite E2.
    - apply wp_bind, wp_ret. apply (wp_return s1 _ _ (mkeditor rd ed)); done. }
  cbv zeta. destruct (c =? NL).
  { replace (target - (n - 1)) with (target - n + 1) by lia. apply (wp_return s1 _ _ (mkeditor rd ed)); done. }
  eapply wp_mono; [apply (IH (n - 1) (got ++ [c]) rd s1); try done; lia|]. intros o s' [-> D]. done.
Qed.

(** ** Sessions *)

(** An interrupt that delivers characters, a call of consoleread() by a
    process that has locked the inode, and a reader that goes on after a
    sleep. *)
Inductive cevent :=
  | Typed (cs : list Z)
  | Read (killed : bool) (n : Z)
  | ReadOn (killed : bool) (target n : Z) (got : list Z).

Definition event_ok (ev : cevent) : Prop :=
  match ev with
  | Typed cs => Forall (fun c => 0 <= c < 256) cs
  | Read _ n => n < 2 ^ 31
  | ReadOn _ target n _ => n <= target < 2 ^ 31
  end.

Definition run_event (ev : cevent) : M console (option cout) :=
  match ev with
  | Typed cs => consoleintr cs ;;; ret None
  | Read k n => modify (set_co_ip true) ;;; let* o := consoleread k n in ret (Some o)
  | ReadOn k target n got => modify (set_co_ip false) ;;; let* o := consoleread_back k target n got in ret (Some o)
  end.

Definition edit_event (a : editor) (ev : cevent) : option cout * editor :=
  match ev with
  | Typed cs => (None, foldl type_char a cs)
  | Read k n => let '(o, rd) := take_line k n n [] (ready a) in (Some o, mkeditor rd (edit a))
  | ReadOn k target n got => let '(o, rd) := take_line k target n got (ready a) in (Some o, mkeditor rd (edit a))
  end.

Fixpoint run_events (es : list cevent) : M console (list (option cout)) :=
  match es with
  | [] => ret []
  | e :: es => let* o := run_event e in let* os := run_events es in ret (o :: os)
  end.

Fixpoint edit_events (a : editor) (es : list cevent) : list (option cout) * editor :=
  match es with
  | [] => ([], a)
  | e :: es =>
      let '(o, a) := edit_event a e in
      let '(os, a) := edit_events a es in
      (o :: os, a)
  end.

Definition console_ok (s : console) (a : editor) : Prop :=
  screen_ok s /\ holds (co_in s) a /\ co_lock s = false.

Lemma wp_run_event ev s a :
  event_ok ev -> console_ok s a ->
  wp (run_event ev) (fun o s' => o = (edit_event a ev).1 /\ console_ok s' (edit_event a ev).2) s.
Proof.
  intros He (Hs & Hh & Hl). destruct a as [rd ed], ev as [cs|k n|k target n got]; cbn [run_event edit_event].
  - apply wp_bind. eapply wp_mono; [by apply wp_consoleintr|]. intros ? s1 (A1 & A2 & A3 & _).
    apply wp_ret. unfold console_ok. by rewrite A3.
  - apply wp_bind, wp_modify, wp_bind. unfold consoleread, ip_unlock.
    apply wp_bind, wp_bind, wp_gets, wp_bind, wp_panic_if; [done|]. apply wp_modify, wp_bind, wp_acquire; [done|].
    eapply wp_mono; [apply (wp_consoleread_loop _ _ _ _ _ rd ed); try done; cbn in He; lia|].
    intros o s1 [-> (D1 & D2 & D3 & _)]. apply wp_ret. cbn [ready edit]. by destruct (take_line k n n [] rd).
  - apply wp_bind, wp_modify, wp_bind. unfold consoleread_back. apply wp_bind, wp_acquire; [done|].
    eapply wp_mono; [apply (wp_consoleread_loop _ _ _ _ _ rd ed); try done; cbn in He; lia|].
    intros o s1 [-> (D1 & D2 & D3 & _)]. apply wp_ret. cbn [ready edit]. by destruct (take_line k target n got rd).
Qed.

Lemma wp_run_events es s a :
  Forall event_ok es -> console_ok s a ->
  wp (run_events es)
    (fun os s' => os = (edit_events a es).1 /\ console_ok s' (edit_events a es).2) s.
Proof.
  intros Hes. revert s a. induction Hes as [|e es He _ IH]; intros s a Hs; cbn [run_events edit_events].
  - by apply wp_ret.
  - apply wp_bind. eapply wp_mono; [by apply wp_run_event|]. intros o s1 [-> H1].
    destruct (edit_event a e) as [o a1]. apply wp_bind. eapply wp_mono; [by apply IH|]. intros os s2 [-> H2].
    apply wp_ret. cbn [snd fst] in *. by destruct (edit_events a1 es).
Qed.

(** C16: the console refines a line editor.  For every sequence of interrupts
    that deliver characters and of reads, some of them asleep in between, the
    reads return the bytes, the counts and the sleeps of the line editor
    [edit_events], also when the indices of the buffer wrap around at 2^32;
    the cursor stays on the screen, and no call panics. *)
Theorem console_refines (es : list cevent) (s : console) (a : editor) :
  Forall event_ok es -> console_ok s a ->
  wp (run_events es)
    (fun os s' => os = (edit_events a es).1 /\ console_ok s' (edit_events a es).2) s.
Proof. apply wp_run_events. Qed.

(** What the editing keys make of a line. *)
Definition edit_key (l : list Z) (c : Z) : list Z :=
  if c =? C_U then []
  else if (c =? C_H) || (c =? 127) then take (length l - 1) l
  else if (c =? C_P) || (c =? 0) then l
  else l ++ [c].

Definition line_key (c : Z) : Prop := 0 <= c < 256 /\ c <> NL /\ c <> 13 /\ c <> C_D.

Lemma type_keys cs rd l :
  Forall line_key cs -> Z.of_nat (length rd + length l + length cs) < INPUT_BUF ->
  foldl type_char (mkeditor rd l) cs = mkeditor rd (foldl edit_key l cs) /\
  (length (foldl edit_key l cs) <= length l + length cs)%nat.
Proof.
  intros Hcs. revert l. induction Hcs as [|c cs (Hc & Hn & Hr & Hd) _ IH]; intros l Hl; [cbn; split; [done|lia]|].
  cbn [foldl length] in *.
  assert (E : type_char (mkeditor rd l) c = mkeditor rd (edit_key l c) /\ (length (edit_key l c) <= S (length l))%nat).
  { unfold type_char, edit_key, queued. cbn [ready edit]. rewrite length_app.
    destruct (c =? C_P) eqn:E1; [repeat case_match; unfold C_P, C_U, C_H, C in *; (split; [done|lia]) || lia|].
    destruct (c =? C_U); [cbn; split; [done|lia]|].
    destruct (_ || _); [split; [done|rewrite length_take; lia]|]. cbn [orb].
    destruct (c =? 0) eqn:E0; [split; [done|lia]|]. cbn [negb andb].
    rewrite (proj2 (Z.ltb_lt _ _)) by lia. rewrite (proj2 (Z.eqb_neq c 13)) by done.
    rewrite (proj2 (Z.eqb_neq c NL)), (proj2 (Z.eqb_neq c C_D)) by done. cbn [orb].
    rewrite (proj2 (Z.eqb_neq _ INPUT_BUF)) by lia. split; [done|]. rewrite length_app. cbn. lia. }
  destruct E as [-> El]. destruct (IH (edit_key l c)) as [-> Hlen]; [lia|]. split; [done|lia].
Qed.

Lemma take_line_all cs n got :
  Forall (fun c => c <> NL /\ c <> C_D) cs -> Z.of_nat (length got + length cs) < n ->
  forall m, m = n - Z.of_nat (length got) ->
  take_line false n m got (cs ++ [NL]) =
  (CReturn (Z.of_nat (length got + length cs) + 1) (got ++ cs ++ [NL]), []).
Proof.
  intros Hcs. revert got. induction Hcs as [|c cs [Hn Hd] _ IH]; intros got Hlt m ->; cbn [app take_line length] in *;
    rewrite (proj2 (Z.ltb_lt 0 _)) by lia.
  - cbn. do 2 f_equal. lia.
  - rewrite (proj2 (Z.eqb_neq c C_D)), (proj2 (Z.eqb_neq c NL)) by done.
    rewrite (IH (got ++ [c])); [|rewrite length_app; cbn; lia..]. rewrite length_app, <- app_assoc. cbn. do 3 f_equal. lia.
Qed.

Lemma edit_keys_line cs l :
  Forall line_key cs -> Forall (fun c => c <> NL /\ c <> C_D) l ->
  Forall (fun c => c <> NL /\ c <> C_D) (foldl edit_key l cs).
Proof.
  intros Hcs. revert l. induction Hcs as [|c cs (_ & Hn & _ & Hd) _ IH]; intros l Hl; [done|]. apply IH.
  unfold edit_key. repeat case_match; [constructor|by apply Forall_take|done|]. apply Forall_app_2; [done|by constructor].
Qed.

(** a line typed at an idle console, with corrections, and ended with
    return is what a read with enough room gets: the line that the backspace
    and kill-line keys have left, with a newline. *)
Theorem console_line (cs : list Z) (n : Z) (s : console) :
  Forall line_key cs -> Z.of_nat (length cs) + 1 < INPUT_BUF -> Z.of_nat (length cs) < n < 2 ^ 31 ->
  console_ok s (mkeditor [] []) ->
  wp (run_events [Typed (cs ++ [13]); Read false n])
    (fun os _ => os = [None; Some (CReturn (Z.of_nat (length (foldl edit_key [] cs)) + 1) (foldl edit_key [] cs ++ [NL]))]) s.
Proof.
  intros Hcs Hl Hn Hs. eapply wp_mono.
  - apply (wp_run_events [Typed (cs ++ [13]); Read false n] s (mkeditor [] [])); [|done].
    constructor; [|by constructor; [cbn; lia|constructor]]. cbn. apply Forall_app_2; [|by constructor; [lia|constructor]].
    eapply Forall_impl; [done|]. by intros c [? _].
  - intros os s' [-> _]. cbn [edit_events edit_event]. rewrite foldl_app.
    destruct (type_keys cs [] [] Hcs) as [-> Hlen]; [cbn; lia|]. set (l := foldl edit_key [] cs) in *.
    assert (E : foldl type_char (mkeditor [] l) [13] = mkeditor (l ++ [NL]) []).
    { cbn. unfold type_char, queued. cbn [ready edit app]. cbn in Hlen.
      rewrite (proj2 (Z.ltb_lt _ INPUT_BUF)) by lia. done. }
    rewrite E. cbn [ready edit]. rewrite (take_line_all l n []); [done| |cbn in *; lia|cbn; lia].
    apply (edit_keys_line cs []); [done|constructor].
Qed.

Module Example.

Definition s0 : console :=
  mkconsole false true false true (mkinput (replicate 128 0) (W32 - 2) (W32 - 2) (W32 - 2)) (fun _ => 0) 7 79 true [] 0 0.

Lemma s0_ok : console_ok s0 (mkeditor [] []).
Proof.
  split_and!; [by split_and!| |done]. unfold holds. split_and!; try done. set_solver.
Qed.

(** a, b, backspace, c, return: the indices wrap around. *)
Definition keys : list Z := [97; 98; 8; 99].

Lemma keys_ok : Forall line_key keys.
Proof. unfold keys, line_key, NL, C_D, C. repeat constructor; lia. Qed.

Lemma consolewrite_bounded_witness :
  wp (consolewrite [104; 105; 10]) (fun r s' => r = 3 /\ co_serial s' = [104; 105; 10]) s0.
Proof.
  eapply wp_mono; [apply (consolewrite_bounded [104; 105; 10] s0)|].
  - exact (proj1 s0_ok).
  - reflexivity.
  - reflexivity.
  - repeat constructor; lia.
  - intros r s' (-> & _ & _ & ->). split; reflexivity.
Defined.

Lemma console_line_witness :
  wp (run_events [Typed (keys ++ [13]); Read false 10])
    (fun os _ => os = [None; Some (CReturn 3 [97; 99; 10])]) s0.
Proof.
  apply (console_line keys 10 s0 keys_ok); [unfold INPUT_BUF; cbn; lia|cbn; lia|exact s0_ok].
Defined.

Lemma console_refines_witness :
  wp (run_events [Read false 10; Typed [97; 13; 98; 99; 21]; ReadOn false 10 10 []])
    (fun os _ => os = [Some (CSleep 10 []); None; Some (CReturn 2 [97; 10])]) s0.
Proof.
  eapply wp_mono; [apply (console_refines [Read false 10; Typed [97; 13; 98; 99; 21]; ReadOn false 10 10 []] s0 (mkeditor [] []))|].
  - repeat constructor; cbn; lia.
  - exact s0_ok.
  - intros os s' [-> _]. vm_compute. reflexivity.
Defined.

End Example.
