(* ===== verification/Umalloc.v ===== *)
(** umalloc.c: the memory allocator of user programs.

    The memory is the 32-bit words at the addresses that are multiples of
    four.  A Header is two words, the pointer and the size in units of
    eight bytes.  sbrk(n) is the system call (sys_sbrk() in sysproc.c and
    growproc() in proc.c): it moves the end of the process by [n] bytes, a
    signed number, and returns the old end, or returns -1 when the new end
    would be above [lim], what the memory of the machine allows.  As in
    deallocuvm(), an [n] that would move the end below 0 leaves it where it
    is; moving it to 0 frees the pages the caller runs in, a fault. *)

From stdpp Require Import functions.
From S2P Require Import Prelude Params Bytes.

Definition sizeof_Header : Z := 8.
Definition NULL : Z := 0.
Definition MINUS1 : Z := 2 ^ 32 - 1.

Record heap := mkheap {
  hw : Z -> Z;      (* the words of the memory *)
  freep : Z;
  brk : Z;          (* the end of the process *)
  lim : Z;
}.

Definition set_hw v (s : heap) := mkheap v (freep s) (brk s) (lim s).
Definition set_freep v (s : heap) := mkheap (hw s) v (brk s) (lim s).
Definition set_brk v (s : heap) := mkheap (hw s) (freep s) v (lim s).

(** p->s.ptr and p->s.size *)
Definition ptr (p : Z) : M heap Z := gets (fun s => hw s p).
Definition size (p : Z) : M heap Z := gets (fun s => hw s (p + 4)).
Definition set_ptr (p v : Z) : M heap unit := modify (fun s => set_hw (<[p := v]> (hw s)) s).
Definition set_size (p v : Z) : M heap unit := modify (fun s => set_hw (<[p + 4 := v]> (hw s)) s).

Definition sbrk (n : Z) : M heap Z :=
  let* s := gets (fun s => s) in
  let e := brk s + s32 n in
  if 0 <=? s32 n then
    if e <=? lim s then modify (set_brk e) ;;; ret (brk s) else ret MINUS1
  else if e <? 0 then ret (brk s)
  else if e =? 0 then fault "sbrk: no memory left"
  else modify (set_brk e) ;;; ret (brk s).

Section Allocator.

(** Where the linker puts the static variable base. *)
Context (base : Z).

(** The loop of free(). *)
Fixpoint free_find (fuel : nat) (bp p : Z) : M heap Z :=
  let* n := ptr p in
  if (p <? bp) && (bp <? n) then ret p
  else if (n <=? p) && ((p <? bp) || (bp <? n)) then ret p
  else
    match fuel with
    | O => nofuel
    | S fuel => free_find fuel bp n
    end.

Definition free (fuel : nat) (ap : Z) : M heap unit :=
  let bp := ap - sizeof_Header in
  let* start := gets freep in
  let* p := free_find fuel bp start in
  let* bsize := size bp in
  let* next := ptr p in
  (if u32 (bp + bsize * sizeof_Header) =? next then
     let* nsize := size next in
     set_size bp (u32 (bsize + nsize)) ;;;
     let* nptr := ptr next in
     set_ptr bp nptr
   else set_ptr bp next) ;;;
  let* psize := size p in
  (if u32 (p + psize * sizeof_Header) =? bp then
     let* bsize := size bp in
     set_size p (u32 (psize + bsize)) ;;;
     let* bptr := ptr bp in
     set_ptr p bptr
   else set_ptr p bp) ;;;
  modify (set_freep p).

Definition morecore (fuel : nat) (nu : Z) : M heap Z :=
  let nu := if nu <? 4096 then 4096 else nu in
  let* p := sbrk (u32 (nu * sizeof_Header)) in
  if p =? MINUS1 then ret 0
  else
    set_size p nu ;;;
    free fuel (p + sizeof_Header) ;;;
    gets freep.

(** The part of malloc() that takes [nunits] units from the block at [p]. *)
Definition take_block (nunits prevp p : Z) : M heap Z :=
  let* psize := size p in
  let* r :=
    (if psize =? nunits then
       let* n := ptr p in
       set_ptr prevp n ;;;
       ret p
     else
       set_size p (u32 (psize - nunits)) ;;;
       let* psize := size p in
       let p := p + psize * sizeof_Header in
       set_size p nunits ;;;
       ret p) in
  modify (set_freep prevp) ;;;
  ret (r + sizeof_Header).

Fixpoint malloc_loop (fuel : nat) (nunits prevp p : Z) : M heap Z :=
  let* psize := size p in
  if nunits <=? psize then take_block nunits prevp p
  else
    match fuel with
    | O => nofuel
    | S fuel =>
        let* start := gets freep in
        if p =? start then
          let* p := morecore fuel nunits in
          if p =? NULL then ret NULL
          else
            let* n := ptr p in
            malloc_loop fuel nunits p n
        else
          let* n := ptr p in
          malloc_loop fuel nunits p n
    end.

Definition malloc (fuel : nat) (nbytes : Z) : M heap Z :=
  let nunits := u32 (u32 (nbytes + sizeof_Header - 1) / sizeof_Header + 1) in
  let* start := gets freep in
  (if start =? NULL then
     modify (set_freep base) ;;;
     set_ptr base base ;;;
     set_size base 0
   else ret tt) ;;;
  let* prevp := gets freep in
  let* p := ptr prevp in
  malloc_loop fuel nunits prevp p.

End Allocator.
