(* ===== verification/UmallocSpec.v ===== *)
(** umalloc.c: the allocator's invariant and what malloc() and free() do.

    The free blocks form a ring in the order of their addresses, from [base]
    on, with a gap between any two; with the allocated blocks they are
    disjoint parts of the memory below the end of the process. *)

From Stdlib Require Import ZifyBool.
From stdpp Require Import functions sorting.
From S2P Require Import Prelude Params Bytes Umalloc.

(** A block: the address of its header and its size in units. *)
Abbreviation blk := (Z * Z)%type (only parsing).
Definition bend (b : blk) : Z := b.1 + 8 * b.2.

Definition apart (b c : blk) : Prop := bend b <= c.1 \/ bend c <= b.1.

(** There is a gap after [b], and then [c]. *)
Definition before (b c : blk) : Prop := 0 <= b.2 /\ bend b < c.1.

#[global] Instance before_trans : Transitive before.
Proof. intros x y z [Hx Hxy] [Hy Hyz]. split; [done|]. unfold bend in *. lia. Qed.

(** The headers of [L] are linked in this order, the last one to [nxt]. *)
Fixpoint chain (m : Z -> Z) (L : list blk) (nxt : Z) : Prop :=
  match L with
  | [] => True
  | b :: L' => m b.1 = (match L' with [] => nxt | c :: _ => c.1 end) /\ m (b.1 + 4) = b.2 /\ chain m L' nxt
  end.

Definition first (L : list blk) (nxt : Z) : Z := match L with [] => nxt | c :: _ => c.1 end.

Lemma chain_app m L1 L2 nxt : chain m (L1 ++ L2) nxt <-> chain m L1 (first L2 nxt) /\ chain m L2 nxt.
Proof.
  induction L1 as [|b L1 IH]; cbn; [tauto|]. rewrite IH. destruct L1 as [|c L1]; cbn; [|tauto].
  destruct L2; cbn; tauto.
Qed.

Lemma chain_frame m m' L nxt :
  (forall b, b ∈ L -> m' b.1 = m b.1 /\ m' (b.1 + 4) = m (b.1 + 4)) -> chain m L nxt -> chain m' L nxt.
Proof.
  induction L as [|b L IH]; [done|]. cbn. intros H (H1 & H2 & H3).
  destruct (H b) as [E1 E2]; [set_solver|]. rewrite E1, E2. split_and!; [done|done|]. apply IH; [|done]. set_solver.
Qed.

(** Turning the ring. *)
Lemma chain_rotate m L1 L2 nxt :
  chain m (L1 ++ L2) (first (L1 ++ L2) nxt) -> chain m (L2 ++ L1) (first (L2 ++ L1) nxt).
Proof.
  destruct L1 as [|b L1]; [by rewrite app_nil_r|]. destruct L2 as [|c L2]; [by rewrite app_nil_r|].
  rewrite !chain_app. cbn [first app]. tauto.
Qed.

(** A block of the memory from [base] to [e], apart from [A]. *)
Definition good (base e : Z) (A : list blk) (b : blk) : Prop :=
  1 <= b.2 /\ (8 | b.1) /\ base + 8 <= b.1 /\ bend b <= e /\ Forall (apart b) A.

(** What the allocator owns: [F] are the free blocks and [A] the allocated
    ones. *)
Record owns (base : Z) (s : heap) (F A : list blk) : Prop := {
  o_chain : chain (hw s) ((base, 0) :: F) base;
  o_sorted : StronglySorted before ((base, 0) :: F);
  o_freep : freep s ∈ (((base, 0) :: F).*1);
  o_free : Forall (good base (brk s) A) F;
  o_alloc : Forall (fun b => hw s (b.1 + 4) = b.2 /\ good base (brk s) [] b) A;
  o_apart : ForallOrdPairs apart A;
  o_mem : 4 <= base /\ base + 8 <= brk s <= lim s /\ (8 | brk s) /\ lim s < 2 ^ 31;
}.

(** The words of allocated blocks that the operations leave alone: the size
    and what the owner has stored. *)
Definition keeps (A : list blk) (s s' : heap) : Prop :=
  forall b w, b ∈ A -> b.1 + 4 <= w < bend b -> hw s' w = hw s w.

Section Spec.

Context (base : Z).

Lemma first_word (L : list blk) a v : (forall b, b ∈ L -> a <> b.1 /\ a <> b.1 + 4) ->
  forall (m : Z -> Z) nxt, chain m L nxt -> chain (<[a := v]> m) L nxt.
Proof.
  intros H m nxt. apply chain_frame. intros b Hb. destruct (H b Hb). by rewrite !fn_lookup_insert_ne.
Qed.

(** ** Searching the ring *)

Lemma chain_next m L1 b L2 nxt : chain m (L1 ++ b :: L2) nxt -> m b.1 = first L2 nxt /\ m (b.1 + 4) = b.2.
Proof. rewrite chain_app. cbn. destruct L2; cbn; tauto. Qed.

Lemma sorted_split L1 b L2 :
  StronglySorted before (L1 ++ b :: L2) ->
  Forall (fun c => before c b) L1 /\ Forall (before b) L2 /\ StronglySorted before (L1 ++ L2).
Proof.
  induction L1 as [|c L1 IH]; cbn.
  - inversion 1; subst. done.
  - inversion 1 as [|? ? H1 H2]; subst. apply IH in H1 as (A & B & D).
    apply Forall_app in H2 as [H2 H3]. apply Forall_cons in H3 as [H3 H4].
    split_and!; [by constructor|done|]. constructor; [done|]. by apply Forall_app_2.
Qed.

(** Where a block goes in the ring. *)
Definition place (L : list blk) (b : blk) (L1 : list blk) (p : blk) (L2 : list blk) : Prop :=
  L = L1 ++ p :: L2 /\ p.1 < b.1 /\ bend p <= b.1 /\ Forall (fun c => bend b <= c.1) L2.

Lemma place_exists q F b :
  StronglySorted before (q :: F) -> q.1 < b.1 -> bend q <= b.1 -> 1 <= b.2 ->
  Forall (fun c => 1 <= c.2 /\ apart c b) F -> exists L1 p L2, place (q :: F) b L1 p L2.
Proof.
  revert q. induction F as [|c F IH]; intros q Hs Hq Hq' Hb HF;
    [exists [], q, []; unfold place; split_and!; [done..|constructor]|].
  inversion Hs as [|? ? Hs' Hqc]; subst. apply Forall_cons in HF as [[Hc Ha] HF].
  destruct Ha as [Ha|Ha].
  - destruct (IH c Hs') as (L1 & p & L2 & -> & Hp & Hp' & H2); [unfold bend in *; lia|done|done|done|].
    exists (q :: L1), p, L2. unfold place. by split_and!.
  - exists [], q, (c :: F). unfold place. split_and!; [done..|]. constructor; [done|].
    inversion Hs' as [|? ? _ Hcf]; subst. eapply Forall_impl; [exact Hcf|]. intros d [? Hd]. unfold bend in *. lia.
Qed.

(** The test of the loop of free() at the block [x] and its successor. *)
Definition stops (bp x n : Z) : bool :=
  ((x <? bp) && (bp <? n)) || ((n <=? x) && ((x <? bp) || (bp <? n))).

Lemma stops_at L b L1 p L2 K1 x K2 :
  StronglySorted before L -> base < b.1 -> 1 <= b.2 -> place L b L1 p L2 ->
  Forall (fun c => 0 <= c.2 /\ base <= c.1) L ->
  L = K1 ++ x :: K2 -> stops b.1 x.1 (first K2 base) = bool_decide (x = p).
Proof.
  intros Hs Hb1 Hb2 (HL & Hpb & Hp & H2) Hpos HK. rewrite Forall_forall in Hpos.
  pose proof (Hpos x) as Hx. pose proof (Hpos p) as Hpp. rewrite HK in Hx. rewrite HL in Hpp.
  destruct Hx as [Hx0 Hx]; [set_solver|]. destruct Hpp as [Hp0 Hpp]; [set_solver|].
  pose proof Hs as Hsx. rewrite HK in Hsx. apply sorted_split in Hsx as (Hx1 & Hx2 & _).
  pose proof Hs as Hsp. rewrite HL in Hsp. apply sorted_split in Hsp as (Hp1 & Hp2 & _).
  rewrite Forall_forall in Hx1, Hx2, Hp1, Hp2, H2.
  assert (Hxl : x ∈ L1 ++ p :: L2) by (rewrite <- HL, HK; set_solver).
  assert (Hpl : p ∈ K1 ++ x :: K2) by (rewrite <- HK, HL; set_solver).
  assert (Hn : K2 = [] /\ first K2 base = base \/ exists c K, K2 = c :: K /\ first K2 base = c.1 /\ x.1 < c.1).
  { destruct K2 as [|c K]; [by left|right]. exists c, K. split_and!; [done..|]. destruct (Hx2 c); [set_solver|]. unfold bend in *. lia. }
  unfold stops. destruct (decide (x = p)) as [->|Hne].
  - rewrite bool_decide_true by done. destruct Hn as [[_ ->]|(c & K & -> & -> & Hc)]; [lia|].
    assert (bend b <= c.1); [|unfold bend in *; lia]. apply H2.
    assert (Hcl : c ∈ L1 ++ p :: L2) by (rewrite <- HL, HK; set_solver).
    apply elem_of_app in Hcl as [Hcl|Hcl]; [destruct (Hp1 c Hcl); unfold bend in *; lia|].
    apply elem_of_cons in Hcl as [->|]; [lia|done].
  - rewrite bool_decide_false by done. apply elem_of_app in Hxl as [Hxl|Hxl].
    + destruct (Hp1 x Hxl) as [_ Hxp]. apply elem_of_app in Hpl as [Hpl|Hpl]; [destruct (Hx1 p Hpl); unfold bend in *; lia|].
      apply elem_of_cons in Hpl as [->|Hpl]; [done|]. destruct Hn as [[-> _]|(c & K & -> & -> & Hc)]; [set_solver|].
      assert (c.1 <= p.1); [|unfold bend in *; lia]. apply elem_of_cons in Hpl as [->|Hpl]; [lia|].
      assert (Hcs : StronglySorted before (K1 ++ [x] ++ c :: K)) by (by rewrite HK in Hs).
      rewrite app_assoc in Hcs. apply sorted_split in Hcs as (_ & Hck & _). rewrite Forall_forall in Hck.
      destruct (Hck p Hpl). unfold bend in *. lia.
    + apply elem_of_cons in Hxl as [->|Hxl]; [done|]. specialize (H2 x Hxl).
      destruct Hn as [[_ ->]|(c & K & _ & -> & Hc)]; unfold bend in *; lia.
Qed.

Lemma free_find_unfold fuel bp x s (Q : Z -> heap -> Prop) :
  (if stops bp x (hw s x) then Q x s
   else match fuel with O => False | S fuel => wp (free_find fuel bp (hw s x)) Q s end) ->
  wp (free_find fuel bp x) Q s.
Proof.
  unfold stops. intros H. destruct fuel; cbn [free_find]; apply wp_bind, wp_gets;
    (destruct ((x <? bp) && (bp <? hw s x)); [by apply wp_ret|]); cbn [orb] in H;
    (destruct ((hw s x <=? x) && _); [by apply wp_ret|done]).
Qed.

Lemma wp_free_find L b L1 p L2 s x0 fuel :
  chain (hw s) L (first L base) -> first L base = base ->
  StronglySorted before L -> base < b.1 -> 1 <= b.2 -> place L b L1 p L2 ->
  Forall (fun c => 0 <= c.2 /\ base <= c.1) L -> x0 ∈ L -> (length L <= fuel)%nat ->
  wp (free_find fuel b.1 x0.1) (fun r s' => r = p.1 /\ s' = s) s.
Proof.
  intros Hch Hfb Hs Hb1 Hb2 Hpl Hpos Hx0 Hf.
  apply list_elem_of_split in Hx0 as (P & R & HL).
  assert (Hr : chain (hw s) ((x0 :: R) ++ P) (first ((x0 :: R) ++ P) base)) by (apply (chain_rotate _ P (x0 :: R)); rewrite HL in Hch; exact Hch).
  assert (Hin : forall x, x ∈ (x0 :: R) ++ P <-> x ∈ L) by (intros x; rewrite HL; set_solver).
  assert (Hlen : (length ((x0 :: R) ++ P) <= fuel)%nat) by (rewrite length_app; rewrite HL, length_app in Hf; lia).
  assert (Hp : p ∈ (x0 :: R) ++ P) by (apply Hin; destruct Hpl as [-> _]; set_solver).
  change ((x0 :: R) ++ P) with (x0 :: (R ++ P)) in *. set (ring := x0 :: (R ++ P)) in *.
  assert (Hind : forall W V x fuel, ring = V ++ x :: W -> p ∈ x :: W -> (length W <= fuel)%nat ->
            wp (free_find fuel b.1 x.1) (fun r s' => r = p.1 /\ s' = s) s).
  { induction W as [|y W IH]; intros V x fu E Hpx Hfu.
    all: assert (HxL : x ∈ L) by (apply Hin; rewrite E; set_solver).
    all: apply list_elem_of_split in HxL as (K1 & K2 & HK).
    all: assert (Hm : hw s x.1 = first K2 base) by (rewrite Hfb, HK in Hch; by apply chain_next in Hch as [? _]).
    all: pose proof (stops_at L b L1 p L2 K1 x K2 Hs Hb1 Hb2 Hpl Hpos HK) as Hst.
    all: apply free_find_unfold; rewrite Hm, Hst.
    - apply list_elem_of_singleton in Hpx as ->. by rewrite bool_decide_true.
    - destruct (decide (x = p)) as [->|Hne]; [by rewrite bool_decide_true|]. rewrite bool_decide_false by done.
      destruct fu as [|fu]; [cbn in Hfu; lia|]. rewrite <- Hm.
      assert (Hy : hw s x.1 = y.1) by (rewrite E in Hr; by apply chain_next in Hr as [? _]). rewrite Hy.
      apply (IH (V ++ [x])); [by rewrite E, <- app_assoc|set_solver|cbn in Hfu; lia]. }
  apply (Hind (R ++ P) [] x0); [done|done|]. cbn in Hlen. lia.
Qed.

(** ** Linking a block into the ring *)

Lemma sorted_join L1 p L2 :
  StronglySorted before (L1 ++ [p]) -> StronglySorted before (p :: L2) -> StronglySorted before (L1 ++ p :: L2).
Proof.
  rewrite !StronglySorted_app. intros (H1 & HL1 & _) H2. split_and!; [|done|done].
  intros x y Hx Hy. assert (Hxp : before x p) by (apply H1; set_solver).
  apply elem_of_cons in Hy as [->|Hy]; [done|]. inversion H2 as [|? ? _ H3]; subst.
  rewrite Forall_forall in H3. etrans; [exact Hxp|by apply H3].
Qed.

Lemma sorted_last L1 (p q : blk) :
  p.1 = q.1 -> StronglySorted before (L1 ++ [p]) -> StronglySorted before (L1 ++ [q]).
Proof.
  intros E. rewrite !StronglySorted_app. intros (H1 & HL1 & _). split_and!; [|done|by repeat constructor].
  intros x y Hx ->%list_elem_of_singleton. destruct (H1 x p) as [? H]; [done|set_solver|]. split; [done|]. by rewrite <- E.
Qed.

Lemma sorted_cons (b : blk) L : 0 <= b.2 -> StronglySorted before L -> bend b < first L (bend b + 1) -> StronglySorted before (b :: L).
Proof.
  intros Hb HL Hf. constructor; [done|]. destruct L as [|c L]; [constructor|]. cbn in Hf.
  constructor; [done|]. inversion HL as [|? ? _ Hc]; subst. eapply Forall_impl; [exact Hc|].
  intros d Hd. by trans c.
Qed.

(** The block [b'] that is made of [b] and, when it follows without a gap,
    its successor; [L'] are the blocks after it. *)
Definition absorbed (b : blk) (L : list blk) (b' : blk) (L' : list blk) : Prop :=
  (b' = b /\ L' = L) \/ exists c, L = c :: L' /\ bend b = c.1 /\ b' = (b.1, b.2 + c.2).

(** The first statement of free(), after the search. *)
Definition link_next (bp p : Z) : M heap unit :=
  let* bsize := size bp in
  let* next := ptr p in
  if u32 (bp + bsize * sizeof_Header) =? next then
    let* nsize := size next in
    set_size bp (u32 (bsize + nsize)) ;;;
    let* nptr := ptr next in
    set_ptr bp nptr
  else set_ptr bp next.

(** The second one. *)
Definition link_prev (bp p : Z) : M heap unit :=
  let* psize := size p in
  if u32 (p + psize * sizeof_Header) =? bp then
    let* bsize := size bp in
    set_size p (u32 (psize + bsize)) ;;;
    let* bptr := ptr bp in
    set_ptr p bptr
  else set_ptr p bp.

Lemma free_steps fuel ap s Q :
  wp (let* p := free_find fuel (ap - 8) (freep s) in
      link_next (ap - 8) p ;;; link_prev (ap - 8) p ;;; modify (set_freep p)) Q s ->
  wp (free fuel ap) Q s.
Proof.
  unfold free, link_next, link_prev, wp, bind, gets. change sizeof_Header with 8.
  by destruct (free_find fuel (ap - 8) (freep s) s) as [p s1| | | |].
Qed.

(** The blocks of a free list: above base, and below 2^31. *)
Definition in_range (b : blk) : Prop := 4 <= b.1 /\ 0 <= b.2 /\ bend b < 2 ^ 31.

Lemma wp_link_next b p L2 s (Q : unit -> heap -> Prop) :
  in_range b -> 1 <= b.2 -> base < b.1 -> hw s (b.1 + 4) = b.2 -> hw s p = first L2 base ->
  chain (hw s) L2 base -> StronglySorted before L2 -> Forall in_range L2 -> Forall (fun c => bend b <= c.1) L2 ->
  (forall b' L' m, absorbed b L2 b' L' -> (forall w, w <> b.1 -> w <> b.1 + 4 -> m w = hw s w) ->
     chain m (b' :: L') base -> StronglySorted before (b' :: L') -> Q tt (set_hw m s)) ->
  wp (link_next b.1 p) Q s.
Proof.
  intros (Hb0 & Hb1 & Hb2) Hb3 Hbase Hsz Hp Hch Hs Hr Ha HQ. unfold link_next.
  apply wp_bind, wp_gets. rewrite Hsz. apply wp_bind, wp_gets. rewrite Hp. change sizeof_Header with 8.
  rewrite u32_small by (unfold is_u32, W32, bend in *; lia).
  assert (Hd : forall c, c ∈ L2 -> b.1 + 4 < c.1) by (rewrite Forall_forall in Ha; intros c Hc; specialize (Ha c Hc); unfold bend in *; lia).
  destruct (b.1 + b.2 * 8 =? first L2 base) eqn:E.
  - destruct L2 as [|c L']; [cbn in E; unfold bend in *; lia|]. cbn [first] in *.
    destruct Hch as (Hc1 & Hc2 & Hch). apply Forall_cons in Hr as [(Hc3 & Hc4 & Hc5) Hr].
    inversion Hs as [|? ? Hs' Hcs]; subst. apply wp_bind, wp_gets. rewrite Hc2.
    apply wp_bind, wp_modify. apply wp_bind, wp_gets. apply wp_modify. cbn [hw set_hw].
    assert (b.1 + 4 < c.1) by (apply Hd; set_solver).
    rewrite (fn_lookup_insert_ne _ (b.1 + 4) c.1) by lia. rewrite Hc1.
    rewrite u32_small by (unfold is_u32, W32, bend in *; lia).
    apply (HQ (b.1, b.2 + c.2) L').
    + right. exists c. split_and!; [done|unfold bend; lia|done].
    + intros w Hw1 Hw2. by rewrite !fn_lookup_insert_ne.
    + cbn [chain fst snd]. rewrite fn_lookup_insert. rewrite fn_lookup_insert_ne, fn_lookup_insert by lia.
      split_and!; [done|done|]. do 2 (apply first_word; [intros d Hd'; assert (b.1 + 4 < d.1) by (apply Hd; set_solver); lia|]). done.
    + apply sorted_cons; [cbn; lia|done|]. destruct L' as [|d L']; cbn; [lia|].
      apply Forall_cons in Hcs as [[_ Hcd] _]. unfold bend in *. cbn. lia.
  - apply wp_modify. apply (HQ b L2); [by left| | |].
    + intros w Hw1 _. by rewrite fn_lookup_insert_ne.
    + cbn [chain]. rewrite fn_lookup_insert. rewrite fn_lookup_insert_ne by lia. split_and!; [done|done|].
      apply first_word; [intros d Hd'; assert (b.1 + 4 < d.1) by (by apply Hd); lia|done].
    + apply sorted_cons; [lia|done|]. destruct L2 as [|c L']; cbn; [lia|]. apply Forall_cons in Ha as [Ha _].
      cbn in E. unfold bend in *. lia.
Qed.

(** The list with [b] after [p], or as a part of it. *)
Definition joined (L1 : list blk) (p b : blk) (L2 L : list blk) : Prop :=
  L = L1 ++ p :: b :: L2 \/ bend p = b.1 /\ L = L1 ++ (p.1, p.2 + b.2) :: L2.

Lemma wp_link_prev L1 p b L2 nxt s (Q : unit -> heap -> Prop) :
  in_range p -> in_range b -> 1 <= b.2 -> p.1 + 8 <= b.1 -> bend p <= b.1 ->
  (forall d, d ∈ L1 -> d.1 + 8 <= p.1) ->
  chain (hw s) (L1 ++ [p]) nxt -> StronglySorted before (L1 ++ [p]) ->
  chain (hw s) (b :: L2) base -> StronglySorted before (b :: L2) ->
  (forall L m, joined L1 p b L2 L -> (forall w, w <> p.1 -> w <> p.1 + 4 -> m w = hw s w) ->
     chain m L base -> StronglySorted before L -> Q tt (set_hw m s)) ->
  wp (link_prev b.1 p.1) Q s.
Proof.
  intros (Hp0 & Hp1 & Hp2) (Hb0 & Hb1 & Hb2) Hb3 Hpb Hpe Hd Hc1 Hs1 Hc2 Hs2 HQ. unfold link_prev.
  assert (Hd2 : forall d, d ∈ b :: L2 -> p.1 + 8 <= d.1).
  { intros d [->|Hd']%elem_of_cons; [done|]. inversion Hs2 as [|? ? _ Hbd]; subst. rewrite Forall_forall in Hbd.
    destruct (Hbd d Hd'). unfold bend in *. lia. }
  pose proof (chain_next _ L1 p [] nxt Hc1) as [_ Hps]. apply chain_app in Hc1 as [Hc1 _]. cbn [first] in Hc1.
  apply wp_bind, wp_gets. rewrite Hps. change sizeof_Header with 8.
  rewrite u32_small by (unfold is_u32, W32, bend in *; lia).
  destruct Hc2 as (Hc2 & Hc3 & Hc4). destruct (p.1 + p.2 * 8 =? b.1) eqn:E.
  - apply wp_bind, wp_gets. rewrite Hc3. apply wp_bind, wp_modify, wp_bind, wp_gets, wp_modify. cbn [hw set_hw].
    rewrite (fn_lookup_insert_ne _ (p.1 + 4) b.1) by lia. rewrite Hc2.
    rewrite u32_small by (unfold is_u32, W32, bend in *; lia).
    apply (HQ (L1 ++ (p.1, p.2 + b.2) :: L2)).
    + right. split; [unfold bend; lia|done].
    + intros w Hw1 Hw2. by rewrite !fn_lookup_insert_ne.
    + apply chain_app. cbn [first chain fst snd]. rewrite fn_lookup_insert. rewrite fn_lookup_insert_ne, fn_lookup_insert by lia.
      split_and!; [|done|done|].
      * do 2 (apply first_word; [intros d Hd'; specialize (Hd d Hd'); lia|]). done.
      * do 2 (apply first_word; [intros d Hd'; assert (p.1 + 8 <= d.1) by (apply Hd2; set_solver); lia|]). done.
    + apply sorted_join; [by apply (sorted_last L1 p)|]. inversion Hs2 as [|? ? Hs3 Hbd]; subst.
      apply sorted_cons; [cbn; lia|done|]. destruct L2 as [|d L2]; cbn; [lia|].
      apply Forall_cons in Hbd as [[_ Hbd] _]. unfold bend in *. cbn. lia.
  - apply wp_modify. apply (HQ (L1 ++ p :: b :: L2)).
    + by left.
    + intros w Hw1 Hw2. by rewrite fn_lookup_insert_ne.
    + apply chain_app. cbn [first chain]. rewrite fn_lookup_insert. rewrite !fn_lookup_insert_ne by lia.
      split_and!; try done.
      * apply first_word; [intros d Hd'; specialize (Hd d Hd'); lia|]. done.
      * apply first_word; [intros d Hd'; assert (p.1 + 8 <= d.1) by (apply Hd2; set_solver); lia|]. done.
    + apply sorted_join; [done|]. apply sorted_cons; [done|done|]. cbn. unfold bend in *. lia.
Qed.

(** ** free() *)

Definition units (L : list blk) : Z := foldr (fun b n => b.2 + n) 0 L.

Lemma units_cons b L : units (b :: L) = b.2 + units L.
Proof. done. Qed.
Lemma units_app L1 L2 : units (L1 ++ L2) = units L1 + units L2.
Proof. induction L1 as [|b L1 IH]; [done|]. cbn [app]. rewrite !units_cons. lia. Qed.

Lemma good_merge e A (b c : blk) :
  Forall (fun a => 1 <= a.2) A -> good base e A b -> good base e A c -> bend b = c.1 -> good base e A (b.1, b.2 + c.2).
Proof.
  intros HA (B1 & B2 & B3 & B4 & B5) (C1 & C2 & C3 & C4 & C5) E. unfold good, bend in *. cbn.
  split_and!; [lia|done|done|lia|]. rewrite Forall_forall in *. intros a Ha.
  specialize (HA a Ha). specialize (B5 a Ha). specialize (C5 a Ha). unfold apart, bend in *. cbn. lia.
Qed.

Lemma absorbed_good e A b L b' L' :
  Forall (fun a => 1 <= a.2) A -> Forall (good base e A) (b :: L) -> absorbed b L b' L' ->
  Forall (good base e A) (b' :: L') /\ b'.1 = b.1 /\ b.2 <= b'.2 /\ units (b' :: L') = units (b :: L) /\
  bend b <= bend b' /\ L' `suffix_of` L.
Proof.
  intros HA [Hb HL]%Forall_cons [[-> ->]|(c & -> & E & ->)]; [split_and!; done || by constructor|].
  apply Forall_cons in HL as [Hc HL]. pose proof Hc as (Hc1 & _). cbn. split_and!; try done; try lia.
  - constructor; [by apply good_merge|done].
  - unfold bend in *. cbn. lia.
  - by apply suffix_cons_r.
Qed.

Lemma joined_good e A L1 p b L2 L :
  Forall (fun a => 1 <= a.2) A -> Forall (good base e A) (L1 ++ p :: b :: L2) -> joined L1 p b L2 L ->
  Forall (good base e A) L /\ units L = units (L1 ++ p :: b :: L2) /\ exists c, c ∈ L /\ b.2 <= c.2.
Proof.
  intros HA HL [->|[E ->]].
  - split_and!; [done|done|]. exists b. split; [set_solver|done].
  - apply Forall_app in HL as [HL1 HL]. apply Forall_cons in HL as [Hp HL]. apply Forall_cons in HL as [Hb HL2].
    split_and!.
    + apply Forall_app_2; [done|]. constructor; [by apply good_merge|done].
    + rewrite !units_app, !units_cons. cbn [snd]. lia.
    + exists (p.1, p.2 + b.2). destruct Hp as (Hp & _). split; [set_solver|cbn; lia].
Qed.

(** The free list after free(b). *)
Lemma inserted e A F b L1 p L2 b' L' L :
  Forall (fun a => 1 <= a.2) A -> Forall (good base e A) (b :: F) ->
  (base, 0) :: F = L1 ++ p :: L2 -> absorbed b L2 b' L' -> joined L1 p b' L' L ->
  exists F', L = (base, 0) :: F' /\ p.1 ∈ L.*1 /\ Forall (good base e A) F' /\ units F' = units F + b.2 /\
    exists c, c ∈ F' /\ b.2 <= c.2.
Proof.
  intros HA HF HL Hab Hj. apply Forall_cons in HF as [Hb HF].
  destruct L1 as [|x L1]; injection HL as <- ->.
  - destruct (absorbed_good e A b L2 b' L' HA (Forall_cons_2 _ _ _ Hb HF) Hab) as (G & E1 & E2 & E3 & _).
    destruct Hj as [->|[Hj ->]]; [|destruct Hb as (_ & _ & Hb & _); unfold bend in Hj; cbn in Hj; lia].
    exists (b' :: L'). split_and!; [done|cbn; set_solver|done|rewrite !units_cons in *; lia|]. exists b'. split; [set_solver|done].
  - apply Forall_app in HF as [HL1 HF]. apply Forall_cons in HF as [Hp HL2].
    destruct (absorbed_good e A b L2 b' L' HA (Forall_cons_2 _ _ _ Hb HL2) Hab) as (G & E1 & E2 & E3 & _).
    assert (HJ : exists F', L = (base, 0) :: F' /\ joined L1 p b' L' F').
    { destruct Hj as [->|[Hj ->]]; eexists; (split; [reflexivity|]); [by left|by right]. }
    destruct HJ as (F' & -> & HJ). exists F'.
    destruct (joined_good e A L1 p b' L' F' HA) as (G' & EU & c & Hc & Hcb);
      [apply Forall_app_2; [done|by constructor]|done|].
    split_and!; [done| |done| |].
    + destruct HJ as [->|[_ ->]]; rewrite fmap_cons, fmap_app; set_solver.
    + rewrite EU, !units_app, !units_cons. rewrite !units_cons in E3. lia.
    + exists c. split; [done|lia].
Qed.

Lemma owns_range s F A : owns base s F A -> Forall in_range ((base, 0) :: F).
Proof.
  intros O. destruct (o_mem _ _ _ _ O) as (M1 & M2 & _ & M4). constructor; [unfold in_range, bend; cbn; lia|].
  eapply Forall_impl; [exact (o_free _ _ _ _ O)|]. intros c (C1 & _ & C3 & C4 & _). unfold in_range in *. lia.
Qed.

(** A block that is neither free nor allocated. *)
Definition spare (s : heap) (F A : list blk) (b : blk) : Prop :=
  hw s (b.1 + 4) = b.2 /\ good base (brk s) A b /\ Forall (apart b) F.

(** The header of a good block, or of base, is outside of allocated blocks. *)
Lemma header_apart e A c a w :
  c = (base, 0) \/ good base e A c -> a ∈ A -> good base e [] a -> a.1 <= w < bend a -> w <> c.1 /\ w <> c.1 + 4.
Proof.
  intros [->|(C1 & _ & _ & _ & C5)] Ha (A1 & _ & A3 & _) Hw; [cbn; lia|].
  rewrite Forall_forall in C5. specialize (C5 a Ha). unfold apart, bend in *. lia.
Qed.

(** The headers before the place of a block are eight bytes apart. *)
Lemma place_apart e A F b L1 p L2 :
  Forall (good base e A) F -> StronglySorted before ((base, 0) :: F) -> base + 8 <= b.1 ->
  place ((base, 0) :: F) b L1 p L2 -> (forall d, d ∈ L1 -> d.1 + 8 <= p.1) /\ p.1 + 8 <= b.1.
Proof.
  intros HF Hs Hb (HL & Hpb & Hpe & _). rewrite Forall_forall in HF. rewrite HL in Hs. apply sorted_split in Hs as (Hs1 & _ & _).
  rewrite Forall_forall in Hs1. destruct L1 as [|x L1]; injection HL as <- ->; [split; [set_solver|cbn; lia]|].
  destruct (HF p) as (P1 & _ & P3 & _); [set_solver|]. split; [|unfold bend in *; lia].
  intros d Hd. destruct (Hs1 d Hd) as [_ Hdp]. apply elem_of_cons in Hd as [->|Hd]; [cbn; lia|].
  destruct (HF d) as (D1 & _); [set_solver|]. unfold bend in *. lia.
Qed.

(** The state of the ring after the stores at the headers of [b] and [p]. *)
Lemma owns_linked s F A b L1 p L2 b' L' L m :
  owns base s F A -> spare s F A b -> place ((base, 0) :: F) b L1 p L2 ->
  absorbed b L2 b' L' -> joined L1 p b' L' L ->
  (forall w, w <> b.1 -> w <> b.1 + 4 -> w <> p.1 -> w <> p.1 + 4 -> m w = hw s w) ->
  chain m L base -> StronglySorted before L ->
  let s' := set_freep p.1 (set_hw m s) in
  exists F', owns base s' F' A /\ keeps A s s' /\ units F' = units F + b.2 /\ exists c, c ∈ F' /\ b.2 <= c.2.
Proof.
  intros [Och Oso Ofp Ofr Oal Oap Omem] (Hsz & Hb & Hap) (HL & Hpb & Hpe & H2) Hab Hj Hm Hch Hso s'.
  assert (HA : Forall (fun a => 1 <= a.2) A) by (eapply Forall_impl; [exact Oal|]; by intros a (_ & ? & _)).
  destruct (inserted (brk s) A F b L1 p L2 b' L' L HA (Forall_cons_2 _ _ _ Hb Ofr) HL Hab Hj)
    as (F' & -> & Hfp & HF' & HU & Hc).
  assert (Hpg : p = (base, 0) \/ good base (brk s) A p).
  { destruct L1; injection HL as <- ->; [by left|right]. apply Forall_app in Ofr as [_ Ofr]. by apply Forall_cons in Ofr as [? _]. }
  assert (Hk : keeps A s s').
  { intros a w Ha Hw. rewrite Forall_forall in Oal. destruct (Oal a Ha) as [_ Hga].
    destruct (header_apart (brk s) A b a w (or_intror Hb) Ha Hga); [lia|].
    destruct (header_apart (brk s) A p a w Hpg Ha Hga); [lia|]. by apply Hm. }
  exists F'. split_and!; [|done|done|done]. split; try done.
  rewrite Forall_forall in *. intros a Ha. destruct (Oal a Ha) as [E Hga]. split; [|done].
  rewrite (Hk a); [done|done|]. destruct Hga as (Ha1 & _). unfold bend. lia.
Qed.

Lemma wp_free fuel s F A b (Q : unit -> heap -> Prop) :
  owns base s F A -> spare s F A b -> (S (length F) <= fuel)%nat ->
  (forall s' F', owns base s' F' A -> keeps A s s' -> brk s' = brk s -> lim s' = lim s ->
     units F' = units F + b.2 -> (exists c, c ∈ F' /\ b.2 <= c.2) -> Q tt s') ->
  wp (free fuel (b.1 + 8)) Q s.
Proof.
  intros O Hsp Hf HQ. pose proof Hsp as (Hsz & Hb & Hap). pose proof Hb as (Hb1 & _ & Hb3 & Hb4 & Hb5).
  pose proof (owns_range _ _ _ O) as HR. pose proof O as [Och Oso Ofp Ofr Oal Oap Omem].
  assert (Hrb : in_range b) by (destruct Omem as (? & ? & _ & ?); unfold in_range; lia).
  destruct (place_exists (base, 0) F b Oso) as (L1 & p & L2 & HPL); [cbn; lia|unfold bend; cbn; lia|done| |].
  { rewrite !Forall_forall in *. intros c Hc. destruct (Ofr c Hc) as (Hc1 & _). split; [done|]. destruct (Hap c Hc); [by right|by left]. }
  pose proof HPL as (HL & Hpb & Hpe & H2). apply list_elem_of_fmap in Ofp as (x0 & Hx0 & Hin0).
  destruct (place_apart (brk s) A F b L1 p L2 Ofr Oso Hb3 HPL) as [Hd Hp8].
  apply free_steps. replace (b.1 + 8 - 8) with b.1 by lia. apply wp_bind. rewrite Hx0.
  eapply wp_mono; [apply (wp_free_find ((base, 0) :: F) b L1 p L2); try done; [lia|]|].
  { constructor; [cbn; lia|]. eapply Forall_impl; [exact Ofr|]. intros c (? & _ & ? & _). lia. }
  intros r s1 [-> ->]. rewrite HL in Och, Oso, HR. apply Forall_app in HR as [_ HR]. apply Forall_cons in HR as [HRp HR2].
  pose proof (chain_next _ _ _ _ _ Och) as [Hpn _]. apply wp_bind.
  assert (Hc12 : chain (hw s) (L1 ++ [p]) (first L2 base) /\ chain (hw s) L2 base).
  { apply chain_app. by rewrite <- app_assoc. }
  assert (Hs12 : StronglySorted before (L1 ++ [p]) /\ StronglySorted before L2).
  { replace (L1 ++ p :: L2) with ((L1 ++ [p]) ++ L2) in Oso by (by rewrite <- app_assoc).
    by apply StronglySorted_app in Oso as (_ & ? & ?). }
  apply (wp_link_next b p.1 L2); try done; [lia|apply Hc12|apply Hs12|]. intros b' L' m1 Hab Hm1 Hch1 Hso1. apply wp_bind.
  assert (Hb' : in_range b' /\ b'.1 = b.1 /\ b.2 <= b'.2).
  { destruct Hab as [[-> ->]|(c & -> & E & ->)]; [done|]. apply Forall_cons in HR2 as [(C1 & C2 & C3) _].
    unfold in_range, bend in *. cbn. lia. }
  destruct Hb' as (Hb'r & E1 & E2). rewrite <- E1.
  apply (wp_link_prev L1 p b' L' (first L2 base)); try done; try lia.
  - cbn [hw set_hw]. eapply chain_frame; [|apply Hc12]. intros d Hd'.
    assert (d.1 + 8 <= b.1) by (apply elem_of_app in Hd' as [Hd'|Hd']; [specialize (Hd d Hd'); lia|set_solver]).
    split; apply Hm1; lia.
  - apply Hs12.
  - intros L m2 Hj Hm2 Hch2 Hso2. apply wp_modify.
    destruct (owns_linked s F A b L1 p L2 b' L' L m2 O Hsp HPL Hab Hj) as (F' & O' & K & U & C); try done.
    { intros w W1 W2 W3 W4. rewrite Hm2 by done. by apply Hm1. }
    by apply (HQ (set_freep p.1 (set_hw m2 (set_hw m1 s))) F').
Qed.

(** ** morecore() *)

Lemma owns_grow s F A e m :
  owns base s F A -> brk s <= e <= lim s -> (8 | e) -> (forall w, w < brk s -> m w = hw s w) ->
  owns base (set_hw m (set_brk e s)) F A.
Proof.
  intros O He Hd Hm. pose proof (owns_range _ _ _ O) as HR. destruct O as [Och Oso Ofp Ofr Oal Oap Omem].
  assert (Hg : forall B c, good base (brk s) B c -> good base e B c) by (intros B c (? & ? & ? & ? & ?); unfold good; split_and!; done || lia).
  split; try done; cbn [hw set_hw set_brk brk lim freep].
  - eapply chain_frame; [|exact Och]. intros c Hc. apply elem_of_cons in Hc as [->|Hc]; [cbn; split; apply Hm; lia|].
    rewrite Forall_forall in Ofr. destruct (Ofr c Hc) as (C1 & _ & _ & C4 & _). split; apply Hm; unfold bend in *; lia.
  - eapply Forall_impl; [exact Ofr|]. by apply Hg.
  - eapply Forall_impl; [exact Oal|]. intros c [E (C1 & C2 & C3 & C4 & C5)]. cbn. rewrite Hm by (unfold bend in *; lia).
    split; [done|by apply Hg].
  - destruct Omem as (? & ? & ? & ?). split_and!; done || lia.
Qed.

Lemma wp_morecore fuel nu s F A (Q : Z -> heap -> Prop) :
  owns base s F A -> 1 <= nu < 2 ^ 28 -> (S (length F) <= fuel)%nat ->
  Q 0 s ->
  (forall s' F', owns base s' F' A -> keeps A s s' -> lim s' = lim s -> (exists c, c ∈ F' /\ nu <= c.2) ->
     units F <= units F' -> Q (freep s') s') ->
  wp (morecore fuel nu) Q s.
Proof.
  intros O Hnu Hf Hno Hyes. pose proof (o_mem _ _ _ _ O) as (M1 & M2 & M3 & M4). unfold morecore. cbv zeta.
  set (n := if nu <? 4096 then 4096 else nu). assert (Hn : nu <= n /\ 1 <= n < 2 ^ 28) by (subst n; case_match; lia).
  clearbody n. apply wp_bind. unfold sbrk. apply wp_bind, wp_gets. change sizeof_Header with 8.
  rewrite (u32_small (n * 8)) by (unfold is_u32, W32; lia). rewrite s32_small by lia.
  rewrite (proj2 (Z.leb_le 0 (n * 8))) by lia. destruct (_ <=? lim s) eqn:E; [|by apply wp_ret, wp_ret].
  apply wp_bind, wp_modify, wp_ret. rewrite (proj2 (Z.eqb_neq (brk s) MINUS1)) by (unfold MINUS1; lia).
  apply wp_bind, wp_modify, wp_bind. set (s1 := set_hw _ _).
  assert (O1 : owns base s1 F A).
  { apply owns_grow; [done|lia| |]. { apply Z.divide_add_r; [done|]. exists n. lia. }
    intros w Hw. cbn. rewrite fn_lookup_insert_ne; [done|lia]. }
  assert (Hall : forall c, c ∈ F ++ A -> bend c <= brk s).
  { destruct O as [_ _ _ Ofr Oal _ _]. rewrite Forall_forall in Ofr, Oal. intros c [Hc|Hc]%elem_of_app.
    - by destruct (Ofr c Hc) as (_ & _ & _ & ? & _).
    - by destruct (Oal c Hc) as [_ (_ & _ & _ & ? & _)]. }
  assert (Hsp : spare s1 F A (brk s, n)).
  { split_and!; [apply fn_lookup_insert| |].
    - unfold good, bend. cbn. split_and!; [lia|done|lia|lia|]. apply Forall_forall. intros c Hc. right. apply Hall. set_solver.
    - apply Forall_forall. intros c Hc. right. apply Hall. set_solver. }
  change (brk s + 8) with ((brk s, n).1 + 8). apply (wp_free fuel s1 F A (brk s, n)); [done|done|done|].
  intros s' F' O' K B L U (c & Hc & Hcn). apply wp_gets. apply (Hyes s' F'); [done| |by rewrite L|exists c; split; [done|cbn in Hcn; lia]|cbn [snd] in U; lia].
  intros a w Ha Hw. rewrite (K a w Ha Hw). cbn. rewrite fn_lookup_insert_ne; [done|].
  assert (bend a <= brk s) by (apply Hall; set_solver). lia.
Qed.

(** ** Taking a block *)

Lemma sorted_nodup L : StronglySorted before L -> NoDup L.*1.
Proof.
  induction 1 as [|b L HL IH Hb]; [constructor|]. cbn. constructor; [|done].
  intros (c & E & Hc)%list_elem_of_fmap. rewrite Forall_forall in Hb. destruct (Hb c Hc). unfold bend in *. lia.
Qed.

Lemma split_unique (K1 K2 L1 L2 : list blk) (x y : blk) :
  NoDup ((K1 ++ x :: K2).*1) -> K1 ++ x :: K2 = L1 ++ y :: L2 -> x.1 = y.1 -> K1 = L1 /\ x = y /\ K2 = L2.
Proof.
  revert L1. induction K1 as [|k K1 IH]; intros [|l L1] Hn E Exy; cbn in *; inversion Hn as [|? ? H1 H2]; subst.
  - by injection E as -> ->.
  - injection E as -> E. exfalso. apply H1. rewrite E, fmap_app, Exy. cbn. set_solver.
  - injection E as -> E. exfalso. apply H1. rewrite fmap_app, <- Exy. cbn. set_solver.
  - injection E as -> E. by destruct (IH L1 H2 E Exy) as (-> & -> & ->).
Qed.

(** The block before [x] in the ring is the only one that points to it. *)
Lemma pred_unique s F A prev x :
  owns base s F A -> x ∈ F -> prev ∈ ((base, 0) :: F).*1 -> hw s prev = x.1 ->
  exists L0 q L2, (base, 0) :: F = L0 ++ q :: x :: L2 /\ prev = q.1.
Proof.
  intros O Hx (y & -> & Hy)%list_elem_of_fmap Hp. pose proof (sorted_nodup _ (o_sorted _ _ _ _ O)) as Hnd.
  apply list_elem_of_split in Hy as (K1 & K2 & HK).
  assert (Hn : hw s y.1 = first K2 base) by (pose proof (o_chain _ _ _ _ O) as Hc; rewrite HK in Hc; by apply chain_next in Hc as [? _]).
  assert (Hxl : exists L1 L2, (base, 0) :: F = L1 ++ x :: L2).
  { apply (list_elem_of_further _ (base, 0)) in Hx. apply list_elem_of_split in Hx as (L1 & L2 & ->). by exists L1, L2. }
  destruct Hxl as (L1 & L2 & HL).
  destruct K2 as [|z K2]; cbn in Hn.
  { pose proof (o_free _ _ _ _ O) as Hf. rewrite Forall_forall in Hf. destruct (Hf x Hx) as (_ & _ & ? & _). lia. }
  assert (HK' : (K1 ++ [y]) ++ z :: K2 = L1 ++ x :: L2) by (by rewrite <- app_assoc, <- HL, HK).
  destruct (split_unique (K1 ++ [y]) K2 L1 L2 z x) as (E1 & -> & ->); [|done|congruence|].
  { rewrite HK', <- HL. done. }
  exists K1, y, L2. split; [done|done].
Qed.

Lemma sorted_apart L1 x L2 c :
  StronglySorted before (L1 ++ x :: L2) -> c ∈ L1 ++ L2 -> bend c < x.1 \/ bend x < c.1.
Proof.
  intros (H1 & H2 & _)%sorted_split [Hc|Hc]%elem_of_app; rewrite Forall_forall in *.
  - left. by apply H1.
  - right. by apply H2.
Qed.

(** The headers in the ring are eight bytes apart. *)
Lemma ring_apart s F A K1 d K2 c :
  owns base s F A -> (base, 0) :: F = K1 ++ d :: K2 -> c ∈ K1 -> c.1 + 8 <= d.1.
Proof.
  intros O HK Hc. pose proof (o_sorted _ _ _ _ O) as Hs. rewrite HK in Hs. apply sorted_split in Hs as (Hs & _ & _).
  rewrite Forall_forall in Hs. destruct (Hs c Hc) as [_ Hcd]. pose proof (o_free _ _ _ _ O) as Hf. rewrite Forall_forall in Hf.
  destruct K1 as [|k K1]; [set_solver|]. injection HK as <- ->. apply elem_of_cons in Hc as [->|Hc].
  - destruct (Hf d) as (_ & _ & ? & _); [set_solver|]. cbn. lia.
  - destruct (Hf c) as (? & _); [set_solver|]. unfold bend in *. lia.
Qed.

(** What is left of [x] when its last [n] units are taken. *)
Definition rest_of (x : blk) (n : Z) : list blk := if n =? x.2 then [] else [(x.1, x.2 - n)].

Lemma owns_taken s F1 x L2 A n m q :
  let F := F1 ++ x :: L2 in let F' := F1 ++ rest_of x n ++ L2 in let p := x.1 + 8 * (x.2 - n) in
  owns base s F A -> 1 <= n <= x.2 ->
  (forall a w, a ∈ A -> a.1 <= w < bend a -> m w = hw s w) -> m (p + 4) = n ->
  chain m ((base, 0) :: F') base -> q ∈ ((base, 0) :: F').*1 ->
  owns base (set_freep q (set_hw m s)) F' ((p, n) :: A).
Proof.
  intros F F' p [Och Oso Ofp Ofr Oal Oap Omem] Hn Hm Hp Hch Hq. subst F.
  pose proof Ofr as Hx. apply Forall_app in Hx as [Hf1 Hx]. apply Forall_cons in Hx as [(X1 & X2 & X3 & X4 & X5) Hf2].
  assert (Hg : good base (brk s) A (p, n)).
  { unfold good, bend in *. unfold p. cbn. split_and!; [lia| |lia|lia|].
    - apply Z.divide_add_r; [done|]. by apply Z.divide_factor_l.
    - eapply Forall_impl; [exact X5|]. intros a Ha. unfold apart, bend, p in *. cbn. lia. }
  assert (Hap : forall c, c ∈ F1 ++ L2 -> apart c (p, n)).
  { intros c Hc. destruct (sorted_apart ((base, 0) :: F1) x L2 c Oso) as [H|H]; [set_solver|left|right];
      unfold bend, p in *; cbn in *; lia. }
  split; cbn [hw set_hw set_freep brk freep lim]; try done.
  - subst F'. unfold rest_of. destruct (n =? x.2) eqn:E.
    + by apply (sorted_split ((base, 0) :: F1) x L2) in Oso as (_ & _ & ?).
    + change ((base, 0) :: F1 ++ [(x.1, x.2 - n)] ++ L2) with (((base, 0) :: F1) ++ (x.1, x.2 - n) :: L2).
      change ((base, 0) :: F1 ++ x :: L2) with (((base, 0) :: F1) ++ x :: L2) in Oso.
      pose proof Oso as (_ & Hs2 & _)%sorted_split. apply StronglySorted_app in Oso as (Ho & Hs1 & Hs3).
      apply sorted_join; [apply (sorted_last _ x); [done|]|].
      * apply StronglySorted_app. split_and!; [|done|by repeat constructor]. intros a c Ha ->%list_elem_of_singleton. apply Ho; set_solver.
      * apply StronglySorted_inv in Hs3 as [Hs3 _]. apply sorted_cons; [cbn; lia|done|]. destruct L2 as [|c L2]; cbn; [lia|].
        apply Forall_cons in Hs2 as [[_ Hc] _]. unfold bend in *. cbn. lia.
  - assert (Hall : forall c, good base (brk s) A c -> apart c (p, n) -> good base (brk s) ((p, n) :: A) c).
    { intros c (C1 & C2 & C3 & C4 & C5) Hc. unfold good. split_and!; try done. by constructor. }
    subst F'. rewrite !Forall_app, !Forall_forall in *. split_and!.
    + intros c Hc. apply Hall; [by apply Hf1|apply Hap; set_solver].
    + unfold rest_of. destruct (n =? x.2) eqn:E; [set_solver|]. intros c ->%list_elem_of_singleton.
      apply Hall; [|left; unfold bend, p; cbn; lia]. unfold good, bend in *. cbn. split_and!; try done; try lia.
      apply Forall_forall. intros a Ha. specialize (X5 a Ha). unfold apart, bend in *. cbn. lia.
    + intros c Hc. apply Hall; [by apply Hf2|apply Hap; set_solver].
  - constructor.
    + split; [done|]. destruct Hg as (? & ? & ? & ? & _). unfold good. by split_and!.
    + rewrite Forall_forall in *. intros a Ha. destruct (Oal a Ha) as [E Hga]. split; [|done].
      rewrite (Hm a); [done|done|]. destruct Hga as (? & _). unfold bend. lia.
  - constructor; [by destruct Hg as (_ & _ & _ & _ & ?)|done].
Qed.

Lemma taken_done s F1 x L2 A n m L0 q :
  let F' := F1 ++ rest_of x n ++ L2 in let p := x.1 + 8 * (x.2 - n) in let s' := set_freep q.1 (set_hw m s) in
  owns base s (F1 ++ x :: L2) A -> 1 <= n <= x.2 -> (base, 0) :: F1 = L0 ++ [q] ->
  (forall w, w <> q.1 -> w < x.1 \/ bend x <= w -> m w = hw s w) -> m (p + 4) = n ->
  chain m (L0 ++ q :: rest_of x n ++ L2) base ->
  owns base s' F' ((p, n) :: A) /\ keeps A s s' /\ units F' + n = units (F1 ++ x :: L2).
Proof.
  intros F' p s' O Hn HF1 Hm Hp Hch.
  assert (E : (base, 0) :: F' = L0 ++ q :: rest_of x n ++ L2).
  { subst F'. change ((base, 0) :: F1 ++ rest_of x n ++ L2) with (((base, 0) :: F1) ++ rest_of x n ++ L2).
    by rewrite HF1, <- app_assoc. }
  assert (Hqg : q = (base, 0) \/ good base (brk s) A q).
  { destruct L0 as [|z L0]; injection HF1 as <- ->; [by left|right]. pose proof (o_free _ _ _ _ O) as Hf.
    rewrite Forall_forall in Hf. apply Hf. set_solver. }
  assert (Hk : forall a w, a ∈ A -> a.1 <= w < bend a -> m w = hw s w).
  { intros a w Ha Hw. pose proof (o_alloc _ _ _ _ O) as Oal. rewrite Forall_forall in Oal. destruct (Oal a Ha) as [_ Hga].
    destruct (header_apart (brk s) A q a w Hqg Ha Hga Hw). apply Hm; [done|].
    pose proof (o_free _ _ _ _ O) as Hf. apply Forall_app in Hf as [_ Hf]. apply Forall_cons in Hf as [(_ & _ & _ & _ & Hf) _].
    rewrite Forall_forall in Hf. specialize (Hf a Ha). unfold apart in Hf. lia. }
  split_and!.
  - apply (owns_taken s F1 x L2 A n m q.1); try done; fold F'; rewrite E; [done|]. rewrite fmap_app. cbn. set_solver.
  - intros a w Ha Hw. apply (Hk a); [done|lia].
  - subst F'. rewrite !units_app, units_cons. unfold rest_of. destruct (n =? x.2) eqn:En; cbn; lia.
Qed.

(** The ring around the block [x] and the header [q] that points to it. *)
Record around (s : heap) (F A : list blk) (x q : blk) (L0 F1 L2 : list blk) : Prop := {
  a_free : F = F1 ++ x :: L2;
  a_ring : (base, 0) :: F1 = L0 ++ [q];
  a_range : in_range x;
  a_chain : chain (hw s) L0 q.1 /\ hw s (q.1 + 4) = q.2 /\ hw s q.1 = x.1 /\ hw s x.1 = first L2 base /\
            hw s (x.1 + 4) = x.2 /\ chain (hw s) L2 base;
  a_before : (forall d, d ∈ L0 -> d.1 + 8 <= q.1) /\ q.1 + 8 <= x.1;
  a_after : forall d, d ∈ L2 -> bend x < d.1;
}.

Lemma around_exists s F A x prev :
  owns base s F A -> x ∈ F -> prev ∈ ((base, 0) :: F).*1 -> hw s prev = x.1 ->
  exists q L0 F1 L2, prev = q.1 /\ around s F A x q L0 F1 L2.
Proof.
  intros O Hx Hprev Hp. destruct (pred_unique s F A prev x O Hx Hprev Hp) as (L0 & q & L2 & HL & ->).
  pose proof (owns_range _ _ _ O) as HR. rewrite HL in HR. apply Forall_app in HR as [_ HR].
  apply Forall_cons in HR as [_ HR]. apply Forall_cons in HR as [Hr _].
  assert (HF : exists F1, F = F1 ++ x :: L2 /\ (base, 0) :: F1 = L0 ++ [q]).
  { destruct L0 as [|z L0]; injection HL as <- ->; [by exists []|]. exists (L0 ++ [q]). by rewrite <- app_assoc. }
  destruct HF as (F1 & -> & HF1). exists q, L0, F1, L2. split; [done|].
  pose proof (o_chain _ _ _ _ O) as Hch. rewrite HL in Hch. apply chain_app in Hch as [Hc0 (Hc1 & Hc2 & Hc3 & Hc4 & Hc5)].
  assert (HL' : (base, 0) :: F1 ++ x :: L2 = (L0 ++ [q]) ++ x :: L2) by (by rewrite HL, <- app_assoc).
  split; try done; [split|].
  - intros d. by apply (ring_apart s (F1 ++ x :: L2) A L0 q (x :: L2)).
  - apply (ring_apart s (F1 ++ x :: L2) A (L0 ++ [q]) x L2); [done|done|set_solver].
  - pose proof (o_sorted _ _ _ _ O) as Hs. rewrite HL' in Hs.
    apply sorted_split in Hs as (_ & Hs & _). rewrite Forall_forall in Hs. intros d Hd. by apply Hs.
Qed.

Lemma wp_take_block s F A x prev n (Q : Z -> heap -> Prop) :
  owns base s F A -> x ∈ F -> 1 <= n <= x.2 -> prev ∈ ((base, 0) :: F).*1 -> hw s prev = x.1 ->
  (forall s' F' p, owns base s' F' ((p, n) :: A) -> keeps A s s' -> brk s' = brk s -> lim s' = lim s ->
     units F' + n = units F -> Q (p + 8) s') ->
  wp (take_block n prev x.1) Q s.
Proof.
  intros O Hx Hn Hprev Hp HQ. destruct (around_exists s F A x prev O Hx Hprev Hp) as (q & L0 & F1 & L2 & -> & AR).
  destruct AR as [-> HF1 (X0 & X1 & X2) (Hc0 & Hc1 & Hc2 & Hc3 & Hc4 & Hc5) (A0 & Aq) A2].
  assert (Hx8 : x.1 + 8 <= bend x) by (unfold bend; lia).
  unfold take_block. apply wp_bind, wp_gets. rewrite Hc4. apply wp_bind. destruct (x.2 =? n) eqn:E.
  - apply Z.eqb_eq in E. apply wp_bind, wp_gets. rewrite Hc3. apply wp_bind, wp_modify, wp_ret, wp_bind, wp_modify, wp_ret.
    destruct (taken_done s F1 x L2 A n (<[q.1 := first L2 base]> (hw s)) L0 q O Hn HF1) as (O' & K & U).
    + intros w Hw _. by rewrite fn_lookup_insert_ne.
    + rewrite fn_lookup_insert_ne by lia. replace (x.1 + 8 * (x.2 - n)) with x.1 by lia. lia.
    + unfold rest_of. rewrite (proj2 (Z.eqb_eq n x.2)) by lia. apply chain_app. cbn [app first chain]. rewrite fn_lookup_insert.
      rewrite fn_lookup_insert_ne by lia. split_and!; [|by destruct L2|done|].
      * apply first_word; [intros d Hd; specialize (A0 d Hd); lia|done].
      * apply first_word; [intros d Hd; specialize (A2 d Hd); lia|done].
    + replace (x.1 + 8 * (x.2 - n)) with x.1 in O' by lia. change sizeof_Header with 8. by apply (HQ _ _ x.1 O').
  - apply Z.eqb_neq in E. rewrite u32_small by (unfold is_u32, W32, bend in *; lia).
    apply wp_bind, wp_modify, wp_bind, wp_gets. cbn [hw set_hw]. rewrite fn_lookup_insert.
    apply wp_bind, wp_modify, wp_ret, wp_bind, wp_modify, wp_ret. change sizeof_Header with 8. cbn [hw set_hw].
    replace (x.1 + (x.2 - n) * 8) with (x.1 + 8 * (x.2 - n)) by lia. set (p := x.1 + 8 * (x.2 - n)).
    assert (Hp1 : x.1 + 8 <= p /\ p + 8 <= bend x) by (unfold p, bend; lia).
    set (m := <[p + 4 := n]> (<[x.1 + 4 := x.2 - n]> (hw s))).
    destruct (taken_done s F1 x L2 A n m L0 q O Hn HF1) as (O' & K & U).
    + intros w _ Hw. unfold m. rewrite !fn_lookup_insert_ne by lia. done.
    + apply fn_lookup_insert.
    + unfold rest_of. rewrite (proj2 (Z.eqb_neq n x.2)) by lia. apply chain_app. cbn [app first chain fst snd]. unfold m.
      repeat rewrite (fn_lookup_insert_ne _ (p + 4)) by lia. rewrite fn_lookup_insert.
      rewrite !(fn_lookup_insert_ne _ (x.1 + 4)) by lia. split_and!; try done; [|].
      * do 2 (apply first_word; [intros d Hd; specialize (A0 d Hd); lia|]). done.
      * do 2 (apply first_word; [intros d Hd; specialize (A2 d Hd); lia|]). done.
    + by apply (HQ _ _ p O').
Qed.

(** ** malloc() *)

Lemma malloc_loop_unfold fuel n prev p s (Q : Z -> heap -> Prop) :
  (if n <=? hw s (p + 4) then wp (take_block n prev p) Q s
   else match fuel with
        | O => False
        | S fuel =>
            if p =? freep s then
              wp (let* p := morecore fuel n in
                  if p =? NULL then ret NULL else let* k := ptr p in malloc_loop fuel n p k) Q s
            else wp (malloc_loop fuel n p (hw s p)) Q s
        end) ->
  wp (malloc_loop fuel n prev p) Q s.
Proof.
  intros H. destruct fuel; cbn [malloc_loop]; apply wp_bind, wp_gets; (destruct (n <=? hw s (p + 4)); [done|]); [done|].
  apply wp_bind, wp_gets. destruct (p =? freep s); [done|]. by apply wp_bind, wp_gets.
Qed.

(** One round of the loop, from the block after freep on: it takes the first
    block that is large enough, or asks for more memory when there is none. *)
Lemma wp_round s F A n k (Q : Z -> heap -> Prop) :
  owns base s F A -> 1 <= n ->
  (forall x prev, x ∈ F -> n <= x.2 -> prev ∈ ((base, 0) :: F).*1 -> hw s prev = x.1 -> wp (take_block n prev x.1) Q s) ->
  (forall fuel, (k <= fuel)%nat -> Forall (fun c => c.2 < n) F ->
     wp (let* p := morecore fuel n in
         if p =? NULL then ret NULL else let* k := ptr p in malloc_loop fuel n p k) Q s) ->
  forall fuel, (S (length F) + k <= fuel)%nat ->
  wp (malloc_loop fuel n (freep s) (hw s (freep s))) Q s.
Proof.
  intros O Hn Hfound Hmore fuel Hf. pose proof (o_freep _ _ _ _ O) as (f & Ef & Hin)%list_elem_of_fmap.
  apply list_elem_of_split in Hin as (P & R & HL). pose proof (sorted_nodup _ (o_sorted _ _ _ _ O)) as Hnd.
  pose proof (o_chain _ _ _ _ O) as Hch. set (ring := R ++ P ++ [f]).
  assert (Hperm : (base, 0) :: F ≡ₚ ring) by (rewrite HL; unfold ring; solve_Permutation).
  assert (Hr : chain (hw s) ring (first ring base)).
  { unfold ring. apply (chain_rotate _ (P ++ [f]) R). rewrite <- app_assoc. cbn [app]. by rewrite <- HL. }
  assert (Hrn : NoDup ring.*1) by (by rewrite <- Hperm).
  assert (Hlen : length ring = S (length F)) by (by rewrite <- Hperm).
  assert (Hind : forall W V x prev fuel, ring = V ++ x :: W -> hw s prev = x.1 -> prev ∈ ((base, 0) :: F).*1 ->
            Forall (fun c => c.2 < n) V -> (S (length W) + k <= fuel)%nat -> wp (malloc_loop fuel n prev x.1) Q s).
  { induction W as [|y W IH]; intros V x prev fu E Hp Hprev HV Hfu; (destruct fu as [|fu]; [lia|]).
    all: pose proof Hr as Hx; rewrite E in Hx; apply chain_next in Hx as [Hx1 Hx2].
    all: assert (HxL : x ∈ (base, 0) :: F) by (rewrite Hperm, E; set_solver).
    all: apply malloc_loop_unfold; rewrite Hx2; destruct (n <=? x.2) eqn:Ex.
    1, 3: apply elem_of_cons in HxL as [->|HxL]; [cbn in Ex; lia|]; by apply Hfound; [..|lia| |].
    - assert (x = f) as -> by (unfold ring in E; rewrite app_assoc in E; by apply app_inj_tail in E as [_ ->]).
      rewrite Ef, Z.eqb_refl. apply Hmore; [cbn in Hfu; lia|].
      assert (HVf : Forall (fun c => c.2 < n) ring) by (rewrite E; apply Forall_app_2; [done|by constructor; [lia|]]).
      rewrite <- Hperm in HVf. by apply Forall_cons in HVf as [_ ?].
    - assert (Hne : x.1 <> freep s).
      { rewrite Ef. intros Hxf. assert (E2 : V ++ x :: y :: W = (R ++ P) ++ f :: []) by (rewrite <- E; unfold ring; by rewrite app_assoc).
        destruct (split_unique V (y :: W) (R ++ P) [] x f) as (_ & _ & ?); [by rewrite <- E|done|done|done]. }
      rewrite (proj2 (Z.eqb_neq _ _) Hne), Hx1. apply (IH (V ++ [x]) y x.1); [by rewrite E, <- app_assoc|done| | |].
      + by apply list_elem_of_fmap_2.
      + apply Forall_app_2; [done|]. by constructor; [lia|].
      + cbn in Hfu. lia. }
  assert (Hfirst : exists x W, ring = x :: W /\ hw s (freep s) = x.1).
  { assert (Hfp : hw s f.1 = first R base) by (rewrite HL in Hch; by apply chain_next in Hch as [? _]).
    rewrite Ef. unfold ring. destruct R as [|x R]; [|by exists x, (R ++ P ++ [f])].
    destruct P as [|x P]; injection HL as <- ->; eexists _, _; (split; [reflexivity|]); cbn in *; done. }
  destruct Hfirst as (x & W & E & Ex). rewrite Ex. apply (Hind W [] x); [done|done|by apply o_freep with A|constructor|].
  rewrite E in Hlen. cbn in Hlen. lia.
Qed.

(** The units that a request of [n] bytes takes. *)
Definition nunits (n : Z) : Z := (n + 7) / 8 + 1.

(** The state before the first call, or after some calls. *)
Definition ready (s : heap) (F A : list blk) : Prop :=
  owns base s F A \/
  freep s = 0 /\ F = [] /\ A = [] /\ 4 <= base /\ base + 8 <= brk s <= lim s /\ (8 | brk s) /\ lim s < 2 ^ 31.

Lemma sorted_length q F e :
  StronglySorted before (q :: F) -> Forall (fun c => 1 <= c.2 /\ bend c <= e) F -> bend q <= e ->
  bend q + 8 * Z.of_nat (length F) <= e.
Proof.
  revert q. induction F as [|c F IH]; intros q Hs HF Hq; cbn [length]; [lia|].
  apply Forall_cons in HF as [[Hc He] HF]. apply StronglySorted_inv in Hs as [Hs Hqc].
  apply Forall_cons in Hqc as [[_ Hqc] _]. specialize (IH c Hs HF He). unfold bend in *. lia.
Qed.

(** The bound on the length of the free list that the fuel is compared to. *)
Lemma owns_length s F A : owns base s F A -> Z.of_nat (length F) <= lim s / 8.
Proof.
  intros O. destruct (o_mem _ _ _ _ O) as (M1 & M2 & _).
  pose proof (sorted_length (base, 0) F (brk s) (o_sorted _ _ _ _ O)) as H. unfold bend in H. cbn [fst snd] in H.
  apply Z.div_le_lower_bound; [lia|]. enough (base + 8 * 0 + 8 * Z.of_nat (length F) <= brk s) by lia. apply H; [|lia].
  eapply Forall_impl; [exact (o_free _ _ _ _ O)|]. by intros c (? & _ & _ & ? & _).
Qed.

Lemma keeps_trans A s1 s2 s3 : keeps A s1 s2 -> keeps A s2 s3 -> keeps A s1 s3.
Proof. intros H1 H2 b w Hb Hw. rewrite (H2 b w Hb Hw). by apply (H1 b). Qed.

Lemma owns_init s :
  ready s [] [] -> freep s = 0 -> owns base (set_hw (<[base + 4 := 0]> (<[base := base]> (hw s))) (set_freep base s)) [] [].
Proof.
  intros [O|(_ & _ & _ & M1 & M2 & M3 & M4)] Hz.
  - pose proof (o_freep _ _ _ _ O) as Hf. destruct (o_mem _ _ _ _ O) as [? _]. apply list_elem_of_singleton in Hf. cbn in Hf. lia.
  - split; cbn [hw set_hw set_freep freep brk lim]; [|by repeat constructor|set_solver|constructor|constructor|constructor|done].
    cbn. rewrite fn_lookup_insert, fn_lookup_insert_ne, fn_lookup_insert by lia. done.
Qed.

Lemma wp_malloc_loop fuel n s F A (Q : Z -> heap -> Prop) :
  owns base s F A -> 1 <= n < 2 ^ 28 -> 2 * (lim s / 8) + 2 <= Z.of_nat fuel ->
  Q 0 s ->
  (forall s' F' p, owns base s' F' ((p, n) :: A) -> keeps A s s' -> lim s' = lim s -> Q (p + 8) s') ->
  wp (malloc_loop fuel n (freep s) (hw s (freep s))) Q s.
Proof.
  intros O Hn Hf Hno Hyes. pose proof (owns_length _ _ _ O) as HlF.
  set (k := S (Z.to_nat (lim s / 8))). apply (wp_round s F A n k); [done|lia| | |].
  - intros x prev Hx Hxn Hprev Hp. apply (wp_take_block s F A x); [done|done|lia|done|done|].
    intros s' F' p O' K _ L _. by apply (Hyes s' F').
  - intros fu Hfu _. unfold k in Hfu. apply wp_bind, (wp_morecore fu n s F A); [done|done|lia|by apply wp_ret|].
    intros s' F' O' K L (c & Hc & Hcn) _. pose proof (owns_length _ _ _ O') as HlF'.
    rewrite (proj2 (Z.eqb_neq _ _)).
    2: { destruct (o_mem _ _ _ _ O') as [? _]. pose proof (o_freep _ _ _ _ O') as (x & -> & Hx)%list_elem_of_fmap.
         pose proof (owns_range _ _ _ O') as HR. rewrite Forall_forall in HR. destruct (HR x Hx). unfold NULL. lia. }
    apply wp_bind, wp_gets. apply (wp_round s' F' A n 0); [done|lia| | |rewrite L in HlF'; lia].
    + intros x prev Hx Hxn Hprev Hp. apply (wp_take_block s' F' A x); [done|done|lia|done|done|].
      intros s2 F2 p O2 K2 _ L2 _. apply (Hyes s2 F2); [done|by eapply keeps_trans|congruence].
    + intros ? _ Hsm. rewrite Forall_forall in Hsm. specialize (Hsm c Hc). cbn in Hsm. lia.
  - unfold k. lia.
Qed.

Lemma wp_malloc fuel nbytes s F A (Q : Z -> heap -> Prop) :
  ready s F A -> 0 <= nbytes <= 2 ^ 31 - 16 -> 2 * (lim s / 8) + 2 <= Z.of_nat fuel ->
  (forall s' F', owns base s' F' A -> keeps A s s' -> lim s' = lim s -> Q 0 s') ->
  (forall s' F' p, owns base s' F' ((p, nunits nbytes) :: A) -> keeps A s s' -> lim s' = lim s -> Q (p + 8) s') ->
  wp (malloc base fuel nbytes) Q s.
Proof.
  intros R Hn Hf Hno Hyes. unfold malloc. change sizeof_Header with 8.
  replace (nbytes + 8 - 1) with (nbytes + 7) by lia.
  rewrite (u32_small (nbytes + 7)) by (unfold is_u32, W32; lia). rewrite u32_small by (unfold is_u32, W32; Z.div_mod_to_equations; lia).
  fold (nunits nbytes). assert (Hu : 1 <= nunits nbytes < 2 ^ 28) by (unfold nunits; Z.div_mod_to_equations; lia).
  apply wp_bind, wp_gets, wp_bind. destruct (freep s =? NULL) eqn:E; unfold NULL in E.
  - destruct R as [O|R].
    { destruct (o_mem _ _ _ _ O) as [? _]. pose proof (o_freep _ _ _ _ O) as (x & Ex & Hx)%list_elem_of_fmap.
      pose proof (owns_range _ _ _ O) as HR. rewrite Forall_forall in HR. destruct (HR x Hx). lia. }
    assert (R' := R). destruct R' as (Hz & -> & -> & _).
    pose proof (owns_init s (or_intror R) Hz) as O. apply wp_bind, wp_modify, wp_bind, wp_modify, wp_modify.
    apply wp_bind, wp_gets, wp_bind, wp_gets. apply (wp_malloc_loop fuel _ _ [] []); [exact O|done|done| |].
    + apply (Hno _ [] O); [|done]. by intros b w ?%elem_of_nil.
    + intros s' F' p O' _ L. apply (Hyes s' F' p O'); [|done]. by intros b w ?%elem_of_nil.
  - destruct R as [O|R]; [|lia]. apply wp_ret. apply wp_bind, wp_gets, wp_bind, wp_gets.
    apply (wp_malloc_loop fuel _ _ F A); [exact O|done|done|by apply (Hno s F)|done].
Qed.

(** ** A program that uses the allocator *)

Lemma apart_sym b c : apart b c -> apart c b.
Proof. unfold apart. tauto. Qed.

Lemma apart_lookup A i j b c : ForallOrdPairs apart A -> A !! i = Some b -> A !! j = Some c -> i <> j -> apart b c.
Proof.
  intros H. revert i j. induction H as [|a A Ha _ IH]; intros [|i] [|j] Hi Hj Hne; try done; cbn in *.
  - injection Hi as <-. by apply (Forall_lookup_1 _ _ _ _ Ha Hj).
  - injection Hj as <-. apply apart_sym, (Forall_lookup_1 _ _ _ _ Ha Hi).
  - apply (IH i j); [done|done|congruence].
Qed.

Lemma apart_remove A1 b A2 :
  ForallOrdPairs apart (A1 ++ b :: A2) -> ForallOrdPairs apart (A1 ++ A2) /\ Forall (apart b) (A1 ++ A2).
Proof.
  induction A1 as [|a A1 IH]; cbn; inversion 1 as [|? ? H1 H2]; subst; [done|].
  apply IH in H2 as [H2 H3]. apply Forall_app in H1 as [H1 H4]. apply Forall_cons in H4 as [H4 H5].
  split; constructor; [by apply Forall_app_2|done|by apply apart_sym|done].
Qed.

(** An allocated block may be freed. *)
Lemma owns_remove s F A1 b A2 :
  owns base s F (A1 ++ b :: A2) -> owns base s F (A1 ++ A2) /\ spare s F (A1 ++ A2) b.
Proof.
  intros [Och Oso Ofp Ofr Oal Oap Omem]. apply apart_remove in Oap as [Oap Hb].
  apply Forall_app in Oal as [Hl1 Hl2]. apply Forall_cons in Hl2 as [[Hsz (B1 & B2 & B3 & B4 & _)] Hl2].
  assert (Hrem : Forall (fun c => apart b c /\ good base (brk s) (A1 ++ A2) c) F).
  { eapply Forall_impl; [exact Ofr|]. intros c (C1 & C2 & C3 & C4 & C5). apply Forall_app in C5 as [C5 C6].
    apply Forall_cons in C6 as [C6 C7]. split; [by apply apart_sym|]. unfold good. split_and!; try done. by apply Forall_app_2. }
  split; [split; try done|].
  - eapply Forall_impl; [exact Hrem|]. by intros c [_ ?].
  - by apply Forall_app_2.
  - unfold spare, good. split_and!; try done. eapply Forall_impl; [exact Hrem|]. by intros c [? _].
Qed.

(** The owner of a block may store to it. *)
Lemma owns_store s F A b a v :
  owns base s F A -> b ∈ A -> b.1 + 8 <= a < bend b -> owns base (set_hw (<[a := v]> (hw s)) s) F A.
Proof.
  intros [Och Oso Ofp Ofr Oal Oap Omem] Hb Ha. assert (Hal := Oal). rewrite Forall_forall in Hal.
  destruct (Hal b Hb) as [_ Hgb]. split; try done; cbn [hw set_hw].
  - apply first_word; [|done]. intros c Hc. apply (header_apart (brk s) A c b a); [|done|done|lia].
    rewrite Forall_forall in Ofr. apply elem_of_cons in Hc as [->|Hc]; [by left|right; by apply Ofr].
  - rewrite Forall_forall. intros c Hc. destruct (Hal c Hc) as [E Hgc]. split; [|done].
    rewrite fn_lookup_insert_ne; [done|]. pose proof Hgc as (C1 & _). pose proof Hgb as (B1 & _).
    destruct (ForallOrdPairs_In Oap b c) as [->|[Hap|Hap]]; [by apply list_elem_of_In..|lia| |];
      unfold apart, bend in *; lia.
Qed.

(** A block as its user sees it: the pointer malloc() returned, the number of
    bytes asked for, and the words stored so far, by their index. *)
Record live := mklive { lp : Z; ln : Z; lw : gmap Z Z }.

Definition block_of (l : live) : blk := (lp l - 8, nunits (ln l)).

(** What a program does with the [k]-th of its blocks. *)
Inductive op :=
  | Malloc (nbytes : Z)
  | Free (k : nat)
  | Store (k : nat) (i v : Z).

Definition do_op (fuel : nat) (o : op) (L : list live) : M heap (list live) :=
  match o with
  | Malloc n => let* r := malloc base fuel n in ret (if r =? NULL then L else mklive r n ∅ :: L)
  | Free k =>
      match L !! k with
      | None => ret L
      | Some l => free fuel (lp l) ;;; ret (delete k L)
      end
  | Store k i v =>
      match L !! k with
      | Some l =>
          if (0 <=? i) && (4 * i + 4 <=? ln l) then
            set_ptr (lp l + 4 * i) v ;;;
            ret (<[k := mklive (lp l) (ln l) (<[i := v]> (lw l))]> L)
          else ret L
      | None => ret L
      end
  end.

Fixpoint do_ops (fuel : nat) (os : list op) (L : list live) : M heap (list live) :=
  match os with
  | [] => ret L
  | o :: os => let* L := do_op fuel o L in do_ops fuel os L
  end.

(** The blocks do not overlap, lie between base and the end of the process,
    are aligned, and hold what was stored to them. *)
Definition intact (s : heap) (L : list live) : Prop :=
  ForallOrdPairs (fun a b => lp a + ln a <= lp b \/ lp b + ln b <= lp a) L /\
  Forall (fun l => (8 | lp l) /\ base + 8 < lp l /\ lp l + ln l <= brk s /\
                   forall i v, lw l !! i = Some v -> hw s (lp l + 4 * i) = v) L.

Definition bounded (o : op) : Prop := match o with Malloc n => 0 <= n <= 2 ^ 31 - 16 | _ => True end.

(** The words of a live block are the words of its user. *)
Definition stored (s : heap) (l : live) : Prop :=
  0 <= ln l /\ forall i v, lw l !! i = Some v -> 0 <= i /\ 4 * i + 4 <= ln l /\ hw s (lp l + 4 * i) = v.

Definition inv (s : heap) (L : list live) : Prop :=
  (exists F, ready s F (block_of <$> L)) /\ Forall (stored s) L.

Lemma stored_keeps L s s' : keeps (block_of <$> L) s s' -> Forall (stored s) L -> Forall (stored s') L.
Proof.
  intros K H. rewrite Forall_forall in *. intros l Hl. destruct (H l Hl) as [Hn Hw]. split; [done|].
  intros i v Hi. destruct (Hw i v Hi) as (I1 & I2 & I3). split_and!; [done|done|].
  rewrite (K (block_of l)); [done|by apply list_elem_of_fmap_2|]. unfold block_of, bend, nunits. cbn [fst snd].
  Z.div_mod_to_equations; lia.
Qed.

Lemma inv_intact s L : inv s L -> intact s L.
Proof.
  intros [[F [O|(_ & _ & HA & _)]] HS]; [|destruct L; [by split; constructor|done]].
  pose proof (o_alloc _ _ _ _ O) as Oal. pose proof (o_apart _ _ _ _ O) as Oap. clear O. split.
  - induction L as [|l L IH]; constructor; inversion Oap as [|? ? H1 H2]; subst;
      apply Forall_cons in HS as [[Hl _] HS]; apply Forall_cons in Oal as [_ Oal]; [|by apply IH].
    rewrite Forall_fmap in H1. rewrite Forall_forall in *. intros c Hc. specialize (H1 c Hc). destruct (HS c Hc) as [Hc0 _].
    unfold apart, bend, block_of, nunits in H1. cbn [fst snd compose] in H1.
    Z.div_mod_to_equations; lia.
  - rewrite Forall_fmap in Oal. rewrite Forall_forall in *. intros l Hl. destruct (HS l Hl) as [Hn Hw].
    destruct (Oal l Hl) as [_ (B1 & B2 & B3 & B4 & _)]. unfold bend, block_of, nunits in *. cbn [fst snd] in *.
    split_and!; [|lia|Z.div_mod_to_equations; lia|by intros i v Hi; apply (Hw i v Hi)].
    replace (lp l) with (lp l - 8 + 8) by lia. apply Z.divide_add_r; [done|]. by exists 1.
Qed.

Lemma wp_do_malloc fuel n L s :
  inv s L -> 0 <= n <= 2 ^ 31 - 16 -> 2 * (lim s / 8) + 2 <= Z.of_nat fuel ->
  wp (do_op fuel (Malloc n) L) (fun L' s' => inv s' L' /\ lim s' = lim s) s.
Proof.
  intros [[F R] HS] Hn Hf. apply wp_bind, (wp_malloc fuel n s F (block_of <$> L)); [done|done|done| |].
  - intros s' F' O' K HL. apply wp_ret. split; [|done]. split; [exists F'; by left|by apply (stored_keeps L s)].
  - intros s' F' p O' K HL. apply wp_ret. pose proof (o_alloc _ _ _ _ O') as Hp. apply Forall_cons in Hp as [[_ (_ & _ & Hp & _)] _].
    destruct (o_mem _ _ _ _ O') as [? _]. cbn [fst] in Hp. rewrite (proj2 (Z.eqb_neq _ NULL)) by (unfold NULL; lia).
    split; [|done]. split; [exists F'; left; cbn; unfold block_of at 1; cbn; by replace (p + 8 - 8) with p by lia|].
    constructor; [|by apply (stored_keeps L s)]. split; [cbn; lia|]. cbn. by intros i v ?%lookup_empty_Some.
Qed.

Lemma wp_do_free fuel k L s :
  inv s L -> 2 * (lim s / 8) + 2 <= Z.of_nat fuel ->
  wp (do_op fuel (Free k) L) (fun L' s' => inv s' L' /\ lim s' = lim s) s.
Proof.
  intros [[F R] HS] Hf. cbn. destruct (L !! k) as [l|] eqn:Hk; [|by apply wp_ret; split; [split; [exists F|]|]].
  destruct R as [O|(_ & _ & HA & _)]; [|by destruct L].
  rewrite delete_take_drop. pose proof (take_drop_middle L k l Hk) as HL. rewrite <- HL in O, HS.
  rewrite fmap_app in O. cbn [fmap list_fmap] in O. pose proof (owns_length _ _ _ O) as Hlen.
  apply owns_remove in O as [O Hsp]. rewrite <- fmap_app in O, Hsp. apply wp_bind.
  replace (lp l) with ((block_of l).1 + 8) by (unfold block_of; cbn; lia). apply (wp_free fuel s F _ (block_of l) _ O Hsp); [lia|].
  intros s' F' O' K _ Hl _ _. apply wp_ret. split; [|done]. split; [exists F'; by left|].
  apply (stored_keeps _ s); [done|]. apply Forall_app in HS as [H1 H2]. apply Forall_cons in H2 as [_ H2]. by apply Forall_app_2.
Qed.

Lemma wp_do_store fuel k i v L s :
  inv s L -> wp (do_op fuel (Store k i v) L) (fun L' s' => inv s' L' /\ lim s' = lim s) s.
Proof.
  intros I. assert (I' := I). destruct I' as [[F R] HS]. cbn. destruct (L !! k) as [l|] eqn:Hk; [|by apply wp_ret].
  destruct ((0 <=? i) && (4 * i + 4 <=? ln l)) eqn:E; [|by apply wp_ret]. apply wp_bind, wp_modify, wp_ret. split; [|done].
  destruct R as [O|(_ & _ & HA & _)]; [|by destruct L].
  assert (Hb : block_of l ∈ block_of <$> L) by (by apply list_elem_of_fmap_2, list_elem_of_lookup_2 with k).
  assert (Ha : (block_of l).1 + 8 <= lp l + 4 * i < bend (block_of l)).
  { unfold block_of, bend, nunits. cbn [fst snd]. Z.div_mod_to_equations; lia. }
  assert (Hbl : block_of <$> <[k := mklive (lp l) (ln l) (<[i := v]> (lw l))]> L = block_of <$> L).
  { rewrite list_fmap_insert. apply list_insert_id. by rewrite list_lookup_fmap, Hk. }
  split; [exists F; left; rewrite Hbl; by apply (owns_store s F _ (block_of l))|].
  apply Forall_lookup_2. intros j x Hj. apply list_lookup_insert_Some in Hj as [(-> & <- & _)|[Hne Hj]].
  - destruct (Forall_lookup_1 _ _ _ _ HS Hk) as [Hn Hw]. split; [done|]. intros j' u Hu. cbn in Hu |- *.
    apply lookup_insert_Some in Hu as [[<- <-]|[Hij Hu]]; [rewrite fn_lookup_insert; lia|].
    rewrite fn_lookup_insert_ne by lia. by apply Hw.
  - destruct (Forall_lookup_1 _ _ _ _ HS Hj) as [Hn Hw]. split; [done|]. intros j' u Hu.
    destruct (Hw j' u Hu) as (W1 & W2 & W3). split_and!; [done|done|]. cbn. rewrite fn_lookup_insert_ne; [done|].
    assert (Hap : apart (block_of l) (block_of x)) by (apply (apart_lookup (block_of <$> L) k j); [apply O|..|done]; by rewrite list_lookup_fmap, ?Hk, ?Hj).
    unfold apart, bend, block_of, nunits in Hap. cbn [fst snd] in Hap. Z.div_mod_to_equations; lia.
Qed.

(** C13: A program that mallocs, frees and stores to its blocks in any order
    always gets an answer, its live blocks never overlap, lie below the end of
    the process and are aligned, and every word it stored is still there. *)
Theorem malloc_free_intact fuel os s :
  ready s [] [] -> Forall bounded os -> 2 * (lim s / 8) + 2 <= Z.of_nat fuel ->
  wp (do_ops fuel os []) (fun L s' => intact s' L) s.
Proof.
  intros R Hos Hf. assert (I : inv s []) by (split; [by exists []|constructor]). revert I Hf. clear R.
  generalize ([] : list live) as L. revert s. induction os as [|o os IH]; intros s L I Hf; cbn [do_ops].
  - apply wp_ret. by apply inv_intact.
  - apply Forall_cons in Hos as [Ho Hos]. apply wp_bind.
    eapply wp_mono with (fun L' s' => inv s' L' /\ lim s' = lim s).
    + destruct o as [n|k|k i v]; [by apply wp_do_malloc|by apply wp_do_free|by apply wp_do_store].
    + intros L' s' [I' E]. apply IH; [done|done|by rewrite E].
Qed.

End Spec.

Module Example.

(** A process of 16 bytes at the start that may grow to 64 KB. *)
Definition start : heap := mkheap (fun _ => 0) 0 16 65536.

Definition prog : list op :=
  [Malloc 12; Malloc 40; Store 0 2 77; Store 1 2 55; Free 1; Malloc 4; Malloc 100; Store 0 24 99; Free 2].

Lemma malloc_free_intact_witness :
  ready 8 start [] [] /\ Forall bounded prog /\
  (match do_ops 8 40 prog [] start with Ok L s => map (fun l => (lp l, ln l, hw s (lp l + 96))) L | _ => [] end) =
    [(32608, 100, 99); (32776, 4, 0)] /\
  wp (do_ops 8 (Z.to_nat 16386) prog []) (fun L s' => intact 8 s' L) start.
Proof.
  assert (R : ready 8 start [] []).
  { right. cbn. split_and!; try done. by exists 2. }
  assert (B : Forall bounded prog) by (repeat constructor; cbn; lia).
  split_and!; [done|done|vm_compute; reflexivity|]. apply malloc_free_intact; [done|done|]. by rewrite Z2Nat.id.
Defined.

(** A request of 2^32 - 1 bytes is answered with a block for none: the
    rounding overflows. *)
Lemma malloc_overflow :
  match malloc 8 20 (2 ^ 32 - 1) start with
  | Ok r s => r <> NULL /\ hw s (r - 8 + 4) = 1
  | _ => False
  end.
Proof. vm_compute. split; [discriminate|reflexivity]. Qed.

(** A request of 2^32 - 64 KB makes the process smaller: sbrk() takes the
    number of bytes as a signed number. *)
Lemma malloc_shrinks :
  let s0 := mkheap (fun _ => 0) 0 131072 262144 in
  match sbrk (u32 (nunits (2 ^ 32 - 65536) * sizeof_Header)) s0 with
  | Ok r s => r = 131072 /\ brk s < brk s0
  | _ => False
  end.
Proof. vm_compute. split; reflexivity. Qed.

End Example.
